(* ===== verification/_CoqProject ===== *)
-Q . S2P
Prelude.v
PyStr.v
PyVal.v
Backoff.v
KvPayload.v
KvPayloadFacts.v
KvPayloadKeys.v
KvPayloadSpec.v
KvStore.v
KvStoreFacts.v
KvFiles.v
KvFilesFacts.v
KvCodec.v
KvConsul.v
KvIni.v
KvDir.v
KvDirSpec.v
ConfStore.v
ConfStoreSpec.v
ConfLock.v
LockProtocol.v
ConfLockRefine.v
ConfWitness.v
DataAccess.v
ConsulDb.v
ConsulDbSpec.v
Collection.v
SecureStorage.v
SecureStorageSpec.v
ConsulWitness.v
CollectionWitness.v
DbProvider.v
EsDb.v
HaDecision.v
HaDecisionSpec.v
HaWitness.v
Release.v
ReleaseSpec.v
Activity.v
ActivitySpec.v
HacCompile.v
HacGenerate.v
HacSpec.v
HacWitness.v
LogFilter.v
LogFilterSpec.v
MessageBus.v
MessageBusSpec.v
EventMessage.v
Discovery.v
ConfCli.v
ConfCliSpec.v
ConfCliWitness.v
Kafka.v
KafkaSpec.v
Validator.v
ValidatorSpec.v
SchemaDoc.v
Bundle.v
BundleSpec.v
BundleStatus.v
BundleWitness.v
BundleClean.v
LdapDb.v
LdapDbSpec.v
LdapFilterSpec.v
Amqp.v
Setup.v
Rest.v
Clis.v
Packages.v
NodeProcess.v
LdapConfig.v
EsSetup.v
LdapSetup.v
ConsulSetup.v
CliFramework.v
HealthEvent.v
Support.v
Platform.v
