(* ===== verification/Prelude.v ===== *)
(** * The Python utilities of CORTX: a verification development

    The program is the package [cortx.utils] (src/py-utils/src/utils): the
    library that the components of a storage cluster share.  This development
    translates its components into executable definitions and proves what they
    promise to each other.  Paths below are relative to that directory.

    ** The parts and how they interact

    - Configuration.  A hierarchical payload ([kv_store/kv_payload.py]) is
      loaded from and dumped to a backend ([kv_store/*.py]: JSON, YAML, TOML,
      properties and INI files, directories, dictionaries, Salt pillars, a
      Consul service).  [conf_store/] keeps copies of backends under indexes,
      with copies, merges and comparisons between them and a lock; [Conf] is
      the process-wide instance almost every other component reads, and the
      command [conf] a process of its own over it.
    - Data.  Models are stored in Consul, Elasticsearch or OpenLDAP
      ([data/db]); clients build filters and queries ([data/access]), and a
      provider creates storages when first used ([db_provider.py]).  Secrets,
      unsupported features and the decisions of HA are collections of it.
    - Messages.  [message_bus/] is a bus over Kafka; IEM alerts
      ([iem_framework/]) are JSON texts on it; [setup/kafka] sets it up.
    - High availability.  [ha/dm] decides on alerts and keeps the decisions;
      [ha/hac] compiles specifications of resources and generates the scripts
      of a cluster.
    - Support.  Bundles of logs with filters by size and time
      ([support_framework/], [src/support], [manifest/]), activities
      ([activity_tracker/]), resource discovery ([discovery/]), the release
      manifest ([schema/release.py]) and validators of nodes ([validator/]).
    - Set-up.  The phases that install and configure the utilities
      ([src/setup]) and their servers ([setup/]: Kafka, Elasticsearch, Consul,
      OpenLDAP), over the configuration store and a node's files and commands.

    ** How a component is modelled

    A Python method that changes state is a function of type [ST S A]
    ([S → res A * S]): the result or the exception, and the state as it is left
    in both cases.  A constructor of [exn] stands for each exception class;
    messages of exceptions are not modelled, their return codes are.  [for]
    loops are [st_iter] or recursion on the list; [while] loops carry fuel, and
    a theorem says that enough of it gives a result.  The services the program
    talks to (Consul, Kafka, Elasticsearch, LDAP, commands, the clock) and the
    libraries that read and write formats are type classes of operations;
    what a theorem relies on of them is a class of laws, and concrete
    instances (files [*Witness], [KvCodec]) show that the laws can hold.

    ** Files and modules

    A component is one file, or a file of definitions with its theorems in
    files of their own ([*Facts], [*Spec], [*Witness]).

    - [Prelude]: results, the state and exception monad, loops, automation,
      generic lemmas.  [PyStr], [PyVal]: Python's strings, values and
      dictionaries.  [Backoff]: [common/common.py], retries.
    - [KvPayload] (module [Payload]): [kv_payload.py].  [KvPayloadFacts],
      [KvPayloadKeys], [KvPayloadSpec]: a reference semantics [lookup] of keys,
      and the theorems on get, set, delete, get_keys and search.
    - [KvStore] ([Store]): [kv_store.py] and the factory, over the interface
      [backend] with [BackendLaws].  [KvStoreFacts].  [KvFiles] ([Files]),
      [KvFilesFacts], [KvCodec]: the file stores and a concrete format.
      [KvConsul], [KvIni], [KvDir] ([Dir]), [KvDirSpec]: the other stores of
      [kv_store_collection.py].
    - [ConfStore] ([Conf]): [conf_cache.py], [conf_store.py]; [ConfStoreSpec].
      [ConfLock]: the lock when calls run one after the other; [LockProtocol]:
      when they interleave; [ConfLockRefine]: the first refines the second.
      [ConfWitness]: runs.  [ConfCli], [ConfCliSpec], [ConfCliWitness]:
      [conf_cli.py].
    - [DataAccess] ([Data]): [data/access], [generic_storage.py].  [ConsulDb],
      [ConsulDbSpec], [ConsulWitness]: the Consul storage.  [EsDb] ([Es]): the
      Elasticsearch storage.  [LdapDb], [LdapDbSpec]: the OpenLDAP storage.
      [DbProvider]: the provider, as interleaved coroutines.
    - [Collection] ([Coll]): what a storage promises to its clients, a class of
      laws that the Consul storage satisfies; [SecureStorage],
      [SecureStorageSpec], [CollectionWitness]: the secure storage and
      [product_features/], proved against it.
    - [MessageBus], [MessageBusSpec]: [message_bus/].  [EventMessage]:
      [iem_framework/event_message.py], with its theorems ([EventSpec]).
      [Kafka], [KafkaSpec]: [setup/kafka/kafka.py].
    - [HaDecision] ([Ha]), [HaDecisionSpec], [HaWitness]: [ha/dm].
      [HacCompile], [HacGenerate], [HacSpec], [HacWitness]: [ha/hac].
    - [Release], [ReleaseSpec]: [schema/release.py].  [Activity],
      [ActivitySpec]: [activity_tracker/activity_store.py].  [LogFilter],
      [LogFilterSpec]: [log_filters.py].  [SchemaDoc] ([Shutil], [Schema]):
      [schema/payload.py], [schema/conf.py] and the operations of [os] and
      [shutil] on a tree of files.  [Bundle], [BundleSpec]:
      [support_bundle.py], [bundle_generate.py]; [BundleStatus], what a
      generation reports while it runs; [BundleClean], what it leaves on the
      disk; [BundleWitness], a node with a bundle.  [Support]: the command
      lines of the bundles, [manifest_support_bundle.py] over [Discovery], and
      [kafka_setup.py] over [Kafka].
    - [Discovery]: [discovery/].  [Validator], [ValidatorSpec]: [validator/];
      [Packages]: its checks of packages, with their regular expressions, and
      its command line.
    - [HealthEvent] ([Health]): [event_framework/], events as payloads.
      [CliFramework] ([Cli]): [cli_framework/], commands read from documents.
    - [LdapDbSpec] ([LdapSpec]): the texts of attributes; [LdapFilterSpec]
      ([LdapFilter]): a parser of the filters of RFC 4515, as a reference for
      the filters the storage builds.
    - [Amqp]: [amqp/rabbitmq/amqp.py] over the interface [Pika] of a broker's
      client.
    - [Setup]: [src/setup/utils.py], [src/setup/utils_setup.py] and
      [common/dbconf.py], the phases of the set-up of a node.
    - [NodeProcess]: a process of the configuration store on a machine with
      files.  [EsSetup] ([Service], [EsSetup]): [service/service_handler.py],
      [setup/elasticsearch].  [ConsulSetup]: [setup/consul].  [LdapConfig]:
      the base configuration of an OpenLDAP server and its replication,
      [base_configure_ldap.py] and [setupReplication.py], over the interface
      [Slapd] of a server; [LdapSetup] ([LdapUpgrade]): the commands and
      phases of [setup/openldap] and the merge of its upgrade.
    - [Rest]: the handlers of [message_bus_server.py], [iem_server.py],
      [audit_log_server.py] and [utils_server].  [Clis] ([ActivityCli],
      [IemCli]): [activity_cli.py], [iem_cli.py].
    - [Platform]: [log.py], [process.py], [ssh.py], [http/client.py],
      [security/key_manager.py], [security/cipher.py], [appliance_info/],
      [cleanup/] and the paths of [common/common.py] ([CortxConf]).

    ** What the theorems show

    Each theorem says in its comment what it is stated for; what it relies on
    of code that is not in the repository is a class of laws.

    - Payloads and stores: set then get, frames of independent keys, the exact
      lists of keys and what a deletion leaves.  For the backends that obey
      [BackendLaws] (read and written as a whole, by a write that cannot fail
      half-way; INI files and Consul write through and are not among them) a
      set is all or nothing; that a payload in memory is dumped once or not at
      all is proved for any backend.
    - The configuration store: saved values are loaded by later processes;
      copy and merge are exact where no number, boolean or [None] of the
      destination is above a key to copy, with examples of what happens
      elsewhere; compare is exact; the lock excludes other owners until one of
      them forces it, under interleaving too, can always be taken once it has
      expired, and refines its protocol.
    - Storages: a reading of filters ([Data.satisfied]) that no storage has a
      part in; the Consul storage selects by it with its order comparisons
      read backwards, the Elasticsearch storage with texts in lower case.  The
      Consul storage refines a map from paths to objects.  One creation of a
      database at a time; and a run in which a call waits for it for ever.
    - Messages: logs grow by what was sent, receiving ends exactly when there
      is a message, deletion touches one topic only; an alert that is sent
      comes, after those that were there, to the component that subscribed.
    - HA: which schemas are accepted, when the search for dependencies ends.
    - Bundles: what is copied of a configuration does not depend on the
      secrets on the lines of their keys; the status told, to other processes
      too, is that of the archive; sizes and spans of logs are kept to,
      temporary directories are removed, and the wait for a manifest ends when
      the request expires.  A request of discovery that is processed alone is
      recorded as it ended.
    - Versions: an update is compatible by an order of versions that is stated
      apart from the code, and is not that of numbers.
    - Platform: excluded arguments are not in a trace, a message is written to
      its file once, the mask of the process is restored around a store of
      keys.
    - LDAP: filters of plain values are parsed by the RFC as what they say;
      attributes survive their way to the server and back.
    - RabbitMQ: the number of connections a channel tries, and exactly which
      calls are made for a message.  (Without confirms of the publisher
      nothing follows about what the broker stored.)
    - Set-up and servers: what a phase writes into the configuration, that the
      clean-ups of Elasticsearch and of the unit of Consul undo their set-up,
      and that a request answered with success was stored on the bus; what the
      base configuration of OpenLDAP does, and exactly which keys an upgrade
      overwrites.
    - Events keep their header, and a command line offers only the commands
      whose tag is a permission of its user.

    ** Bounds

    Fuel occurs in the traversal of directories ([KvDir.walk_dirs], the depth
    of the tree), the search for dependencies of resources
    ([HacGenerate], with [search_recursive_terminates] saying for which
    schemas enough fuel exists) and polls of the bus ([MessageBus.receive])
    and of the status of a manifest ([Support], with [wait_ends]).
    Integers are unbounded, as Python's; floats are exact binary64 numbers
    where they are computed with.  Characters are code points below 256.

    ** Not modelled

    - Aliasing of containers: a value got from a payload is a copy, where the
      code gives the container itself.
    - The texts of exceptions and log records; time spent in sleeping, except
      where a deadline depends on it; rounding of times.
    - Threads and connections: a service is the sequence of its answers; the
      two places where interleaving matters (the lock, the provider) are step
      relations; the threads of discovery are not, and its requests are
      processed one at a time.  Commands can be started, where their failure to start is not
      told apart by the code.
    - argparse, aiohttp, pika, paramiko, python-ldap, the cryptography library,
      PrettyTable and the commands of the machine are parameters: what they do
      is not defined here.
    - Terminal output, the client of S3, certificates, cron jobs, examples and
      the runner of the tests, which only call third-party libraries: the
      manifest lists each with its reason. *)

From stdpp Require Export base tactics option list gmap sets strings.
From Stdlib Require Export ZArith Lia.

Declare Scope cortx_scope.
Delimit Scope cortx_scope with cortx.

(** ** Exceptions

    One constructor per exception class the modelled code raises or lets
    escape.  [KvError], [ConfError] and their siblings of [src/] carry the
    [rc] argument of their constructor; messages are not modelled. *)
Inductive exn :=
| KvError (rc : Z)
| ConfError (rc : Z)
| SetupError (rc : Z)
| AttributeError
| TypeError
| KeyError
| IndexError
| ValueError
| UnboundLocalError
| NameError
| NotImplementedError
| OverflowError
| ZeroDivisionError
| JSONDecodeError
| OSError (rc : Z)
| MalformedQueryError
| DataAccessError
| DataAccessInternalError
| DataAccessExternalError
| MalformedConfigurationError
| InternalError
| RuntimeError
| ServiceError          (* ConsulException, HTTPError, RequestException *)
| BundleError (rc : Z)
| ActivityError (rc : Z)
| BusError (rc : Z)          (* MessageBusError *)
| KafkaException
| DiscoveryError (rc : Z)
| VError (rc : Z)
| FeatureError (rc : Z)      (* UnsupportedFeaturesError *)
| FormatError (rc : Z)
| EventError (rc : Z)        (* EventMessageError *)
| InterpolationError     (* configparser *)
| AMQPError              (* of pika, with three of its subclasses: *)
| AMQPConnectionError
| ChannelClosedByBroker
| ChannelWrongStateError
| AmqpConnectionError    (* of [errors.py] *)
| RecursionError
| DBusException
| SystemdError (rc : Z)     (* ServiceError of [service_handler.py] *)
| CliError (rc : Z)
| UtilsError (rc : Z)
| LDAPError
| ProvError                 (* OpenldapPROVError *)
| CertificateError
| SystemExit               (* raised by [quit], no [Exception] *)
| KeyboardInterrupt        (* no [Exception] *)
| PlainException.

#[export] Instance exn_eq_dec : EqDecision exn.
Proof. solve_decision. Defined.

(** The [errno] constants of the platform the code runs on (Linux). *)
Definition ENOENT : Z := 2.
Definition EINTR : Z := 4.
Definition EACCES : Z := 13.
Definition EINVAL : Z := 22.
Definition ENOSYS : Z := 38.
Definition ECONNREFUSED : Z := 111.

(** ** Results: a returned value or a raised exception *)
Inductive res (A : Type) :=
| Ok (a : A)
| Err (e : exn).
Arguments Ok {_} _.
Arguments Err {_} _.

#[export] Instance res_ret : MRet res := λ A a, Ok a.
#[export] Instance res_bind : MBind res := λ A B f m,
  match m with Ok a => f a | Err e => Err e end.
#[export] Instance res_fmap : FMap res := λ A B f m,
  match m with Ok a => Ok (f a) | Err e => Err e end.
#[export] Instance res_eq_dec {A} `{EqDecision A} : EqDecision (res A).
Proof. solve_decision. Defined.

(** What [except Exception] handles *)
Definition is_exception (e : exn) : bool := negb (bool_decide (e ∈ [SystemExit; KeyboardInterrupt])).

Definition is_ok {A} (m : res A) : bool :=
  match m with Ok _ => true | Err _ => false end.

(** ** State with exceptions

    A Python method that mutates an object: the result, and the object as it
    is left, on a normal return and on an exception alike. *)
Definition ST (S A : Type) : Type := S → res A * S.

Definition st_ret {S A} (a : A) : ST S A := λ s, (Ok a, s).
Definition st_raise {S A} (e : exn) : ST S A := λ s, (Err e, s).
Definition st_bind {S A B} (m : ST S A) (f : A → ST S B) : ST S B := λ s,
  match m s with
  | (Ok a, s') => f a s'
  | (Err e, s') => (Err e, s')
  end.
Definition st_get {S} : ST S S := λ s, (Ok s, s).
Definition st_put {S} (s' : S) : ST S unit := λ _, (Ok tt, s').
Definition st_lift {S A} (m : res A) : ST S A := λ s, (m, s).

(** [try: m except E as e: handler(e)] *)
Definition st_except {S A} (handled : exn → bool) (m : ST S A) (handler : exn → ST S A) : ST S A := λ s,
  match m s with
  | (Err e, s') => if handled e then handler e s' else (Err e, s')
  | r => r
  end.

Notation "'let!' x := m 'in' k" := (st_bind m (λ x, k))
  (at level 10, x pattern, m at level 100, k at level 200) : cortx_scope.
Notation "m ;;; k" := (st_bind m (λ _, k))
  (at level 100, right associativity) : cortx_scope.
Open Scope cortx_scope.

(** A [for] loop over a list whose body may raise: stops at the first
    exception, keeping the state reached. *)
Fixpoint st_iter {S A} (f : A → ST S unit) (l : list A) : ST S unit :=
  match l with
  | [] => st_ret tt
  | a :: l' => f a ;;; st_iter f l'
  end.

(** The list comprehension [[f(x) for x in l]] where [f] may raise. *)
Fixpoint res_map {A B} (f : A → res B) (l : list A) : res (list B) :=
  match l with
  | [] => Ok []
  | a :: l' => b ← f a; bs ← res_map f l'; Ok (b :: bs)
  end.

(** ** Automation *)

Create HintDb cortx.


Ltac deex :=
  repeat match goal with
  | H : ∃ x, _ |- _ => let x' := fresh x in destruct H as [x' H]
  | H : _ ∧ _ |- _ => destruct H
  end.

(** Case analysis on the scrutinee of a [match] or [if] of the goal or of a
    hypothesis, keeping the equation. *)
Ltac case_goal :=
  match goal with
  | |- context [match ?x with _ => _ end] => destruct x eqn:?
  end.
Ltac case_hyp H :=
  match type of H with
  | context [match ?x with _ => _ end] => destruct x eqn:?
  end.

Ltac sdone := try solve [done | congruence | lia | eauto with cortx].

(** ** Generic lemmas *)

Lemma st_bind_ok {S A B} (m : ST S A) (f : A → ST S B) s r s' :
  st_bind m f s = (Ok r, s') ↔ ∃ a s1, m s = (Ok a, s1) ∧ f a s1 = (Ok r, s').
Proof.
  unfold st_bind. destruct (m s) as [[a|e] s1]; naive_solver.
Qed.

Lemma st_bind_run {S A B} (m : ST S A) (f : A → ST S B) s a s' :
  m s = (Ok a, s') → st_bind m f s = f a s'.
Proof. intros H. unfold st_bind. by rewrite H. Qed.

Lemma res_map_ok {A B} (f : A → res B) l bs :
  res_map f l = Ok bs ↔ Forall2 (λ a b, f a = Ok b) l bs.
Proof.
  revert bs. induction l as [|a l IH]; intros bs; simpl.
  - split; [by intros [= <-] | by intros ->%Forall2_nil_inv_l].
  - destruct (f a) eqn:Ha; simpl.
    + destruct (res_map f l) as [bs'|] eqn:Hl; simpl.
      * split; [intros [= <-]; constructor; naive_solver |].
        intros (b & k & ? & Hk & ->)%Forall2_cons_inv_l.
        apply IH in Hk. congruence.
      * split; [done|]. intros (b & k & ? & Hk & ->)%Forall2_cons_inv_l.
        apply IH in Hk. congruence.
    + split; [done|]. intros (b & k & ? & Hk & ->)%Forall2_cons_inv_l. congruence.
Qed.

Lemma st_iter_app {S A} (f : A → ST S unit) l1 l2 s :
  st_iter f (l1 ++ l2) s = (st_iter f l1 ;;; st_iter f l2) s.
Proof.
  revert s. induction l1 as [|a l1 IH]; intros s; [done|].
  simpl. unfold st_bind. destruct (f a s) as [[[]|e] s1]; [|done].
  rewrite IH. unfold st_bind. done.
Qed.

(** An invariant of the body is an invariant of the loop, however it ends. *)
Lemma st_iter_inv {S A} (P : S → Prop) (f : A → ST S unit) l s :
  (∀ a s0, a ∈ l → P s0 → P (f a s0).2) → P s → P (st_iter f l s).2.
Proof.
  revert s. induction l as [|a l IH]; intros s Hf Hs; [done|].
  simpl. unfold st_bind.
  pose proof (Hf a s ltac:(set_solver) Hs) as Ha.
  destruct (f a s) as [[[]|e] s1]; simpl in *; [|done].
  apply IH; [|done]. intros; apply Hf; set_solver.
Qed.

(** Python's [x in xs] on a list, then [xs.append(x)] when absent. *)
Definition append_new {A} `{EqDecision A} (xs : list A) (x : A) : list A :=
  if decide (x ∈ xs) then xs else xs ++ [x].

Lemma elem_of_append_new {A} `{EqDecision A} (xs : list A) x y :
  y ∈ append_new xs x ↔ y ∈ xs ∨ y = x.
Proof. unfold append_new. case_decide; set_solver. Qed.

Lemma NoDup_append_new {A} `{EqDecision A} (xs : list A) x :
  NoDup xs → NoDup (append_new xs x).
Proof.
  unfold append_new. case_decide; [done|]. intros.
  apply NoDup_app. repeat split; [done| |apply NoDup_singleton]. set_solver.
Qed.

Lemma elem_of_fold_append_new {A} `{EqDecision A} (ys xs : list A) y :
  y ∈ foldl append_new xs ys ↔ y ∈ xs ∨ y ∈ ys.
Proof.
  revert xs. induction ys as [|z ys IH]; intros xs; simpl; [set_solver|].
  rewrite IH, elem_of_append_new. set_solver.
Qed.

Lemma NoDup_fold_append_new {A} `{EqDecision A} (ys xs : list A) :
  NoDup xs → NoDup (foldl append_new xs ys).
Proof.
  revert xs. induction ys as [|z ys IH]; intros xs ?; simpl; [done|].
  by apply IH, NoDup_append_new.
Qed.

Lemma fold_append_new_fresh {A} `{EqDecision A} (ys xs : list A) :
  NoDup (xs ++ ys) → foldl append_new xs ys = xs ++ ys.
Proof.
  revert xs. induction ys as [|z ys IH]; intros xs Hnd; simpl; [by rewrite app_nil_r|].
  unfold append_new at 2. rewrite decide_False.
  - rewrite IH; by rewrite <- app_assoc.
  - apply NoDup_app in Hnd. set_solver.
Qed.

(** Membership in a list accumulated by a loop, from what one step adds. *)
Lemma elem_of_foldl {A B} (f : list B → A → list B) (C : A → B → Prop) l keys k :
  (∀ a keys k, a ∈ l → k ∈ f keys a ↔ k ∈ keys ∨ C a k) →
  k ∈ foldl f keys l ↔ k ∈ keys ∨ ∃ a, a ∈ l ∧ C a k.
Proof.
  revert keys. induction l as [|a l IH]; intros keys Hf; simpl; [set_solver|].
  rewrite IH, Hf by set_solver. set_solver.
Qed.

(** The same for [enumerate(l)]. *)
Lemma elem_of_foldl_i {A B} (f : nat → list B → A → list B) (C : nat → A → B → Prop) l i keys k :
  (∀ j a keys k, l !! j = Some a → k ∈ f (i + j) keys a ↔ k ∈ keys ∨ C (i + j) a k) →
  k ∈ (foldl (λ '(i, keys) a, (S i, f i keys a)) (i, keys) l).2 ↔
  k ∈ keys ∨ ∃ j a, l !! j = Some a ∧ C (i + j) a k.
Proof.
  revert i keys. induction l as [|a l IH]; intros i keys Hf; simpl; [set_solver|].
  rewrite IH.
  - rewrite <- (Nat.add_0_r i) at 1. rewrite Hf by done. rewrite Nat.add_0_r. split.
    + intros [[?|?]|(j & b & Hj & Hc)]; [by left|right; exists 0, a; by rewrite Nat.add_0_r|].
      right. exists (S j), b. by rewrite Nat.add_succ_r.
    + intros [?|([|j] & b & Hj & Hc)]; [by left; left| |].
      * simplify_eq/=. left; right. by rewrite Nat.add_0_r in Hc.
      * right. exists j, b. by rewrite Nat.add_succ_r in Hc.
  - intros j b keys' k' Hj. specialize (Hf (S j) b keys' k' Hj).
    by rewrite Nat.add_succ_r in Hf.
Qed.

Lemma foldl_inv {A B} (P : A → Prop) (f : A → B → A) l a :
  (∀ a b, b ∈ l → P a → P (f a b)) → P a → P (foldl f a l).
Proof.
  revert a. induction l as [|b l IH]; intros a Hf Ha; simpl; [done|].
  apply IH; [|apply Hf; set_solver]. intros; apply Hf; set_solver.
Qed.

Lemma forallb_map {A B} (f : B → bool) (g : A → B) l :
  forallb f (map g l) = forallb (λ x, f (g x)) l.
Proof. induction l as [|x l IH]; [done|]. simpl. by rewrite IH. Qed.

Lemma filter_ext_in {A} (P Q : A → Prop) `{∀ x, Decision (P x), ∀ x, Decision (Q x)} (l : list A) :
  (∀ x, x ∈ l → P x ↔ Q x) → filter P l = filter Q l.
Proof.
  induction l as [|x l IH]; intros Hl; [done|]. rewrite !filter_cons.
  rewrite IH by (intros; apply Hl; by right).
  assert (P x ↔ Q x) by (apply Hl; left). repeat case_decide; tauto.
Qed.

Lemma res_bind_ok {A B} (x : res A) (g : A → res B) b :
  (a ← x; g a) = Ok b ↔ ∃ a, x = Ok a ∧ g a = Ok b.
Proof. destruct x; simpl; naive_solver. Qed.

#[export] Hint Resolve NoDup_append_new NoDup_fold_append_new : cortx.
