(* ===== verification/PyStr.v ===== *)
(** Python [str] operations the code uses, on strings of characters with
    code points below 256: [split], [split(d, 1)], [join], [strip], [lower],
    [startswith], [endswith], [replace] of one character, decimal printing and
    [int()], and the index split [re.split(r'\[([0-9]+)\]', s)] of
    [KvPayload._key_index_split].  Stdlib's [String] and [Ascii] carry the
    data; the lemmas at the end are what the components rely on. *)
From Stdlib Require Import Ascii DecimalString DecimalNat DecimalFacts.
From S2P Require Import Prelude.

Module PyStr.

(** ** Characters *)

Definition code (c : ascii) : N := N_of_ascii c.

Definition is_digit (c : ascii) : bool := (48 <=? code c)%N && (code c <=? 57)%N.

(** [str.isspace] on code points below 256. *)
Definition is_space (c : ascii) : bool :=
  let n := code c in
  ((9 <=? n) && (n <=? 13) || (28 <=? n) && (n <=? 32) || (n =? 133) || (n =? 160))%N.

Definition is_upper (c : ascii) : bool :=
  let n := code c in
  ((65 <=? n) && (n <=? 90) || (192 <=? n) && (n <=? 222) && negb (n =? 215))%N.

Definition lower_char (c : ascii) : ascii :=
  if is_upper c then ascii_of_N (code c + 32) else c.

(** ** Traversals *)

Fixpoint smap (f : ascii → ascii) (s : string) : string :=
  match s with
  | EmptyString => EmptyString
  | String c s' => String (f c) (smap f s')
  end.

Fixpoint sforall (p : ascii → bool) (s : string) : bool :=
  match s with
  | EmptyString => true
  | String c s' => p c && sforall p s'
  end.

Definition no_char (c : ascii) (s : string) : bool := sforall (λ a, negb (Ascii.eqb a c)) s.

Definition lower (s : string) : string := smap lower_char s.

Fixpoint lstrip (s : string) : string :=
  match s with
  | EmptyString => EmptyString
  | String c s' => if is_space c then lstrip s' else s
  end.

Fixpoint rstrip (s : string) : string :=
  match s with
  | EmptyString => EmptyString
  | String c s' =>
      match rstrip s' with
      | EmptyString => if is_space c then EmptyString else String c EmptyString
      | r => String c r
      end
  end.

Definition strip (s : string) : string := rstrip (lstrip s).

(** [len(s.strip()) == 0] *)
Definition blank (s : string) : bool := sforall is_space s.

Fixpoint startswith (s p : string) : bool :=
  match p, s with
  | EmptyString, _ => true
  | String a p', String b s' => Ascii.eqb a b && startswith s' p'
  | String _ _, EmptyString => false
  end.

(** [p in s]: substring test. *)
Fixpoint contains (s p : string) : bool :=
  startswith s p ||
  match s with
  | EmptyString => false
  | String _ s' => contains s' p
  end.

(** [s.endswith(p)] *)
Fixpoint endswith (s p : string) : bool :=
  bool_decide (s = p) ||
  match s with
  | EmptyString => false
  | String _ s' => endswith s' p
  end.

(** ** Splitting *)

(** [s.split(d, 1)] for a one-character [d]: the head, and the rest if [d]
    occurs. *)
Fixpoint split1 (d : ascii) (s : string) : string * option string :=
  match s with
  | EmptyString => (EmptyString, None)
  | String c s' =>
      if Ascii.eqb c d then (EmptyString, Some s')
      else let '(a, r) := split1 d s' in (String c a, r)
  end.

(** [s.split(d)] for a one-character [d]: never empty. *)
Fixpoint split (d : ascii) (s : string) : list string :=
  match s with
  | EmptyString => [EmptyString]
  | String c s' =>
      if Ascii.eqb c d then EmptyString :: split d s'
      else match split d s' with
           | h :: t => String c h :: t
           | [] => [String c EmptyString]
           end
  end.

(** [d.join(l)] *)
Fixpoint join (d : string) (l : list string) : string :=
  match l with
  | [] => EmptyString
  | [x] => x
  | x :: l' => x +:+ d +:+ join d l'
  end.

Definition sep (d : ascii) : string := String d EmptyString.

(** [s.split(p)[0]] for a non-empty [p] *)
Fixpoint before (p s : string) : string :=
  match s with
  | EmptyString => EmptyString
  | String c s' => if startswith s p then EmptyString else String c (before p s')
  end.

(** [s[n:]] *)
Fixpoint sdrop (n : nat) (s : string) : string :=
  match n, s with
  | S n, String _ s' => sdrop n s'
  | _, _ => s
  end.

(** The part after the first [p], if there is one: [s.split(p)[1]] is the text
    of it before the next [p]. *)
Fixpoint after (p s : string) : option string :=
  if startswith s p then Some (sdrop (String.length p) s)
  else match s with
       | EmptyString => None
       | String _ s' => after p s'
       end.

(** ** Decimal numerals *)

(** [s.replace(old, new)] for a nonempty [old]: [skip] characters are still
    those of the last occurrence. *)
Fixpoint replace_skip (skip : nat) (old new s : string) : string :=
  match s with
  | EmptyString => EmptyString
  | String c s' =>
      match skip with
      | S n => replace_skip n old new s'
      | O => if startswith s old then new +:+ replace_skip (String.length old - 1) old new s'
             else String c (replace_skip 0 old new s')
      end
  end.
Definition replace (old new s : string) : string := replace_skip 0 old new s.

(** [f.readlines()]: the lines with their line feed. *)
Fixpoint readlines (s : string) : list string :=
  match s with
  | EmptyString => []
  | String c s' =>
      if Ascii.eqb c (Ascii.ascii_of_nat 10) then sep c :: readlines s'
      else match readlines s' with
           | [] => [sep c]
           | l :: ls => String c l :: ls
           end
  end.

(** ["%d" % n] for a natural number. *)
Definition dec (n : nat) : string := NilEmpty.string_of_uint (Nat.to_uint n).

(** [int(s)] for a string of digits. *)
Definition int_of_digits (s : string) : nat :=
  match NilEmpty.uint_of_string s with
  | Some u => Nat.of_uint u
  | None => 0
  end.

(** ** The index split [re.split(r'\[([0-9]+)\]', s)]

    A scan that keeps the text since the last match and, after an opening
    bracket, the digits read since.  A bracket that does not start a match is
    text, and the character that broke the match is read again. *)
Definition open_br : ascii := "["%char.
Definition close_br : ascii := "]"%char.

Fixpoint index_scan (acc : string) (pend : option string) (s : string) : list string :=
  match s, pend with
  | EmptyString, None => [acc]
  | EmptyString, Some ds => [acc +:+ String open_br ds]
  | String c s', None =>
      if Ascii.eqb c open_br then index_scan acc (Some EmptyString) s'
      else index_scan (acc +:+ sep c) None s'
  | String c s', Some ds =>
      if is_digit c then index_scan acc (Some (ds +:+ sep c)) s'
      else if Ascii.eqb c close_br && bool_decide (ds ≠ EmptyString) then
        acc :: ds :: index_scan EmptyString None s'
      else if Ascii.eqb c open_br then
        index_scan (acc +:+ String open_br ds) (Some EmptyString) s'
      else index_scan (acc +:+ String open_br ds +:+ sep c) None s'
  end.

Definition index_split (s : string) : list string := index_scan EmptyString None s.

Example index_split_ex1 : index_split "nodes[12]" = ["nodes"; "12"; ""].
Proof. reflexivity. Qed.
Example index_split_ex2 : index_split "a[x][7]b[" = ["a[x]"; "7"; "b["].
Proof. reflexivity. Qed.
Example index_split_ex3 : index_split "a[[0]][1]" = ["a["; "0"; "]"; "1"; ""].
Proof. reflexivity. Qed.

(** ** Lemmas *)

#[global] Arguments String.append !s1 s2 : simpl nomatch, rename.

Lemma sapp_nil_r s : s +:+ "" = s.
Proof. induction s as [|c s IH]; [done|]. cbn. by f_equal. Qed.

Lemma sapp_assoc s t u : (s +:+ t) +:+ u = s +:+ t +:+ u.
Proof. induction s as [|c s IH]; [done|]. cbn. by f_equal. Qed.

Lemma sapp_cons c s t : String c s +:+ t = String c (s +:+ t).
Proof. done. Qed.

Lemma sapp_sep c s t : (s +:+ sep c) +:+ t = s +:+ String c t.
Proof. by rewrite sapp_assoc. Qed.

Lemma slength_app s t : String.length (s +:+ t) = String.length s + String.length t.
Proof. induction s as [|c s IH]; [done|]. cbn. by f_equal. Qed.

Lemma sforall_app p s t : sforall p (s +:+ t) = sforall p s && sforall p t.
Proof. induction s as [|c s IH]; [done|]. cbn. by rewrite IH, andb_assoc. Qed.

Lemma sforall_impl (p q : ascii → bool) s :
  (∀ c, p c = true → q c = true) → sforall p s = true → sforall q s = true.
Proof.
  intros Hpq. induction s as [|c s IH]; [done|]. cbn.
  intros [? ?]%andb_prop. rewrite Hpq, IH; done.
Qed.

Lemma no_char_cons c a s :
  no_char c (String a s) = true ↔ a ≠ c ∧ no_char c s = true.
Proof.
  unfold no_char. cbn. rewrite andb_true_iff, negb_true_iff, Ascii.eqb_neq. done.
Qed.

Lemma no_char_app c s t :
  no_char c (s +:+ t) = true ↔ no_char c s = true ∧ no_char c t = true.
Proof. unfold no_char. by rewrite sforall_app, andb_true_iff. Qed.

Lemma blank_strip s : blank s = true ↔ strip s = "".
Proof.
  unfold blank, strip. split.
  - induction s as [|c s IH]; [done|]. cbn. intros [-> ?]%andb_prop. by apply IH.
  - intros Hr. assert (Hl : lstrip s = "").
    { induction s as [|c s IH]; [done|]. cbn in *. destruct (is_space c) eqn:Hc; [by apply IH|].
      cbn in Hr. rewrite Hc in Hr. by destruct (rstrip s). }
    clear Hr. induction s as [|c s IH]; [done|]. cbn in *.
    destruct (is_space c); [by apply IH|done].
Qed.

Lemma lower_app s t : lower (s +:+ t) = lower s +:+ lower t.
Proof. unfold lower. induction s as [|c s IH]; [done|]. simpl. by rewrite IH. Qed.

Lemma startswith_app s t : startswith (s +:+ t) s = true.
Proof. induction s as [|c s IH]; [by destruct t|]. cbn. by rewrite Ascii.eqb_refl. Qed.

Lemma startswith_spec s p : startswith s p = true ↔ ∃ t, s = p +:+ t.
Proof.
  split; [|intros [t ->]; apply startswith_app].
  revert s. induction p as [|a p IH]; intros s; [by exists s|].
  destruct s as [|b s]; [done|]. cbn.
  intros [->%Ascii.eqb_eq [t ->]%IH]%andb_prop. by exists t.
Qed.

Lemma sdrop_app s t : sdrop (String.length s) (s +:+ t) = t.
Proof. induction s as [|c s IH]; [by destruct t|]. done. Qed.

Lemma after_prefix p s : after p (p +:+ s) = Some s.
Proof.
  rewrite <- (sdrop_app p s) at 2. generalize (startswith_app p s).
  destruct (p +:+ s); cbn [after]; by intros ->.
Qed.

Lemma sapp_inj s t u : s +:+ t = s +:+ u → t = u.
Proof. intros H. by rewrite <- (sdrop_app s t), H, sdrop_app. Qed.

Lemma before_absent p s : contains s p = false → before p s = s.
Proof.
  induction s as [|c s IH]; [done|]. cbn [contains before]. intros [-> Hs]%orb_false_iff.
  by rewrite IH.
Qed.

Lemma endswith_spec s p : endswith s p = true ↔ ∃ t, s = t +:+ p.
Proof.
  induction s as [|c s IH]; cbn; rewrite orb_true_iff, bool_decide_eq_true.
  - split; [intros [<-|?]; [by exists ""|done]|]. intros [[|] Ht]; [by left|done].
  - rewrite IH. split.
    + intros [<-|[t ->]]; [by exists ""|]. by exists (String c t).
    + intros [[|b t] Ht]; [by left|]. cbn in Ht. simplify_eq. right. by exists t.
Qed.

Lemma split_nonempty d s : split d s ≠ [].
Proof. destruct s as [|c s]; cbn; [done|]. case_match; [done|]. by case_match. Qed.

(** Iterating [split(d, 1)] gives [split(d)]. *)
Lemma split_split1 d s :
  split d s = match split1 d s with
              | (a, None) => [a]
              | (a, Some r) => a :: split d r
              end.
Proof.
  induction s as [|c s IH]; [done|]. cbn. destruct (Ascii.eqb c d); [done|].
  rewrite IH. destruct (split1 d s) as [a [r|]]; done.
Qed.

Lemma join_split d s : join (sep d) (split d s) = s.
Proof.
  induction s as [|c s IH]; [done|]. cbn. destruct (Ascii.eqb c d) eqn:Hc.
  - apply Ascii.eqb_eq in Hc as ->. pose proof (split_nonempty d s).
    cbn. destruct (split d s) eqn:Hs; [done|]. cbn in *. by f_equal.
  - pose proof (split_nonempty d s). destruct (split d s) as [|h [|h' t]] eqn:Hs; [done| |].
    + cbn in *. by f_equal.
    + cbn in *. by f_equal.
Qed.

Lemma split_no_char d s : no_char d s = true → split d s = [s].
Proof.
  induction s as [|c s IH]; [done|]. intros [Hc Hs]%no_char_cons. cbn.
  apply Ascii.eqb_neq in Hc as ->. by rewrite IH.
Qed.

Lemma split_app d s t :
  no_char d s = true → split d (s +:+ String d t) = s :: split d t.
Proof.
  induction s as [|c s IH]; [cbn; by rewrite Ascii.eqb_refl|].
  intros [Hc Hs]%no_char_cons. cbn. apply Ascii.eqb_neq in Hc as ->. by rewrite IH.
Qed.

Lemma split_join d l :
  l ≠ [] → Forall (λ s, no_char d s = true) l → split d (join (sep d) l) = l.
Proof.
  intros Hl Hall. induction Hall as [|s l Hs Hall IH]; [done|].
  destruct l as [|s' l]; [by apply split_no_char|].
  change (split d (s +:+ String d (join (sep d) (s' :: l))) = s :: s' :: l).
  rewrite split_app by done. by rewrite IH.
Qed.

Lemma split_pieces d s : Forall (λ a, no_char d a = true) (split d s).
Proof.
  induction s as [|c s IH]; cbn; [by repeat constructor|].
  destruct (Ascii.eqb c d) eqn:Hc; [by constructor|].
  destruct (split d s) as [|h t].
  - constructor; [|done]. apply no_char_cons. by apply Ascii.eqb_neq in Hc.
  - inversion IH; subst. constructor; [|done]. apply no_char_cons.
    by apply Ascii.eqb_neq in Hc.
Qed.

Lemma split_inj d s t : split d s = split d t → s = t.
Proof. intros H. by rewrite <- (join_split d s), H, join_split. Qed.

(** ** Numerals *)

Lemma int_of_dec n : int_of_digits (dec n) = n.
Proof.
  unfold int_of_digits, dec. rewrite NilEmpty.usu. apply Unsigned.of_to.
Qed.

Lemma dec_inj n m : dec n = dec m → n = m.
Proof. intros H. by rewrite <- (int_of_dec n), H, int_of_dec. Qed.

Lemma string_of_uint_digits u : sforall is_digit (NilEmpty.string_of_uint u) = true.
Proof. induction u; done. Qed.

Lemma dec_digits n : sforall is_digit (dec n) = true.
Proof. apply string_of_uint_digits. Qed.

Lemma dec_nonempty n : dec n ≠ "".
Proof.
  unfold dec. pose proof (Unsigned.to_of (Nat.to_uint n)) as Hn.
  rewrite Unsigned.of_to in Hn. pose proof (DecimalFacts.unorm_nonnil (Nat.to_uint n)).
  rewrite <- Hn in *. by destruct (Nat.to_uint n).
Qed.

Lemma digit_not_bracket c : is_digit c = true → c ≠ open_br ∧ c ≠ close_br.
Proof. intros Hc. split; intros ->; done. Qed.

Lemma dec_no_char c n : is_digit c = false → no_char c (dec n) = true.
Proof.
  intros Hc. eapply sforall_impl; [|apply dec_digits].
  cbn. intros a Ha. apply negb_true_iff, Ascii.eqb_neq. congruence.
Qed.

(** ** Index split *)

Lemma index_scan_plain acc s t :
  no_char open_br s = true →
  index_scan acc None (s +:+ t) = index_scan (acc +:+ s) None t.
Proof.
  revert acc. induction s as [|c s IH]; intros acc; [by rewrite sapp_nil_r|].
  intros [Hc Hs]%no_char_cons. rewrite sapp_cons. cbn [index_scan].
  apply Ascii.eqb_neq in Hc as ->. rewrite IH by done. by rewrite sapp_sep.
Qed.

Lemma index_scan_digits acc ds s t :
  sforall is_digit s = true →
  index_scan acc (Some ds) (s +:+ t) = index_scan acc (Some (ds +:+ s)) t.
Proof.
  revert ds. induction s as [|c s IH]; intros ds; [by rewrite sapp_nil_r|].
  cbn [sforall]. intros [Hc Hs]%andb_prop. rewrite sapp_cons. cbn [index_scan].
  rewrite Hc, IH by done. by rewrite sapp_sep.
Qed.

Lemma index_split_plain s : no_char open_br s = true → index_split s = [s].
Proof.
  intros Hs. unfold index_split. rewrite <- (sapp_nil_r s) at 1.
  by rewrite index_scan_plain.
Qed.

(** The text [name[ds]rest] splits at its first index. *)
Lemma index_split_digits name ds rest :
  no_char open_br name = true → sforall is_digit ds = true → ds ≠ "" →
  index_split (name +:+ "[" +:+ ds +:+ "]" +:+ rest) = name :: ds :: index_split rest.
Proof.
  intros Hn Hd Hne. unfold index_split. rewrite index_scan_plain by done.
  cbn [index_scan]. rewrite sapp_cons. cbn [index_scan String.append].
  change (String "[" (ds +:+ String "]" rest)) with (String open_br (ds +:+ String "]" rest)).
  cbn [index_scan]. rewrite Ascii.eqb_refl, index_scan_digits by done.
  cbn [index_scan String.append]. 
  change (is_digit "]") with false. cbn iota.
  rewrite bool_decide_true by done. done.
Qed.

Lemma index_split_dec name n :
  no_char open_br name = true →
  index_split (name +:+ "[" +:+ dec n +:+ "]") = [name; dec n; ""].
Proof.
  intros Hn. rewrite <- (sapp_nil_r "]").
  rewrite index_split_digits; [done|done|apply dec_digits|apply dec_nonempty].
Qed.

(** The pieces of an index split, put back with their brackets. *)
Fixpoint index_unsplit (l : list string) : string :=
  match l with
  | t :: ds :: l' => t +:+ "[" +:+ ds +:+ "]" +:+ index_unsplit l'
  | [t] => t
  | [] => ""
  end.

Lemma index_scan_unsplit s : ∀ acc,
  index_unsplit (index_scan acc None s) = acc +:+ s ∧
  ∀ ds, index_unsplit (index_scan acc (Some ds) s) = acc +:+ String open_br (ds +:+ s).
Proof.
  induction s as [|c s IH]; intros acc.
  { split; [by rewrite sapp_nil_r|]. intros ds. cbn. by rewrite sapp_nil_r. }
  split.
  - cbn [index_scan]. destruct (Ascii.eqb c open_br) eqn:Hc.
    + apply Ascii.eqb_eq in Hc as ->. rewrite (proj2 (IH acc)). done.
    + rewrite (proj1 (IH _)). by rewrite sapp_sep.
  - intros ds. cbn [index_scan]. destruct (is_digit c).
    { rewrite (proj2 (IH _)). by rewrite sapp_sep. }
    case_match eqn:Hcl.
    { apply andb_prop in Hcl as [->%Ascii.eqb_eq _]. cbn [index_unsplit].
      destruct (index_scan "" None s) eqn:Hs.
      { destruct (IH "") as [H1 _]. rewrite Hs in H1. cbn in H1. subst.
        done. }
      rewrite <- Hs, (proj1 (IH "")). done. }
    case_match eqn:Hop.
    + apply Ascii.eqb_eq in Hop as ->. rewrite (proj2 (IH _)). cbn.
      by rewrite sapp_assoc.
    + rewrite (proj1 (IH _)). rewrite !sapp_assoc. done.
Qed.

(** [re.split] with a capturing group loses nothing but the brackets. *)
Lemma index_unsplit_split s : index_unsplit (index_split s) = s.
Proof. exact (proj1 (index_scan_unsplit s "")). Qed.

End PyStr.

#[export] Hint Resolve PyStr.dec_digits PyStr.dec_nonempty PyStr.split_nonempty : cortx.
#[export] Hint Rewrite PyStr.sapp_nil_r PyStr.sapp_assoc PyStr.int_of_dec : cortx.
