(* ===== verification/PyVal.v ===== *)
(** Python values as the stores hold them (what JSON, YAML and TOML documents
    denote) and Python's insertion-ordered dictionaries.

    [VFloat m e] is the finite binary64 number m * 2^e; [VDict] lists the
    items in insertion order, with string keys.  [py_eq] is [==]: booleans
    compare as integers, integers with floats by value, dictionaries without
    regard to order. *)
From S2P Require Import Prelude PyStr.

Module PyVal.

(** ** Dictionaries *)

Section dict.
Context {A : Type}.
Implicit Types (d : list (string * A)) (k : string).

Fixpoint dget k d : option A :=
  match d with
  | [] => None
  | (k', v) :: d' => if decide (k = k') then Some v else dget k d'
  end.

(** [d[k] = v]: in place when [k] is present, at the end otherwise. *)
Fixpoint dset k (v : A) d : list (string * A) :=
  match d with
  | [] => [(k, v)]
  | (k', v') :: d' => if decide (k = k') then (k', v) :: d' else (k', v') :: dset k v d'
  end.

(** [del d[k]] *)
Fixpoint ddel k d : list (string * A) :=
  match d with
  | [] => []
  | (k', v') :: d' => if decide (k = k') then d' else (k', v') :: ddel k d'
  end.

Definition dkeys d : list string := d.*1.

(** [d1.update(d2)] *)
Definition dupdate d1 d2 : list (string * A) := foldl (λ d kv, dset kv.1 kv.2 d) d1 d2.

Lemma dget_dset_eq k v d : dget k (dset k v d) = Some v.
Proof.
  induction d as [|[k' v'] d IH]; simpl; repeat case_decide; simplify_eq/=;
    rewrite ?decide_True by done; rewrite ?decide_False by done; done.
Qed.

Lemma dget_dset_ne k k' v d : k ≠ k' → dget k' (dset k v d) = dget k' d.
Proof.
  intros Hk. induction d as [|[k1 v1] d IH]; simpl;
    [by rewrite decide_False|].
  case_decide; simpl; subst; [by rewrite !decide_False|]. by rewrite IH.
Qed.

Lemma dget_None k d : dget k d = None ↔ k ∉ dkeys d.
Proof.
  induction d as [|[k' v'] d IH]; simpl; [set_solver|].
  unfold dkeys in *. cbn. rewrite not_elem_of_cons. case_decide; naive_solver.
Qed.

Lemma dget_is_Some k d : is_Some (dget k d) ↔ k ∈ dkeys d.
Proof. rewrite <- not_eq_None_Some, dget_None. destruct (decide (k ∈ dkeys d)); tauto. Qed.

Lemma dget_Some_elem k v d : dget k d = Some v → (k, v) ∈ d.
Proof. induction d as [|[k' v'] d IH]; simpl; [done|]. case_decide; set_solver. Qed.

Lemma dget_elem k v d : NoDup (dkeys d) → (k, v) ∈ d → dget k d = Some v.
Proof.
  induction d as [|[k' v'] d IH]; simpl; [set_solver|].
  unfold dkeys in *. cbn. intros [Hk Hd]%NoDup_cons.
  rewrite elem_of_cons. intros [Heq|Hin]; case_decide; simplify_eq; try done.
  - exfalso. apply Hk. apply list_elem_of_fmap. by exists (k', v).
  - by apply IH.
Qed.

Lemma dget_ddel_eq k d : NoDup (dkeys d) → dget k (ddel k d) = None.
Proof.
  induction d as [|[k' v'] d IH]; simpl; [done|].
  unfold dkeys in *. cbn. intros [Hk Hd]%NoDup_cons.
  case_decide; subst; simpl; [by apply dget_None|].
  rewrite decide_False by done. by apply IH.
Qed.

Lemma dget_ddel_ne k k' d : k ≠ k' → dget k' (ddel k d) = dget k' d.
Proof.
  intros Hk. induction d as [|[k1 v1] d IH]; simpl; [done|].
  case_decide; simpl; subst; [by rewrite decide_False|]. by rewrite IH.
Qed.

Lemma dset_id k v d : dget k d = Some v → dset k v d = d.
Proof.
  induction d as [|[k' v'] d IH]; simpl; [done|].
  case_decide; [naive_solver|]. intros. by rewrite IH.
Qed.

Lemma dset_dset k v v' d : dset k v (dset k v' d) = dset k v d.
Proof.
  induction d as [|[k' w] d IH]; simpl; [by rewrite decide_True|].
  case_decide; simpl; [by rewrite decide_True|]. rewrite decide_False by done. by rewrite IH.
Qed.

Lemma dkeys_dset k v d : dkeys (dset k v d) = append_new (dkeys d) k.
Proof.
  unfold dkeys, append_new. induction d as [|[k' v'] d IH]; simpl.
  - done.
  - destruct (decide (k = k')) as [->|Hk]; csimpl.
    + by rewrite decide_True by set_solver.
    + rewrite IH. destruct (decide (k ∈ d.*1)).
      * by rewrite decide_True by set_solver.
      * by rewrite decide_False by set_solver.
Qed.

Lemma elem_of_dkeys_dset k k' v d : k' ∈ dkeys (dset k v d) ↔ k' = k ∨ k' ∈ dkeys d.
Proof. rewrite dkeys_dset, elem_of_append_new. tauto. Qed.

Lemma NoDup_dset k v d : NoDup (dkeys d) → NoDup (dkeys (dset k v d)).
Proof. rewrite dkeys_dset. apply NoDup_append_new. Qed.

Lemma ddel_sublist k d : ddel k d `sublist_of` d.
Proof.
  induction d as [|[k' v'] d IH]; simpl; [done|].
  case_decide; [by apply sublist_cons|by apply sublist_skip].
Qed.

Lemma NoDup_ddel k d : NoDup (dkeys d) → NoDup (dkeys (ddel k d)).
Proof.
  unfold dkeys. intros Hd. eapply sublist_NoDup; [exact Hd|].
  apply fmap_sublist, ddel_sublist.
Qed.

(** Assignments to new keys: at the end *)
Lemma dset_fresh k v d : k ∉ dkeys d → dset k v d = d ++ [(k, v)].
Proof.
  unfold dkeys. induction d as [|[k' v'] d IH]; [done|]. cbn. intros [Hk Hd]%not_elem_of_cons.
  by rewrite decide_False, IH.
Qed.

Lemma dupdate_fresh d1 d2 : NoDup (dkeys (d1 ++ d2)) → dupdate d1 d2 = d1 ++ d2.
Proof.
  unfold dupdate. revert d1. induction d2 as [|[k v] d2 IH]; intros d1; [by rewrite app_nil_r|].
  cbn [foldl fst snd]. intros Hnd. rewrite dset_fresh.
  - rewrite IH; [by rewrite <- app_assoc|]. by rewrite <- app_assoc.
  - unfold dkeys in *. rewrite fmap_app in Hnd. apply NoDup_app in Hnd as (_ & Hn & _).
    intros Hin. apply (Hn k Hin). left.
Qed.

Lemma ddel_dset_fresh k v d : k ∉ dkeys d → ddel k (dset k v d) = d.
Proof.
  unfold dkeys. induction d as [|[k' v'] d IH]; simpl; [by rewrite decide_True|].
  intros [Hk Hd]%not_elem_of_cons. rewrite decide_False by done. simpl.
  rewrite decide_False by done. by rewrite IH.
Qed.

Lemma NoDup_dupdate d1 d2 : NoDup (dkeys d1) → NoDup (dkeys (dupdate d1 d2)).
Proof.
  unfold dupdate. revert d1. induction d2 as [|[k v] d2 IH]; intros d1 ?; simpl; [done|].
  by apply IH, NoDup_dset.
Qed.

Lemma dget_dupdate_notin k d1 d2 : k ∉ dkeys d2 → dget k (dupdate d1 d2) = dget k d1.
Proof.
  unfold dupdate, dkeys. revert d1. induction d2 as [|[k' v] d2 IH]; intros d1; simpl; [done|].
  intros [Hk Hin]%not_elem_of_cons. rewrite IH by done. by apply dget_dset_ne.
Qed.

Lemma dget_dupdate_in k v d1 d2 :
  NoDup (dkeys d2) → dget k d2 = Some v → dget k (dupdate d1 d2) = Some v.
Proof.
  unfold dupdate, dkeys. revert d1.
  induction d2 as [|[k' v'] d2 IH]; intros d1; simpl; [done|].
  intros [Hk Hnd]%NoDup_cons. case_decide; [|by apply IH].
  intros [= ->]. subst. fold (dupdate (dset k' v d1) d2).
  rewrite dget_dupdate_notin by done. apply dget_dset_eq.
Qed.

(** Dictionaries as finite maps, forgetting the order of insertion. *)
Definition dmap d : gmap string A := list_to_map d.

Lemma lookup_dmap k d : dmap d !! k = dget k d.
Proof.
  unfold dmap. induction d as [|[k' v] d IH]; simpl; [apply lookup_empty|].
  case_decide; subst; [by rewrite lookup_insert_eq|]. by rewrite lookup_insert_ne by congruence.
Qed.

Lemma dmap_dset k v d : dmap (dset k v d) = <[k := v]> (dmap d).
Proof.
  apply map_eq. intros i. rewrite lookup_dmap.
  destruct (decide (k = i)) as [<-|].
  - by rewrite dget_dset_eq, lookup_insert_eq.
  - by rewrite dget_dset_ne, lookup_insert_ne, lookup_dmap by done.
Qed.

Lemma dmap_ddel k d : NoDup (dkeys d) → dmap (ddel k d) = delete k (dmap d).
Proof.
  intros Hd. apply map_eq. intros i. rewrite lookup_dmap.
  destruct (decide (k = i)) as [<-|].
  - by rewrite dget_ddel_eq, lookup_delete_eq.
  - by rewrite dget_ddel_ne, lookup_delete_ne, lookup_dmap by done.
Qed.

End dict.

(** ** Values *)

Inductive value :=
| VNull
| VBool (b : bool)
| VInt (z : Z)
| VFloat (m e : Z)
| VStr (s : string)
| VList (l : list value)
| VDict (d : list (string * value)).

Section value_induction.
Variable P : value → Prop.
Hypothesis Hnull : P VNull.
Hypothesis Hbool : ∀ b, P (VBool b).
Hypothesis Hint : ∀ z, P (VInt z).
Hypothesis Hfloat : ∀ m e, P (VFloat m e).
Hypothesis Hstr : ∀ s, P (VStr s).
Hypothesis Hlist : ∀ l, Forall P l → P (VList l).
Hypothesis Hdict : ∀ d, Forall (λ kv, P kv.2) d → P (VDict d).

Fixpoint value_nested_ind (v : value) : P v :=
  match v with
  | VNull => Hnull
  | VBool b => Hbool b
  | VInt z => Hint z
  | VFloat m e => Hfloat m e
  | VStr s => Hstr s
  | VList l =>
      Hlist l ((fix go (l : list value) : Forall P l :=
        match l with
        | [] => Forall_nil_2 _
        | x :: l' => Forall_cons_2 _ _ _ (value_nested_ind x) (go l')
        end) l)
  | VDict d =>
      Hdict d ((fix go (d : list (string * value)) : Forall (λ kv, P kv.2) d :=
        match d with
        | [] => Forall_nil_2 _
        | x :: d' => Forall_cons_2 _ _ _ (value_nested_ind x.2) (go d')
        end) d)
  end.
End value_induction.

(** [isinstance] and [is None] tests *)
Definition is_null (v : value) : bool := match v with VNull => true | _ => false end.
Definition is_str_or_int (v : value) : bool :=
  match v with VStr _ | VInt _ | VBool _ => true | _ => false end.
Definition is_dict (v : value) : bool := match v with VDict _ => true | _ => false end.
Definition is_list (v : value) : bool := match v with VList _ => true | _ => false end.
Definition is_container (v : value) : bool := is_dict v || is_list v.
Definition is_str_or_list (v : value) : bool :=
  match v with VStr _ | VList _ => true | _ => false end.

(** [len(v)] *)
Definition py_len (v : value) : res nat :=
  match v with
  | VStr s => Ok (String.length s)
  | VList l => Ok (length l)
  | VDict d => Ok (length d)
  | _ => Err TypeError
  end.

(** [bool(v)] *)
Definition truthy (v : value) : bool :=
  match v with
  | VNull => false
  | VBool b => b
  | VInt z => negb (z =? 0)%Z
  | VFloat m _ => negb (m =? 0)%Z
  | VStr s => negb (bool_decide (s = ""))
  | VList l => negb (bool_decide (length l = 0))
  | VDict d => negb (bool_decide (length d = 0))
  end.

(** ** Equality *)

Definition py_num (v : value) : option (Z * Z) :=
  match v with
  | VBool b => Some (if b then 1%Z else 0%Z, 0%Z)
  | VInt z => Some (z, 0%Z)
  | VFloat m e => Some (m, e)
  | _ => None
  end.

(** m1 * 2^e1 = m2 * 2^e2 *)
Definition num_eq (a b : Z * Z) : bool :=
  let e := Z.min a.2 b.2 in
  (Z.shiftl a.1 (a.2 - e) =? Z.shiftl b.1 (b.2 - e))%Z.

Fixpoint py_eq (a b : value) {struct a} : bool :=
  match a, b with
  | VNull, VNull => true
  | VStr s, VStr t => bool_decide (s = t)
  | VList l, VList m =>
      (fix go (l m : list value) : bool :=
         match l, m with
         | [], [] => true
         | x :: l', y :: m' => py_eq x y && go l' m'
         | _, _ => false
         end) l m
  | VDict d, VDict e =>
      bool_decide (length d = length e) &&
      (fix go (d : list (string * value)) : bool :=
         match d with
         | [] => true
         | kx :: d' =>
             (match dget kx.1 e with Some y => py_eq kx.2 y | None => false end) && go d'
         end) d
  | _, _ =>
      match py_num a, py_num b with
      | Some x, Some y => num_eq x y
      | _, _ => false
      end
  end.

(** ** Well-formed values: no dictionary repeats a key *)

Inductive wf : value → Prop :=
| wf_null : wf VNull
| wf_bool b : wf (VBool b)
| wf_int z : wf (VInt z)
| wf_float m e : wf (VFloat m e)
| wf_str s : wf (VStr s)
| wf_list l : Forall wf l → wf (VList l)
| wf_dict d : NoDup (dkeys d) → Forall (λ kv, wf kv.2) d → wf (VDict d).

Definition wf_items (d : list (string * value)) : Prop := wf (VDict d).

Lemma wf_dget k v d : wf (VDict d) → dget k d = Some v → wf v.
Proof.
  intros Hd Hk. inv Hd. apply dget_Some_elem in Hk.
  rewrite Forall_forall in *. by apply (H1 (k, v)).
Qed.

Lemma Forall_dset (P : value → Prop) k v d :
  P v → Forall (λ kv, P kv.2) d → Forall (λ kv, P kv.2) (dset k v d).
Proof.
  intros Hv Hd. induction Hd as [|[k' v'] d ? ? IH]; simpl; [by repeat constructor|].
  case_decide; by constructor.
Qed.

Lemma wf_dset k v d : wf (VDict d) → wf v → wf (VDict (dset k v d)).
Proof.
  intros Hd Hv. inv Hd. constructor; [by apply NoDup_dset|]. by apply Forall_dset.
Qed.

Lemma wf_ddel k d : wf (VDict d) → wf (VDict (ddel k d)).
Proof.
  intros Hd. inv Hd. constructor; [by apply NoDup_ddel|].
  clear H0. induction H1 as [|[k' v'] d ? ? IH]; simpl; [done|].
  case_decide; [done|]. by constructor.
Qed.

Lemma wf_lookup l i v : wf (VList l) → l !! i = Some v → wf v.
Proof. intros Hl Hi. inv Hl. by eapply Forall_lookup_1. Qed.

Lemma wf_insert l i v : wf (VList l) → wf v → wf (VList (<[i := v]> l)).
Proof. intros Hl Hv. inv Hl. constructor. by apply Forall_insert. Qed.

Lemma py_eq_refl v : wf v → py_eq v v = true.
Proof.
  assert (Hn : ∀ x, num_eq x x = true) by (intros [m e]; apply Z.eqb_refl).
  induction v as [| | | | |l IH|d IH] using value_nested_ind; intros Hwf; simpl;
    try apply Hn; [done|by apply bool_decide_true| |].
  - inv Hwf. rename select (Forall wf l) into Hl. induction l as [|x l IHl]; [done|].
    apply Forall_cons in IH as [Hx IH]. apply Forall_cons in Hl as [Hwx Hl].
    rewrite Hx by done. by apply IHl.
  - rewrite bool_decide_true by done. simpl. inv Hwf.
    rename select (Forall _ d) into Hd.
    assert (Hall : ∀ k v, (k, v) ∈ d → dget k d = Some v) by (intros; by apply dget_elem).
    rename select (NoDup _) into Hnd. clear Hnd.
    revert Hall. generalize d at 2 3 as d0. intros d0.
    induction d as [|[k x] d IHd]; [done|]. intros Hall.
    apply Forall_cons in IH as [Hx IH]. apply Forall_cons in Hd as [Hwx Hd]. simpl in *.
    rewrite (Hall k x) by set_solver. rewrite Hx by done.
    apply IHd; [done|done|]. intros; apply Hall; set_solver.
Qed.

End PyVal.

Export PyVal.
#[export] Hint Constructors PyVal.wf : cortx.
#[export] Hint Resolve PyVal.wf_dset PyVal.wf_ddel PyVal.wf_insert PyVal.wf_dget PyVal.wf_lookup
  PyVal.py_eq_refl PyVal.NoDup_dset PyVal.NoDup_ddel : cortx.
