(* ===== verification/Backoff.v ===== *)
(** [utils/common/common.py]: the decorator [ExponentialBackoff], which
    retries a call on some exceptions, waiting longer each time. *)
From S2P Require Import Prelude.

Module Backoff.

(** The constructor's arguments; the exceptions that are retried. *)
Record backoff := ExponentialBackoff {
  bo_exception : exn → bool;
  bo_tries : Z;
  bo_delay : Z;
  bo_backoff : Z;
  bo_cap : Z
}.

(** [ExponentialBackoff(exception)] *)
Definition backoff_init (exception : exn → bool) : backoff :=
  ExponentialBackoff exception 10 1 2 120.

Section wrap.
Context {W A : Type} (sleep : Z → ST W unit) (b : backoff).

(** The loop [while max_tries > 1], which runs [max_tries - 1] times unless it
    returns, then the last call. *)
Fixpoint wrap_loop (tries_left : nat) (max_delay : Z) (func : ST W A) : ST W A :=
  match tries_left with
  | 0 => func
  | S tries_left => λ w,
      match func w with
      | (Err e, w') =>
          if bo_exception b e then
            (sleep (Z.min (bo_cap b) max_delay) ;;;
             wrap_loop tries_left (max_delay * bo_backoff b) func) w'
          else (Err e, w')
      | r => r
      end
  end.

Definition wrap (func : ST W A) : ST W A :=
  wrap_loop (Z.to_nat (bo_tries b - 1)) (bo_delay b) func.

End wrap.

(** ** What a wrapped call does *)

Section spec.
Context {W A : Type} (sleep : Z → ST W unit) (b : backoff) (func : ST W A).
Context (Hsleep : ∀ dt w, (sleep dt w).1 = Ok tt).

(** The waits before the calls 2, 3, ... *)
Definition delay (i : nat) : Z := Z.min (bo_cap b) (bo_delay b * bo_backoff b ^ Z.of_nat i).

(** The world before call [i], when every earlier call has failed. *)
Fixpoint world (i : nat) (w : W) : W :=
  match i with
  | 0 => w
  | S i => (sleep (delay i) (func (world i w)).2).2
  end.

(** Call [i] raised an exception that is retried. *)
Definition retried (w : W) (i : nat) : Prop :=
  ∃ e, (func (world i w)).1 = Err e ∧ bo_exception b e = true.

Lemma wrap_loop_calls w n : ∀ i,
  (∀ j, j < i → retried w j) →
  ∃ k, i ≤ k ≤ i + n ∧ (∀ j, j < k → retried w j) ∧
    wrap_loop sleep b n (bo_delay b * bo_backoff b ^ Z.of_nat i) func (world i w) = func (world k w) ∧
    (k < i + n → ¬ retried w k).
Proof.
  induction n as [|n IH]; intros i Hi.
  { exists i. split; [lia|]. split; [done|]. split; [done|lia]. }
  cbn [wrap_loop]. destruct (func (world i w)) as [[a|e] w'] eqn:Hf.
  - exists i. rewrite Hf. split; [lia|]. split; [done|]. split; [done|].
    intros _ (e & He & _). rewrite Hf in He. done.
  - destruct (bo_exception b e) eqn:He.
    + destruct (IH (S i)) as (k & Hk & Hr & Heq & Hlast).
      { intros j Hj. destruct (decide (j = i)) as [->|]; [|apply Hi; lia].
        exists e. by rewrite Hf. }
      exists k. split; [lia|]. split; [done|]. split; [|intros; apply Hlast; lia].
      unfold st_bind. pose proof (Hsleep (delay i) w') as Hs. cbn [world] in Heq. rewrite Hf in Heq.
      cbn [snd] in Heq. unfold delay in Hs, Heq.
      destruct (sleep (Z.min (bo_cap b) (bo_delay b * bo_backoff b ^ Z.of_nat i)) w') as [x w2].
      cbn in Hs, Heq. subst x. rewrite <- Heq. f_equal.
      rewrite Nat2Z.inj_succ, Z.pow_succ_r by lia. lia.
    + exists i. rewrite Hf. split; [lia|]. split; [done|]. split; [done|].
      intros _ (e' & He' & Hc). rewrite Hf in He'. cbn in He'. congruence.
Qed.

Lemma wrap_calls w :
  ∃ k : nat, (Z.of_nat k <= Z.max 0 (bo_tries b - 1))%Z ∧
    (∀ j, j < k → retried w j) ∧
    wrap sleep b func w = func (world k w) ∧
    ((Z.of_nat k < bo_tries b - 1)%Z → ¬ retried w k).
Proof.
  destruct (wrap_loop_calls w (Z.to_nat (bo_tries b - 1)) 0) as (k & Hk & Hr & Heq & Hlast); [lia|].
  exists k. split; [lia|]. split; [done|]. split.
  - unfold wrap. rewrite <- Heq. cbn [world]. by rewrite Z.mul_1_r.
  - intros Hlt. apply Hlast. lia.
Qed.

(** A decorated function is called at most [tries] times (once when
    [tries] is less): call [k] is the one whose outcome is returned, every
    earlier call raised one of the listed exceptions and was followed by a
    wait of [min(cap, delay * backoff^i)], and call [k] either was the last
    allowed or did not raise such an exception. *)
Theorem backoff_calls w :
  ∃ k : nat, (Z.of_nat k <= Z.max 0 (bo_tries b - 1))%Z ∧
    (∀ j, j < k → retried w j) ∧
    wrap sleep b func w = func (world k w) ∧
    ((Z.of_nat k < bo_tries b - 1)%Z → ¬ retried w k).
Proof. apply wrap_calls. Qed.

(** What holds of every single call that returns holds of the wrapped one:
    the relation between the state before and after may not see failed calls
    and waits. *)
Lemma wrap_ok (P : W → A → W → Prop) (R : W → W → Prop) w a w' :
  (∀ w0, R w0 w0) → (∀ w0 w1 w2, R w0 w1 → R w1 w2 → R w0 w2) →
  (∀ dt w0, R w0 (sleep dt w0).2) → (∀ e w0 w1, func w0 = (Err e, w1) → R w0 w1) →
  (∀ w0 w1 w2 r, R w0 w1 → P w1 r w2 → P w0 r w2) →
  (∀ w0 r w1, func w0 = (Ok r, w1) → P w0 r w1) →
  wrap sleep b func w = (Ok a, w') → P w a w'.
Proof.
  intros Hrefl Htr Hsl Herr HRP Hok. destruct (wrap_calls w) as (k & _ & Hr & -> & _).
  intros Hf. apply (HRP w (world k w)); [|by apply Hok].
  clear Hf. induction k as [|k IH]; [apply Hrefl|].
  apply (Htr _ (world k w)); [apply IH; intros; apply Hr; lia|].
  cbn [world]. destruct (Hr k) as (e & He & _); [lia|].
  destruct (func (world k w)) as [x w1] eqn:Hf. cbn in He. subst x.
  apply (Htr _ w1); [by eapply Herr|apply Hsl].
Qed.

End spec.

(** ** An execution: two failures, then a result *)

Definition flaky : ST (nat * list Z) nat := λ '(n, slept),
  (match n with 0 | 1 => Err ServiceError | _ => Ok n end, (S n, slept)).
Definition log_sleep (dt : Z) : ST (nat * list Z) unit := λ '(n, slept), (Ok tt, (n, slept ++ [dt])).
Definition service : exn → bool := λ e, match e with ServiceError => true | _ => false end.

Lemma backoff_calls_witness :
  wrap log_sleep (ExponentialBackoff service 4 1 2 120) flaky (0, []) = (Ok 2, (3, [1; 2]%Z)) ∧
  let b := ExponentialBackoff service 4 1 2 120 in
  ∃ k : nat, (Z.of_nat k <= Z.max 0 (bo_tries b - 1))%Z ∧
    (∀ j, j < k → retried log_sleep b flaky (0, []) j) ∧
    wrap log_sleep b flaky (0, []) = flaky (world log_sleep b flaky k (0, [])) ∧
    ((Z.of_nat k < bo_tries b - 1)%Z → ¬ retried log_sleep b flaky (0, []) k).
Proof.
  split; [reflexivity|]. intros b.
  apply (backoff_calls log_sleep b flaky). by intros dt [n l].
Defined.

End Backoff.
