(* ===== verification/KvPayload.v ===== *)
(** [utils/kv_store/kv_payload.py]: class [KvPayload], the in-memory
    hierarchical key-value payload behind every configuration store.

    A key such as [a>b[2]>c] is split at the delimiter; each component is a
    dictionary key with an optional list index.  [key.split(delim, 1)] followed
    by recursion on the rest is recursion on [split d key]
    ([PyStr.split_split1]).  Mutators return the result with the data as it is
    left, also when an exception is raised half way down. *)
From Stdlib Require Import Ascii.
From S2P Require Import Prelude PyStr PyVal.
Import PyStr.

Module Payload.

(** [re.split(r'\[([0-9]+)\]', k)]: the name [ki[0]], and when the component
    has an index, [int(ki[1])] and the text [ki[2]] that follows it. *)
Definition key_index (k : string) : string * option (nat * string) :=
  match index_split k with
  | n :: i :: r :: _ => (n, Some (int_of_digits i, r))
  | n :: _ => (n, None)
  | [] => (k, None)
  end.

(** ** The recursive operations, on the data *)

(** [if k[0] not in data.keys(): data[k[0]] = {}] *)
Definition touch (name : string) (items : list (string * value)) : list (string * value) :=
  match dget name items with Some _ => items | None => dset name (VDict []) items end.

(** The list under [k[0]], or a new one; extended with [''] up to the index. *)
Definition as_list (x : option value) : list value :=
  match x with Some (VList l) => l | _ => [] end.
Definition extend (l : list value) (i : nat) : list value :=
  l ++ replicate (S i - length l) (VStr "").

(** The place [_set] writes to at one component: the value there, and the
    dictionary after an assignment to it. *)
Definition slot (name : string) (idx : option (nat * string)) (items0 : list (string * value))
    : value * (value → value) :=
  let items := touch name items0 in
  match idx with
  | Some (i, _) =>
      let l := extend (as_list (dget name items)) i in
      (default VNull (l !! i), λ c, VDict (dset name (VList (<[i := c]> l)) items))
  | None => (default VNull (dget name items), λ c, VDict (dset name c items))
  end.

(** An intermediate node that is a string or a list is replaced by [{}]. *)
Definition descend (c : value) : value := if is_str_or_list c then VDict [] else c.

(** [len(ki) > 1 and len(ki[0].strip()) == 0] *)
Definition bad_index (ki : string * option (nat * string)) : bool :=
  match ki.2 with Some _ => blank ki.1 | None => false end.

(** [_set]: the intermediate nodes are created on the way down.  A scalar
    other than a string in the way has no [keys()]. *)
Fixpoint _set (path : list string) (val data : value) : res unit * value :=
  match path with
  | [] => (Ok tt, data)
  | k :: rest =>
      let ki := key_index k in
      if bad_index ki then (Err (KvError EINVAL), data)
      else match data with
      | VDict items =>
          let '(child, put) := slot ki.1 ki.2 items in
          match rest with
          | [] => (Ok tt, put val)
          | _ :: _ => let '(r, child') := _set rest val (descend child) in (r, put child')
          end
      | _ => (Err AttributeError, data)
      end
  end.

(** [_get]: Python's [None] is [VNull]. *)
Fixpoint _get (path : list string) (data : value) : res value :=
  match path with
  | [] => Err UnboundLocalError
  | k :: rest =>
      let '(name, idx) := key_index k in
      if blank name then Err (KvError EINVAL) else
      match rest, idx with
      | [], Some (i, tail) =>
          if decide (tail ≠ "") then Err (KvError EINVAL) else
          match data with
          | VDict items =>
              match dget name items with
              | None => Ok VNull
              | Some x =>
                  n ← py_len x;
                  if decide (n ≤ i) then Ok VNull
                  else match x with
                       | VList l => Ok (default VNull (l !! i))
                       | _ => Ok VNull
                       end
              end
          | _ => Err AttributeError
          end
      | [], None =>
          match data with
          | VDict items => Ok (default VNull (dget name items))
          | _ => Err UnboundLocalError
          end
      | _ :: _, Some (i, tail) =>
          if decide (tail ≠ "") then Err (KvError EINVAL) else
          match data with
          | VDict items =>
              match dget name items with
              | None => Err KeyError
              | Some (VList l) =>
                  match l !! i with
                  | Some (VDict x) => _get rest (VDict x)
                  | _ => Ok VNull
                  end
              | Some _ => Ok VNull
              end
          | _ => Err TypeError
          end
      | _ :: _, None =>
          match data with
          | VDict items =>
              match dget name items with
              | Some (VDict x) => _get rest (VDict x)
              | _ => Ok VNull
              end
          | _ => Err AttributeError
          end
      end
  end.

(** [_shallow_get] *)
Fixpoint _shallow_get (path : list string) (data : value) : res value :=
  match path with
  | [] => Ok data
  | k :: rest =>
      let '(name, idx) := key_index k in
      if match idx with Some _ => blank name | None => false end
      then Err (KvError EINVAL)
      else match data with
      | VDict items =>
          match dget name items with
          | None => Ok VNull
          | Some x =>
              match idx with
              | Some (i, _) =>
                  match x with
                  | VList l =>
                      match l !! i with
                      | None => Ok VNull
                      | Some y => match rest with [] => Ok y | _ :: _ => _shallow_get rest y end
                      end
                  | _ => Ok VNull
                  end
              | None => match rest with [] => Ok x | _ :: _ => _shallow_get rest x end
              end
          end
      | _ => Err AttributeError
      end
  end.

(** [_delete]: removes a leaf (any node when [force]); the last element of a
    list is dropped, an inner one is replaced by the empty string. *)
Fixpoint _delete (path : list string) (force : bool) (data : value) : res bool * value :=
  match path with
  | [] => (Ok false, data)
  | k :: rest =>
      let '(name, idx) := key_index k in
      match data with
      | VDict items =>
          match dget name items with
          | None => (Ok false, data)
          | Some x =>
              match idx with
              | Some (i, _) =>
                  match x with
                  | VList l =>
                      match l !! i with
                      | None => (Ok false, data)
                      | Some y =>
                          match rest with
                          | [] =>
                              let l' := if decide (S i = length l) then take i l
                                        else <[i := VStr ""]> l in
                              (Ok true, VDict (dset name (VList l') items))
                          | _ :: _ =>
                              let '(r, y') := _delete rest force y in
                              (r, VDict (dset name (VList (<[i := y']> l)) items))
                          end
                      end
                  | _ => (Err (KvError EINVAL), data)
                  end
              | None =>
                  match rest with
                  | [] =>
                      if negb (is_container x) || force || negb (truthy x)
                      then (Ok true, VDict (ddel name items))
                      else (Err (KvError EINVAL), data)
                  | _ :: _ =>
                      let '(r, x') := _delete rest force x in
                      (r, VDict (dset name x' items))
                  end
              end
          end
      | _ => (Err AttributeError, data)
      end
  end.

(** ["%s" % pkey], and ["%s[%d]"] *)
Definition fmt (pkey : option string) : string := default "None" pkey.
Definition at_index (p : string) (i : nat) : string := p +:+ "[" +:+ dec i +:+ "]".
Definition under (delim : string) (pkey : option string) (key : string) : string :=
  match pkey with None => key | Some p => p +:+ delim +:+ key end.

(** [_get_keys]: the keys of the string, integer and boolean leaves, appended
    to [keys] unless present.  Lists inside lists are skipped. *)
Fixpoint _get_keys (delim : string) (key_index : bool)
    (keys : list string) (data : value) (pkey : option string) {struct data} : list string :=
  let suffix p i := if key_index then at_index p i else p in
  match data with
  | VList l =>
      (foldl (λ '(i, keys) x,
         (S i,
          if is_dict x then
            let newkey := match pkey with
                          | None => None
                          | Some p => if decide (p = "") then None else Some (suffix p i)
                          end in
            _get_keys delim key_index keys x newkey
          else if is_str_or_int x then append_new keys (suffix (fmt pkey) i)
          else keys)) (0, keys) l).2
  | VDict items =>
      foldl (λ keys '(key, val),
        let newkey := under delim pkey key in
        if is_container val then _get_keys delim key_index keys val (Some newkey)
        else if is_str_or_int val then append_new keys newkey
        else keys) keys items
  | _ => keys
  end.

(** [_shallow_get_keys] on a list or a dictionary: list indices are keys, and
    every leaf of a dictionary is. *)
Fixpoint shallow_keys (delim : string) (key_index : bool)
    (keys : list (option string)) (data : value) (pkey : option string)
    {struct data} : list (option string) :=
  match data with
  | VList l =>
      if key_index then keys ++ imap (λ i _, Some (at_index (fmt pkey) i)) l
      else keys ++ [pkey]
  | VDict items =>
      foldl (λ keys '(key, val),
        let nkey := under delim pkey key in
        if is_container val then shallow_keys delim key_index keys val (Some nkey)
        else keys ++ [Some nkey]) keys items
  | _ => keys
  end.

(** [_shallow_get_keys]: anything else is an error; the recursive calls of
    [shallow_keys] are on lists and dictionaries only. *)
Definition _shallow_get_keys (delim : string) (key_index : bool)
    (keys : list (option string)) (data : value) (pkey : option string)
    : res (list (option string)) :=
  if is_container data then Ok (shallow_keys delim key_index keys data pkey)
  else Err (KvError ENOSYS).

(** [search_val in (val, None)] *)
Definition val_matches (search_val val : value) : bool :=
  py_eq search_val val || is_null search_val.

(** [_search] *)
Fixpoint _search (d : ascii) (search_key : string) (search_val : value)
    (data : value) (prefix : string) {struct data} : list string :=
  let key := List.last (split d prefix) "" in
  if is_null search_val && bool_decide (key = search_key)
  then _get_keys (sep d) true [] data (Some prefix)
  else match data with
  | VList l =>
      (foldl (λ '(i, keys) x,
         (S i,
          if is_str_or_int x then
            if bool_decide (key = search_key) && val_matches search_val x
            then keys ++ [at_index prefix i] else keys
          else if is_dict x then
            keys ++ _search d search_key search_val x (at_index prefix i)
          else keys)) (0, []) l).2
  | VDict items =>
      foldl (λ keys '(k, x),
        let newkey := prefix +:+ sep d +:+ k in
        if is_str_or_int x then
          if bool_decide (k = search_key) && val_matches search_val x
          then keys ++ [newkey] else keys
        else if is_container x then keys ++ _search d search_key search_val x newkey
        else keys) [] items
  | _ => []
  end.

(** [_add_num_keys] *)
Definition num_keys (items : list (string * value)) : list (string * value) :=
  omap (λ kv, match kv.2 with
              | VList l => Some ("num_" +:+ kv.1, VInt (Z.of_nat (length l)))
              | _ => None
              end) items.

Fixpoint _add_num_keys (data : value) : value :=
  match data with
  | VDict items =>
      VDict (dupdate (map (λ '(k, v), (k, _add_num_keys v)) items) (num_keys items))
  | VList l => VList (map _add_num_keys l)
  | _ => data
  end.

(** ** The class *)

Record payload := Payload {
  kp_data : value;             (* self._data *)
  kp_delim : string;           (* self._delim *)
  kp_keys : list (option string)  (* self._keys *)
}.

(** [KvPayload(data, delim, recurse)] *)
Definition init (data : value) (delim : string) (recurse : bool) : res payload :=
  let data := if is_null data then VDict [] else data in
  if decide (1 < String.length delim) then Err (KvError EINVAL) else
  if recurse then Ok (Payload data delim (Some <$> _get_keys delim true [] data None))
  else keys ← _shallow_get_keys delim true [] data None; Ok (Payload data delim keys).

(** [s.split(delim)] raises on the empty delimiter, the only string of length
    at most one that is not a character. *)
Definition with_delim {A} (p : payload) (dflt : A) (f : ascii → A) : A :=
  match kp_delim p with
  | String d EmptyString => f d
  | _ => dflt
  end.

Definition get (p : payload) (key : string) (recurse : bool) : res value :=
  with_delim p (Err ValueError) (λ d,
    if recurse then _get (split d key) (kp_data p) else _shallow_get (split d key) (kp_data p)).

Definition set (key : string) (val : value) : ST payload unit := λ p,
  with_delim p (Err ValueError, p) (λ d,
    let '(r, data) := _set (split d key) val (kp_data p) in
    match r with
    | Ok _ => (Ok tt, Payload data (kp_delim p) (append_new (kp_keys p) (Some key)))
    | Err e => (Err e, Payload data (kp_delim p) (kp_keys p))
    end).

(** [del keys[keys.index(key)]] *)
Fixpoint remove_first {A} `{EqDecision A} (x : A) (l : list A) : list A :=
  match l with
  | [] => []
  | y :: l' => if decide (x = y) then l' else y :: remove_first x l'
  end.

Definition delete (key : string) (force : bool) : ST payload bool := λ p,
  with_delim p (Err ValueError, p) (λ d,
    let '(r, data) := _delete (split d key) force (kp_data p) in
    (r, Payload data (kp_delim p)
          (if decide (r = Ok true) then remove_first (Some key) (kp_keys p) else kp_keys p))).

(** [get_keys(starts_with, recurse, key_index=...)] *)
Definition get_keys_rec (p : payload) (starts_with : string) (key_index : bool) : list string :=
  let keys := _get_keys (kp_delim p) key_index [] (kp_data p) None in
  if decide (starts_with = "") then keys
  else filter (λ k, startswith k starts_with = true) keys.

Definition get_keys (p : payload) (starts_with : string) (recurse key_index : bool)
    : res (list (option string)) :=
  if recurse then Ok (Some <$> get_keys_rec p starts_with key_index)
  else
    keys ← _shallow_get_keys (kp_delim p) key_index [] (kp_data p) None;
    if decide (starts_with = "") then Ok keys
    else if decide (None ∈ keys) then Err AttributeError
    else Ok (filter (λ k, startswith (fmt k) starts_with = true) keys).

Definition search (p : payload) (parent_key search_key : string) (search_val : value)
    : res (list string) :=
  data ← get p parent_key true;
  with_delim p (Err ValueError) (λ d, Ok (_search d search_key search_val data parent_key)).

Definition add_num_keys : ST payload unit := λ p,
  (Ok tt, Payload (_add_num_keys (kp_data p)) (kp_delim p) (kp_keys p)).

(** [get_data()] *)
Definition get_data (p : payload) : value := kp_data p.

End Payload.
