(* ===== verification/KvPayloadFacts.v ===== *)
(** Theory of [KvPayload]: a reference semantics [lookup] of hierarchical
    keys, and what [get], [set] and [delete] do in its terms. *)
From Stdlib Require Import Ascii.
From S2P Require Import Prelude PyStr PyVal KvPayload.
Import PyStr Payload.

Module PayloadFacts.

#[local] Set Default Proof Using "All".

(** ** Reference semantics of keys *)

(** The node a path denotes, if there is one. *)
Fixpoint lookup (path : list string) (data : value) : option value :=
  match path with
  | [] => Some data
  | k :: rest =>
      match data with
      | VDict items =>
          x ← dget (key_index k).1 items;
          match (key_index k).2 with
          | None => lookup rest x
          | Some (i, _) => match x with VList l => y ← l !! i; lookup rest y | _ => None end
          end
      | _ => None
      end
  end.

(** The list a path ends in an element of, and the index, when its last part
    has one. *)
Fixpoint element_of (path : list string) (data : value) : option (list value * nat) :=
  match path with
  | [] => None
  | k :: rest =>
      match data with
      | VDict items =>
          x ← dget (key_index k).1 items;
          match rest, (key_index k).2 with
          | [], None => None
          | [], Some (i, _) => match x with VList l => Some (l, i) | _ => None end
          | _, None => element_of rest x
          | _, Some (i, _) => match x with VList l => y ← l !! i; element_of rest y | _ => None end
          end
      | _ => None
      end
  end.

(** The components [get] accepts: a name that is not blank, and no text after
    the index. *)
Definition accepted (k : string) : bool :=
  negb (blank (key_index k).1) &&
  match (key_index k).2 with Some (_, tail) => bool_decide (tail = "") | None => true end.

(** Two paths part at a component with a different name. *)
Fixpoint diverge (p q : list string) : bool :=
  match p, q with
  | k :: p', k' :: q' =>
      if decide ((key_index k).1 = (key_index k').1)
      then bool_decide (fst <$> (key_index k).2 = fst <$> (key_index k').2) && diverge p' q'
      else true
  | _, _ => false
  end.

(** Two paths part at a component with a different name, or at two different
    indices of the same list. *)
Fixpoint indep (p q : list string) : bool :=
  match p, q with
  | k :: p', k' :: q' =>
      if decide ((key_index k).1 = (key_index k').1)
      then match (key_index k).2, (key_index k').2 with
           | Some (i, _), Some (j, _) => if decide (i = j) then indep p' q' else true
           | None, None => indep p' q'
           | _, _ => false
           end
      else true
  | _, _ => false
  end.

(** Every scalar of a document satisfies [P]. *)
Fixpoint all_scalars (P : value → bool) (v : value) : bool :=
  match v with
  | VList l => forallb (all_scalars P) l
  | VDict d => forallb (λ '(_, x), all_scalars P x) d
  | _ => P v
  end.

(** Documents whose scalars are all strings, as the file formats of
    configuration data with string values load them. *)
Definition string_data : value → bool :=
  all_scalars (λ v, match v with VStr _ => true | _ => false end).

(** ** Components *)

Lemma key_index_name n : no_char open_br n = true → key_index n = (n, None).
Proof. intros Hn. unfold key_index. by rewrite index_split_plain. Qed.

Lemma key_index_at n i : no_char open_br n = true → key_index (at_index n i) = (n, Some (i, "")).
Proof.
  intros Hn. unfold key_index, at_index. rewrite index_split_dec by done.
  by rewrite int_of_dec.
Qed.

Ltac key_cases k :=
  let name := fresh "name" in
  let idx := fresh "idx" in
  let Hk := fresh "Hk" in
  destruct (key_index k) as [name idx] eqn:Hk; simpl in *.

(** ** [set] *)

#[local] Arguments _set : simpl never.

Lemma set_cons k rest val data :
  _set (k :: rest) val data =
  if bad_index (key_index k) then (Err (KvError EINVAL), data)
  else match data with
  | VDict items =>
      let '(child, put) := slot (key_index k).1 (key_index k).2 items in
      match rest with
      | [] => (Ok tt, put val)
      | _ :: _ => let '(r, child') := _set rest val (descend child) in (r, put child')
      end
  | _ => (Err AttributeError, data)
  end.
Proof. done. Qed.

Lemma extend_is_Some l i : ∃ c, extend l i !! i = Some c.
Proof.
  apply lookup_lt_is_Some_2. unfold extend. rewrite length_app, length_replicate. lia.
Qed.

Lemma extend_old l i j x : l !! j = Some x → extend l i !! j = Some x.
Proof. apply lookup_app_l_Some. Qed.

Lemma extend_new l i j c : l !! j = None → extend l i !! j = Some c → c = VStr "".
Proof.
  unfold extend. intros Hn%lookup_ge_None Hc. rewrite lookup_app_r in Hc by done.
  by apply lookup_replicate in Hc as [-> _].
Qed.

Lemma dget_touch_ne name m items : m ≠ name → dget m (touch name items) = dget m items.
Proof. intros Hm. unfold touch. destruct (dget name items); [done|]. by rewrite dget_dset_ne. Qed.

Lemma dget_touch name items :
  dget name (touch name items) = Some (default (VDict []) (dget name items)).
Proof. unfold touch. destruct (dget name items) eqn:Hd; [by rewrite Hd|]. by rewrite dget_dset_eq. Qed.

Section slot_facts.
Context (name : string) (idx : option (nat * string)) (items : list (string * value)).
Context (child : value) (put : value → value).
Context (Hslot : slot name idx items = (child, put)).

Lemma slot_put_dict c : ∃ items', put c = VDict items'.
Proof. revert Hslot. unfold slot. destruct idx as [[i t]|]; intros [= _ <-]; eauto. Qed.

Lemma slot_lookup k q c : key_index k = (name, idx) → lookup (k :: q) (put c) = lookup q c.
Proof.
  revert Hslot. unfold slot. intros Hs Hk. destruct idx as [[i t]|]; simplify_eq/=; rewrite Hk; simpl;
    rewrite dget_dset_eq; simpl; [|done].
  destruct (extend_is_Some (as_list (dget name (touch name items))) i) as [x Hx].
  rewrite list_lookup_insert_eq; [done|]. by apply lookup_lt_is_Some_1.
Qed.

Lemma slot_other k q c :
  (key_index k).1 ≠ name → lookup (k :: q) (put c) = lookup (k :: q) (VDict items).
Proof.
  revert Hslot. unfold slot. intros Hs Hk. destruct idx as [[i t]|]; simplify_eq/=;
    by rewrite dget_dset_ne, dget_touch_ne by done.
Qed.

Lemma slot_old k q :
  key_index k = (name, idx) → q ≠ [] → lookup q (descend child) = lookup (k :: q) (VDict items).
Proof.
  revert Hslot. unfold slot. intros Hs Hk Hq. simpl. rewrite Hk. simpl.
  destruct idx as [[i t]|]; simplify_eq/=; rewrite dget_touch.
  - destruct (extend_is_Some (as_list (Some (default (VDict []) (dget name items)))) i) as [c Hc].
    rewrite Hc. simpl. destruct (dget name items) as [x|]; simpl in *.
    2:{ apply extend_new in Hc as ->; [by destruct q|done]. }
    destruct x as [| | | | |l|]; try (apply extend_new in Hc as ->; [by destruct q|done]).
    simpl in *. destruct (l !! i) as [y|] eqn:Hy; simpl.
    + rewrite (extend_old _ _ _ _ Hy) in Hc. simplify_eq. destruct q, c; done.
    + apply extend_new in Hc as ->; [by destruct q|done].
  - destruct (dget name items) as [x|]; simpl; [|by destruct q]. destruct q, x; done.
Qed.

Lemma slot_indep k i t j t' q x c :
  idx = Some (i, t) → key_index k = (name, Some (j, t')) → i ≠ j →
  lookup (k :: q) (VDict items) = Some x → lookup (k :: q) (put c) = Some x.
Proof.
  revert Hslot. unfold slot. intros Hs -> Hk Hij. simplify_eq. simpl. rewrite Hk. simpl.
  rewrite dget_dset_eq. simpl. rewrite list_lookup_insert_ne, dget_touch by done.
  destruct (dget name items) as [[| | | | |l|]|]; try done. simpl.
  destruct (l !! j) as [y|] eqn:Hy; [|done]. by rewrite (extend_old _ _ _ _ Hy).
Qed.

Lemma slot_wf : wf (VDict items) → wf (descend child) ∧ ∀ c, wf c → wf (put c).
Proof.
  intros Hi. assert (Ht : wf (VDict (touch name items))).
  { unfold touch. destruct (dget name items); [done|]. apply wf_dset; [done|]. constructor; [|done]. apply NoDup_nil_2. }
  assert (He : ∀ i, wf (VList (extend (as_list (dget name (touch name items))) i))).
  { intros i. unfold extend. constructor. apply Forall_app. split.
    - rewrite dget_touch. destruct (dget name items) as [x|] eqn:Hx; [|done]. simpl.
      apply wf_dget in Hx; [|done]. destruct x; try done. by inv Hx.
    - apply Forall_replicate. constructor. }
  assert (Hd : ∀ c, wf c → wf (descend c)).
  { intros c Hc. unfold descend. destruct (is_str_or_list c); [|done]. constructor; [apply NoDup_nil_2|done]. }
  revert Hslot. unfold slot. destruct idx as [[i t]|]; intros [= <- <-].
  - split.
    + apply Hd. destruct (extend_is_Some (as_list (dget name (touch name items))) i) as [c Hc].
      rewrite Hc. simpl. by eapply wf_lookup.
    + intros c Hc. by apply wf_dset, wf_insert.
  - split.
    + apply Hd. rewrite dget_touch. destruct (dget name items) eqn:Hx; simpl; [by eapply (wf_dget _ _ _ Hi)|].
      constructor; [apply NoDup_nil_2|done].
    + intros c Hc. by apply wf_dset.
Qed.

End slot_facts.

Lemma set_keeps_dict path val items : is_dict (_set path val (VDict items)).2 = true.
Proof.
  destruct path as [|k rest]; [done|]. rewrite set_cons. destruct (bad_index _); [done|].
  destruct (slot _ _ _) as [child put] eqn:Hs.
  destruct rest; [|destruct (_set _ _ _)]; simpl;
    by edestruct (slot_put_dict _ _ _ _ _ Hs) as [? ->].
Qed.

(** What was stored is found. *)
Lemma lookup_set path val data r data' :
  path ≠ [] → _set path val data = (Ok r, data') → lookup path data' = Some val.
Proof.
  revert data r data'. induction path as [|k rest IH]; intros data r data' Hp; [done|].
  rewrite set_cons. destruct (bad_index _); [done|].
  destruct data as [| | | | | |items]; try done.
  destruct (slot _ _ _) as [child put] eqn:Hs.
  destruct rest as [|k' rest].
  - intros [= _ <-]. by erewrite slot_lookup by (done || apply surjective_pairing).
  - destruct (_set (k' :: rest) val _) as [r0 c'] eqn:Hr. intros [= -> <-].
    erewrite slot_lookup by (done || apply surjective_pairing). by eapply IH.
Qed.

(** A store elsewhere changes nothing a diverging path sees, whether the
    store succeeds or raises. *)
Lemma lookup_set_diverge p q val data :
  diverge p q = true → lookup q (_set p val data).2 = lookup q data.
Proof.
  revert q data. induction p as [|k p IH]; intros q data; [done|].
  destruct q as [|k' q]; [done|]. intros Hd. rewrite set_cons. destruct (bad_index _); [done|].
  destruct data as [| | | | | |items]; try done.
  destruct (slot _ _ _) as [child put] eqn:Hs. simpl in Hd.
  destruct (decide ((key_index k).1 = (key_index k').1)) as [Hn|Hn].
  2:{ destruct p; [|destruct (_set _ _ _)]; cbn [snd]; by erewrite slot_other by (done || congruence). }
  apply andb_prop in Hd as [Hi%bool_decide_eq_true Hd].
  destruct p as [|k1 p]; [done|]. destruct q as [|k2 q]; [done|].
  specialize (IH (k2 :: q) (descend child) Hd).
  destruct (_set (k1 :: p) val _) as [r0 c'] eqn:Hr. cbn [snd] in *.
  assert (Hk : lookup (k' :: k2 :: q) (put c') = lookup (k :: k2 :: q) (put c') ∧
               lookup (k' :: k2 :: q) (VDict items) = lookup (k :: k2 :: q) (VDict items)).
  { destruct (slot_put_dict _ _ _ _ _ Hs c') as [items' ->].
    cbn [lookup]. destruct (key_index k) as [n i], (key_index k') as [n' i']. cbn in *. subst.
    destruct i as [[? ?]|], i' as [[? ?]|]; simplify_eq/=; done. }
  destruct Hk as [-> ->].
  erewrite slot_lookup by (done || apply surjective_pairing).
  rewrite IH. by eapply slot_old; [done|apply surjective_pairing|].
Qed.

(** A store at an independent place keeps what is found. *)
Lemma lookup_set_indep p q val data x :
  indep p q = true → lookup q data = Some x → lookup q (_set p val data).2 = Some x.
Proof.
  revert q data. induction p as [|k p IH]; intros q data; [done|].
  destruct q as [|k' q]; [done|]. intros Hd Hx. rewrite set_cons. destruct (bad_index _); [done|].
  destruct data as [| | | | | |items]; try done.
  destruct (slot _ _ _) as [child put] eqn:Hs. cbn [indep] in Hd.
  case_decide as Hn.
  2:{ destruct p; [|destruct (_set _ _ _)]; cbn [snd]; by erewrite slot_other by (done || congruence). }
  destruct (key_index k) as [n i] eqn:Hk, (key_index k') as [n' i'] eqn:Hk'. cbn in Hn, Hd, Hs. subst n'.
  assert (Hstep : i = i' → indep p q = true →
     lookup (k' :: q) (match p with [] => (Ok tt, put val)
         | _ :: _ => let '(r, c') := _set p val (descend child) in (r, put c') end).2 = Some x).
  { intros -> Hi. destruct p as [|k1 p]; [done|]. destruct q as [|k2 q]; [done|].
    specialize (IH (k2 :: q) (descend child) Hi).
    erewrite slot_old in IH by done. specialize (IH Hx).
    destruct (_set (k1 :: p) val _) as [r0 c'] eqn:Hr. cbn [snd] in *.
    by erewrite slot_lookup by done. }
  destruct i as [[i t]|], i' as [[j t']|]; try done; [|by apply Hstep].
  case_decide as Hij.
  - subst j. assert (Hcong : ∀ items q, lookup (k' :: q) (VDict items) = lookup (k :: q) (VDict items)).
    { intros. cbn [lookup]. by rewrite Hk, Hk'. }
    destruct p as [|k1 p]; [done|]. destruct q as [|k2 q]; [done|].
    rewrite Hcong in Hx. specialize (IH (k2 :: q) (descend child) Hd).
    erewrite slot_old in IH by done. specialize (IH Hx).
    destruct (_set (k1 :: p) val _) as [r0 c'] eqn:Hr. cbn [snd] in *.
    destruct (slot_put_dict _ _ _ _ _ Hs c') as [items' Hp]. rewrite Hp, Hcong, <- Hp.
    by erewrite slot_lookup by done.
  - destruct p; [|destruct (_set _ _ _)]; cbn [snd]; by eapply slot_indep.
Qed.

Lemma wf_set p val data : wf val → wf data → wf (_set p val data).2.
Proof.
  revert data. induction p as [|k p IH]; intros data Hv Hd; [done|].
  rewrite set_cons. destruct (bad_index _); [done|].
  destruct data as [| | | | | |items]; try done.
  destruct (slot _ _ _) as [child put] eqn:Hs.
  destruct (slot_wf _ _ _ _ _ Hs Hd) as [Hc Hp].
  destruct p; [by apply Hp|]. specialize (IH (descend child) Hv Hc).
  destruct (_set _ _ _). by apply Hp.
Qed.

(** ** [get] *)

(** [get] returns what the reference lookup finds; it raises, for an accepted
    key, only [KeyError] or [TypeError], and only where nothing is found. *)
Lemma get_lookup path data :
  path ≠ [] → is_dict data = true → forallb accepted path = true →
  match _get path data with
  | Ok v => v = default VNull (lookup path data)
  | Err KeyError | Err TypeError => lookup path data = None
  | Err _ => False
  end.
Proof.
  revert data. induction path as [|k rest IH]; intros data Hp Hd Ha; [done|].
  destruct data as [| | | | | |items]; try done. simpl in Ha.
  apply andb_prop in Ha as [Hk Ha]. unfold accepted in Hk.
  cbn [_get lookup]. destruct (key_index k) as [name idx]. cbn [fst snd] in *.
  apply andb_prop in Hk as [Hb%negb_true_iff Ht]. rewrite Hb.
  assert (Hrec : ∀ d, rest ≠ [] → match _get rest (VDict d) with
     | Ok v => v = default VNull (lookup rest (VDict d))
     | Err KeyError | Err TypeError => lookup rest (VDict d) = None
     | Err _ => False end) by (intros; by apply IH).
  destruct idx as [[i t]|].
  - apply bool_decide_eq_true in Ht as ->. rewrite decide_False by tauto.
    destruct rest as [|k' rest].
    + destruct (dget name items) as [x|]; [|done].
      destruct x as [| | | |s|l|d]; try done; simpl.
      * by case_decide.
      * case_decide; simpl; [by rewrite lookup_ge_None_2|].
        destruct (l !! i) eqn:Hl; [done|]. apply lookup_ge_None in Hl. lia.
      * by case_decide.
    + destruct (dget name items) as [[| | | | |l|]|]; try done.
      cbn [mbind option_bind]. destruct (l !! i) as [x|]; [|done].
      cbn. destruct x; try done. by apply Hrec.
  - destruct rest as [|k' rest].
    + destruct (dget name items) as [[]|]; done.
    + destruct (dget name items) as [x|]; [|done]. destruct x; try done. by apply Hrec.
Qed.

Lemma get_found path data v :
  path ≠ [] → forallb accepted path = true → lookup path data = Some v → _get path data = Ok v.
Proof.
  intros Hp Ha Hl. assert (Hd : is_dict data = true) by (by destruct path, data).
  pose proof (get_lookup path data Hp Hd Ha) as H. rewrite Hl in H.
  destruct (_get path data) as [x|[]]; by simplify_eq/=.
Qed.

(** [get(key, recurse=False)] reads the same tree; below a scalar it raises
    [AttributeError] where the other returns [None]. *)
Lemma shallow_get_lookup path data :
  is_dict data = true → forallb accepted path = true →
  match _shallow_get path data with
  | Ok v => v = default VNull (lookup path data)
  | Err AttributeError => lookup path data = None
  | Err _ => False
  end.
Proof.
  intros _. revert data. induction path as [|k rest IH]; intros data Ha; [done|].
  simpl in Ha. apply andb_prop in Ha as [Hk Ha]. unfold accepted in Hk.
  cbn [_shallow_get lookup]. destruct (key_index k) as [name idx]. cbn [fst snd] in *.
  apply andb_prop in Hk as [Hb%negb_true_iff Ht]. rewrite Hb.
  assert (Hif : (match idx with Some _ => false | None => false end) = false) by by destruct idx.
  rewrite Hif. destruct data as [| | | | | |items]; try done.
  destruct (dget name items) as [x|]; [|done]. destruct idx as [[i t]|].
  - destruct x; try done. cbn. destruct (l !! i) as [y|]; [|done]. cbn.
    destruct rest; [done|]. by apply IH.
  - destruct rest; [done|]. by apply IH.
Qed.

(** ** [delete] *)

(** An unsuccessful [delete] leaves the data as it was. *)
Lemma delete_unchanged path force data r data' :
  _delete path force data = (r, data') → r ≠ Ok true → data' = data.
Proof.
  revert data r data'. induction path as [|k rest IH]; intros data r data'.
  { simpl. congruence. }
  cbn [_delete]. destruct (key_index k) as [name idx].
  destruct data as [| | | | | |items]; try congruence.
  destruct (dget name items) as [x|] eqn:Hx; [|congruence].
  assert (Hrec : ∀ c r c', rest ≠ [] → _delete rest force c = (r, c') → r ≠ Ok true → c' = c)
    by (intros; by eapply IH).
  destruct idx as [[i t]|].
  - destruct x; try congruence. destruct (l !! i) as [y|] eqn:Hy; [|congruence].
    destruct rest as [|k' rest]; [congruence|].
    destruct (_delete _ _ y) as [r0 y'] eqn:Hdel. intros [= <- <-] Hr.
    apply Hrec in Hdel as ->; [|done..].
    by rewrite list_insert_id, dset_id by done.
  - destruct rest as [|k' rest].
    + destruct (negb (is_container x) || force || negb (truthy x)); congruence.
    + destruct (_delete _ _ x) as [r0 x'] eqn:Hdel. intros [= <- <-] Hr.
      apply Hrec in Hdel as ->; [|done..]. by rewrite dset_id.
Qed.

(** A successful [delete] found its key; afterwards it is gone, or it was an
    inner element of a list, which is now the empty string. *)
(** What [_delete] leaves under the key: nothing, or the empty string where an
    element that is not the last of its list was. *)
Definition left_behind (path : list string) (data : value) : option value :=
  match element_of path data with
  | Some (l, i) => if decide (S i < length l) then Some (VStr "") else None
  | None => None
  end.

Lemma delete_true path force data data' :
  wf data → _delete path force data = (Ok true, data') →
  is_Some (lookup path data) ∧ lookup path data' = left_behind path data.
Proof.
  unfold left_behind.
  revert data data'. induction path as [|k rest IH]; intros data data' Hwf; [done|].
  cbn [_delete lookup element_of]. destruct (key_index k) as [name idx] eqn:Hk. cbn [fst snd].
  destruct data as [| | | | | |items]; try done.
  destruct (dget name items) as [x|] eqn:Hx; [|done]. cbn [mbind option_bind].
  pose proof (wf_dget _ _ _ Hwf Hx) as Hwx.
  assert (Hnd : NoDup (dkeys items)) by (by inv Hwf).
  destruct idx as [[i t]|].
  - destruct x as [| | | | |l|]; try done. destruct (l !! i) as [y|] eqn:Hy; [|done].
    assert (Hi : i < length l) by (by apply lookup_lt_is_Some_1).
    destruct rest as [|k' rest].
    + intros [= <-]. split; [simpl; eauto|]. cbn [mbind option_bind].
      rewrite dget_dset_eq. cbn [mbind option_bind]. case_decide.
      * rewrite lookup_take_ge, decide_False by lia. done.
      * rewrite list_lookup_insert_eq, decide_True by lia. done.
    + destruct (_delete _ _ y) as [r0 y'] eqn:Hdel. intros [= -> <-].
      apply IH in Hdel as [Hs Hr]; [|by eapply wf_lookup].
      split; [done|]. rewrite dget_dset_eq. cbn [mbind option_bind].
      by rewrite list_lookup_insert_eq.
  - destruct rest as [|k' rest].
    + case_match; [|done]. intros [= <-]. split; [simpl; eauto|].
      by rewrite dget_ddel_eq.
    + destruct (_delete _ _ x) as [r0 x'] eqn:Hdel. intros [= -> <-].
      apply IH in Hdel as [Hs Hr]; [|done]. split; [done|]. by rewrite dget_dset_eq.
Qed.

(** [False] means that there was nothing to delete. *)
Lemma delete_false path force data data' :
  path ≠ [] → _delete path force data = (Ok false, data') → lookup path data = None.
Proof.
  revert data data'. induction path as [|k rest IH]; intros data data' Hp; [done|].
  cbn [_delete lookup]. destruct (key_index k) as [name idx]. cbn [fst snd].
  destruct data as [| | | | | |items]; try done.
  destruct (dget name items) as [x|]; [|done]. cbn [mbind option_bind].
  destruct idx as [[i t]|].
  - destruct x; try done. destruct (l !! i) as [y|]; [|done]. cbn [mbind option_bind].
    destruct rest; [done|]. destruct (_delete _ _ y) as [r0 y'] eqn:Hdel.
    intros [= -> <-]. by eapply IH.
  - destruct rest; [by case_match|]. destruct (_delete _ _ x) as [r0 x'] eqn:Hdel.
    intros [= -> <-]. by eapply IH.
Qed.

(** A deletion elsewhere changes nothing a diverging path sees. *)
Lemma lookup_delete_diverge p q force data :
  diverge p q = true → lookup q (_delete p force data).2 = lookup q data.
Proof.
  revert q data. induction p as [|k p IH]; intros q data; [done|].
  destruct q as [|k' q]; [done|]. cbn [diverge _delete].
  destruct (key_index k) as [name idx] eqn:Hk, (key_index k') as [name' idx'] eqn:Hk'.
  cbn [fst snd]. intros Hd. destruct data as [| | | | | |items]; try done.
  destruct (dget name items) as [x|] eqn:Hx; [|done].
  case_decide as Hn.
  2:{ destruct idx as [[i t]|]; [destruct x; try done; destruct (l !! i); [|done]|];
      destruct p; try destruct (_delete _ _ _); try case_match; cbn [snd lookup]; try done;
      rewrite Hk'; cbn [fst]; rewrite ?dget_dset_ne, ?dget_ddel_ne by done; done. }
  subst name'. apply andb_prop in Hd as [Hi%bool_decide_eq_true Hd].
  destruct p as [|k1 p]; [done|]. destruct idx as [[i t]|], idx' as [[i' t']|]; cbn in Hi; simplify_eq.
  - destruct x as [| | | | |l|]; try done. destruct (l !! i') as [y|] eqn:Hy; [|done].
    pose proof (IH q y Hd) as IHy. destruct (_delete (k1 :: p) force y) as [r0 y'].
    cbn [snd lookup] in *. rewrite Hk'. cbn [fst snd]. rewrite dget_dset_eq, Hx. cbn [mbind option_bind].
    rewrite list_lookup_insert_eq, Hy by (by apply lookup_lt_is_Some_1). done.
  - pose proof (IH q x Hd) as IHx. destruct (_delete (k1 :: p) force x) as [r0 x'].
    cbn [snd lookup] in *. rewrite Hk'. cbn [fst snd]. by rewrite dget_dset_eq, Hx.
Qed.

Lemma wf_delete p force data : wf data → wf (_delete p force data).2.
Proof.
  revert data. induction p as [|k p IH]; intros data Hwf; [done|].
  cbn [_delete]. destruct (key_index k) as [name idx].
  destruct data as [| | | | | |items]; try done.
  destruct (dget name items) as [x|] eqn:Hx; [|done].
  pose proof (wf_dget _ _ _ Hwf Hx) as Hwx.
  destruct idx as [[i t]|].
  - destruct x as [| | | | |l|]; try done. destruct (l !! i) as [y|] eqn:Hy; [|done].
    destruct p.
    + simpl. apply wf_dset; [done|]. case_decide; [|by apply wf_insert; [|constructor]].
      constructor. inv Hwx. by apply Forall_take.
    + specialize (IH y (wf_lookup _ _ _ Hwx Hy)). destruct (_delete _ _ y). simpl in *.
      by apply wf_dset, wf_insert.
  - destruct p; [case_match; [by apply wf_ddel|done]|].
    specialize (IH x Hwx). destruct (_delete _ _ x). by apply wf_dset.
Qed.

(** ** Properties of all scalars *)

Section scalars.
Context (P : value → bool) (HP : P (VStr "") = true).
Notation ok := (all_scalars P).

Lemma scalars_dget name items x :
  ok (VDict items) = true → dget name items = Some x → ok x = true.
Proof.
  simpl. intros Hs Hx%dget_Some_elem. rewrite forallb_forall in Hs.
  by apply (Hs (name, x)), list_elem_of_In.
Qed.

Lemma scalars_dset name c items :
  ok c = true → ok (VDict items) = true → ok (VDict (dset name c items)) = true.
Proof.
  intros Hc. simpl. induction items as [|[k v] its IH]; simpl; [by rewrite Hc|].
  intros [Hv Hr]%andb_prop. case_decide; simpl; [by rewrite Hc, Hr|]. by rewrite Hv, IH.
Qed.

Lemma scalars_ddel name items : ok (VDict items) = true → ok (VDict (ddel name items)) = true.
Proof.
  simpl. induction items as [|[k v] its IH]; simpl; [done|].
  intros [Hv Hr]%andb_prop. case_decide; simpl; [done|]. by rewrite Hv, IH.
Qed.

Lemma scalars_elem l x : ok (VList l) = true → x ∈ l → ok x = true.
Proof. simpl. rewrite forallb_forall. intros Hl Hx. by apply Hl, list_elem_of_In. Qed.

Lemma scalars_insert i c l : ok c = true → ok (VList l) = true → ok (VList (<[i := c]> l)) = true.
Proof.
  intros Hc Hl. simpl. rewrite forallb_forall. intros y Hy%list_elem_of_In.
  apply list_elem_of_lookup in Hy as [j Hj].
  apply list_lookup_insert_Some in Hj as [(_ & -> & _)|[_ Hj]]; [done|].
  eapply scalars_elem; [done|]. by eapply list_elem_of_lookup_2.
Qed.

Lemma scalars_extend l i : ok (VList l) = true → ok (VList (extend l i)) = true.
Proof.
  intros Hl. unfold extend. simpl in *. rewrite forallb_app, Hl. simpl.
  rewrite forallb_forall. intros y Hy%list_elem_of_In%elem_of_replicate_inv. by subst.
Qed.

Lemma slot_scalars name idx items child put :
  slot name idx items = (child, put) → ok (VDict items) = true →
  ok (descend child) = true ∧ ok child = true ∧ ∀ c, ok c = true → ok (put c) = true.
Proof.
  intros Hslot Hi. assert (Ht : ok (VDict (touch name items)) = true).
  { unfold touch. destruct (dget name items); [done|]. by apply scalars_dset. }
  assert (Hx : ok (default (VDict []) (dget name items)) = true).
  { destruct (dget name items) as [x|] eqn:Hx; [|done]. by apply (scalars_dget name items). }
  assert (Hdes : ∀ c, ok c = true → ok (descend c) = true) by (intros []; done).
  revert Hslot. unfold slot. destruct idx as [[i t]|]; intros [= <- <-]; rewrite dget_touch.
  - set (l := extend _ i). assert (Hl : ok (VList l) = true).
    { apply scalars_extend. simpl. destruct (dget name items) as [[]|]; done. }
    destruct (extend_is_Some (as_list (Some (default (VDict []) (dget name items)))) i) as [c Hc].
    fold l in Hc. rewrite Hc. simpl default.
    assert (ok c = true) by (eapply scalars_elem; [exact Hl|by eapply list_elem_of_lookup_2]).
    repeat split; [by apply Hdes|done|]. intros c0 Hc0. apply scalars_dset; [by apply scalars_insert|done].
  - simpl default. repeat split; [by apply Hdes|done|]. intros c Hc. by apply scalars_dset.
Qed.

Lemma set_scalars path val data :
  ok val = true → ok data = true → ok (_set path val data).2 = true.
Proof.
  revert data. induction path as [|k p IH]; intros data Hv Hd; [done|].
  rewrite set_cons. destruct (bad_index _); [done|].
  destruct data as [| | | | | |items]; try done.
  destruct (slot _ _ _) as [child put] eqn:Hs.
  destruct (slot_scalars _ _ _ _ _ Hs Hd) as (Hc & _ & Hp).
  destruct p; [by apply Hp|]. specialize (IH (descend child) Hv Hc).
  destruct (_set _ _ _). by apply Hp.
Qed.

Lemma delete_scalars path force data : ok data = true → ok (_delete path force data).2 = true.
Proof.
  revert data. induction path as [|k p IH]; intros data Hd; [done|].
  cbn [_delete]. destruct (key_index k) as [name idx].
  destruct data as [| | | | | |items]; try done.
  destruct (dget name items) as [x|] eqn:Hx; [|done].
  pose proof (scalars_dget _ _ _ Hd Hx) as Hxo.
  destruct idx as [[i t]|].
  - destruct x as [| | | | |l|]; try done. destruct (l !! i) as [y|] eqn:Hy; [|done].
    assert (ok y = true) by (eapply scalars_elem; [exact Hxo|by eapply list_elem_of_lookup_2]).
    destruct p.
    + apply scalars_dset; [|done]. case_decide; [|by apply scalars_insert].
      simpl. rewrite forallb_forall. intros z Hz%list_elem_of_In.
      eapply scalars_elem; [exact Hxo|]. eapply elem_of_sublist; [exact Hz|apply sublist_take].
    + specialize (IH y ltac:(done)). destruct (_delete _ _ y). simpl in IH.
      by apply scalars_dset; [apply scalars_insert|].
  - destruct p; [case_match; [by apply scalars_ddel|done]|].
    specialize (IH x Hxo). destruct (_delete _ _ x). by apply scalars_dset.
Qed.
End scalars.

(** ** [set] on documents of strings *)

Lemma slot_string name idx items child put :
  slot name idx items = (child, put) → string_data (VDict items) = true →
  string_data (descend child) = true ∧ is_dict (descend child) = true ∧
  ∀ c, string_data c = true → string_data (put c) = true.
Proof.
  intros Hslot Hi. destruct (slot_scalars _ eq_refl _ _ _ _ _ Hslot Hi) as (Hd & Hc & Hp).
  repeat split; [done| |done]. by destruct child.
Qed.

(** On a document of strings a store with no bad index always succeeds, and
    storing a string keeps the document one. *)
Lemma set_total path val data :
  path ≠ [] → forallb (λ k, negb (bad_index (key_index k))) path = true →
  is_dict data = true → string_data data = true →
  ∃ data', _set path val data = (Ok tt, data') ∧
           (string_data val = true → string_data data' = true).
Proof.
  revert data. induction path as [|k rest IH]; intros data Hp Hb Hd Hs; [done|].
  simpl in Hb. apply andb_prop in Hb as [Hk%negb_true_iff Hb].
  destruct data as [| | | | | |items]; try done. rewrite set_cons, Hk.
  destruct (slot _ _ _) as [child put] eqn:Hslot.
  destruct (slot_string _ _ _ _ _ Hslot Hs) as (Hcs & Hcd & Hput).
  destruct rest as [|k' rest]; [eauto|].
  destruct (IH (descend child)) as (data' & -> & Hd'); [done..|].
  eauto.
Qed.

Lemma accepted_not_bad k : accepted k = true → bad_index (key_index k) = false.
Proof.
  unfold accepted, bad_index. intros [Hb%negb_true_iff _]%andb_prop. rewrite Hb.
  by destruct (key_index k).2.
Qed.

(** ** Paths without indices *)

Definition plain (k : string) : bool := match (key_index k).2 with None => true | Some _ => false end.

(** On a path of names [_get] is the reference lookup. *)
Lemma get_plain path data :
  path ≠ [] → forallb plain path = true → forallb accepted path = true → is_dict data = true →
  _get path data = Ok (default VNull (lookup path data)).
Proof.
  revert data. induction path as [|k path IH]; intros data Hne; [done|].
  cbn [forallb]. rewrite !andb_true_iff. intros [Hk Hp] [Ha Hap] Hd. unfold plain, accepted in Hk, Ha.
  cbn [_get lookup]. destruct (key_index k) as [name [?|]]; [done|]. cbn [fst snd] in *.
  apply andb_prop in Ha as [->%negb_true_iff _].
  destruct data as [| | | | | |items]; try done. destruct path as [|k' path].
  - by destruct (dget name items).
  - destruct (dget name items) as [x|]; [|done]. cbn [mbind option_bind].
    destruct x; try done. by apply IH.
Qed.

Lemma delete_leaf path force data x :
  path ≠ [] → forallb plain path = true → lookup path data = Some x → is_container x = false →
  (_delete path force data).1 = Ok true.
Proof.
  revert data. induction path as [|k path IH]; intros data Hne; [done|].
  cbn [forallb]. rewrite !andb_true_iff. intros [Hk Hp]. unfold plain in Hk.
  cbn [_delete lookup]. destruct (key_index k) as [name [?|]]; [done|]. cbn [fst snd] in *.
  destruct data as [| | | | | |items]; try done. destruct (dget name items) as [y|]; [|done].
  cbn [mbind option_bind]. intros Hl Hx. destruct path as [|k' path].
  - injection Hl as ->. by rewrite Hx.
  - specialize (IH y ltac:(done) Hp Hl Hx). by destruct (_delete (k' :: path) force y).
Qed.

(** What is there can be overwritten. *)
Lemma set_present path val data x :
  path ≠ [] → forallb (λ k, negb (bad_index (key_index k))) path = true →
  lookup path data = Some x → (_set path val data).1 = Ok tt.
Proof.
  revert data. induction path as [|k path IH]; intros data Hne; [done|].
  cbn [forallb]. rewrite andb_true_iff. intros [Hb%negb_true_iff Hp] Hl.
  rewrite set_cons, Hb. destruct data as [| | | | | |items]; try done.
  destruct (slot _ _ _) as [child put] eqn:Hs. destruct path as [|k' path]; [done|].
  assert (Hl' : lookup (k' :: path) (descend child) = Some x).
  { rewrite <- Hl. by eapply slot_old; [exact Hs|destruct (key_index k)|]. }
  specialize (IH (descend child) ltac:(done) Hp Hl'). by destruct (_set (k' :: path) val (descend child)).
Qed.

(** ** Where nothing is in the way *)

(** A value in the way of a store below it: a number, a boolean or [None]. *)
Definition blocks (x : value) : bool := negb (is_dict x || is_str_or_list x).

(** No such value lies above the end of the path. *)
Definition open_at (path : list string) (data : value) : Prop :=
  ∀ pre post x, path = pre ++ post → pre ≠ [] → post ≠ [] → lookup pre data = Some x → blocks x = false.

Lemma string_open path data : string_data data = true → open_at path data.
Proof.
  intros Hs pre post x -> Hpre _ Hx. clear Hpre. revert data Hs Hx.
  induction pre as [|k pre IH]; intros data Hs; simpl; [by intros [= <-]; destruct data|].
  destruct data as [| | | | | |items]; try done.
  destruct (dget _ items) as [y|] eqn:Hy; [|done]. cbn [mbind option_bind].
  apply dget_Some_elem in Hy. unfold string_data in Hs. simpl in Hs. rewrite forallb_forall in Hs.
  apply list_elem_of_In, Hs in Hy. destruct (key_index k).2 as [[i t]|]; [|by apply IH].
  destruct y as [| | | | |l|]; try done. destruct (l !! i) as [z|] eqn:Hz; [|done]. cbn [mbind option_bind].
  apply IH. simpl in Hy. rewrite forallb_forall in Hy. by apply Hy, list_elem_of_In, (list_elem_of_lookup_2 _ i).
Qed.

Lemma element_of_plain path data : forallb plain path = true → element_of path data = None.
Proof.
  revert data. induction path as [|k rest IH]; intros data; [done|]. cbn [forallb element_of].
  unfold plain at 1. intros [Hk Hr]%andb_prop. destruct data as [| | | | | |items]; try done.
  destruct (dget _ items) as [x|]; [|done]. cbn [mbind option_bind].
  destruct (key_index k).2; [done|]. destruct rest; [done|]. by apply IH.
Qed.

Section slot_blocks.
Context (name : string) (idx : option (nat * string)) (items : list (string * value)).
Context (child : value) (put : value → value).
Hypothesis Hslot : slot name idx items = (child, put).

(** The place written to holds what was found there, or is new. *)
Lemma slot_child k :
  key_index k = (name, idx) →
  lookup [k] (VDict items) = Some child ∨ child = VDict [] ∨ child = VStr "".
Proof.
  revert Hslot. unfold slot. intros Hs Hk. simpl. rewrite Hk. simpl.
  destruct idx as [[i t]|]; simplify_eq/=; rewrite dget_touch.
  - destruct (extend_is_Some (as_list (Some (default (VDict []) (dget name items)))) i) as [c Hc].
    rewrite Hc. simpl. destruct (dget name items) as [x|]; simpl in *.
    2:{ apply extend_new in Hc as ->; [by right; right|done]. }
    destruct x as [| | | | |l|]; try (apply extend_new in Hc as ->; [by right; right|done]).
    simpl in *. destruct (l !! i) as [y|] eqn:Hy; simpl.
    + rewrite (extend_old _ _ _ _ Hy) in Hc. simplify_eq. by left.
    + apply extend_new in Hc as ->; [by right; right|done].
  - destruct (dget name items) as [x|]; simpl; [by left|by right; left].
Qed.

(** At another index of the list nothing but the padding is new. *)
Lemma slot_indep_inv k i t j t' q x c :
  idx = Some (i, t) → key_index k = (name, Some (j, t')) → i ≠ j → blocks x = true →
  lookup (k :: q) (put c) = Some x → lookup (k :: q) (VDict items) = Some x.
Proof.
  revert Hslot. unfold slot. intros Hs -> Hk Hij Hb. simplify_eq. simpl. rewrite Hk. simpl.
  rewrite dget_dset_eq. simpl. rewrite list_lookup_insert_ne, dget_touch by done.
  assert (Hpad : ∀ l y, l !! j = None → extend l i !! j = Some y → lookup q y = Some x → False).
  { intros l y Hl Hy%extend_new; [|done]. subst y. destruct q; simpl; [|done]. by intros [= <-]. }
  destruct (dget name items) as [[| | | | |l|]|]; simpl;
    try (destruct (extend [] i !! j) as [y|] eqn:Hy; simpl; [|done]; intros Hx; by destruct (Hpad [] y)).
  destruct (l !! j) as [y|] eqn:Hy; simpl; [by rewrite (extend_old _ _ _ _ Hy)|].
  destruct (extend l i !! j) as [y|] eqn:Hy'; simpl; [|done]. intros Hx. by destruct (Hpad l y).
Qed.
End slot_blocks.

Lemma descend_dict c : blocks c = false → is_dict (descend c) = true.
Proof. by destruct c. Qed.

(** The child of an open path is a dictionary and open in turn. *)
Lemma open_child k k' rest items child put :
  slot (key_index k).1 (key_index k).2 items = (child, put) → open_at (k :: k' :: rest) (VDict items) →
  is_dict (descend child) = true ∧ open_at (k' :: rest) (descend child).
Proof.
  intros Hs Ho. assert (Hki : key_index k = ((key_index k).1, (key_index k).2)) by by destruct (key_index k).
  split.
  - apply descend_dict. destruct (slot_child _ _ _ _ _ Hs k Hki) as [Hl|[-> | ->]]; [|done..].
    by apply (Ho [k] (k' :: rest)).
  - intros pre post x Heq Hpre Hpost Hx. rewrite (slot_old _ _ _ _ _ Hs k) in Hx by done.
    apply (Ho (k :: pre) post); [simpl; by rewrite Heq|done..].
Qed.

(** A store with no bad index succeeds where nothing is in the way. *)
Lemma set_open path val data :
  path ≠ [] → forallb (λ k, negb (bad_index (key_index k))) path = true →
  is_dict data = true → open_at path data → (_set path val data).1 = Ok tt.
Proof.
  revert data. induction path as [|k rest IH]; intros data Hp Hb Hd Ho; [done|].
  cbn [forallb] in Hb. apply andb_prop in Hb as [Hk%negb_true_iff Hb].
  destruct data as [| | | | | |items]; try done. rewrite set_cons, Hk.
  destruct (slot _ _ _) as [child put] eqn:Hs. destruct rest as [|k' rest]; [done|].
  destruct (open_child k k' rest items child put Hs Ho) as [Hcd Hco].
  specialize (IH (descend child) ltac:(done) Hb Hcd Hco). by destruct (_set (k' :: rest) val _).
Qed.

(** A store puts nothing in the way of an independent path. *)
Lemma set_no_block p q post val data x :
  open_at p data → is_dict data = true → q ≠ [] → indep p (q ++ post) = true → blocks x = true →
  lookup q (_set p val data).2 = Some x → lookup q data = Some x.
Proof.
  intros Ho Hd Hq Hi Hb. revert q data Ho Hd Hq Hi. induction p as [|k p IH]; intros q data Ho Hd Hq; [done|].
  destruct q as [|k' q]; [done|]. rewrite set_cons. cbn [indep app].
  destruct (bad_index _); [done|]. destruct data as [| | | | | |items]; try done.
  destruct (slot _ _ _) as [child put] eqn:Hs.
  destruct (decide ((key_index k).1 = (key_index k').1)) as [Hn|Hn].
  2:{ intros _. destruct p; [|destruct (_set _ _ _)]; cbn [snd]; by erewrite slot_other by (done || congruence). }
  destruct (key_index k) as [n i] eqn:Hk, (key_index k') as [n' i'] eqn:Hk'. cbn in Hn, Hs. subst n'.
  assert (Hstep : (∀ c, lookup [k'] c = lookup [k] c) → (∀ q c, lookup (k' :: q) c = lookup (k :: q) c) →
     indep p (q ++ post) = true →
     lookup (k' :: q) (match p with [] => (Ok tt, put val)
         | _ :: _ => let '(r, c') := _set p val (descend child) in (r, put c') end).2 = Some x →
     lookup (k' :: q) (VDict items) = Some x).
  { intros _ Hkk Hi. destruct p as [|k1 p]; [done|].
    assert (Hs' : slot (key_index k).1 (key_index k).2 items = (child, put)) by by rewrite Hk.
    destruct (open_child k k1 p items child put Hs' Ho) as [Hcd Hco].
    pose proof (IH q (descend child) Hco Hcd) as IH'.
    assert (Hdict : is_dict (_set (k1 :: p) val (descend child)).2 = true).
    { destruct (descend child); try done. apply set_keeps_dict. }
    destruct (_set (k1 :: p) val _) as [r0 c'] eqn:Hr. cbn [snd] in *.
    rewrite !Hkk, (slot_lookup _ _ _ _ _ Hs k) by done. destruct q as [|k2 q].
    - simpl. intros [= ->]. by destruct x.
    - intros Hx. specialize (IH' ltac:(done) Hi Hx). by rewrite (slot_old _ _ _ _ _ Hs k) in IH' by done. }
  cbn [fst snd]. destruct (decide (n = n)) as [_|]; [|done].
  destruct i as [[i t]|], i' as [[j t']|]; try done.
  - destruct (decide (i = j)) as [<-|Hij].
    + apply Hstep; intros; destruct c; cbn [lookup]; by rewrite ?Hk, ?Hk'.
    + intros _. destruct p; [|destruct (_set _ _ _)]; cbn [snd]; by eapply slot_indep_inv.
  - apply Hstep; intros; destruct c; cbn [lookup]; by rewrite ?Hk, ?Hk'.
Qed.

Lemma open_set p q val data :
  open_at p data → is_dict data = true → indep p q = true →
  open_at q data → open_at q (_set p val data).2.
Proof.
  intros Ho Hd Hi Hq pre post x -> Hpre Hpost Hx. destruct (blocks x) eqn:Hb; [|done].
  rewrite <- Hb. apply (Hq pre post x eq_refl Hpre Hpost).
  by apply (set_no_block p pre post val data x).
Qed.

(** A path on which a string, a number or a boolean lies is open. *)
Lemma open_present path data x : lookup path data = Some x → open_at path data.
Proof.
  intros Hx pre post y -> Hpre Hpost Hy. clear Hpre. revert data Hx Hy.
  induction pre as [|k pre IH]; intros data; cbn [app lookup].
  { intros Hx [= <-]. destruct post; [done|]. by destruct data. }
  destruct data as [| | | | | |items]; try done. destruct (dget _ items) as [z|]; [|done].
  cbn [mbind option_bind]. destruct (key_index k).2 as [[i t]|]; [|apply IH].
  destruct z as [| | | | |l|]; try done. destruct (l !! i); [|done]. apply IH.
Qed.

End PayloadFacts.
