(* ===== verification/KvPayloadKeys.v ===== *)
(** The keys of a [KvPayload]: [get_keys] lists exactly the canonical keys of
    the scalar leaves, distinct listed keys are independent, [search] returns
    keys that match, and [add_num_keys] records list lengths. *)
From Stdlib Require Import Ascii.
From S2P Require Import Prelude PyStr PyVal KvPayload KvPayloadFacts.
Import PyStr Payload PayloadFacts.

Module PayloadKeys.

(** ** Canonical keys *)

(** A key component in normal form. *)
Inductive comp :=
| CName (n : string)
| CIndex (n : string) (i : nat).

Definition comp_str (c : comp) : string :=
  match c with CName n => n | CIndex n i => at_index n i end.
Definition comp_name (c : comp) : string := match c with CName n | CIndex n _ => n end.

Definition key_of (d : ascii) (cs : list comp) : string := join (sep d) (comp_str <$> cs).

(** A delimiter that cannot be confused with an index. *)
Definition good_delim (d : ascii) : bool :=
  negb (is_digit d) && negb (Ascii.eqb d open_br) && negb (Ascii.eqb d close_br).

(** A dictionary key that a hierarchical key can name. *)
Definition clean_name (d : ascii) (n : string) : bool :=
  negb (blank n) && no_char open_br n && no_char d n.

Definition clean_comps (d : ascii) (cs : list comp) : Prop :=
  cs ≠ [] ∧ Forall (λ c, clean_name d (comp_name c) = true) cs.

Definition canonical (d : ascii) (k : string) : Prop :=
  ∃ cs, clean_comps d cs ∧ k = key_of d cs.

Fixpoint clean_data (d : ascii) (v : value) : bool :=
  match v with
  | VList l => forallb (clean_data d) l
  | VDict items => forallb (λ '(k, x), clean_name d k && clean_data d x) items
  | _ => true
  end.

Lemma clean_name_parts d n :
  clean_name d n = true → blank n = false ∧ no_char open_br n = true ∧ no_char d n = true.
Proof. unfold clean_name. rewrite !andb_true_iff, negb_true_iff. tauto. Qed.

Lemma clean_name_nonempty d n : clean_name d n = true → n ≠ "".
Proof. intros Hn ->. done. Qed.

Lemma comp_no_delim d c :
  good_delim d = true → clean_name d (comp_name c) = true → no_char d (comp_str c) = true.
Proof.
  unfold good_delim. rewrite !andb_true_iff, !negb_true_iff, !Ascii.eqb_neq.
  intros [[Hd Ho] Hc] (_ & _ & Hn)%clean_name_parts. destruct c as [n|n i]; [done|].
  simpl in *. unfold at_index. rewrite !no_char_app. repeat split.
  - done.
  - apply no_char_cons. split; [by intros <-|done].
  - by apply dec_no_char.
  - apply no_char_cons. split; [by intros <-|done].
Qed.

Lemma split_key_of d cs :
  good_delim d = true → clean_comps d cs → split d (key_of d cs) = comp_str <$> cs.
Proof.
  intros Hd [Hne Hcs]. apply split_join; [by destruct cs|].
  apply Forall_fmap. eapply Forall_impl; [exact Hcs|]. intros c Hc. by apply comp_no_delim.
Qed.

Lemma comp_key_index d c :
  clean_name d (comp_name c) = true →
  key_index (comp_str c) =
  match c with CName n => (n, None) | CIndex n i => (n, Some (i, "")) end.
Proof.
  intros (_ & Hn & _)%clean_name_parts. destruct c; simpl in *.
  - by apply key_index_name.
  - by apply key_index_at.
Qed.

Lemma comp_accepted d c : clean_name d (comp_name c) = true → accepted (comp_str c) = true.
Proof.
  intros Hc. pose proof (clean_name_parts _ _ Hc) as (Hb & _). unfold accepted.
  rewrite (comp_key_index d c Hc). destruct c; simpl in *; by rewrite Hb.
Qed.

Lemma canonical_accepted d k :
  good_delim d = true → canonical d k → forallb accepted (split d k) = true.
Proof.
  intros Hd (cs & Hcs & ->). rewrite split_key_of by done. destruct Hcs as [_ Hcs].
  induction Hcs as [|c cs Hc Hcs IH]; [done|]. rewrite fmap_cons. cbn [forallb].
  rewrite IH, andb_true_r. by eapply comp_accepted.
Qed.

(** ** Looking up normal components *)

Lemma lookup_name d n cs items :
  clean_name d n = true →
  lookup (comp_str (CName n) :: cs) (VDict items) = (dget n items ≫= lookup cs).
Proof. intros Hn. cbn [lookup]. by rewrite (comp_key_index d (CName n)). Qed.

Lemma lookup_index d n i cs items :
  clean_name d n = true →
  lookup (comp_str (CIndex n i) :: cs) (VDict items) =
  (dget n items ≫= λ x, match x with VList l => l !! i ≫= lookup cs | _ => None end).
Proof. intros Hn. cbn [lookup]. by rewrite (comp_key_index d (CIndex n i)). Qed.

Lemma clean_dget d items n x :
  clean_data d (VDict items) = true → dget n items = Some x →
  clean_name d n = true ∧ clean_data d x = true.
Proof.
  simpl. intros Hc Hx%dget_Some_elem. rewrite forallb_forall in Hc.
  apply andb_prop, (Hc (n, x)), list_elem_of_In, Hx.
Qed.

(** ** [get_keys] *)

(** The scalar leaves below a dictionary, by their canonical keys. *)
Definition leaf_key (d : ascii) (items : list (string * value)) (pkey : option string)
    (k : string) : Prop :=
  ∃ cs x, clean_comps d cs ∧ lookup (comp_str <$> cs) (VDict items) = Some x ∧
    is_str_or_int x = true ∧ k = under (sep d) pkey (key_of d cs).

Lemma under_join d pkey a b cs :
  under (sep d) pkey (join (sep d) (a :: b :: cs)) =
  under (sep d) (Some (under (sep d) pkey a)) (join (sep d) (b :: cs)).
Proof.
  destruct pkey as [p|]; [|done].
  change (p +:+ sep d +:+ a +:+ sep d +:+ join (sep d) (b :: cs) =
          (p +:+ sep d +:+ a) +:+ sep d +:+ join (sep d) (b :: cs)).
  by rewrite !sapp_assoc.
Qed.

Lemma under_at_index delim pkey n i : under delim pkey (at_index n i) = at_index (under delim pkey n) i.
Proof. destruct pkey as [p|]; [|done]. unfold under, at_index. by rewrite !sapp_assoc. Qed.

Lemma under_nonempty d pkey n : n ≠ "" → under (sep d) pkey n ≠ "".
Proof. destruct pkey as [[|c p]|]; done. Qed.

(** What one item of a dictionary contributes. *)
Definition item_keys (d : ascii) (pkey : option string) (kv : string * value) (k : string) : Prop :=
  let newkey := under (sep d) pkey kv.1 in
  match kv.2 with
  | VDict items => leaf_key d items (Some newkey) k
  | VList l => ∃ i x, l !! i = Some x ∧
      match x with
      | VDict items => leaf_key d items (Some (at_index newkey i)) k
      | _ => is_str_or_int x = true ∧ k = at_index newkey i
      end
  | x => is_str_or_int x = true ∧ k = newkey
  end.

Lemma leaf_key_items d items pkey k :
  NoDup (dkeys items) → clean_data d (VDict items) = true →
  leaf_key d items pkey k ↔ ∃ kv, kv ∈ items ∧ item_keys d pkey kv k.
Proof.
  intros Hnd Hcl. split.
  - intros (cs & x & [Hne Hcs] & Hl & Hx & ->). destruct cs as [|c cs]; [done|].
    apply Forall_cons in Hcs as [Hc Hcs]. rewrite fmap_cons in Hl.
    destruct c as [n|n i]; simpl in Hc.
    + rewrite (lookup_name d) in Hl by done.
      destruct (dget n items) as [y|] eqn:Hy; [|done]. simpl in Hl.
      exists (n, y). split; [by apply dget_Some_elem|]. unfold item_keys. simpl.
      destruct cs as [|c' cs]; [simpl in Hl; simplify_eq; by destruct x|].
      destruct y; try done. exists (c' :: cs), x. split; [done|]. repeat split; [done..|].
      unfold key_of. by rewrite !fmap_cons, under_join.
    + rewrite (lookup_index d) in Hl by done.
      destruct (dget n items) as [y|] eqn:Hy; [|done]. simpl in Hl.
      exists (n, y). split; [by apply dget_Some_elem|]. unfold item_keys. simpl.
      destruct y as [| | | | |l|]; try done.
      destruct (l !! i) as [z|] eqn:Hz; [|done]. exists i, z. split; [done|]. simpl in Hl.
      destruct cs as [|c' cs].
      * simpl in Hl. simplify_eq. unfold key_of. simpl. rewrite under_at_index. by destruct x.
      * destruct z; try done. exists (c' :: cs), x. split; [done|]. repeat split; [done..|].
        unfold key_of. rewrite !fmap_cons, under_join. cbn [comp_str]. by rewrite under_at_index.
  - intros ([n y] & Hin & Hk). unfold item_keys in Hk. simpl in Hk.
    apply dget_elem in Hin as Hy; [|done].
    destruct (clean_dget _ _ _ _ Hcl Hy) as [Hn Hcy].
    assert (Hleaf : is_str_or_int y = true ∧ k = under (sep d) pkey n → leaf_key d items pkey k).
    { intros [Hs ->]. exists [CName n], y. split; [split; [done|by repeat constructor]|].
      split; [|done]. rewrite fmap_cons, (lookup_name d), Hy by done. done. }
    destruct y as [| | | | |l|its]; try (by apply Hleaf).
    + destruct Hk as (i & z & Hz & Hk). clear Hleaf.
      assert (Hleaf : is_str_or_int z = true ∧ k = at_index (under (sep d) pkey n) i → leaf_key d items pkey k).
      { intros [Hs ->]. exists [CIndex n i], z. split; [split; [done|by repeat constructor]|].
        split; [rewrite fmap_cons, (lookup_index d), Hy by done; simpl; by rewrite Hz|].
        split; [done|]. unfold key_of. simpl. by rewrite under_at_index. }
      destruct z as [| | | | | |its]; try (by apply Hleaf).
      destruct Hk as (cs & x & [Hne Hcs] & Hl & Hx & ->). exists (CIndex n i :: cs), x.
      split; [split; [done|by constructor]|]. split.
      * rewrite fmap_cons, (lookup_index d), Hy by done. simpl. by rewrite Hz.
      * split; [done|]. destruct cs as [|c cs]; [done|]. unfold key_of.
        rewrite !fmap_cons, under_join. cbn [comp_str]. by rewrite under_at_index.
    + destruct Hk as (cs & x & [Hne Hcs] & Hl & Hx & ->). exists (CName n :: cs), x.
      split; [split; [done|by constructor]|]. split; [by rewrite fmap_cons, (lookup_name d), Hy by done|].
      split; [done|]. destruct cs as [|c cs]; [done|]. unfold key_of.
      by rewrite !fmap_cons, under_join.
Qed.

(** Membership in the accumulated list, for dictionaries and for the lists
    directly below them. *)
Definition keys_spec (d : ascii) (v : value) : Prop :=
  match v with
  | VDict items => ∀ keys pkey k, pkey ≠ Some "" →
      k ∈ _get_keys (sep d) true keys (VDict items) pkey ↔ k ∈ keys ∨ leaf_key d items pkey k
  | VList l => ∀ keys p k, p ≠ "" →
      k ∈ _get_keys (sep d) true keys (VList l) (Some p) ↔
      k ∈ keys ∨ ∃ i x, l !! i = Some x ∧
        match x with
        | VDict items => leaf_key d items (Some (at_index p i)) k
        | _ => is_str_or_int x = true ∧ k = at_index p i
        end
  | _ => True
  end.

Ltac solve_leaf := rewrite ?elem_of_append_new; clear; intuition congruence.

Lemma at_index_nonempty p i : at_index p i ≠ "".
Proof. unfold at_index. by destruct p. Qed.

Lemma get_keys_spec_data d v : wf v → clean_data d v = true → keys_spec d v.
Proof.
  induction v as [| | | | |l IH|items IH] using value_nested_ind; intros Hwf Hcl; try done.
  - intros keys p k Hp. cbn [_get_keys].
    apply (elem_of_foldl_i (λ i keys x,
      if is_dict x then _get_keys (sep d) true keys x (if decide (p = "") then None else Some (at_index p i))
      else if is_str_or_int x then append_new keys (at_index (fmt (Some p)) i) else keys)
      (λ i x k, match x with
        | VDict items => leaf_key d items (Some (at_index p i)) k
        | _ => is_str_or_int x = true ∧ k = at_index p i
        end)).
    intros j x keys' k' Hj. simpl in *. rewrite decide_False by done.
    rewrite Forall_lookup in IH. specialize (IH _ _ Hj).
    rewrite forallb_forall in Hcl.
    assert (Hx : keys_spec d x).
    { apply IH; [by eapply (wf_lookup _ _ _ Hwf)|]. apply Hcl, list_elem_of_In.
      by eapply list_elem_of_lookup_2. }
    destruct x as [| | | | | |items]; cbn [is_dict is_str_or_int fmt default from_option id];
      try solve_leaf.
    apply Hx. intros [= ?]. by eapply at_index_nonempty.
  - intros keys pkey k Hp. cbn [_get_keys].
    assert (Hnd : NoDup (dkeys items)) by (by inv Hwf).
    rewrite leaf_key_items by done. apply elem_of_foldl.
    intros [n x] keys' k' Hin. rewrite Forall_forall in IH.
    apply dget_elem in Hin as Hx; [|done].
    destruct (clean_dget _ _ _ _ Hcl Hx) as [Hn Hcx].
    specialize (IH _ Hin (wf_dget _ _ _ Hwf Hx) Hcx). simpl in IH.
    pose proof (under_nonempty d pkey n (clean_name_nonempty _ _ Hn)) as Hne.
    unfold item_keys. simpl.
    destruct x as [| | | | |l|its]; cbn [is_container is_dict is_list orb is_str_or_int];
      try solve_leaf.
    + by apply IH.
    + apply IH. congruence.
Qed.

(** A listed key is canonical and names a scalar leaf, and conversely. *)
Lemma elem_of_get_keys d items k :
  good_delim d = true → wf (VDict items) → clean_data d (VDict items) = true →
  k ∈ _get_keys (sep d) true [] (VDict items) None ↔
  canonical d k ∧ ∃ x, lookup (split d k) (VDict items) = Some x ∧ is_str_or_int x = true.
Proof.
  intros Hd Hwf Hcl. pose proof (get_keys_spec_data d _ Hwf Hcl) as Hs. cbn [keys_spec] in Hs.
  rewrite Hs by done. rewrite elem_of_nil. split.
  - intros [[]|(cs & x & Hcs & Hl & Hx & ->)]. simpl. split; [by exists cs|].
    exists x. by rewrite split_key_of.
  - intros [(cs & Hcs & ->) (x & Hl & Hx)]. rewrite split_key_of in Hl by done.
    right. by exists cs, x.
Qed.

Lemma NoDup_get_keys delim ki keys v pkey :
  NoDup keys → NoDup (_get_keys delim ki keys v pkey).
Proof.
  revert keys pkey. induction v as [| | | | |l IH|items IH] using value_nested_ind;
    intros keys pkey Hnd; try done; cbn [_get_keys].
  - change keys with ((0, keys).2) in Hnd. revert Hnd. generalize (0, keys) as st.
    intros st Hst. apply (foldl_inv (λ st, NoDup st.2)); [|done].
    intros [i ks] x Hx Hks. simpl in *. rewrite Forall_forall in IH.
    destruct (is_dict x); [by apply IH|]. destruct (is_str_or_int x); [|done].
    by apply NoDup_append_new.
  - apply foldl_inv; [|done]. intros ks [n x] Hx Hks. rewrite Forall_forall in IH.
    destruct (is_container x); [by apply (IH _ Hx)|]. destruct (is_str_or_int x); [|done].
    by apply NoDup_append_new.
Qed.

(** ** Distinct leaves do not interfere *)

Lemma leaves_indep p q data x y :
  lookup p data = Some x → is_str_or_int x = true →
  lookup q data = Some y → is_str_or_int y = true →
  Forall (λ k, ∃ c d, clean_name d (comp_name c) = true ∧ k = comp_str c) p →
  Forall (λ k, ∃ c d, clean_name d (comp_name c) = true ∧ k = comp_str c) q →
  p = q ∨ indep p q = true.
Proof.
  revert q data. induction p as [|k p IH]; intros q data Hx Hlx Hy Hly Hp Hq.
  { simpl in Hx. simplify_eq. destruct q; [by left|]. by destruct x. }
  destruct q as [|k' q]; [simpl in Hy; simplify_eq; by destruct y|].
  apply Forall_cons in Hp as [(c & d & Hc & ->) Hp]. apply Forall_cons in Hq as [(c' & d' & Hc' & ->) Hq].
  cbn [lookup indep] in *. destruct data as [| | | | | |items]; try done.
  rewrite (comp_key_index d c Hc) in *. rewrite (comp_key_index d' c' Hc') in *.
  assert (Hrec : ∀ data, lookup p data = Some x → lookup q data = Some y → p = q ∨ indep p q = true)
    by (intros; by eapply IH).
  destruct c as [n|n i], c' as [n'|n' i']; simpl in *; case_decide; try (by right); subst n';
    destruct (dget n items) as [z|]; simpl in *; try done.
  - destruct (Hrec z) as [->|?]; [done..|by left|by right].
  - destruct z as [| | | | |l|]; try done. by destruct p; simplify_eq/=.
  - destruct z as [| | | | |l|]; try done. by destruct q; simplify_eq/=.
  - destruct z as [| | | | |l|]; try done. case_decide; [subst i'|by right].
    destruct (l !! i) as [w|]; [|done]. simpl in *.
    destruct (Hrec w) as [->|?]; [done..|by left|by right].
Qed.

Lemma get_keys_indep d items k1 k2 :
  good_delim d = true → wf (VDict items) → clean_data d (VDict items) = true →
  k1 ∈ _get_keys (sep d) true [] (VDict items) None →
  k2 ∈ _get_keys (sep d) true [] (VDict items) None →
  k1 ≠ k2 → indep (split d k1) (split d k2) = true.
Proof.
  intros Hd Hwf Hcl. rewrite !elem_of_get_keys by done.
  intros [(cs1 & [H1 Hc1] & ->) (x & Hx & Hlx)] [(cs2 & [H2 Hc2] & ->) (y & Hy & Hly)] Hne.
  assert (Hf : ∀ cs, Forall (λ c, clean_name d (comp_name c) = true) cs →
    Forall (λ k, ∃ c d, clean_name d (comp_name c) = true ∧ k = comp_str c) (comp_str <$> cs)).
  { intros cs Hcs. apply Forall_fmap. eapply Forall_impl; [exact Hcs|]. intros c Hc. by exists c, d. }
  rewrite !split_key_of in * by done.
  destruct (leaves_indep _ _ _ _ _ Hx Hlx Hy Hly (Hf _ Hc1) (Hf _ Hc2)) as [Heq|Hi]; [|done].
  exfalso. apply Hne. unfold key_of. by rewrite Heq.
Qed.

(** ** [add_num_keys] *)

Lemma num_prefix_inj a b : "num_" +:+ a = "num_" +:+ b → a = b.
Proof. simpl. by intros [= ->]. Qed.

Lemma num_keys_elem items k v :
  (k, v) ∈ num_keys items ↔ ∃ n l, (n, VList l) ∈ items ∧ k = "num_" +:+ n ∧ v = VInt (Z.of_nat (length l)).
Proof.
  unfold num_keys. rewrite list_elem_of_omap. split.
  - intros ([n []] & Hin & Heq); simplify_eq/=. eauto 10.
  - intros (n & l & Hin & -> & ->). exists (n, VList l). split; [done|reflexivity].
Qed.

Lemma num_keys_NoDup items : NoDup (dkeys items) → NoDup (dkeys (num_keys items)).
Proof.
  unfold dkeys. induction items as [|[n v] items IH]; intros Hnd; [apply NoDup_nil_2|].
  rewrite fmap_cons in Hnd. apply NoDup_cons in Hnd as [Hn Hnd]. specialize (IH Hnd).
  unfold num_keys. cbn [omap list_omap snd fst].
  destruct v as [| | | | |l|]; try exact IH.
  rewrite fmap_cons. apply NoDup_cons. split; [|exact IH].
  intros Hin. apply list_elem_of_fmap in Hin as ([k v] & Hk & Hin).
  apply num_keys_elem in Hin as (m & l' & Hm & -> & _). simpl in Hk.
  apply num_prefix_inj in Hk as <-. apply Hn, list_elem_of_fmap. by exists (n, VList l').
Qed.

Lemma dget_map {A B} (f : A → B) k (d : list (string * A)) :
  dget k (map (λ '(k, v), (k, f v)) d) = f <$> dget k d.
Proof. induction d as [|[k' v] d IH]; simpl; [done|]. by case_decide. Qed.

Lemma dkeys_map {A B} (f : A → B) (d : list (string * A)) :
  dkeys (map (λ '(k, v), (k, f v)) d) = dkeys d.
Proof. unfold dkeys. induction d as [|[k v] d IH]; [done|]. cbn. by f_equal. Qed.

(** The entry [num_k] is the length of the list [k]. *)
Lemma dget_num_keys items n l :
  NoDup (dkeys items) → dget n items = Some (VList l) →
  dget ("num_" +:+ n) (num_keys items) = Some (VInt (Z.of_nat (length l))).
Proof.
  intros Hnd Hn. apply dget_elem; [by apply num_keys_NoDup|].
  apply num_keys_elem. exists n, l. split; [by apply dget_Some_elem|done].
Qed.

Lemma num_keys_dget items k v :
  dget k (num_keys items) = Some v → ∃ n l, (n, VList l) ∈ items ∧ k = "num_" +:+ n.
Proof. intros Hk%dget_Some_elem%num_keys_elem. naive_solver. Qed.

Lemma wf_add_num_keys v : wf v → wf (_add_num_keys v).
Proof.
  induction v as [| | | | |l IH|items IH] using value_nested_ind; intros Hwf; simpl; try done.
  - constructor. inv Hwf. rewrite Forall_forall in *. intros x (y & <- & Hy)%list_elem_of_In%in_map_iff.
    apply list_elem_of_In in Hy. auto.
  - inv Hwf. rename select (Forall _ items) into Hf. rename select (NoDup _) into Hnd.
    assert (Hm : wf (VDict (map (λ '(k, v), (k, _add_num_keys v)) items))).
    { constructor; [by rewrite dkeys_map|]. rewrite Forall_forall in *.
      intros x ([k y] & <- & Hy)%list_elem_of_In%in_map_iff. simpl.
      apply list_elem_of_In in Hy. apply (IH _ Hy), (Hf _ Hy). }
    assert (Hn : ∀ k v, (k, v) ∈ num_keys items → wf v)
      by (intros k v (n & l & _ & _ & ->)%num_keys_elem; constructor).
    unfold dupdate. apply (foldl_inv (λ d, wf (VDict d))); [|done].
    intros d [k v] Hin Hd. apply wf_dset; [done|]. by apply (Hn k).
Qed.

Lemma dupdate_id {A} (d1 d2 : list (string * A)) :
  (∀ k v, (k, v) ∈ d2 → dget k d1 = Some v) → dupdate d1 d2 = d1.
Proof.
  unfold dupdate. induction d2 as [|[k v] d2 IH]; intros Hs; [done|]. simpl.
  rewrite dset_id by (apply Hs; set_solver). apply IH. intros; apply Hs; set_solver.
Qed.

(** Adding the counts twice adds nothing. *)
Lemma add_num_keys_idem v : wf v → _add_num_keys (_add_num_keys v) = _add_num_keys v.
Proof.
  induction v as [| | | | |l IH|items IH] using value_nested_ind; intros Hwf; try done.
  - cbn [_add_num_keys]. f_equal. rewrite map_map. apply map_ext_in. intros x Hx%list_elem_of_In.
    inv Hwf. rewrite Forall_forall in *. auto.
  - inv Hwf. rename select (Forall _ items) into Hf. rename select (NoDup _) into Hnd.
    cbn [_add_num_keys]. f_equal.
    set (m := map _ items). set (u := dupdate m (num_keys items)).
    assert (Hndu : NoDup (dkeys u)) by (apply NoDup_dupdate; unfold m; by rewrite dkeys_map).
    assert (Hu : ∀ k, dget k u = match dget k (num_keys items) with
                                 | Some v => Some v | None => _add_num_keys <$> dget k items end).
    { intros k. unfold u. destruct (dget k (num_keys items)) eqn:Hk.
      - apply dget_dupdate_in; [by apply num_keys_NoDup|done].
      - rewrite dget_dupdate_notin by (by apply dget_None). unfold m. apply dget_map. }
    assert (Hmap : map (λ '(k, v), (k, _add_num_keys v)) u = u).
    { rewrite <- (map_id u) at 2. apply map_ext_in. intros [k v] Hin%list_elem_of_In. f_equal.
      apply dget_elem in Hin; [|done]. rewrite Hu in Hin.
      destruct (dget k (num_keys items)) as [w|] eqn:Hk.
      - simplify_eq. apply dget_Some_elem, num_keys_elem in Hk as (n & l & _ & _ & ->). done.
      - destruct (dget k items) as [w|] eqn:Hw; simplify_eq/=.
        apply dget_Some_elem in Hw. rewrite Forall_forall in IH, Hf.
        apply (IH _ Hw), (Hf _ Hw). }
    rewrite Hmap. apply dupdate_id. intros k v (n & l & Hin & -> & ->)%num_keys_elem.
    apply dget_elem in Hin; [|done]. rewrite Hu in Hin.
    destruct (dget n (num_keys items)) as [w|] eqn:Hk.
    { simplify_eq. by apply dget_Some_elem, num_keys_elem in Hk as (? & ? & _ & _ & [=]). }
    destruct (dget n items) as [w|] eqn:Hw; simplify_eq/=.
    destruct w as [| | | | |l0|]; simplify_eq/=.
    rewrite (Hu (String _ _)), (dget_num_keys _ n l0) by done. by rewrite length_map.
Qed.

(** ** Clean documents stay clean *)

#[local] Arguments clean_name : simpl never.

Lemma clean_dset d name c items :
  clean_name d name = true → clean_data d c = true → clean_data d (VDict items) = true →
  clean_data d (VDict (dset name c items)) = true.
Proof.
  intros Hn Hc. simpl. induction items as [|[k v] its IH]; simpl; [by rewrite Hn, Hc|].
  rewrite !andb_true_iff. intros [[Hk Hv] Hr]. case_decide as Hkk; simpl; [subst; by rewrite Hk, Hc, Hr|].
  by rewrite Hk, Hv, IH.
Qed.

Lemma clean_elem d l i x : clean_data d (VList l) = true → l !! i = Some x → clean_data d x = true.
Proof. simpl. rewrite forallb_forall. intros Hl Hx. by eapply Hl, list_elem_of_In, list_elem_of_lookup_2. Qed.

Lemma clean_insert d l i c :
  clean_data d c = true → clean_data d (VList l) = true → clean_data d (VList (<[i := c]> l)) = true.
Proof.
  intros Hc Hl. simpl. apply forallb_forall. intros y Hy%list_elem_of_In%list_elem_of_lookup.
  destruct Hy as [j Hj]. apply list_lookup_insert_Some in Hj as [(_ & -> & _)|[_ Hj]]; [done|].
  by eapply clean_elem.
Qed.

Lemma clean_extend d l i : clean_data d (VList l) = true → clean_data d (VList (extend l i)) = true.
Proof.
  intros Hl. unfold extend. simpl in *. rewrite forallb_app, Hl. simpl.
  rewrite forallb_forall. intros y Hy%list_elem_of_In%elem_of_replicate_inv. by subst.
Qed.

Lemma slot_clean d name idx items child put :
  clean_name d name = true → slot name idx items = (child, put) → clean_data d (VDict items) = true →
  clean_data d (descend child) = true ∧ ∀ c, clean_data d c = true → clean_data d (put c) = true.
Proof.
  intros Hn Hslot Hi. assert (Ht : clean_data d (VDict (touch name items)) = true).
  { unfold touch. destruct (dget name items); [done|]. by apply clean_dset. }
  assert (Hx : clean_data d (default (VDict []) (dget name items)) = true).
  { destruct (dget name items) as [x|] eqn:Hx; [|done]. by apply (clean_dget d items name). }
  assert (Hdes : ∀ c, clean_data d c = true → clean_data d (descend c) = true) by (intros []; done).
  revert Hslot. unfold slot. destruct idx as [[i t]|]; intros [= <- <-]; rewrite dget_touch.
  - set (l := extend _ i). assert (Hl : clean_data d (VList l) = true).
    { apply clean_extend. simpl. destruct (dget name items) as [[]|]; done. }
    destruct (extend_is_Some (as_list (Some (default (VDict []) (dget name items)))) i) as [c Hc].
    fold l in Hc. rewrite Hc. simpl default.
    split; [apply Hdes; by eapply clean_elem|]. intros c0 Hc0. apply clean_dset; [done|by apply clean_insert|done].
  - simpl default. split; [by apply Hdes|]. intros c Hc. by apply clean_dset.
Qed.

Lemma clean_set d cs val data :
  Forall (λ c, clean_name d (comp_name c) = true) cs → clean_data d val = true →
  clean_data d data = true → clean_data d (_set (comp_str <$> cs) val data).2 = true.
Proof.
  intros Hcs Hv. revert data. induction Hcs as [|c cs Hc Hcs IH]; intros data Hd; [done|].
  rewrite fmap_cons, set_cons. destruct (bad_index _); [done|].
  destruct data as [| | | | | |items]; try done. rewrite (comp_key_index d) by done.
  destruct (slot _ _ _) as [child put] eqn:Hs.
  assert (clean_name d (match c with CName n => (n, None) | CIndex n i => (n, Some (i, "")) end
             : string * option (nat * string)).1 = true) as Hn by (by destruct c).
  destruct (slot_clean d _ _ _ _ _ Hn Hs Hd) as [Hch Hp].
  destruct (comp_str <$> cs) eqn:Hf; [by apply Hp|]. rewrite <- Hf in *. specialize (IH (descend child) Hch).
  rewrite Hf in *. destruct (_set _ _ _). by apply Hp.
Qed.

End PayloadKeys.
