(* ===== verification/KvPayloadSpec.v ===== *)
(** What [KvPayload] promises its clients, on the methods themselves, and
    executions on concrete payloads. *)
From Stdlib Require Import Ascii.
From S2P Require Import Prelude PyStr PyVal KvPayload KvPayloadFacts KvPayloadKeys.
Import PyStr PayloadFacts PayloadKeys.

Module PayloadSpec.

Notation payload := Payload.payload.
Notation kp_data := Payload.kp_data.
Notation kp_delim := Payload.kp_delim.

(** ** Well-formed payloads and their operations *)

(** The data is a dictionary without repeated keys, the delimiter is one
    character. *)
Record wf_payload (p : payload) : Prop := WfPayload {
  wp_wf : wf (kp_data p);
  wp_dict : is_dict (kp_data p) = true;
  wp_delim : ∃ d, kp_delim p = sep d
}.

(** The parsed key is one [get] accepts. *)
Definition key_ok (p : payload) (key : string) : bool :=
  Payload.with_delim p false (λ d, forallb accepted (split d key)).

(** The two keys part at a component with a different name. *)
Definition keys_diverge (p : payload) (k1 k2 : string) : bool :=
  Payload.with_delim p false (λ d, diverge (split d k1) (split d k2)).

(** The node a key denotes. *)
Definition denotes (p : payload) (key : string) : option value :=
  Payload.with_delim p None (λ d, lookup (split d key) (kp_data p)).

Inductive op :=
| OpSet (key : string) (val : value)
| OpDelete (key : string) (force : bool)
| OpAddNumKeys.

Definition step (o : op) (p : payload) : payload :=
  match o with
  | OpSet k v => (Payload.set k v p).2
  | OpDelete k f => (Payload.delete k f p).2
  | OpAddNumKeys => (Payload.add_num_keys p).2
  end.

(** Payloads reached from a loaded one by mutators whose values are
    well-formed, exceptions included. *)
Inductive reachable (p0 : payload) : payload → Prop :=
| reach_init : reachable p0 p0
| reach_step p o :
    reachable p0 p → (∀ k v, o = OpSet k v → wf v) → reachable p0 (step o p).

(** ** Lemmas on the methods *)

Ltac open_payload p Hp :=
  destruct p as [data delim keys]; destruct Hp as [Hwf Hdict [d Hd]]; simpl in *; subst delim.

Lemma with_delim_sep {A} p d (dflt : A) f :
  kp_delim p = sep d → Payload.with_delim p dflt f = f d.
Proof. unfold Payload.with_delim. by intros ->. Qed.

Lemma key_ok_split data d keys k :
  key_ok (Payload.Payload data (sep d) keys) k = forallb accepted (split d k).
Proof. done. Qed.

Lemma get_denotes_full p key v :
  wf_payload p → key_ok p key = true → denotes p key = Some v → Payload.get p key true = Ok v.
Proof.
  intros Hp. open_payload p Hp. intros Hk Hl. apply get_found; [apply split_nonempty|done..].
Qed.

Lemma get_found_iff p key v :
  wf_payload p → key_ok p key = true → v ≠ VNull →
  Payload.get p key true = Ok v ↔ denotes p key = Some v.
Proof.
  intros Hp Hk Hv. split; [|by apply get_denotes_full].
  open_payload p Hp. unfold Payload.get, denotes, Payload.with_delim in *. simpl in *.
  intros Hg. pose proof (get_lookup (split d key) data (split_nonempty _ _) Hdict Hk) as H.
  rewrite Hg in H. destruct (lookup (split d key) data); simpl in *; congruence.
Qed.

Lemma set_data p key val d :
  kp_delim p = sep d → kp_data (Payload.set key val p).2 = (Payload._set (split d key) val (kp_data p)).2
  ∧ kp_delim (Payload.set key val p).2 = kp_delim p
  ∧ (Payload.set key val p).1 = (Payload._set (split d key) val (kp_data p)).1.
Proof.
  destruct p as [data delim keys]. simpl. intros ->. unfold Payload.set, Payload.with_delim. simpl.
  destruct (Payload._set _ _ _) as [[[]|e] data']; done.
Qed.

Lemma delete_data p key force d :
  kp_delim p = sep d →
  kp_data (Payload.delete key force p).2 = (Payload._delete (split d key) force (kp_data p)).2
  ∧ kp_delim (Payload.delete key force p).2 = kp_delim p
  ∧ (Payload.delete key force p).1 = (Payload._delete (split d key) force (kp_data p)).1.
Proof.
  destruct p as [data delim keys]. simpl. intros ->. unfold Payload.delete, Payload.with_delim. simpl.
  destruct (Payload._delete _ _ _) as [r data']; done.
Qed.

Lemma delete_keeps_dict path force items : is_dict (Payload._delete path force (VDict items)).2 = true.
Proof.
  destruct path as [|k p]; [done|]. cbn [Payload._delete]. destruct (Payload.key_index k) as [name idx].
  destruct (dget name items) as [x|]; [|done]. destruct idx as [[i t]|].
  - destruct x; try done. destruct (l !! i); [|done]. destruct p; [done|]. by destruct (Payload._delete _ _ _).
  - destruct p; [by case_match|]. by destruct (Payload._delete _ _ _).
Qed.

Lemma wf_step o p : wf_payload p → (∀ k v, o = OpSet k v → wf v) → wf_payload (step o p).
Proof.
  intros [Hwf Hdict [d Hd]] Hv. destruct o as [k v|k f|]; simpl.
  - destruct (set_data p k v d Hd) as (Hdata & Hdel & _). constructor.
    + rewrite Hdata. apply wf_set; [by eapply Hv|done].
    + rewrite Hdata. destruct (kp_data p); try done. apply set_keeps_dict.
    + rewrite Hdel. eauto.
  - destruct (delete_data p k f d Hd) as (Hdata & Hdel & _). constructor.
    + rewrite Hdata. by apply wf_delete.
    + rewrite Hdata. destruct (kp_data p); try done. apply delete_keeps_dict.
    + rewrite Hdel. eauto.
  - constructor; simpl; [by apply wf_add_num_keys| |by eauto].
    by destruct (kp_data p).
Qed.

Lemma denotes_set p key val :
  wf_payload p → (Payload.set key val p).1 = Ok tt → denotes (Payload.set key val p).2 key = Some val.
Proof.
  intros [_ _ [d Hd]] Hs. destruct (set_data p key val d Hd) as (Hdata & Hdel & Hr).
  unfold denotes, Payload.with_delim. rewrite Hdel, Hd. simpl. rewrite Hdata.
  destruct (Payload._set (split d key) val (kp_data p)) as [r data'] eqn:Heq. simpl in *. subst r.
  rewrite Hs in Heq. eapply lookup_set; [apply split_nonempty|done].
Qed.

Lemma denotes_step_diverge o p k2 :
  wf_payload p →
  match o with
  | OpSet k _ | OpDelete k _ => keys_diverge p k k2 = true
  | OpAddNumKeys => False
  end → denotes (step o p) k2 = denotes p k2.
Proof.
  intros [_ _ [d Hd]] Ho. unfold denotes, keys_diverge, Payload.with_delim in *.
  destruct o as [k v|k f|]; [| |done]; rewrite Hd in Ho; simpl in Ho; simpl step.
  - destruct (set_data p k v d Hd) as (-> & -> & _). rewrite Hd. simpl.
    by apply lookup_set_diverge.
  - destruct (delete_data p k f d Hd) as (-> & -> & _). rewrite Hd. simpl.
    by apply lookup_delete_diverge.
Qed.

(** ** Properties *)

(** C1.  [set] then [get]: when storing [val] under a key whose components
    all have a name and at most a trailing index returns, reading the key back
    gives [val], whatever the payload held. *)
Theorem payload_set_get p key val :
  wf_payload p → key_ok p key = true → (Payload.set key val p).1 = Ok tt →
  Payload.get (Payload.set key val p).2 key true = Ok val.
Proof.
  intros Hp Hk Hs. destruct (Hp) as [Hwf Hdict [d Hd]].
  destruct (set_data p key val d Hd) as (Hdata & Hdel & Hr).
  pose proof (denotes_set p key val Hp Hs) as Hden.
  unfold Payload.get, denotes, key_ok, Payload.with_delim in *.
  rewrite Hdel, Hd in *. simpl in *. apply get_found; [apply split_nonempty|done..].
Qed.

(** C2.  Frame: a mutation of one key, whether it returns or raises, does not
    change what [get] finds under a key that parts from it at a component with
    a different name. *)
Theorem payload_frame o p k2 v :
  wf_payload p → (∀ k w, o = OpSet k w → wf w) → key_ok p k2 = true →
  match o with
  | OpSet k _ | OpDelete k _ => keys_diverge p k k2 = true
  | OpAddNumKeys => False
  end → v ≠ VNull →
  Payload.get (step o p) k2 true = Ok v ↔ Payload.get p k2 true = Ok v.
Proof.
  intros Hp Hw Hk Ho Hv. rewrite !get_found_iff; try done.
  - by rewrite denotes_step_diverge.
  - by apply wf_step.
  - destruct (Hp) as [_ _ [d Hd]]. unfold key_ok, Payload.with_delim in *.
    assert (kp_delim (step o p) = kp_delim p) as ->; [|done].
    destruct o as [k w|k f|]; simpl; [|by apply (delete_data p k f d)|done].
    by apply (set_data p k w d).
Qed.

(** Every payload reached from a well-formed one by [set], [delete] and
    [add_num_keys], failed calls included, is well-formed: its data is a
    dictionary in which no dictionary repeats a key. *)
Theorem payload_reachable_wf p0 p : wf_payload p0 → reachable p0 p → wf_payload p.
Proof. intros Hp0. induction 1; [done|]. by apply wf_step. Qed.

(** [set] is total on documents of strings: if every scalar of the
    payload is a string and no component is an index without a name, storing
    returns, and storing a document of strings keeps the payload one. *)
Theorem payload_set_total p key val d :
  wf_payload p → kp_delim p = sep d → string_data (kp_data p) = true →
  forallb (λ k, negb (Payload.bad_index (Payload.key_index k))) (split d key) = true →
  (Payload.set key val p).1 = Ok tt ∧
  (string_data val = true → string_data (kp_data (Payload.set key val p).2) = true).
Proof.
  intros [Hwf Hdict _] Hd Hs Hb. destruct (set_data p key val d Hd) as (-> & _ & ->).
  destruct (set_total (split d key) val (kp_data p)) as (data' & -> & Hval);
    [apply split_nonempty|done..].
Qed.

(** C10.  [delete] reports what it did: [True] when the key was there, and
    then it is gone, or, where it ended in the index of an element that is not
    the last of its list, reads as the empty string; [False] when it was not
    there; on [False] and on an exception the payload is unchanged. *)
Theorem payload_delete_spec p key force :
  wf_payload p → key_ok p key = true →
  match Payload.delete key force p with
  | (Ok true, p') => is_Some (denotes p key) ∧
      denotes p' key = Payload.with_delim p None (λ d, left_behind (split d key) (kp_data p))
  | (Ok false, p') => denotes p key = None ∧ p' = p
  | (Err _, p') => p' = p
  end.
Proof.
  intros Hp Hk. open_payload p Hp. unfold Payload.delete, denotes, Payload.with_delim in *. simpl in *.
  destruct (Payload._delete (split d key) force data) as [r data'] eqn:Hdel.
  destruct r as [[]|e].
  - by apply delete_true in Hdel.
  - pose proof (delete_unchanged _ _ _ _ _ Hdel ltac:(done)) as ->.
    apply delete_false in Hdel; [|apply split_nonempty]. done.
  - by pose proof (delete_unchanged _ _ _ _ _ Hdel ltac:(done)) as ->.
Qed.

(** C9.  [get_keys] lists, without repetition, exactly the canonical keys (at
    most one index after each name) that [get] resolves to a string, an integer
    or a boolean, for a payload whose dictionary keys contain neither the
    delimiter nor an opening bracket and are not blank.  Leaves that are floats
    or null, and elements of lists inside lists, have no key in the list. *)
Theorem payload_get_keys_exact p d :
  wf_payload p → kp_delim p = sep d → good_delim d = true → clean_data d (kp_data p) = true →
  NoDup (Payload.get_keys_rec p "" true) ∧
  ∀ k, k ∈ Payload.get_keys_rec p "" true ↔
       canonical d k ∧ ∃ x, Payload.get p k true = Ok x ∧ is_str_or_int x = true.
Proof.
  intros [Hwf Hdict _] Hd Hg Hcl. unfold Payload.get_keys_rec. rewrite decide_True, Hd by done.
  split; [apply NoDup_get_keys, NoDup_nil_2|]. intros k.
  destruct (kp_data p) as [| | | | | |items] eqn:Hdata; try done.
  rewrite elem_of_get_keys by done. unfold Payload.get, Payload.with_delim. rewrite Hd, Hdata. simpl.
  split; intros [Hc (x & Hx & Hlx)]; (split; [done|]); exists x; (split; [|done]).
  - apply get_found; [apply split_nonempty|by apply canonical_accepted|done].
  - pose proof (get_lookup (split d k) (VDict items) (split_nonempty _ _) eq_refl
      (canonical_accepted _ _ Hg Hc)) as Hgl. rewrite Hx in Hgl.
    destruct (lookup (split d k) (VDict items)); simpl in Hgl; subst; done.
Qed.

(** A float or null leaf is stored, and read back by [get], but not listed. *)
Lemma payload_get_keys_unlisted :
  let p := Payload.Payload (VDict [("a", VFloat 3 (-1)); ("b", VNull); ("c", VInt 1)]) ">" [] in
  Payload.get_keys_rec p "" true = ["c"] ∧ Payload.get p "a" true = Ok (VFloat 3 (-1)).
Proof. by vm_compute. Qed.

(** [add_num_keys] is idempotent, and afterwards [num_k] is the length
    of every list [k] at the top of the payload. *)
Theorem payload_add_num_keys p n l :
  wf_payload p → dget n (match kp_data p with VDict items => items | _ => [] end) = Some (VList l) →
  let p' := (Payload.add_num_keys p).2 in
  (Payload.add_num_keys p').2 = p' ∧
  ∃ items, kp_data p' = VDict items ∧ dget ("num_" +:+ n) items = Some (VInt (Z.of_nat (length l))).
Proof.
  intros [Hwf Hdict _] Hn p'. split.
  - unfold p', Payload.add_num_keys. simpl. by rewrite add_num_keys_idem.
  - unfold p'. simpl. destruct (kp_data p) as [| | | | | |items] eqn:Hdata; try done.
    assert (Hnd : NoDup (dkeys items)) by (by inv Hwf). simpl. eexists. split; [done|].
    apply dget_dupdate_in; [by apply num_keys_NoDup|]. by apply dget_num_keys.
Qed.

(** [get(key, recurse=False)] and [get(key)] agree: for an accepted key
    they return the same value whenever both return. *)
Theorem payload_get_shallow_agrees p key v w :
  wf_payload p → key_ok p key = true →
  Payload.get p key true = Ok v → Payload.get p key false = Ok w → v = w.
Proof.
  intros Hp Hk. open_payload p Hp. unfold Payload.get, Payload.with_delim in *. simpl in *.
  intros Hg Hs.
  pose proof (get_lookup (split d key) data (split_nonempty _ _) Hdict Hk) as H1. rewrite Hg in H1.
  pose proof (shallow_get_lookup (split d key) data Hdict Hk) as H2. rewrite Hs in H2. congruence.
Qed.

(** [get] of a key below an index of a list that is not there raises
    [KeyError] where every other missing key reads as [None]. *)
Theorem payload_get_missing_list_raises p d name i rest items :
  kp_delim p = sep d → kp_data p = VDict items → good_delim d = true →
  clean_name d name = true → dget name items = None →
  Payload.get p (Payload.at_index name i +:+ sep d +:+ rest) true = Err KeyError.
Proof.
  intros Hd Hdata Hg Hn Hget. unfold Payload.get.
  rewrite (with_delim_sep p d) by done. rewrite Hdata.
  change (sep d +:+ rest) with (String d rest).
  assert (no_char d (Payload.at_index name i) = true) by (by apply (comp_no_delim d (CIndex name i))).
  rewrite split_app by done. destruct (split d rest) eqn:Hs; [by apply split_nonempty in Hs|].
  cbn [Payload._get]. change (Payload.at_index name i) with (comp_str (CIndex name i)).
  rewrite (comp_key_index d) by done.
  apply clean_name_parts in Hn as (-> & _). by rewrite decide_False, Hget by tauto.
Qed.

(** [set] below an integer, a float, a boolean or a null raises
    [AttributeError] and leaves the data as it was; only strings and lists
    are replaced by dictionaries. *)
Theorem payload_set_below_scalar_raises p d name rest val x items :
  kp_delim p = sep d → kp_data p = VDict items → clean_name d name = true →
  dget name items = Some x → is_dict x = false → is_str_or_list x = false →
  (match split d rest with k :: _ => Payload.bad_index (Payload.key_index k) | [] => true end) = false →
  Payload.set (name +:+ sep d +:+ rest) val p = (Err AttributeError, p).
Proof.
  intros Hd Hdata Hn Hx Hxd Hxs Hb. destruct p as [data delim keys]. simpl in *. subst.
  unfold Payload.set. rewrite (with_delim_sep _ d) by done. cbn [Payload.kp_data Payload.kp_delim Payload.kp_keys].
  change (sep d +:+ rest) with (String d rest).
  pose proof (clean_name_parts _ _ Hn) as (Hbl & Ho & Hnd).
  rewrite split_app by done. destruct (split d rest) as [|k ks] eqn:Hs; [done|].
  rewrite set_cons, key_index_name by done. cbn [Payload.bad_index fst snd Payload.slot].
  rewrite dget_touch, Hx. cbn [default from_option id]. unfold Payload.descend. rewrite Hxs.
  rewrite set_cons, Hb. destruct x; try done; cbn;
    unfold Payload.touch; by rewrite Hx, dset_id.
Qed.

(** ** Executions *)

Definition sample : payload :=
  Payload.Payload
    (VDict [("bridge", VDict [("name", VStr "Homebridge"); ("manufacturer", VStr "x")]);
            ("nodes", VList [VDict [("id", VStr "n0")]; VStr "n1"]); ("port", VInt 51826)])
    ">" [].

Ltac solve_wf := repeat (constructor; try (vm_compute; reflexivity); try set_solver).

Lemma sample_wf : wf_payload sample.
Proof.
  constructor; [|done|by exists ">"%char].
  repeat first [apply wf_str | apply wf_int | apply wf_list | apply wf_dict
               | apply Forall_cons_2 | apply Forall_nil_2
               | apply (bool_decide_unpack _); vm_compute; exact I].
Qed.

Lemma payload_set_get_witness :
  key_ok sample "nodes[3]>id" = true ∧
  Payload.get (Payload.set "nodes[3]>id" (VStr "n3") sample).2 "nodes[3]>id" true = Ok (VStr "n3").
Proof.
  split; [vm_compute; reflexivity|].
  apply (payload_set_get sample); [apply sample_wf|vm_compute; reflexivity|vm_compute; reflexivity].
Defined.

Lemma payload_frame_witness :
  Payload.get (step (OpSet "nodes[0]>id" (VStr "z")) sample) "bridge>name" true = Ok (VStr "Homebridge").
Proof.
  apply (payload_frame (OpSet "nodes[0]>id" (VStr "z")) sample "bridge>name" (VStr "Homebridge"));
    [apply sample_wf|intros ? ? [= _ <-]; constructor|vm_compute; reflexivity..|discriminate
    |vm_compute; reflexivity].
Defined.

Lemma payload_reachable_wf_witness :
  wf_payload (step (OpDelete "nodes[0]" true) (step (OpSet "port>x" VNull) sample)).
Proof.
  apply (payload_reachable_wf sample); [apply sample_wf|].
  apply reach_step; [apply reach_step; [apply reach_init|]|]; intros ? ? [=]; subst; constructor.
Defined.

Definition string_sample : payload :=
  Payload.Payload (VDict [("a", VStr "s"); ("l", VList [VStr "t"])]) ">" [].

Lemma payload_set_total_witness :
  (Payload.set "a>b[2]>c" (VStr "v") string_sample).1 = Ok tt.
Proof.
  refine (proj1 (payload_set_total string_sample "a>b[2]>c" (VStr "v") ">" _ eq_refl eq_refl _)).
  - constructor; [|done|by exists ">"%char].
    repeat first [apply wf_str | apply wf_list | apply wf_dict | apply Forall_cons_2
                 | apply Forall_nil_2 | apply (bool_decide_unpack _); vm_compute; exact I].
  - vm_compute. reflexivity.
Defined.

Lemma payload_delete_spec_witness :
  Payload.delete "nodes[0]" false sample = (Ok true, (Payload.delete "nodes[0]" false sample).2) ∧
  denotes (Payload.delete "nodes[0]" false sample).2 "nodes[0]" = Some (VStr "") ∧
  denotes (Payload.delete "nodes[1]" false sample).2 "nodes[1]" = None.
Proof.
  split; [vm_compute; reflexivity|].
  pose proof (payload_delete_spec sample "nodes[0]" false sample_wf eq_refl) as H.
  pose proof (payload_delete_spec sample "nodes[1]" false sample_wf eq_refl) as H1.
  revert H H1. vm_compute. intros [_ H] [_ H1]. split; [exact H|exact H1].
Defined.

Lemma payload_get_keys_exact_witness :
  Payload.get_keys_rec sample "" true =
    ["bridge>name"; "bridge>manufacturer"; "nodes[0]>id"; "nodes[1]"; "port"] ∧
  NoDup (Payload.get_keys_rec sample "" true).
Proof.
  split; [vm_compute; reflexivity|].
  apply (payload_get_keys_exact sample ">"); [apply sample_wf|vm_compute; reflexivity..].
Defined.

Lemma payload_add_num_keys_witness :
  (Payload.add_num_keys (Payload.add_num_keys sample).2).2 = (Payload.add_num_keys sample).2.
Proof.
  refine (proj1 (payload_add_num_keys sample "nodes" [VDict [("id", VStr "n0")]; VStr "n1"] sample_wf _)).
  vm_compute. reflexivity.
Defined.

Lemma payload_get_shallow_agrees_witness : VStr "n0" = VStr "n0".
Proof.
  apply (payload_get_shallow_agrees sample "nodes[0]>id" (VStr "n0") (VStr "n0"));
    [apply sample_wf|vm_compute; reflexivity..].
Defined.

Lemma payload_get_missing_list_raises_witness :
  Payload.get sample "servers[0]>id" true = Err KeyError.
Proof.
  apply (payload_get_missing_list_raises sample ">" "servers" 0 "id"
    (match kp_data sample with VDict items => items | _ => [] end)); vm_compute; reflexivity.
Defined.

Lemma payload_set_below_scalar_raises_witness :
  Payload.set "port>http" (VStr "80") sample = (Err AttributeError, sample).
Proof.
  apply (payload_set_below_scalar_raises sample ">" "port" "http" (VStr "80") (VInt 51826)
    (match kp_data sample with VDict items => items | _ => [] end)); vm_compute; reflexivity.
Defined.

End PayloadSpec.
