(* ===== verification/KvStore.v ===== *)
(** [utils/kv_store/kv_store.py]: class [KvStore], the load-modify-dump
    methods every storage backend inherits, against an interface for the
    backends ([load] and [dump] on a world), and [KvStoreFactory]. *)
From Stdlib Require Import Ascii.
From S2P Require Import Prelude PyStr PyVal KvPayload KvPayloadFacts KvPayloadSpec.
Import PyStr PayloadSpec.

Module Store.

(** ** The backend interface *)

(** A storage backend acting on a world [W] (files, servers): [load(recurse)]
    and [dump(payload)]. *)
Record backend (W : Type) := Backend {
  b_load : bool → ST W payload;
  b_dump : payload → ST W unit
}.
Arguments b_load {_} _ _.
Arguments b_dump {_} _ _.
Arguments Backend {_} _ _.

(** What a backend promises on the worlds where it is valid: loading does
    not change the world and gives a document of the domain, dumping such a
    document succeeds and leaves a valid world, and what was dumped is
    loaded.  These are the stores that keep the loaded document in memory and
    whose files can be written: a full disk is outside of the laws, and so are
    the INI and the Consul stores, whose payload writes through. *)
Class BackendLaws {W} (b : backend W) (delim : string) (dom : value → Prop)
    (valid : W → Prop) : Prop := {
  load_pure : ∀ r w, (b_load b r w).2 = w;
  load_wf : ∀ r w p w', valid w → b_load b r w = (Ok p, w') →
    wf_payload p ∧ kp_delim p = delim ∧ dom (kp_data p);
  dump_ok : ∀ p w, wf_payload p → dom (kp_data p) →
    (b_dump b p w).1 = Ok tt ∧ valid (b_dump b p w).2;
  dump_load : ∀ p w, wf_payload p → kp_delim p = delim → dom (kp_data p) →
    ∃ p', b_load b true (b_dump b p w).2 = (Ok p', (b_dump b p w).2) ∧ kp_data p' = kp_data p;
  dom_step : ∀ o p, wf_payload p → dom (kp_data p) →
    (∀ k v, o = OpSet k v → dom v) → dom (kp_data (step o p))
}.

(** ** The methods *)

Section methods.
Context {W : Type} (b : backend W).

(** Run a mutator of the payload; nothing is dumped when it raises. *)
Definition load_modify_dump (m : ST payload unit) : ST W unit :=
  let! p := b_load b true in
  match m p with
  | (Ok _, p') => b_dump b p'
  | (Err e, _) => st_raise e
  end.

Definition get_keys (key_prefix : string) : ST W (list string) :=
  let! p := b_load b true in
  st_ret (filter (λ k, startswith k key_prefix = true) (Payload.get_keys_rec p "" true)).

Definition search (parent_key search_key : string) (search_val : value) : ST W (list string) :=
  let! p := b_load b true in
  st_lift (Payload.search p parent_key search_key search_val).

Definition add_num_keys : ST W unit := load_modify_dump Payload.add_num_keys.

Definition get_data : ST W value :=
  let! p := b_load b true in st_ret (Payload.get_data p).

(** [set_data]: the [map] of the source is lazy and never consumed, so no key
    of [payload] is stored; the loaded payload is dumped back. *)
Definition set_data (payload : payload) : ST W unit :=
  let! p := b_load b true in b_dump b p.

Definition get (keys : list string) : ST W (list value) :=
  let! p := b_load b true in
  st_lift (res_map (λ key, Payload.get p key true) keys).

Definition set (keys : list string) (vals : list value) : ST W unit :=
  if decide (length keys ≠ length vals) then st_raise (KvError EINVAL)
  else load_modify_dump (st_iter (λ '(key, val), Payload.set key val) (zip keys vals)).

Definition delete (keys : list string) : ST W unit :=
  load_modify_dump (st_iter (λ key, Payload.delete key false ;;; st_ret tt) keys).

End methods.

(** ** The factory *)

Section factory.
(** [urlparse], and the table of storage classes ([name] and constructor) as
    [inspect.getmembers] lists them; a constructor acts on the world. *)
Context {W I : Type} (urlparse : string → string * string * string).
Context (classes : list (string * (string → string → string → ST W I))).

Fixpoint find_class (store_type : string)
    (l : list (string * (string → string → string → ST W I)))
    : option (string → string → string → ST W I) :=
  match l with
  | [] => None
  | (name, cls) :: l' => if decide (store_type = name) then Some cls else find_class store_type l'
  end.

(** [KvStoreFactory.get_instance]: the state is the class attribute
    [_stores], the instances created so far by URL, and the world. *)
Definition get_instance (store_url delim : string) : ST (gmap string I * W) I := λ '(stores, w),
  let '(store_type, store_loc, store_path) := urlparse store_url in
  match stores !! store_url with
  | Some i => (Ok i, (stores, w))
  | None =>
      match find_class store_type classes with
      | Some cls =>
          match cls store_loc store_path delim w with
          | (Ok i, w') => (Ok i, (<[store_url := i]> stores, w'))
          | (Err e, w') => (Err e, (stores, w'))
          end
      | None => (Err (KvError EINVAL), (stores, w))
      end
  end.

(** The factory returns one instance per URL: after a successful call
    every later call for the URL returns the same instance, whatever delimiter
    it asks for, and the table changes no more. *)
Theorem get_instance_cached url d1 d2 st i st' :
  get_instance url d1 st = (Ok i, st') →
  get_instance url d2 st' = (Ok i, st').
Proof.
  destruct st as [stores w]. unfold get_instance. destruct (urlparse url) as [[ty loc] path].
  destruct (stores !! url) as [i0|] eqn:Hs.
  - intros [= <- <-]. by rewrite Hs.
  - destruct (find_class ty classes) as [cls|]; [|done].
    destruct (cls loc path d1 w) as [[i1|e0] w']; [|done].
    intros [= <- <-]. by rewrite lookup_insert_eq.
Qed.
End factory.

(** ** Updates *)

(** The updates of [set] and [delete], and what they do to the payload. *)
Inductive update {W} (b : backend W) : ST W unit → ST payload unit → Prop :=
| UpdateSet ks vs :
    length ks = length vs →
    update b (set b ks vs) (st_iter (λ '(key, val), Payload.set key val) (zip ks vs))
| UpdateLengths ks vs :
    length ks ≠ length vs → update b (set b ks vs) (st_raise (KvError EINVAL))
| UpdateDelete ks :
    update b (delete b ks) (st_iter (λ key, Payload.delete key false ;;; st_ret tt) ks).

(** C6.  [KvStore.set] and [KvStore.delete], over a backend whose loading
    changes nothing and whose payload is kept in memory, write once or not at
    all: when the update returns, the backend was loaded, every key set or
    deleted and the result dumped; when it raises, the backend is as it was
    before the call, or that very dump raised. *)
Theorem store_update_atomic {W} (b : backend W) op m w :
  (∀ r w, (b_load b r w).2 = w) → update b op m →
  match op w with
  | (Ok _, w') => ∃ p p', b_load b true w = (Ok p, w) ∧ m p = (Ok tt, p') ∧ b_dump b p' w = (Ok tt, w')
  | (Err e, w') => w' = w ∨
      ∃ p p', b_load b true w = (Ok p, w) ∧ m p = (Ok tt, p') ∧ b_dump b p' w = (Err e, w')
  end.
Proof.
  intros Hpure Hup.
  assert ((∃ e, op w = (Err e, w)) ∨ op w = load_modify_dump b m w) as [[e ->]| ->]; [|by left|].
  { destruct Hup as [ks vs Hlen|ks vs Hlen|ks]; [right|left|by right]; unfold set.
    - by rewrite decide_False by (by intros []).
    - rewrite decide_True by done. by eexists. }
  unfold load_modify_dump, st_bind. pose proof (Hpure true w) as Hl.
  destruct (b_load b true w) as [[p|e] w1]; simpl in Hl; subst w1; [|by left].
  destruct (m p) as [[[]|e] p'] eqn:Hm; [|by left].
  destruct (b_dump b p' w) as [[[]|e] w'] eqn:Hd; [|right]; by exists p, p'.
Qed.

(** ** Theory of the methods *)

Section theory.
Context {W : Type} (b : backend W) (delim : string) (dom : value → Prop) (valid : W → Prop).
Context {Hb : BackendLaws b delim dom valid}.

Lemma load_inv r w : b_load b r w = ((b_load b r w).1, w).
Proof. rewrite <- (load_pure r w) at 3. apply surjective_pairing. Qed.

Lemma dump_inv p w :
  wf_payload p → dom (kp_data p) → b_dump b p w = (Ok tt, (b_dump b p w).2).
Proof. intros Hp Hd. destruct (dump_ok p w Hp Hd) as [<- _]. apply surjective_pairing. Qed.

Lemma zip_values (ks : list string) vs :
  Forall wf vs → Forall dom vs → Forall (λ kv, wf kv.2 ∧ dom kv.2) (zip ks vs).
Proof.
  intros Hw Hd. apply Forall_forall. intros [k v] Hin%elem_of_zip_r. simpl.
  rewrite Forall_forall in Hw. rewrite Forall_forall in Hd. auto.
Qed.

(** The loop of [set], one step at a time. *)
Lemma set_loop_inv kvs p p' :
  wf_payload p → dom (kp_data p) → Forall (λ kv, wf kv.2 ∧ dom kv.2) kvs →
  st_iter (λ '(key, val), Payload.set key val) kvs p = (Ok tt, p') →
  wf_payload p' ∧ dom (kp_data p') ∧ kp_delim p' = kp_delim p ∧
  ∀ k2, Forall (λ kv, keys_diverge p kv.1 k2 = true) kvs → denotes p' k2 = denotes p k2.
Proof.
  revert p. induction kvs as [|[k v] kvs IH]; intros p Hp Hd Hv; simpl.
  { intros [= <-]. done. }
  apply Forall_cons in Hv as [[Hwv Hdv] Hv]. unfold st_bind.
  assert (Hset : ∀ k0 v0, OpSet k v = OpSet k0 v0 → wf v0) by (by intros ? ? [= _ <-]).
  assert (Hset' : ∀ k0 v0, OpSet k v = OpSet k0 v0 → dom v0) by (by intros ? ? [= _ <-]).
  pose proof (wf_step (OpSet k v) p Hp Hset) as Hp1.
  pose proof (dom_step (OpSet k v) p Hp Hd Hset') as Hd1. simpl in Hp1, Hd1.
  destruct (Hp) as [_ _ [d Hdel]]. destruct (PayloadSpec.set_data p k v d Hdel) as (_ & Hdel1 & _).
  assert (Hdiv : ∀ k2, keys_diverge p k k2 = true →
            denotes (Payload.set k v p).2 k2 = denotes p k2)
    by (intros; by apply (denotes_step_diverge (OpSet k v))).
  destruct (Payload.set k v p) as [[[]|e] p1]; simpl in *; [|done].
  intros Hit. apply IH in Hit as (? & ? & Hdl & Hfr); [|done..].
  split; [done|]. split; [done|]. split; [congruence|].
  intros k2 [Hk Hks]%Forall_cons. rewrite Hfr; [by apply Hdiv|].
  eapply Forall_impl; [exact Hks|]. intros [k' v']. unfold keys_diverge, Payload.with_delim.
  by rewrite Hdel1.
Qed.

Lemma set_loop_denotes kvs p p' :
  wf_payload p → dom (kp_data p) → Forall (λ kv, wf kv.2 ∧ dom kv.2) kvs →
  ForallOrdPairs (λ kv1 kv2, keys_diverge p kv2.1 kv1.1 = true) kvs →
  st_iter (λ '(key, val), Payload.set key val) kvs p = (Ok tt, p') →
  Forall (λ kv, denotes p' kv.1 = Some kv.2) kvs.
Proof.
  revert p. induction kvs as [|[k v] kvs IH]; intros p Hp Hd Hv Hdiv; [constructor|]. simpl.
  apply Forall_cons in Hv as [[Hwv Hdv] Hv]. inversion Hdiv as [|? ? Hhd Htl]; subst. unfold st_bind.
  assert (Hset : ∀ k0 v0, OpSet k v = OpSet k0 v0 → wf v0) by (by intros ? ? [= _ <-]).
  assert (Hset' : ∀ k0 v0, OpSet k v = OpSet k0 v0 → dom v0) by (by intros ? ? [= _ <-]).
  pose proof (wf_step (OpSet k v) p Hp Hset) as Hp1.
  pose proof (dom_step (OpSet k v) p Hp Hd Hset') as Hd1. simpl in Hp1, Hd1.
  pose proof (denotes_set p k v Hp) as Hden.
  destruct (Hp) as [_ _ [d Hdel]]. destruct (PayloadSpec.set_data p k v d Hdel) as (_ & Hdel1 & _).
  destruct (Payload.set k v p) as [[[]|e] p1]; simpl in *; [|done].
  assert (Hkd : ∀ k1 k2, keys_diverge p1 k1 k2 = keys_diverge p k1 k2)
    by (intros; unfold keys_diverge, Payload.with_delim; by rewrite Hdel1).
  intros Hit. constructor.
  - simpl. destruct (set_loop_inv kvs p1 p' Hp1 Hd1 Hv Hit) as (_ & _ & _ & Hfr).
    rewrite Hfr; [by apply Hden|]. eapply Forall_impl; [exact Hhd|].
    intros kv. by rewrite Hkd.
  - apply (IH p1); try done. clear -Htl Hkd.
    induction Htl as [|kv kvs H1 H2 IH]; constructor; [|done].
    eapply Forall_impl; [exact H1|]. intros. by rewrite Hkd.
Qed.

Lemma update_atomic (op : ST W unit) w e w' :
  (∃ ks vs, op = set b ks vs ∧ Forall dom vs ∧ Forall wf vs) ∨ (∃ ks, op = delete b ks) →
  valid w → op w = (Err e, w') → w' = w.
Proof.
  assert (Hlmd : ∀ m, (∀ p p', wf_payload p → dom (kp_data p) → m p = (Ok tt, p') →
                        wf_payload p' ∧ dom (kp_data p')) →
     valid w → load_modify_dump b m w = (Err e, w') → w' = w).
  { intros m Hm Hv. unfold load_modify_dump, st_bind. pose proof (load_inv true w) as Hl.
    destruct (b_load b true w) as [[p|e'] w1] eqn:Hload; simpl in *; [|congruence].
    destruct (load_wf _ _ _ _ Hv Hload) as (Hp & _ & Hd).
    destruct (m p) as [[[]|e'] p'] eqn:Hmp; [|unfold st_raise; congruence].
    destruct (Hm _ _ Hp Hd Hmp). by rewrite dump_inv. }
  intros [(ks & vs & -> & Hdv & Hwv)|(ks & ->)].
  - unfold set. case_decide; [unfold st_raise; congruence|]. apply Hlmd.
    intros p p' Hp Hd Hit. apply set_loop_inv in Hit as (? & ? & _); try done.
    by apply zip_values.
  - apply Hlmd. clear -Hb. induction ks as [|k ks IH]; intros p p' Hp Hd; simpl; [by intros [= <-]|].
    unfold st_bind. pose proof (wf_step (OpDelete k false) p Hp ltac:(done)) as Hp1.
    pose proof (dom_step (OpDelete k false) p Hp Hd ltac:(done)) as Hd1. simpl in *.
    destruct (Payload.delete k false p) as [[r|e] p1]; simpl in *; [|done].
    by apply IH.
Qed.

Lemma set_get keys vals w w' :
  Forall dom vals → Forall wf vals →
  (∀ p, kp_delim p = delim → Forall (λ k, key_ok p k = true) keys ∧
        ForallOrdPairs (λ k1 k2, keys_diverge p k2 k1 = true) keys) →
  valid w → set b keys vals w = (Ok tt, w') →
  get b keys w' = (Ok vals, w').
Proof.
  intros Hdv Hwv Hkeys Hv. unfold set. case_decide as Hlen; [done|]. 
  unfold load_modify_dump, st_bind.
  pose proof (load_inv true w) as Hl.
  destruct (b_load b true w) as [[p|e'] w1] eqn:Hload; simpl in *; [|done].
  injection Hl as ->. destruct (load_wf _ _ _ _ Hv Hload) as (Hp & Hdel & Hd).
  destruct (st_iter _ (zip keys vals) p) as [[[]|e'] p'] eqn:Hit; [|done].
  assert (Hkv : Forall (λ kv, wf kv.2 ∧ dom kv.2) (zip keys vals)).
  { by apply zip_values. }
  destruct (set_loop_inv _ _ _ Hp Hd Hkv Hit) as (Hp' & Hd' & Hdel' & _).
  rewrite dump_inv by done. intros [= Hw']. subst w'.
  destruct (dump_load p' w Hp' (eq_trans Hdel' Hdel) Hd') as (p2 & Hload2 & Hdata2).
  unfold get, st_bind. rewrite Hload2. destruct (load_wf _ _ _ _ (proj2 (dump_ok p' w Hp' Hd')) Hload2) as (Hp2 & Hdel2 & _).
  unfold st_lift. f_equal. apply res_map_ok. destruct (Hkeys p Hdel) as [_ Hdiv].
  assert (Hden : Forall (λ kv, denotes p' kv.1 = Some kv.2) (zip keys vals)).
  { eapply set_loop_denotes; [exact Hp|exact Hd|exact Hkv| |exact Hit].
    clear -Hdiv Hlen. revert vals Hlen. induction Hdiv as [|k ks Hk Hks IH]; intros [|v vs] Hlen; try constructor; try done.
    - apply Forall_forall. intros [k' v'] Hin%elem_of_zip_l. rewrite Forall_forall in Hk. by apply Hk.
    - apply IH. by injection Hlen. }
  destruct (Hkeys p2 Hdel2) as [Hok _].
  assert (Hget : Forall (λ kv, Payload.get p2 kv.1 true = Ok kv.2) (zip keys vals)).
  { apply Forall_forall. intros [k v] Hin. simpl. rewrite Forall_forall in Hden.
    apply get_denotes_full; [done|eapply Forall_forall in Hok; [done|by eapply elem_of_zip_l]|].
    specialize (Hden _ Hin). simpl in Hden. unfold denotes, Payload.with_delim in *.
    by rewrite Hdata2, Hdel2, <- Hdel, <- Hdel'. }
  apply Forall2_same_length_lookup_2; [done|]. intros i k v Hk Hvi.
  rewrite Forall_forall in Hget. apply (Hget (k, v)).
  apply list_elem_of_lookup. exists i. by rewrite lookup_zip_with, Hk, Hvi.
Qed.

(** C3.  What [KvStore.set] wrote is what [KvStore.get] reads back through
    the backend: if storing [vals] under [keys] returns and the keys are
    accepted and pairwise part at a name, a later [get] returns [vals]. *)
Theorem store_set_get keys vals w w' :
  Forall dom vals → Forall wf vals →
  (∀ p, kp_delim p = delim → Forall (λ k, key_ok p k = true) keys ∧
        ForallOrdPairs (λ k1 k2, keys_diverge p k2 k1 = true) keys) →
  valid w → set b keys vals w = (Ok tt, w') →
  get b keys w' = (Ok vals, w').
Proof. apply set_get. Qed.

(** [set_data] stores nothing: it writes back what it loaded. *)
Theorem store_set_data_noop q w w' p :
  valid w → b_load b true w = (Ok p, w) → set_data b q w = (Ok tt, w') →
  ∃ p', b_load b true w' = (Ok p', w') ∧ kp_data p' = kp_data p.
Proof.
  intros Hv Hload. unfold set_data, st_bind. rewrite Hload.
  destruct (load_wf _ _ _ _ Hv Hload) as (Hp & Hdel & Hd).
  rewrite dump_inv by done. intros [= <-].
  by apply dump_load.
Qed.

End theory.
End Store.
