(* ===== verification/KvStoreFacts.v ===== *)
(** Storing under one-component keys: it always succeeds, and what is stored is
    read back, whole or an attribute at a time. *)
From Stdlib Require Import Ascii.
From S2P Require Import Prelude PyStr PyVal KvPayload KvPayloadFacts KvPayloadKeys KvPayloadSpec KvStore.
Import PyStr PayloadFacts PayloadSpec Store.

Module StoreFacts.

(** A name that is one component of a key. *)
Definition simple (k : string) : bool := no_char ">" k && no_char "[" k.

Lemma set_simple k v items keys :
  simple k = true →
  Payload.set k v (Payload.Payload (VDict items) ">" keys) =
    (Ok tt, Payload.Payload (VDict (dset k v items)) ">" (append_new keys (Some k))).
Proof.
  intros [Hd Hi]%andb_prop. unfold Payload.set, Payload.with_delim. cbn [Payload.kp_delim Payload.kp_data Payload.kp_keys].
  rewrite (split_no_char ">" k Hd). cbn [Payload._set].
  assert (Hk : Payload.key_index k = (k, None)) by (unfold Payload.key_index; by rewrite index_split_plain).
  rewrite Hk. cbn [Payload.bad_index snd fst Payload.slot].
  assert (dset k v (Payload.touch k items) = dset k v items) as ->; [|done].
  unfold Payload.touch. destruct (dget k items); [done|]. apply dset_dset.
Qed.

Lemma set_all_simple its : ∀ items keys,
  Forall (λ kv, simple kv.1 = true) its →
  st_iter (λ '(k, v), Payload.set k v) its (Payload.Payload (VDict items) ">" keys) =
    (Ok tt, Payload.Payload (VDict (dupdate items its)) ">" (foldl append_new keys (Some <$> its.*1))).
Proof.
  induction its as [|[k v] its IH]; intros items keys; [done|].
  intros [Hk Hits]%Forall_cons. cbn [st_iter]. unfold st_bind. rewrite set_simple by done. by apply IH.
Qed.

(** A one-component key that [get] accepts. *)
Definition fair (id : string) : bool := simple id && negb (blank id).

Lemma fair_simple id : fair id = true → simple id = true.
Proof. by intros [? _]%andb_prop. Qed.

Lemma fair_ok id : fair id = true → accepted id = true.
Proof.
  intros [[_ Hi]%andb_prop Hb]%andb_prop. unfold accepted, Payload.key_index.
  rewrite index_split_plain by done. cbn [fst snd]. by rewrite Hb.
Qed.

Section one.
Context {W : Type} (b : Store.backend W) (dom : value → Prop) (valid : W → Prop).
Context {BL : Store.BackendLaws b ">" dom valid}.

Definition readable (w : W) : Prop := ∃ p, Store.b_load b true w = (Ok p, w).

Lemma set_one id v w :
  fair id = true → valid w → readable w → dom v → wf v →
  ∃ w', Store.set b [id] [v] w = (Ok tt, w') ∧ valid w' ∧ readable w' ∧ Store.get b [id] w' = (Ok [v], w').
Proof.
  intros Hid Hv [p0 Hload] Hdv Hwv.
  destruct (Store.load_wf _ _ _ _ Hv Hload) as ([Hwf Hdict Hsep] & Hdel & Hdom).
  assert (Hset : ∃ p', Payload.set id v p0 = (Ok tt, p') ∧ p' = step (OpSet id v) p0).
  { destruct p0 as [data dl keys]. cbn in Hdel, Hdict. subst dl. destruct data as [| | | | | |items]; try done.
    cbn [step]. rewrite set_simple by (by apply fair_simple). eauto. }
  destruct Hset as (p' & Hset & Hstep).
  assert (Hwf' : wf_payload p').
  { subst p'. apply wf_step; [done|]. by intros k u [= <- <-]. }
  assert (Hdom' : dom (Payload.kp_data p')).
  { subst p'. apply (Store.dom_step (b:=b)); [done..|]. by intros k u [= <- <-]. }
  assert (Hdel' : Payload.kp_delim p' = ">").
  { rewrite <- Hdel. destruct Hsep as [d Hd]. apply (PayloadSpec.set_data p0 id v d) in Hd.
    rewrite Hset in Hd. apply Hd. }
  destruct (Store.dump_ok p' w Hwf' Hdom') as [_ Hv'].
  destruct (Store.dump_load p' w Hwf' Hdel' Hdom') as (p2 & Hload' & _).
  assert (Hrun : Store.set b [id] [v] w = (Ok tt, (Store.b_dump b p' w).2)).
  { unfold Store.set, Store.load_modify_dump, st_bind. rewrite decide_False by (intros Hlen; by apply Hlen).
    rewrite Hload. cbn [zip zip_with st_iter]. unfold st_bind. rewrite Hset. cbn [st_ret].
    by apply (Store.dump_inv b ">" dom valid). }
  exists (Store.b_dump b p' w).2. split; [exact Hrun|]. split_and!; [done|by eexists|].
  apply (Store.set_get b ">" dom valid [id] [v] w).
  - by repeat constructor.
  - by repeat constructor.
  - intros q Hq. unfold key_ok, keys_diverge, Payload.with_delim. rewrite Hq.
    split; [|repeat constructor]. constructor; [|done]. apply fair_simple in Hid as Hs.
    apply andb_prop in Hs as [Hs _]. cbn [forallb]. rewrite (split_no_char ">" id Hs). cbn.
    by rewrite fair_ok.
  - done.
  - exact Hrun.
Qed.

Lemma key_index_simple k : simple k = true → Payload.key_index k = (k, None).
Proof. intros [_ Hi]%andb_prop. unfold Payload.key_index. by rewrite index_split_plain. Qed.

(** What is stored is well formed. *)
Lemma get_one_wf id v w :
  valid w → fair id = true → Store.get b [id] w = (Ok [v], w) → v ≠ VNull →
  wf v ∧ ∃ p items, Store.b_load b true w = (Ok p, w) ∧ Payload.kp_data p = VDict items ∧
    Payload.kp_delim p = ">" ∧ dget id items = Some v.
Proof.
  intros Hv Hid Hg Hn. unfold Store.get, st_bind in Hg. pose proof (Store.load_inv b ">" dom valid true w) as Hl.
  destruct (Store.b_load b true w) as [[p|e] w0] eqn:Hload; [|done]. cbn [fst] in Hl. injection Hl as ->.
  destruct (Store.load_wf _ _ _ _ Hv Hload) as ([Hwf Hdict _] & Hdel & _).
  unfold st_lift in Hg. injection Hg as Hg. cbn [res_map] in Hg.
  destruct p as [data dl keys]. cbn in Hdel, Hdict, Hwf. subst dl. destruct data as [| | | | | |items]; try done.
  unfold Payload.get, Payload.with_delim in Hg. cbn [Payload.kp_delim Payload.kp_data] in Hg.
  apply fair_simple in Hid as Hs. apply andb_prop in Hs as [Hs _].
  rewrite (split_no_char ">" id Hs) in Hg. cbn [Payload._get] in Hg.
  rewrite (key_index_simple id (fair_simple _ Hid)) in Hg.
  apply andb_prop in Hid as [_ Hb]. apply negb_true_iff in Hb. rewrite Hb in Hg. cbn in Hg. injection Hg as Hg.
  destruct (dget id items) as [x|] eqn:Hx; cbn in Hg; [|by subst]. change (Datatypes.id x) with x in Hg. subst x.
  split; [by eapply wf_dget|]. by exists (Payload.Payload (VDict items) ">" keys), items.
Qed.

(** An attribute of a stored object. *)
Lemma get_attr id attr items w :
  valid w → fair id = true → fair attr = true → Store.get b [id] w = (Ok [VDict items], w) →
  Store.get b [id +:+ ">" +:+ attr] w = (Ok [default VNull (dget attr items)], w).
Proof.
  intros Hv Hid Ha Hg. destruct (get_one_wf id (VDict items) w Hv Hid Hg) as (_ & p & its & Hload & Hd & Hdel & Hx); [done|].
  unfold Store.get, st_bind. rewrite Hload. unfold st_lift. cbn [res_map]. do 2 f_equal.
  destruct p as [data dl keys]. cbn in Hd, Hdel. subst. unfold Payload.get, Payload.with_delim.
  cbn [Payload.kp_delim Payload.kp_data].
  apply fair_simple in Hid as Hs1. apply fair_simple in Ha as Hs2.
  apply andb_prop in Hs1 as [Hs1 _]. apply andb_prop in Hs2 as [Hs2 _].
  assert (Hsp : split ">" (id +:+ ">" +:+ attr) = [id; attr]).
  { change (id +:+ ">" +:+ attr) with (id +:+ String ">" attr). rewrite (split_app ">" id attr Hs1). by rewrite (split_no_char ">" attr Hs2). }
  rewrite Hsp. cbn [Payload._get].
  rewrite (key_index_simple id (fair_simple _ Hid)), (key_index_simple attr (fair_simple _ Ha)).
  apply andb_prop in Hid as [_ Hb1]. apply negb_true_iff in Hb1.
  apply andb_prop in Ha as [_ Hb2]. apply negb_true_iff in Hb2. rewrite Hb1, Hx, Hb2. done.
Qed.

End one.

End StoreFacts.
