(* ===== verification/KvFiles.v ===== *)
(** [utils/kv_store/kv_store_collection.py]: the JSON, YAML, TOML and
    properties file stores and the in-memory [DictKvStore], as backends of
    [KvStore].

    The world is the file system, a map from paths to file contents.  The
    document formats are a parameter ([Format]): a printer, a parser, and the
    scalars the format represents; [FormatLaws] is the documented round trip.
    The properties format is the repository's own and is modelled to the
    character. *)
From Stdlib Require Import Ascii.
From stdpp Require Import countable.
From S2P Require Import Prelude PyStr PyVal KvPayload KvPayloadFacts KvPayloadKeys KvPayloadSpec KvStore.
Import PyStr PayloadFacts PayloadSpec Store.

Module Files.

Notation files := (gmap string string).

(** ** Document formats *)

Class Format := {
  dumps : value → string;          (* json.dump(data, f), yaml.dump(data, f) *)
  loads : string → option value;   (* None: the parser raises *)
  scal : value → bool              (* the scalars that are printed and parsed back *)
}.

Class FormatLaws (F : Format) : Prop := {
  loads_dumps : ∀ v, wf v → is_dict v = true → all_scalars scal v = true → loads (dumps v) = Some v;
  loads_wf : ∀ s v, loads s = Some v → wf v ∧ all_scalars scal v = true;
  scal_str : ∀ s, scal (VStr s) = true;
  scal_int : ∀ z, scal (VInt z) = true
}.

Section stores.
Context {F : Format}.

(** [open(path, 'r')] *)
Definition read_file (path : string) : ST files string := λ fs,
  match fs !! path with
  | Some s => (Ok s, fs)
  | None => (Err (OSError ENOENT), fs)
  end.

(** [open(path, 'w')], [f.write(s)] *)
Definition write_file (path s : string) : ST files unit := λ fs, (Ok tt, <[path := s]> fs).

(** [JsonKvStore.__init__], [load], [dump] *)
Definition json_init (path : string) : ST files unit := λ fs,
  match fs !! path with
  | Some _ => (Ok tt, fs)
  | None => write_file path (dumps (VDict [])) fs
  end.

Definition json_load (path delim : string) (recurse : bool) : ST files payload :=
  let! s := read_file path in
  match loads s with
  | Some data => st_lift (Payload.init data delim recurse)
  | None => st_raise (KvError EINVAL)
  end.

Definition json_dump (path : string) (data : payload) : ST files unit :=
  write_file path (dumps (Payload.get_data data)).

Definition json_store (path delim : string) : backend files :=
  Backend (json_load path delim) (json_dump path).

(** [YamlKvStore]: a missing file is created empty. *)
Definition yaml_init (path : string) : ST files unit := λ fs,
  match fs !! path with
  | Some _ => (Ok tt, fs)
  | None => write_file path "" fs
  end.

Definition yaml_load (path delim : string) (recurse : bool) : ST files payload :=
  let! s := read_file path in
  match loads s with
  | Some data => st_lift (Payload.init data delim recurse)
  | None => st_raise (KvError EINVAL)
  end.

Definition yaml_dump (path : string) (data : payload) : ST files unit :=
  write_file path (dumps (Payload.get_data data)).

Definition yaml_store (path delim : string) : backend files :=
  Backend (yaml_load path delim) (yaml_dump path).

(** [TomlKvStore] *)
Definition toml_init (path : string) : ST files unit := λ fs,
  match fs !! path with
  | Some _ => (Ok tt, fs)
  | None => write_file path "" fs
  end.

Definition toml_load (path delim : string) (recurse : bool) : ST files payload :=
  let! s := read_file path in
  match loads s with
  | Some data => st_lift (Payload.init data delim recurse)
  | None => st_raise (KvError EINVAL)
  end.

Definition toml_dump (path : string) (data : payload) : ST files unit :=
  write_file path (dumps (Payload.get_data data)).

Definition toml_store (path delim : string) : backend files :=
  Backend (toml_load path delim) (toml_dump path).

(** ** [DictKvStore]: the state is the attribute [_store_path], a JSON text
    until the first [dump] and a dictionary afterwards. *)
Inductive dict_path :=
| PText (s : string)
| PData (v : value).

(** [json.loads] raises [TypeError] on anything but text. *)
Definition dict_load (delim : string) (recurse : bool) : ST dict_path payload := λ st,
  match st with
  | PText s =>
      match loads s with
      | Some data => (Payload.init data delim recurse, st)
      | None => (Err (KvError EINVAL), st)
      end
  | PData _ => (Err TypeError, st)
  end.

Definition dict_dump (data : payload) : ST dict_path unit := λ st,
  (Ok tt, PData (Payload.get_data data)).

Definition dict_store (delim : string) : backend dict_path :=
  Backend (dict_load delim) dict_dump.

End stores.

(** ** [PropertiesKvStore] *)

Section properties.
(** [str(val)] of floats, lists and dictionaries. *)
Context (repr : value → string).

Definition dec_Z (z : Z) : string :=
  if (z <? 0)%Z then "-" +:+ dec (Z.to_nat (- z)) else dec (Z.to_nat z).

Definition py_str (v : value) : string :=
  match v with
  | VNull => "None"
  | VBool true => "True"
  | VBool false => "False"
  | VInt z => dec_Z z
  | VStr s => s
  | _ => repr v
  end.

Definition nl : ascii := "010"%char.
Definition cr : ascii := "013"%char.

(** Text mode reads translate line ends. *)
Fixpoint universal_newlines (s : string) : string :=
  match s with
  | EmptyString => EmptyString
  | String c s' =>
      if Ascii.eqb c cr then
        match s' with
        | String c' s'' =>
            if Ascii.eqb c' nl then String nl (universal_newlines s'')
            else String nl (universal_newlines s')
        | EmptyString => String nl EmptyString
        end
      else String c (universal_newlines s')
  end.

(** One line of the file. *)
Definition prop_line (data : list (string * value)) (line : string) : res (list (string * value)) :=
  let line := strip line in
  match line with
  | EmptyString => Ok data
  | String c _ =>
      if Ascii.eqb c "#" then Ok data
      else match split1 "=" line with
           | (key, Some val) => Ok (dset (strip key) (VStr (strip val)) data)
           | (_, None) => Err (KvError ENOENT)
           end
  end.

Fixpoint prop_lines (data : list (string * value)) (lines : list string)
    : res (list (string * value)) :=
  match lines with
  | [] => Ok data
  | line :: lines' => data' ← prop_line data line; prop_lines data' lines'
  end.

Definition prop_load (path delim : string) (recurse : bool) : ST files payload :=
  let! s := read_file path in
  match prop_lines [] (split nl (universal_newlines s)) with
  | Ok data => st_lift (Payload.init (VDict data) delim true)
  | Err e => st_raise e
  end.

(** ["%s = %s\n" % (key, val)] for every item. *)
Definition prop_text (items : list (string * value)) : string :=
  foldr (λ kv s, kv.1 +:+ " = " +:+ py_str kv.2 +:+ sep nl +:+ s) "" items.

Definition prop_dump (path : string) (data : payload) : ST files unit :=
  match Payload.get_data data with
  | VDict items => write_file path (prop_text items)
  | _ => write_file path "" ;;; st_raise AttributeError
  end.

Definition prop_store (path delim : string) : backend files :=
  Backend (prop_load path delim) (prop_dump path).

End properties.

End Files.
