(* ===== verification/KvFilesFacts.v ===== *)
(** The file stores implement the backend interface; the properties format
    round trips; a concrete document format, and executions. *)
From Stdlib Require Import Ascii.
From stdpp Require Import countable.
From S2P Require Import Prelude PyStr PyVal KvPayload KvPayloadFacts KvPayloadKeys KvPayloadSpec KvStore KvFiles.
Import PyStr PayloadFacts PayloadKeys PayloadSpec Store Files.

Module FilesFacts.

(** ** JSON and YAML files are lawful backends *)

Section laws.
Context {F : Format} {HF : FormatLaws F}.
Context (path : string) (d : ascii).

Definition doc_dom (v : value) : Prop := all_scalars scal v = true.

(** The file, if it is there and parses, holds a dictionary or nothing. *)
Definition doc_valid (fs : files) : Prop :=
  ∀ s v, fs !! path = Some s → loads s = Some v → is_dict v = true ∨ v = VNull.

Lemma add_num_scalars v : all_scalars scal v = true → all_scalars scal (Payload._add_num_keys v) = true.
Proof.
  induction v as [| | | | |l IH|items IH] using value_nested_ind; try done.
  - simpl. rewrite forallb_map, !forallb_forall. intros Hl x Hx.
    rewrite Forall_forall in IH. apply IH; [by apply list_elem_of_In|]. by apply Hl.
  - intros Hi. cbn [Payload._add_num_keys].
    assert (Hn : ∀ k v, (k, v) ∈ Payload.num_keys items → all_scalars scal v = true).
    { intros k v (n & l & _ & _ & ->)%num_keys_elem. apply scal_int. }
    unfold dupdate. apply (foldl_inv (λ d, all_scalars scal (VDict d) = true)).
    + intros d0 [k v] Hin Hd. apply scalars_dset; [apply scal_str|by eapply Hn|done].
    + simpl in *. rewrite forallb_map, forallb_forall in *. intros [k v] Hin. rewrite Forall_forall in IH.
      apply (IH (k, v)); [by apply list_elem_of_In|]. apply (Hi _ Hin).
Qed.

Lemma dom_step_doc o p :
  doc_dom (kp_data p) → (∀ k v, o = OpSet k v → doc_dom v) → wf_payload p → doc_dom (kp_data (step o p)).
Proof.
  intros Hd Hv [_ _ [c Hc]]. destruct o as [k v|k f|]; simpl.
  - destruct (PayloadSpec.set_data p k v c Hc) as (-> & _). apply set_scalars; [apply scal_str| |done].
    by eapply Hv.
  - destruct (delete_data p k f c Hc) as (-> & _). by apply delete_scalars; [apply scal_str|].
  - by apply add_num_scalars.
Qed.

Lemma init_wf v r p :
  wf v → all_scalars scal v = true → is_dict v = true ∨ v = VNull →
  Payload.init v (sep d) r = Ok p → wf_payload p ∧ kp_delim p = sep d ∧ doc_dom (kp_data p).
Proof.
  intros Hwf Hs Hd. unfold Payload.init. rewrite decide_False by (simpl; lia).
  assert (H : let v' := if is_null v then VDict [] else v in
     wf v' ∧ is_dict v' = true ∧ all_scalars scal v' = true).
  { destruct Hd as [Hd| ->]; [by destruct v|]. repeat split; [repeat constructor|done..]. }
  destruct H as (? & ? & ?). destruct r.
  - intros [= <-]. split; [|done]. constructor; simpl; eauto.
  - destruct (Payload._shallow_get_keys _ _ _ _ _); [|done]. intros [= <-].
    split; [|done]. constructor; simpl; eauto.
Qed.

Lemma json_laws : BackendLaws (json_store path (sep d)) (sep d) doc_dom doc_valid.
Proof.
  constructor; simpl.
  - intros r fs. unfold json_load, st_bind, read_file. destruct (fs !! path); [|done].
    by destruct (loads s).
  - intros r fs p fs' Hv. unfold json_load, st_bind, read_file.
    destruct (fs !! path) as [s|] eqn:Hs; [|done]. destruct (loads s) as [v|] eqn:Hl; [|done].
    unfold st_lift. intros [= Hi <-]. destruct (loads_wf _ _ Hl).
    by eapply init_wf, Hi; [..|eapply Hv].
  - intros p fs [Hwf Hdict _] Hd. split; [done|]. intros s v. simpl. rewrite lookup_insert_eq.
    intros [= <-]. unfold Payload.get_data. rewrite loads_dumps by done. intros [= <-]. by left.
  - intros p fs [Hwf Hdict _] Hdel Hd. unfold json_dump, json_load, write_file, st_bind, read_file. simpl.
    rewrite lookup_insert_eq. unfold Payload.get_data. rewrite loads_dumps by done.
    unfold st_lift, Payload.init. rewrite decide_False by (simpl; lia).
    eexists. split; [done|]. simpl. by destruct (kp_data p).
  - intros. by apply dom_step_doc.
Qed.

Lemma yaml_laws : BackendLaws (yaml_store path (sep d)) (sep d) doc_dom doc_valid.
Proof. exact json_laws. Qed.

End laws.

(** ** The properties format *)

Definition trimmed (s : string) : bool := bool_decide (strip s = s).

(** Keys and values the format can hold. *)
Definition prop_key (k : string) : bool :=
  trimmed k && negb (bool_decide (k = "")) && no_char "=" k && no_char nl k && no_char cr k &&
  match k with String c _ => negb (Ascii.eqb c "#") | EmptyString => false end.
Definition prop_val (s : string) : bool := trimmed s && no_char nl s && no_char cr s.

Lemma lstrip_length s : String.length (lstrip s) ≤ String.length s.
Proof. induction s as [|c s IH]; simpl; [done|]. destruct (is_space c); simpl; lia. Qed.

Lemma rstrip_length s : String.length (rstrip s) ≤ String.length s.
Proof.
  induction s as [|c s IH]; simpl; [done|].
  destruct (rstrip s); [destruct (is_space c); simpl; lia|simpl in *; lia].
Qed.

Lemma trimmed_parts s : strip s = s → lstrip s = s ∧ rstrip s = s.
Proof.
  unfold strip. intros Hs. assert (Hl : lstrip s = s); [|by rewrite Hl in Hs].
  destruct s as [|c s]; [done|]. simpl in *. destruct (is_space c); [|done].
  pose proof (f_equal String.length Hs) as Hlen. simpl in Hlen.
  pose proof (lstrip_length s). pose proof (rstrip_length (lstrip s)). lia.
Qed.

Lemma lstrip_head c s t : lstrip (String c s) = String c s → lstrip (String c s +:+ t) = String c s +:+ t.
Proof.
  simpl. destruct (is_space c); [|done]. intros H.
  pose proof (f_equal String.length H) as Hlen. simpl in Hlen. pose proof (lstrip_length s). lia.
Qed.

Lemma rstrip_app s t : rstrip t ≠ "" → rstrip (s +:+ t) = s +:+ rstrip t.
Proof.
  intros Ht. induction s as [|c s IH]; [done|]. simpl. rewrite IH.
  destruct (s +:+ rstrip t) eqn:He; [|done]. by destruct s, (rstrip t).
Qed.

Lemma rstrip_spaces s t : blank t = true → rstrip (s +:+ t) = rstrip s.
Proof.
  intros Ht. assert (Hr : rstrip t = "").
  { induction t as [|c t IH]; [done|]. simpl in Ht. apply andb_prop in Ht as [Hc Ht].
    simpl. by rewrite IH, Hc. }
  induction s as [|c s IH]; [done|]. simpl. by rewrite IH.
Qed.

Lemma prop_key_parts k :
  prop_key k = true →
  k ≠ "" ∧ lstrip k = k ∧ rstrip k = k ∧ no_char "=" k = true ∧ no_char nl k = true ∧
  no_char cr k = true ∧ ∃ c s, k = String c s ∧ Ascii.eqb c "#" = false.
Proof.
  unfold prop_key, trimmed. rewrite !andb_true_iff, negb_true_iff, bool_decide_eq_true, bool_decide_eq_false.
  intros (((((Ht & Hne) & ?) & ?) & ?) & Hc). apply trimmed_parts in Ht as [? ?].
  destruct k as [|c k]; [done|]. apply negb_true_iff in Hc. eauto 10.
Qed.

Lemma split1_app d s t : no_char d s = true → split1 d (s +:+ String d t) = (s, Some t).
Proof.
  induction s as [|c s IH]; [simpl; by rewrite Ascii.eqb_refl|].
  intros [Hc Hs]%no_char_cons. simpl. apply Ascii.eqb_neq in Hc as ->. by rewrite IH.
Qed.

(** A written line is read back as the item it was written for. *)
Lemma prop_line_item data k v :
  prop_key k = true → prop_val v = true →
  prop_line data (k +:+ " = " +:+ v) = Ok (dset k (VStr v) data).
Proof.
  intros Hk Hv. apply prop_key_parts in Hk as (Hne & Hl & Hr & Heq & _ & _ & c & s & Hks & Hc).
  unfold prop_val, trimmed in Hv. rewrite !andb_true_iff, bool_decide_eq_true in Hv.
  destruct Hv as [[Hv _] _]. pose proof (trimmed_parts _ Hv) as [Hvl Hvr].
  assert (Hkey : strip (k +:+ " ") = k).
  { unfold strip. rewrite Hks in *. rewrite lstrip_head by done. by rewrite rstrip_spaces, Hr. }
  assert (Hl' : ∀ t, lstrip (k +:+ t) = k +:+ t) by (intros; rewrite Hks in *; by apply lstrip_head).
  assert (Hsplit : ∀ t, split1 "=" (k +:+ " =" +:+ t) = (k +:+ " ", Some t)).
  { intros t. rewrite <- (split1_app "=" (k +:+ " ")); [by rewrite sapp_assoc|].
    apply no_char_app. by split. }
  assert (Hline : strip (k +:+ " = " +:+ v) = k +:+ " =" +:+ (if decide (v = "") then "" else " " +:+ v)).
  { unfold strip. rewrite Hl'. case_decide as Hv0.
    - subst v. by rewrite rstrip_app.
    - rewrite <- sapp_assoc, rstrip_app by (by rewrite Hvr). by rewrite Hvr, sapp_assoc. }
  unfold prop_line. rewrite Hline.
  destruct (k +:+ " =" +:+ _) as [|c' s'] eqn:Hc'; [by subst k|].
  assert (c' = c) as -> by (subst k; by injection Hc'). rewrite Hc, <- Hc', Hsplit, Hkey.
  case_decide as Hv0; [by subst v|]. do 3 f_equal.
  unfold strip. simpl. unfold strip in Hv. by rewrite Hvl, Hvr.
Qed.

Lemma universal_newlines_id s : no_char cr s = true → universal_newlines s = s.
Proof.
  induction s as [|c s IH]; [done|]. intros [Hc Hs]%no_char_cons. simpl.
  apply Ascii.eqb_neq in Hc as ->. by rewrite IH.
Qed.

Definition prop_items (items : list (string * value)) : Prop :=
  Forall (λ kv, prop_key kv.1 = true ∧ ∃ s, kv.2 = VStr s ∧ prop_val s = true) items.

Lemma prop_text_lines repr items :
  prop_items items →
  no_char cr (prop_text repr items) = true ∧
  split nl (prop_text repr items) = map (λ kv, kv.1 +:+ " = " +:+ py_str repr kv.2) items ++ [""].
Proof.
  intros Hi. induction Hi as [|[k v] items [Hk (s & Hs & Hv)] Hi [IHc IHs]]; [done|].
  simpl in Hs. subst v. simpl in Hk. apply prop_key_parts in Hk as (_ & _ & _ & _ & Hkn & Hkc & _).
  unfold prop_val in Hv. rewrite !andb_true_iff in Hv. destruct Hv as [[_ Hvn] Hvc].
  cbn [prop_text foldr map fst snd py_str app]. fold (prop_text repr items).
  split.
  - rewrite !no_char_app. done.
  - change (sep nl +:+ prop_text repr items) with (String nl (prop_text repr items)).
    rewrite <- (sapp_assoc " = "), <- sapp_assoc, split_app, IHs; [done|].
    rewrite !no_char_app. done.
Qed.

Lemma prop_lines_app data l1 l2 :
  prop_lines data (l1 ++ l2) = (d' ← prop_lines data l1; prop_lines d' l2).
Proof.
  revert data. induction l1 as [|x l1 IH]; intros data; [done|]. simpl.
  destruct (prop_line data x); [apply IH|done].
Qed.

Lemma prop_lines_items repr data items :
  prop_items items → NoDup (dkeys (data ++ items)) →
  prop_lines data (map (λ kv, kv.1 +:+ " = " +:+ py_str repr kv.2) items) = Ok (data ++ items).
Proof.
  intros Hi. revert data. induction Hi as [|[k v] items [Hk (s & Hs & Hv)] Hi IH]; intros data Hnd.
  { by rewrite app_nil_r. }
  simpl in Hk, Hs. subst v. cbn [map prop_lines fst snd py_str]. rewrite prop_line_item by done. simpl.
  rewrite dset_fresh.
  - rewrite IH; by rewrite <- app_assoc.
  - unfold dkeys in *. rewrite fmap_app, fmap_cons in Hnd. apply NoDup_app in Hnd as (_ & Hd & _).
    intros Hin. apply (Hd k Hin). set_solver.
Qed.

(** Round trip of the properties format: a payload of string values
    whose keys and values hold no line break, no surrounding blanks, and (the
    keys) no [=] and no leading [#], is loaded back exactly as it was dumped,
    item for item and in order. *)
Theorem properties_roundtrip repr path d items fs p r :
  kp_data p = VDict items → NoDup (dkeys items) → prop_items items →
  let '(res, fs') := prop_dump repr path p fs in
  res = Ok tt ∧ ∃ p', prop_load path (sep d) r fs' = (Ok p', fs') ∧ kp_data p' = VDict items.
Proof.
  intros Hp Hnd Hi. unfold prop_dump, Payload.get_data. rewrite Hp. unfold write_file.
  split; [done|]. unfold prop_load, st_bind, read_file. rewrite lookup_insert_eq.
  destruct (prop_text_lines repr items Hi) as [Hcr Hsp].
  rewrite universal_newlines_id, Hsp by done.
  rewrite prop_lines_app, prop_lines_items by done. simpl.
  unfold st_lift, Payload.init. simpl. eauto.
Qed.

(** A [DictKvStore] can be read until it is written: after [dump] its
    [_store_path] is the dictionary itself, and every [load] raises
    [TypeError]. *)
Theorem dict_store_dump_breaks_load {F : Format} delim p st r :
  let st' := (b_dump (dict_store delim) p st).2 in
  (b_dump (dict_store delim) p st).1 = Ok tt ∧ b_load (dict_store delim) r st' = (Err TypeError, st').
Proof. done. Qed.

End FilesFacts.
