(* ===== verification/KvCodec.v ===== *)
(** A concrete document format, and executions of the file stores over it:
    the hypotheses of the store theorems are satisfiable.

    The format prints a document as the binary digits of its encoding as a
    tree.  It stands for any printer and parser that round trip. *)
From Stdlib Require Import Ascii.
From stdpp Require Import countable.
From S2P Require Import Prelude PyStr PyVal KvPayload KvPayloadFacts KvPayloadKeys KvPayloadSpec KvStore KvFiles KvFilesFacts.
Import PyStr PayloadFacts PayloadKeys PayloadSpec Store Files FilesFacts.

Module Codec.

Notation leaf := (option (bool + Z + (Z * Z) + string)).

Fixpoint to_tree (v : value) : gen_tree leaf :=
  match v with
  | VNull => GenLeaf None
  | VBool b => GenLeaf (Some (inl (inl (inl b))))
  | VInt z => GenLeaf (Some (inl (inl (inr z))))
  | VFloat m e => GenLeaf (Some (inl (inr (m, e))))
  | VStr s => GenLeaf (Some (inr s))
  | VList l => GenNode 0 (map to_tree l)
  | VDict d => GenNode 1 (map (λ kv, GenNode 2 [GenLeaf (Some (inr kv.1)); to_tree kv.2]) d)
  end.

Fixpoint of_tree (t : gen_tree leaf) : value :=
  match t with
  | GenLeaf None => VNull
  | GenLeaf (Some (inl (inl (inl b)))) => VBool b
  | GenLeaf (Some (inl (inl (inr z)))) => VInt z
  | GenLeaf (Some (inl (inr (m, e)))) => VFloat m e
  | GenLeaf (Some (inr s)) => VStr s
  | GenNode 0 l => VList (map of_tree l)
  | GenNode _ l =>
      VDict (map (λ t, match t with
                       | GenNode _ [GenLeaf (Some (inr k)); x] => (k, of_tree x)
                       | _ => ("", VNull)
                       end) l)
  end.

Lemma of_to_tree v : of_tree (to_tree v) = v.
Proof.
  induction v as [| | | | |l IH|d IH] using value_nested_ind; try done; simpl; f_equal.
  - induction IH as [|x l Hx Hl IHl]; [done|]. simpl. by rewrite Hx, IHl.
  - induction IH as [|[k x] d Hx Hd IHd]; [done|]. simpl in *. by rewrite Hx, IHd.
Qed.

Fixpoint bits (p : positive) : string :=
  match p with
  | xH => EmptyString
  | xO p => String "0" (bits p)
  | xI p => String "1" (bits p)
  end.

Fixpoint of_bits (s : string) : option positive :=
  match s with
  | EmptyString => Some xH
  | String c s =>
      if Ascii.eqb c "0" then xO <$> of_bits s
      else if Ascii.eqb c "1" then xI <$> of_bits s
      else None
  end.

Lemma of_bits_bits p : of_bits (bits p) = Some p.
Proof. induction p as [p IH|p IH|]; simpl; [by rewrite IH..|done]. Qed.

(** No dictionary has a repeated key. *)
Fixpoint wfb (v : value) : bool :=
  match v with
  | VList l => forallb wfb l
  | VDict d => bool_decide (NoDup (dkeys d)) && forallb (λ kv, wfb kv.2) d
  | _ => true
  end.

Lemma wfb_wf v : wfb v = true ↔ wf v.
Proof.
  induction v as [| | | | |l IH|d IH] using value_nested_ind; simpl; try by (split; [constructor|done]).
  - rewrite forallb_forall. rewrite Forall_forall in IH. split.
    + intros Hl. constructor. apply Forall_forall. intros x Hx. apply IH; [done|].
      by apply Hl, list_elem_of_In.
    + intros Hl x Hx%list_elem_of_In. inv Hl. rename select (Forall _ _) into Hl. rewrite Forall_forall in Hl. apply IH; auto.
  - rewrite andb_true_iff, bool_decide_eq_true, forallb_forall. rewrite Forall_forall in IH. split.
    + intros [? Hl]. constructor; [done|]. apply Forall_forall. intros x Hx. apply IH; [done|].
      by apply Hl, list_elem_of_In.
    + intros Hl. inv Hl. rename select (Forall _ _) into Hl. rewrite Forall_forall in Hl.
      split; [done|]. intros x Hx%list_elem_of_In. apply IH; auto.
Qed.

#[global] Instance binary : Format := {
  dumps v := bits (encode (to_tree v));
  loads s :=
    match of_bits s with
    | Some p =>
        match decode p with
        | Some t => if wfb (of_tree t) then Some (of_tree t) else None
        | None => None
        end
    | None => None
    end;
  scal _ := true
}.

Lemma all_scalars_true v : all_scalars (λ _, true) v = true.
Proof.
  induction v as [| | | | |l IH|d IH] using value_nested_ind; try done; simpl; apply forallb_forall;
    rewrite Forall_forall in IH.
  - intros x Hx%list_elem_of_In. auto.
  - intros [k x] Hx%list_elem_of_In. by apply (IH _ Hx).
Qed.

#[global] Instance binary_laws : FormatLaws binary.
Proof.
  constructor; simpl; try done.
  - intros v Hv%wfb_wf _ _. by rewrite of_bits_bits, decode_encode, of_to_tree, Hv.
  - intros s v. destruct (of_bits s); [|done]. destruct (decode _); [|done].
    destruct (wfb _) eqn:Hw; [|done]. intros [= <-]. apply wfb_wf in Hw.
    split; [done|apply all_scalars_true].
Qed.

(** ** Executions *)

Notation conf := (json_store "/etc/conf" ">").
Definition no_files : files := ∅.
Definition one_file : files := <["/etc/conf" := dumps (kp_data sample)]> ∅.

#[global] Instance conf_laws : BackendLaws conf ">" (doc_dom (F:=binary)) (doc_valid "/etc/conf").
Proof. apply (json_laws "/etc/conf" ">"%char). Qed.

Lemma one_file_valid : doc_valid "/etc/conf" one_file.
Proof.
  intros s v. unfold one_file. rewrite lookup_insert_eq. intros Hs%(inj Some) Hl. rewrite <- Hs in Hl.
  rewrite loads_dumps in Hl; [injection Hl as <-; by left|apply sample_wf|done|apply all_scalars_true].
Qed.

(** The second of the two keys is refused after the first was set. *)
Lemma store_update_atomic_witness :
  set conf ["a"; "[0]"] [VInt 1; VInt 2] one_file = (Err (KvError EINVAL), one_file) ∧
  (one_file = one_file ∨
   ∃ p p', b_load conf true one_file = (Ok p, one_file) ∧
     st_iter (λ '(key, val), Payload.set key val) (zip ["a"; "[0]"] [VInt 1; VInt 2]) p = (Ok tt, p') ∧
     b_dump conf p' one_file = (Err (KvError EINVAL), one_file)).
Proof.
  assert (H : set conf ["a"; "[0]"] [VInt 1; VInt 2] one_file = (Err (KvError EINVAL), one_file))
    by (vm_compute; reflexivity).
  split; [exact H|].
  pose proof (store_update_atomic conf (set conf ["a"; "[0]"] [VInt 1; VInt 2])
    (st_iter (λ '(key, val), Payload.set key val) (zip ["a"; "[0]"] [VInt 1; VInt 2])) one_file) as Hs.
  rewrite H in Hs. apply Hs; [apply load_pure|by constructor].
Defined.

Definition after_set : files := (set conf ["x>y"; "z"] [VInt 1; VStr "v"] one_file).2.

Lemma store_set_get_witness :
  set conf ["x>y"; "z"] [VInt 1; VStr "v"] one_file = (Ok tt, after_set) ∧
  get conf ["x>y"; "z"] after_set = (Ok [VInt 1; VStr "v"], after_set).
Proof.
  assert (H : set conf ["x>y"; "z"] [VInt 1; VStr "v"] one_file = (Ok tt, after_set))
    by (vm_compute; reflexivity).
  split; [exact H|].
  apply (store_set_get conf ">" doc_dom (doc_valid "/etc/conf") ["x>y"; "z"] [VInt 1; VStr "v"] one_file).
  - repeat constructor.
  - repeat constructor.
  - intros p Hp. unfold key_ok, keys_diverge, Payload.with_delim. rewrite Hp.
    split; repeat constructor.
  - apply one_file_valid.
  - exact H.
Defined.

Definition sample_payload : payload :=
  match (b_load conf true one_file).1 with Ok p => p | Err _ => Payload.Payload VNull "" [] end.
Definition after_set_data : files := (set_data conf sample_payload one_file).2.

Lemma store_set_data_noop_witness :
  set_data conf sample_payload one_file = (Ok tt, after_set_data) ∧
  ∃ p', b_load conf true after_set_data = (Ok p', after_set_data) ∧ kp_data p' = kp_data sample_payload.
Proof.
  assert (H : set_data conf sample_payload one_file = (Ok tt, after_set_data)) by (vm_compute; reflexivity).
  split; [exact H|].
  apply (store_set_data_noop conf ">" doc_dom (doc_valid "/etc/conf") sample_payload one_file).
  - apply one_file_valid.
  - vm_compute; reflexivity.
  - exact H.
Defined.

Lemma get_instance_cached_witness :
  let parse := λ url : string, (url, "", "") in
  let classes := [("json", λ loc path delim : string, st_ret (S:=unit) (loc, path, delim))] in
  let st := ({["json" := ("", "", ">")]}, tt) in
  get_instance parse classes "json" ">" (∅, tt) = (Ok ("", "", ">"), st) ∧
  get_instance parse classes "json" "." st = (Ok ("", "", ">"), st).
Proof.
  intros parse classes st. split; [reflexivity|].
  apply (get_instance_cached parse classes "json" ">" "." (∅, tt)). reflexivity.
Defined.

Definition prop_sample : list (string * value) := [("host", VStr "srv-1"); ("a b", VStr "x = y"); ("e", VStr "")].

Lemma properties_roundtrip_witness :
  let p := Payload.Payload (VDict prop_sample) ">" [] in
  let '(res, fs') := prop_dump (λ _, "") "/etc/p" p no_files in
  res = Ok tt ∧ ∃ p', prop_load "/etc/p" ">" true fs' = (Ok p', fs') ∧ kp_data p' = VDict prop_sample.
Proof.
  apply (properties_roundtrip (λ _, "") "/etc/p" ">"%char prop_sample no_files
           (Payload.Payload (VDict prop_sample) ">" []) true); [reflexivity| |].
  - apply (bool_decide_unpack _). vm_compute. exact I.
  - repeat constructor; eexists; split; reflexivity.
Defined.

End Codec.
