(* ===== verification/KvConsul.v ===== *)
(** [utils/kv_store/kv_store_collection.py]: [ConsulKvPayload] and
    [ConsulKVStore], a payload whose operations are requests to a Consul
    service, retried by [ExponentialBackoff].

    The service is a parameter ([ConsulApi]); [ApiLaws] states what its
    documentation promises of one client's requests. *)
From Stdlib Require Import Ascii.
From S2P Require Import Prelude PyStr PyVal Backoff KvPayload KvStore KvFiles.
Import PyStr Backoff.

Module KvConsul.

(** ** The service *)

(** A request may raise.  [None] stands for an absent key and [""] for a
    [null] value, both of which the payload reads back as such; a listing of no
    keys is [[]]. *)
Class ConsulApi (W : Type) := {
  api_get : string → ST W (option string);
  api_get_all : ST W (list (string * string));      (* kv.get('', recurse=True) *)
  api_keys : string → ST W (list string);           (* keys=True *)
  api_put : string → string → ST W bool;
  api_delete : string → bool → ST W bool;           (* recurse *)
  api_sleep : Z → ST W unit;
  api_map : W → gmap string string
}.

Class ApiLaws {W} (A : ConsulApi W) : Prop := {
  law_get : ∀ k w r w', api_get k w = (Ok r, w') → r = api_map w !! k;
  law_get_map : ∀ k w, api_map (api_get k w).2 = api_map w;
  law_keys : ∀ p w l w', api_keys p w = (Ok l, w') →
    NoDup l ∧ ∀ k, k ∈ l ↔ is_Some (api_map w !! k) ∧ startswith k p = true;
  law_keys_map : ∀ p w, api_map (api_keys p w).2 = api_map w;
  law_put : ∀ k v w w', api_put k v w = (Ok true, w') → api_map w' = <[k := v]> (api_map w);
  law_put_refused : ∀ k v w w', api_put k v w = (Ok false, w') → api_map w' = api_map w;
  law_put_err : ∀ k v w e w', api_put k v w = (Err e, w') →
    api_map w' = api_map w ∨ api_map w' = <[k := v]> (api_map w);
  law_sleep : ∀ dt w, (api_sleep dt w).1 = Ok tt ∧ api_map (api_sleep dt w).2 = api_map w
}.

(** [@ExponentialBackoff(exception=(ConsulException, HTTPError, RequestException), tries=4)] *)
Definition service_error (e : exn) : bool := match e with ServiceError => true | _ => false end.
Definition four_tries : backoff := ExponentialBackoff service_error 4 1 2 120.

Section payload.
Context {W : Type} {A : ConsulApi W}.
(** [str(val)] of floats and containers *)
Context (repr : value → string).

Definition retry {B} (m : ST W B) : ST W B := wrap api_sleep four_tries m.

(** ** [ConsulKvPayload] *)

Record cpayload := CPayload {
  cp_delim : string;      (* self._delim *)
  cp_path : string;       (* self._store_path *)
  cp_keys : list string   (* self._keys *)
}.

Definition norm_path (store_path : string) : string :=
  if decide (store_path = "") then "" else
  let p := match store_path with
           | String c r => if Ascii.eqb c "/" then r else store_path
           | EmptyString => ""
           end in
  if endswith p "/" then p else p +:+ "/".

(** [key.split(self._store_path)[1]] *)
Definition strip_path (path key : string) : res string :=
  if decide (path = "") then Ok key else
  match after path key with Some rest => Ok (before path rest) | None => Err IndexError end.

Definition get_keys (path starts_with : string) : ST W (list string) := retry (
  let! key_list := api_keys (path +:+ starts_with) in
  st_lift (res_map (strip_path path) key_list)).

Definition init (store_path delim : string) : ST W cpayload :=
  if decide (1 < String.length delim) then st_raise (KvError EINVAL) else
  let path := norm_path store_path in
  let! keys := get_keys path "" in
  st_ret (CPayload delim path keys).

Definition get (p : cpayload) (key : string) : ST W (option string) :=
  retry (api_get (cp_path p +:+ key)).

Definition _set (p : cpayload) (key : string) (val : value) : ST W bool :=
  retry (api_put (cp_path p +:+ key) (Files.py_str repr val)).

Definition _delete (p : cpayload) (key : string) (force : bool) : ST W bool :=
  retry (api_delete (cp_path p +:+ key) force).

(** [KvPayload.set], inherited: the answer of [_set] is not looked at. *)
Definition set (key : string) (val : value) : ST (cpayload * W) unit := λ '(p, w),
  match _set p key val w with
  | (Ok _, w') => (Ok tt, (CPayload (cp_delim p) (cp_path p) (append_new (cp_keys p) key), w'))
  | (Err e, w') => (Err e, (p, w'))
  end.

(** [KvPayload.delete], inherited *)
Definition delete (key : string) (force : bool) : ST (cpayload * W) bool := λ '(p, w),
  match _delete p key force w with
  | (Ok rc, w') =>
      (Ok rc, (if rc then CPayload (cp_delim p) (cp_path p) (Payload.remove_first key (cp_keys p)) else p, w'))
  | (Err e, w') => (Err e, (p, w'))
  end.

(** [get_data]: every key of the service, whatever the store path; listing an
    empty service gives [None], which is not iterable. *)
Definition get_data : ST W (list (string * value)) := retry (
  let! kvs := api_get_all in
  match kvs with
  | [] => st_raise TypeError
  | _ => st_ret (foldl (λ d kv, dset kv.1 (VStr kv.2) d) [] kvs)
  end).

Fixpoint search_keys (p : cpayload) (parent_key search_key search_val : string) (keys : list string)
    : ST W (list string) :=
  match keys with
  | [] => st_ret []
  | key :: keys' =>
      let key_suffix := match cp_delim p with
                        | String d EmptyString => List.last (split d key) ""
                        | _ => ""
                        end in
      let! here :=
        if decide (key_suffix = search_key) then
          if decide (search_val = "") then st_ret [key] else
          let! value := if decide (parent_key = "") then st_ret (Some "") else get p key in
          st_ret (if decide (value = Some search_val) then [key] else [])
        else st_ret [] in
      let! rest := search_keys p parent_key search_key search_val keys' in
      st_ret (here ++ rest)
  end.

Definition search (p : cpayload) (parent_key search_key search_val : string) : ST W (list string) :=
  retry (
    let! keys := get_keys (cp_path p) parent_key in
    match cp_delim p, keys with
    | EmptyString, _ :: _ => st_raise ValueError
    | _, _ => search_keys p parent_key search_key search_val keys
    end).

(** The [num_] keys of the indexed keys of the service: a payload with the
    keys as its leaves is counted. *)
Definition set_leaf : string → ST Payload.payload unit := λ k, Payload.set k (VStr "_").

Definition new_num_keys (keys : list string) : res (list (string * value)) :=
  let indexed := filter (λ k, 1 < length (index_split k)) keys in
  p0 ← Payload.init (VDict []) ">" true;
  match st_iter set_leaf indexed p0 with
  | (Err e, _) => Err e
  | (Ok _, p) =>
      let without := Payload.get_keys_rec p "" true in
      let p' := (Payload.add_num_keys p).2 in
      let num_keys := filter (λ k, k ∉ without) (Payload.get_keys_rec p' "" true) in
      res_map (λ k, v ← Payload.get p' k true; Ok (k, v)) num_keys
  end.

(** [set] being a method of the payload, the whole method is retried on the
    pair of payload and world. *)
Definition add_num_keys : ST (cpayload * W) unit :=
  wrap (λ dt '(p, w), ((api_sleep dt w).1, (p, (api_sleep dt w).2))) four_tries (λ '(p, w),
    match get_keys (cp_path p) "" w with
    | (Err e, w') => (Err e, (p, w'))
    | (Ok keys, w') =>
        match new_num_keys keys with
        | Err e => (Err e, (p, w'))
        | Ok num_keys => st_iter (λ '(key, v), set key v) num_keys (p, w')
        end
    end).

(** ** [ConsulKVStore] *)

(** [store_loc.split(':')] into host and port, outside the [try]. *)
Definition endpoint (store_loc : string) : res (string * string) :=
  let store_loc :=
    if decide (store_loc = "") then "127.0.0.1:8500"
    else if no_char ":" store_loc then store_loc +:+ ":8500" else store_loc in
  match split ":" store_loc with
  | [host; port] => Ok (host, port)
  | _ => Err ValueError
  end.

(** [connect host port] is [Consul(host=host, port=port)]. *)
Definition store_init (connect : string → string → ST W unit) (store_loc store_path delim : string)
    : ST W cpayload := λ w,
  match endpoint store_loc with
  | Err e => (Err e, w)
  | Ok (host, port) =>
      match (connect host port ;;; init store_path delim) w with
      | (Ok p, w') => (Ok p, w')
      | (Err _, w') => (Err (KvError ECONNREFUSED), w')
      end
  end.

(** [load] returns the payload of the store, [dump] does nothing: every
    change has gone to the service already. *)
Definition load (p : cpayload) : ST W cpayload := retry (st_ret p).
Definition dump (p : cpayload) : ST W unit := st_ret tt.

End payload.

(** ** What the payload promises *)

Section spec.
Context {W : Type} {A : ConsulApi W} {L : ApiLaws A} (repr : value → string).

Lemma sleep_returns dt (w : W) : (api_sleep dt w).1 = Ok tt.
Proof. apply (law_sleep dt w). Qed.

(** A retried read: the map stays, and the result is the one of a read. *)
Lemma retry_read {B} (m : ST W B) (P : gmap string string → B → Prop) w r w' :
  (∀ w0, api_map (m w0).2 = api_map w0) →
  (∀ w0 r0 w1, m w0 = (Ok r0, w1) → P (api_map w0) r0) →
  retry m w = (Ok r, w') → P (api_map w) r ∧ api_map w' = api_map w.
Proof.
  intros Hmap HP. unfold retry.
  apply (wrap_ok api_sleep four_tries m sleep_returns
           (λ w0 r w1, P (api_map w0) r ∧ api_map w1 = api_map w0) (λ w0 w1, api_map w1 = api_map w0)).
  - done.
  - congruence.
  - intros dt w0. apply (law_sleep dt w0).
  - intros e w0 w1 Hm. specialize (Hmap w0). by rewrite Hm in Hmap.
  - intros w0 w1 w2 r0 <-. done.
  - intros w0 r0 w1 Hm. split; [by eapply HP|]. specialize (Hmap w0). by rewrite Hm in Hmap.
Qed.

(** Python's strings of keys and values are what the service holds. *)
Lemma get_reads p key (w : W) r w' :
  get p key w = (Ok r, w') → r = api_map w !! (cp_path p +:+ key) ∧ api_map w' = api_map w.
Proof.
  apply (retry_read (api_get (cp_path p +:+ key)) (λ m r, r = m !! (cp_path p +:+ key))).
  - apply law_get_map.
  - intros w0 r0 w1. apply law_get.
Qed.

Lemma set_writes p key val (w : W) st :
  (∀ w0, (api_put (cp_path p +:+ key) (Files.py_str repr val) w0).1 ≠ Ok false) →
  set repr key val (p, w) = (Ok tt, st) →
  cp_path st.1 = cp_path p ∧
  api_map st.2 = <[cp_path p +:+ key := Files.py_str repr val]> (api_map w).
Proof.
  intros Hacc. unfold set. destruct (_set repr p key val w) as [[b|e] w1] eqn:Hs; [|done].
  intros [= <-]. split; [done|]. cbn [snd]. revert Hs. unfold _set, retry.
  set (k := cp_path p +:+ key) in *. set (v := Files.py_str repr val) in *. intros Hs.
  refine (wrap_ok api_sleep four_tries (api_put k v) sleep_returns
           (λ w0 _ w2, api_map w2 = <[k := v]> (api_map w0))
           (λ w0 w2, api_map w2 = api_map w0 ∨ api_map w2 = <[k := v]> (api_map w0)) w b w1 _ _ _ _ _ _ Hs).
  - by left.
  - intros w0 w2 w3 [->| ->] [->| ->]; rewrite ?insert_insert_eq; tauto.
  - intros dt w0. left. apply (law_sleep dt w0).
  - intros e w0 w2. apply law_put_err.
  - intros w0 w2 w3 r [->| ->]; by rewrite ?insert_insert_eq.
  - intros w0 r w2 Hp. specialize (Hacc w0). rewrite Hp in Hacc. destruct r; [|done]. by apply law_put.
Qed.

(** What [set] wrote is what [get] reads, as text, and other keys keep
    their values, through retries of both requests; [set] must not have been
    refused, which it does not report. *)
Theorem consul_kv_set_get p key val (w w1 : W) p1 key2 r w2 :
  (∀ w0, (api_put (cp_path p +:+ key) (Files.py_str repr val) w0).1 ≠ Ok false) →
  set repr key val (p, w) = (Ok tt, (p1, w1)) →
  get p1 key2 w1 = (Ok r, w2) →
  r = if decide (key2 = key) then Some (Files.py_str repr val) else api_map w !! (cp_path p +:+ key2).
Proof.
  intros Hacc Hset Hget. apply set_writes in Hset as [Hp Hm]; [|done]. cbn in Hp, Hm.
  apply get_reads in Hget as [-> _]. rewrite Hp, Hm. case_decide as Hk.
  - subst. by rewrite lookup_insert_eq.
  - rewrite lookup_insert_ne; [done|]. by intros ->%sapp_inj.
Qed.

(** No key of the store has the store path inside it again. *)
Definition path_once (path : string) (m : gmap string string) : Prop :=
  ∀ k, is_Some (m !! (path +:+ k)) → path = "" ∨ contains k path = false.

(** The listing [l] of a path, each key without the path. *)
Lemma strip_listing path starts_with (m : gmap string string) l ks :
  path_once path m → NoDup l →
  (∀ k, k ∈ l ↔ is_Some (m !! k) ∧ startswith k (path +:+ starts_with) = true) →
  res_map (strip_path path) l = Ok ks →
  NoDup ks ∧ ∀ k, k ∈ ks ↔ is_Some (m !! (path +:+ k)) ∧ startswith k starts_with = true.
Proof.
  intros Honce Hnd Hl Hks%res_map_ok.
  assert (Hstrip : ∀ k, is_Some (m !! (path +:+ k)) → strip_path path (path +:+ k) = Ok k).
  { intros k Hk. unfold strip_path. case_decide as Hp; [by rewrite Hp|].
    rewrite after_prefix. f_equal. apply before_absent. by destruct (Honce k Hk). }
  assert (Hpre : ∀ x, x ∈ l → ∃ k, x = path +:+ k ∧ strip_path path x = Ok k ∧
                    is_Some (m !! (path +:+ k)) ∧ startswith k starts_with = true).
  { intros x [Hx [t ->]%startswith_spec]%Hl. exists (starts_with +:+ t). rewrite sapp_assoc in *.
    repeat split; [by apply Hstrip|done|apply startswith_app]. }
  assert (Hmap : l = (λ k, path +:+ k) <$> ks).
  { clear Hl Hnd. induction Hks as [|x y l ks Hxy _ IH]; [done|]. rewrite fmap_cons. f_equal.
    - destruct (Hpre x) as (k & -> & Hs & _); [left|]. congruence.
    - apply IH. intros; apply Hpre; by right. }
  split; [by eapply NoDup_fmap_1; rewrite <- Hmap|].
  intros k. split.
  - intros Hk. destruct (Hpre (path +:+ k)) as (k' & Heq & Hs & Hm & Hp).
    { rewrite Hmap. by apply list_elem_of_fmap_2. }
    by apply sapp_inj in Heq as ->.
  - intros [Hm [t ->]%startswith_spec].
    assert (Hin : path +:+ (starts_with +:+ t) ∈ l).
    { apply Hl. split; [done|]. rewrite <- sapp_assoc. apply startswith_app. }
    rewrite Hmap in Hin. apply list_elem_of_fmap in Hin as (k' & Heq & Hin).
    by apply sapp_inj in Heq as ->.
Qed.

(** [get_keys] lists exactly the keys under the store path that start
    with the prefix, without the path. *)
Theorem consul_kv_get_keys path starts_with (w : W) keys w' :
  path_once path (api_map w) →
  get_keys path starts_with w = (Ok keys, w') →
  NoDup keys ∧ ∀ k, k ∈ keys ↔ is_Some (api_map w !! (path +:+ k)) ∧ startswith k starts_with = true.
Proof.
  intros Honce. unfold get_keys. set (m := let! key_list := _ in _). intros Hget.
  destruct (retry_read m (λ kvs ks, path_once path kvs → NoDup ks ∧
     ∀ k, k ∈ ks ↔ is_Some (kvs !! (path +:+ k)) ∧ startswith k starts_with = true) w keys w') as [H _];
    [| |done|by apply H].
  - intros w0. unfold m, st_bind, st_lift. pose proof (law_keys_map (path +:+ starts_with) w0) as Hm.
    by destruct (api_keys (path +:+ starts_with) w0) as [[l|e] w1].
  - intros w0 ks w1. unfold m, st_bind, st_lift.
    destruct (api_keys (path +:+ starts_with) w0) as [[l|e] w2] eqn:Hk; [|done].
    intros [= Hks _] Hpo. destruct (law_keys _ _ _ _ Hk) as [Hnd Hl]. by eapply strip_listing.
Qed.

End spec.

(** A put the service refuses is not reported. *)
Lemma consul_set_ignores_refusal {W} {A : ConsulApi W} repr p key val (w w1 : W) :
  api_put (cp_path p +:+ key) (Files.py_str repr val) w = (Ok false, w1) →
  (set repr key val (p, w)).1 = Ok tt.
Proof.
  intros Hput. unfold set, _set, retry, wrap. cbn [four_tries bo_tries].
  change (Z.to_nat (4 - 1)) with 3. cbn [wrap_loop]. by rewrite Hput.
Qed.

(** A key that repeats the store path is cut at the repetition. *)
Lemma strip_path_truncates : strip_path "conf/" "conf/a/conf/b" = Ok "a/".
Proof. reflexivity. Qed.

(** ** Executions: a service that fails the first requests *)

Definition faulty : Type := gmap string string * nat.

Definition request {B} (f : gmap string string → B * gmap string string) : ST faulty B := λ '(m, failures),
  match failures with
  | S n => (Err ServiceError, (m, n))
  | 0 => let '(b, m') := f m in (Ok b, (m', 0))
  end.

#[local] Instance faulty_api : ConsulApi faulty := {
  api_get k := request (λ m, (m !! k, m));
  api_get_all := request (λ m, (map_to_list m, m));
  api_keys p := request (λ m, (filter (λ k, startswith k p = true) (map_to_list m).*1, m));
  api_put k v := request (λ m, (true, <[k := v]> m));
  api_delete k recurse := request (λ m,
    (true, if recurse : bool then filter (λ kv, startswith kv.1 k = false) m else base.delete k m));
  api_sleep dt w := (Ok tt, w);
  api_map := fst
}.

#[local] Instance faulty_laws : ApiLaws faulty_api.
Proof.
  constructor; cbn.
  - intros k [m [|n]] r w'; cbn; [by intros [= <- _]|done].
  - by intros k [m [|n]].
  - intros p [m [|n]] l w'; cbn; [intros [= <- _]|done]. split.
    + eapply sublist_NoDup; [apply (NoDup_fst_map_to_list m)|]. apply sublist_filter.
    + intros k. rewrite list_elem_of_filter, list_elem_of_fmap. split.
      * intros [Hp ([k' v] & -> & Hkv%elem_of_map_to_list)]. cbn in *. eauto.
      * intros [[v Hv] Hp]. split; [done|]. exists (k, v). by rewrite elem_of_map_to_list.
  - by intros p [m [|n]].
  - intros k v [m [|n]] w'; cbn; [by intros [= <-]|done].
  - by intros k v [m [|n]] w'.
  - intros k v [m [|n]] e w'; cbn; [done|]. intros [= _ <-]. by left.
  - done.
Qed.

Definition conf_payload : cpayload := CPayload ">" "conf/" [].
Definition w0 : faulty := ({["conf/a" := "1"]}, 2).
Definition w1 : faulty := ({["conf/a" := "1"; "conf/b>c" := "7"]}, 0).
Definition conf_payload1 : cpayload := CPayload ">" "conf/" ["b>c"].

Lemma consul_kv_set_get_witness :
  set (λ _, "") "b>c" (VInt 7) (conf_payload, w0) = (Ok tt, (conf_payload1, w1)) ∧
  get conf_payload1 "b>c" w1 = (Ok (Some "7"), w1) ∧
  Some "7" = if decide ("b>c" = "b>c") then Some (Files.py_str (λ _, "") (VInt 7)) else api_map w0 !! "conf/b>c".
Proof.
  assert (Hset : set (λ _, "") "b>c" (VInt 7) (conf_payload, w0) = (Ok tt, (conf_payload1, w1)))
    by (vm_compute; reflexivity).
  assert (Hget : get conf_payload1 "b>c" w1 = (Ok (Some "7"), w1)) by (vm_compute; reflexivity).
  split; [exact Hset|]. split; [exact Hget|].
  refine (consul_kv_set_get (λ _, "") conf_payload "b>c" (VInt 7) w0 w1 conf_payload1 "b>c" (Some "7") w1 _ Hset Hget).
  intros [m [|n]]; discriminate.
Defined.

Lemma consul_kv_get_keys_witness :
  get_keys "conf/" "b" w1 = (Ok ["b>c"], w1) ∧
  NoDup ["b>c"] ∧
  ∀ k, k ∈ ["b>c"] ↔ is_Some (api_map w1 !! ("conf/" +:+ k)) ∧ startswith k "b" = true.
Proof.
  assert (H : get_keys "conf/" "b" w1 = (Ok ["b>c"], w1)) by (vm_compute; reflexivity).
  split; [exact H|]. refine (consul_kv_get_keys "conf/" "b" w1 ["b>c"] w1 _ H).
  intros k [v Hv]. right. cbn in Hv.
  destruct (decide ("conf/a" = "conf/" +:+ k)) as [Ha|Ha].
  { apply (sapp_inj "conf/" "a") in Ha as <-. reflexivity. }
  rewrite lookup_insert_ne in Hv by done.
  apply lookup_singleton_Some in Hv as [Hb _]. apply (sapp_inj "conf/" "b>c") in Hb as <-. reflexivity.
Defined.

End KvConsul.
