(* ===== verification/KvIni.v ===== *)
(** [utils/kv_store/kv_store_collection.py]: [IniKvPayload] and [IniKvStore]
    on the [ConfigParser] of the standard library, and [PillarStore].

    A parser is its default section and its sections, in order; options keep
    their case ([optionxform] is the identity).  Values are interpolated when
    read ([BasicInterpolation]).  Reading and writing a parser as text are
    parameters. *)
From Stdlib Require Import Ascii.
From S2P Require Import Prelude PyStr PyVal KvPayload KvStore KvFiles.
Import PyStr.

Module Ini.

(** ** [ConfigParser] *)

Notation options := (list (string * string)).

Record parser := Parser {
  cfg_defaults : options;                     (* _defaults *)
  cfg_sections : list (string * options)      (* _sections *)
}.

Definition sections (c : parser) : list string := dkeys (cfg_sections c).

Definition add_section (s : string) (c : parser) : res parser :=
  if decide (s = "DEFAULT" ∨ s ∈ sections c) then Err ValueError
  else Ok (Parser (cfg_defaults c) (dset s [] (cfg_sections c))).

(** The text up to the name [%(name)s] that starts [rest], which has its
    percent and bracket removed: [%\(([^)]+)\)s]. *)
Definition interpolation_name (rest : string) : option (string * string) :=
  match split1 ")" rest with
  | (name, Some (String c rest')) =>
      if Ascii.eqb c "s" && negb (bool_decide (name = "")) then Some (name, rest') else None
  | _ => None
  end.

(** [BasicInterpolation._interpolate_some], accumulating the text; the length
    of [rest] bounds the steps on one value, [depth] the nesting. *)
Fixpoint interpolate (depth : nat) (vars : string → option string) (raw : string) : res string :=
  (fix go (n : nat) (rest : string) : res string :=
     match n, rest with
     | 0, _ | _, EmptyString => Ok ""
     | S n, String c rest =>
         if negb (Ascii.eqb c "%") then s ← go n rest; Ok (String c s)
         else match rest with
              | String c' rest' =>
                  if Ascii.eqb c' "%" then s ← go n rest'; Ok (String "%" s)
                  else if Ascii.eqb c' "(" then
                    match interpolation_name rest' with
                    | None => Err InterpolationError
                    | Some (name, rest'') =>
                        match vars name with
                        | None => Err InterpolationError
                        | Some v =>
                            x ← (if no_char "%" v then Ok v
                                 else match depth with
                                      | 0 => Err InterpolationError
                                      | S depth => interpolate depth vars v
                                      end);
                            s ← go n rest''; Ok (x +:+ s)
                        end
                    end
                  else Err InterpolationError
              | EmptyString => Err InterpolationError
              end
     end) (String.length raw) raw.

(** [before_set]: after removing the escaped percents and the names, no
    percent is left. *)
Fixpoint drop_escaped (s : string) : string :=
  match s with
  | String c s' =>
      match s' with
      | String c' s'' =>
          if Ascii.eqb c "%" && Ascii.eqb c' "%" then drop_escaped s'' else String c (drop_escaped s')
      | EmptyString => s
      end
  | EmptyString => s
  end.
Fixpoint percent_left (n : nat) (s : string) : bool :=
  match n, s with
  | S n, String c s' =>
      if negb (Ascii.eqb c "%") then percent_left n s'
      else match s' with
           | String c' r =>
               if Ascii.eqb c' "(" then
                 match interpolation_name r with Some (_, r') => percent_left n r' | None => true end
               else true
           | EmptyString => true
           end
  | _, _ => false
  end.
Definition before_set_ok (value : string) : bool :=
  let s := drop_escaped value in negb (percent_left (String.length s) s).

Definition MAX_INTERPOLATION_DEPTH : nat := 10.

(** [NoSectionError] and [NoOptionError] are [None]. *)
Definition parser_get (c : parser) (section opt : string) : res (option string) :=
  let lookup opts := match dget opt opts with Some v => Some v | None => dget opt (cfg_defaults c) end in
  let vars opts name := match dget name opts with Some v => Some v | None => dget name (cfg_defaults c) end in
  let read opts := match lookup opts with
                   | None => Ok None
                   | Some raw => v ← interpolate (MAX_INTERPOLATION_DEPTH - 1) (vars opts) raw; Ok (Some v)
                   end in
  match dget section (cfg_sections c) with
  | Some opts => read opts
  | None => if decide (section = "DEFAULT") then read [] else Ok None
  end.

(** [set]: the value is a string that interpolation can read back. *)
Definition parser_set (section opt : string) (val : value) (c : parser) : res parser :=
  match val with
  | VStr v =>
      if negb (before_set_ok v) then Err ValueError else
      if decide (section = "" ∨ section = "DEFAULT")
      then Ok (Parser (dset opt v (cfg_defaults c)) (cfg_sections c))
      else match dget section (cfg_sections c) with
           | Some opts => Ok (Parser (cfg_defaults c) (dset section (dset opt v opts) (cfg_sections c)))
           | None => Err ValueError
           end
  | _ => Err TypeError
  end.

(** [remove_option] and [remove_section] of a section that is there; the empty
    name stands for the defaults in the first. *)
Definition remove_option (section opt : string) (c : parser) : bool * parser :=
  if decide (section = "") then
    match dget opt (cfg_defaults c) with
    | Some _ => (true, Parser (ddel opt (cfg_defaults c)) (cfg_sections c))
    | None => (false, c)
    end
  else
  match dget section (cfg_sections c) with
  | Some opts =>
      match dget opt opts with
      | Some _ => (true, Parser (cfg_defaults c) (dset section (ddel opt opts) (cfg_sections c)))
      | None => (false, c)
      end
  | None => (false, c)
  end.
Definition remove_section (section : string) (c : parser) : bool * parser :=
  match dget section (cfg_sections c) with
  | Some _ => (true, Parser (cfg_defaults c) (ddel section (cfg_sections c)))
  | None => (false, c)
  end.

(** [options(section)] and the iteration over [c[section]]: the section's own
    options, then the defaults it does not override. *)
Definition section_options (c : parser) (section : string) : list string :=
  let opts := default [] (dget section (cfg_sections c)) in
  dkeys opts ++ filter (λ k, k ∉ dkeys opts) (dkeys (cfg_defaults c)).

(** ** [IniKvPayload] *)

Record ini := IniKvPayload {
  ini_data : parser;          (* self._data, the parser of the store *)
  ini_delim : string;         (* self._delim *)
  ini_keys : list string      (* self._keys *)
}.

Definition _get_keys (delim : string) (keys : list string) (c : parser) : list string :=
  foldl (λ keys section,
    foldl (λ keys key, keys ++ [section +:+ delim +:+ key]) keys (section_options c section))
    keys (sections c).

Definition ini_init (config : parser) (delim : string) : res ini :=
  if decide (1 < String.length delim) then Err (KvError EINVAL)
  else Ok (IniKvPayload config delim (_get_keys delim [] config)).

(** [key.split(delim)] must have two parts. *)
Definition key_parts (p : ini) (key : string) : res (string * string) :=
  match ini_delim p with
  | String d EmptyString =>
      match split d key with
      | [s; o] => Ok (s, o)
      | _ => Err (KvError EINVAL)
      end
  | _ => Err ValueError
  end.

(** A section that was missing stays when the value is refused. *)
Definition set (key : string) (val : value) : ST ini unit := λ p,
  match key_parts p key with
  | Err e => (Err e, p)
  | Ok (s, o) =>
      match (if decide (s ∈ sections (ini_data p)) then Ok (ini_data p) else add_section s (ini_data p)) with
      | Err e => (Err e, p)
      | Ok c =>
          match parser_set s o val c with
          | Err e => (Err e, IniKvPayload c (ini_delim p) (ini_keys p))
          | Ok c' => (Ok tt, IniKvPayload c' (ini_delim p) (append_new (ini_keys p) key))
          end
      end
  end.

Definition get (p : ini) (key : string) : res value :=
  so ← key_parts p key;
  v ← parser_get (ini_data p) so.1 so.2;
  Ok (match v with Some s => VStr s | None => VNull end).

Definition delete (key : string) : ST ini bool := λ p,
  match key_parts p key with
  | Err e => (Err e, p)
  | Ok (s, o) =>
      if decide (s ∉ sections (ini_data p)) then (Ok false, p) else
      let '(is_deleted, c) := remove_option s o (ini_data p) in
      let keys := if is_deleted : bool then Payload.remove_first key (ini_keys p) else ini_keys p in
      if decide (section_options c s = []) then
        let '(is_deleted, c') := remove_section s c in (Ok is_deleted, IniKvPayload c' (ini_delim p) keys)
      else (Ok is_deleted, IniKvPayload c (ini_delim p) keys)
  end.

(** ** [IniKvStore] *)

Section store.
(** [config.read(path)] of an existing file, which merges it into the parser,
    and [config.write(f)]. *)
Context (read_ini : string → parser → res parser) (write_ini : parser → string).

(** The store: the parser every payload shares, and the files. *)
Definition ini_world : Type := parser * gmap string string.

(** [read] skips a missing file. *)
Definition ini_load (path delim : string) : ST ini_world ini := λ '(c, fs),
  match fs !! path with
  | None => (ini_init c delim, (c, fs))
  | Some text =>
      match read_ini text c with
      | Ok c' => (ini_init c' delim, (c', fs))
      | Err _ => (Err (KvError EINVAL), (c, fs))
      end
  end.

Definition ini_dump (path : string) (data : ini) : ST ini_world unit := λ '(c, fs),
  (Ok tt, (c, <[path := write_ini (ini_data data)]> fs)).

(** A method of the payload acts on the store's own parser. *)
Definition on_payload {A} (m : ST ini A) (p : ini) : ST ini_world (A * ini) := λ '(_, fs),
  let '(r, p') := m p in
  (match r with Ok a => Ok (a, p') | Err e => Err e end, (ini_data p', fs)).

Fixpoint set_all (kvs : list (string * value)) (p : ini) : ST ini_world ini :=
  match kvs with
  | [] => st_ret p
  | (key, val) :: kvs' => let! rp := on_payload (set key val) p in set_all kvs' rp.2
  end.

(** [KvStore.set] on this store *)
Definition store_set (path delim : string) (keys : list string) (vals : list value) : ST ini_world unit :=
  if decide (length keys ≠ length vals) then st_raise (KvError EINVAL) else
  let! p := ini_load path delim in
  let! p' := set_all (zip keys vals) p in
  ini_dump path p'.

End store.

(** ** [PillarStore] *)

(** [get]: the command's output, error text and exit status; the message of
    the last error has more formats than arguments. *)
Definition pillar_get (json_loads : string → res value) (out : string) (rc : Z) : res value :=
  if negb (rc =? 0)%Z then Err (KvError rc) else
  match (v ← json_loads out;
         match v with VDict d => match dget "local" d with Some x => Ok x | None => Err KeyError end
         | _ => Err TypeError end) with
  | Err _ => Err (KvError ENOENT)
  | Ok VNull => Err TypeError
  | Ok v => Ok v
  end.

(** [set] and [delete] are not implemented and return at once. *)
Definition pillar_set (key : string) (val : value) : res unit := Ok tt.
Definition pillar_delete (key : string) : res unit := Ok tt.

(** ** What the payload promises *)

(** The text an option has, before interpolation. *)
Definition raw (c : parser) (section opt : string) : option string :=
  opts ← dget section (cfg_sections c);
  match dget opt opts with Some v => Some v | None => dget opt (cfg_defaults c) end.

Lemma interpolate_plain depth vars s : no_char "%" s = true → interpolate depth vars s = Ok s.
Proof.
  intros Hs. destruct depth; cbn [interpolate];
    (induction s as [|c s IH]; [done|]; apply no_char_cons in Hs as [Hc Hs]; cbn [String.length];
     apply Ascii.eqb_neq in Hc as ->; cbn [negb]; by rewrite (IH Hs)).
Qed.

Lemma raw_get c section opt :
  section ≠ "DEFAULT" → (∀ v, raw c section opt = Some v → no_char "%" v = true) →
  parser_get c section opt = Ok (raw c section opt).
Proof.
  intros Hs Hp. unfold parser_get, raw in *.
  destruct (dget section (cfg_sections c)) as [opts|]; cbn [mbind option_bind] in *; [|by rewrite decide_False].
  destruct (match dget opt opts with Some v => Some v | None => dget opt (cfg_defaults c) end) as [v|]; [|done].
  by rewrite interpolate_plain by auto.
Qed.

Lemma raw_set c c' section opt v :
  section ≠ "" → section ≠ "DEFAULT" → parser_set section opt (VStr v) c = Ok c' →
  raw c' section opt = Some v ∧
  ∀ section' opt', (section', opt') ≠ (section, opt) → raw c' section' opt' = raw c section' opt'.
Proof.
  intros H1 H2. unfold parser_set. destruct (negb _); [done|]. rewrite decide_False by tauto.
  destruct (dget section (cfg_sections c)) as [opts|] eqn:Hs; [|done]. intros [= <-].
  unfold raw. cbn [cfg_sections cfg_defaults]. split.
  - rewrite dget_dset_eq. cbn [mbind option_bind]. by rewrite dget_dset_eq.
  - intros s' o' Hne. destruct (decide (s' = section)) as [->|].
    + rewrite dget_dset_eq, Hs. cbn [mbind option_bind]. rewrite dget_dset_ne; [done|]. congruence.
    + by rewrite dget_dset_ne.
Qed.

Lemma raw_add c c' section :
  add_section section c = Ok c' →
  cfg_defaults c' = cfg_defaults c ∧
  ∀ section' opt', section' ≠ section ∨ dget opt' (cfg_defaults c) = None →
    raw c' section' opt' = raw c section' opt'.
Proof.
  unfold add_section. destruct (decide _) as [|Hne]; [done|]. intros [= <-]. split; [done|].
  intros s' o' Hd. unfold raw. cbn [cfg_sections cfg_defaults].
  destruct (decide (s' = section)) as [->|]; [|by rewrite dget_dset_ne].
  destruct Hd as [|Hd]; [done|]. rewrite dget_dset_eq. cbn [mbind option_bind dget]. rewrite Hd.
  destruct (dget section (cfg_sections c)) eqn:Hs; [|done]. exfalso. apply Hne. right.
  by apply dget_is_Some.
Qed.

(** What [set] stored under [section>option] is what [get] reads, for a
    text without percent signs; every other option keeps its text, except that
    a section that is created shows the defaults. *)
Theorem ini_set_get key v p p' section opt :
  key_parts p key = Ok (section, opt) → section ≠ "" → section ≠ "DEFAULT" → no_char "%" v = true →
  set key (VStr v) p = (Ok tt, p') →
  get p' key = Ok (VStr v) ∧
  ∀ section' opt', (section', opt') ≠ (section, opt) →
    section' ≠ section ∨ section ∈ sections (ini_data p) ∨ dget opt' (cfg_defaults (ini_data p)) = None →
    raw (ini_data p') section' opt' = raw (ini_data p) section' opt'.
Proof.
  intros Hk H1 H2 Hv. unfold set. rewrite Hk.
  destruct (if decide (section ∈ sections (ini_data p)) then _ else _) as [c|] eqn:Hc; [|done].
  destruct (parser_set section opt (VStr v) c) as [c'|] eqn:Hset; [|done]. intros [= <-].
  destruct (raw_set c c' section opt v H1 H2 Hset) as [Hraw Hframe]. cbn [ini_data]. split.
  - unfold get. change (key_parts (IniKvPayload c' (ini_delim p) (append_new (ini_keys p) key)) key)
      with (key_parts p key). rewrite Hk. cbn [mbind res_bind fst snd ini_data].
    rewrite raw_get; [by rewrite Hraw|done|]. intros v'. rewrite Hraw. by intros [= <-].
  - intros s' o' Hne Hd. rewrite Hframe by done. case_decide as Hin.
    + by injection Hc as ->.
    + apply raw_add in Hc as [_ Hc]. apply Hc. tauto.
Qed.

(** A percent sign that is not escaped cannot be stored, and the section made
    for it stays. *)
Lemma ini_set_percent :
  set "a>b" (VStr "50%") (IniKvPayload (Parser [] []) ">" []) =
    (Err ValueError, IniKvPayload (Parser [] [("a", [])]) ">" []).
Proof. reflexivity. Qed.

(** [KvStore.set] on this store is not all-or-nothing: the parser of the store
    keeps the first key of a call that raised, and the next call writes it. *)
Lemma ini_store_set_partial read_ini write_ini :
  let w := (Parser [] [], ∅) in
  let w1 := (store_set read_ini write_ini "/f" ">" ["a>x"; "bad"] [VStr "1"; VStr "2"] w).2 in
  let w2 := (store_set read_ini write_ini "/f" ">" ["b>y"] [VStr "3"] w1).2 in
  (store_set read_ini write_ini "/f" ">" ["a>x"; "bad"] [VStr "1"; VStr "2"] w).1 = Err (KvError EINVAL) ∧
  w1 = (Parser [] [("a", [("x", "1")])], ∅) ∧
  w2.2 !! "/f" = Some (write_ini (Parser [] [("a", [("x", "1")]); ("b", [("y", "3")])])).
Proof. by vm_compute. Qed.

(** ** An execution *)

Definition sample : ini := IniKvPayload (Parser [("dir", "/d")] [("a", [("x", "1"); ("y", "%(dir)s/z")])]) ">" ["a>x"; "a>y"; "a>dir"].
Definition sample1 : ini :=
  IniKvPayload (Parser [("dir", "/d")] [("a", [("x", "2"); ("y", "%(dir)s/z")])]) ">" ["a>x"; "a>y"; "a>dir"].

Lemma ini_set_get_witness :
  set "a>x" (VStr "2") sample = (Ok tt, sample1) ∧ get sample "a>y" = Ok (VStr "/d/z") ∧
  get sample1 "a>x" = Ok (VStr "2") ∧
  ∀ section' opt', (section', opt') ≠ ("a", "x") →
    section' ≠ "a" ∨ "a" ∈ sections (ini_data sample) ∨ dget opt' (cfg_defaults (ini_data sample)) = None →
    raw (ini_data sample1) section' opt' = raw (ini_data sample) section' opt'.
Proof.
  assert (H : set "a>x" (VStr "2") sample = (Ok tt, sample1)) by (vm_compute; reflexivity).
  split; [exact H|]. split; [vm_compute; reflexivity|].
  by apply (ini_set_get "a>x" "2" sample sample1 "a" "x").
Defined.

End Ini.
