(* ===== verification/KvDir.v ===== *)
(** [utils/kv_store/kv_store_collection.py]: [DirKvPayload] and [DirKvStore],
    which keep every value in a file of its own under a directory.

    The world is a tree of directories and files, each under its path from the
    root.  Path names are resolved as the system does, component by component;
    symbolic links and permissions are not modelled. *)
From Stdlib Require Import Ascii.
From stdpp Require Import countable.
From S2P Require Import Prelude PyStr PyVal KvPayload KvStore KvFiles.
Import PyStr.

Module Dir.

(** ** The file system *)

Inductive node := FDir | FFile (content : string).

#[global] Instance node_eq_dec : EqDecision node.
Proof. solve_decision. Defined.

Notation tree := (gmap (list string) node).

Definition node_at (fs : tree) (p : list string) : option node :=
  if decide (p = []) then Some FDir else fs !! p.

Definition ENOTDIR : Z := 20.
Definition EISDIR : Z := 21.

(** One component of a path name, from a place that must be a directory. *)
Definition step_path (fs : tree) (cur : list string) (c : string) : res (list string) :=
  match node_at fs cur with
  | Some FDir =>
      if decide (c = "" ∨ c = ".") then Ok cur
      else if decide (c = "..") then Ok (removelast cur)
      else Ok (cur ++ [c])
  | Some (FFile _) => Err (OSError ENOTDIR)
  | None => Err (OSError ENOENT)
  end.

Fixpoint walk_path (fs : tree) (cur : list string) (comps : list string) : res (list string) :=
  match comps with
  | [] => Ok cur
  | c :: comps' => next ← step_path fs cur c; walk_path fs next comps'
  end.

(** The place a path name stands for; the last component may be missing. *)
Definition start (cwd : list string) (path : string) : list string :=
  if startswith path "/" then [] else cwd.
Definition resolve (fs : tree) (cwd : list string) (path : string) : res (list string) :=
  if decide (path = "") then Err (OSError ENOENT)
  else walk_path fs (start cwd path) (split "/" path).

Section os.
(** The working directory. *)
Context (cwd : list string).

Definition stat (fs : tree) (path : string) : option node :=
  match resolve fs cwd path with Ok p => node_at fs p | Err _ => None end.
Definition os_exists (fs : tree) (path : string) : bool := bool_decide (is_Some (stat fs path)).
Definition os_isdir (fs : tree) (path : string) : bool := bool_decide (stat fs path = Some FDir).
Definition os_isfile (fs : tree) (path : string) : bool :=
  match stat fs path with Some (FFile _) => true | _ => false end.

(** [os.path.join(a, b)] *)
Definition path_join (a b : string) : string :=
  if startswith b "/" then b
  else if decide (a = "") then b
  else if endswith a "/" then a +:+ b else a +:+ "/" +:+ b.

(** [os.makedirs(path, exist_ok=True)]: each missing directory in turn; [None]
    when it raises. *)
Fixpoint make_path (fs : tree) (cur : list string) (comps : list string) : option (list string) * tree :=
  match comps with
  | [] => (Some cur, fs)
  | c :: comps' =>
      if decide (c = "" ∨ c = ".") then make_path fs cur comps'
      else if decide (c = "..") then make_path fs (removelast cur) comps'
      else match node_at fs (cur ++ [c]) with
           | Some FDir => make_path fs (cur ++ [c]) comps'
           | Some (FFile _) => (None, fs)
           | None => make_path (<[cur ++ [c] := FDir]> fs) (cur ++ [c]) comps'
           end
  end.
Definition makedirs (path : string) : ST tree unit := λ fs,
  if decide (path = "") then (Err (OSError ENOENT), fs) else
  match make_path fs (start cwd path) (split "/" path) with
  | (Some _, fs') => (Ok tt, fs')
  | (None, fs') => (Err (OSError ENOTDIR), fs')
  end.

(** [open(path, 'w')], then [f.write(val)]: the file is emptied before the
    write is refused. *)
Definition write_path (path : string) (val : value) : ST tree unit := λ fs,
  match resolve fs cwd path with
  | Err e => (Err e, fs)
  | Ok p =>
      match node_at fs p with
      | Some FDir => (Err (OSError EISDIR), fs)
      | _ => match val with
             | VStr s => (Ok tt, <[p := FFile s]> fs)
             | _ => (Err TypeError, <[p := FFile ""]> fs)
             end
      end
  end.

(** [open(path, 'r').read()] *)
Definition read_path (fs : tree) (path : string) : res string :=
  match resolve fs cwd path with
  | Err e => Err e
  | Ok p =>
      match node_at fs p with
      | Some (FFile s) => Ok (Files.universal_newlines s)
      | Some FDir => Err (OSError EISDIR)
      | None => Err (OSError ENOENT)
      end
  end.

Definition os_remove (path : string) : ST tree unit := λ fs,
  match resolve fs cwd path with
  | Err e => (Err e, fs)
  | Ok p =>
      match node_at fs p with
      | Some (FFile _) => (Ok tt, delete p fs)
      | Some FDir => (Err (OSError EISDIR), fs)
      | None => (Err (OSError ENOENT), fs)
      end
  end.

(** The names in a directory. *)
Definition child (p q : list string) : option string :=
  match q with
  | [] => None
  | _ => if decide (removelast q = p) then List.last (Some <$> q) None else None
  end.
Definition names (fs : tree) (p : list string) (want_dir : bool) : list string :=
  omap (λ qn, match child p qn.1, qn.2 with
              | Some name, FDir => if want_dir then Some name else None
              | Some name, FFile _ => if want_dir then None else Some name
              | None, _ => None
              end) (map_to_list fs).

(** [os.walk(top)], top down: the path of every directory with its files. *)
Fixpoint walk_dirs (fuel : nat) (fs : tree) (p : list string) (path : string)
    : list (string * list string) :=
  (path, names fs p false) ::
  match fuel with
  | 0 => []
  | S fuel => concat (map (λ d, walk_dirs fuel fs (p ++ [d]) (path_join path d)) (names fs p true))
  end.
Definition depth (fs : tree) : nat := foldr (λ qn n, max (length qn.1) n) 0 (map_to_list fs).
Definition os_walk (fs : tree) (top : string) : list (string * list string) :=
  match resolve fs cwd top with
  | Ok p => match node_at fs p with
            | Some FDir => walk_dirs (depth fs) fs p top
            | _ => []
            end
  | Err _ => []
  end.

(** [s.replace(p, '')] *)
Fixpoint sremove (n : nat) (p s : string) : string :=
  match n, s with
  | S n, String c s' =>
      if startswith s p then sremove n p (sdrop (String.length p) s) else String c (sremove n p s')
  | _, _ => s
  end.
Definition replace_empty (p s : string) : string := sremove (String.length s) p s.

(** ** [DirKvPayload] *)

Record dir := DirKvPayload {
  dir_data : string;                (* self._data, the directory *)
  dir_delim : ascii;                (* self._delim *)
  dir_keys : list (option string)   (* self._keys *)
}.

Definition dir_init (dir_path : string) (delim : ascii) : dir := DirKvPayload dir_path delim [].

Definition key_to_path (root : string) (delim : ascii) (key : option string) : string * string :=
  match key with
  | None => (root, root)
  | Some key =>
      let key_list := split delim key in
      let key_dir := foldl path_join root (removelast key_list) in
      (key_dir, path_join key_dir (List.last key_list ""))
  end.
Definition _key_to_path (d : dir) (key : option string) : string * string :=
  key_to_path (dir_data d) (dir_delim d) key.

Definition _path_to_key (d : dir) (path : string) : string :=
  join (sep (dir_delim d)) (split "/" (replace_empty (dir_data d +:+ "/") path)).

(** The file of one key, also [DirKvStore.set]. *)
Definition set_file (paths : string * string) (val : value) : ST tree unit := λ fs,
  match makedirs paths.1 fs with
  | (Err _, fs') => (Err (KvError EACCES), fs')
  | (Ok _, fs') =>
      if os_exists fs' paths.2 && negb (os_isfile fs' paths.2) then (Err (KvError EINVAL), fs')
      else write_path paths.2 val fs'
  end.

Definition _set (d : dir) (key : string) (val : value) : ST tree unit :=
  set_file (_key_to_path d (Some key)) val.

(** [KvPayload.set], inherited *)
Definition set (key : string) (val : value) : ST (dir * tree) unit := λ '(d, fs),
  match _set d key val fs with
  | (Ok _, fs') =>
      (Ok tt, (DirKvPayload (dir_data d) (dir_delim d) (append_new (dir_keys d) (Some key)), fs'))
  | (Err e, fs') => (Err e, (d, fs'))
  end.

Definition get (d : dir) (fs : tree) (key : string) : res value :=
  let key_path := (_key_to_path d (Some key)).2 in
  if os_isdir fs key_path then Err KeyError
  else if negb (os_exists fs key_path) then Ok VNull
  else match read_path fs key_path with
       | Ok s => Ok (VStr s)
       | Err (OSError n) => Err (KvError n)
       | Err e => Err e
       end.

(** [shutil] is not imported. *)
Definition _delete (d : dir) (key : string) (force : bool) : ST tree unit := λ fs,
  let key_path := (_key_to_path d (Some key)).2 in
  if negb (os_exists fs key_path) then (Ok tt, fs)
  else if os_isdir fs key_path then (Err (if force then NameError else KeyError), fs)
  else match os_remove key_path fs with
       | (Err (OSError _), fs') => (Err NameError, fs')
       | r => r
       end.

(** [KvPayload.delete], inherited: [_delete] returns [None], so the key stays
    in [_keys] and [None] is returned. *)
Definition delete (key : string) (force : bool) : ST (dir * tree) value := λ '(d, fs),
  match _delete d key force fs with
  | (Ok _, fs') => (Ok VNull, (d, fs'))
  | (Err e, fs') => (Err e, (d, fs'))
  end.

Definition get_keys (d : dir) (fs : tree) (key_prefix : option string) : list string :=
  let prefix_key_path := (_key_to_path d key_prefix).2 in
  if os_isfile fs prefix_key_path then [_path_to_key d prefix_key_path]
  else concat (map (λ '(dir_path, file_names),
         map (λ f, _path_to_key d (path_join dir_path f)) file_names) (os_walk fs prefix_key_path)).

Definition search (d : dir) (fs : tree) (parent_key : option string) (search_key : string) (search_val : value)
    : res (list string) :=
  found ← res_map (λ key,
    if endswith key search_key then
      v ← get d fs key; Ok (if py_eq search_val v then [key] else [])
    else Ok []) (get_keys d fs parent_key);
  Ok (concat found).

(** ** [DirKvStore] *)

Record store := DirKvStore { st_path : string; st_delim : ascii }.

Definition store_init (store_path : string) (delim : ascii) : ST tree store := λ fs,
  if os_exists fs store_path then (Ok (DirKvStore store_path delim), fs)
  else match resolve fs cwd store_path with
       | Err e => (Err e, fs)
       | Ok p => (Ok (DirKvStore store_path delim), <[p := FDir]> fs)
       end.

(** The payload has the default delimiter whatever that of the store. *)
Definition load (s : store) : dir := dir_init (st_path s) ">".

Definition _get_key_path (s : store) (key : option string) : string * string :=
  key_to_path (st_path s) (st_delim s) key.

Definition store_set (s : store) (keys : list string) (vals : list value) : ST tree unit :=
  if decide (length keys ≠ length vals) then st_raise (KvError EINVAL)
  else st_iter (λ '(key, val), set_file (_get_key_path s (Some key)) val) (zip keys vals).

Definition store_get (s : store) (fs : tree) (keys : list string) : list value :=
  map (λ key, match read_path fs (_get_key_path s (Some key)).2 with
              | Ok v => VStr v
              | Err _ => VNull
              end) keys.

Definition store_delete (s : store) (keys : list string) : ST tree unit :=
  st_iter (λ key fs,
    match os_remove (_get_key_path s (Some key)).2 fs with
    | (Err (OSError n), fs') => (if decide (n = ENOENT) then Ok tt else Err (KvError n), fs')
    | r => r
    end) keys.

(** [dump] of the payload of a [load]. *)
Definition dump (s : store) (payload : dir) : ST tree unit := λ fs,
  let keys := get_keys payload fs None in
  match res_map (get payload fs) keys with
  | Ok vals => store_set s keys vals fs
  | Err e => (Err e, fs)
  end.

(** [get_keys]: the list is built anew for every directory of the walk, so the
    keys of the last one remain; a list has no [join]. *)
Definition store_get_keys (s : store) (fs : tree) (key_prefix : option string) : res (list string) :=
  let key_file := (_get_key_path s key_prefix).2 in
  if os_isfile fs key_file then Err AttributeError else
  let prefix := match key_prefix with None => "" | Some p => p +:+ sep (st_delim s) end in
  Ok (foldl (λ _ '(root, file_names),
    let path := if decide (root = key_file) then "" else replace_empty (key_file +:+ "/") root +:+ sep (st_delim s) in
    map (λ f, prefix +:+ path +:+ f) file_names) [] (os_walk fs key_file)).

(** [get_data]: [get] is given a key where it takes a list of keys, and reads
    one key per character. *)
Definition store_get_data (s : store) (fs : tree) : res (list (string * list value)) :=
  keys ← store_get_keys s fs None;
  Ok (foldl (λ kv key,
    dset key (store_get s fs (map sep (String.list_ascii_of_string key))) kv) [] keys).

End os.

End Dir.
