(* ===== verification/KvDirSpec.v ===== *)
(** What the directory store promises: a stored value is read back, other keys
    keep their values, and keys cannot be told from the directories of longer
    ones. *)
From Stdlib Require Import Ascii.
From stdpp Require Import countable.
From S2P Require Import Prelude PyStr PyVal KvFiles KvDir.
Import PyStr Dir.

Module DirSpec.

(** ** Path names *)

(** A component that names an entry of the directory it is in. *)
Definition valid (c : string) : Prop := c ≠ "" ∧ c ≠ "." ∧ c ≠ ".." ∧ no_char "/" c = true.

Lemma split_sep d s t : split d (s +:+ String d t) = split d s ++ split d t.
Proof.
  induction s as [|c s IH]; cbn; [by rewrite Ascii.eqb_refl|].
  destruct (Ascii.eqb c d); [by rewrite IH|]. rewrite IH.
  pose proof (split_nonempty d s). by destruct (split d s).
Qed.

Lemma endswith_last s c t : endswith (s +:+ t) (sep c) = true → no_char c t = true → t = "".
Proof.
  intros [u Hu]%endswith_spec Ht. destruct t as [|a t]; [done|]. exfalso.
  assert (Hl : ∀ x y, x +:+ sep c = y +:+ String a t → ∃ z, String a t = z +:+ sep c).
  { induction x as [|b x IH]; intros [|b' y] H; cbn in H.
    - by exists "".
    - injection H as _ H. by destruct y.
    - by exists (String b x).
    - injection H as _ H. by eapply IH. }
  destruct (Hl u s (eq_sym Hu)) as [z Hz]. rewrite Hz in Ht. apply no_char_app in Ht as [_ Ht].
  unfold no_char in Ht. cbn in Ht. by rewrite Ascii.eqb_refl in Ht.
Qed.

Lemma start_app cwd s t : s ≠ "" → start cwd (s +:+ t) = start cwd s.
Proof.
  destruct s as [|a s]; [done|]. intros _. unfold start. rewrite sapp_cons. cbn [startswith].
  assert (∀ x, startswith x "" = true) as Hn by (by intros []). by rewrite !Hn.
Qed.

(** A directory name the keys are joined to. *)
Definition plain_root (root : string) : Prop := root ≠ "" ∧ endswith root "/" = false.

Lemma join_valid root c :
  plain_root root → valid c →
  path_join root c = root +:+ String "/" c ∧ plain_root (path_join root c).
Proof.
  intros [Hne Hend] (Hc & _ & _ & Hs). unfold path_join.
  assert (startswith c "/" = false) as ->.
  { destruct c as [|a c]; [done|]. apply no_char_cons in Hs as [Ha _]. cbn [startswith].
    rewrite andb_false_iff. left. apply Ascii.eqb_neq. congruence. }
  rewrite decide_False, Hend by done. split; [done|]. split; [by destruct root|].
  apply not_true_is_false. intros H. apply Hc. apply (endswith_last (root +:+ "/") "/"); [|done].
  by rewrite sapp_assoc.
Qed.

(** ** Resolution *)

Section fs.
Context (cwd : list string).
Implicit Types (fs : tree).

Lemma walk_app fs cur l1 l2 :
  walk_path fs cur (l1 ++ l2) = (q ← walk_path fs cur l1; walk_path fs q l2).
Proof.
  revert cur. induction l1 as [|c l1 IH]; intros cur; [done|]. cbn [app walk_path].
  destruct (step_path fs cur c); [apply IH|done].
Qed.

Lemma resolve_join fs root c q :
  plain_root root → valid c → resolve fs cwd root = Ok q →
  resolve fs cwd (path_join root c) = step_path fs q c.
Proof.
  intros Hr Hc. destruct (join_valid root c Hr Hc) as [-> _]. unfold resolve.
  rewrite (decide_False (P:=root = "")) by apply Hr. rewrite decide_False by (by destruct root).
  rewrite start_app by apply Hr.
  intros Hq. rewrite split_sep, walk_app, Hq. cbn [mbind res_bind].
  rewrite (split_no_char "/" c) by apply Hc. cbn [walk_path]. by destruct (step_path fs q c).
Qed.

Lemma step_valid fs cur c :
  valid c → step_path fs cur c = match node_at fs cur with
    | Some FDir => Ok (cur ++ [c])
    | Some (FFile _) => Err (OSError ENOTDIR)
    | None => Err (OSError ENOENT)
    end.
Proof.
  intros (H1 & H2 & H3 & _). unfold step_path. rewrite (decide_False (P:=c = "" ∨ c = ".")) by tauto.
  by rewrite decide_False.
Qed.

(** Every entry is in a directory. *)
Definition wf fs : Prop := ∀ q n, fs !! q = Some n →
  Forall valid q ∧ q ≠ [] ∧ node_at fs (removelast q) = Some FDir.

Lemma removelast_snoc {A} (l : list A) x : removelast (l ++ [x]) = l.
Proof. apply List.removelast_last. Qed.

Lemma Forall_snoc_inv (P : string → Prop) l x : Forall P (l ++ [x]) → Forall P l ∧ P x.
Proof. rewrite Forall_app, Forall_singleton. done. Qed.

Lemma Forall_snoc_intro (P : string → Prop) l x : Forall P l → P x → Forall P (l ++ [x]).
Proof. intros. apply Forall_app. split; [done|]. by apply Forall_singleton. Qed.

Lemma parent_dir fs q c n : wf fs → node_at fs (q ++ [c]) = Some n → node_at fs q = Some FDir.
Proof.
  intros Hwf. unfold node_at at 1. rewrite decide_False by (by destruct q).
  intros (_ & _ & Hp)%Hwf. by rewrite removelast_snoc in Hp.
Qed.

(** Under a directory the names of a key lead to one place. *)
Lemma stat_valid fs root rp ks :
  wf fs → plain_root root → resolve fs cwd root = Ok rp → node_at fs rp = Some FDir → Forall valid ks →
  plain_root (foldl path_join root ks) ∧
  (node_at fs (rp ++ ks) = None ∨ resolve fs cwd (foldl path_join root ks) = Ok (rp ++ ks)) ∧
  stat cwd fs (foldl path_join root ks) = node_at fs (rp ++ ks).
Proof.
  intros Hwf Hr Hres Hdir Hks.
  assert (H : plain_root (foldl path_join root ks) ∧
    (resolve fs cwd (foldl path_join root ks) = Ok (rp ++ ks) ∨
     (is_ok (resolve fs cwd (foldl path_join root ks)) = false ∧ node_at fs (rp ++ ks) = None))).
  { induction ks as [|c ks IH] using rev_ind.
    { rewrite app_nil_r. split; [done|]. by left. }
    apply Forall_snoc_inv in Hks as [Hks Hc]. destruct (IH Hks) as [Hp Hcase].
    rewrite foldl_app. cbn [foldl]. split; [by apply join_valid|]. rewrite app_assoc.
    assert (Hjoin : ∀ e, resolve fs cwd (foldl path_join root ks) = Err e →
              resolve fs cwd (path_join (foldl path_join root ks) c) = Err e).
    { intros e He. destruct (join_valid _ c Hp Hc) as [-> _]. revert He. unfold resolve.
      rewrite (decide_False (P:=foldl path_join root ks = "")) by apply Hp.
      rewrite decide_False by (by destruct (foldl path_join root ks)).
      rewrite start_app by apply Hp.
      intros He. by rewrite split_sep, walk_app, He. }
    destruct Hcase as [Heq|[Herr Hnone]].
    - rewrite (resolve_join fs _ c _ Hp Hc Heq), step_valid by done.
      destruct (node_at fs (rp ++ ks)) as [[|s]|] eqn:Hn; [by left|right; split; [done|]..].
      + destruct (node_at fs ((rp ++ ks) ++ [c])) eqn:Hn2; [|done].
        apply parent_dir in Hn2; [congruence|done].
      + destruct (node_at fs ((rp ++ ks) ++ [c])) eqn:Hn2; [|done].
        apply parent_dir in Hn2; [congruence|done].
    - right. destruct (resolve fs cwd (foldl path_join root ks)) as [|e] eqn:He; [done|].
      rewrite (Hjoin e) by done. split; [done|].
      destruct (node_at fs ((rp ++ ks) ++ [c])) eqn:Hn2; [|done].
      apply parent_dir in Hn2; [congruence|done]. }
  destruct H as [Hp Hcase]. split; [done|]. unfold stat. destruct Hcase as [Heq|[Herr Hnone]].
  - split; [by right|]. by rewrite Heq.
  - split; [by left|]. rewrite Hnone. by destruct (resolve fs cwd (foldl path_join root ks)).
Qed.

(** ** Making directories *)

Lemma make_path_walk fs cur comps q :
  walk_path fs cur comps = Ok q → node_at fs q = Some FDir → make_path fs cur comps = (Some q, fs).
Proof.
  revert cur. induction comps as [|c comps IH]; intros cur; cbn [walk_path make_path]; [by intros [= ->]|].
  intros (next & Hn & Hw)%res_bind_ok Hq. specialize (IH next Hw Hq).
  assert (Hnext : node_at fs next = Some FDir).
  { destruct comps as [|c' comps]; [by injection Hw as ->|]. cbn [walk_path] in Hw.
    apply res_bind_ok in Hw as (n2 & Hs & _). unfold step_path in Hs.
    by destruct (node_at fs next) as [[|]|]. }
  unfold step_path in Hn. destruct (node_at fs cur) as [[|]|]; [|done..].
  destruct (decide (c = "" ∨ c = ".")); [by injection Hn as ->|].
  destruct (decide (c = "..")); [by injection Hn as <-|].
  injection Hn as <-. by rewrite Hnext.
Qed.

Lemma make_path_app fs cur l1 l2 q fs' :
  make_path fs cur l1 = (Some q, fs') → make_path fs cur (l1 ++ l2) = make_path fs' q l2.
Proof.
  revert fs cur. induction l1 as [|c l1 IH]; intros fs cur; cbn [make_path app]; [by intros [= -> ->]|].
  destruct (decide _); [apply IH|]. destruct (decide _); [apply IH|].
  destruct (node_at fs (cur ++ [c])) as [[|]|]; [apply IH|done|apply IH].
Qed.

(** What changes: directories where there was nothing, on the way. *)
Definition grown fs fs' (p : list string) : Prop := ∀ q,
  fs' !! q = fs !! q ∨ (fs !! q = None ∧ fs' !! q = Some FDir ∧ q `prefix_of` p).

Lemma node_at_insert_ne fs p q n : p ≠ q → node_at (<[p := n]> fs) q = node_at fs q.
Proof. intros Hne. unfold node_at. case_decide; [done|]. by rewrite lookup_insert_ne. Qed.
Lemma node_at_insert fs p n : p ≠ [] → node_at (<[p := n]> fs) p = Some n.
Proof. intros Hne. unfold node_at. rewrite decide_False by done. apply lookup_insert_eq. Qed.

Lemma dir_insert_wf fs q c n :
  wf fs → node_at fs q = Some FDir → Forall valid q → valid c →
  node_at fs (q ++ [c]) ≠ Some FDir ∨ n = FDir → wf (<[q ++ [c] := n]> fs).
Proof.
  intros Hwf Hd Hq Hc Hn r m. destruct (decide (r = q ++ [c])) as [->|Hr].
  - intros _. split; [by apply Forall_snoc_intro|]. split; [by destruct q|].
    rewrite removelast_snoc. rewrite node_at_insert_ne; [done|].
    intros Heq. apply (f_equal length) in Heq. rewrite length_app in Heq. simpl in Heq. lia.
  - rewrite lookup_insert_ne by done. intros (Hv & Hne & Hp)%Hwf. split; [done|]. split; [done|].
    destruct (decide (removelast r = q ++ [c])) as [Heq|]; [|by rewrite node_at_insert_ne].
    rewrite Heq in *. rewrite node_at_insert by (by destruct q).
    destruct Hn as [Hn| ->]; [congruence|done].
Qed.

Lemma make_path_valid fs cur ks q fs' :
  wf fs → node_at fs cur = Some FDir → Forall valid cur → Forall valid ks →
  make_path fs cur ks = (Some q, fs') →
  q = cur ++ ks ∧ wf fs' ∧ node_at fs' (cur ++ ks) = Some FDir ∧ grown fs fs' (cur ++ ks).
Proof.
  intros Hwf Hd Hcur Hks. revert fs cur Hwf Hd Hcur.
  induction Hks as [|c ks Hc Hks IH]; intros fs cur Hwf Hd Hcur; cbn [make_path].
  { intros [= <- <-]. rewrite app_nil_r. split; [done|]. split; [done|]. split; [done|]. intros r. by left. }
  pose proof Hc as (H1 & H2 & H3 & _). rewrite (decide_False (P:=c = "" ∨ c = ".")) by tauto.
  rewrite (decide_False (P:=c = "..")) by done.
  assert (Hcur' : Forall valid (cur ++ [c])) by (by apply Forall_snoc_intro).
  rewrite (cons_middle c cur ks), app_assoc.
  destruct (node_at fs (cur ++ [c])) as [[|]|] eqn:Hn; [by apply IH|done|].
  intros Hmk. apply IH in Hmk as (-> & Hwf' & Hd' & Hg); [|by apply dir_insert_wf; auto|by apply node_at_insert; destruct cur|done].
  split; [done|]. split; [done|]. split; [done|]. intros r. specialize (Hg r).
  destruct (decide (r = cur ++ [c])) as [->|Hr].
  - rewrite lookup_insert_eq in Hg. right. unfold node_at in Hn. rewrite decide_False in Hn by (by destruct cur).
    split; [done|]. split; [by destruct Hg as [?|(? & _)]|]. by exists ks.
  - by rewrite lookup_insert_ne in Hg.
Qed.

Lemma grown_node fs fs' p q : grown fs fs' p → ¬ q `prefix_of` p → node_at fs' q = node_at fs q.
Proof.
  intros Hg Hq. unfold node_at. case_decide; [done|]. destruct (Hg q) as [?|(_ & _ & ?)]; [done|tauto].
Qed.

(** ** One key *)

Section root.
Context (root : string) (delim : ascii) (rp : list string).
Context (Hroot : plain_root root).

(** The names of a key. *)
Definition key_names (key : string) : list string := split delim key.

Lemma paths_valid key :
  (key_to_path root delim (Some key)).1 = foldl path_join root (removelast (key_names key)) ∧
  (key_to_path root delim (Some key)).2 = foldl path_join root (key_names key).
Proof.
  unfold key_to_path. cbn [fst snd]. split; [done|]. fold (key_names key).
  assert (Hne : key_names key ≠ []) by apply split_nonempty.
  rewrite (app_removelast_last "" Hne) at 3. by rewrite foldl_app.
Qed.

(** A store at [root]: the tree is well formed and has the directory. *)
Record dir_ok fs : Prop := {
  ok_wf : wf fs;
  ok_resolve : resolve fs cwd root = Ok rp;
  ok_dir : node_at fs rp = Some FDir
}.

Lemma rp_valid fs : dir_ok fs → Forall valid rp.
Proof.
  intros [Hwf _ Hd]. unfold node_at in Hd. case_decide; [by subst|]. by apply Hwf in Hd as [? _].
Qed.

(** What the file of a key holds. *)
Definition file_value fs key : res value :=
  match node_at fs (rp ++ key_names key) with
  | Some FDir => Err KeyError
  | Some (FFile s) => Ok (VStr (Files.universal_newlines s))
  | None => Ok VNull
  end.

Lemma get_file fs d key :
  dir_ok fs → dir_data d = root → dir_delim d = delim → Forall valid (key_names key) →
  get cwd d fs key = file_value fs key.
Proof.
  intros [Hwf Hres Hd] Hdata Hdel Hks. unfold get, _key_to_path. rewrite Hdata, Hdel.
  destruct (paths_valid key) as [_ ->].
  destruct (stat_valid fs root rp (key_names key) Hwf Hroot Hres Hd Hks) as (_ & Hcase & Hstat).
  unfold os_isdir, os_exists, read_path, file_value. rewrite Hstat.
  destruct (node_at fs (rp ++ key_names key)) as [[|s]|] eqn:Hn; [done| |done].
  rewrite bool_decide_false by done. rewrite bool_decide_true by done. cbn [negb].
  destruct Hcase as [|Heq]; [done|]. by rewrite Heq, Hn.
Qed.

(** Growing keeps directories, so path names lead where they led. *)
Lemma walk_grown fs fs' cur comps q :
  (∀ r, node_at fs r = Some FDir → node_at fs' r = Some FDir) →
  walk_path fs cur comps = Ok q → walk_path fs' cur comps = Ok q.
Proof.
  intros Hk. revert cur. induction comps as [|c comps IH]; intros cur; [done|]. cbn [walk_path].
  intros (n & Hs & Hw)%res_bind_ok. unfold step_path in *.
  destruct (node_at fs cur) as [[|]|] eqn:Hc; [|done..]. rewrite (Hk cur Hc), Hs. cbn [mbind res_bind]. auto.
Qed.

Lemma grown_dirs fs fs' p : grown fs fs' p → ∀ r, node_at fs r = Some FDir → node_at fs' r = Some FDir.
Proof.
  intros Hg r. unfold node_at. case_decide; [done|]. by destruct (Hg r) as [->|(_ & -> & _)].
Qed.

Lemma dir_ok_kept fs fs' :
  dir_ok fs → wf fs' → (∀ r, node_at fs r = Some FDir → node_at fs' r = Some FDir) → dir_ok fs'.
Proof.
  intros [Hwf Hres Hd] Hwf' Hk. split; [done| |by apply Hk]. unfold resolve in *.
  case_decide; [done|]. by apply (walk_grown fs).
Qed.

Lemma path_of_names ks :
  Forall valid ks →
  start cwd (foldl path_join root ks) = start cwd root ∧
  split "/" (foldl path_join root ks) = split "/" root ++ ks ∧ plain_root (foldl path_join root ks).
Proof.
  induction ks as [|k ks IH] using rev_ind; [by rewrite app_nil_r|].
  intros [Hks Hk]%Forall_snoc_inv. destruct (IH Hks) as (Hs & Hsp & Hp).
  rewrite foldl_app. cbn [foldl]. destruct (join_valid _ k Hp Hk) as [Heq Hp']. rewrite Heq in *.
  split; [|split; [|done]].
  - rewrite <- Hs. apply start_app, Hp.
  - rewrite split_sep, Hsp, (split_no_char "/" k) by apply Hk. by rewrite app_assoc.
Qed.

Lemma makedirs_names fs ks fs' :
  dir_ok fs → Forall valid ks → makedirs cwd (foldl path_join root ks) fs = (Ok tt, fs') →
  dir_ok fs' ∧ node_at fs' (rp ++ ks) = Some FDir ∧ grown fs fs' (rp ++ ks).
Proof.
  intros Hok Hks. pose proof (rp_valid fs Hok) as Hrp. pose proof Hok as [Hwf Hres Hd].
  destruct (path_of_names ks Hks) as (Hst & Hsp & [Hne _]). unfold makedirs.
  rewrite decide_False by done. rewrite Hst, Hsp. unfold resolve in Hres. rewrite decide_False in Hres by apply Hroot.
  rewrite (make_path_app _ _ _ _ _ _ (make_path_walk _ _ _ _ Hres Hd)).
  destruct (make_path fs rp ks) as [[q|] fs1] eqn:Hq; [|done]. intros [= <-].
  destruct (make_path_valid fs rp ks q fs1 Hwf Hd Hrp Hks Hq) as (-> & Hwf1 & Hd1 & Hg).
  split; [|done]. apply (dir_ok_kept fs); [done|done|by eapply grown_dirs].
Qed.

Lemma insert_file fs q c v :
  dir_ok fs → node_at fs q = Some FDir → Forall valid q → valid c → node_at fs (q ++ [c]) ≠ Some FDir →
  dir_ok (<[q ++ [c] := FFile v]> fs) ∧ node_at (<[q ++ [c] := FFile v]> fs) (q ++ [c]) = Some (FFile v) ∧
  ∀ r, r ≠ q ++ [c] → node_at (<[q ++ [c] := FFile v]> fs) r = node_at fs r.
Proof.
  intros Hok Hd Hq Hc Hn.
  assert (Hkeep : ∀ r, r ≠ q ++ [c] → node_at (<[q ++ [c] := FFile v]> fs) r = node_at fs r)
    by (intros; by apply node_at_insert_ne).
  split; [|split; [by apply node_at_insert; destruct q|done]].
  apply (dir_ok_kept fs); [done| |].
  - apply dir_insert_wf; [apply Hok|done..|by left].
  - intros r Hr. rewrite Hkeep; [done|]. intros ->. done.
Qed.

(** The tree after a value was stored. *)
Lemma set_file_tree fs key v fs' :
  dir_ok fs → Forall valid (key_names key) →
  set_file cwd (key_to_path root delim (Some key)) (VStr v) fs = (Ok tt, fs') →
  dir_ok fs' ∧ node_at fs' (rp ++ key_names key) = Some (FFile v) ∧
  ∀ q, ¬ q `prefix_of` rp ++ key_names key → node_at fs' q = node_at fs q.
Proof.
  intros Hok Hks. assert (Hne : key_names key ≠ []) by apply split_nonempty.
  pose proof (app_removelast_last "" Hne) as Hsplit.
  destruct (paths_valid key) as [H1 H2]. unfold set_file. rewrite H1, H2. clear H1 H2.
  set (ks := removelast (key_names key)) in *. set (c := List.last (key_names key) "") in *.
  pose proof Hks as Hks'. rewrite Hsplit in Hks'. apply Forall_snoc_inv in Hks' as [Hks1 Hc].
  destruct (makedirs cwd (foldl path_join root ks) fs) as [[[]|] fs1] eqn:Hmk; [|done].
  destruct (makedirs_names fs ks fs1 Hok Hks1 Hmk) as (Hok1 & Hd1 & Hg).
  destruct (stat_valid fs1 root rp (key_names key) (ok_wf fs1 Hok1) Hroot (ok_resolve fs1 Hok1)
              (ok_dir fs1 Hok1) Hks) as (_ & _ & Hstat).
  assert (Hres : resolve fs1 cwd (foldl path_join root (key_names key)) = Ok (rp ++ key_names key)).
  { destruct (path_of_names ks Hks1) as (_ & _ & Hp). rewrite Hsplit, foldl_app. cbn [foldl].
    assert (Hq : resolve fs1 cwd (foldl path_join root ks) = Ok (rp ++ ks)).
    { destruct (stat_valid fs1 root rp ks (ok_wf fs1 Hok1) Hroot (ok_resolve fs1 Hok1)
              (ok_dir fs1 Hok1) Hks1) as (_ & [Hn|Hq] & _); [congruence|done]. }
    rewrite (resolve_join fs1 _ c _ Hp Hc Hq), step_valid, Hd1 by done. by rewrite app_assoc. }
  unfold os_exists, os_isfile, write_path. rewrite Hstat, Hres.
  destruct (decide (node_at fs1 (rp ++ key_names key) = Some FDir)) as [Hdir|Hdir].
  { by rewrite Hdir. }
  assert (Hw : (if bool_decide (is_Some (node_at fs1 (rp ++ key_names key))) &&
                   negb match node_at fs1 (rp ++ key_names key) with Some (FFile _) => true | _ => false end
                then (Err (KvError EINVAL), fs1)
                else match node_at fs1 (rp ++ key_names key) with
                     | Some FDir => (Err (OSError EISDIR), fs1)
                     | _ => (Ok tt, <[rp ++ key_names key := FFile v]> fs1)
                     end) = (Ok tt, <[rp ++ key_names key := FFile v]> fs1)).
  { destruct (node_at fs1 (rp ++ key_names key)) as [[|s]|]; [done|by rewrite andb_false_r|].
    by rewrite bool_decide_false by (by intros []). }
  cbn beta iota. rewrite Hw. intros [= <-]. rewrite Hsplit, app_assoc in *.
  destruct (insert_file fs1 (rp ++ ks) c v Hok1 Hd1) as (H1 & H2 & H3); [|done..|].
  { apply Forall_app. split; [by apply (rp_valid fs)|done]. }
  split; [done|]. split; [done|]. intros q Hq. rewrite H3 by (by intros ->; apply Hq).
  apply (grown_node fs fs1 (rp ++ ks)); [done|]. intros Hpre. apply Hq. by apply prefix_app_r.
Qed.

(** What [set] stored under a key of plain names is what [get] reads, with
    line ends made uniform, and every other key reads as before, unless it is
    made a directory by the key. *)
Theorem dir_set_get fs d key v d' fs' :
  dir_ok fs → dir_data d = root → dir_delim d = delim → Forall valid (key_names key) →
  set cwd key (VStr v) (d, fs) = (Ok tt, (d', fs')) →
  get cwd d' fs' key = Ok (VStr (Files.universal_newlines v)) ∧
  ∀ key2, Forall valid (key_names key2) → ¬ key_names key2 `prefix_of` key_names key →
    get cwd d' fs' key2 = get cwd d fs key2.
Proof.
  intros Hok Hdata Hdel Hks. unfold set, _set, _key_to_path. rewrite Hdata, Hdel.
  destruct (set_file cwd _ _ fs) as [[[]|] fs1] eqn:Hset; [|done]. intros [= <- <-].
  destruct (set_file_tree fs key v fs1 Hok Hks Hset) as (Hok1 & Hfile & Hframe). split.
  - rewrite get_file by done. unfold file_value. by rewrite Hfile.
  - intros key2 Hk2 Hpre. rewrite !get_file by done. unfold file_value.
    rewrite Hframe; [done|]. intros Hp. apply Hpre. by apply prefix_app_inv in Hp.
Qed.

End root.
End fs.

(** Names that are not plain lead out of the directory of the store. *)
Lemma dir_set_escapes :
  let fs : tree := {[ ["d"] := FDir ]} in
  set [] "..>x" (VStr "v") (dir_init "/d" ">", fs) =
    (Ok tt, (DirKvPayload "/d" ">" [Some "..>x"], <[ ["x"] := FFile "v" ]> fs)).
Proof. reflexivity. Qed.

(** The path of the store is cut out of every place it occurs in a key's
    path. *)
Lemma dir_key_mangled : _path_to_key (dir_init "/a" ">") "/a/b/a/c" = "bc".
Proof. reflexivity. Qed.

(** [get_keys] of the store lists the files of one directory only. *)
Lemma dir_store_keys_lost :
  let fs : tree := {[ ["d"] := FDir; ["d"; "x"] := FFile "1"; ["d"; "s"] := FDir; ["d"; "s"; "y"] := FFile "2" ]} in
  store_get_keys [] (DirKvStore "/d" ">") fs None = Ok ["s>y"].
Proof. vm_compute. reflexivity. Qed.

(** ** An execution *)

Definition fs0 : tree := {[ ["d"] := FDir; ["d"; "k"] := FFile "old" ]}.
Definition fs1 : tree := <[ ["d"; "a"; "b"] := FFile ("1" +:+ sep "013" +:+ sep "010") ]> (<[ ["d"; "a"] := FDir ]> fs0).

Lemma valid_1 (a : ascii) : a ≠ "/"%char → a ≠ "."%char → valid (sep a).
Proof.
  intros Ha Hd. unfold valid, sep. repeat split; try congruence.
  apply no_char_cons. split; [congruence|done].
Qed.

Lemma fs0_ok : dir_ok [] "/d" ["d"] fs0.
Proof.
  split; [|done|done]. intros q n Hq. unfold fs0 in Hq.
  apply lookup_insert_Some in Hq as [[<- <-]|[_ Hq]].
  { split; [repeat constructor; by apply valid_1|done]. }
  apply lookup_singleton_Some in Hq as [<- <-]. split; [repeat constructor; by apply valid_1|done].
Qed.

Lemma dir_set_get_witness :
  let d := dir_init "/d" ">" in
  let v := "1" +:+ sep "013" +:+ sep "010" in
  let d' := DirKvPayload "/d" ">" [Some "a>b"] in
  set [] "a>b" (VStr v) (d, fs0) = (Ok tt, (d', fs1)) ∧
  get [] d' fs1 "a>b" = Ok (VStr ("1" +:+ sep "010")) ∧
  (∀ key2, Forall valid (key_names ">" key2) → ¬ key_names ">" key2 `prefix_of` ["a"; "b"] →
    get [] d' fs1 key2 = get [] d fs0 key2) ∧
  get [] d' fs1 "k" = Ok (VStr "old").
Proof.
  cbv zeta. set (d := dir_init "/d" ">"). set (v := "1" +:+ sep "013" +:+ sep "010").
  set (d' := DirKvPayload "/d" ">" [Some "a>b"]).
  assert (H : set [] "a>b" (VStr v) (d, fs0) = (Ok tt, (d', fs1))) by (vm_compute; reflexivity).
  assert (Hr : plain_root "/d") by (split; [discriminate|reflexivity]).
  destruct (dir_set_get [] "/d" ">" ["d"] Hr fs0 d "a>b" v d' fs1 fs0_ok eq_refl eq_refl) as [Hget Hframe];
    [repeat constructor; by apply valid_1|exact H|].
  split; [exact H|]. split; [exact Hget|]. split; [exact Hframe|vm_compute; reflexivity].
Defined.

End DirSpec.
