(* ===== verification/ConfStore.v ===== *)
(** [utils/conf_store/conf_cache.py] and [conf_store.py]: [ConfCache], the
    in-memory copy of one backend, and [ConfStore], the table of caches with
    its operations on several of them and its lock; [Conf], the process-wide
    instance, and [MappedConf]. *)
From Stdlib Require Import Ascii.
From S2P Require Import Prelude PyStr PyVal KvPayload KvPayloadSpec KvStore KvFiles.
Import PyStr PayloadSpec.

Module Conf.

Section conf.
Context {W : Type}.

(** ** [ConfCache] *)

Record cache := Cache {
  cc_store : Store.backend W;   (* self._kv_store *)
  cc_delim : string;            (* self._delim *)
  cc_dirty : bool;              (* self._dirty *)
  cc_data : payload;            (* self._data *)
  cc_recurse : bool             (* self.recurse *)
}.

Definition cc_update (c : cache) (dirty : bool) (p : payload) : cache :=
  Cache (cc_store c) (cc_delim c) dirty p (cc_recurse c).

(** [ConfCache.__init__] *)
Definition cache_init (store : Store.backend W) (delim : string) (recurse : bool) : ST W cache :=
  if decide (1 < String.length delim) then st_raise (ConfError EINVAL) else
  let! data := Store.b_load store recurse in
  st_ret (Cache store delim false data recurse).

Definition cache_load : ST (cache * W) unit := λ '(c, w),
  if cc_dirty c then (Err PlainException, (c, w)) else
  match Store.b_load (cc_store c) (cc_recurse c) w with
  | (Ok data, w') => (Ok tt, (cc_update c (cc_dirty c) data, w'))
  | (Err e, w') => (Err e, (c, w'))
  end.

Definition cache_dump : ST (cache * W) unit := λ '(c, w),
  if cc_dirty c then
    match Store.b_dump (cc_store c) (cc_data c) w with
    | (Ok _, w') => (Ok tt, (cc_update c false (cc_data c), w'))
    | (Err e, w') => (Err e, (c, w'))
    end
  else (Ok tt, (cc_update c false (cc_data c), w)).

(** A mutator of the payload; the cache is dirty once it returns, whatever it
    returns. *)
Definition cache_mutate {A} (m : ST payload A) : ST cache A := λ c,
  match m (cc_data c) with
  | (Ok a, p) => (Ok a, cc_update c true p)
  | (Err e, p) => (Err e, cc_update c (cc_dirty c) p)
  end.

Definition cache_get (c : cache) (key : string) (recurse : bool) : res value :=
  Payload.get (cc_data c) key recurse.
Definition cache_set (key : string) (val : value) : ST cache unit := cache_mutate (Payload.set key val).
Definition cache_delete (key : string) (force : bool) : ST cache bool :=
  cache_mutate (Payload.delete key force).
Definition cache_add_num_keys : ST cache unit := cache_mutate Payload.add_num_keys.
Definition cache_keys (c : cache) (key_index : bool) : list string :=
  Payload.get_keys_rec (cc_data c) "" key_index.

(** ** [ConfStore] *)

(** The object, and the environment it runs in: the factory's instances, the
    world of the backends and the clock, in ticks. *)
Record conf := ConfStore {
  cs_delim : string;                          (* self._delim *)
  cs_cache : gmap string cache;               (* self._cache *)
  cs_callbacks : gmap string value;           (* self._callbacks *)
  cs_machine_id : value;                      (* self._machine_id *)
  cs_lock_owner : value;                      (* self._lock_owner *)
  cs_stores : gmap string (Store.backend W);  (* KvStoreFactory._stores *)
  cs_world : W;
  cs_now : Z                                  (* time.time() *)
}.

Definition set_cache (f : gmap string cache → gmap string cache) (s : conf) : conf :=
  ConfStore (cs_delim s) (f (cs_cache s)) (cs_callbacks s) (cs_machine_id s) (cs_lock_owner s)
    (cs_stores s) (cs_world s) (cs_now s).
Definition set_callback (index : string) (f : value) (s : conf) : conf :=
  ConfStore (cs_delim s) (cs_cache s) (<[index := f]> (cs_callbacks s)) (cs_machine_id s)
    (cs_lock_owner s) (cs_stores s) (cs_world s) (cs_now s).
Definition set_env (stores : gmap string (Store.backend W)) (w : W) (now : Z) (s : conf) : conf :=
  ConfStore (cs_delim s) (cs_cache s) (cs_callbacks s) (cs_machine_id s) (cs_lock_owner s)
    stores w now.

(** [/etc/machine-id]: its text, when it is a file. *)
Context (machine_id_file : W → option string).

Definition _get_machine_id (w : W) : value :=
  match machine_id_file w with
  | Some s => if decide (0 < String.length s) then VStr s else VNull
  | None => VNull
  end.

Definition delims : list string := [":"; ">"; "."; "|"; ";"; "/"].

Definition conf_init (delim : string) (stores : gmap string (Store.backend W)) (w : W) (now : Z)
    : res conf :=
  if decide (1 < String.length delim ∨ delim ∉ delims) then Err (ConfError EINVAL)
  else Ok (ConfStore delim ∅ ∅ (_get_machine_id w) (_get_machine_id w) stores w now).

(** [self._cache[index]] once the index is known, or the given exception. *)
Definition with_index {A} (e : exn) (index : string) (f : cache → ST conf A) : ST conf A := λ s,
  match cs_cache s !! index with
  | Some c => f c s
  | None => (Err e, s)
  end.

Notation not_loaded := (ConfError EINVAL).

(** An operation of the cache under [index]. *)
Definition on_cache {A} (e : exn) (index : string) (m : ST cache A) : ST conf A :=
  with_index e index (λ c s,
    let '(r, c') := m c in (r, set_cache <[index := c']> s)).

(** *** [load] *)

Context (urlparse : string → string * string * string).
Context (classes : list (string * (string → string → string → ST W (Store.backend W)))).

Record load_args := LoadArgs { la_fail_reload : value; la_skip_reload : value; la_recurse : value }.

Fixpoint load_kwargs (index : string) (kwargs : list (string * value)) (a : load_args)
    : ST conf load_args :=
  match kwargs with
  | [] => st_ret a
  | (key, val) :: kwargs' =>
      if decide (key = "fail_reload") then
        load_kwargs index kwargs' (LoadArgs val (la_skip_reload a) (la_recurse a))
      else if decide (key = "skip_reload") then
        load_kwargs index kwargs' (LoadArgs (la_fail_reload a) val (la_recurse a))
      else if decide (key = "callback") then λ s,
        load_kwargs index kwargs' a (set_callback index val s)
      else if decide (key = "recurse") then
        if py_eq val (VBool true) || py_eq val (VBool false) then
          load_kwargs index kwargs' (LoadArgs (la_fail_reload a) (la_skip_reload a) val)
        else st_raise (ConfError EINVAL)
      else st_raise (ConfError EINVAL)
  end.

(** [KvStoreFactory.get_instance(kvs_url, self._delim)] *)
Definition get_instance (kvs_url : string) : ST conf (Store.backend W) := λ s,
  let '(r, (stores, w)) := Store.get_instance urlparse classes kvs_url (cs_delim s) (cs_stores s, cs_world s) in
  (r, set_env stores w (cs_now s) s).

Definition new_cache (store : Store.backend W) (recurse : bool) : ST conf cache := λ s,
  let '(r, w) := cache_init store (cs_delim s) recurse (cs_world s) in
  (r, set_env (cs_stores s) w (cs_now s) s).

Definition load (index kvs_url : string) (kwargs : list (string * value)) : ST conf unit :=
  let! a := load_kwargs index kwargs (LoadArgs (VBool true) (VBool false) (VBool true)) in
  λ s,
  let load_new :=
    let! store := get_instance kvs_url in
    let! c := new_cache store (truthy (la_recurse a)) in
    λ s, (Ok tt, set_cache <[index := c]> s) in
  match cs_cache s !! index with
  | Some _ =>
      if truthy (la_skip_reload a) then (Ok tt, s)
      else if truthy (la_fail_reload a) then (Err (ConfError EINVAL), s)
      else load_new s
  | None => load_new s
  end.

Definition save (index : string) : ST conf unit :=
  with_index not_loaded index (λ c s,
    let '(r, (c', w)) := cache_dump (c, cs_world s) in
    (r, set_env (cs_stores s) w (cs_now s) (set_cache <[index := c']> s))).

(** *** Keys and values *)

Definition get_val (index : string) (key : option string) (default_val : value) (recurse : bool)
    : ST conf value :=
  with_index not_loaded index (λ c,
    match key with
    | None => st_raise (ConfError EINVAL)
    | Some key =>
        let! val := st_lift (cache_get c key recurse) in
        st_ret (if is_null val then default_val else val)
    end).

(** The common call [get(index, key)]. *)
Definition get (index key : string) : ST conf value := get_val index (Some key) VNull true.

Definition set (index key : string) (val : value) : ST conf unit :=
  on_cache not_loaded index (cache_set key val).

Definition get_keys (index starts_with : string) (recurse key_index : bool)
    : ST conf (list (option string)) :=
  with_index KeyError index (λ c,
    st_lift (Payload.get_keys (cc_data c) starts_with recurse key_index)).

Definition get_data (index : string) : ST conf payload :=
  with_index not_loaded index (λ c, st_ret (cc_data c)).

Definition delete (index key : string) (force : bool) : ST conf bool :=
  on_cache not_loaded index (cache_delete key force).

Definition search (index parent_key search_key : string) (search_val : value)
    : ST conf (list string) :=
  with_index KeyError index (λ c,
    st_lift (Payload.search (cc_data c) parent_key search_key search_val)).

Definition add_num_keys (index : string) : ST conf unit :=
  on_cache KeyError index cache_add_num_keys.

(** *** Two indexes *)

(** [self._cache[dst].set(key, self._cache[src].get(key))] *)
Definition copy_key (src dst key : string) : ST conf unit :=
  with_index KeyError dst (λ _,
    with_index KeyError src (λ c,
      let! val := st_lift (cache_get c key true) in
      on_cache KeyError dst (cache_set key val))).

Definition copy (src_index dst_index : string) (key_list : option (list string)) (recurse : bool)
    : ST conf unit :=
  with_index not_loaded src_index (λ c,
    with_index not_loaded dst_index (λ _,
      let keys := match key_list with
                  | Some ks => ks
                  | None => cache_keys c recurse
                  end in
      st_iter (copy_key src_index dst_index) keys)).

(** [list(set(xs).difference(ys))]; a set has no order of its own. *)
Definition difference (xs ys : list string) : list string :=
  elements ((list_to_set xs : gset string) ∖ list_to_set ys).

(** [list(filter(...))] with a test that may raise. *)
Fixpoint res_filter {A} (f : A → res bool) (l : list A) : res (list A) :=
  match l with
  | [] => Ok []
  | a :: l' => b ← f a; l'' ← res_filter f l'; Ok (if b : bool then a :: l'' else l'')
  end.

Definition compare_caches (c1 c2 : cache) : res (list string * list string * list string) :=
  let key_list1 := cache_keys c1 true in
  let key_list2 := cache_keys c2 true in
  let deleted_keys := difference key_list1 key_list2 in
  let new_keys := difference key_list2 key_list1 in
  updated_keys ← res_filter (λ key,
    if decide (key ∈ deleted_keys) then Ok false
    else v1 ← cache_get c1 key true;
         v2 ← cache_get c2 key true;
         Ok (negb (py_eq v1 v2))) key_list1;
  Ok (new_keys, deleted_keys, updated_keys).

Definition compare (index1 index2 : string) : ST conf (list string * list string * list string) :=
  with_index not_loaded index1 (λ c1,
    with_index not_loaded index2 (λ c2, st_lift (compare_caches c1 c2))).

Definition ERR_NOT_INITIALIZED : Z := 0x1505.

(** One turn of [_merge]'s loop. *)
Definition merge_key (dest src key : string) : ST conf unit :=
  with_index KeyError dest (λ c,
    if decide (key ∈ cache_keys c true) then st_ret tt else copy_key src dest key).

Definition _merge (dest_index src_index : string) (keys : list string) : ST conf unit :=
  st_iter (merge_key dest_index src_index) keys.

Definition merge (dest_index src_index : string) (keys : option (list string)) : ST conf unit :=
  with_index (ConfError ERR_NOT_INITIALIZED) src_index (λ c,
    with_index (ConfError ERR_NOT_INITIALIZED) dest_index (λ _,
      match keys with
      | None => _merge dest_index src_index (cache_keys c true)
      | Some ks =>
          st_iter (λ key,
            let! v := st_lift (cache_get c key true) in
            if truthy v then st_ret tt else st_raise (ConfError ENOENT)) ks ;;;
          _merge dest_index src_index ks
      end)).

(** *** The lock *)

(** [str(t)] of a time, [float(v)] of a value in ticks, and [str(v)] of values
    other than scalars. *)
Context (str_time : Z → string) (py_float : value → res Z) (repr : value → string).
(** Clock ticks in a second, and in the [time.sleep(0.01)] of [lock]. *)
Context (second delay : Z).

Definition DEFAULT_LOCK_DURATION : value := VInt 10.
Definition DEFAULT_LOCK_DOMAIN : value := VStr "default".

Definition owner_key (domain : value) : string := "lock>" +:+ Files.py_str repr domain +:+ ">owner".
Definition end_key (domain : value) : string := "lock>" +:+ Files.py_str repr domain +:+ ">end_time".

(** The checks of the keyword arguments: the allowed names, and
    [isinstance(val, int)] or [isinstance(val, bool)] of one of them. *)
Definition is_int (v : value) : bool := match v with VInt _ | VBool _ => true | _ => false end.
Definition is_bool (v : value) : bool := match v with VBool _ => true | _ => false end.

Fixpoint check_kwargs (allowed : list string) (typed : string) (ok : value → bool)
    (kwargs : list (string * value)) : res unit :=
  match kwargs with
  | [] => Ok tt
  | (key, val) :: kwargs' =>
      if decide (key ∉ allowed) then Err (ConfError EINVAL)
      else if decide (key = typed) then
        if ok val then check_kwargs allowed typed ok kwargs' else Err (ConfError EINVAL)
      else check_kwargs allowed typed ok kwargs'
  end.

Definition kwarg (name : string) (dflt : value) (kwargs : list (string * value)) : value :=
  default dflt (dget name kwargs).

(** [duration] in ticks. *)
Definition ticks (duration : value) : Z :=
  match duration with
  | VInt z => z * second
  | VBool true => second
  | _ => 0
  end.

(** [v in [None, "", ...]] *)
Definition unset (v : value) : bool := py_eq v VNull || py_eq v (VStr "").

Definition sleep (dt : Z) : ST conf unit := λ s,
  (Ok tt, set_env (cs_stores s) (cs_world s) (cs_now s + dt) s).

(** The body of [test_lock] after the arguments are read. *)
Definition lock_free (index : string) (owner domain : value) : ST conf bool :=
  let! current := get index (owner_key domain) in
  if unset current || py_eq current owner then st_ret true else
  let! end_time := get index (end_key domain) in
  if unset end_time then st_ret true else
  let! t := st_lift (py_float end_time) in
  λ s, (Ok (t <? cs_now s)%Z, s).

Definition test_lock (index : string) (kwargs : list (string * value)) : ST conf bool :=
  with_index not_loaded index (λ _,
    st_lift (check_kwargs ["domain"; "owner"] "" (λ _, true) kwargs) ;;;
    λ s, lock_free index (kwarg "owner" (cs_lock_owner s) kwargs)
           (kwarg "domain" DEFAULT_LOCK_DOMAIN kwargs) s).

Definition lock_owner (index : string) (owner domain : value) : ST conf unit :=
  set index (owner_key domain) owner.
Definition lock_end (index : string) (domain duration : value) : ST conf unit := λ s,
  set index (end_key domain) (VStr (str_time (cs_now s + ticks duration))) s.
Definition lock_confirm (index : string) (owner domain : value) : ST conf bool :=
  let! v := get index (owner_key domain) in st_ret (py_eq v owner).

Definition lock (index : string) (kwargs : list (string * value)) : ST conf bool :=
  with_index not_loaded index (λ _,
    st_lift (check_kwargs ["domain"; "owner"; "duration"] "duration" is_int kwargs) ;;;
    λ s,
    let owner := kwarg "owner" (cs_lock_owner s) kwargs in
    let domain := kwarg "domain" DEFAULT_LOCK_DOMAIN kwargs in
    let duration := kwarg "duration" DEFAULT_LOCK_DURATION kwargs in
    (let! free := test_lock index [("owner", owner); ("domain", domain)] in
     if free : bool then
       lock_owner index owner domain ;;;
       lock_end index domain duration ;;;
       sleep delay ;;;
       lock_confirm index owner domain
     else st_ret false) s).

Definition unlock (index : string) (kwargs : list (string * value)) : ST conf bool :=
  with_index not_loaded index (λ _,
    st_lift (check_kwargs ["domain"; "owner"; "force"] "force" is_bool kwargs) ;;;
    λ s,
    let owner := kwarg "owner" (cs_lock_owner s) kwargs in
    let domain := kwarg "domain" DEFAULT_LOCK_DOMAIN kwargs in
    let force := kwarg "force" (VBool false) kwargs in
    (let! current := get index (owner_key domain) in
     if py_eq current owner || truthy force then
       delete index (owner_key domain) false ;;;
       delete index (end_key domain) false ;;;
       st_ret true
     else st_ret false) s).

(** ** [Conf], the process-wide instance *)

(** The class attributes [_conf], [_delim], [_machine_id] and the
    environment a store is created in. *)
Record singleton := Singleton {
  g_conf : option conf;
  g_delim : value;
  g_machine_id : value;
  g_env : gmap string (Store.backend W) * W * Z
}.

(** [ConfStore(delim=Conf._delim)], for a [_delim] of any type. *)
Definition conf_new (delim : value) (env : gmap string (Store.backend W) * W * Z) : res conf :=
  let '(stores, w, now) := env in
  match delim with
  | VStr d => conf_init d stores w now
  | VList _ | VDict _ => Err (ConfError EINVAL)
  | _ => Err TypeError
  end.

(** The keyword arguments are assigned to the attributes first; [delim] and
    [machine_id] are the ones the class reads. *)
Definition conf_class_init (kwargs : list (string * value)) : ST singleton unit := λ g,
  match g_conf g with
  | Some _ => (Ok tt, g)
  | None =>
      let delim := default (g_delim g) (dget "delim" kwargs) in
      match conf_new delim (g_env g) with
      | Ok s => (Ok tt, Singleton (Some s) delim (cs_machine_id s) (g_env g))
      | Err e => (Err e, Singleton None delim (default (g_machine_id g) (dget "machine_id" kwargs)) (g_env g))
      end
  end.

(** [Conf._conf.method(...)] *)
Definition conf_call {A} (m : ST conf A) : ST singleton A := λ g,
  match g_conf g with
  | None => (Err AttributeError, g)
  | Some s => let '(r, s') := m s in (r, Singleton (Some s') (g_delim g) (g_machine_id g) (g_env g))
  end.

Definition conf_class_load (index url : string) (recurse : value) (kwargs : list (string * value))
    : ST singleton unit :=
  conf_class_init [] ;;; conf_call (load index url (("recurse", recurse) :: kwargs)).

Definition conf_class_machine_id : ST singleton value :=
  conf_class_init [] ;;;
  λ g, (match g_machine_id g with
        | VStr s => if decide (s = "") then Ok VNull else Ok (VStr (strip s))
        | VNull => Ok VNull
        | _ => Err AttributeError
        end, g).

(** ** [MappedConf] *)

Definition _conf_idx : string := "cortx_conf".

Definition mapped_init (url : string) : ST singleton unit :=
  conf_class_load _conf_idx url (VBool true) [("skip_reload", VBool true)].

(** [except (AssertionError, ConfError) as e: raise ConfError(errno.EINVAL, ...)] *)
Definition wrap_conf_error {S A} (m : ST S A) : ST S A := λ s,
  match m s with
  | (Err (ConfError _), s') => (Err (ConfError EINVAL), s')
  | r => r
  end.

Definition set_kvs (kvs : list (string * value)) : ST singleton unit :=
  st_iter (λ '(key, val), wrap_conf_error (conf_call (set _conf_idx key val))) kvs ;;;
  conf_call (save _conf_idx).

Definition mapped_set (key : string) (val : value) : ST singleton unit :=
  wrap_conf_error (conf_call (set _conf_idx key val) ;;; conf_call (save _conf_idx)).

Definition mapped_copy (src_index : string) (key_list : option (list string)) : ST singleton unit :=
  wrap_conf_error (conf_call (copy src_index _conf_idx key_list true)).

Definition mapped_search (parent_key search_key : string) (val : value) : ST singleton (list string) :=
  conf_call (search _conf_idx parent_key search_key val).

Definition mapped_add_num_keys : ST singleton unit := conf_call (add_num_keys _conf_idx).

Definition mapped_get (key : option string) (default_val : value) : ST singleton value :=
  conf_call (get_val _conf_idx key default_val true).

Definition mapped_delete (key : string) (force : bool) : ST singleton bool :=
  conf_call (delete _conf_idx key force).

End conf.
End Conf.
