(* ===== verification/ConfStoreSpec.v ===== *)
(** What [ConfStore] promises: saved values are loaded back, [copy],
    [merge] and [compare] do what their documentation says. *)
From Stdlib Require Import Ascii.
From S2P Require Import Prelude PyStr PyVal KvPayload KvPayloadFacts KvPayloadKeys KvPayloadSpec KvStore ConfStore.
Import PyStr PayloadFacts PayloadKeys PayloadSpec Conf.

Module ConfSpec.

(** ** Parts of documents *)

Lemma lookup_part (Q : value → Prop) path data x :
  (∀ items k y, Q (VDict items) → dget k items = Some y → Q y) →
  (∀ l i y, Q (VList l) → l !! i = Some y → Q y) →
  Q data → lookup path data = Some x → Q x.
Proof.
  intros HD HL. revert data. induction path as [|k path IH]; intros data Hd; simpl; [by intros [= <-]|].
  destruct data as [| | | | | |items]; try done.
  destruct (dget _ items) as [y|] eqn:Hy; simpl; [|done].
  destruct (Payload.key_index k).2 as [[i t]|]; [|by apply IH; eauto].
  destruct y as [| | | | |l|]; try done. destruct (l !! i) as [z|] eqn:Hz; simpl; [|done].
  apply IH. eapply HL; [|done]. by eapply HD.
Qed.

(** A part of a document has the scalars of the document. *)
Lemma scalars_lookup P path data x :
  all_scalars P data = true → lookup path data = Some x → all_scalars P x = true.
Proof.
  apply (lookup_part (λ v, all_scalars P v = true)).
  - intros items k y Hi Hy%dget_Some_elem. simpl in Hi. rewrite forallb_forall in Hi.
    by apply (Hi (k, y)), list_elem_of_In.
  - intros l i y Hl Hy%list_elem_of_lookup_2. simpl in Hl. rewrite forallb_forall in Hl.
    by apply Hl, list_elem_of_In.
Qed.

Lemma wf_part path data x : wf data → lookup path data = Some x → wf x.
Proof. apply lookup_part; [intros; by eapply wf_dget|intros; by eapply wf_lookup]. Qed.

Lemma string_leaf x : string_data x = true → is_str_or_int x = true → ∃ s, x = VStr s.
Proof. destruct x; try done. eauto. Qed.

(** ** The keys of a clean document *)

(** A payload over one delimiter that names can avoid. *)
Record tree (d : ascii) (p : payload) : Prop := Tree {
  tr_wf : wf_payload p;
  tr_delim : kp_delim p = sep d;
  tr_good : good_delim d = true
}.

(** One whose scalars are all strings. *)
Record doc (d : ascii) (p : payload) : Prop := Doc {
  doc_wf : wf_payload p;
  doc_delim : kp_delim p = sep d;
  doc_good : good_delim d = true;
  doc_strings : string_data (kp_data p) = true
}.
Definition clean (d : ascii) (p : payload) : Prop := clean_data d (kp_data p) = true.

Notation keys p := (Payload.get_keys_rec p "" true).
Notation path d k := (split d k).

(** No number, boolean or [None] lies above the key. *)
Definition free (d : ascii) (p : payload) (k : string) : Prop := open_at (path d k) (kp_data p).

Lemma doc_tree d p : doc d p → tree d p.
Proof. by intros [? ? ? _]. Qed.

Lemma doc_free d p k : doc d p → free d p k.
Proof. intros [_ _ _ Hs]. by apply string_open. Qed.

Lemma keys_elem d p k :
  tree d p → clean d p →
  k ∈ keys p ↔ canonical d k ∧ ∃ x, lookup (path d k) (kp_data p) = Some x ∧ is_str_or_int x = true.
Proof.
  intros [[Hwf Hdict _] Hd Hg] Hcl. unfold Payload.get_keys_rec. rewrite decide_True, Hd by done.
  unfold clean in Hcl. destruct (kp_data p) as [| | | | | |items] eqn:Hdata; try done.
  by rewrite elem_of_get_keys.
Qed.

Lemma keys_NoDup p : NoDup (keys p).
Proof. unfold Payload.get_keys_rec. rewrite decide_True by done. apply NoDup_get_keys, NoDup_nil_2. Qed.

Lemma keys_indep d p k1 k2 :
  tree d p → clean d p → k1 ∈ keys p → k2 ∈ keys p → k1 ≠ k2 → indep (path d k1) (path d k2) = true.
Proof.
  intros [[Hwf Hdict _] Hd Hg] Hcl. unfold Payload.get_keys_rec. rewrite decide_True, Hd by done.
  unfold clean in Hcl. destruct (kp_data p) as [| | | | | |items] eqn:Hdata; try done.
  by apply get_keys_indep.
Qed.

Lemma denotes_path d p k : tree d p → denotes p k = lookup (path d k) (kp_data p).
Proof. intros [_ Hd _]. unfold denotes. by rewrite (with_delim_sep _ d). Qed.

(** A listed key is read as the string, integer or boolean it denotes. *)
Lemma keys_get d p k :
  tree d p → clean d p → k ∈ keys p →
  ∃ x, Payload.get p k true = Ok x ∧ denotes p k = Some x ∧ wf x ∧ is_str_or_int x = true.
Proof.
  intros Hp Hcl [Hc (x & Hx & Hi)]%(keys_elem d); [|done..]. exists x.
  rewrite (denotes_path d) by done. pose proof Hp as [[Hwf _ _] Hd Hg].
  split; [|split; [done|split; [by eapply wf_part|done]]].
  unfold Payload.get. rewrite (with_delim_sep _ d) by done.
  apply get_found; [apply split_nonempty|by apply canonical_accepted|done].
Qed.

(** In a document of strings it is a string. *)
Lemma keys_get_str d p k :
  doc d p → clean d p → k ∈ keys p →
  ∃ s, Payload.get p k true = Ok (VStr s) ∧ denotes p k = Some (VStr s).
Proof.
  intros Hp Hcl Hk. destruct (keys_get d p k (doc_tree _ _ Hp) Hcl Hk) as (x & Hg & Hden & _ & Hi).
  pose proof Hden as Hx. rewrite (denotes_path d) in Hx by by apply doc_tree.
  destruct (string_leaf x (scalars_lookup _ _ _ _ (doc_strings _ _ Hp) Hx) Hi) as [s ->]. eauto.
Qed.

(** Storing a value under a canonical key. *)
Lemma tree_set d p k v :
  tree d p → canonical d k → wf v → free d p k →
  ∃ p', Payload.set k v p = (Ok tt, p') ∧ tree d p' ∧ denotes p' k = Some v ∧
    (∀ q, diverge (path d k) (path d q) = true → denotes p' q = denotes p q) ∧
    (∀ q x, indep (path d k) (path d q) = true → denotes p q = Some x → denotes p' q = Some x) ∧
    (∀ q, indep (path d k) (path d q) = true → free d p q → free d p' q).
Proof.
  intros Hp Hc Hv Ho. pose proof Hp as [Hwf Hd Hg]. pose proof Hwf as [_ Hdict _].
  destruct (set_data p k v d Hd) as (Hdata & Hdel & Hr).
  assert (Hok : (Payload._set (path d k) v (kp_data p)).1 = Ok tt).
  { apply set_open; [apply split_nonempty| |done|exact Ho]. apply forallb_forall. intros x Hx.
    pose proof (canonical_accepted d k Hg Hc) as Ha. rewrite forallb_forall in Ha.
    by rewrite (accepted_not_bad _ (Ha _ Hx)). }
  assert (Hp' : tree d (Payload.set k v p).2).
  { constructor; [|congruence|done]. apply (wf_step (OpSet k v) p Hwf). by intros ? ? [= _ <-]. }
  destruct (Payload.set k v p) as [r p'] eqn:Hset. cbn [fst snd] in *.
  rewrite Hok in Hr. subst r. exists p'. split; [done|]. split; [done|].
  rewrite (denotes_path d _ k), Hdata by done. unfold free. split; [|split; [|split]].
  - destruct (Payload._set (path d k) v (kp_data p)) as [r data'] eqn:Hs.
    simpl in Hok. subst r. by apply (lookup_set _ _ _ _ _ (split_nonempty _ _) Hs).
  - intros q Hq. rewrite !(denotes_path d), Hdata by done. by apply lookup_set_diverge.
  - intros q x Hq. rewrite !(denotes_path d), Hdata by done. by apply lookup_set_indep.
  - intros q Hq Hf. rewrite Hdata. by apply open_set.
Qed.

(** Storing a string in a document of strings. *)
Lemma doc_set d p k s :
  doc d p → canonical d k →
  ∃ p', Payload.set k (VStr s) p = (Ok tt, p') ∧ doc d p' ∧
    denotes p' k = Some (VStr s) ∧
    (∀ q, diverge (path d k) (path d q) = true → denotes p' q = denotes p q) ∧
    (∀ q x, indep (path d k) (path d q) = true → denotes p q = Some x → denotes p' q = Some x).
Proof.
  intros Hp Hc. pose proof Hp as [Hwf Hd Hg Hs].
  destruct (tree_set d p k (VStr s) (doc_tree _ _ Hp) Hc ltac:(constructor) (doc_free _ _ _ Hp))
    as (p' & Hset & [Hw' Hd' _] & ? & ? & ? & _).
  exists p'. split; [done|]. split; [|done]. constructor; [done..|].
  destruct (set_data p k (VStr s) d Hd) as (Hdata & _). rewrite Hset in Hdata. cbn [snd] in Hdata.
  rewrite Hdata. by apply set_scalars.
Qed.

Lemma leaf_clean d x : is_str_or_int x = true → clean_data d x = true.
Proof. by destruct x. Qed.

Lemma clean_tree_set d p k x :
  tree d p → clean d p → canonical d k → is_str_or_int x = true → clean d (Payload.set k x p).2.
Proof.
  intros [Hwf Hd Hg] Hcl (cs & [Hne Hcs] & ->) Hx. unfold clean.
  destruct (set_data p (key_of d cs) x d Hd) as (-> & _).
  rewrite split_key_of by done. by apply clean_set; [|apply leaf_clean|].
Qed.

Lemma clean_doc_set d p k s :
  doc d p → clean d p → canonical d k → clean d (Payload.set k (VStr s) p).2.
Proof. intros Hp%doc_tree. by intros; apply clean_tree_set. Qed.

(** ** Operations on caches *)

Section theory.
Context {W : Type}.
Implicit Types (s : conf (W:=W)) (c : cache (W:=W)).

Lemma with_index_ok {A} e i (f : cache → ST conf A) s c :
  cs_cache s !! i = Some c → with_index e i f s = f c s.
Proof. unfold with_index. by intros ->. Qed.

Lemma copy_key_spec s src dst c1 c2 k v :
  cs_cache s !! src = Some c1 → cs_cache s !! dst = Some c2 →
  cache_get c1 k true = Ok v →
  copy_key src dst k s =
  let '(r, c2') := cache_set k v c2 in (r, set_cache <[dst := c2']> s).
Proof.
  intros H1 H2 Hg. unfold copy_key. rewrite (with_index_ok _ _ _ _ c2), (with_index_ok _ _ _ _ c1) by done.
  unfold st_bind, st_lift. rewrite Hg. unfold on_cache. by rewrite (with_index_ok _ _ _ _ c2).
Qed.

(** One copied key. *)
Lemma copy_key_tree d s src dst c1 c2 k :
  src ≠ dst → cs_cache s !! src = Some c1 → cs_cache s !! dst = Some c2 →
  tree d (cc_data c1) → clean d (cc_data c1) → tree d (cc_data c2) → k ∈ keys (cc_data c1) →
  free d (cc_data c2) k →
  ∃ v p', Payload.get (cc_data c1) k true = Ok v ∧ p' = (Payload.set k v (cc_data c2)).2 ∧
    copy_key src dst k s = (Ok tt, set_cache <[dst := cc_update c2 true p']> s) ∧ tree d p' ∧
    (clean d (cc_data c2) → clean d p') ∧
    denotes p' k = denotes (cc_data c1) k ∧
    (∀ q, diverge (path d k) (path d q) = true → denotes p' q = denotes (cc_data c2) q) ∧
    (∀ q x, indep (path d k) (path d q) = true → denotes (cc_data c2) q = Some x → denotes p' q = Some x) ∧
    (∀ q, indep (path d k) (path d q) = true → free d (cc_data c2) q → free d p' q).
Proof.
  intros Hne H1 H2 Hd1 Hcl1 Hd2 Hk Hfr. destruct (keys_get d _ k Hd1 Hcl1 Hk) as (v & Hg & Hden & Hwv & Hi).
  apply (keys_elem d) in Hk as [Hc _]; [|done..].
  destruct (tree_set d (cc_data c2) k v Hd2 Hc Hwv Hfr) as (p' & Hset & Hd' & Hk & Hdiv & Hind & Hfree).
  exists v, p'. split; [done|]. split; [by rewrite Hset|].
  rewrite (copy_key_spec s src dst c1 c2 k v) by done.
  unfold cache_set, cache_mutate. rewrite Hset. split; [done|]. split; [done|].
  split; [|split; [congruence|done]].
  intros Hcl2. pose proof (clean_tree_set d _ k v Hd2 Hcl2 Hc Hi) as Hcl. by rewrite Hset in Hcl.
Qed.

Lemma copy_loop d src dst c1 ks s c2 (P : payload → Prop) :
  src ≠ dst → cs_cache s !! src = Some c1 → cs_cache s !! dst = Some c2 →
  tree d (cc_data c1) → clean d (cc_data c1) → tree d (cc_data c2) →
  (∀ k, k ∈ ks → k ∈ keys (cc_data c1)) → NoDup ks → (∀ k, k ∈ ks → free d (cc_data c2) k) →
  P (cc_data c2) →
  (∀ k v p, k ∈ ks → Payload.get (cc_data c1) k true = Ok v → tree d p → P p → P (Payload.set k v p).2) →
  ∃ s' c2', st_iter (copy_key src dst) ks s = (Ok tt, s') ∧
    cs_cache s' = <[dst := c2']> (cs_cache s) ∧ tree d (cc_data c2') ∧ P (cc_data c2') ∧
    (∀ k, k ∈ ks → denotes (cc_data c2') k = denotes (cc_data c1) k) ∧
    (∀ q, Forall (λ k, diverge (path d k) (path d q) = true) ks →
       denotes (cc_data c2') q = denotes (cc_data c2) q) ∧
    (∀ q x, Forall (λ k, indep (path d k) (path d q) = true) ks →
       denotes (cc_data c2) q = Some x → denotes (cc_data c2') q = Some x).
Proof.
  intros Hne. revert s c2. induction ks as [|k ks IH]; intros s c2 H1 H2 Hd1 Hcl1 Hd2 Hks Hnd Hfr HP HPs.
  { exists s, c2. split; [done|]. rewrite insert_id by done. do 3 (split; [done|]).
    split; [intros; set_solver|]. split; done. }
  apply NoDup_cons in Hnd as [Hnk Hnd].
  assert (Hind0 : ∀ k', k' ∈ ks → indep (path d k) (path d k') = true).
  { intros k' Hk'. apply (keys_indep d (cc_data c1)); [done|done|apply Hks; left|by apply Hks; right|]. by intros ->. }
  destruct (copy_key_tree d s src dst c1 c2 k) as (v & p' & Hg & Hp' & Hcp & Hd' & _ & Hk & Hdiv & Hind & Hfree); try done.
  { apply Hks. left. } { apply Hfr. left. }
  destruct (IH (set_cache <[dst := cc_update c2 true p']> s) (cc_update c2 true p'))
    as (s' & c2' & Hit & Hs' & Hd2' & HP' & Hin & Hdiv' & Hind'); try done.
  { simpl. by rewrite lookup_insert_ne. }
  { simpl. by rewrite lookup_insert_eq. }
  { intros k0 Hk0. apply Hks. by apply list_elem_of_further. }
  { intros k' Hk'. apply Hfree; [by apply Hind0|]. apply Hfr. by right. }
  { simpl. rewrite Hp'. apply HPs; [left|done..]. }
  { intros k' w p Hk'. apply HPs. by right. }
  exists s', c2'. simpl. unfold st_bind. rewrite Hcp. split; [done|].
  simpl in Hs'. rewrite insert_insert_eq in Hs'. split; [done|]. split; [done|]. split; [done|]. split; [|split].
  - intros k' [->|Hk']%elem_of_cons; [|by apply Hin].
    destruct (keys_get d _ k Hd1 Hcl1) as (w & _ & Hden & _); [apply Hks; left|].
    rewrite Hden. apply Hind'; [|simpl; congruence].
    apply Forall_forall. intros k' Hk'. apply (keys_indep d (cc_data c1)); [done|done|by apply Hks; right|apply Hks; left|].
    by intros ->.
  - intros q [Hq Hqs]%Forall_cons. rewrite Hdiv' by done. by apply Hdiv.
  - intros q x [Hq Hqs]%Forall_cons Hx. apply Hind'; [done|]. by apply Hind.
Qed.

(** C13.  [copy] of a whole index, where no number, boolean or [None] of the
    destination lies above a key of the source: it returns, the destination
    then holds the source's value under every key [get_keys] lists for the
    source, and what it held under a key that parts by name from all of them;
    the source is unchanged. *)
Theorem conf_copy_all d s src dst c1 c2 :
  src ≠ dst → cs_cache s !! src = Some c1 → cs_cache s !! dst = Some c2 →
  tree d (cc_data c1) → clean d (cc_data c1) → tree d (cc_data c2) →
  (∀ k, k ∈ cache_keys c1 true → free d (cc_data c2) k) →
  ∃ s' c2', copy src dst None true s = (Ok tt, s') ∧
    cs_cache s' = <[dst := c2']> (cs_cache s) ∧
    (∀ k, k ∈ cache_keys c1 true → cache_get c2' k true = cache_get c1 k true) ∧
    (∀ q, Forall (λ k, keys_diverge (cc_data c1) k q = true) (cache_keys c1 true) →
       denotes (cc_data c2') q = denotes (cc_data c2) q).
Proof.
  intros Hne H1 H2 Hd1 Hcl1 Hd2 Hfr. unfold copy.
  rewrite (with_index_ok _ _ _ _ c1), (with_index_ok _ _ _ _ c2) by done.
  destruct (copy_loop d src dst c1 (cache_keys c1 true) s c2 (λ _, True))
    as (s' & c2' & Hit & Hs' & Hd2' & _ & Hin & Hdiv & _); try done.
  { apply keys_NoDup. }
  exists s', c2'. split; [done|]. split; [done|]. split.
  - intros k Hk. destruct (keys_get d _ k Hd1 Hcl1 Hk) as (v & Hg & Hden & _).
    unfold cache_get. rewrite Hg. pose proof Hd2' as [Hw' _ _].
    apply get_denotes_full; [done| |by rewrite Hin].
    apply (keys_elem d) in Hk as [Hc _]; [|done..]. unfold key_ok.
    pose proof Hd2' as [_ ? ?]. rewrite (with_delim_sep _ d) by done. by apply canonical_accepted.
  - intros q Hq. apply Hdiv. eapply Forall_impl; [exact Hq|]. intros k. unfold keys_diverge.
    pose proof Hd1 as [_ ? _]. by rewrite (with_delim_sep _ d).
Qed.

(** ** [merge] *)

Lemma keys_denote d p k :
  tree d p → clean d p →
  k ∈ keys p ↔ canonical d k ∧ ∃ x, denotes p k = Some x ∧ is_str_or_int x = true.
Proof. intros Hp Hcl. by rewrite (keys_elem d), (denotes_path d). Qed.

(** What one turn of the loop and the whole loop do to a key [q]: it is kept
    when the merged keys are independent of it; when they part from it by
    name and one of them is [q] itself, it is added if it was missing. *)
Definition kept (d : ascii) (ks : list string) (q : string) : Prop :=
  Forall (λ k, k = q ∨ indep (path d k) (path d q) = true) ks.
Definition apart (d : ascii) (ks : list string) (q : string) : Prop :=
  Forall (λ k, k = q ∨ diverge (path d k) (path d q) = true) ks.

Lemma diverge_irrefl p : diverge p p = false.
Proof.
  induction p as [|k p IH]; [done|]. simpl. rewrite decide_True by done.
  by rewrite bool_decide_true, IH by done.
Qed.

Lemma indep_irrefl p : indep p p = false.
Proof.
  induction p as [|k p IH]; [done|]. simpl. rewrite decide_True by done.
  destruct (Payload.key_index k).2 as [[i t]|]; [|done]. by rewrite decide_True.
Qed.

Lemma merge_loop d src dst c1 ks s c2 :
  src ≠ dst → cs_cache s !! src = Some c1 → cs_cache s !! dst = Some c2 →
  tree d (cc_data c1) → clean d (cc_data c1) → tree d (cc_data c2) → clean d (cc_data c2) →
  (∀ k, k ∈ ks → k ∈ keys (cc_data c1)) → NoDup ks → (∀ k, k ∈ ks → free d (cc_data c2) k) →
  ∃ s' c2', _merge dst src ks s = (Ok tt, s') ∧
    cs_cache s' = <[dst := c2']> (cs_cache s) ∧ tree d (cc_data c2') ∧ clean d (cc_data c2') ∧
    (∀ q, q ∈ keys (cc_data c2) → kept d ks q →
       denotes (cc_data c2') q = denotes (cc_data c2) q) ∧
    (∀ q, q ∉ keys (cc_data c2) → apart d ks q → 
       denotes (cc_data c2') q = denotes (if decide (q ∈ ks) then cc_data c1 else cc_data c2) q).
Proof.
  intros Hne. revert s c2. induction ks as [|k ks IH]; intros s c2 H1 H2 Hd1 Hcl1 Hd2 Hcl2 Hks Hnd Hfr.
  { exists s, c2. split; [done|]. rewrite insert_id by done. do 4 (split; [done|]).
    intros q _ _. rewrite decide_False; [done|]. apply not_elem_of_nil. }
  assert (Hks' : ∀ k0, k0 ∈ ks → k0 ∈ keys (cc_data c1)) by (intros; apply Hks; by right).
  assert (Hk1 : k ∈ keys (cc_data c1)) by (apply Hks; left).
  apply NoDup_cons in Hnd as [Hnk Hnd].
  assert (Hind0 : ∀ k', k' ∈ ks → indep (path d k) (path d k') = true).
  { intros k' Hk'. apply (keys_indep d (cc_data c1)); auto. by intros ->. }
  unfold _merge. cbn [st_iter]. unfold merge_key, st_bind. rewrite (with_index_ok _ _ _ _ c2) by done.
  destruct (decide (k ∈ cache_keys c2 true)) as [Hk2|Hk2]; unfold cache_keys in Hk2.
  - cbn [st_ret]. destruct (IH s c2 H1 H2 Hd1 Hcl1 Hd2 Hcl2 Hks' Hnd)
      as (s' & c2' & Hit & Hs' & Hd2' & Hcl2' & Hkeep & Hadd).
    { intros k' Hk'. apply Hfr. by right. }
    exists s', c2'. split; [done|]. do 3 (split; [done|]). split.
    + intros q Hq [_ Hkq]%Forall_cons. by apply Hkeep.
    + intros q Hq [_ Hkq]%Forall_cons. rewrite Hadd by done. f_equal.
      apply decide_ext. split; [by right|]. by intros [->|?]%elem_of_cons.
  - destruct (copy_key_tree d s src dst c1 c2 k) as (v & p' & _ & _ & Hcp & Hd' & Hclp & Hk & Hdiv & Hind & Hfree); try done.
    { apply Hfr. left. }
    rewrite Hcp. specialize (Hclp Hcl2).
    destruct (IH (set_cache <[dst := cc_update c2 true p']> s) (cc_update c2 true p'))
      as (s' & c2' & Hit & Hs' & Hd2' & Hcl2' & Hkeep & Hadd); try done.
    { simpl. by rewrite lookup_insert_ne. }
    { simpl. by rewrite lookup_insert_eq. }
    { intros k' Hk'. apply Hfree; [by apply Hind0|]. apply Hfr. by right. }
    simpl in Hs', Hkeep, Hadd. rewrite insert_insert_eq in Hs'.
    exists s', c2'. split; [done|]. do 3 (split; [done|]). split.
    + intros q Hq [[->|Hkq] Hkqs]%Forall_cons; [done|].
      pose proof Hq as [Hcq (x & Hx & Hi)]%(keys_denote d); [|done..].
      assert (Hq' : denotes p' q = Some x) by by apply Hind.
      rewrite Hkeep; [congruence| |done]. apply (keys_denote d); eauto.
    + intros q Hq [Hkq Hkqs]%Forall_cons. destruct (decide (q = k)) as [->|Hqk].
      * rewrite (decide_True (P:=k ∈ k :: ks)) by left. rewrite <- Hk. apply Hkeep.
        -- apply (keys_denote d); [done..|]. rewrite Hk. by apply (keys_denote d) in Hk1.
        -- apply Forall_forall. intros k0 Hk0. destruct (decide (k0 = k)) as [->|]; [by left|right].
           apply (keys_indep d (cc_data c1)); auto.
      * destruct Hkq as [->|Hkq]; [done|]. rewrite Hadd; [| |done].
        -- rewrite (decide_ext (q ∈ k :: ks) (q ∈ ks)) by set_solver. case_decide; [done|]. by apply Hdiv.
        -- rewrite (keys_denote d), Hdiv by done. by rewrite (keys_denote d) in Hq.
Qed.

(** C14.  [merge] of a whole index, where no number, boolean or [None] of the
    destination lies above a key of the source: it returns; a key the
    destination lists keeps its value if every other key of the source is
    independent of it (neither runs through the other); a key it does not list
    takes the source's value if the source lists it, and is untouched
    otherwise, if every other key of the source parts from it by name. *)
Theorem conf_merge_all d s src dst c1 c2 :
  src ≠ dst → cs_cache s !! src = Some c1 → cs_cache s !! dst = Some c2 →
  tree d (cc_data c1) → clean d (cc_data c1) → tree d (cc_data c2) → clean d (cc_data c2) →
  let k1 := cache_keys c1 true in
  let k2 := cache_keys c2 true in
  (∀ k, k ∈ k1 → free d (cc_data c2) k) →
  ∃ s' c2', merge dst src None s = (Ok tt, s') ∧ cs_cache s' = <[dst := c2']> (cs_cache s) ∧
    (∀ q, q ∈ k2 → kept d k1 q → denotes (cc_data c2') q = denotes (cc_data c2) q) ∧
    (∀ q, q ∉ k2 → q ∈ k1 → apart d k1 q → denotes (cc_data c2') q = denotes (cc_data c1) q) ∧
    (∀ q, q ∉ k2 → q ∉ k1 → apart d k1 q → denotes (cc_data c2') q = denotes (cc_data c2) q).
Proof.
  intros Hne H1 H2 Hd1 Hcl1 Hd2 Hcl2 k1 k2 Hfr. unfold merge.
  rewrite (with_index_ok _ _ _ _ c1), (with_index_ok _ _ _ _ c2) by done.
  destruct (merge_loop d src dst c1 k1 s c2) as (s' & c2' & Hit & Hs' & _ & _ & Hkeep & Hadd); try done.
  { apply keys_NoDup. }
  exists s', c2'. repeat split; try done; intros q Hq Hq1 Hap; rewrite Hadd by done;
    first [by rewrite decide_True|by rewrite decide_False].
Qed.

(** ** [compare] *)

Lemma elem_of_difference xs ys k : k ∈ difference xs ys ↔ k ∈ xs ∧ k ∉ ys.
Proof. unfold difference. rewrite elem_of_elements. set_solver. Qed.

Lemma res_filter_ok {A} (f : A → res bool) l l' :
  res_filter f l = Ok l' →
  (∀ a, a ∈ l → ∃ b, f a = Ok b) ∧ ∀ a, a ∈ l' ↔ a ∈ l ∧ f a = Ok true.
Proof.
  revert l'. induction l as [|a l IH]; intros l'; simpl; [intros [= <-]; set_solver|].
  destruct (f a) as [b|] eqn:Ha; simpl; [|done]. destruct (res_filter f l) as [l2|]; simpl; [|done].
  destruct (IH l2 eq_refl) as [Hall Hin]. intros [= <-]. split.
  - intros a' [->|Ha']%elem_of_cons; eauto.
  - intros a'. destruct b; rewrite ?elem_of_cons, Hin; split.
    + intros [->|[? ?]]; auto.
    + intros [[->|?] ?]; auto.
    + intros [? ?]; auto.
    + intros [[->|?] ?]; [congruence|auto].
Qed.

Lemma res_filter_total {A} (f : A → res bool) l :
  (∀ a, a ∈ l → ∃ b, f a = Ok b) → ∃ l', res_filter f l = Ok l'.
Proof.
  induction l as [|a l IH]; intros Hf; simpl; [eauto|].
  destruct (Hf a) as [b ->]; [left|]. destruct IH as [l' ->]; [intros; apply Hf; by right|]. simpl. eauto.
Qed.

(** C15.  [compare] is exact: on two loaded indexes it returns, the new keys
    are those only the second lists, the deleted keys those only the first
    lists, and the updated keys those both list with different values; the
    store is unchanged. *)
Theorem conf_compare_exact d s i1 i2 c1 c2 :
  cs_cache s !! i1 = Some c1 → cs_cache s !! i2 = Some c2 → good_delim d = true →
  wf_payload (cc_data c1) → kp_delim (cc_data c1) = sep d → clean d (cc_data c1) →
  wf_payload (cc_data c2) → kp_delim (cc_data c2) = sep d → clean d (cc_data c2) →
  let k1 := cache_keys c1 true in
  let k2 := cache_keys c2 true in
  ∃ new_keys deleted_keys updated_keys,
    compare i1 i2 s = (Ok (new_keys, deleted_keys, updated_keys), s) ∧
    (∀ k, k ∈ new_keys ↔ k ∈ k2 ∧ k ∉ k1) ∧
    (∀ k, k ∈ deleted_keys ↔ k ∈ k1 ∧ k ∉ k2) ∧
    (∀ k, k ∈ updated_keys ↔ k ∈ k1 ∧ k ∈ k2 ∧
       ∃ x y, cache_get c1 k true = Ok x ∧ cache_get c2 k true = Ok y ∧ py_eq x y = false).
Proof.
  intros H1 H2 Hg Hw1 Hd1 Hcl1 Hw2 Hd2 Hcl2 k1 k2. unfold compare.
  rewrite (with_index_ok _ _ _ _ c1), (with_index_ok _ _ _ _ c2) by done.
  unfold st_lift, compare_caches. fold k1 k2.
  set (f := λ key, if decide (key ∈ difference k1 k2) then Ok false
                   else v1 ← cache_get c1 key true; v2 ← cache_get c2 key true; Ok (negb (py_eq v1 v2))).
  assert (Hf : ∀ k, k ∈ k1 → f k = if decide (k ∈ k2) then
      (v1 ← cache_get c1 k true; v2 ← cache_get c2 k true; Ok (negb (py_eq v1 v2))) else Ok false).
  { intros k Hk. unfold f. pose proof (elem_of_difference k1 k2 k). repeat case_decide; tauto. }
  assert (Hget : ∀ k, k ∈ k1 → k ∈ k2 → ∃ x y, cache_get c1 k true = Ok x ∧ cache_get c2 k true = Ok y).
  { intros k Hk1 Hk2. destruct (keys_get d _ _ (Tree _ _ Hw1 Hd1 Hg) Hcl1 Hk1) as (x & ? & _).
    destruct (keys_get d _ _ (Tree _ _ Hw2 Hd2 Hg) Hcl2 Hk2) as (y & ? & _). by exists x, y. }
  destruct (res_filter_total f k1) as [upd Hupd].
  { intros k Hk. rewrite Hf by done. case_decide as Hk2; [|eauto].
    destruct (Hget k Hk Hk2) as (x & y & -> & ->). simpl. eauto. }
  rewrite Hupd. exists (difference k2 k1), (difference k1 k2), upd. split; [done|].
  split; [apply elem_of_difference|]. split; [apply elem_of_difference|]. intros k.
  destruct (res_filter_ok f k1 upd Hupd) as [_ ->]. split.
  - intros [Hk Hfk]. rewrite Hf in Hfk by done. case_decide as Hk2; [|done].
    destruct (Hget k Hk Hk2) as (x & y & Hx & Hy). rewrite Hx, Hy in Hfk. simpl in Hfk.
    split; [done|]. split; [done|]. exists x, y. split; [done|]. split; [done|].
    by destruct (py_eq x y).
  - intros (Hk & Hk2 & x & y & Hx & Hy & Hxy). split; [done|]. rewrite Hf by done.
    rewrite decide_True by done. rewrite Hx, Hy. simpl. by rewrite Hxy.
Qed.

(** ** [save] and [load] *)

Section persist.
Context (urlparse : string → string * string * string).
Context (classes : list (string * (string → string → string → ST W (Store.backend W)))).
Context (b : Store.backend W) (delim : string) (dom : value → Prop) (valid : W → Prop).
Context {Hb : Store.BackendLaws b delim dom valid}.


End persist.

End theory.
End ConfSpec.
