(* ===== verification/ConfLock.v ===== *)
(** The lock of [ConfStore] on one index: what a caller that holds it is
    promised as long as the calls on the store run one after the other. *)
From Stdlib Require Import Ascii.
From S2P Require Import Prelude PyStr PyVal KvPayload KvPayloadFacts KvPayloadKeys KvPayloadSpec KvStore KvFiles ConfStore ConfStoreSpec.
Import PyStr PayloadFacts PayloadKeys PayloadSpec Conf ConfSpec.

Module ConfLock.

Section lock.
Context {W : Type}.
Context (str_time : Z → string) (py_float : value → res Z) (repr : value → string).
Context (second delay : Z).
(** [float(str(t)) == t], and [str(t)] is not empty. *)
Context (float_str : ∀ t, py_float (VStr (str_time t)) = Ok t).
Context (str_time_ne : ∀ t, str_time t ≠ "").
Context (delay_nonneg : (0 ≤ delay)%Z).

Implicit Types (s : conf (W:=W)) (c : cache (W:=W)).
Notation lock := (lock str_time py_float repr second delay).
Notation unlock := (unlock repr).
Notation test_lock := (test_lock py_float repr).
Notation owner_key := (owner_key repr).
Notation end_key := (end_key repr).

(** Calls by the owner [o] on the domain [dom]. *)
Definition lock_as (i o dom : string) (secs : Z) : ST (conf (W:=W)) bool :=
  lock i [("owner", VStr o); ("domain", VStr dom); ("duration", VInt secs)].
Definition unlock_as (i o dom : string) (force : bool) : ST (conf (W:=W)) bool :=
  unlock i [("owner", VStr o); ("domain", VStr dom); ("force", VBool force)].
Definition test_as (i o dom : string) : ST (conf (W:=W)) bool :=
  test_lock i [("owner", VStr o); ("domain", VStr dom)].

(** ** The keys of the lock *)

Notation d := ">"%char.
Definition owner_path (dom : string) : list string := ["lock"; dom; "owner"].
Definition end_path (dom : string) : list string := ["lock"; dom; "end_time"].

Lemma key_paths dom :
  clean_name d dom = true →
  split d (owner_key (VStr dom)) = owner_path dom ∧ split d (end_key (VStr dom)) = end_path dom.
Proof.
  intros Hd. split.
  - apply (split_key_of d [CName "lock"; CName dom; CName "owner"]); [done|].
    split; [done|]. repeat constructor. done.
  - apply (split_key_of d [CName "lock"; CName dom; CName "end_time"]); [done|].
    split; [done|]. repeat constructor. done.
Qed.

Lemma name_index n : clean_name d n = true → Payload.key_index n = (n, None).
Proof. intros (_ & Ho & _)%clean_name_parts. by apply key_index_name. Qed.

Lemma path_ok dom :
  clean_name d dom = true →
  forallb accepted (owner_path dom) = true ∧ forallb accepted (end_path dom) = true ∧
  forallb plain (owner_path dom) = true ∧ forallb plain (end_path dom) = true.
Proof.
  intros Hd. pose proof (name_index _ Hd) as Hi. pose proof (clean_name_parts _ _ Hd) as (Hb & _ & _).
  unfold owner_path, end_path, plain. cbn [forallb]. rewrite Hi.
  assert (accepted dom = true) as -> by (unfold accepted; rewrite Hi; simpl; by rewrite Hb). done.
Qed.

Lemma paths_diverge dom :
  clean_name d dom = true →
  diverge (owner_path dom) (end_path dom) = true ∧ diverge (end_path dom) (owner_path dom) = true.
Proof.
  intros Hd. unfold owner_path, end_path. cbn [diverge].
  rewrite !(name_index dom) by done. cbn [fst snd]. split; by rewrite (decide_True (P:=dom = dom)).
Qed.

Lemma domains_diverge dom dom' p q :
  clean_name d dom = true → clean_name d dom' = true → dom ≠ dom' →
  diverge ("lock" :: dom :: p) ("lock" :: dom' :: q) = true.
Proof.
  intros Hd Hd' Hne. cbn [diverge]. rewrite !name_index by done. cbn [fst snd].
  by rewrite (decide_False (P:=dom = dom')).
Qed.

(** ** Reading and writing the index *)

(** The index holds a payload over [>]. *)
Record loaded (i : string) (p : payload) (s : conf (W:=W)) : Prop := Loaded {
  ld_cache : ∃ c, cs_cache s !! i = Some c ∧ cc_data c = p;
  ld_wf : wf_payload p;
  ld_delim : kp_delim p = sep d
}.

Definition cell (p : payload) (path : list string) : option value := lookup path (kp_data p).

Lemma get_cell i p s key path :
  loaded i p s → split d key = path → forallb plain path = true → forallb accepted path = true →
  get i key s = (Ok (default VNull (cell p path)), s).
Proof.
  intros [(c & Hc & <-) [Hwf Hdict _] Hdel] <- Hp Ha. unfold get, get_val. rewrite (with_index_ok _ _ _ _ c) by done.
  unfold cache_get, Payload.get, st_bind, st_lift. rewrite (with_delim_sep _ d) by done.
  rewrite get_plain by (done || apply split_nonempty). unfold st_ret, cell. by destruct (default _ _).
Qed.

Lemma set_cell i p s key v :
  loaded i p s → wf v →
  ∃ p', set i key v s = ((Payload.set key v p).1, (set i key v s).2) ∧
    p' = (Payload.set key v p).2 ∧ loaded i p' (set i key v s).2 ∧
    cs_now (set i key v s).2 = cs_now s ∧
    ((Payload.set key v p).1 = Ok tt → cell p' (split d key) = Some v) ∧
    (∀ q, diverge (split d key) q = true → cell p' q = cell p q).
Proof.
  intros [(c & Hc & <-) Hwf Hdel] Hv.
  assert (Hv' : ∀ k0 v0, OpSet key v = OpSet k0 v0 → wf v0) by (by intros ? ? [= _ <-]).
  pose proof (wf_step (OpSet key v) _ Hwf Hv') as Hwf'. simpl in Hwf'.
  pose proof (denotes_set (cc_data c) key v Hwf) as Hden.
  destruct (set_data (cc_data c) key v d Hdel) as (Hdata & Hdel' & _).
  eexists. split; [|split; [reflexivity|]].
  { unfold set, on_cache. rewrite (with_index_ok _ _ _ _ c) by done.
    unfold cache_set, cache_mutate. by destruct (Payload.set key v (cc_data c)) as [[[]|e] p']. }
  unfold set, on_cache. rewrite (with_index_ok _ _ _ _ c) by done. unfold cache_set, cache_mutate.
  split; [|split; [|split]].
  - constructor; [|done|congruence].
    destruct (Payload.set key v (cc_data c)) as [[[]|e] p']; simpl; rewrite lookup_insert_eq; eauto.
  - by destruct (Payload.set key v (cc_data c)) as [[[]|e] p'].
  - intros Hok. specialize (Hden Hok). unfold denotes in Hden. rewrite (with_delim_sep _ d) in Hden; [done|congruence].
  - intros q Hq. unfold cell. rewrite Hdata. by apply lookup_set_diverge.
Qed.

Lemma delete_cell i p s key force :
  loaded i p s →
  ∃ p', delete i key force s = ((Payload.delete key force p).1, (delete i key force s).2) ∧
    p' = (Payload.delete key force p).2 ∧ loaded i p' (delete i key force s).2 ∧
    cs_now (delete i key force s).2 = cs_now s ∧
    (∀ q, diverge (split d key) q = true → cell p' q = cell p q).
Proof.
  intros [(c & Hc & <-) Hwf Hdel].
  pose proof (wf_step (OpDelete key force) _ Hwf ltac:(done)) as Hwf'. simpl in Hwf'.
  destruct (delete_data (cc_data c) key force d Hdel) as (Hdata & Hdel' & _).
  eexists. split; [|split; [reflexivity|]].
  { unfold delete, on_cache. rewrite (with_index_ok _ _ _ _ c) by done.
    unfold cache_delete, cache_mutate. by destruct (Payload.delete key force (cc_data c)) as [[r|e] p']. }
  unfold delete, on_cache. rewrite (with_index_ok _ _ _ _ c) by done. unfold cache_delete, cache_mutate.
  split; [|split].
  - constructor; [|done|congruence].
    destruct (Payload.delete key force (cc_data c)) as [[r|e] p']; simpl; rewrite lookup_insert_eq; eauto.
  - by destruct (Payload.delete key force (cc_data c)) as [[r|e] p'].
  - intros q Hq. unfold cell. rewrite Hdata. by apply lookup_delete_diverge.
Qed.

(** ** The states of the lock *)

(** [o] holds the lock of [dom] until [t]. *)
Record held (i dom o : string) (t : Z) (s : conf (W:=W)) : Prop := Held {
  hl_loaded : ∃ p, loaded i p s ∧ cell p (owner_path dom) = Some (VStr o) ∧
                   cell p (end_path dom) = Some (VStr (str_time t));
  hl_dom : clean_name d dom = true
}.

Lemma get_owner i p s dom :
  clean_name d dom = true → loaded i p s →
  get i (owner_key (VStr dom)) s = (Ok (default VNull (cell p (owner_path dom))), s).
Proof.
  intros Hd Hp. destruct (path_ok dom Hd) as (? & ? & ? & ?).
  by apply get_cell; [|apply key_paths|..].
Qed.

Lemma get_end i p s dom :
  clean_name d dom = true → loaded i p s →
  get i (end_key (VStr dom)) s = (Ok (default VNull (cell p (end_path dom))), s).
Proof.
  intros Hd Hp. destruct (path_ok dom Hd) as (? & ? & ? & ?).
  by apply get_cell; [|apply key_paths|..].
Qed.

Lemma loaded_index {A} e i p s (f : cache → ST (conf (W:=W)) A) :
  loaded i p s → ∃ c, with_index e i f s = f c s.
Proof. intros [(c & Hc & _) _ _]. exists c. by apply with_index_ok. Qed.

Lemma test_lock_eq i p s o dom :
  loaded i p s →
  test_lock i [("owner", o); ("domain", VStr dom)] s = lock_free py_float repr i o (VStr dom) s.
Proof.
  intros Hp. unfold Conf.test_lock.
  by edestruct (loaded_index (A:=bool)) as [c ->].
Qed.

Lemma test_as_eq i p s o dom :
  loaded i p s → test_as i o dom s = lock_free py_float repr i (VStr o) (VStr dom) s.
Proof.
  intros Hp. unfold test_as, Conf.test_lock.
  by edestruct (loaded_index (A:=bool)) as [c ->].
Qed.

Lemma lock_as_eq i p s o dom n :
  loaded i p s →
  lock_as i o dom n s =
  (let! free := test_as i o dom in
   if free : bool then
     lock_owner repr i (VStr o) (VStr dom) ;;; lock_end str_time repr second i (VStr dom) (VInt n) ;;;
     sleep delay ;;; lock_confirm repr i (VStr o) (VStr dom)
   else st_ret false) s.
Proof.
  intros Hp. unfold lock_as, Conf.lock.
  by edestruct (loaded_index (A:=bool)) as [c ->].
Qed.

Lemma unlock_as_eq i p s o dom force :
  loaded i p s →
  unlock_as i o dom force s =
  (let! current := get i (owner_key (VStr dom)) in
   if py_eq current (VStr o) || force then
     delete i (owner_key (VStr dom)) false ;;; delete i (end_key (VStr dom)) false ;;; st_ret true
   else st_ret false) s.
Proof.
  intros Hp. unfold unlock_as, Conf.unlock.
  by edestruct (loaded_index (A:=bool)) as [c ->].
Qed.

Lemma str_eq a b : py_eq (VStr a) (VStr b) = bool_decide (a = b).
Proof. done. Qed.

Lemma unset_str a : unset (VStr a) = bool_decide (a = "").
Proof. done. Qed.

Lemma free_held i dom o t s o' :
  held i dom o t s → o ≠ "" → o' ≠ o →
  lock_free py_float repr i (VStr o') (VStr dom) s = (Ok (t <? cs_now s)%Z, s).
Proof.
  intros [(p & Hp & Ho & He) Hd] Hne Hoo. unfold lock_free, st_bind.
  rewrite (get_owner i p) by done. rewrite Ho. cbn [default from_option id].
  rewrite unset_str, str_eq, !bool_decide_false by done. cbn [orb].
  rewrite (get_end i p) by done. rewrite He. cbn [default from_option id].
  rewrite unset_str, bool_decide_false by apply str_time_ne.
  unfold st_lift. by rewrite float_str.
Qed.

(** ** Acquiring *)

(** The body of [lock] once its arguments are read. *)
Definition acquire (i : string) (o : value) (dom : string) (dur : value) : ST (conf (W:=W)) bool :=
  let! free := test_lock i [("owner", o); ("domain", VStr dom)] in
  if free : bool then
    lock_owner repr i o (VStr dom) ;;; lock_end str_time repr second i (VStr dom) dur ;;;
    sleep delay ;;; lock_confirm repr i o (VStr dom)
  else st_ret false.

Lemma test_lock_pure i p s o dom :
  loaded i p s → clean_name d dom = true →
  (test_lock i [("owner", o); ("domain", VStr dom)] s).2 = s.
Proof.
  intros Hp Hd. rewrite (test_lock_eq i p) by done. unfold lock_free, st_bind. rewrite (get_owner i p) by done.
  destruct (_ || _); [done|]. rewrite (get_end i p) by done. destruct (unset _); [done|].
  unfold st_lift. by destruct (py_float _).
Qed.

(** Success leaves the owner and the end of the lock in the index. *)
Lemma acquire_cells i p s o dom dur s1 :
  loaded i p s → clean_name d dom = true → wf o →
  acquire i o dom dur s = (Ok true, s1) →
  ∃ p', loaded i p' s1 ∧ cell p' (owner_path dom) = Some o ∧
        cell p' (end_path dom) = Some (VStr (str_time (cs_now s + ticks second dur))) ∧
        cs_now s1 = (cs_now s + delay)%Z.
Proof.
  intros Hp Hd Hwo. unfold acquire, st_bind at 1.
  pose proof (test_lock_pure i p s o dom Hp Hd) as Htest.
  destruct (test_lock i _ s) as [[[]|e] s0]; simpl in Htest; subst s0; try done.
  destruct (key_paths dom Hd) as [Hko Hke]. destruct (paths_diverge dom Hd) as [Hoe Heo].
  unfold st_bind, lock_owner.
  destruct (set_cell i p s (owner_key (VStr dom)) o Hp Hwo)
    as (p1 & Hs1 & _ & Hp1 & Hn1 & Hc1 & Hf1).
  rewrite Hs1. destruct (Payload.set _ _ p).1 as [[]|e] eqn:E1; [|done]. specialize (Hc1 eq_refl).
  rewrite Hko in Hc1, Hf1. unfold lock_end. rewrite Hn1.
  set (s2 := (set i (owner_key (VStr dom)) o s).2) in *.
  destruct (set_cell i p1 s2 (end_key (VStr dom)) (VStr (str_time (cs_now s + ticks second dur))) Hp1
              ltac:(constructor)) as (p2 & Hs2 & _ & Hp2 & Hn2 & Hc2 & Hf2).
  rewrite Hs2. destruct (Payload.set _ _ p1).1 as [[]|e] eqn:E2; [|done]. specialize (Hc2 eq_refl).
  rewrite Hke in Hc2, Hf2. set (s3 := (set i (end_key (VStr dom)) _ s2).2) in *.
  unfold sleep, lock_confirm, st_bind.
  assert (Hp3 : loaded i p2 (set_env (cs_stores s3) (cs_world s3) (cs_now s3 + delay) s3)).
  { destruct Hp2 as [Hc ? ?]. by constructor. }
  rewrite (get_owner i p2) by done. unfold st_ret. intros [= _ <-]. exists p2.
  split; [done|]. split; [by rewrite Hf2|]. split; [done|]. simpl. congruence.
Qed.

(** A successful call leaves the lock held for its duration. *)
Lemma lock_held i p s o dom n s1 :
  loaded i p s → clean_name d dom = true →
  lock_as i o dom n s = (Ok true, s1) →
  held i dom o (cs_now s + n * second) s1 ∧ cs_now s1 = (cs_now s + delay)%Z.
Proof.
  intros Hp Hd. rewrite (lock_as_eq i p) by done. intros Hl.
  destruct (acquire_cells i p s (VStr o) dom (VInt n) s1) as (p' & ? & ? & ? & ?);
    [done|done|constructor|exact Hl|].
  split; [|done]. constructor; eauto.
Qed.

(** What other callers may do while [o] holds the lock of [dom], short of
    releasing it by force: attempts to take or release any lock in their own
    name, forced releases of other domains, writes and deletions that part by
    name from the two keys of the lock, and anything that leaves the data of the
    index alone and does not turn the clock back. *)
Inductive other_step (i dom o : string) : conf (W:=W) → conf → Prop :=
| OtherLock o' dom' n s :
    o' ≠ o → clean_name d dom' = true →
    other_step i dom o s (lock_as i o' dom' n s).2
| OtherUnlock o' dom' s :
    o' ≠ o → clean_name d dom' = true →
    other_step i dom o s (unlock_as i o' dom' false s).2
| OtherForce o' dom' s :
    dom' ≠ dom → clean_name d dom' = true →
    other_step i dom o s (unlock_as i o' dom' true s).2
| OtherSet key v s :
    wf v → diverge (split d key) (owner_path dom) = true → diverge (split d key) (end_path dom) = true →
    other_step i dom o s (set i key v s).2
| OtherDelete key force s :
    diverge (split d key) (owner_path dom) = true → diverge (split d key) (end_path dom) = true →
    other_step i dom o s (delete i key force s).2
| OtherFrame s s' :
    cc_data <$> cs_cache s' !! i = cc_data <$> cs_cache s !! i → (cs_now s ≤ cs_now s')%Z →
    other_step i dom o s s'.

Lemma held_set i dom o t s key v :
  held i dom o t s → wf v →
  diverge (split d key) (owner_path dom) = true → diverge (split d key) (end_path dom) = true →
  held i dom o t (set i key v s).2 ∧ cs_now (set i key v s).2 = cs_now s.
Proof.
  intros [(p & Hp & Ho & He) Hd] Hv H1 H2.
  destruct (set_cell i p s key v Hp Hv) as (p' & _ & _ & Hp' & Hn & _ & Hf).
  split; [|done]. constructor; [|done]. exists p'. split; [done|]. by rewrite !Hf.
Qed.

Lemma held_delete i dom o t s key force :
  held i dom o t s →
  diverge (split d key) (owner_path dom) = true → diverge (split d key) (end_path dom) = true →
  held i dom o t (delete i key force s).2 ∧ cs_now (delete i key force s).2 = cs_now s.
Proof.
  intros [(p & Hp & Ho & He) Hd] H1 H2.
  destruct (delete_cell i p s key force Hp) as (p' & _ & _ & Hp' & Hn & Hf).
  split; [|done]. constructor; [|done]. exists p'. split; [done|]. by rewrite !Hf.
Qed.

Lemma held_frame i dom o t s s' :
  held i dom o t s → cc_data <$> cs_cache s' !! i = cc_data <$> cs_cache s !! i → held i dom o t s'.
Proof.
  intros [(p & [(c & Hc & Hcp) Hwf Hdel] & Ho & He) Hd] Hs. constructor; [|done].
  exists p. split; [|done]. constructor; [|done..]. rewrite Hc in Hs.
  destruct (cs_cache s' !! i) as [c'|]; [|done]. exists c'. split; [done|]. injection Hs. congruence.
Qed.

(** [test_lock], whatever it answers, changes nothing. *)
Lemma test_as_pure i p s o dom :
  loaded i p s → clean_name d dom = true → (test_as i o dom s).2 = s.
Proof.
  intros Hp Hd. rewrite (test_as_eq i p) by done. unfold lock_free, st_bind.
  rewrite (get_owner i p) by done.
  destruct (_ || _); [done|]. rewrite (get_end i p) by done. destruct (unset _); [done|].
  unfold st_lift. by destruct (py_float _).
Qed.

Lemma held_lock_other i dom o t s o' dom' n :
  held i dom o t s → clean_name d dom' = true → dom' ≠ dom → held i dom o t (lock_as i o' dom' n s).2.
Proof.
  intros Hh Hd' Hne. pose proof Hh as [(p & Hp & _) Hd].
  rewrite (lock_as_eq i p) by done. unfold st_bind at 1.
  pose proof (test_as_pure i p s o' dom' Hp Hd') as Htest.
  destruct (test_as i o' dom' s) as [[[]|e] s0]; simpl in Htest; subst s0; try done.
  destruct (key_paths dom' Hd') as [Hko Hke].
  unfold st_bind, lock_owner.
  assert (Hdiv : ∀ x y, diverge ["lock"; dom'; x] ["lock"; dom; y] = true)
    by (intros; by apply domains_diverge).
  destruct (held_set i dom o t s (owner_key (VStr dom')) (VStr o') Hh ltac:(constructor)) as [Hh1 _];
    [rewrite Hko; apply Hdiv..|].
  destruct (set i (owner_key (VStr dom')) (VStr o') s) as [[[]|e] s1]; [|done]. cbn [snd] in Hh1.
  unfold lock_end.
  destruct (held_set i dom o t s1 (end_key (VStr dom')) (VStr (str_time (cs_now s1 + ticks second (VInt n)))) Hh1
    ltac:(constructor)) as [Hh2 _]; [rewrite Hke; apply Hdiv..|].
  destruct (set i (end_key (VStr dom')) _ s1) as [[[]|e] s2]; [|done]. cbn [snd] in Hh2.
  unfold sleep, lock_confirm, st_bind.
  assert (Hh3 : held i dom o t (set_env (cs_stores s2) (cs_world s2) (cs_now s2 + delay) s2))
    by (by eapply held_frame).
  pose proof Hh3 as [(p3 & Hp3 & _) _]. by rewrite (get_owner i p3).
Qed.

Lemma held_unlock_other i dom o t s o' dom' force :
  held i dom o t s → clean_name d dom' = true → dom' ≠ dom → held i dom o t (unlock_as i o' dom' force s).2.
Proof.
  intros Hh Hd' Hne. pose proof Hh as [(p & Hp & _) Hd].
  rewrite (unlock_as_eq i p) by done. unfold st_bind at 1. rewrite (get_owner i p) by done.
  destruct (_ || _); [|done]. destruct (key_paths dom' Hd') as [Hko Hke]. unfold st_bind.
  assert (Hdiv : ∀ x y, diverge ["lock"; dom'; x] ["lock"; dom; y] = true)
    by (intros; by apply domains_diverge).
  destruct (held_delete i dom o t s (owner_key (VStr dom')) false Hh) as [Hh1 _]; [rewrite Hko; apply Hdiv..|].
  destruct (delete i (owner_key (VStr dom')) false s) as [[r|e] s1]; [|done].
  destruct (held_delete i dom o t s1 (end_key (VStr dom')) false Hh1) as [Hh2 _]; [rewrite Hke; apply Hdiv..|].
  by destruct (delete i (end_key (VStr dom')) false s1) as [[r'|e] s2].
Qed.

(** While the lock is held and not expired, other owners are refused. *)
Lemma refused i dom o t s o' n :
  held i dom o t s → o ≠ "" → o' ≠ o → (cs_now s ≤ t)%Z →
  lock_as i o' dom n s = (Ok false, s) ∧ test_as i o' dom s = (Ok false, s) ∧
  unlock_as i o' dom false s = (Ok false, s).
Proof.
  intros Hh Hne Hoo Ht. pose proof Hh as [(p & Hp & Ho & _) Hd].
  assert (Htest : test_as i o' dom s = (Ok false, s)).
  { rewrite (test_as_eq i p) by done. rewrite (free_held i dom o t) by done. do 3 f_equal. lia. }
  split; [|split; [done|]].
  - rewrite (lock_as_eq i p) by done. unfold st_bind at 1. by rewrite Htest.
  - rewrite (unlock_as_eq i p) by done. unfold st_bind at 1. rewrite (get_owner i p), Ho by done.
    cbn [default from_option id]. by rewrite str_eq, bool_decide_false.
Qed.

Lemma other_step_held i dom o t s s' :
  o ≠ "" → held i dom o t s → (cs_now s ≤ t)%Z → other_step i dom o s s' → held i dom o t s'.
Proof.
  intros Hne Hh Ht. destruct 1 as [o' dom' n s Hoo Hd'|o' dom' s Hoo Hd'|o' dom' s Hdd Hd'|key v s Hv H1 H2|key force s H1 H2|s s' Hs Hn].
  - destruct (decide (dom' = dom)) as [->|]; [|by apply held_lock_other].
    by destruct (refused i dom o t s o' n) as (-> & _).
  - destruct (decide (dom' = dom)) as [->|]; [|by apply held_unlock_other].
    by destruct (refused i dom o t s o' 0) as (_ & _ & ->).
  - by apply held_unlock_other.
  - by apply held_set.
  - by apply held_delete.
  - by eapply held_frame.
Qed.

(** The clock is never turned back. *)
Lemma now_set i key v s : cs_now (set i key v s).2 = cs_now s.
Proof. unfold set, on_cache, with_index. destruct (cs_cache s !! i); [|done]. by destruct (cache_set _ _ _). Qed.

Lemma now_delete i key force s : cs_now (delete i key force s).2 = cs_now s.
Proof. unfold delete, on_cache, with_index. destruct (cs_cache s !! i); [|done]. by destruct (cache_delete _ _ _). Qed.

Lemma get_pure i key s : (get i key s).2 = s.
Proof.
  unfold get, get_val, with_index. destruct (cs_cache s !! i); [|done]. unfold st_bind, st_lift.
  by destruct (cache_get _ _ _).
Qed.

Lemma free_pure i o dom s : (lock_free py_float repr i o dom s).2 = s.
Proof.
  unfold lock_free, st_bind. pose proof (get_pure i (owner_key dom) s) as H1.
  destruct (get i (owner_key dom) s) as [[v|e] s1]; simpl in H1; subst s1; [|done].
  destruct (_ || _); [done|]. pose proof (get_pure i (end_key dom) s) as H1.
  destruct (get i (end_key dom) s) as [[w|e] s1]; simpl in H1; subst s1; [|done].
  destruct (unset w); [done|]. unfold st_lift. by destruct (py_float w).
Qed.

Lemma now_lock i kwargs s : (cs_now s ≤ cs_now (lock i kwargs s).2)%Z.
Proof.
  unfold Conf.lock, with_index. destruct (cs_cache s !! i); [|done]. unfold st_bind at 1, st_lift.
  destruct (check_kwargs _ _ _ _); [|done]. unfold st_bind at 1.
  set (kw := [("owner", _); ("domain", _)]).
  assert ((test_lock i kw s).2 = s) as Ht.
  { unfold Conf.test_lock, with_index. destruct (cs_cache s !! i); [|done]. unfold st_bind, st_lift.
    destruct (check_kwargs _ _ _ _); [apply free_pure|done]. }
  destruct (test_lock i kw s) as [[[]|e] s0]; simpl in Ht; subst s0; try done.
  unfold st_bind, lock_owner, lock_end.
  set (ok := owner_key _). set (ek := end_key _). set (o := kwarg "owner" _ _).
  pose proof (now_set i ok o s) as H1. destruct (set i ok o s) as [[u|e] s1]; simpl in *; [|lia].
  set (v := VStr _). pose proof (now_set i ek v s1) as H2.
  destruct (set i ek v s1) as [[u'|e] s2]; simpl in *; [|lia].
  set (s3 := set_env _ _ _ s2). unfold lock_confirm, st_bind. fold ok.
  pose proof (get_pure i ok s3) as H3.
  destruct (get i ok s3) as [[w|e] s4]; simpl in *; subst s4; simpl; lia.
Qed.

Lemma now_unlock i kwargs s : (cs_now s ≤ cs_now (unlock i kwargs s).2)%Z.
Proof.
  unfold Conf.unlock, with_index. destruct (cs_cache s !! i); [|done]. unfold st_bind at 1, st_lift.
  destruct (check_kwargs _ _ _ _); [|done]. unfold st_bind.
  set (ok := owner_key _). set (ek := end_key _).
  pose proof (get_pure i ok s) as H0.
  destruct (get i ok s) as [[w|e] s0]; simpl in *; subst s0; [|done]. destruct (_ || _); [|done].
  pose proof (now_delete i ok false s) as H1. destruct (delete i ok false s) as [[u|e] s1]; simpl in *; [|lia].
  pose proof (now_delete i ek false s1) as H2.
  destruct (delete i ek false s1) as [[u'|e] s2]; simpl in *; lia.
Qed.

Lemma other_step_now i dom o s s' : other_step i dom o s s' → (cs_now s ≤ cs_now s')%Z.
Proof.
  destruct 1; [apply now_lock|apply now_unlock|apply now_unlock|rewrite now_set; lia|rewrite now_delete; lia|done].
Qed.

Lemma other_steps_held i dom o t s s' :
  o ≠ "" → held i dom o t s → rtc (other_step i dom o) s s' → (cs_now s' ≤ t)%Z → held i dom o t s'.
Proof.
  intros Hne Hh Hst Ht. revert Hh. induction Hst as [s|s s1 s2 H1 H2 IH]; intros Hh; [done|].
  assert (Hn : (cs_now s1 ≤ cs_now s2)%Z).
  { clear -H2 delay_nonneg. induction H2 as [|s s1 s2 H1 H2 IH]; [done|]. etrans; [by eapply other_step_now|done]. }
  pose proof (other_step_now _ _ _ _ _ H1). apply IH; [done|].
  apply (other_step_held i dom o t s s1); [done|done|lia|done].
Qed.

(** ** Expired locks are free *)

Lemma free_expired i dom o t s o' :
  held i dom o t s → (t < cs_now s)%Z → test_as i o' dom s = (Ok true, s).
Proof.
  intros [(p & Hp & Ho & He) Hd] Ht. rewrite (test_as_eq i p) by done. unfold lock_free, st_bind.
  rewrite (get_owner i p) by done. rewrite Ho. cbn [default from_option id]. destruct (_ || _); [done|].
  rewrite (get_end i p) by done. rewrite He. cbn [default from_option id].
  rewrite unset_str, bool_decide_false by apply str_time_ne.
  unfold st_lift. rewrite float_str. do 3 f_equal. lia.
Qed.

Lemma set_held_key i p s key v path x :
  loaded i p s → split d key = path → forallb accepted path = true → cell p path = Some x →
  (Payload.set key v p).1 = Ok tt.
Proof.
  intros [_ Hwf Hdel] <- Ha Hx. destruct (set_data p key v d Hdel) as (_ & _ & ->).
  apply (set_present _ _ _ x); [apply split_nonempty| |done].
  apply forallb_forall. intros k Hk. rewrite forallb_forall in Ha. by rewrite (accepted_not_bad _ (Ha _ Hk)).
Qed.

(** The lock can be taken where its two keys are and it is free. *)
Lemma lock_taken i p s o dom n x y :
  loaded i p s → clean_name d dom = true → cell p (owner_path dom) = Some x → cell p (end_path dom) = Some y →
  test_as i o dom s = (Ok true, s) → (lock_as i o dom n s).1 = Ok true.
Proof.
  intros Hp Hd Hx Hy Ht. rewrite (lock_as_eq i p) by done. unfold st_bind at 1. rewrite Ht.
  destruct (key_paths dom Hd) as [Hko Hke]. destruct (paths_diverge dom Hd) as [Hoe Heo].
  destruct (path_ok dom Hd) as (Hao & Hae & _ & _).
  unfold st_bind, lock_owner.
  destruct (set_cell i p s (owner_key (VStr dom)) (VStr o) Hp ltac:(constructor))
    as (p1 & Hs1 & _ & Hp1 & Hn1 & Hc1 & Hf1).
  pose proof (set_held_key i p s _ (VStr o) _ x Hp Hko Hao Hx) as E1.
  rewrite Hs1, E1. specialize (Hc1 E1). rewrite Hko in Hc1, Hf1. unfold lock_end.
  set (s2 := (set i (owner_key (VStr dom)) (VStr o) s).2) in *. set (v := VStr (str_time _)).
  destruct (set_cell i p1 s2 (end_key (VStr dom)) v Hp1 ltac:(constructor)) as (p2 & Hs2 & _ & Hp2 & Hn2 & _ & Hf2).
  assert (Hy1 : cell p1 (end_path dom) = Some y) by (by rewrite Hf1).
  rewrite Hs2, (set_held_key i p1 s2 _ v _ y Hp1 Hke Hae Hy1). rewrite Hke in Hf2.
  set (s3 := (set i (end_key (VStr dom)) v s2).2) in *. unfold sleep, lock_confirm, st_bind.
  assert (Hp3 : loaded i p2 (set_env (cs_stores s3) (cs_world s3) (cs_now s3 + delay) s3)).
  { destruct Hp2 as [Hc ? ?]. by constructor. }
  rewrite (get_owner i p2) by done. unfold st_ret. rewrite Hf2, Hc1 by done. cbn [default from_option id fst].
  by rewrite str_eq, bool_decide_true.
Qed.

(** Its holder, or whoever forces it, releases a held lock. *)
Lemma unlock_held i dom o t s o' force :
  held i dom o t s → o' = o ∨ force = true →
  ∃ s3, unlock_as i o' dom force s = (Ok true, s3) ∧ ∀ o'', test_as i o'' dom s3 = (Ok true, s3).
Proof.
  intros [(p2 & Hp2 & Ho & He) Hd] Hof. rewrite (unlock_as_eq i p2) by done.
  destruct (key_paths dom Hd) as [Hko Hke]. destruct (paths_diverge dom Hd) as [Hoe Heo].
  destruct (path_ok dom Hd) as (Hao & Hae & Hpo & Hpe). unfold st_bind.
  rewrite (get_owner i p2), Ho by done. cbn [default from_option id].
  assert (py_eq (VStr o) (VStr o') || force = true) as ->.
  { rewrite str_eq. destruct Hof as [->| ->]; [by rewrite bool_decide_true|apply orb_true_r]. }
  destruct (delete_cell i p2 s (owner_key (VStr dom)) false Hp2) as (p3 & Hs3 & Hp3e & Hp3 & _ & Hf3).
  destruct (delete_cell i p3 (delete i (owner_key (VStr dom)) false s).2 (end_key (VStr dom)) false Hp3)
    as (p4 & Hs4 & Hp4e & Hp4 & _ & Hf4).
  assert (Hd3 : (Payload.delete (owner_key (VStr dom)) false p2).1 = Ok true).
  { destruct (delete_data p2 (owner_key (VStr dom)) false d (ld_delim _ _ _ Hp2)) as (_ & _ & ->).
    rewrite Hko. by apply (delete_leaf _ _ _ (VStr o)). }
  assert (Hd4 : (Payload.delete (end_key (VStr dom)) false p3).1 = Ok true).
  { destruct (delete_data p3 (end_key (VStr dom)) false d (ld_delim _ _ _ Hp3)) as (_ & _ & ->).
    rewrite Hke. apply (delete_leaf _ _ _ (VStr (str_time t))); try done.
    rewrite <- He. rewrite Hko in Hf3. by apply Hf3. }
  rewrite Hs3, Hd3. rewrite Hs4, Hd4. eexists. split; [done|]. intros o''.
  rewrite (test_as_eq i p4) by done. unfold lock_free, st_bind. rewrite (get_owner i p4) by done.
  assert (cell p4 (owner_path dom) = None) as ->; [|done].
  rewrite Hke in Hf4. rewrite Hf4 by done. subst p3. unfold cell.
  destruct (delete_data p2 (owner_key (VStr dom)) false d (ld_delim _ _ _ Hp2)) as (-> & _ & Hr).
  rewrite Hd3 in Hr. rewrite Hko in *.
  destruct (Payload._delete (owner_path dom) false (kp_data p2)) as [r data'] eqn:Hdel.
  simpl in Hr. subst r. destruct (ld_wf _ _ _ Hp2) as [Hwf _ _].
  apply delete_true in Hdel as [_ Hn]; [|done]. unfold left_behind in Hn. rewrite element_of_plain in Hn by done. exact Hn.
Qed.

(** ** Properties *)


(** C18.  Progress: a lock can be taken by another owner once it has expired,
    and its holder can release it before, after which everyone finds it
    free. *)
Theorem lock_progress i p s o dom n s1 s2 o' n' :
  loaded i p s → clean_name d dom = true → o ≠ "" → 
  lock_as i o dom n s = (Ok true, s1) → rtc (other_step i dom o) s1 s2 →
  (cs_now s2 ≤ cs_now s + n * second)%Z →
  (∀ s3, cc_data <$> cs_cache s3 !! i = cc_data <$> cs_cache s2 !! i →
     (cs_now s + n * second < cs_now s3)%Z → (lock_as i o' dom n' s3).1 = Ok true) ∧
  ∃ s3, unlock_as i o dom false s2 = (Ok true, s3) ∧ test_as i o' dom s3 = (Ok true, s3).
Proof.
  intros Hp Hd Hne Hl Hst Ht. destruct (lock_held i p s o dom n s1 Hp Hd Hl) as [Hh1 _].
  assert (Hh : held i dom o (cs_now s + n * second) s2) by (by eapply other_steps_held).
  split.
  - intros s3 Hs3 Hn3. pose proof (held_frame _ _ _ _ _ _ Hh Hs3) as Hh3.
    pose proof Hh3 as [(p3 & Hp3 & Ho & He) _].
    eapply (lock_taken i p3); [done..|]. by eapply free_expired.
  - destruct (unlock_held i dom o _ s2 o false Hh) as (s3 & ? & ?); [by left|]. by exists s3.
Qed.

(** On a host without a machine id the default owner is [None], and
    a lock taken in its name keeps nobody out: everyone still finds it free. *)
Theorem lock_no_machine_id i p s s1 o' :
  loaded i p s → cs_lock_owner s = VNull → lock i [] s = (Ok true, s1) →
  test_as i o' "default" s1 = (Ok true, s1).
Proof.
  intros Hp Hnull. unfold Conf.lock. edestruct (loaded_index (A:=bool)) as [c ->]; [done|].
  intros Hl. 
  assert (Hl' : acquire i (cs_lock_owner s) "default" (VInt 10) s = (Ok true, s1)) by exact Hl.
  rewrite Hnull in Hl'.
  destruct (acquire_cells i p s VNull "default" (VInt 10) s1) as (p' & Hp' & Ho & _);
    [done|done|constructor|exact Hl'|].
  rewrite (test_as_eq i p') by done. unfold lock_free, st_bind. by rewrite (get_owner i p'), Ho.
Qed.

End lock.
End ConfLock.
