(* ===== verification/LockProtocol.v ===== *)
(** The lock protocol of [ConfStore.lock] when calls of several processes on
    one shared store interleave: each access to the store is one step, and
    time passes between steps. *)
From S2P Require Import Prelude.

Module LockProtocol.

(** What the store holds under the two keys of the lock, and the clock.  An
    owner that is absent, [None] or empty is nobody. *)
Record cell := Cell {
  owner : option string;
  ends : option Z;
  now : Z
}.

(** Where a call of [lock] is: before the test, between the two reads of the
    test (begun at [t]), after a successful test begun at [t], after the
    owner's write, after the write of the end time at [t] (asleep), returned. *)
Inductive phase :=
| Start
| Saw (t : Z)
| Tested (t : Z)
| Wrote
| Ended (t : Z)
| Won
| Lost.

Section protocol.
(** The [time.sleep] of [lock], and the duration asked for, in ticks. *)
Context (delay dur : Z).

(** The accesses of one call by [o], in the order of the code. *)
Inductive access (o : string) : cell → phase → cell → phase → Prop :=
| read_owner_free c :
    (owner c = None ∨ owner c = Some "" ∨ owner c = Some o) → access o c Start c (Tested (now c))
| read_owner_other c w :
    owner c = Some w → w ≠ "" → w ≠ o → access o c Start c (Saw (now c))
| read_end_free c t :
    match ends c with None => True | Some e => (e < now c)%Z end → access o c (Saw t) c (Tested t)
| read_end_busy c t e :
    ends c = Some e → (now c ≤ e)%Z → access o c (Saw t) c Lost
| write_owner c t :
    access o c (Tested t) (Cell (Some o) (ends c) (now c)) Wrote
| write_end c :
    access o c Wrote (Cell (owner c) (Some (now c + dur)%Z) (now c)) (Ended (now c))
| confirm_own c t :
    (t + delay ≤ now c)%Z → owner c = Some o → access o c (Ended t) c Won
| confirm_other c t :
    (t + delay ≤ now c)%Z → owner c ≠ Some o → access o c (Ended t) c Lost.

Definition passed (c : cell) (dt : Z) : cell := Cell (owner c) (ends c) (now c + dt).

(** One call on its own: its accesses and the time between them. *)
Inductive run (o : string) : cell * phase → cell * phase → Prop :=
| run_access c ph c' ph' : access o c ph c' ph' → run o (c, ph) (c', ph')
| run_tick c ph dt : (0 ≤ dt)%Z → run o (c, ph) (passed c dt, ph).

(** Several calls, each by an owner of its own, none of them the empty name that
    [test_lock] takes for nobody.  [patience] bounds the time a
    call takes from the start of its test to its write of the owner. *)
Context (patience : Z).

Definition testing (ph : phase) : option Z :=
  match ph with Saw t | Tested t => Some t | _ => None end.

Record system := System { store : cell; calls : gmap string phase }.

Inductive step : system → system → Prop :=
| step_call s o ph c' ph' :
    calls s !! o = Some ph → access o (store s) ph c' ph' →
    step s (System c' (<[o := ph']> (calls s)))
| step_tick s dt :
    (0 ≤ dt)%Z →
    (∀ o ph t, calls s !! o = Some ph → testing ph = Some t → (now (store s) + dt ≤ t + patience)%Z) →
    step s (System (passed (store s) dt) (calls s)).

Definition initial (s : system) : Prop := ∀ o ph, calls s !! o = Some ph → ph = Start ∧ o ≠ "".

(** ** The invariant *)

Definition past_end (ph : phase) : bool := match ph with Ended _ | Won => true | _ => false end.
Definition past_write (ph : phase) : bool := match ph with Wrote | Ended _ | Won => true | _ => false end.
Definition done_write (ph : phase) : bool := match ph with Wrote | Ended _ | Won | Lost => true | _ => false end.

Record inv (now0 : Z) (s : system) : Prop := Inv {
  inv_names : calls s !! "" = None;
  inv_clock : (now0 ≤ now (store s))%Z;
  inv_testing : ∀ o ph t, calls s !! o = Some ph → testing ph = Some t →
    (t ≤ now (store s) ≤ t + patience)%Z;
  inv_ended : ∀ o t, calls s !! o = Some (Ended t) → (t ≤ now (store s))%Z;
  inv_end : ∀ o ph, calls s !! o = Some ph → past_end ph = true →
    ∃ e, ends (store s) = Some e ∧ (now0 + dur ≤ e)%Z;
  inv_owner : ∀ o ph, calls s !! o = Some ph → past_write ph = true →
    ∃ w ph', owner (store s) = Some w ∧ calls s !! w = Some ph' ∧ done_write ph' = true;
  inv_order : ∀ a b ta tb, calls s !! a = Some (Ended ta) → calls s !! b = Some (Tested tb) → (tb ≤ ta)%Z;
  inv_won : ∀ a, calls s !! a = Some Won →
    owner (store s) = Some a ∧ ∀ b t, calls s !! b ≠ Some (Tested t)
}.

Lemma inv_init s : initial s → (0 ≤ patience)%Z → inv (now (store s)) s.
Proof.
  intros Hi Hp.
  assert (Hn : calls s !! "" = None) by (destruct (calls s !! "") eqn:E; [by apply Hi in E as [_ ?]|done]).
  constructor; [done|done|..]; intros;
    repeat match goal with H : calls s !! _ = Some _ |- _ => apply Hi in H as [? _] end; by subst.
Qed.

Ltac look :=
  repeat match goal with
  | H : <[_ := _]> _ !! _ = Some _ |- _ => apply lookup_insert_Some in H as [[? ?]|[? ?]]
  end; simplify_eq/=.

(** A call that has written keeps having written: owners stay witnessed. *)
Lemma owner_kept (m : gmap string phase) o ph ph' (w : string) phw :
  m !! o = Some ph → (done_write ph = true → done_write ph' = true) →
  m !! w = Some phw → done_write phw = true →
  ∃ phw', <[o := ph']> m !! w = Some phw' ∧ done_write phw' = true.
Proof.
  intros Ho Hph Hw Hdw. destruct (decide (o = w)) as [->|].
  - rewrite lookup_insert_eq. exists ph'. split; [done|]. apply Hph. by simplify_eq.
  - rewrite lookup_insert_ne by done. eauto.
Qed.

Lemma named_kept (m : gmap string phase) o ph ph' :
  m !! "" = None → m !! o = Some ph → <[o := ph']> m !! "" = None.
Proof. intros H Ho. rewrite lookup_insert_ne; [done|]. intros ->. congruence. Qed.

(** A step that only reads the store. *)
Lemma inv_read now0 s o ph ph' :
  inv now0 s → calls s !! o = Some ph →
  (done_write ph = true → done_write ph' = true) → (past_write ph' = true → past_write ph = true) →
  (past_end ph' = true → past_end ph = true) →
  (∀ t, ph' = Ended t → ph = Ended t) →
  (∀ t, testing ph' = Some t → (t ≤ now (store s) ≤ t + patience)%Z) →
  (∀ t, ph' = Tested t → ∀ a ta, calls s !! a = Some (Ended ta) → (t ≤ ta)%Z) →
  (∀ t, ph' = Tested t → ∀ a, calls s !! a ≠ Some Won) →
  (ph' = Won → owner (store s) = Some o ∧ ∀ b t, b ≠ o → calls s !! b ≠ Some (Tested t)) →
  inv now0 (System (store s) (<[o := ph']> (calls s))).
Proof.
  intros [H0 H1 H2 H3 H4 H5 H6 H7] Ho Hd Hpw Hpe Hen Hte Hor Hnw Hwon. constructor; simpl.
  - by apply (named_kept _ _ ph).
  - done.
  - intros a pa t Ha. look; try done; eauto.
  - intros a t Ha. look; [|by eauto]. apply (H3 a t). rewrite Ho. f_equal. by apply Hen.
  - intros a pa Ha Hp. look; try done; eauto.
  - intros a pa Ha Hp. assert (Hw : ∃ w ph0, owner (store s) = Some w ∧ calls s !! w = Some ph0 ∧ done_write ph0 = true).
    { look; [apply (H5 a ph); auto|by apply (H5 a pa)]. }
    destruct Hw as (w & phw & Hw & Hcw & Hdw).
    destruct (owner_kept (calls s) o ph ph' w phw) as (phw' & ? & ?); [done..|]. eauto.
  - intros a b ta tb Ha Hb. look; [by eapply Hor| |by eapply H6].
    apply (H6 a b); [|done]. rewrite Ho. f_equal. by apply Hen.
  - intros a Ha. look.
    + destruct (Hwon eq_refl) as [Hoa Hb]. split; [done|]. intros b t Hbt. look. by eapply Hb.
    + destruct (H7 a) as [Hoa Hb]; [done|]. split; [done|]. intros b t Hbt. look; [|by eapply Hb].
      by eapply Hnw.
Qed.

Hypothesis fast : (patience < delay)%Z.

Lemma inv_access now0 s o ph c' ph' :
  inv now0 s → (now (store s) ≤ now0 + dur)%Z → (0 ≤ patience)%Z → calls s !! o = Some ph →
  access o (store s) ph c' ph' → inv now0 (System c' (<[o := ph']> (calls s))).
Proof.
  intros Hinv Hnow Hpat Ho Hacc. pose proof Hinv as [H0 H1 H2 H3 H4 H5 H6 H7].
  inversion Hacc as [c Hown|c w Hown Hwe Hw|c t Hend|c t e Hend Hle|c t|c|c t Hd Hown|c t Hd Hown]; subst.
  - assert (Hno : ∀ a pa, calls s !! a = Some pa → past_write pa = true → False).
    { intros a pa Ha Hp. destruct (H5 a pa Ha Hp) as (w & pw & Hw & Hcw & Hdw).
      destruct Hown as [Hown|[Hown|Hown]]; simplify_eq. }
    apply (inv_read now0 s o Start); try done.
    + intros t [= <-]. lia.
    + intros t [= <-] a ta Ha. by destruct (Hno _ _ Ha).
    + intros t _ a Ha. by destruct (Hno _ _ Ha).
  - apply (inv_read now0 s o Start); try done. intros t [= <-]. lia.
  - assert (Hno : ∀ a pa, calls s !! a = Some pa → past_end pa = true → False).
    { intros a pa Ha Hp. destruct (H4 a pa Ha Hp) as (e & He & Hle). rewrite He in Hend. lia. }
    apply (inv_read now0 s o (Saw t)); try done.
    + intros t' [= <-]. by apply (H2 o (Saw t)).
    + intros t' [= <-] a ta Ha. by destruct (Hno _ _ Ha).
    + intros t' _ a Ha. by destruct (Hno _ _ Ha).
  - by apply (inv_read now0 s o (Saw t)).
  - constructor; simpl; [by apply (named_kept _ _ _ _ H0 Ho)|done| | | | | |].
    + intros a pa t' Ha. look; try done; eauto.
    + intros a t' Ha. look; try done; eauto.
    + intros a pa Ha Hp. look; try done; eauto.
    + intros a pa Ha Hp. exists o, Wrote. by rewrite lookup_insert_eq.
    + intros a b ta tb Ha Hb. look; try done; eauto.
    + intros a Ha. look. destruct (H7 a) as [_ Hb]; [done|]. by destruct (Hb o t).
  - constructor; simpl; [by apply (named_kept _ _ _ _ H0 Ho)|done| | | | | |].
    + intros a pa t' Ha. look; try done; eauto.
    + intros a t' Ha. look; [lia|eauto].
    + intros a pa Ha Hp. exists (now (store s) + dur)%Z. split; [done|lia].
    + intros a pa Ha Hp.
      destruct (H5 o Wrote Ho eq_refl) as (w & phw & Hw & Hcw & Hdw).
      destruct (owner_kept (calls s) o Wrote (Ended (now (store s))) w phw) as (phw' & ? & ?); [done..|]. eauto.
    + intros a b ta tb Ha Hb. look; [|by eapply H6]. by destruct (H2 b (Tested tb) tb).
    + intros a Ha. look. destruct (H7 a) as [Hoa Hb]; [done|]. split; [done|].
      intros b t Hbt. look. by eapply Hb.
  - apply (inv_read now0 s o (Ended t)); try done. intros _. split; [done|].
    intros b tb _ Hb. pose proof (H6 o b t tb Ho Hb). destruct (H2 b (Tested tb) tb Hb eq_refl). lia.
  - by apply (inv_read now0 s o (Ended t)).
Qed.

Lemma inv_step now0 s s' :
  inv now0 s → (now (store s) ≤ now0 + dur)%Z → (0 ≤ patience)%Z → step s s' → inv now0 s'.
Proof.
  intros Hinv Hnow Hpat Hst. revert Hinv Hnow.
  destruct Hst as [s o ph c' ph' Ho Hacc|s dt Hdt Htest]; intros Hinv Hnow.
  { apply (inv_access now0 s o ph); [done|done|done|done|exact Hacc]. }
  destruct Hinv as [H0 H1 H2 H3 H4 H5 H6 H7]. constructor; simpl; try done; [lia| |].
  - intros a pa t Ha Ht. specialize (Htest _ _ _ Ha Ht). destruct (H2 _ _ _ Ha Ht). lia.
  - intros a t Ha. specialize (H3 _ _ Ha). lia.
Qed.

Lemma step_now s s' : step s s' → (now (store s) ≤ now (store s'))%Z.
Proof. destruct 1 as [s o ph c' ph' Ho Hacc|]; simpl; [|lia]. by inversion Hacc. Qed.

Lemma inv_steps s s' :
  initial s → (0 ≤ patience)%Z → rtc step s s' → (now (store s') ≤ now (store s) + dur)%Z →
  inv (now (store s)) s'.
Proof.
  intros Hi Hp Hst. pose proof (inv_init s Hi Hp) as Hinv. revert Hinv.
  generalize (now (store s)) as now0. intros now0 Hinv Hnow.
  assert (Hmono : ∀ x y, rtc step x y → (now (store x) ≤ now (store y))%Z).
  { induction 1 as [|x y z Hxy Hyz IH]; [done|]. pose proof (step_now _ _ Hxy). lia. }
  clear Hi. induction Hst as [|x y z Hxy Hyz IH]; [done|].
  pose proof (Hmono _ _ Hyz). pose proof (step_now _ _ Hxy).
  apply IH; [|done]. eapply inv_step; [done|lia|done|done].
Qed.

(** C5.  Mutual exclusion under interleaving: from any contents of the
    store, when every call writes the owner within less time of the start of
    its test than it then sleeps, at most one of the calls, each by an owner of
    its own, returns [True] before the lock's duration has passed. *)
Theorem lock_race_free s s' a b :
  initial s → (0 ≤ patience)%Z → rtc step s s' → (now (store s') ≤ now (store s) + dur)%Z →
  calls s' !! a = Some Won → calls s' !! b = Some Won → a = b.
Proof.
  intros Hi Hp Hst Hnow Ha Hb. destruct (inv_steps s s' Hi Hp Hst Hnow) as [_ _ _ _ _ _ _ Hw].
  destruct (Hw _ Ha), (Hw _ Hb). congruence.
Qed.

End protocol.

(** ** The race *)

Definition two_calls : system := System (Cell None None 0) {["a" := Start; "b" := Start]}.

Lemma two_calls_initial : initial two_calls.
Proof.
  intros o ph Ho. simpl in Ho. apply lookup_insert_Some in Ho as [[<- <-]|[_ Ho]]; [done|].
  by apply lookup_singleton_Some in Ho as [<- <-].
Qed.

Ltac solve_patience :=
  intros o ph t Ho Ht; simpl in *;
  repeat (apply lookup_insert_Some in Ho as [[? ?]|[? Ho]]; [by simplify_eq/=; lia|]);
  apply lookup_singleton_Some in Ho as [? ?]; by simplify_eq/=.

(** Two calls that both pass the test before either writes: the first
    confirms before the second writes. *)
Lemma race_run delay dur patience :
  (0 ≤ delay ≤ patience)%Z →
  ∃ s', rtc (step delay dur patience) two_calls s' ∧ now (store s') = (0 + delay + delay)%Z ∧
        calls s' !! "a" = Some Won ∧ calls s' !! "b" = Some Won.
Proof.
  intros Hd. eexists. split; [|split; [|split]].
  - eapply rtc_l; [by eapply (step_call _ _ _ _ "a"); [done|apply read_owner_free; by left]|]. simpl.
    eapply rtc_l; [by eapply (step_call _ _ _ _ "b"); [done|apply read_owner_free; by left]|]. simpl.
    eapply rtc_l; [by eapply (step_call _ _ _ _ "a"); [done|apply write_owner]|]. simpl.
    eapply rtc_l; [by eapply (step_call _ _ _ _ "a"); [done|apply write_end]|]. simpl.
    eapply rtc_l; [apply (step_tick _ _ _ _ delay); [lia|]|].
    { by solve_patience. }
    simpl. eapply rtc_l; [by eapply (step_call _ _ _ _ "a"); [done|by apply confirm_own]|]. simpl.
    eapply rtc_l; [by eapply (step_call _ _ _ _ "b"); [done|apply write_owner]|]. simpl.
    eapply rtc_l; [by eapply (step_call _ _ _ _ "b"); [done|apply write_end]|]. simpl.
    eapply rtc_l; [apply (step_tick _ _ _ _ delay); [lia|]|].
    { by solve_patience. }
    simpl. eapply rtc_l; [by eapply (step_call _ _ _ _ "b"); [done|by apply confirm_own]|].
    apply rtc_refl.
  - done.
  - done.
  - done.
Qed.

(** Without that bound the confirmation read does not exclude: when a
    call may take as long from its test to its write as the sleep, two calls
    on a free lock can both return [True] within its duration. *)
Theorem lock_race delay dur patience :
  (0 ≤ delay ≤ patience)%Z → (delay + delay ≤ dur)%Z →
  ∃ s s', initial s ∧ owner (store s) = None ∧ rtc (step delay dur patience) s s' ∧
    (now (store s') ≤ now (store s) + dur)%Z ∧
    calls s' !! "a" = Some Won ∧ calls s' !! "b" = Some Won.
Proof.
  intros Hd Hdur. destruct (race_run delay dur patience Hd) as (s' & Hst & Hn & Ha & Hb).
  exists two_calls, s'. split; [apply two_calls_initial|]. rewrite Hn. repeat split; done.
Qed.

End LockProtocol.
