(* ===== verification/ConfLockRefine.v ===== *)
(** [ConfStore.lock] refines the protocol of [LockProtocol]: a call that
    returns is a run of the protocol's accesses on what the index holds. *)
From Stdlib Require Import Ascii.
From S2P Require Import Prelude PyStr PyVal KvPayload KvPayloadFacts KvPayloadKeys KvPayloadSpec KvStore KvFiles ConfStore ConfStoreSpec ConfLock LockProtocol.
Import PyStr PayloadFacts PayloadKeys PayloadSpec Conf ConfSpec.

Module LockRefine.
Import ConfLock.

Section refine.
Context {W : Type}.
Context (str_time : Z → string) (py_float : value → res Z) (repr : value → string).
Context (second delay : Z).
Context (float_str : ∀ t, py_float (VStr (str_time t)) = Ok t).
Context (str_time_ne : ∀ t, str_time t ≠ "").
Context (delay_nonneg : (0 ≤ delay)%Z).

(** What the protocol sees of an index. *)
Definition owner_abs (v : option value) (o : option string) : Prop :=
  match o with
  | None => unset (default VNull v) = true
  | Some w => w ≠ "" ∧ v = Some (VStr w)
  end.
Definition end_abs (v : option value) (e : option Z) : Prop :=
  match e with
  | None => unset (default VNull v) = true
  | Some t => v = Some (VStr (str_time t))
  end.

Record view (i dom : string) (s : conf (W:=W)) (c : LockProtocol.cell) : Prop := View {
  vw_cells : ∃ p, loaded i p s ∧ owner_abs (cell p (owner_path dom)) (LockProtocol.owner c) ∧
                  end_abs (cell p (end_path dom)) (LockProtocol.ends c);
  vw_now : LockProtocol.now c = cs_now s
}.

Notation lock_as := (lock_as str_time py_float repr second delay).
Notation run n := (LockProtocol.run delay (n * second)).

Lemma test_run i dom o n s c b :
  view i dom s c → clean_name ">" dom = true → o ≠ "" →
  test_as py_float repr i o dom s = (Ok b, s) →
  rtc (run n o) (c, LockProtocol.Start)
    (c, if b then LockProtocol.Tested (LockProtocol.now c) else LockProtocol.Lost).
Proof.
  intros [(p & Hp & Ho & He) Hn] Hd Hne. rewrite (test_as_eq py_float repr i p) by done.
  unfold lock_free, st_bind. rewrite (get_owner repr i p) by done.
  destruct (LockProtocol.owner c) as [w|] eqn:Hw; simpl in Ho.
  - destruct Ho as [Hwne ->]. cbn [default from_option id].
    rewrite unset_str, str_eq, (bool_decide_false (w = "")) by done. cbn [orb].
    case_bool_decide as Hwo.
    { intros [= <-]. apply rtc_once. constructor. apply LockProtocol.read_owner_free. right; right. congruence. }
    rewrite (get_end repr i p) by done.
    destruct (LockProtocol.ends c) as [t|] eqn:Ht; simpl in He.
    + rewrite He. cbn [default from_option id]. rewrite unset_str, bool_decide_false by apply str_time_ne.
      unfold st_lift. rewrite float_str. intros [= <-].
      eapply rtc_l; [constructor; by eapply LockProtocol.read_owner_other|]. apply rtc_once. constructor.
      destruct (t <? cs_now s)%Z eqn:Hlt.
      * apply LockProtocol.read_end_free. rewrite Ht, Hn. lia.
      * apply (LockProtocol.read_end_busy _ _ _ _ _ t); [done|]. rewrite Hn. lia.
    + rewrite He. intros [= <-].
      eapply rtc_l; [constructor; by eapply LockProtocol.read_owner_other|]. apply rtc_once. constructor.
      apply LockProtocol.read_end_free. by rewrite Ht.
  - rewrite Ho. cbn [orb]. intros [= <-]. apply rtc_once. constructor.
    apply LockProtocol.read_owner_free. by left.
Qed.

(** C19.  Refinement: a call of [lock] that returns on an index is a complete
    run of the protocol by its owner, from the contents of the store before
    the call to those after it, ending in [Won] when it returns [True] and in
    [Lost] when it returns [False]. *)
Theorem lock_refines i dom o n s c b s' :
  view i dom s c → clean_name ">" dom = true → o ≠ "" →
  lock_as i o dom n s = (Ok b, s') →
  ∃ c', view i dom s' c' ∧
    rtc (run n o) (c, LockProtocol.Start) (c', if b then LockProtocol.Won else LockProtocol.Lost).
Proof.
  intros Hv Hd Hne Hlock. pose proof Hv as [(p & Hp & _) Hn].
  pose proof (test_as_pure py_float repr i p s o dom Hp Hd) as Hpure.
  destruct (test_as py_float repr i o dom s) as [[tb|e] s0] eqn:Htest; simpl in Hpure; subst s0.
  2:{ rewrite (lock_as_eq _ _ _ _ _ i p) in Hlock by done. unfold st_bind at 1 in Hlock. by rewrite Htest in Hlock. }
  pose proof (test_run i dom o n s c tb Hv Hd Hne Htest) as Hrun.
  destruct tb.
  2:{ rewrite (lock_as_eq _ _ _ _ _ i p) in Hlock by done. unfold st_bind at 1 in Hlock. rewrite Htest in Hlock.
      injection Hlock as <- <-. by exists c. }
  assert (Hb : b = true).
  { rewrite (lock_as_eq _ _ _ _ _ i p) in Hlock by done. unfold st_bind at 1 in Hlock. rewrite Htest in Hlock.
    destruct (key_paths repr dom Hd) as [Hko Hke]. destruct (paths_diverge dom Hd) as [Hoe Heo].
    unfold st_bind, lock_owner in Hlock.
    destruct (set_cell i p s (owner_key repr (VStr dom)) (VStr o) Hp ltac:(constructor))
      as (p1 & Hs1 & _ & Hp1 & _ & Hc1 & _). rewrite Hs1 in Hlock.
    destruct (Payload.set _ _ p).1 as [[]|e]; [|done]. specialize (Hc1 eq_refl). rewrite Hko in Hc1.
    unfold lock_end in Hlock. set (s2 := (Conf.set i (owner_key repr (VStr dom)) (VStr o) s).2) in *.
    set (v := VStr (str_time _)) in *.
    destruct (set_cell i p1 s2 (end_key repr (VStr dom)) v Hp1 ltac:(constructor))
      as (p2 & Hs2 & _ & Hp2 & _ & _ & Hf2). rewrite Hs2 in Hlock.
    destruct (Payload.set _ v p1).1 as [[]|e]; [|done]. rewrite Hke in Hf2.
    set (s3 := (Conf.set i (end_key repr (VStr dom)) v s2).2) in *. unfold sleep, lock_confirm, st_bind in Hlock.
    assert (Hp3 : loaded i p2 (set_env (cs_stores s3) (cs_world s3) (cs_now s3 + delay) s3)).
    { destruct Hp2 as [Hc ? ?]. by constructor. }
    rewrite (get_owner repr i p2) in Hlock by done. rewrite Hf2, Hc1 in Hlock by done.
    cbn [default from_option id] in Hlock. rewrite str_eq, bool_decide_true in Hlock by done.
    by injection Hlock as <- _. }
  subst b.
  destruct (lock_held str_time py_float repr second delay i p s o dom n s' Hp Hd Hlock)
    as [[(p' & Hp' & Ho' & He') _] Hn'].
  exists (LockProtocol.passed (LockProtocol.Cell (Some o) (Some (cs_now s + n * second)%Z) (cs_now s)) delay).
  split.
  - constructor; [|simpl; lia]. exists p'. simpl. done.
  - etrans; [exact Hrun|]. eapply rtc_l; [constructor; apply LockProtocol.write_owner|]. rewrite Hn.
    eapply rtc_l; [constructor; apply LockProtocol.write_end|]. simpl.
    eapply rtc_l; [apply (LockProtocol.run_tick _ _ _ _ _ delay); done|].
    apply rtc_once. constructor. apply LockProtocol.confirm_own; simpl; [lia|done].
Qed.

End refine.
End LockRefine.
