(* ===== verification/ConfWitness.v ===== *)
(** Executions of [ConfStore] and its lock over JSON files: the hypotheses of
    its theorems hold on concrete stores. *)
From Stdlib Require Import Ascii.
From stdpp Require Import countable.
From S2P Require Import Prelude PyStr PyVal KvPayload KvPayloadFacts KvPayloadKeys KvPayloadSpec KvStore KvFiles KvFilesFacts KvCodec ConfStore ConfStoreSpec ConfLock LockProtocol ConfLockRefine.
Import PyStr PayloadFacts PayloadKeys PayloadSpec Files FilesFacts Codec Conf ConfSpec ConfLock LockRefine.

Module ConfWitness.

(** ** A store with two loaded indexes *)

Definition doc1 : payload := Payload.Payload (VDict [("x", VDict [("y", VStr "1"); ("w", VStr "2")]); ("z", VStr "3")]) ">" [].
Definition doc2 : payload := Payload.Payload (VDict [("x", VDict [("y", VStr "7")]); ("q", VStr "8")]) ">" [].

Definition cache_of (p : payload) : cache := Cache (json_store "/etc/conf" ">") ">" false p true.
Definition two : conf :=
  ConfStore ">" {["a" := cache_of doc1; "b" := cache_of doc2]} ∅ (VStr "m1") (VStr "m1")
    {["json:///etc/conf" := json_store "/etc/conf" ">"]} one_file 100.

Lemma doc1_doc : doc ">" doc1 ∧ clean ">" doc1.
Proof. split; [constructor|]; [constructor; [repeat (constructor; try set_solver)|done|by exists ">"%char]|done..]. Qed.
Lemma doc2_doc : doc ">" doc2 ∧ clean ">" doc2.
Proof. split; [constructor|]; [constructor; [repeat (constructor; try set_solver)|done|by exists ">"%char]|done..]. Qed.

(** The copied keys do not run through a number: the documents hold strings. *)
Lemma doc2_free k : free ">" doc2 k.
Proof. apply doc_free, doc2_doc. Qed.

Lemma conf_copy_all_witness :
  ∃ s' c2', copy "a" "b" None true two = (Ok tt, s') ∧
    cs_cache s' = <["b" := c2']> (cs_cache two) ∧
    (∀ k, k ∈ cache_keys (cache_of doc1) true → cache_get c2' k true = cache_get (cache_of doc1) k true) ∧
    (∀ q, Forall (λ k, keys_diverge doc1 k q = true) (cache_keys (cache_of doc1) true) →
       denotes (cc_data c2') q = denotes doc2 q).
Proof.
  apply (conf_copy_all ">"%char two "a" "b" (cache_of doc1) (cache_of doc2));
    [discriminate|reflexivity|reflexivity|apply doc_tree, doc1_doc|apply doc1_doc|apply doc_tree, doc2_doc
    |intros; apply doc2_free].
Defined.

Lemma conf_merge_all_witness :
  ∃ s' c2', merge "b" "a" None two = (Ok tt, s') ∧ cs_cache s' = <["b" := c2']> (cs_cache two) ∧
    (∀ q, q ∈ cache_keys (cache_of doc2) true → kept ">" (cache_keys (cache_of doc1) true) q →
       denotes (cc_data c2') q = denotes doc2 q) ∧
    (∀ q, q ∉ cache_keys (cache_of doc2) true → q ∈ cache_keys (cache_of doc1) true →
       apart ">" (cache_keys (cache_of doc1) true) q → denotes (cc_data c2') q = denotes doc1 q) ∧
    (∀ q, q ∉ cache_keys (cache_of doc2) true → q ∉ cache_keys (cache_of doc1) true →
       apart ">" (cache_keys (cache_of doc1) true) q → denotes (cc_data c2') q = denotes doc2 q).
Proof.
  apply (conf_merge_all ">"%char two "a" "b" (cache_of doc1) (cache_of doc2));
    [discriminate|reflexivity|reflexivity|apply doc_tree, doc1_doc|apply doc1_doc|apply doc_tree, doc2_doc
    |apply doc2_doc|intros; apply doc2_free].
Defined.

(** Where a key of the source does run through a string of the destination,
    [merge] replaces the string: the value under [q] is lost. *)
Definition leafy : conf :=
  ConfStore ">" {["a" := cache_of (Payload.Payload (VDict [("q", VDict [("r", VStr "1")])]) ">" []); "b" := cache_of doc2]}
    ∅ (VStr "m1") (VStr "m1") ∅ one_file 100.
Lemma conf_merge_loses :
  (get "b" "q" leafy).1 = Ok (VStr "8") ∧
  (merge "b" "a" None leafy).1 = Ok tt ∧
  (get "b" "q" (merge "b" "a" None leafy).2).1 = Ok (VDict [("r", VStr "1")]).
Proof. split_and!; vm_compute; reflexivity. Qed.

(** Where it runs through a number, [copy] raises. *)
Definition numeric : conf :=
  ConfStore ">" {["a" := cache_of doc1; "b" := cache_of (Payload.Payload (VDict [("x", VInt 5)]) ">" [])]}
    ∅ (VStr "m1") (VStr "m1") ∅ one_file 100.
Lemma conf_copy_blocked : (copy "a" "b" None true numeric).1 = Err AttributeError.
Proof. vm_compute. reflexivity. Qed.

Lemma conf_compare_exact_witness :
  ∃ new_keys deleted_keys updated_keys,
    compare "a" "b" two = (Ok (new_keys, deleted_keys, updated_keys), two) ∧
    (∀ k, k ∈ new_keys ↔ k ∈ cache_keys (cache_of doc2) true ∧ k ∉ cache_keys (cache_of doc1) true) ∧
    (∀ k, k ∈ deleted_keys ↔ k ∈ cache_keys (cache_of doc1) true ∧ k ∉ cache_keys (cache_of doc2) true) ∧
    (∀ k, k ∈ updated_keys ↔ k ∈ cache_keys (cache_of doc1) true ∧ k ∈ cache_keys (cache_of doc2) true ∧
       ∃ x y, cache_get (cache_of doc1) k true = Ok x ∧ cache_get (cache_of doc2) k true = Ok y ∧ py_eq x y = false).
Proof.
  apply (conf_compare_exact ">"%char two "a" "b" (cache_of doc1) (cache_of doc2));
    [reflexivity|reflexivity|reflexivity|apply doc1_doc|reflexivity|apply doc1_doc|apply doc2_doc|reflexivity|apply doc2_doc].
Defined.

Definition no_url : string → string * string * string := λ url, (url, "", "").
Definition two_set : conf := (set "a" "x>y" (VStr "new") two).2.


(** ** The lock *)

Definition str_time (t : Z) : string := String "t" (bits (encode t)).
Definition py_float (v : value) : res Z :=
  match v with
  | VStr (String _ s) => match of_bits s ≫= decode with Some t => Ok t | None => Err ValueError end
  | VStr EmptyString => Err ValueError
  | VInt z => Ok z
  | _ => Err TypeError
  end.
Definition repr (v : value) : string := "".

Lemma float_str t : py_float (VStr (str_time t)) = Ok t.
Proof. unfold py_float, str_time. rewrite of_bits_bits. cbn [mbind option_bind]. by rewrite decode_encode. Qed.

(** The lock does not reach the backend: the [KvStore] base class will do. *)
Definition base_store : Store.backend unit :=
  Store.Backend (λ _, st_raise (KvError ENOSYS)) (λ _, st_raise (KvError ENOSYS)).
Definition host (owner : value) : conf :=
  ConfStore ">" {["a" := Cache base_store ">" false doc1 true]} ∅ owner owner ∅ tt 100.
Definition one : conf := host (VStr "m1").

Lemma host_loaded owner : loaded "a" doc1 (host owner).
Proof. constructor; [by eexists|apply doc1_doc|done]. Qed.

Definition locked : conf := (lock_as str_time py_float repr 100 1 "a" "n1" "disk" 10 one).2.


Lemma lock_progress_witness :
  (∀ s3 : conf (W:=unit), cc_data <$> cs_cache s3 !! "a" = cc_data <$> cs_cache locked !! "a" →
     (100 + 10 * 100 < cs_now s3)%Z → (lock_as str_time py_float repr 100 1 "a" "n2" "disk" 5 s3).1 = Ok true) ∧
  ∃ s3, unlock_as repr "a" "n1" "disk" false locked = (Ok true, s3) ∧
        test_as py_float repr "a" "n2" "disk" s3 = (Ok true, s3).
Proof.
  apply (lock_progress str_time py_float repr 100 1 float_str ltac:(discriminate) ltac:(lia)
           "a" doc1 one "n1" "disk" 10 locked locked "n2" 5);
    [apply host_loaded|reflexivity|discriminate|vm_compute; reflexivity|apply rtc_refl|vm_compute; discriminate].
Defined.

Definition anonymous : conf := host VNull.
Definition anonymous_locked : conf := (Conf.lock str_time py_float repr 100 1 "a" [] anonymous).2.

Lemma lock_no_machine_id_witness :
  Conf.lock str_time py_float repr 100 1 "a" [] anonymous = (Ok true, anonymous_locked) ∧
  test_as py_float repr "a" "n2" "default" anonymous_locked = (Ok true, anonymous_locked).
Proof.
  split; [vm_compute; reflexivity|].
  apply (lock_no_machine_id str_time py_float repr 100 1 "a" doc1 anonymous anonymous_locked "n2");
    [apply host_loaded|reflexivity|vm_compute; reflexivity].
Defined.

Lemma lock_refines_witness :
  ∃ c', view str_time "a" "disk" locked c' ∧
    rtc (LockProtocol.run 1 (10 * 100) "n1") (LockProtocol.Cell None None 100, LockProtocol.Start)
      (c', LockProtocol.Won).
Proof.
  apply (lock_refines str_time py_float repr 100 1 float_str ltac:(discriminate) ltac:(lia)
           "a" "disk" "n1" 10 one (LockProtocol.Cell None None 100) true locked);
    [|reflexivity|discriminate|vm_compute; reflexivity].
  constructor; [|reflexivity]. exists doc1. split; [apply host_loaded|]. split; reflexivity.
Defined.

Definition first_won : LockProtocol.system :=
  LockProtocol.System (LockProtocol.Cell (Some "a") (Some 100%Z) 10)
    (<["a" := LockProtocol.Won]> (<["a" := LockProtocol.Ended 0]> (<["a" := LockProtocol.Wrote]>
      (<["a" := LockProtocol.Tested 0]> (LockProtocol.calls LockProtocol.two_calls))))).

Lemma first_won_run : rtc (LockProtocol.step 10 100 5) LockProtocol.two_calls first_won.
Proof.
  eapply rtc_l; [by eapply (LockProtocol.step_call _ _ _ _ "a"); [done|apply LockProtocol.read_owner_free; by left]|].
  eapply rtc_l; [by eapply (LockProtocol.step_call _ _ _ _ "a"); [done|apply LockProtocol.write_owner]|].
  eapply rtc_l; [by eapply (LockProtocol.step_call _ _ _ _ "a"); [done|apply LockProtocol.write_end]|]. simpl.
  eapply rtc_l; [apply (LockProtocol.step_tick _ _ _ _ 10); [lia|by LockProtocol.solve_patience]|]. simpl.
  eapply rtc_l; [by eapply (LockProtocol.step_call _ _ _ _ "a"); [done|by apply LockProtocol.confirm_own]|].
  apply rtc_refl.
Qed.

Lemma lock_race_free_witness :
  LockProtocol.calls first_won !! "a" = Some LockProtocol.Won ∧ "a" = "a".
Proof.
  split; [reflexivity|].
  apply (LockProtocol.lock_race_free 10 100 5 ltac:(lia) LockProtocol.two_calls first_won "a" "a");
    [apply LockProtocol.two_calls_initial|lia|apply first_won_run|simpl; lia|reflexivity|reflexivity].
Defined.

Lemma lock_race_witness :
  ∃ s s', LockProtocol.initial s ∧ LockProtocol.owner (LockProtocol.store s) = None ∧
    rtc (LockProtocol.step 1 1000 2) s s' ∧
    (LockProtocol.now (LockProtocol.store s') ≤ LockProtocol.now (LockProtocol.store s) + 1000)%Z ∧
    LockProtocol.calls s' !! "a" = Some LockProtocol.Won ∧ LockProtocol.calls s' !! "b" = Some LockProtocol.Won.
Proof. apply (LockProtocol.lock_race 1 1000 2); lia. Defined.

End ConfWitness.
