(* ===== verification/DataAccess.v ===== *)
(** [utils/data/access/filters.py], [queries.py] and
    [utils/data/db/generic_storage.py]: filter trees and their constructors,
    queries, and what every database shares.

    Field values are the native Python values of the model's fields, a type
    [V]; the operators of the language on them are the class [PyValues].  The
    schematics model class is a record of parameters ([Model]): its fields, its
    conversions and its serialisation. *)
From S2P Require Import Prelude.

Module Data.

(** ** Filters *)

Inductive ComparisonOperation :=
| OPERATION_GT | OPERATION_LT | OPERATION_EQ | OPERATION_LEQ | OPERATION_GEQ | OPERATION_NE | OPERATION_LIKE.

#[global] Instance comparison_eq_dec : EqDecision ComparisonOperation.
Proof. solve_decision. Defined.

Definition from_standard_representation (op : string) : res ComparisonOperation :=
  if decide (op = "=") then Ok OPERATION_EQ
  else if decide (op = ">") then Ok OPERATION_GT
  else if decide (op = "<") then Ok OPERATION_LT
  else if decide (op = ">=") then Ok OPERATION_GEQ
  else if decide (op = "<=") then Ok OPERATION_LEQ
  else if decide (op = "!=") then Ok OPERATION_NE
  else if decide (op = "like") then Ok OPERATION_LIKE
  else Err MalformedQueryError.

(** A left operand: a field name, a field of the model class, or anything
    else. *)
Inductive operand :=
| FieldName (s : string)
| FieldType (name : string)
| OtherOperand.

Definition field_to_str (field : operand) : res string :=
  match field with
  | FieldName s => Ok s
  | FieldType name => Ok name
  | OtherOperand => Err DataAccessInternalError
  end.

Section filters.
Context {V : Type}.

Inductive filter_tree :=
| FilterOperationAnd (operands : list filter_tree)
| FilterOperationOr (operands : list filter_tree)
| FilterOperationCompare (left : operand) (operation : ComparisonOperation) (right : V).

Section nested.
Context (P : filter_tree → Prop).
Context (HAnd : ∀ l, Forall P l → P (FilterOperationAnd l)).
Context (HOr : ∀ l, Forall P l → P (FilterOperationOr l)).
Context (HCompare : ∀ l o r, P (FilterOperationCompare l o r)).

Fixpoint filter_nested_ind (f : filter_tree) : P f :=
  let go := fix go (l : list filter_tree) : Forall P l :=
    match l with [] => Forall_nil_2 P | x :: l' => Forall_cons_2 P x l' (filter_nested_ind x) (go l') end in
  match f with
  | FilterOperationAnd l => HAnd l (go l)
  | FilterOperationOr l => HOr l (go l)
  | FilterOperationCompare l o r => HCompare l o r
  end.
End nested.

(** The constructors check their arguments; every argument here is a filter. *)
Definition mk_and (args : list filter_tree) : res filter_tree :=
  if decide (length args < 2) then Err MalformedQueryError else Ok (FilterOperationAnd args).
Definition mk_or (args : list filter_tree) : res filter_tree :=
  if decide (length args < 2) then Err MalformedQueryError else Ok (FilterOperationOr args).

Definition And (args : list filter_tree) : res filter_tree :=
  match args with
  | [] => Err MalformedQueryError
  | [f] => Ok f
  | _ => mk_and args
  end.
Definition Or (args : list filter_tree) : res filter_tree :=
  match args with
  | [] => Err MalformedQueryError
  | [f] => Ok f
  | _ => mk_or args
  end.
Definition Compare (left : operand) (operation : string) (right : V) : res filter_tree :=
  op ← from_standard_representation operation; Ok (FilterOperationCompare left op right).

(** What the constructors build: no operation with fewer than two operands. *)
Fixpoint well_formed (f : filter_tree) : bool :=
  match f with
  | FilterOperationAnd l | FilterOperationOr l => bool_decide (2 ≤ length l) && forallb well_formed l
  | FilterOperationCompare _ _ _ => true
  end.

(** ** Queries *)

Inductive SortOrder := ASC | DESC.

Record OrderBy := MkOrderBy { ob_field : operand; ob_order : SortOrder }.

Record Query := MkQuery {
  q_order_by : option OrderBy;
  q_filter_by : option filter_tree;
  q_limit : option Z;
  q_offset : option Z
}.

Definition query_init : Query := MkQuery None None None None.
Definition order_by (f : operand) (o : SortOrder) (q : Query) : Query :=
  MkQuery (Some (MkOrderBy f o)) (q_filter_by q) (q_limit q) (q_offset q).
Definition filter_by (f : filter_tree) (q : Query) : Query :=
  MkQuery (q_order_by q) (Some f) (q_limit q) (q_offset q).
Definition limit (n : Z) (q : Query) : Query :=
  MkQuery (q_order_by q) (q_filter_by q) (Some n) (q_offset q).
Definition offset (n : Z) (q : Query) : Query :=
  MkQuery (q_order_by q) (q_filter_by q) (q_limit q) (Some n).

(** ** The model class and its instances *)

(** The operators [==], [<], ... and [in] on native values, and [str.lower]. *)
Class PyValues := {
  py_op : ComparisonOperation → V → V → res bool;   (* LIKE: operator.contains(a, b) *)
  py_lower : V → res V
}.

(** An instance: its field values. *)
Definition obj := gmap string V.

Record Model := MkModel {
  md_fields : list string;                     (* fields.keys() *)
  md_primary_key : string;                     (* primary_key *)
  md_is_string : string → bool;                (* type(field) is StringType *)
  md_to_native : string → V → option V;        (* None: ConversionError *)
  md_validate : obj → option obj;              (* validate() converts in place; None: it raises *)
  md_dumps : obj → string;                     (* json.dumps(obj.to_primitive()) *)
  md_loads : string → res obj;                 (* model(json.loads(s)) *)
  md_key : V → string                          (* the primary key in a path: "%s" *)
}.

Definition getattr (o : obj) (field : string) : res V :=
  match o !! field with Some v => Ok v | None => Err AttributeError end.

(** [getattr(self._model, field).to_native(value)] *)
Definition to_native (m : Model) (field : string) (v : V) : res V :=
  if decide (field ∈ md_fields m) then
    match md_to_native m field v with Some w => Ok w | None => Err DataAccessInternalError end
  else Err AttributeError.

(** ** [GenericDataBase] *)

(** [store]: the object is validated, and must have exactly the properties of
    the stored scheme. *)
Definition generic_store (m : Model) (scheme : list string) (o : obj) : res obj :=
  match md_validate m o with
  | None => Err DataAccessInternalError
  | Some o =>
      if decide (Exists (λ k, o !! k = None) scheme) then Err DataAccessInternalError
      else if decide (Exists (λ k, k ∉ scheme) (map_to_list o).*1) then Err DataAccessInternalError
      else Ok o
  end.

(** [update]: only fields of the scheme, converted to native values. *)
Definition generic_update (m : Model) (scheme : list string) (to_update : list (string * V))
    : res (list (string * V)) :=
  if decide (Exists (λ kv, kv.1 ∉ scheme) to_update) then Err DataAccessInternalError
  else res_map (λ kv, v ← to_native m kv.1 kv.2; Ok (kv.1, v)) to_update.

(** The filter [primary_key = obj_id] of the [_by_id] methods. *)
Definition id_filter (m : Model) (obj_id : V) : res filter_tree :=
  converted ← to_native m (md_primary_key m) obj_id;
  Compare (FieldName (md_primary_key m)) "=" converted.

(** ** [GenericQueryConverter]: the traversal of a filter tree, for the
    result type of a particular database. *)
Section visitor.
Context {R : Type} (meet join : R → R → R).
Context (handle_compare : operand → ComparisonOperation → V → res R).

(** [ret = ret & operand.accept_visitor(self)], left to right. *)
Fixpoint accumulate (op : R → R → R) (ret : res R) (rest : list (res R)) : res R :=
  match rest with
  | [] => ret
  | x :: rest' => accumulate op (a ← ret; b ← x; Ok (op a b)) rest'
  end.

Definition handle_operands (op : R → R → R) (visited : list (res R)) : res R :=
  match visited with
  | r0 :: r1 :: rest => accumulate op r0 (r1 :: rest)
  | _ => Err PlainException
  end.

Fixpoint accept_visitor (f : filter_tree) : res R :=
  match f with
  | FilterOperationAnd l => handle_operands meet (map accept_visitor l)
  | FilterOperationOr l => handle_operands join (map accept_visitor l)
  | FilterOperationCompare field op v => handle_compare field op v
  end.
End visitor.

End filters.
Arguments filter_tree : clear implicits.
Arguments Query : clear implicits.
Arguments PyValues : clear implicits.
Arguments obj : clear implicits.
Arguments Model : clear implicits.

(** ** The traversal of a filter tree *)

Section traversal.
Context {R : Type}.

Lemma accumulate_ok (op : R → R → R) ret rest r :
  accumulate op ret rest = Ok r ↔
  ∃ a bs, ret = Ok a ∧ Forall2 (λ x b, x = Ok b) rest bs ∧ r = foldl op a bs.
Proof.
  revert ret. induction rest as [|x rest IH]; intros ret; simpl.
  - split; [intros ->; exists r, []; by repeat constructor|].
    by intros (a & bs & -> & ->%Forall2_nil_inv_l & ->).
  - rewrite IH. split.
    + intros (a & bs & Ha & Hbs & ->). destruct ret as [a0|]; [|done]. destruct x as [b0|]; [|done].
      simpl in Ha. injection Ha as <-. exists a0, (b0 :: bs). repeat constructor; done.
    + intros (a & bs & -> & Hbs & ->). apply Forall2_cons_inv_l in Hbs as (b & bs' & -> & Hbs & ->).
      simpl. eauto.
Qed.

Lemma handle_ok (op : R → R → R) visited r :
  handle_operands op visited = Ok r ↔
  ∃ a b bs, Forall2 (λ x y, x = Ok y) visited (a :: b :: bs) ∧ r = foldl op a (b :: bs).
Proof.
  unfold handle_operands. destruct visited as [|x [|y rest]].
  - split; [done|]. intros (a & b & bs & H & _). inversion H.
  - split; [done|]. intros (a & b & bs & H & _). inversion H; subst. rename select (Forall2 _ [] _) into H'. inversion H'.
  - rewrite accumulate_ok. split.
    + intros (a & bs & -> & Hbs & ->). inversion Hbs; subst. eexists a, _, _.
      split; [constructor; [done|exact Hbs]|done].
    + intros (a & b & bs & H & ->). inversion H; subst. eauto.
Qed.

End traversal.

(** ** What a filter means

    The reading of a filter on an object, which no storage has a part in: a
    comparison is a test of the value of a field, [And] and [Or] are those of
    the tests of their operands. *)

(** The order of the values of a field *)
Class Ordering (V : Type) := {
  v_eqb : V → V → bool;
  v_ltb : V → V → bool;
  v_contains : V → V → bool       (* the second in the first *)
}.

Section meaning.
Context {V : Type}.

(** [x op v] *)
Definition means `{Ordering V} (op : ComparisonOperation) (x v : V) : bool :=
  match op with
  | OPERATION_EQ => v_eqb x v
  | OPERATION_NE => negb (v_eqb x v)
  | OPERATION_LT => v_ltb x v
  | OPERATION_GT => v_ltb v x
  | OPERATION_LEQ => negb (v_ltb v x)
  | OPERATION_GEQ => negb (v_ltb x v)
  | OPERATION_LIKE => v_contains x v
  end.

(** The comparison from right to left *)
Definition mirrored (op : ComparisonOperation) : ComparisonOperation :=
  match op with
  | OPERATION_LT => OPERATION_GT
  | OPERATION_GT => OPERATION_LT
  | OPERATION_LEQ => OPERATION_GEQ
  | OPERATION_GEQ => OPERATION_LEQ
  | _ => op
  end.

Section reading.
(** The test of a comparison: the field, the operation, the value the object
    has and the value the filter gives. *)
Context (test : string → ComparisonOperation → V → V → bool) (m : Model V) (o : obj V).

Fixpoint satisfied (f : filter_tree V) : bool :=
  match f with
  | FilterOperationAnd l => forallb satisfied l
  | FilterOperationOr l => existsb satisfied l
  | FilterOperationCompare lhs op v =>
      match field_to_str lhs with
      | Ok k => match o !! k, md_to_native m k v with Some x, Some w => test k op x w | _, _ => false end
      | Err _ => false
      end
  end.

(** The filter can be read: its operations have two operands, its values
    convert, and the object has its fields. *)
Fixpoint answerable (f : filter_tree V) : bool :=
  match f with
  | FilterOperationAnd l | FilterOperationOr l => bool_decide (2 ≤ length l) && forallb answerable l
  | FilterOperationCompare lhs op v =>
      match field_to_str lhs with
      | Ok k => bool_decide (k ∈ md_fields m) && bool_decide (is_Some (o !! k)) && bool_decide (is_Some (md_to_native m k v))
      | Err _ => false
      end
  end.

Lemma foldl_andb b l : foldl andb b l = b && forallb id l.
Proof. revert b. induction l as [|x l IH]; intros b; cbn; [by rewrite andb_true_r|]. by rewrite IH, andb_assoc. Qed.
Lemma foldl_orb b l : foldl orb b l = b || existsb id l.
Proof. revert b. induction l as [|x l IH]; intros b; cbn; [by rewrite orb_false_r|]. by rewrite IH, orb_assoc. Qed.

Lemma forallb_as_map {A} (g : A → bool) l : forallb g l = forallb id (map g l).
Proof. induction l as [|x l IH]; cbn; [done|by rewrite IH]. Qed.
Lemma existsb_as_map {A} (g : A → bool) l : existsb g l = existsb id (map g l).
Proof. induction l as [|x l IH]; cbn; [done|by rewrite IH]. Qed.

Context (leaf : operand → ComparisonOperation → V → res bool).
Context (Hleaf : ∀ lhs op v, answerable (FilterOperationCompare lhs op v) = true →
  leaf lhs op v = Ok (satisfied (FilterOperationCompare lhs op v))).

(** A visit that reads the comparisons right reads the tree right. *)
Lemma visit_satisfied f : answerable f = true → accept_visitor andb orb leaf f = Ok (satisfied f).
Proof using Hleaf.
  assert (Hl : ∀ l : list (filter_tree V),
    Forall (λ f, answerable f = true → accept_visitor andb orb leaf f = Ok (satisfied f)) l → forallb answerable l = true →
    Forall2 (λ x y, x = Ok y) (map (accept_visitor andb orb leaf) l) (map satisfied l)).
  { induction 1 as [|f0 l Hf _ IH]; [constructor|]. intros [H1 H2]%andb_prop. constructor; [by apply Hf|by apply IH]. }
  induction f as [l IH|l IH|lhs op v] using filter_nested_ind; cbn [answerable accept_visitor]; [| |by apply Hleaf];
    intros [Hlen%bool_decide_eq_true Hall]%andb_prop; apply handle_ok; specialize (Hl l IH Hall);
    (destruct l as [|f1 [|f2 l]]; cbn in Hlen; [lia|lia|]); eexists _, _, _; (split; [exact Hl|]).
  - cbn [satisfied]. by rewrite foldl_andb, forallb_as_map.
  - cbn [satisfied]. by rewrite foldl_orb, existsb_as_map.
Qed.

End reading.

End meaning.

End Data.
