(* ===== verification/ConsulDb.v ===== *)
(** [utils/data/db/consul_db/storage.py]: models stored as JSON under the keys
    of a Consul key-value service, and queried by filtering them.

    The service is a parameter ([ConsulKV]); [ConsulLaws] states what its
    documentation promises: a map from keys to values that [put] and [delete]
    update when they answer [True], and that a recursive read lists by
    prefix. *)
From Stdlib Require Import Ascii.
From S2P Require Import Prelude PyStr DataAccess.
Import PyStr Data.

Module Consul.

(** ** The service *)

Class ConsulKV (W : Type) := {
  kv_get : string → W → option string;
  kv_get_all : string → W → list (string * string);   (* recurse=True; [] for None *)
  kv_put : string → string → W → bool * W;
  kv_delete : string → W → bool * W;
  kv_contents : W → gmap string string
}.

Class ConsulLaws {W} (K : ConsulKV W) : Prop := {
  law_get : ∀ k w, kv_get k w = kv_contents w !! k;
  law_all : ∀ p w k v, (k, v) ∈ kv_get_all p w ↔ kv_contents w !! k = Some v ∧ startswith k p = true;
  law_all_nodup : ∀ p w, NoDup (kv_get_all p w).*1;
  law_put : ∀ k v w, (kv_put k v w).1 = true → kv_contents (kv_put k v w).2 = <[k := v]> (kv_contents w);
  law_put_fail : ∀ k v w, (kv_put k v w).1 = false → kv_contents (kv_put k v w).2 = kv_contents w;
  law_delete : ∀ k w, (kv_delete k w).1 = true → kv_contents (kv_delete k w).2 = delete k (kv_contents w);
  law_delete_fail : ∀ k w, (kv_delete k w).1 = false → kv_contents (kv_delete k w).2 = kv_contents w
}.

Section consul.
Context {W V : Type} {K : ConsulKV W} {PV : PyValues V}.

(** ** [ConsulKeyTemplate], rendered for a collection *)

Definition get_object_root (object_type : string) : string := "cortx/base/" +:+ object_type.
Definition get_object_dir (object_type : string) : string := get_object_root object_type +:+ "/obj".
Definition get_object_path (object_type object_uuid : string) : string :=
  get_object_dir object_type +:+ "/" +:+ object_uuid.
Definition get_property_dir (object_type property_name property_value : string) : string :=
  get_object_root object_type +:+ "/prop/" +:+ property_name +:+ "/" +:+ property_value.

(** ** [ConsulDB] *)

Record db := MkDb {
  db_model : Model V;            (* self._model *)
  db_collection : string;        (* self._collection, in lower case *)
  db_scheme : list string        (* self._model_scheme.keys() *)
}.

Definition consul_init (model : Model V) (collection : string) : db :=
  MkDb model (lower collection) [].

(** ** [ConsulQueryConverterWithData] *)

(** [self._object_data]: the model instance of every raw entry, by key. *)
Definition object_data (m : Model V) (raw : list (string * string)) : res (list (string * obj V)) :=
  res_map (λ kv, o ← md_loads m kv.2; Ok (kv.1, o)) raw.

(** [handle_compare]: for [like] the operands are [contains(field, value)], for
    every other operation [op(value, field)]. *)
Definition compare_entry (op : ComparisonOperation) (right field : V) : res bool :=
  match op with
  | OPERATION_LIKE => py_op OPERATION_LIKE field right
  | _ => py_op op right field
  end.

Definition handle_compare (m : Model V) (data : list (string * obj V))
    (left : operand) (op : ComparisonOperation) (right : V) : res (gset string) :=
  field ← field_to_str left;
  right_operand ← to_native m field right;
  keys ← res_map (λ ko : string * obj V,
    v ← getattr ko.2 field;
    b ← compare_entry op right_operand v;
    Ok (if b : bool then [ko.1] else [])) data;
  Ok (list_to_set (concat keys)).

(** [query_converter_build] *)
Definition build (m : Model V) (root : filter_tree V) (raw : list (string * string))
    : res (list (string * string)) :=
  data ← object_data m raw;
  suitable_keys ← accept_visitor (intersection (A:=gset string)) union (handle_compare m data) root;
  Ok (filter (λ kv, kv.1 ∈ suitable_keys) raw).

(** *** Requests *)

Definition st_put (k v : string) : ST W bool := λ w, let '(b, w') := kv_put k v w in (Ok b, w').
Definition st_delete (k : string) : ST W bool := λ w, let '(b, w') := kv_delete k w in (Ok b, w').

Definition create_object_root (c : db) (creation_time : string) (scheme_dumps : list string → string)
    (scheme_loads : string → res (list string)) : ST W db := λ w,
  let obj_root := get_object_root (db_collection c) in
  let obj_dir := get_object_dir (db_collection c) in
  (match kv_get obj_root w with
   | Some _ => st_ret tt
   | None => let! response := st_put obj_root creation_time in
             if response : bool then st_ret tt else st_raise DataAccessExternalError
   end ;;;
   λ w, match kv_get obj_dir w with
   | Some v => (scheme ← scheme_loads v; Ok (MkDb (db_model c) (db_collection c) scheme), w)
   | None =>
       let scheme := md_fields (db_model c) in
       (let! response := st_put obj_dir (scheme_dumps scheme) in
        if response : bool then st_ret (MkDb (db_model c) (db_collection c) scheme)
        else st_raise DataAccessExternalError) w
   end) w.

(** The path of an object: the whole path is put in lower case. *)
Definition object_path (c : db) (id : V) : string :=
  lower (get_object_path (db_collection c) (md_key (db_model c) id)).

Definition store (c : db) (o : obj V) : ST W unit :=
  let! o := st_lift (generic_store (db_model c) (db_scheme c) o) in
  let! id := st_lift (getattr o (md_primary_key (db_model c))) in
  let! response := st_put (object_path c id) (md_dumps (db_model c) o) in
  if response : bool then st_ret tt else st_raise DataAccessExternalError.

Definition _get_all_raw (c : db) : ST W (list (string * string)) := λ w,
  (Ok (kv_get_all (lower (get_object_dir (db_collection c)) +:+ "/") w), w).

Definition load_models (c : db) (raw : list (string * string)) : res (list (obj V)) :=
  res_map (λ kv, md_loads (db_model c) kv.2) raw.

(** *** Sorting *)

(** [sorted(l, key=...)] once the keys are computed: a stable sort by [<]. *)
Fixpoint insert_sorted (x : V * obj V) (l : list (V * obj V)) : res (list (V * obj V)) :=
  match l with
  | [] => Ok [x]
  | y :: l' =>
      b ← py_op OPERATION_LT y.1 x.1;
      if b : bool then l'' ← insert_sorted x l'; Ok (y :: l'') else Ok (x :: y :: l')
  end.

Fixpoint sort_keyed (l : list (V * obj V)) : res (list (V * obj V)) :=
  match l with
  | [] => Ok []
  | x :: l' => l'' ← sort_keyed l'; insert_sorted x l''
  end.

Definition sort_key (m : Model V) (field : string) (o : obj V) : res V :=
  v ← getattr o field; if md_is_string m field then py_lower v else Ok v.

Definition sorted (m : Model V) (field : string) (reverse : bool) (l : list (obj V)) : res (list (obj V)) :=
  keyed ← res_map (λ o, k ← sort_key m field o; Ok (k, o)) l;
  if reverse then s ← sort_keyed (rev keyed); Ok (rev s.*2)
  else s ← sort_keyed keyed; Ok s.*2.

(** *** [get] *)

Definition order_models (c : db) (q : Query V) (models : list (obj V)) : res (list (obj V)) :=
  if match q_order_by q with Some _ => true | None => negb (default 0%Z (q_offset q) =? 0)%Z end then
    field ← match q_order_by q with
            | Some ob => field_to_str (ob_field ob)
            | None => Ok (md_primary_key (db_model c))
            end;
    if decide (field ∈ md_fields (db_model c)) then
      sorted (db_model c) field
        (match q_order_by q with Some ob => match ob_order ob with DESC => true | ASC => false end | None => false end)
        models
    else Err AttributeError
  else Ok models.

(** [base_models[slice(offset, limit)]] *)
Definition page (q : Query V) (models : list (obj V)) : res (list (obj V)) :=
  let offset := default 0%Z (q_offset q) in
  let limit := match q_limit q with Some l => (offset + l)%Z | None => Z.of_nat (length models) end in
  if decide (offset < 0 ∨ limit < 0)%Z then Err DataAccessInternalError
  else Ok (drop (Z.to_nat offset) (take (Z.to_nat limit) models)).

Definition get (c : db) (q : Query V) : ST W (list (obj V)) :=
  let! raw := _get_all_raw c in
  match raw with
  | [] => st_ret []
  | _ =>
      st_lift (
        suitable ← match q_filter_by q with
                   | Some f => build (db_model c) f raw
                   | None => Ok raw
                   end;
        models ← load_models c suitable;
        models ← order_models c q models;
        page q models)
  end.

Definition get_by_id (c : db) (obj_id : V) : ST W (option (obj V)) :=
  let! f := st_lift (id_filter (db_model c) obj_id) in
  let! result := get c (filter_by f query_init) in
  st_ret (last result).

(** *** [update], [delete], [count] *)

Definition setattrs (to_update : list (string * V)) (o : obj V) : obj V :=
  foldl (λ o kv, <[kv.1 := kv.2]> o) o to_update.

Definition update (c : db) (f : filter_tree V) (to_update : list (string * V)) : ST W Z :=
  let! to_update := st_lift (generic_update (db_model c) (db_scheme c) to_update) in
  let! raw := _get_all_raw c in
  match raw with
  | [] => st_ret 0%Z
  | _ =>
      let! models := st_lift (suitable ← build (db_model c) f raw; load_models c suitable) in
      st_iter (λ o, store c (setattrs to_update o)) models ;;;
      st_ret (Z.of_nat (length models))
  end.

Definition update_by_id (c : db) (obj_id : V) (to_update : list (string * V)) : ST W bool :=
  let! f := st_lift (id_filter (db_model c) obj_id) in
  let! result := update c f to_update in
  st_ret (0 <? result)%Z.

(** Every deletion is awaited before the answers are looked at. *)
Fixpoint delete_all (keys : list string) : ST W (list bool) :=
  match keys with
  | [] => st_ret []
  | k :: keys' => let! b := st_delete k in let! bs := delete_all keys' in st_ret (b :: bs)
  end.

Definition delete (c : db) (f : filter_tree V) : ST W Z :=
  let! raw := _get_all_raw c in
  match raw with
  | [] => st_ret 0%Z
  | _ =>
      let! suitable := st_lift (build (db_model c) f raw) in
      match suitable with
      | [] => st_ret 0%Z
      | _ =>
          let! done := delete_all suitable.*1 in
          if forallb id done then st_ret (Z.of_nat (length suitable)) else st_raise DataAccessInternalError
      end
  end.

(** Unlike the generic method it overrides, it returns nothing. *)
Definition delete_by_id (c : db) (obj_id : V) : ST W unit :=
  let! response := st_delete (object_path c obj_id) in
  if response : bool then st_ret tt else st_raise DataAccessExternalError.

Definition count (c : db) (f : option (filter_tree V)) : ST W Z :=
  let! raw := _get_all_raw c in
  match raw, f with
  | [], _ => st_ret 0%Z
  | _, None => st_ret (Z.of_nat (length raw))
  | _, Some f =>
      let! suitable := st_lift (build (db_model c) f raw) in
      st_ret (Z.of_nat (length suitable))
  end.

End consul.
Arguments db : clear implicits.
End Consul.
