(* ===== verification/ConsulDbSpec.v ===== *)
(** What the Consul storage promises: filters select what their reading on one
    object says, stored objects are found by their id, deletions remove
    exactly what they count, and queries return pages of a sorted result. *)
From Stdlib Require Import Ascii Sorting.
From S2P Require Import Prelude PyStr DataAccess ConsulDb.
Import PyStr Data Consul.

Module ConsulSpec.

Section spec.
Context {W V : Type} {K : ConsulKV W} {PV : PyValues V}.
Implicit Types (m : Model V) (f : filter_tree V) (o : obj V).

(** ** The reading of a filter on one object *)

Definition sat_compare m o (left : operand) (op : ComparisonOperation) (rhs : V) : res bool :=
  field ← field_to_str left;
  w ← to_native m field rhs;
  v ← getattr o field;
  compare_entry op w v.

Definition sat m o : filter_tree V → res bool := accept_visitor andb orb (sat_compare m o).

(** A raw entry satisfies a filter. *)
Definition satb m f (kv : string * string) : bool :=
  match md_loads m kv.2 with
  | Ok o => match sat m o f with Ok b => b | Err _ => false end
  | Err _ => false
  end.

Section one_filter.
Context (m : Model V) (data : list (string * obj V)).
Context (Hnd : NoDup data.*1) (Hne : data ≠ []).

(** The keys a set-valued visit selects are those of the objects the visit
    with booleans accepts. *)
Definition agrees f : Prop :=
  (∀ k o, (k, o) ∈ data → ∃ b, sat m o f = Ok b) →
  ∃ S, accept_visitor intersection union (handle_compare m data) f = Ok S ∧
       ∀ k o, (k, o) ∈ data → sat m o f = Ok (bool_decide (k ∈ S)).

Lemma entry_unique k o o' : (k, o) ∈ data → (k, o') ∈ data → o = o'.
Proof.
  intros H1%(elem_of_list_to_map_1 (M:=gmap string)) H2%(elem_of_list_to_map_1 (M:=gmap string)); [|done..].
  congruence.
Qed.

Lemma compare_agrees left op rhs : agrees (FilterOperationCompare left op rhs).
Proof.
  intros Hsat. cbn [accept_visitor]. unfold handle_compare, sat in *. cbn [accept_visitor] in Hsat.
  assert (Hhead : ∃ field w, field_to_str left = Ok field ∧ to_native m field rhs = Ok w).
  { destruct data as [|[k o] l]; [done|]. destruct (Hsat k o) as [b Hb]; [left|].
    unfold sat_compare in Hb. apply res_bind_ok in Hb as (field & Hf & (w & Hw & _)%res_bind_ok). eauto. }
  destruct Hhead as (field & w & Hf & Hw). rewrite Hf. simpl. rewrite Hw. simpl.
  set (g := λ ko : string * obj V, v ← getattr ko.2 field; b ← compare_entry op w v; Ok (if b : bool then [ko.1] else [])).
  assert (Hg : ∀ k o, (k, o) ∈ data → ∃ b, sat_compare m o left op rhs = Ok b ∧ g (k, o) = Ok (if b : bool then [k] else [])).
  { intros k o Hin. destruct (Hsat k o Hin) as [b Hb]. exists b. split; [done|].
    unfold sat_compare in Hb. rewrite Hf in Hb. simpl in Hb. rewrite Hw in Hb. simpl in Hb.
    apply res_bind_ok in Hb as (v & Hv & Hc). unfold g. simpl. rewrite Hv. simpl. by rewrite Hc. }
  assert (Hmap : ∃ ks, res_map g data = Ok ks).
  { clear -Hg. induction data as [|[k o] l IH]; [by eexists|]. destruct (Hg k o) as (b & _ & Hgo); [left|].
    destruct IH as [ks Hks]; [intros; apply Hg; by right|]. cbn [res_map]. rewrite Hgo, Hks. simpl. eauto. }
  destruct Hmap as [ks Hks]. rewrite Hks. simpl. eexists. split; [done|].
  intros k o Hin. destruct (Hg k o Hin) as (b & -> & Hgo). f_equal.
  assert (Hiff : b = true ↔ k ∈ (list_to_set (concat ks) : gset string)).
  { rewrite elem_of_list_to_set, list_elem_of_In, in_concat. apply res_map_ok in Hks. split.
    - intros ->. apply list_elem_of_lookup in Hin as [i Hi].
      destruct (Forall2_lookup_l _ _ _ _ _ Hks Hi) as (x & Hx & Hgx). rewrite Hgo in Hgx. injection Hgx as <-.
      exists [k]. split; [|by left]. apply list_elem_of_In. by eapply list_elem_of_lookup_2.
    - intros (x & Hx%list_elem_of_In & Hkx). apply list_elem_of_lookup in Hx as [i Hi].
      destruct (Forall2_lookup_r _ _ _ _ _ Hks Hi) as ([k' o'] & Hk' & Hgk').
      apply list_elem_of_lookup_2 in Hk'. destruct (Hg k' o' Hk') as (b' & _ & Hgo').
      rewrite Hgo' in Hgk'. injection Hgk' as <-. destruct b'; [|done].
      destruct Hkx as [<-|[]]. rewrite (entry_unique _ _ _ Hin Hk') in Hgo. rewrite Hgo' in Hgo.
      by destruct b. }
  destruct b; [by rewrite bool_decide_true by by apply Hiff|].
  rewrite bool_decide_false; [done|]. intros Hk. by apply Hiff in Hk.
Qed.

(** The operands of an operation, visited one by one. *)
Lemma operands_agree l :
  Forall agrees l →
  (∀ k o, (k, o) ∈ data → ∃ bs, Forall2 (λ f b, sat m o f = Ok b) l bs) →
  ∃ Ss, Forall2 (λ f S, accept_visitor intersection union (handle_compare m data) f = Ok S) l Ss ∧
        ∀ k o, (k, o) ∈ data → Forall2 (λ f S, sat m o f = Ok (bool_decide (k ∈ S))) l Ss.
Proof.
  induction 1 as [|f l Hf Hl IH]; intros Hsat; [exists []; split; [constructor|intros; constructor]|].
  destruct Hf as (S & HS & Hin).
  { intros k o Hko. destruct (Hsat k o Hko) as [bs Hbs]. inversion Hbs; subst. eauto. }
  destruct IH as (Ss & HSs & Hins).
  { intros k o Hko. destruct (Hsat k o Hko) as [bs Hbs]. inversion Hbs; subst. eauto. }
  exists (S :: Ss). split; [by constructor|]. intros k o Hko. constructor; auto.
Qed.

Lemma foldl_set (op : gset string → gset string → gset string) (bop : bool → bool → bool) k S0 Ss :
  (∀ A B, bool_decide (k ∈ op A B) = bop (bool_decide (k ∈ A)) (bool_decide (k ∈ B))) →
  bool_decide (k ∈ foldl op S0 Ss) = foldl bop (bool_decide (k ∈ S0)) ((λ S, bool_decide (k ∈ S)) <$> Ss).
Proof.
  intros Hop. revert S0. induction Ss as [|S Ss IH]; intros S0; [done|]. rewrite fmap_cons. cbn [foldl].
  by rewrite IH, Hop.
Qed.

Lemma operation_agrees (op : gset string → gset string → gset string) (bop : bool → bool → bool) l :
  (∀ k A B, bool_decide (k ∈ op A B) = bop (bool_decide (k ∈ A)) (bool_decide (k ∈ B))) →
  Forall agrees l →
  (∀ k o, (k, o) ∈ data → ∃ b, handle_operands bop (map (sat m o) l) = Ok b) →
  ∃ S, handle_operands op (map (accept_visitor intersection union (handle_compare m data)) l) = Ok S ∧
       ∀ k o, (k, o) ∈ data → handle_operands bop (map (sat m o) l) = Ok (bool_decide (k ∈ S)).
Proof.
  intros Hop Hl Hsat.
  destruct (operands_agree l Hl) as (Ss & HSs & Hins).
  { intros k o Hko. destruct (Hsat k o Hko) as [b (x & y & bs & Hb & _)%handle_ok].
    exists (x :: y :: bs). by apply Forall2_fmap_l in Hb. }
  assert (Hlen : ∃ A B Ss', Ss = A :: B :: Ss').
  { destruct data as [|[k o] rest]; [done|]. destruct (Hsat k o) as [b (x & y & bs & Hb & _)%handle_ok]; [left|].
    apply Forall2_length in Hb, HSs. rewrite length_map in Hb. simpl in Hb.
    destruct Ss as [|A [|B Ss']]; simpl in HSs; [lia|lia|eauto]. }
  destruct Hlen as (A & B & Ss' & ->).
  exists (foldl op A (B :: Ss')). split.
  - apply handle_ok. exists A, B, Ss'. split; [|done]. by apply Forall2_fmap_l.
  - intros k o Hko. apply handle_ok. specialize (Hins k o Hko).
    eexists (bool_decide (k ∈ A)), (bool_decide (k ∈ B)), ((λ S, bool_decide (k ∈ S)) <$> Ss').
    split; [|by apply (foldl_set op bop)].
    apply Forall2_fmap_l. change (bool_decide (k ∈ A) :: bool_decide (k ∈ B) :: ((λ S, bool_decide (k ∈ S)) <$> Ss'))
      with ((λ S : gset string, bool_decide (k ∈ S)) <$> A :: B :: Ss'). by apply Forall2_fmap_r.
Qed.

Lemma visit_agrees f : agrees f.
Proof.
  induction f as [l IH|l IH|left op rhs] using filter_nested_ind; [| |apply compare_agrees].
  - intros Hsat. apply (operation_agrees intersection andb); [|done|exact Hsat].
    intros k A B. repeat case_bool_decide; set_solver.
  - intros Hsat. apply (operation_agrees union orb); [|done|exact Hsat].
    intros k A B. repeat case_bool_decide; set_solver.
Qed.

End one_filter.

Lemma object_data_keys m raw data : object_data m raw = Ok data → data.*1 = raw.*1.
Proof.
  unfold object_data. intros H%res_map_ok. induction H as [|[k v] [k' o] raw data Hkv _ IH]; [done|].
  rewrite !fmap_cons, IH. simpl in *. destruct (md_loads m v); simpl in Hkv; [|done]. by injection Hkv as <- _.
Qed.

Lemma object_data_elem m raw data k v :
  object_data m raw = Ok data → (k, v) ∈ raw → ∃ o, md_loads m v = Ok o ∧ (k, o) ∈ data.
Proof.
  unfold object_data. intros H%res_map_ok [i Hi]%list_elem_of_lookup.
  destruct (Forall2_lookup_l _ _ _ _ _ H Hi) as ([k' o] & Hd & Ho). simpl in Ho.
  destruct (md_loads m v) as [o'|]; simpl in Ho; [|done]. injection Ho as <- <-.
  exists o'. split; [done|]. by eapply list_elem_of_lookup_2.
Qed.

Lemma build_exact m f raw data :
  NoDup raw.*1 → object_data m raw = Ok data → raw ≠ [] →
  (∀ k o, (k, o) ∈ data → ∃ b, sat m o f = Ok b) →
  build m f raw = Ok (filter (λ kv, satb m f kv = true) raw).
Proof.
  intros Hnd Hdata Hne Hsat. unfold build. rewrite Hdata. simpl.
  destruct (visit_agrees m data) with (f := f) as (S & HS & Hin); [|..|done|].
  { by rewrite (object_data_keys m raw data Hdata). }
  { intros ->. apply object_data_keys in Hdata. by destruct raw. }
  rewrite HS. simpl. f_equal. apply filter_ext_in.
  intros [k v] Hkv. destruct (object_data_elem m raw data k v Hdata Hkv) as (o & Ho & Hko).
  specialize (Hin k o Hko). unfold satb. simpl. rewrite Ho, Hin.
  rewrite bool_decide_eq_true. done.
Qed.

(** *** The meaning of the filter *)

(** Python's operators on the values of the fields are those of an order. *)
Class PyOrdering `{Ordering V} : Prop := {
  op_means : ∀ op a b, py_op op a b = Ok (means op a b);
  eqb_sym : ∀ a b : V, v_eqb a b = v_eqb b a
}.

(** The storage reads each comparison from right to left. *)
Definition backwards `{Ordering V} (k : string) (op : ComparisonOperation) : V → V → bool := means (mirrored op).

Lemma compare_backwards `{PyOrdering} k op w x : compare_entry op w x = Ok (backwards k op x w).
Proof.
  unfold compare_entry, backwards.
  destruct op; rewrite op_means; cbn [means mirrored]; by rewrite ?(eqb_sym w x).
Qed.

Lemma sat_satisfied `{PyOrdering} m o f : answerable m o f = true → sat m o f = Ok (satisfied backwards m o f).
Proof.
  apply visit_satisfied. intros lhs op v. cbn [answerable satisfied]. unfold sat_compare, to_native, getattr.
  destruct (field_to_str lhs) as [k|]; [|done]. cbn [mbind res_bind].
  intros [[Hk%bool_decide_eq_true [x Hx]%bool_decide_eq_true]%andb_prop [w Hw]%bool_decide_eq_true]%andb_prop.
  rewrite decide_True, Hw, Hx by done. apply compare_backwards.
Qed.

(** The entries a filter is meant to select, read backwards *)
Definition chosen `{Ordering V} m f (kv : string * string) : bool :=
  match md_loads m kv.2 with Ok o => satisfied backwards m o f | Err _ => false end.

(** C24.  The storage selects by filter exactly the entries whose object
    satisfies it, in their order, with every order comparison read backwards:
    where the filter says [field > value] it selects the objects with
    [field < value].  [And], [Or], [=], [!=] and [like] mean what they say. *)
Theorem consul_filter_exact `{PyOrdering} m f raw data :
  NoDup raw.*1 → object_data m raw = Ok data → raw ≠ [] →
  (∀ k o, (k, o) ∈ data → answerable m o f = true) →
  build m f raw = Ok (filter (λ kv, chosen m f kv = true) raw).
Proof.
  intros Hnd Hdata Hne Ha. rewrite (build_exact m f raw data) by (done || by intros k o Ho%Ha; eexists; apply sat_satisfied).
  f_equal. apply filter_ext_in. intros [k v] Hkv.
  destruct (object_data_elem m raw data k v Hdata Hkv) as (o & Ho & Hko).
  unfold satb, chosen. cbn [snd]. rewrite Ho. by rewrite sat_satisfied by by eapply Ha.
Qed.

(** ** Native values *)

(** Equality on the values of a field is decided, and [a > b] is [b < a]. *)
Class NativeLaws `{EqDecision V} : Prop := {
  op_eq : ∀ a b, py_op OPERATION_EQ a b = Ok (bool_decide (a = b));
  op_gt : ∀ a b, py_op OPERATION_GT a b = py_op OPERATION_LT b a
}.
Context `{!EqDecision V} {NL : NativeLaws}.

(** The storage reads order comparisons backwards: the filter
    [field > v] accepts exactly the objects whose field is smaller than
    [v]. *)
Theorem consul_comparison_reversed m o field v w x :
  to_native m field v = Ok w → o !! field = Some x →
  sat m o (FilterOperationCompare (FieldName field) OPERATION_GT v) = py_op OPERATION_LT x w.
Proof.
  intros Hw Hx. unfold sat. cbn [accept_visitor]. unfold sat_compare, getattr. cbn [field_to_str mbind res_bind].
  rewrite Hw. cbn [mbind res_bind]. rewrite Hx. cbn [mbind res_bind compare_entry]. apply op_gt.
Qed.

(** ** Objects by id *)

Section by_id.
Context {KL : ConsulLaws K}.
Context (c : db V).
Notation m := (db_model c).
Notation pk := (md_primary_key m).

Definition obj_prefix : string := lower (get_object_dir (db_collection c)) +:+ "/".

(** Every entry of the collection is an object stored under its own path. *)
Definition inv (w : W) : Prop := ∀ k v,
  kv_contents w !! k = Some v → startswith k obj_prefix = true →
  ∃ o id, md_loads m v = Ok o ∧ o !! pk = Some id ∧ k = object_path c id.

(** The object a store holds under an id. *)
Definition find (id : V) (w : W) : option (obj V) :=
  v ← kv_contents w !! object_path c id;
  match md_loads m v with
  | Ok o => if decide (o !! pk = Some id) then Some o else None
  | Err _ => None
  end.

Lemma path_prefix id : startswith (object_path c id) obj_prefix = true.
Proof.
  apply startswith_spec. unfold object_path, get_object_path, obj_prefix.
  exists (lower (md_key m id)). by rewrite !lower_app, !sapp_assoc.
Qed.

Lemma raw_loads w : inv w → ∃ data, object_data m (kv_get_all obj_prefix w) = Ok data.
Proof.
  intros Hinv. unfold object_data.
  assert (Hl : ∀ kv, kv ∈ kv_get_all obj_prefix w → ∃ o, md_loads m kv.2 = Ok o).
  { intros [k v] [Hk Hp]%law_all. destruct (Hinv k v Hk Hp) as (o & _ & Ho & _). eauto. }
  induction (kv_get_all obj_prefix w) as [|[k v] l IH]; [by eexists|].
  destruct (Hl (k, v)) as [o Ho]; [left|]. destruct IH as [data Hd]; [intros; apply Hl; by right|].
  cbn [res_map]. rewrite Ho. simpl. rewrite Hd. simpl. eauto.
Qed.

Lemma entry_of_data w data k o :
  inv w → object_data m (kv_get_all obj_prefix w) = Ok data → (k, o) ∈ data →
  ∃ id, o !! pk = Some id ∧ k = object_path c id.
Proof.
  intros Hinv H%res_map_ok [i Hi]%list_elem_of_lookup.
  destruct (Forall2_lookup_r _ _ _ _ _ H Hi) as ([k' v] & Hraw & Ho). simpl in Ho.
  apply list_elem_of_lookup_2, law_all in Hraw as [Hk Hp].
  destruct (Hinv k' v Hk Hp) as (o' & id & Ho' & Hid & ->).
  rewrite Ho' in Ho. simpl in Ho. injection Ho as <- <-. eauto.
Qed.

Lemma sat_id left o id id' :
  field_to_str left = Ok pk → to_native m pk id = Ok id → o !! pk = Some id' →
  sat m o (FilterOperationCompare left OPERATION_EQ id) = Ok (bool_decide (id = id')).
Proof.
  intros Hl Hid Ho. unfold sat. cbn [accept_visitor]. unfold sat_compare, getattr. rewrite Hl. cbn [mbind res_bind].
  rewrite Hid. cbn [mbind res_bind]. rewrite Ho. cbn [mbind res_bind compare_entry]. apply op_eq.
Qed.

Lemma same_key_single {A} (l : list (string * A)) k :
  NoDup l.*1 → (∀ kv, kv ∈ l → kv.1 = k) → l = [] ∨ ∃ v, l = [(k, v)].
Proof.
  destruct l as [|[k1 v1] [|[k2 v2] l]]; intros Hnd Hk; [by left| |].
  - right. exists v1. assert (k1 = k) as -> by (apply (Hk (k1, v1)); left). done.
  - rewrite !fmap_cons in Hnd. apply NoDup_cons in Hnd as [Hn _].
    assert (k1 = k) as -> by (apply (Hk (k1, v1)); left).
    assert (k2 = k) as -> by (apply (Hk (k2, v2)); right; left).
    destruct Hn. left.
Qed.

(** The result of [get] on the raw entries. *)
Definition answer (q : Query V) (raw : list (string * string)) : res (list (obj V)) :=
  suitable ← match q_filter_by q with Some f => build m f raw | None => Ok raw end;
  models ← load_models c suitable;
  models ← order_models c q models;
  page q models.

Lemma get_answer q w :
  get c q w = (match kv_get_all obj_prefix w with [] => Ok [] | raw => answer q raw end, w).
Proof. unfold get, st_bind, _get_all_raw. fold obj_prefix. by destruct (kv_get_all obj_prefix w). Qed.

Lemma get_id_exact left w id :
  field_to_str left = Ok pk → inv w → to_native m pk id = Ok id →
  get c (filter_by (FilterOperationCompare left OPERATION_EQ id) query_init) w =
    (Ok (match find id w with Some o => [o] | None => [] end), w).
Proof.
  intros Hleft Hinv Hid. rewrite get_answer.
  destruct (raw_loads w Hinv) as [data Hdata].
  pose proof (law_all_nodup (K:=K) obj_prefix w) as Hnd.
  assert (Hfind : ∀ v, kv_contents w !! object_path c id = Some v → (object_path c id, v) ∈ kv_get_all obj_prefix w).
  { intros v Hv. apply law_all. split; [done|apply path_prefix]. }
  destruct (decide (kv_get_all obj_prefix w = [])) as [Hraw|Hraw].
  { rewrite Hraw. unfold find.
    destruct (kv_contents w !! object_path c id) as [v|]; [|done].
    destruct (not_elem_of_nil (object_path c id, v)). rewrite <- Hraw. by apply Hfind. }
  assert (Hans : ∀ q, match kv_get_all obj_prefix w with [] => Ok [] | raw => answer q raw end =
                      answer q (kv_get_all obj_prefix w)) by (by destruct (kv_get_all obj_prefix w)).
  rewrite Hans. set (raw := kv_get_all obj_prefix w) in *. unfold answer. cbn [q_filter_by filter_by].
  set (f := FilterOperationCompare left OPERATION_EQ id).
  assert (Hsat : ∀ k o, (k, o) ∈ data → ∃ b, sat m o f = Ok b).
  { intros k o Hko. destruct (entry_of_data w data k o Hinv Hdata Hko) as (id' & Ho & _).
    unfold f. rewrite (sat_id left o id id') by done. eauto. }
  rewrite (build_exact m f raw data) by done. cbn [mbind res_bind].
  assert (Hsel : ∀ kv, kv ∈ filter (λ kv, satb m f kv = true) raw ↔ kv ∈ raw ∧ kv.1 = object_path c id ∧
             ∃ o, md_loads m kv.2 = Ok o ∧ o !! pk = Some id).
  { intros [k v]. rewrite list_elem_of_filter. cbn [fst snd]. split.
    - intros [Hs Hin]. split; [done|]. apply law_all in Hin as [Hk Hp].
      destruct (Hinv k v Hk Hp) as (o & id' & Ho & Hid' & ->).
      unfold satb, f in Hs. cbn [snd] in Hs. rewrite Ho, (sat_id left o id id') in Hs by done.
      case_bool_decide; [subst id'|done]. eauto.
    - intros (Hin & Hk & o & Ho & Hid'). split; [|done]. unfold satb, f. cbn [snd].
      rewrite Ho, (sat_id left o id id) by done. by rewrite bool_decide_true. }
  destruct (same_key_single (filter (λ kv, satb m f kv = true) raw) (object_path c id)) as [HL|[v HL]].
  { eapply sublist_NoDup; [exact Hnd|]. apply (fmap_sublist fst), sublist_filter. }
  { intros kv Hkv. by apply Hsel in Hkv as (_ & -> & _). }
  - rewrite HL. cbn. unfold find.
    destruct (kv_contents w !! object_path c id) as [v|] eqn:Hv; [|done]. cbn [mbind option_bind].
    destruct (md_loads m v) as [o|] eqn:Ho; [|done]. case_decide as Hpk; [|done]. exfalso.
    assert (Hin : (object_path c id, v) ∈ filter (λ kv, satb m f kv = true) raw) by (apply Hsel; eauto 6).
    rewrite HL in Hin. by apply not_elem_of_nil in Hin.
  - assert (Hin : (object_path c id, v) ∈ filter (λ kv, satb m f kv = true) raw) by (rewrite HL; left).
    rewrite HL. apply Hsel in Hin as (Hin & _ & o & Ho & Hpk). apply law_all in Hin as [Hv _].
    unfold find. rewrite Hv. cbn in *. rewrite Ho. cbn. by rewrite decide_True.
Qed.

Lemma get_by_id_find w id :
  inv w → to_native m pk id = Ok id → get_by_id c id w = (Ok (find id w), w).
Proof.
  intros Hinv Hid. unfold get_by_id.
  assert (Hf : id_filter m id = Ok (FilterOperationCompare (FieldName pk) OPERATION_EQ id))
    by (unfold id_filter; by rewrite Hid).
  unfold st_bind, st_lift. rewrite Hf, get_id_exact by done. by destruct (find id w).
Qed.

(** [model(json.loads(json.dumps(obj.to_primitive())))] of a valid object. *)
Context (loads_dumps : ∀ o o', md_validate m o = Some o' → md_loads m (md_dumps m o') = Ok o').

Lemma store_put o o' id w w' :
  md_validate m o = Some o' → o' !! pk = Some id → store c o w = (Ok tt, w') →
  kv_contents w' = <[object_path c id := md_dumps m o']> (kv_contents w).
Proof.
  intros Hv Hid. unfold store, st_bind, st_lift, generic_store. rewrite Hv.
  case_decide; [done|]. case_decide; [done|]. unfold getattr. rewrite Hid. unfold st_put.
  destruct (kv_put (object_path c id) (md_dumps m o') w) as [b w1] eqn:Hput.
  destruct b; [|done]. intros [= <-]. pose proof (law_put (K:=K) (object_path c id) (md_dumps m o') w) as Hl.
  rewrite Hput in Hl. by apply Hl.
Qed.

Lemma inv_store o o' id w w' :
  inv w → md_validate m o = Some o' → o' !! pk = Some id → store c o w = (Ok tt, w') → inv w'.
Proof.
  intros Hinv Hv Hid Hst k v. rewrite (store_put o o' id w w') by done. intros Hk Hp.
  apply lookup_insert_Some in Hk as [[<- <-]|[_ Hk]]; [|by apply (Hinv k v)].
  exists o', id. split; [by eapply loads_dumps|done].
Qed.

Lemma find_store o o' id id2 w w' :
  md_validate m o = Some o' → o' !! pk = Some id → store c o w = (Ok tt, w') →
  find id2 w' = if decide (object_path c id2 = object_path c id)
                then if decide (id2 = id) then Some o' else None
                else find id2 w.
Proof.
  intros Hv Hid Hst. unfold find. rewrite (store_put o o' id w w') by done. case_decide as Hp.
  - rewrite Hp, lookup_insert_eq. cbn [mbind option_bind]. rewrite (loads_dumps o o' Hv), Hid.
    repeat case_decide; congruence.
  - by rewrite lookup_insert_ne by done.
Qed.

(** A stored object is found by its id, converted and validated as it
    was stored; every id with another path finds what it found before; and
    the collection stays well-formed. *)
Theorem consul_store_get o o' id w w' :
  inv w → md_validate m o = Some o' → o' !! pk = Some id → to_native m pk id = Ok id →
  store c o w = (Ok tt, w') →
  inv w' ∧ get_by_id c id w' = (Ok (Some o'), w') ∧
  ∀ id2, to_native m pk id2 = Ok id2 → object_path c id2 ≠ object_path c id →
    (get_by_id c id2 w').1 = (get_by_id c id2 w).1.
Proof.
  intros Hinv Hv Hid Hn Hst. assert (Hinv' : inv w') by (by eapply inv_store).
  split; [done|]. split.
  - rewrite get_by_id_find by done. rewrite (find_store o o' id id w w') by done. by rewrite !decide_True.
  - intros id2 Hn2 Hp. rewrite !get_by_id_find by done. cbn [fst].
    rewrite (find_store o o' id id2 w w') by done. by rewrite decide_False.
Qed.

(** Paths are put in lower case, so ids that differ in case only share
    one: storing the second object loses the first. *)
Theorem consul_ids_case_collide o1 o1' id1 o2 o2' id2 w w1 w2 :
  inv w → md_validate m o1 = Some o1' → o1' !! pk = Some id1 → to_native m pk id1 = Ok id1 →
  md_validate m o2 = Some o2' → o2' !! pk = Some id2 →
  id1 ≠ id2 → lower (md_key m id1) = lower (md_key m id2) →
  store c o1 w = (Ok tt, w1) → store c o2 w1 = (Ok tt, w2) →
  get_by_id c id1 w2 = (Ok None, w2).
Proof.
  intros Hinv Hv1 Hid1 Hn1 Hv2 Hid2 Hne Hlow Hs1 Hs2.
  assert (Hinv1 : inv w1) by (by apply (inv_store o1 o1' id1 w)).
  assert (Hinv2 : inv w2) by (by apply (inv_store o2 o2' id2 w1)).
  rewrite get_by_id_find by done. rewrite (find_store o2 o2' id2 id1 w1 w2) by done.
  rewrite decide_True, decide_False by (done || (unfold object_path, get_object_path; by rewrite !lower_app, Hlow)).
  done.
Qed.

(** ** Deletion *)

Lemma delete_all_contents keys w bs w' :
  delete_all keys w = (Ok bs, w') → forallb id bs = true →
  ∀ k, kv_contents w' !! k = if decide (k ∈ keys) then None else kv_contents w !! k.
Proof.
  revert w bs. induction keys as [|k0 keys IH]; intros w bs; cbn [delete_all].
  { intros [= <- <-] _ k. by rewrite decide_False by apply not_elem_of_nil. }
  unfold st_bind, st_delete. destruct (kv_delete k0 w) as [b w1] eqn:Hd.
  destruct (delete_all keys w1) as [[bs'|e] w2] eqn:Hrest; [|done]. intros [= <- <-].
  cbn [forallb]. rewrite andb_true_iff. intros [Hb Hbs] k. rewrite (IH w1 bs' Hrest Hbs).
  pose proof (law_delete (K:=K) k0 w) as Hl. rewrite Hd in Hl. cbn [fst snd] in Hl. rewrite (Hl Hb).
  destruct (decide (k ∈ keys)) as [Hk|Hk].
  - by rewrite decide_True by by right.
  - destruct (decide (k = k0)) as [->|Hne].
    + rewrite decide_True by left. by rewrite lookup_delete_eq.
    + rewrite decide_False by (rewrite elem_of_cons; tauto). by rewrite lookup_delete_ne.
Qed.

Lemma delete_all_total keys w : ∃ bs w', delete_all keys w = (Ok bs, w').
Proof.
  revert w. induction keys as [|k keys IH]; intros w; cbn [delete_all]; [by eexists _, _|].
  unfold st_bind, st_delete. destruct (kv_delete k w) as [b w1].
  destruct (IH w1) as (bs & w2 & ->). by eexists _, _.
Qed.

Lemma delete_exact f w n w' :
  inv w →
  (∀ k v o, kv_contents w !! k = Some v → startswith k obj_prefix = true → md_loads m v = Ok o →
     ∃ b, sat m o f = Ok b) →
  delete c f w = (Ok n, w') →
  n = Z.of_nat (length (filter (λ kv, satb m f kv = true) (kv_get_all obj_prefix w))) ∧
  (∀ k, kv_contents w' !! k =
     match kv_contents w !! k with
     | Some v => if startswith k obj_prefix && satb m f (k, v) then None else Some v
     | None => None
     end).
Proof.
  intros Hinv Hsat. destruct (raw_loads w Hinv) as [data Hdata].
  unfold delete, st_bind at 1, _get_all_raw. fold obj_prefix.
  assert (Hmem : ∀ k v, (k, v) ∈ filter (λ kv, satb m f kv = true) (kv_get_all obj_prefix w) ↔
     kv_contents w !! k = Some v ∧ startswith k obj_prefix = true ∧ satb m f (k, v) = true).
  { intros k v. rewrite list_elem_of_filter, law_all. tauto. }
  assert (Hnone : filter (λ kv, satb m f kv = true) (kv_get_all obj_prefix w) = [] →
     ∀ k, kv_contents w !! k = match kv_contents w !! k with
       | Some v => if startswith k obj_prefix && satb m f (k, v) then None else Some v | None => None end).
  { intros Hnil k. destruct (kv_contents w !! k) as [v|] eqn:Hv; [|done].
    destruct (startswith k obj_prefix) eqn:Hp, (satb m f (k, v)) eqn:Hs; try done. exfalso.
    apply (not_elem_of_nil (k, v)). rewrite <- Hnil. by apply Hmem. }
  destruct (decide (kv_get_all obj_prefix w = [])) as [Hraw|Hraw].
  { rewrite Hraw in *. intros [= <- <-]. split; [done|]. by apply Hnone. }
  assert (Hsatd : ∀ k o, (k, o) ∈ data → ∃ b, sat m o f = Ok b).
  { intros k o Hko. assert (Hdk : k ∈ data.*1) by (apply list_elem_of_fmap; by exists (k, o)).
    rewrite (object_data_keys m _ data Hdata) in Hdk. apply list_elem_of_fmap in Hdk as ([k' v] & -> & Hraw').
    destruct (object_data_elem m _ data k' v Hdata Hraw') as (o' & Ho' & Hin').
    assert (o' = o) as -> by (eapply (entry_unique data); [|done..];
      rewrite (object_data_keys m _ data Hdata); apply law_all_nodup).
    apply law_all in Hraw' as [Hv Hp]. by eapply Hsat. }
  assert (Hb : build m f (kv_get_all obj_prefix w) = Ok (filter (λ kv, satb m f kv = true) (kv_get_all obj_prefix w))).
  { apply (build_exact m f _ data); [apply law_all_nodup|done..]. }
  set (sel := filter (λ kv, satb m f kv = true) (kv_get_all obj_prefix w)) in *.
  destruct (kv_get_all obj_prefix w) as [|x0 raw0]; [done|]. unfold st_bind at 1, st_lift. rewrite Hb.
  destruct sel as [|y sel'] eqn:Hsel.
  { intros [= <- <-]. split; [done|]. by apply Hnone. }
  rewrite <- Hsel in *. unfold st_bind. destruct (delete_all_total sel.*1 w) as (bs & w1 & Hdel).
  assert (Hsel' : sel.*1 = (y :: sel').*1) by (by rewrite Hsel).
  rewrite Hdel. destruct (forallb id bs) eqn:Hbs; [|done]. intros [= <- <-]. split; [done|].
  intros k. rewrite (delete_all_contents _ _ _ _ Hdel Hbs k).
  case_decide as Hk.
  - apply list_elem_of_fmap in Hk as ([k' v] & -> & Hkv). cbn [fst]. by apply Hmem in Hkv as (-> & -> & ->).
  - destruct (kv_contents w !! k) as [v|] eqn:Hv; [|done].
    destruct (startswith k obj_prefix) eqn:Hp, (satb m f (k, v)) eqn:Hs; try done. exfalso.
    apply Hk, list_elem_of_fmap. exists (k, v). split; [done|]. by apply Hmem.
Qed.

(** [delete] removes exactly the objects that satisfy the filter and
    returns their number; every other key of the service keeps its value. *)
Theorem consul_delete_exact f w n w' :
  inv w →
  (∀ k v o, kv_contents w !! k = Some v → startswith k obj_prefix = true → md_loads m v = Ok o →
     ∃ b, sat m o f = Ok b) →
  delete c f w = (Ok n, w') →
  n = Z.of_nat (length (filter (λ kv, satb m f kv = true) (kv_get_all obj_prefix w))) ∧
  (∀ k, kv_contents w' !! k =
     match kv_contents w !! k with
     | Some v => if startswith k obj_prefix && satb m f (k, v) then None else Some v
     | None => None
     end).
Proof. apply delete_exact. Qed.

(** ** Sorted pages *)

Section sorting.
(** [<] on the keys is a strict weak order. *)
Context (ltb : V → V → bool).
Context (op_lt : ∀ a b, py_op OPERATION_LT a b = Ok (ltb a b)).
Context (lt_asym : ∀ a b, ltb a b = true → ltb b a = false).
Context (lt_neg_trans : ∀ a b c, ltb b a = false → ltb c b = false → ltb c a = false).

Definition le (x y : V * obj V) : Prop := ltb y.1 x.1 = false.

Lemma insert_sorted_ok x l :
  StronglySorted le l →
  ∃ l', insert_sorted x l = Ok l' ∧ l' ≡ₚ x :: l ∧ StronglySorted le l'.
Proof.
  induction 1 as [|y l Hs IH Hall]; [by exists [x]; repeat constructor|].
  cbn [insert_sorted]. rewrite op_lt. cbn [mbind res_bind]. destruct (ltb y.1 x.1) eqn:Hyx.
  - destruct IH as (l' & -> & Hp & Hs'). cbn [mbind res_bind]. exists (y :: l'). split; [done|].
    split; [rewrite Hp; apply Permutation_swap|]. constructor; [done|]. rewrite Hp.
    constructor; [by apply lt_asym|done].
  - exists (x :: y :: l). split; [done|]. split; [done|].
    constructor; [by constructor|]. constructor; [done|].
    eapply Forall_impl; [exact Hall|]. intros z Hz. by eapply lt_neg_trans.
Qed.

Lemma sort_keyed_ok l : ∃ l', sort_keyed l = Ok l' ∧ l' ≡ₚ l ∧ StronglySorted le l'.
Proof.
  induction l as [|x l (l' & Hl & Hp & Hs)]; [by exists []; repeat constructor|].
  cbn [sort_keyed]. rewrite Hl. cbn [mbind res_bind].
  destruct (insert_sorted_ok x l' Hs) as (l'' & -> & Hp' & Hs'). exists l''. split; [done|].
  split; [by rewrite Hp', Hp|done].
Qed.

Lemma StronglySorted_snoc {A} (R : A → A → Prop) l x :
  StronglySorted R l → Forall (λ y, R y x) l → StronglySorted R (l ++ [x]).
Proof.
  induction 1 as [|y l Hs IH Hall]; intros Hx; [by repeat constructor|].
  apply Forall_cons in Hx as [Hyx Hx]. cbn. constructor; [by apply IH|].
  apply Forall_app. split; [done|by constructor].
Qed.

Lemma StronglySorted_rev {A} (R : A → A → Prop) l : StronglySorted R l → StronglySorted (flip R) (rev l).
Proof.
  induction 1 as [|x l Hs IH Hall]; [constructor|]. cbn. apply StronglySorted_snoc; [done|].
  apply Forall_forall. intros y Hy. rewrite <- Permutation_rev in Hy.
  rewrite Forall_forall in Hall. by apply Hall.
Qed.

Context (field : string) (key : obj V → V).

Lemma sorted_ok reverse l :
  (∀ o, o ∈ l → sort_key m field o = Ok (key o)) →
  ∃ l', sorted m field reverse l = Ok l' ∧ l' ≡ₚ l ∧
    StronglySorted (λ a b, if reverse : bool then ltb (key a) (key b) = false else ltb (key b) (key a) = false) l'.
Proof.
  intros Hkey. unfold sorted.
  assert (Hk : res_map (λ o, k ← sort_key m field o; Ok (k, o)) l = Ok ((λ o, (key o, o)) <$> l)).
  { apply res_map_ok. apply Forall2_fmap_r, Forall_Forall2_diag, Forall_forall. intros o Ho.
    by rewrite Hkey. }
  rewrite Hk. cbn [mbind res_bind].
  assert (Hel : ∀ l', l' ≡ₚ (λ o, (key o, o)) <$> l → l' = (λ o, (key o, o)) <$> l'.*2).
  { intros l' Hp. rewrite <- list_fmap_compose. rewrite <- (list_fmap_id l') at 1. apply list_fmap_ext.
    intros i [k o] Hi%list_elem_of_lookup_2. rewrite Hp in Hi. apply list_elem_of_fmap in Hi as (o' & [= -> ->] & _). done. }
  assert (Hsnd : ∀ l', l' ≡ₚ (λ o, (key o, o)) <$> l → l'.*2 ≡ₚ l).
  { intros l' Hp. rewrite Hp, <- list_fmap_compose. by rewrite list_fmap_id. }
  assert (Hss : ∀ R l', StronglySorted le ((λ o, (key o, o)) <$> l') → (∀ a b, le (key a, a) (key b, b) → R a b) →
     StronglySorted R l').
  { intros R l' Hs HR. induction l' as [|o l' IH]; [constructor|]. rewrite fmap_cons in Hs.
    apply StronglySorted_inv in Hs as [Hs Hall]. constructor; [by apply IH|].
    rewrite Forall_fmap in Hall. eapply Forall_impl; [exact Hall|]. intros b Hb. by apply HR. }
  destruct reverse.
  - destruct (sort_keyed_ok (rev ((λ o, (key o, o)) <$> l))) as (l' & -> & Hp & Hs). cbn [mbind res_bind].
    rewrite <- Permutation_rev in Hp. exists (rev l'.*2). split; [done|].
    split; [rewrite <- Permutation_rev; by apply Hsnd|].
    rewrite (Hel l' Hp) in Hs.
    apply (StronglySorted_rev (λ a b, ltb (key b) (key a) = false)). eapply Hss; [exact Hs|done].
  - destruct (sort_keyed_ok ((λ o, (key o, o)) <$> l)) as (l' & -> & Hp & Hs). cbn [mbind res_bind].
    exists l'.*2. split; [done|]. split; [by apply Hsnd|]. rewrite (Hel l' Hp) in Hs. eapply Hss; [exact Hs|done].
Qed.

(** A query returns a page of the sorted result: with an order on a
    field whose keys [<] orders, [get] answers with the objects from [offset]
    on, at most [limit] of them, of one arrangement of exactly the matching
    objects, ascending or descending in the field. *)
Theorem consul_get_page q w ob matches data off :
  inv w → q_order_by q = Some ob → field_to_str (ob_field ob) = Ok field → field ∈ md_fields m →
  object_data m (kv_get_all obj_prefix w) = Ok data →
  (∀ f k o, q_filter_by q = Some f → (k, o) ∈ data → ∃ b, sat m o f = Ok b) →
  load_models c (filter (λ kv, match q_filter_by q with Some f => satb m f kv | None => true end = true)
                   (kv_get_all obj_prefix w)) = Ok matches →
  (∀ o, o ∈ matches → sort_key m field o = Ok (key o)) →
  default 0%Z (q_offset q) = Z.of_nat off →
  match q_limit q with Some l => (0 ≤ l)%Z | None => True end →
  ∃ all, all ≡ₚ matches ∧
    StronglySorted (λ a b, match ob_order ob with
                           | ASC => ltb (key b) (key a) = false
                           | DESC => ltb (key a) (key b) = false end) all ∧
    get c q w = (Ok (let rest := drop off all in
                     match q_limit q with Some l => take (Z.to_nat l) rest | None => rest end), w).
Proof.
  intros Hinv Hob Hfld Hfield Hdata Hsat Hload Hkey Hoff Hlim. rewrite get_answer.
  assert (Hans : match kv_get_all obj_prefix w with [] => Ok [] | raw => answer q raw end =
            if decide (kv_get_all obj_prefix w = []) then Ok [] else answer q (kv_get_all obj_prefix w))
    by (by destruct (kv_get_all obj_prefix w)).
  rewrite Hans. clear Hans.
  set (raw := kv_get_all obj_prefix w) in *.
  assert (Hmatch : match q_filter_by q with Some f => build m f raw | None => Ok raw end =
    if decide (raw = []) then match q_filter_by q with Some f => build m f raw | None => Ok raw end else
    Ok (filter (λ kv, match q_filter_by q with Some f => satb m f kv | None => true end = true) raw)).
  { case_decide as Hraw; [done|]. destruct (q_filter_by q) as [f|].
    - apply (build_exact m f raw data); [apply law_all_nodup|done|done|]. intros k o. by apply Hsat.
    - f_equal. clear. induction raw as [|x raw IH]; [done|]. rewrite filter_cons, decide_True by done. by rewrite <- IH. }
  destruct (sorted_ok (match ob_order ob with DESC => true | ASC => false end) matches Hkey) as (all & Hs & Hp & Hsort).
  exists all. split; [done|]. split; [by destruct (ob_order ob)|]. f_equal.
  destruct (decide (raw = [])) as [Hraw|Hraw].
  - rewrite Hraw in Hload. cbn in Hload. injection Hload as <-.
    apply Permutation_nil_r in Hp as ->. rewrite drop_nil. destruct (q_limit q); [|done]. by rewrite take_nil.
  - unfold answer. rewrite Hmatch. cbn [mbind res_bind]. rewrite Hload. cbn [mbind res_bind].
    unfold order_models. rewrite Hob, Hfld. cbn [mbind res_bind]. rewrite decide_True, Hs by done. cbn [mbind res_bind].
    unfold page. rewrite Hoff. destruct (q_limit q) as [l|].
    + rewrite decide_False by lia. f_equal. rewrite !Nat2Z.id, skipn_firstn_comm. f_equal. lia.
    + rewrite decide_False by lia. f_equal. by rewrite !Nat2Z.id, firstn_all.
Qed.

End sorting.

End by_id.
End spec.
End ConsulSpec.
