(* ===== verification/Collection.v ===== *)
(** What a storage of models promises to its clients: a collection is a map
    from paths to objects, and storing, getting and deleting by the primary key
    are the operations of the map.  The Consul storage keeps the promise. *)
From Stdlib Require Import Ascii.
From S2P Require Import Prelude PyStr DataAccess ConsulDb ConsulDbSpec.
Import PyStr Data Consul ConsulSpec.

Module Coll.

(** The operations of [DataBaseProvider(config)(Model)] the clients use *)
Record ops (W V : Type) := Ops {
  c_store : obj V → ST W unit;
  c_get : Query V → ST W (list (obj V));
  c_delete : filter_tree V → ST W Z
}.
Arguments Ops {_ _} _ _ _.
Arguments c_store {_ _} _ _.
Arguments c_get {_ _} _ _.
Arguments c_delete {_ _} _ _.

Definition consul_ops {W V} `{ConsulKV W} `{PyValues V} (c : Consul.db V) : ops W V :=
  Ops (Consul.store c) (Consul.get c) (Consul.delete c).

Section interface.
Context {W V : Type} `{EqDecision V}.

(** The abstract collection: objects by path; an object answers to its own
    primary key only. *)
Definition held (pk : string) (path : V → string) (st : gmap string (obj V)) (id : V) : option (obj V) :=
  o ← st !! path id; if decide (o !! pk = Some id) then Some o else None.

Definition by_id (left : operand) (id : V) : filter_tree V := FilterOperationCompare left OPERATION_EQ id.

Class Laws (db : ops W V) (pk : string) (path : V → string) (native : V → Prop) (storable : obj V → V → Prop)
    (R : W → gmap string (obj V) → Prop) : Prop := {
  coll_store : ∀ w st o id r w',
    R w st → storable o id → c_store db o w = (r, w') →
    (r = Ok tt ∧ R w' (<[path id := o]> st)) ∨ (is_ok r = false ∧ R w' st);
  coll_get : ∀ w st left id,
    R w st → native id → field_to_str left = Ok pk →
    c_get db (filter_by (by_id left id) query_init) w = (Ok (option_list (held pk path st id)), w);
  coll_delete : ∀ w st left id n w',
    R w st → native id → field_to_str left = Ok pk →
    c_delete db (by_id left id) w = (Ok n, w') →
    match held pk path st id with
    | Some _ => n = 1%Z ∧ R w' (base.delete (path id) st)
    | None => n = 0%Z ∧ R w' st
    end
}.

Lemma held_insert pk path (st : gmap string (obj V)) o id id2 :
  o !! pk = Some id →
  held pk path (<[path id := o]> st) id2 =
    if decide (path id2 = path id) then (if decide (id2 = id) then Some o else None) else held pk path st id2.
Proof.
  intros Ho. unfold held. case_decide as Hp.
  - rewrite Hp, lookup_insert_eq. cbn. rewrite Ho. repeat case_decide; congruence.
  - by rewrite lookup_insert_ne.
Qed.

Lemma coll_held_delete pk path (st : gmap string (obj V)) id id2 :
  held pk path (base.delete (path id) st) id2 = if decide (path id2 = path id) then None else held pk path st id2.
Proof.
  unfold held. case_decide as Hp; [by rewrite Hp, lookup_delete_eq|by rewrite lookup_delete_ne].
Qed.

End interface.

(** ** Clients: sequences of requests by the primary key *)

Section run.
Context {W V : Type} `{EqDecision V} (db : ops W V) (pk : string) (path : V → string)
  (native : V → Prop) (storable : obj V → V → Prop) (R : W → gmap string (obj V) → Prop).
Context {L : Laws db pk path native storable R}.

Inductive request :=
| Store (o : obj V) (id : V)
| Get (id : V)
| Delete (id : V).
Definition request_ok (q : request) : Prop :=
  match q with Store o id => storable o id ∧ o !! pk = Some id | Get id | Delete id => native id end.

(** The answer to a request: the objects got, or the number deleted *)
Definition answer : Type := list (obj V) + Z.

Definition ask (q : request) : ST W answer :=
  match q with
  | Store o _ => c_store db o ;;; st_ret (inl [])
  | Get id => let! l := c_get db (filter_by (by_id (FieldName pk) id) query_init) in st_ret (inl l)
  | Delete id => let! n := c_delete db (by_id (FieldName pk) id) in st_ret (inr n)
  end.
Fixpoint ask_all (qs : list request) : ST W (list answer) :=
  match qs with
  | [] => st_ret []
  | q :: qs' => let! a := ask q in let! l := ask_all qs' in st_ret (a :: l)
  end.

(** The same on the abstract collection *)
Definition spec (q : request) (st : gmap string (obj V)) : answer * gmap string (obj V) :=
  match q with
  | Store o id => (inl [], <[path id := o]> st)
  | Get id => (inl (option_list (held pk path st id)), st)
  | Delete id => match held pk path st id with
                 | Some _ => (inr 1%Z, base.delete (path id) st)
                 | None => (inr 0%Z, st)
                 end
  end.
Fixpoint spec_all (qs : list request) (st : gmap string (obj V)) : list answer * gmap string (obj V) :=
  match qs with
  | [] => ([], st)
  | q :: qs' => let '(a, st1) := spec q st in let '(l, st2) := spec_all qs' st1 in (a :: l, st2)
  end.

Lemma ask_spec q w st a w' :
  R w st → request_ok q → ask q w = (Ok a, w') → a = (spec q st).1 ∧ R w' (spec q st).2.
Proof.
  intros HR Hq. destruct q as [o id|id|id]; cbn [ask spec] in *; unfold st_bind.
  - destruct (c_store db o w) as [r w1] eqn:Hs. destruct (coll_store w st o id r w1 HR (proj1 Hq) Hs) as [[-> HR']|[Hr _]].
    + by intros [= <- <-].
    + by destruct r.
  - rewrite (coll_get w st (FieldName pk) id HR Hq eq_refl). by intros [= <- <-].
  - destruct (c_delete db (by_id (FieldName pk) id) w) as [[n|e] w1] eqn:Hd; [|done]. intros [= <- <-].
    pose proof (coll_delete w st (FieldName pk) id n w1 HR Hq eq_refl Hd) as Hl.
    destruct (held pk path st id); by destruct Hl as [-> ?].
Qed.

Lemma ask_all_spec qs w st l w' :
  R w st → Forall request_ok qs → ask_all qs w = (Ok l, w') → l = (spec_all qs st).1 ∧ R w' (spec_all qs st).2.
Proof.
  revert w st l. induction qs as [|q qs IH]; intros w st l HR Hqs; cbn [ask_all spec_all].
  - by intros [= <- <-].
  - apply Forall_cons in Hqs as [Hq Hqs]. unfold st_bind. destruct (ask q w) as [[a|e] w1] eqn:Ha; [|done].
    destruct (ask_all qs w1) as [[l1|e] w2] eqn:Hl; [|done]. intros [= <- <-].
    destruct (ask_spec q w st a w1 HR Hq Ha) as [-> HR1]. destruct (spec q st) as [a st1]. cbn [fst snd] in *.
    destruct (IH w1 st1 l1 HR1 Hqs Hl) as [-> HR2]. by destruct (spec_all qs st1).
Qed.

End run.
Arguments request : clear implicits.

(** ** The Consul storage *)

Section consul.
Context {W V : Type} {K : ConsulKV W} {PV : PyValues V} `{!EqDecision V} {NL : NativeLaws (V:=V)} {KL : ConsulLaws K}.
Context (c : Consul.db V).
Notation m := (db_model c).
Notation pk := (md_primary_key m).
Context (loads_dumps : ∀ o o', md_validate m o = Some o' → md_loads m (md_dumps m o') = Ok o').

Definition native (id : V) : Prop := to_native m pk id = Ok id.
Definition storable (o : obj V) (id : V) : Prop := md_validate m o = Some o ∧ o !! pk = Some id.

(** The object at a path of the service *)
Definition at_path (w : W) (k : string) : option (obj V) :=
  v ← kv_contents w !! k; match md_loads m v with Ok o => Some o | Err _ => None end.

Definition R (w : W) (st : gmap string (obj V)) : Prop := inv c w ∧ ∀ id, at_path w (object_path c id) = st !! object_path c id.

Lemma held_find w st id : R w st → held pk (object_path c) st id = find c id w.
Proof.
  intros [_ Hst]. unfold held, find. rewrite <- Hst. unfold at_path.
  destruct (kv_contents w !! object_path c id) as [v|]; [|done]. cbn. by destruct (md_loads m v).
Qed.

Lemma store_cases o w r w' :
  store c o w = (r, w') → r = Ok tt ∨ (is_ok r = false ∧ kv_contents w' = kv_contents w).
Proof.
  unfold store, st_bind, st_lift. destruct (generic_store _ _ o) as [o1|e]; [|intros [= <- <-]; by right].
  destruct (getattr o1 pk) as [id|e]; [|intros [= <- <-]; by right]. unfold st_put.
  destruct (kv_put (object_path c id) (md_dumps m o1) w) as [b w1] eqn:Hput. destruct b; intros [= <- <-]; [by left|right].
  split; [done|]. pose proof (law_put_fail (K:=K) (object_path c id) (md_dumps m o1) w) as Hl. rewrite Hput in Hl. by apply Hl.
Qed.

Lemma inv_contents w w' : kv_contents w' = kv_contents w → inv c w → inv c w'.
Proof. unfold inv. by intros ->. Qed.

(** *** Deletion of one object *)

Section delete_one.
Context (w : W) (left : operand) (id : V) (Hinv : inv c w) (Hn : native id) (Hl : field_to_str left = Ok pk).
Notation f := (by_id left id).

Lemma entry_sat k v o :
  kv_contents w !! k = Some v → startswith k (obj_prefix c) = true → md_loads m v = Ok o →
  ∃ id', o !! pk = Some id' ∧ k = object_path c id' ∧ sat m o f = Ok (bool_decide (id = id')).
Proof.
  intros Hk Hp Ho. destruct (Hinv k v Hk Hp) as (o2 & id' & Ho2 & Hid' & ->).
  rewrite Ho in Ho2. injection Ho2 as <-. exists id'. split_and!; [done..|]. by apply (sat_id c left o id id').
Qed.

(** The only entry selected is the one of the object. *)
Lemma entry_selected k v :
  kv_contents w !! k = Some v → startswith k (obj_prefix c) = true →
  satb m f (k, v) = true ↔ k = object_path c id ∧ find c id w ≠ None.
Proof.
  intros Hk Hp. destruct (Hinv k v Hk Hp) as (o & _ & Ho & _ & _).
  destruct (entry_sat k v o Hk Hp Ho) as (id' & Hpk & -> & Hs). unfold satb. cbn [snd]. rewrite Ho, Hs. unfold find.
  split.
  - case_bool_decide; [subst id'|done]. intros _. rewrite Hk. cbn. rewrite Ho, decide_True; done.
  - intros [Hpath Hf]. rewrite <- Hpath, Hk in Hf. cbn in Hf. rewrite Ho in Hf. case_decide; [|done].
    by apply bool_decide_true; congruence.
Qed.

Definition selected : list (string * string) :=
  filter (λ kv, satb m f kv = true) (kv_get_all (obj_prefix c) w).

Lemma selected_elem k v : (k, v) ∈ selected → k = object_path c id ∧ find c id w ≠ None.
Proof.
  intros [Hs [Hk Hp]%law_all]%list_elem_of_filter. by apply (entry_selected k v).
Qed.

Lemma selected_length : Z.of_nat (length selected) = if find c id w then 1%Z else 0%Z.
Proof.
  destruct (find c id w) as [o|] eqn:Hf.
  - pose proof Hf as Hf'. unfold find in Hf'. destruct (kv_contents w !! object_path c id) as [v|] eqn:Hk; [|done].
    destruct (same_key_single selected (object_path c id)) as [HL|[v' HL]].
    + eapply sublist_NoDup; [apply law_all_nodup|]. apply (fmap_sublist fst), sublist_filter.
    + intros [k v'] Hin. by destruct (selected_elem k v' Hin).
    + exfalso. apply (not_elem_of_nil (object_path c id, v)). rewrite <- HL. apply list_elem_of_filter.
      split; [|apply law_all; split; [done|apply path_prefix]].
      apply (entry_selected _ v Hk (path_prefix c id)). split; [done|congruence].
    + by rewrite HL.
  - replace selected with (@nil (string * string)); [done|]. symmetry. apply elem_of_nil_inv.
    intros [k v] [_ ?]%selected_elem. congruence.
Qed.

Context (n : Z) (w' : W) (Hd : delete c f w = (Ok n, w')).

Lemma deleted_state :
  n = Z.of_nat (length selected) ∧
  ∀ k, kv_contents w' !! k = match kv_contents w !! k with
                             | Some v => if startswith k (obj_prefix c) && satb m f (k, v) then None else Some v
                             | None => None
                             end.
Proof.
  apply (delete_exact c f w n w' Hinv); [|exact Hd].
  intros k v o Hk Hp Ho. destruct (entry_sat k v o Hk Hp Ho) as (? & _ & _ & ->). by eexists.
Qed.

Lemma deleted_inv : inv c w'.
Proof.
  intros k v Hk Hp. rewrite (proj2 deleted_state) in Hk. destruct (kv_contents w !! k) as [v0|] eqn:Hk0; [|done].
  destruct (_ && _); [done|]. injection Hk as ->. by apply (Hinv k v).
Qed.

Lemma deleted_at_path id2 :
  at_path w' (object_path c id2) =
    if decide (object_path c id2 = object_path c id ∧ find c id w ≠ None) then None else at_path w (object_path c id2).
Proof.
  unfold at_path. rewrite (proj2 deleted_state). destruct (kv_contents w !! object_path c id2) as [v|] eqn:Hk; [|by case_decide].
  rewrite path_prefix. cbn [andb]. pose proof (entry_selected _ v Hk (path_prefix c id2)) as Hsel.
  case_decide as Hd2; [by rewrite (proj2 Hsel Hd2)|].
  destruct (satb m f (object_path c id2, v)); [|done]. by destruct Hd2; apply Hsel.
Qed.

End delete_one.

(** *** The laws *)

Lemma law_store w st o id r w' :
  R w st → storable o id → store c o w = (r, w') →
  (r = Ok tt ∧ R w' (<[object_path c id := o]> st)) ∨ (is_ok r = false ∧ R w' st).
Proof.
  intros [Hinv Hst] [Hv Hid] Hs. destruct (store_cases o w r w' Hs) as [->|[Hr Hc]].
  - left. split; [done|]. split; [by eapply (inv_store c loads_dumps)|]. intros id2. unfold at_path.
    rewrite (store_put c o o id w w' Hv Hid Hs). destruct (decide (object_path c id2 = object_path c id)) as [Hp|Hp].
    + rewrite Hp, !lookup_insert_eq. cbn. by rewrite (loads_dumps o o Hv).
    + rewrite !lookup_insert_ne by done. apply Hst.
  - right. split; [done|]. split; [by eapply inv_contents|]. intros id2. unfold at_path. rewrite Hc. apply Hst.
Qed.

Lemma law_get w st left id :
  R w st → native id → field_to_str left = Ok pk →
  get c (filter_by (by_id left id) query_init) w = (Ok (option_list (held pk (object_path c) st id)), w).
Proof.
  intros HR Hn Hl. rewrite (held_find w st id HR). destruct HR as [Hinv _].
  unfold by_id. rewrite (get_id_exact c left w id Hl Hinv Hn). by destruct (find c id w).
Qed.

Lemma law_delete w st left id n w' :
  R w st → native id → field_to_str left = Ok pk → delete c (by_id left id) w = (Ok n, w') →
  match held pk (object_path c) st id with
  | Some _ => n = 1%Z ∧ R w' (base.delete (object_path c id) st)
  | None => n = 0%Z ∧ R w' st
  end.
Proof.
  intros HR Hn Hl Hd. rewrite (held_find w st id HR). destruct HR as [Hinv Hst].
  destruct (deleted_state w left id Hinv Hn Hl n w' Hd) as [Hnum _]. rewrite (selected_length w left id Hinv Hn Hl) in Hnum.
  pose proof (deleted_inv w left id Hinv Hn Hl n w' Hd) as Hinv'.
  pose proof (deleted_at_path w left id Hinv Hn Hl n w' Hd) as Hat.
  destruct (find c id w) as [o|] eqn:Hf; (split; [done|]); (split; [done|]); intros id2; rewrite Hat.
  - case_decide as Hp; [destruct Hp as [-> _]; by rewrite lookup_delete_eq|].
    rewrite lookup_delete_ne by (intros Hpe; apply Hp; by rewrite Hpe). apply Hst.
  - rewrite decide_False by (by intros [_ ?]). apply Hst.
Qed.

#[export] Instance consul_laws : Laws (consul_ops c) pk (object_path c) native storable R.
Proof. constructor; [apply law_store|apply law_get|apply law_delete]. Qed.

(** C12.  The Consul storage refines a map from paths to objects: a sequence of
    stores, reads and deletions by the primary key that the service carries out
    answers what the same sequence answers on the map. *)
Theorem consul_refines_map qs w st l w' :
  R w st → Forall (request_ok pk native storable) qs →
  ask_all (consul_ops c) pk qs w = (Ok l, w') →
  l = (spec_all pk (object_path c) qs st).1 ∧ R w' (spec_all pk (object_path c) qs st).2.
Proof. apply (ask_all_spec (consul_ops c) pk (object_path c) native storable R). Qed.

End consul.
End Coll.
