(* ===== verification/SecureStorage.v ===== *)
(** [security/secure_storage.py]: a storage of encrypted items over a
    collection, and [product_features/]: the features a product does not
    support, kept in a collection.

    The cipher is [Fernet], a library: [encrypt] and [decrypt] are parameters,
    the first with the random bytes and the time it reads.  Bytes are strings;
    the fields of both models are [StringType]. *)
From Stdlib Require Import Ascii.
From S2P Require Import Prelude PyStr DataAccess Collection.
Import PyStr Data Coll.

Module Secure.

(** ** [NamedEncryptedBytes] *)

Definition instantiate (name data : string) : obj string := <["name" := name]> {["data" := data]}.

Definition is_ascii (s : string) : bool := sforall (λ c, (code c <? 128)%N) s.
(** [b.decode('ascii')], [s.encode('ascii')] *)
Definition ascii_codec (s : string) : res string := if is_ascii s then Ok s else Err ValueError.

Section secure.
Context {W : Type} (db : ops W string).
Context (encrypt : string → string → string → string) (decrypt : string → string → res string).
(** [self._key] *)
Context (_key : string).

Definition item_filter (name : string) : res (filter_tree string) := Compare (FieldType "name") "=" name.

(** [next(iter(await self._storage(NamedEncryptedBytes).get(query)), None)] *)
Definition _get_item (name : string) : ST W (option (obj string)) :=
  let! f := st_lift (item_filter name) in
  let! l := c_get db (filter_by f query_init) in
  st_ret (head l).

Definition store (nonce name data : string) (force : bool) : ST W unit :=
  (if force then st_ret tt else
     let! neb := _get_item name in
     match neb with Some _ => st_raise KeyError | None => st_ret tt end) ;;;
  let! encrypted := st_lift (ascii_codec (encrypt nonce _key data)) in
  c_store db (instantiate name encrypted).

Definition get (name : string) : ST W (option string) :=
  let! neb := _get_item name in
  match neb with
  | None => st_ret None
  | Some neb =>
      let! data := st_lift (getattr neb "data") in
      let! token := st_lift (ascii_codec data) in
      let! decrypted := st_lift (decrypt _key token) in
      st_ret (Some decrypted)
  end.

Definition delete (name : string) : ST W unit :=
  let! neb := _get_item name in
  match neb with
  | None => st_raise KeyError
  | Some _ => let! f := st_lift (item_filter name) in c_delete db f ;;; st_ret tt
  end.

End secure.
End Secure.

Module Features.

(** [str.upper] on code points below 256; the capitals of the micro sign and
    of y with diaeresis are above, and they are left as they are. *)
Definition is_lower (c : ascii) : bool :=
  let n := code c in
  ((97 <=? n) && (n <=? 122) || (224 <=? n) && (n <=? 254) && negb (n =? 247))%N.
Definition upper_char (c : ascii) : string :=
  if (code c =? 223)%N then "SS" else sep (if is_lower c then ascii_of_N (code c - 32) else c).
Fixpoint upper (s : string) : string :=
  match s with EmptyString => EmptyString | String c s' => upper_char c +:+ upper s' end.

Definition UNSUPPORTED_FEATURE : string := "UNSUPPORTED_FEATURE".

Definition create_feature_id (key_data : list string) : string := join "/" (upper <$> key_data).
Definition instantiate_decision (feature_id feature_name component_name : string) : obj string :=
  <["feature_id" := feature_id]> (<["feature_name" := feature_name]> {["component_name" := component_name]}).

Definition feature_id (component_name feature_name : string) : string :=
  create_feature_id [component_name; UNSUPPORTED_FEATURE; feature_name].

Section features.
Context {W : Type} (db : ops W string).

Definition store_unsupported_feature (component_name feature_name : string) : ST W unit :=
  c_store db (instantiate_decision (feature_id component_name feature_name) feature_name component_name).

(** The query: [filter_by] replaces the filter it is given before. *)
Definition features_query (component_name feature_name : string) : res (Query string) :=
  if decide (component_name = "") then Ok query_init else
  f ← Compare (FieldType "component_name") "=" component_name;
  let query := filter_by f query_init in
  if decide (feature_name = "") then Ok query else
  g ← Compare (FieldType "feature_name") "=" feature_name;
  g ← And [g];
  Ok (filter_by g query).

(** Of each object its fields: [to_primitive] of string fields *)
Definition get_unsupported_features (component_name feature_name : string) : ST W (list (obj string)) :=
  let! query := st_lift (features_query component_name feature_name) in
  c_get db query.

Definition is_feature_supported (component_name feature_name : string) : ST W bool :=
  let! f := st_lift (Compare (FieldType "feature_id") "=" (feature_id component_name feature_name)) in
  let! feature := c_get db (filter_by f query_init) in
  st_ret (bool_decide (feature = [])).

(** [None] is anything but a list. *)
Definition store_unsupported_features (component_name : string) (features : option (list string)) : ST W unit :=
  match features with
  | None => st_raise TypeError
  | Some l => st_iter (store_unsupported_feature component_name) l
  end.

End features.
End Features.
