(* ===== verification/SecureStorageSpec.v ===== *)
(** What the clients of a collection promise: a secret stored is the secret
    got, and a feature is supported until it is stored as unsupported.  They are
    proved against the interface of [Collection]. *)
From Stdlib Require Import Ascii.
From S2P Require Import Prelude PyStr DataAccess ConsulDb ConsulDbSpec Collection SecureStorage.
Import PyStr Data Coll.

Module SecureSpec.
Import Secure.

Section theory.
Context {W : Type} (db : ops W string) (path : string → string) (native : string → Prop)
  (storable : obj string → string → Prop) (R : W → gmap string (obj string) → Prop).
Context {L : Laws db "name" path native storable R}.
Context (encrypt : string → string → string → string) (decrypt : string → string → res string) (key : string).
(** [Fernet]: a token decrypts to what it was made from; it is base64. *)
Context (decrypt_encrypt : ∀ nonce k data, decrypt k (encrypt nonce k data) = Ok data).
Context (token_ascii : ∀ nonce k data, is_ascii (encrypt nonce k data) = true).
(** Every name is a native value of its field, and every item can be stored. *)
Context (native_name : ∀ name, native name) (storable_item : ∀ name data, storable (instantiate name data) name).

Notation store := (store db encrypt key).
Notation get := (get db decrypt key).
Notation delete := (delete db).
Notation item st name := (held "name" path st name).

Lemma get_item w st name : R w st → _get_item db name w = (Ok (item st name), w).
Proof.
  intros HR. unfold _get_item. erewrite st_bind_run; [|reflexivity].
  erewrite st_bind_run; [|by apply (coll_get (db:=db) w st (FieldType "name") name)].
  by destruct (held "name" path st name).
Qed.

(** What [get] answers in terms of the items held *)
Definition answer (o : option (obj string)) : res (option string) :=
  match o with
  | None => Ok None
  | Some neb => data ← getattr neb "data"; token ← ascii_codec data; d ← decrypt key token; Ok (Some d)
  end.

Lemma get_secret_answer w st name : R w st → get name w = (answer (item st name), w).
Proof.
  intros HR. unfold Secure.get. erewrite st_bind_run; [|by apply get_item].
  destruct (held "name" path st name) as [neb|]; [|done]. unfold answer, st_bind, st_lift.
  destruct (getattr neb "data") as [data|]; [|done]. cbn. destruct (ascii_codec data) as [token|]; [|done]. cbn.
  by destruct (decrypt key token).
Qed.

Lemma store_held w st nonce name data force w' :
  R w st → store nonce name data force w = (Ok tt, w') →
  R w' (<[path name := instantiate name (encrypt nonce key data)]> st) ∧ (force = false → item st name = None).
Proof.
  intros HR. unfold Secure.store. unfold st_bind at 1.
  assert (Hg : ∃ r, (if force then st_ret tt else let! neb := _get_item db name in
      match neb with Some _ => st_raise KeyError | None => st_ret tt end) w = (r, w) ∧
      (r = Ok tt → force = false → item st name = None)).
  { destruct force; [by exists (Ok tt)|]. erewrite st_bind_run; [|by apply get_item].
    destruct (item st name); [by exists (Err KeyError)|by exists (Ok tt)]. }
  destruct Hg as (r & -> & Hr). destruct r as [[]|e]; [|done]. specialize (Hr eq_refl).
  unfold ascii_codec. rewrite token_ascii. erewrite st_bind_run; [|reflexivity]. intros Hs. split; [|done].
  destruct (coll_store (db:=db) w st (instantiate name (encrypt nonce key data)) name (Ok tt) w' HR) as [[_ ?]|[? _]]; [|done..].
  apply storable_item.
Qed.

Lemma answer_item nonce name data : answer (Some (instantiate name (encrypt nonce key data))) = Ok (Some data).
Proof.
  change (answer (Some (instantiate name (encrypt nonce key data)))) with
    (token ← ascii_codec (encrypt nonce key data); d ← decrypt key token; Ok (Some d)).
  unfold ascii_codec. rewrite token_ascii. cbn. by rewrite decrypt_encrypt.
Qed.

(** A secret that was stored is what [get] answers for its name, and
    every name with another path answers what it answered before. *)
Theorem secure_store_get w st nonce name data force w' :
  R w st → store nonce name data force w = (Ok tt, w') →
  get name w' = (Ok (Some data), w') ∧
  ∀ name2, path name2 ≠ path name → (get name2 w').1 = (get name2 w).1.
Proof.
  intros HR Hs. destruct (store_held w st nonce name data force w' HR Hs) as [HR' _].
  assert (Hpk : instantiate name (encrypt nonce key data) !! "name" = Some name) by apply (lookup_insert_eq (M:=gmap string)).
  split.
  - rewrite (get_secret_answer w' _ name HR'), (held_insert "name" path st _ name name Hpk), !decide_True by done.
    by rewrite answer_item.
  - intros name2 Hne. rewrite (get_secret_answer w' _ name2 HR'), (get_secret_answer w st name2 HR).
    by rewrite (held_insert "name" path st _ name name2 Hpk), decide_False.
Qed.

(** C33. Without [force] a name that holds a secret is refused, with nothing
    changed; [delete] of it takes the secret away, and of a name that holds
    none it is refused. *)
Theorem secure_guarded w st nonce name data :
  R w st →
  if decide (item st name = None) then delete name w = (Err KeyError, w)
  else store nonce name data false w = (Err KeyError, w) ∧
       ∀ w', delete name w = (Ok tt, w') → get name w' = (Ok None, w').
Proof.
  intros HR. case_decide as Hi.
  - unfold Secure.delete. erewrite st_bind_run; [|by apply get_item]. by rewrite Hi.
  - destruct (item st name) as [o|] eqn:Ho; [|done]. split.
    + unfold Secure.store. unfold st_bind at 1. erewrite st_bind_run; [|by apply get_item]. by rewrite Ho.
    + intros w'. unfold Secure.delete. erewrite st_bind_run; [|by apply get_item]. rewrite Ho.
      erewrite st_bind_run; [|reflexivity]. unfold st_bind.
      destruct (c_delete db _ w) as [[n|e] w1] eqn:Hd; [|done]. intros [= <-].
      pose proof (coll_delete (db:=db) w st (FieldType "name") name n w1 HR (native_name name) eq_refl Hd) as Hl.
      rewrite Ho in Hl. destruct Hl as [_ HR']. rewrite (get_secret_answer w1 _ name HR').
      by rewrite coll_held_delete, decide_True.
Qed.

(** The guard looks the name up, the store writes to its path: a name that
    shares the path of another passes the guard, and the other's secret is
    lost. *)
Theorem secure_name_collision w st nonce name1 name2 data w' :
  R w st → item st name1 ≠ None → name2 ≠ name1 → path name2 = path name1 →
  store nonce name2 data false w = (Ok tt, w') → get name1 w' = (Ok None, w').
Proof.
  intros HR H1 Hne Hp Hs. destruct (store_held w st nonce name2 data false w' HR Hs) as [HR' _].
  assert (Hpk : instantiate name2 (encrypt nonce key data) !! "name" = Some name2) by apply (lookup_insert_eq (M:=gmap string)).
  rewrite (get_secret_answer w' _ name1 HR'), (held_insert "name" path st _ name2 name1 Hpk).
  by rewrite decide_True, decide_False by congruence.
Qed.

End theory.
End SecureSpec.

Module FeaturesSpec.
Import Features.

Section theory.
Context {W : Type} (db : ops W string) (path : string → string) (native : string → Prop)
  (storable : obj string → string → Prop) (R : W → gmap string (obj string) → Prop).
Context {L : Laws db "feature_id" path native storable R}.
Context (native_id : ∀ id, native id).
Context (storable_feature : ∀ id f c, storable (instantiate_decision id f c) id).
(** Different ids of features have different paths. *)
Context (path_inj : ∀ c f c' f', path (feature_id c f) = path (feature_id c' f') → feature_id c f = feature_id c' f').

Notation feature st id := (held "feature_id" path st id).

Lemma supported_run w st c f :
  R w st → is_feature_supported db c f w = (Ok (bool_decide (feature st (feature_id c f) = None)), w).
Proof.
  intros HR. unfold is_feature_supported. erewrite st_bind_run; [|reflexivity].
  erewrite st_bind_run; [|by apply (coll_get (db:=db) w st (FieldType "feature_id") (feature_id c f))].
  by destruct (held "feature_id" path st (feature_id c f)).
Qed.

Lemma feature_pk id f c : instantiate_decision id f c !! "feature_id" = Some id.
Proof. apply (lookup_insert_eq (M:=gmap string)). Qed.

Lemma store_features_run c fs w st w' :
  R w st → st_iter (store_unsupported_feature db c) fs w = (Ok tt, w') →
  ∃ st', R w' st' ∧ ∀ c' f', feature st' (feature_id c' f') = None ↔
    feature_id c' f' ∉ (feature_id c <$> fs) ∧ feature st (feature_id c' f') = None.
Proof.
  revert w st. induction fs as [|f fs IH]; intros w st HR; cbn [st_iter].
  - intros [= <-]. exists st. split; [done|]. intros c' f'. split; [|by intros [_ ?]].
    intros H. split; [apply not_elem_of_nil|done].
  - unfold st_bind. destruct (store_unsupported_feature db c f w) as [[[]|e] w1] eqn:Hs; [|done].
    intros Hit. unfold store_unsupported_feature in Hs.
    destruct (coll_store (db:=db) w st (instantiate_decision (feature_id c f) f c) (feature_id c f) (Ok tt) w1 HR
      (storable_feature _ _ _) Hs) as [[_ HR1]|[? _]]; [|done].
    destruct (IH w1 _ HR1 Hit) as (st' & HR' & Hst'). exists st'. split; [done|]. intros c' f'.
    rewrite Hst', (held_insert "feature_id" path st _ (feature_id c f) (feature_id c' f') (feature_pk _ _ _)), fmap_cons, not_elem_of_cons.
    destruct (decide (path (feature_id c' f') = path (feature_id c f))) as [Hp|Hp].
    + apply path_inj in Hp as Hid. rewrite decide_True by done. split; [by intros [_ ?]|by intros [[? _] _]].
    + assert (feature_id c' f' ≠ feature_id c f) by (intros He; apply Hp; by rewrite He). tauto.
Qed.

(** After a list of features of a component was stored as unsupported,
    those and only those are not supported, of this component or another, that
    were stored now or before. *)
Theorem unsupported_exact w st c fs w' c' f' :
  R w st → store_unsupported_features db c (Some fs) w = (Ok tt, w') →
  ∃ before, is_feature_supported db c' f' w = (Ok before, w) ∧
    is_feature_supported db c' f' w' =
      (Ok (before && negb (bool_decide (feature_id c' f' ∈ (feature_id c <$> fs)))), w').
Proof.
  intros HR Hs. destruct (store_features_run c fs w st w' HR Hs) as (st' & HR' & Hst').
  rewrite (supported_run w st c' f' HR), (supported_run w' st' c' f' HR'). eexists. split; [done|].
  do 2 f_equal. specialize (Hst' c' f'). repeat case_bool_decide; cbn; tauto.
Qed.

End theory.

(** A feature asked for with its component is looked for in every component:
    the second filter of the query takes the place of the first. *)
Theorem features_query_drops_component c f q :
  c ≠ "" → f ≠ "" → features_query c f = Ok q →
  q_filter_by q = Some (FilterOperationCompare (FieldType "feature_name") OPERATION_EQ f).
Proof. intros Hc Hf. unfold features_query.
  destruct (decide (c = "")), (decide (f = "")); try done. intros H. vm_compute in H. by injection H as <-.
Qed.

End FeaturesSpec.
