(* ===== verification/ConsulWitness.v ===== *)
(** A key-value service held in memory, a model of string fields, and
    executions of the Consul storage over them. *)
From Stdlib Require Import Ascii OrdersEx Sorting.
From stdpp Require Import countable.
From S2P Require Import Prelude PyStr KvCodec DataAccess ConsulDb ConsulDbSpec.
Import PyStr Data Consul ConsulSpec.

Module ConsulWitness.

(** ** The service *)

#[global] Instance mem : ConsulKV (gmap string string) := {
  kv_get k w := w !! k;
  kv_get_all p w := filter (λ kv, startswith kv.1 p = true) (map_to_list w);
  kv_put k v w := (true, <[k := v]> w);
  kv_delete k w := (true, base.delete k w);
  kv_contents w := w
}.

#[global] Instance mem_laws : ConsulLaws mem.
Proof.
  constructor; try done.
  - intros p w k v. cbn. rewrite list_elem_of_filter, elem_of_map_to_list. cbn. tauto.
  - intros p w. cbn. eapply sublist_NoDup; [apply (NoDup_fst_map_to_list w)|].
    apply (fmap_sublist fst), sublist_filter.
Qed.

(** ** Native values: strings in the order of their characters *)

Definition sltb (a b : string) : bool := match String.compare a b with Lt => true | _ => false end.

Lemma sltb_lt a b : sltb a b = true ↔ String_as_OT.lt a b.
Proof.
  unfold sltb, String_as_OT.lt. change String_as_OT.compare with String.compare.
  by destruct (String.compare a b).
Qed.

Lemma sltb_asym a b : sltb a b = true → sltb b a = false.
Proof.
  intros Hab%sltb_lt. destruct (sltb b a) eqn:Hba; [|done]. apply sltb_lt in Hba.
  destruct String_as_OT.lt_strorder as [Hirr Htr]. destruct (Hirr a). by eapply Htr.
Qed.

Lemma sltb_false a b : sltb b a = false → a = b ∨ String_as_OT.lt a b.
Proof.
  intros H. destruct (String_as_OT.compare_spec a b) as [He|Hl|Hl]; [by left|by right|].
  apply sltb_lt in Hl. congruence.
Qed.

Lemma sltb_neg_trans a b c : sltb b a = false → sltb c b = false → sltb c a = false.
Proof.
  intros [->|Hab]%sltb_false; [done|]. intros [->|Hbc]%sltb_false; [by apply sltb_asym, sltb_lt|].
  apply sltb_asym, sltb_lt. destruct String_as_OT.lt_strorder as [_ Htr]. by eapply Htr.
Qed.

#[global] Instance strings : PyValues string := {
  py_op op a b := Ok (match op with
    | OPERATION_EQ => bool_decide (a = b)
    | OPERATION_NE => negb (bool_decide (a = b))
    | OPERATION_LT => sltb a b
    | OPERATION_GT => sltb b a
    | OPERATION_LEQ => negb (sltb b a)
    | OPERATION_GEQ => negb (sltb a b)
    | OPERATION_LIKE => contains a b
    end);
  py_lower s := Ok (lower s)
}.

#[global] Instance strings_ordering : Ordering string := {
  v_eqb a b := bool_decide (a = b); v_ltb := sltb; v_contains := contains }.
#[global] Instance strings_means : PyOrdering (V:=string).
Proof. constructor; [by intros [] a b|]. intros a b. apply bool_decide_ext. split; congruence. Qed.

#[global] Instance strings_laws : NativeLaws (V:=string).
Proof. by constructor. Qed.

(** ** A model *)

Definition alert : Model string := {|
  md_fields := ["id"; "sev"];
  md_primary_key := "id";
  md_is_string _ := false;
  md_to_native _ v := Some v;
  md_validate o := Some o;
  md_dumps o := Codec.bits (encode (map_to_list o));
  md_loads s := match Codec.of_bits s ≫= decode with
                | Some l => Ok (list_to_map (l : list (string * string)))
                | None => Err ValueError
                end;
  md_key v := v
|}.

Lemma alert_loads_dumps o o' : md_validate alert o = Some o' → md_loads alert (md_dumps alert o') = Ok o'.
Proof.
  intros _. cbn. rewrite Codec.of_bits_bits. cbn [mbind option_bind]. rewrite decode_encode.
  f_equal. apply (list_to_map_to_list (M:=gmap string)). Qed.

Definition alerts : db string := MkDb alert "alerts" ["id"; "sev"].
Definition mk (id sev : string) : obj string := <["id" := id]> {["sev" := sev]}.
Definition w0 : gmap string string := ∅.
Definition w1 := (store alerts (mk "n1" "5") w0).2.
Definition w2 := (store alerts (mk "n2" "1") w1).2.

Lemma w0_inv : inv alerts w0.
Proof. intros k v Hk. cbn in Hk; unfold w0 in Hk; by rewrite (lookup_empty (M:=gmap string)) in Hk. Qed.
Lemma w1_inv : inv alerts w1.
Proof.
  apply (inv_store alerts alert_loads_dumps (mk "n1" "5") (mk "n1" "5") "n1" w0); [apply w0_inv|done|done|].
  vm_compute. reflexivity.
Qed.
Lemma w2_inv : inv alerts w2.
Proof.
  apply (inv_store alerts alert_loads_dumps (mk "n2" "1") (mk "n2" "1") "n2" w1); [apply w1_inv|done|done|].
  vm_compute. reflexivity.
Qed.

Definition raw2 : list (string * string) := kv_get_all (obj_prefix alerts) w2.
Definition data2 : list (string * obj string) :=
  match object_data alert raw2 with Ok d => d | Err _ => [] end.

Definition high : filter_tree string :=
  FilterOperationAnd [FilterOperationCompare (FieldName "sev") OPERATION_GT "3";
                      FilterOperationOr [FilterOperationCompare (FieldName "id") OPERATION_EQ "n2";
                                         FilterOperationCompare (FieldName "id") OPERATION_LIKE "1"]].

Lemma data2_answerable k o : (k, o) ∈ data2 → answerable alert o high = true.
Proof.
  intros Hin. assert (Hall : forallb (λ ko, answerable alert ko.2 high) data2 = true) by (vm_compute; reflexivity).
  rewrite forallb_forall in Hall. by specialize (Hall (k, o) (proj1 (list_elem_of_In _ _) Hin)).
Qed.
Lemma data2_sat k o : (k, o) ∈ data2 → ∃ b, sat alert o high = Ok b.
Proof. intros Hin%data2_answerable. eexists. by apply sat_satisfied. Qed.

Lemma raw2_nodup : NoDup raw2.*1.
Proof. apply law_all_nodup. Qed.

(** The filter asks for the alerts above 3, and gets the one below. *)
Lemma consul_filter_exact_witness :
  build alert high raw2 = Ok (filter (λ kv, chosen alert high kv = true) raw2) ∧
  (filter (λ kv, chosen alert high kv = true) raw2).*1 = ["cortx/base/alerts/obj/n2"].
Proof.
  split; [|vm_compute; reflexivity].
  apply (consul_filter_exact alert high raw2 data2);
    [apply raw2_nodup|vm_compute; reflexivity|vm_compute; discriminate|apply data2_answerable].
Defined.

Lemma consul_comparison_reversed_witness :
  sat alert (mk "n1" "5") (FilterOperationCompare (FieldName "sev") OPERATION_GT "3") = Ok false.
Proof.
  refine (eq_trans (consul_comparison_reversed alert (mk "n1" "5") "sev" "3" "3" "5" _ _) _); vm_compute; reflexivity.
Defined.

Lemma consul_store_get_witness :
  inv alerts w2 ∧ get_by_id alerts "n2" w2 = (Ok (Some (mk "n2" "1")), w2) ∧
  ∀ id2, to_native alert "id" id2 = Ok id2 → object_path alerts id2 ≠ object_path alerts "n2" →
    (get_by_id alerts id2 w2).1 = (get_by_id alerts id2 w1).1.
Proof.
  apply (consul_store_get alerts alert_loads_dumps (mk "n2" "1") (mk "n2" "1") "n2" w1 w2);
    [apply w1_inv|reflexivity|reflexivity|reflexivity|vm_compute; reflexivity].
Defined.

Definition w3 := (store alerts (mk "N1" "9") w1).2.

Lemma consul_ids_case_collide_witness :
  get_by_id alerts "n1" w1 = (Ok (Some (mk "n1" "5")), w1) ∧ get_by_id alerts "n1" w3 = (Ok None, w3).
Proof.
  split; [vm_compute; reflexivity|].
  apply (consul_ids_case_collide alerts alert_loads_dumps (mk "n1" "5") (mk "n1" "5") "n1"
           (mk "N1" "9") (mk "N1" "9") "N1" w0 w1 w3);
    [apply w0_inv|reflexivity|reflexivity|reflexivity|reflexivity|reflexivity|discriminate|reflexivity
    |vm_compute; reflexivity|vm_compute; reflexivity].
Defined.

Definition w4 := (Consul.delete alerts high w2).2.

Lemma alerts_sat k v o :
  kv_contents w2 !! k = Some v → startswith k (obj_prefix alerts) = true → md_loads alert v = Ok o →
  ∃ b, sat alert o high = Ok b.
Proof.
  intros Hk Hp Ho.   pose proof (proj2 (law_all (K:=mem) (obj_prefix alerts) w2 k v) (conj Hk Hp)) as Hin. fold raw2 in Hin.
  assert (Hd : object_data alert raw2 = Ok data2) by (vm_compute; reflexivity).
  destruct (object_data_elem alert raw2 data2 k v Hd Hin) as (o' & Ho' & Hko).
  rewrite Ho in Ho'. injection Ho' as <-. by eapply data2_sat.
Qed.

Lemma consul_delete_exact_witness :
  1%Z = Z.of_nat (length (filter (λ kv, satb alert high kv = true) raw2)) ∧
  (∀ k, kv_contents w4 !! k =
     match kv_contents w2 !! k with
     | Some v => if startswith k (obj_prefix alerts) && satb alert high (k, v) then None else Some v
     | None => None
     end).
Proof.
  apply (consul_delete_exact alerts high w2 1 w4); [apply w2_inv|exact alerts_sat|vm_compute; reflexivity].
Defined.

Definition sev_key (o : obj string) : string := default "" (o !! "sev").
Definition by_sev : Query string := limit 1 (order_by (FieldName "sev") ASC query_init).
Definition matches2 : list (obj string) :=
  match load_models alerts raw2 with Ok l => l | Err _ => [] end.

Lemma matches2_keys o : o ∈ matches2 → sort_key alert "sev" o = Ok (sev_key o).
Proof.
  intros Hin.
  assert (Hall : forallb (λ o, bool_decide (sort_key alert "sev" o = Ok (sev_key o))) matches2 = true)
    by (vm_compute; reflexivity).
  rewrite forallb_forall in Hall. by eapply bool_decide_eq_true, Hall, list_elem_of_In.
Qed.

Lemma consul_get_page_witness :
  ∃ all, all ≡ₚ matches2 ∧
    StronglySorted (λ a b, sltb (sev_key b) (sev_key a) = false) all ∧
    Consul.get alerts by_sev w2 = (Ok (take 1 (drop 0 all)), w2).
Proof.
  apply (consul_get_page alerts sltb ltac:(done) sltb_asym sltb_neg_trans "sev" sev_key by_sev w2
           (MkOrderBy (FieldName "sev") ASC) matches2 data2 0);
    [apply w2_inv|reflexivity|reflexivity|right; left|vm_compute; reflexivity|discriminate
    |vm_compute; reflexivity|exact matches2_keys|reflexivity|vm_compute; discriminate].
Defined.

End ConsulWitness.
