(* ===== verification/CollectionWitness.v ===== *)
(** Collections over a Consul service held in memory: the hypotheses of their
    clients' theorems hold for the models of the program. *)
From Stdlib Require Import Ascii.
From stdpp Require Import countable.
From S2P Require Import Prelude PyStr KvCodec DataAccess ConsulDb ConsulDbSpec ConsulWitness Collection SecureStorage SecureStorageSpec.
Import PyStr Data Consul ConsulSpec ConsulWitness Coll.

Module CollWitness.

(** A model of string fields *)
Definition string_model (fields : list string) (pk : string) : Model string := {|
  md_fields := fields;
  md_primary_key := pk;
  md_is_string _ := true;
  md_to_native _ v := Some v;
  md_validate o := Some o;
  md_dumps := md_dumps alert;
  md_loads := md_loads alert;
  md_key v := v
|}.
Definition collection (name : string) (fields : list string) (pk : string) : Consul.db string :=
  MkDb (string_model fields pk) name fields.

Lemma model_loads_dumps fields pk o o' :
  md_validate (string_model fields pk) o = Some o' →
  md_loads (string_model fields pk) (md_dumps (string_model fields pk) o') = Ok o'.
Proof. apply (alert_loads_dumps o o'). Qed.

Definition empty : gmap string string := ∅.
Lemma empty_R name fields pk : R (collection name fields pk) empty ∅.
Proof.
  split.
  - intros k v Hk. cbn in Hk. unfold empty in Hk. by rewrite (lookup_empty (M:=gmap string)) in Hk.
  - intros id. unfold at_path, empty. cbn [kv_contents mem]. by rewrite !(lookup_empty (M:=gmap string)).
Qed.

(** ** Secrets *)

Definition secrets : Consul.db string := collection "secrets" ["name"; "data"] "name".
Definition vault : ops (gmap string string) string := consul_ops secrets.
#[local] Instance secrets_laws :
  Laws vault "name" (object_path secrets) (native secrets) (storable secrets) (R secrets).
Proof. apply (consul_laws secrets (model_loads_dumps _ _)). Qed.

(** A cipher of the shape of the program's: the token holds the data as
    hexadecimal text. *)
Definition encrypt (nonce key data : string) : string := Codec.bits (encode (data : string)).
Definition decrypt (key token : string) : res string :=
  match Codec.of_bits token ≫= decode with Some d => Ok d | None => Err ValueError end.

Lemma decrypt_encrypt nonce k data : decrypt k (encrypt nonce k data) = Ok data.
Proof. unfold decrypt, encrypt. rewrite Codec.of_bits_bits. cbn [mbind option_bind]. by rewrite decode_encode. Qed.
Lemma bits_ascii p : Secure.is_ascii (Codec.bits p) = true.
Proof. induction p as [p IH|p IH|]; cbn; [exact IH|exact IH|done]. Qed.
Lemma token_ascii nonce k data : Secure.is_ascii (encrypt nonce k data) = true.
Proof. apply bits_ascii. Qed.
Lemma native_name name : native secrets name.
Proof. done. Qed.
Lemma storable_item name data : storable secrets (Secure.instantiate name data) name.
Proof. split; [done|]. apply (lookup_insert_eq (M:=gmap string)). Qed.

Definition stored : gmap string string := (Secure.store vault encrypt "k" "n1" "token" "s" false empty).2.

Lemma stored_ok : Secure.store vault encrypt "k" "n1" "token" "s" false empty = (Ok tt, stored).
Proof. vm_compute. reflexivity. Qed.

Lemma secure_store_get_witness :
  Secure.get vault decrypt "k" "token" stored = (Ok (Some "s"), stored) ∧
  ∀ name2, object_path secrets name2 ≠ object_path secrets "token" →
    (Secure.get vault decrypt "k" name2 stored).1 = (Secure.get vault decrypt "k" name2 empty).1.
Proof.
  apply (SecureSpec.secure_store_get vault (object_path secrets) (native secrets) (storable secrets) (R secrets)
    encrypt decrypt "k" decrypt_encrypt token_ascii native_name storable_item empty ∅ "n1" "token" "s" false stored);
    [apply empty_R|exact stored_ok].
Defined.

Lemma stored_R : R secrets stored
  (<[object_path secrets "token" := Secure.instantiate "token" (encrypt "n1" "k" "s")]> ∅).
Proof.
  apply (SecureSpec.store_held vault (object_path secrets) (native secrets) (storable secrets) (R secrets)
    encrypt "k" token_ascii native_name storable_item empty ∅ "n1" "token" "s" false stored);
    [apply empty_R|exact stored_ok].
Qed.

Lemma secure_guarded_witness :
  Secure.store vault encrypt "k" "n2" "token" "other" false stored = (Err KeyError, stored) ∧
  Secure.delete vault "nothing" stored = (Err KeyError, stored).
Proof.
  pose proof (λ name data, SecureSpec.secure_guarded vault (object_path secrets) (native secrets) (storable secrets)
    (R secrets) encrypt decrypt "k" native_name stored _ "n2" name data stored_R) as H.
  split; [exact (proj1 (H "token" "other"))|exact (H "nothing" "other")].
Defined.

Definition stolen : gmap string string := (Secure.store vault encrypt "k" "n2" "TOKEN" "other" false stored).2.
Lemma stolen_ok : Secure.store vault encrypt "k" "n2" "TOKEN" "other" false stored = (Ok tt, stolen).
Proof. vm_compute. reflexivity. Qed.

(** A name in capitals passes the guard and takes the place of the other. *)
Lemma secure_name_collision_witness :
  Secure.get vault decrypt "k" "token" stolen = (Ok None, stolen).
Proof.
  apply (SecureSpec.secure_name_collision vault (object_path secrets) (native secrets) (storable secrets) (R secrets)
    encrypt decrypt "k" token_ascii native_name storable_item stored _ "n2" "token" "TOKEN" "other" stolen stored_R);
    [discriminate|discriminate|reflexivity|exact stolen_ok].
Defined.

(** ** Features *)

Definition features : Consul.db string :=
  collection "unsupported" ["feature_id"; "feature_name"; "component_name"] "feature_id".
Definition catalogue : ops (gmap string string) string := consul_ops features.
#[local] Instance features_laws :
  Laws catalogue "feature_id" (object_path features) (native features) (storable features) (R features).
Proof. apply (consul_laws features (model_loads_dumps _ _)). Qed.

Lemma native_id id : native features id.
Proof. done. Qed.
Lemma storable_feature id f c : storable features (Features.instantiate_decision id f c) id.
Proof. split; [done|]. apply (lookup_insert_eq (M:=gmap string)). Qed.

(** Ids are in capitals, so putting them in lower case loses nothing. *)
Notation is_lower := Features.is_lower.
Definition no_lower (s : string) : bool := sforall (λ c, negb (is_lower c)) s.

Lemma no_lower_app s t : no_lower (s +:+ t) = no_lower s && no_lower t.
Proof. unfold no_lower. apply sforall_app. Qed.
Lemma upper_no_lower s : no_lower (Features.upper s) = true.
Proof.
  induction s as [|c s IH]; [done|]. cbn [Features.upper]. rewrite no_lower_app, IH, andb_true_r.
  destruct c as [[] [] [] [] [] [] [] []]; reflexivity.
Qed.
Lemma lower_char_inj c1 c2 : is_lower c1 = false → is_lower c2 = false → lower_char c1 = lower_char c2 → c1 = c2.
Proof.
  intros H1 H2 Heq.
  assert (Hl : ∀ c, is_lower c = false → ∃ b : bool, True ∧ c = (if is_lower (lower_char c) then ascii_of_N (code (lower_char c) - 32) else lower_char c)).
  { intros c Hc. exists true. split; [done|]. revert Hc. destruct c as [[] [] [] [] [] [] [] []]; (discriminate || reflexivity). }
  destruct (Hl c1 H1) as (_ & _ & ->), (Hl c2 H2) as (_ & _ & ->). by rewrite Heq.
Qed.
Lemma lower_inj s t : no_lower s = true → no_lower t = true → lower s = lower t → s = t.
Proof.
  revert t. induction s as [|c s IH]; intros [|c' t]; try done. cbn.
  intros [Hc Hs]%andb_prop [Hc' Ht]%andb_prop [= Hcc Hst]. apply negb_true_iff in Hc, Hc'.
  f_equal; [by apply lower_char_inj|by apply IH].
Qed.

Lemma feature_id_capitals c f : no_lower (Features.feature_id c f) = true.
Proof.
  unfold Features.feature_id, Features.create_feature_id. cbn [fmap list_fmap join].
  rewrite !no_lower_app, !upper_no_lower. done.
Qed.

Lemma path_inj c f c' f' :
  object_path features (Features.feature_id c f) = object_path features (Features.feature_id c' f') →
  Features.feature_id c f = Features.feature_id c' f'.
Proof.
  unfold object_path, get_object_path. rewrite !lower_app. intros H%sapp_inj%sapp_inj.
  apply lower_inj; [apply feature_id_capitals..|exact H].
Qed.

Definition told : gmap string string :=
  (Features.store_unsupported_features catalogue "s3" (Some ["a"]) empty).2.

Lemma told_ok : Features.store_unsupported_features catalogue "s3" (Some ["a"]) empty = (Ok tt, told).
Proof. vm_compute. reflexivity. Qed.
Lemma told_lambda : (Features.is_feature_supported catalogue "S3" "A" told).1 = Ok false.
Proof. vm_compute. reflexivity. Qed.

Lemma unsupported_exact_witness :
  (Features.is_feature_supported catalogue "S3" "A" told).1 = Ok false ∧
  ∃ before, Features.is_feature_supported catalogue "s3" "tags" empty = (Ok before, empty) ∧
    Features.is_feature_supported catalogue "s3" "tags" told =
      (Ok (before && negb (bool_decide (Features.feature_id "s3" "tags" ∈
         (Features.feature_id "s3" <$> ["a"])))), told).
Proof.
  split; [exact told_lambda|].
  apply (FeaturesSpec.unsupported_exact catalogue (object_path features) (native features) (storable features) (R features)
    native_id storable_feature path_inj empty ∅ "s3" ["a"] told "s3" "tags");
    [apply empty_R|exact told_ok].
Defined.

(** ** A sequence of requests *)

Definition kv (name data : string) : request string := Store (Secure.instantiate name data) name.
Definition requests : list (request string) :=
  [kv "a" "1"; Get "a"; kv "A" "2"; Get "a"; Get "A"; Delete "A"; Delete "A"].

Lemma consul_refines_map_witness :
  let run := ask_all vault "name" requests empty in
  run.1 = Ok [inl []; inl [Secure.instantiate "a" "1"]; inl []; inl []; inl [Secure.instantiate "A" "2"]; inr 1%Z; inr 0%Z] ∧
  ∃ l, run.1 = Ok l ∧ l = (spec_all "name" (object_path secrets) requests ∅).1.
Proof.
  cbv zeta. split; [vm_compute; reflexivity|].
  destruct (ask_all vault "name" requests empty) as [[l|e] w'] eqn:Hrun.
  - exists l. split; [done|].
    apply (consul_refines_map secrets (model_loads_dumps _ _) requests empty ∅ l w'); [apply empty_R| |exact Hrun].
    repeat (apply Forall_cons_2; [first [exact (native_name _) | split; [apply storable_item|apply (lookup_insert_eq (M:=gmap string))]]|]).
    apply Forall_nil_2.
  - exfalso. assert (H : is_ok (ask_all vault "name" requests empty).1 = true) by (vm_compute; reflexivity).
    by rewrite Hrun in H.
Defined.

End CollWitness.
