(* ===== verification/DbProvider.v ===== *)
(** [utils/data/db/db_provider.py] and [utils/synchronization.py]: storages
    created on first use.  Every call on a storage is a coroutine that first
    waits until the database is there, creating it if nobody is; the model is
    the coroutines, the status, and the event that wakes them. *)
From S2P Require Import Prelude.

Module Provider.

(** ** [AsyncDataBase] and [ProxyStorageCallDecorator] *)

Inductive ServiceStatus := NOT_CREATED | IN_PROGRESS | READY.

#[global] Instance status_eq_dec : EqDecision ServiceStatus.
Proof. solve_decision. Defined.

(** [ThreadSafeEvent]: [set] and [clear] are callbacks put on the event loop's
    queue.  So is the coroutine of [wait], which takes two turns: the callback
    of [run_coroutine_threadsafe] makes a task of it, and the first step of the
    task looks at the event. *)
Inductive callback := CSet | CClear | CWait (t : nat) | CStart (t : nat).

#[global] Instance callback_eq_dec : EqDecision callback.
Proof. solve_decision. Defined.

(** Where a call is, between two awaits: at the test of the status, in
    [create_database], its [wait] on the queue, waiting on the event, woken, past
    the wait, returned; [Failed] when its own creation raised. *)
Inductive call :=
| Testing | Creating | Queued | Waiting | Woken | Past | Returned (found : bool) | Failed.

#[global] Instance call_eq_dec : EqDecision call.
Proof. solve_decision. Defined.

Record state := State {
  st_status : ServiceStatus;       (* _database_status *)
  st_database : bool;              (* _database is not None *)
  st_event : bool;                 (* the event is set *)
  st_queue : list callback;        (* the event loop's callbacks *)
  st_calls : gmap nat call
}.

Definition init : state := State NOT_CREATED false false [] ∅.

Definition with_call (t : nat) (c : call) (s : state) : state :=
  State (st_status s) (st_database s) (st_event s) (st_queue s) (<[t := c]> (st_calls s)).
Definition enqueue (c : callback) (s : state) : state :=
  State (st_status s) (st_database s) (st_event s) (st_queue s ++ [c]) (st_calls s).
Definition with_status (st : ServiceStatus) (db : bool) (s : state) : state :=
  State st db (st_event s) (st_queue s) (st_calls s).

(** One turn of the loop of [_wait_db_creation]. *)
Definition test_status (t : nat) (s : state) : state :=
  match st_status s with
  | READY => with_call t Past s
  | NOT_CREATED => with_call t Creating (with_status IN_PROGRESS (st_database s) s)
  | IN_PROGRESS => with_call t Queued (enqueue (CWait t) s)
  end.

(** [asyncio.Event.set] wakes every waiter. *)
Definition wake (c : call) : call := match c with Waiting => Woken | _ => c end.

Definition run_callback (c : callback) (s : state) : state :=
  match c with
  | CSet => State (st_status s) (st_database s) true (st_queue s) (wake <$> st_calls s)
  | CClear => State (st_status s) (st_database s) false (st_queue s) (st_calls s)
  | CWait t => enqueue (CStart t) s
  | CStart t => with_call t (if st_event s then Woken else Waiting) s
  end.

(** What the event loop may run next. *)
Inductive action :=
| Call (t : nat)             (* a new call on the storage *)
| Test (t : nat)             (* its first test of the status *)
| CreateOk (t : nat)         (* create_database returned *)
| CreateFail (t : nat)       (* create_database raised *)
| Wake (t : nat)             (* a woken call goes on: event.clear(), next test *)
| Proceed (t : nat)          (* get_database() and the call itself *)
| Callback.                  (* the next queued callback *)

Definition exec (a : action) (s : state) : option state :=
  match a with
  | Call t =>
      match st_calls s !! t with None => Some (with_call t Testing s) | Some _ => None end
  | Test t => if decide (st_calls s !! t = Some Testing) then Some (test_status t s) else None
  | CreateOk t =>
      if decide (st_calls s !! t = Some Creating)
      then Some (test_status t (enqueue CSet (with_status READY true s))) else None
  | CreateFail t =>
      if decide (st_calls s !! t = Some Creating)
      then Some (with_call t Failed (enqueue CSet (with_status NOT_CREATED (st_database s) s))) else None
  | Wake t => if decide (st_calls s !! t = Some Woken) then Some (test_status t (enqueue CClear s)) else None
  | Proceed t =>
      if decide (st_calls s !! t = Some Past) then Some (with_call t (Returned (st_database s)) s) else None
  | Callback =>
      match st_queue s with
      | [] => None
      | c :: q => Some (run_callback c (State (st_status s) (st_database s) (st_event s) q (st_calls s)))
      end
  end.

Fixpoint run (l : list action) (s : state) : option state :=
  match l with
  | [] => Some s
  | a :: l' => exec a s ≫= run l'
  end.

(** ** [DataBaseProvider.__init__] *)

Section models.
(** [pydoc.locate]; whether what it found is a class derived from [BaseModel],
    or no class; the configuration of a model. *)
Context {C D : Type} `{EqDecision C} (locate : string → res (option C)) (is_model : C → res bool).

Definition add_model (settings : list (C * D)) (path : string) (model : D) : res (list (C * D)) :=
  c ← locate path;
  match c with
  | None => Err MalformedConfigurationError
  | Some c =>
      ok ← is_model c;
      if ok : bool then
        Ok (if decide (c ∈ settings.*1) then (λ cd, if decide (cd.1 = c) then (c, model) else cd) <$> settings
            else settings ++ [(c, model)])
      else Err MalformedConfigurationError
  end.
(** The models of the configuration, each with the path of its class *)
Definition model_settings (models : list (string * D)) : res (list (C * D)) :=
  foldl (λ settings pm, s ← settings; add_model s pm.1 pm.2) (Ok []) models.

(** A configuration that is accepted has the settings of every class its
    models name, the last ones that were given. *)
Lemma model_settings_last models path model settings c :
  model_settings (models ++ [(path, model)]) = Ok settings → locate path = Ok (Some c) → (c, model) ∈ settings.
Proof.
  unfold model_settings. rewrite foldl_app. cbn [foldl fst snd]. destruct (foldl _ _ models) as [l|]; [|done].
  cbn [mbind res_bind]. unfold add_model. intros H Hc. rewrite Hc in H. cbn [mbind res_bind] in H.
  destruct (is_model c) as [[]|]; [|done..]. cbn in H. injection H as <-. case_decide as Hin; [|set_solver].
  apply list_elem_of_fmap in Hin as ([c' d] & -> & Hin). apply list_elem_of_fmap. exists (c', d). cbn. by rewrite decide_True.
Qed.
End models.

(** ** [DataBaseProvider.get_storage] *)

Section provider.
(** Model classes, storages, and the parts of a model's configuration the
    code reads: its database, that database's settings, and the driver. *)
Context {M S : Type} `{Countable M}.
Context (database : M → string) (settings : M → string → option S) (driver : M → option string).

Definition db_modules : list (string * string) :=
  [("ConsulDB", "consul_db"); ("ElasticSearchDB", "elasticsearch_db"); ("OpenLdap", "openldap")].

(** [AsyncDataBase.__init__]; [db_config] is [None] for an unknown database. *)
Definition async_init (m : M) : res string :=
  match driver m with
  | None => Err AttributeError
  | Some db_type =>
      if decide (db_type ∈ db_modules.*1) then Ok db_type else Err DataAccessError
  end.

Definition get_storage (models : list M) (m : M) : ST (gmap M string) string := λ cached,
  if decide (m ∈ models) then
    match settings m (database m) with
    | None => (Err MalformedConfigurationError, cached)
    | Some _ =>
        match cached !! m with
        | Some s => (Ok s, cached)
        | None => match async_init m with
                  | Ok s => (Ok s, <[m := s]> cached)
                  | Err e => (Err e, cached)
                  end
        end
    end
  else (Err MalformedConfigurationError, cached).
End provider.

(** ** The invariant *)

Definition is_creating (s : state) : Prop := ∃ t, st_calls s !! t = Some Creating.

(** The calls whose [wait] is on the queue, at its first turn or its second *)
Definition wait_of (c : callback) : option nat := match c with CWait t | CStart t => Some t | _ => None end.
Notation waits q := (omap wait_of q).

Record inv (s : state) : Prop := Inv {
  iv_creating : is_creating s ↔ st_status s = IN_PROGRESS;
  iv_one : ∀ t t', st_calls s !! t = Some Creating → st_calls s !! t' = Some Creating → t = t';
  iv_ready : st_status s = READY ↔ st_database s = true;
  iv_past : ∀ t, st_calls s !! t = Some Past → st_database s = true;
  iv_returned : ∀ t b, st_calls s !! t = Some (Returned b) → b = true ∧ st_database s = true;
  iv_queued : ∀ t, t ∈ waits (st_queue s) → st_calls s !! t = Some Queued;
  iv_once : NoDup (waits (st_queue s))
}.

Lemma workers_inv_init : inv init.
Proof.
  assert (He : ∀ t, st_calls init !! t = None) by (intros; apply lookup_empty).
  constructor.
  - split; [|done]. intros [t Ht]. by rewrite He in Ht.
  - intros t t' Ht. by rewrite He in Ht.
  - done.
  - intros t Ht. by rewrite He in Ht.
  - intros t b Ht. by rewrite He in Ht.
  - intros t Ht. by apply not_elem_of_nil in Ht.
  - constructor.
Qed.

(** Calls other than [t] are where they were. *)
Ltac calls :=
  repeat match goal with
  | H : <[_ := _]> _ !! _ = Some _ |- _ => apply lookup_insert_Some in H as [[? ?]|[? ?]]
  end; simplify_eq/=.

Lemma creating_insert s t c :
  c ≠ Creating → st_calls s !! t ≠ Some Creating → is_creating (with_call t c s) ↔ is_creating s.
Proof.
  intros Hc Ht. split; intros [t' Ht']; cbn in *.
  - calls. by exists t'.
  - exists t'. cbn. rewrite lookup_insert_ne; [done|]. by intros ->.
Qed.

(** A call moves on without touching the rest. *)
Lemma inv_move s t c :
  inv s → st_calls s !! t ≠ Some Creating → t ∉ waits (st_queue s) → c ≠ Creating →
  (c = Past → st_database s = true) → (∀ b, c = Returned b → b = true ∧ st_database s = true) →
  inv (with_call t c s).
Proof.
  intros [H1 H2 H3 H4 H5 H6 H7] Hnc Hnq Hc Hp Hr.
  pose proof (creating_insert s t c Hc Hnc) as Hcr.
  constructor; rewrite ?Hcr; cbn; try done.
  - intros a b Ha Hb. calls. by eapply H2.
  - intros a Ha. calls; eauto.
  - intros a b Ha. calls; eauto.
  - intros a Ha. rewrite lookup_insert_ne by (by intros ->). by apply H6.
Qed.

Lemma not_queued s t : inv s → st_calls s !! t ≠ Some Queued → t ∉ waits (st_queue s).
Proof. intros Hs Hq Hin. by apply Hq, iv_queued. Qed.

Lemma inv_enqueue s c : inv s → wait_of c = None → inv (enqueue c s).
Proof.
  intros [H1 H2 H3 H4 H5 H6 H7] Hc.
  assert (Hw : waits (st_queue s ++ [c]) = waits (st_queue s)) by (rewrite omap_app; cbn; by rewrite Hc, app_nil_r).
  by constructor; cbn; rewrite ?Hw.
Qed.

(** A call starts to wait while another creates. *)
Lemma inv_wait s t :
  inv s → st_calls s !! t ≠ Some Creating → st_calls s !! t ≠ Some Queued →
  inv (with_call t Queued (enqueue (CWait t) s)).
Proof.
  intros Hs Hnc Hnq. pose proof (not_queued s t Hs Hnq) as Hnw. destruct Hs as [H1 H2 H3 H4 H5 H6 H7].
  assert (Hcr : is_creating (with_call t Queued (enqueue (CWait t) s)) ↔ is_creating s)
    by by apply (creating_insert (enqueue (CWait t) s)).
  assert (Hw : waits (st_queue s ++ [CWait t]) = waits (st_queue s) ++ [t]) by by rewrite omap_app.
  constructor; rewrite ?Hcr; cbn; rewrite ?Hw; try done.
  - intros a b Ha Hb. calls. by eapply H2.
  - intros a Ha. calls. eauto.
  - intros a b Ha. calls. eauto.
  - intros a [Ha|Ha]%elem_of_app; [|apply list_elem_of_singleton in Ha as ->; by rewrite lookup_insert_eq].
    rewrite lookup_insert_ne by (by intros ->). by apply H6.
  - apply NoDup_app. split; [done|]. split; [|apply NoDup_singleton].
    intros a Ha Ht%list_elem_of_singleton. by subst.
Qed.

(** A call starts the creation. *)
Lemma inv_start s t :
  inv s → st_status s = NOT_CREATED → st_calls s !! t ≠ Some Queued →
  inv (with_call t Creating (with_status IN_PROGRESS (st_database s) s)).
Proof.
  intros Hs Hst Hnq. pose proof (not_queued s t Hs Hnq) as Hnw. destruct Hs as [H1 H2 H3 H4 H5 H6 H7].
  assert (Hno : ∀ a, st_calls s !! a ≠ Some Creating).
  { intros a Ha. destruct H1 as [H1 _]. rewrite Hst in H1. by assert (NOT_CREATED = IN_PROGRESS) by (apply H1; by exists a). }
  constructor; cbn; try done.
  - split; [done|]. intros _. exists t. cbn. by rewrite lookup_insert_eq.
  - intros a b Ha Hb. calls; try done; exfalso; by eapply Hno.
  - rewrite <- H3, Hst. done.
  - intros a Ha. calls. eauto.
  - intros a b Ha. calls. eauto.
  - intros a Ha. rewrite lookup_insert_ne by (by intros ->). by apply H6.
Qed.

(** The creation ends, and the waiting calls will be woken. *)
Lemma inv_finish s t c st db :
  inv s → st_calls s !! t = Some Creating →
  (st = READY ∧ db = true ∧ c = Past ∨ st = NOT_CREATED ∧ db = st_database s ∧ c = Failed) →
  inv (with_call t c (enqueue CSet (with_status st db s))).
Proof.
  intros Hs Ht Hst. assert (Hnw : t ∉ waits (st_queue s)) by (apply not_queued; [done|congruence]).
  destruct Hs as [H1 H2 H3 H4 H5 H6 H7].
  assert (Hip : st_status s = IN_PROGRESS) by (apply H1; by exists t).
  assert (Hdb : st_database s = false).
  { destruct (st_database s) eqn:Hd; [|done]. assert (st_status s = READY) by (by apply H3). congruence. }
  assert (Hc : c ≠ Creating ∧ (∀ b, c ≠ Returned b) ∧ st ≠ IN_PROGRESS) by naive_solver.
  destruct Hc as (Hcc & Hcr & Hsi).
  assert (Hno : ¬ is_creating (with_call t c (enqueue CSet (with_status st db s)))).
  { intros [a Ha]. cbn in Ha. calls. assert (a = t) by eauto. done. }
  assert (Hw : waits (st_queue s ++ [CSet]) = waits (st_queue s)) by (rewrite omap_app; cbn; by rewrite app_nil_r).
  constructor; cbn; rewrite ?Hw; try done.
  - intros a b Ha Hb. destruct Hno. by exists a.
  - naive_solver congruence.
  - intros a Ha. calls; [naive_solver|]. apply H4 in H0. congruence.
  - intros a b Ha. calls; [by destruct (Hcr b)|]. apply H5 in H0. naive_solver congruence.
  - intros a Ha. rewrite lookup_insert_ne by (by intros ->). by apply H6.
Qed.

(** The next callback runs. *)
Lemma lookup_wake (m : gmap nat call) t c :
  (wake <$> m) !! t = Some c ↔ ∃ c0, m !! t = Some c0 ∧ c = wake c0.
Proof. rewrite lookup_fmap. destruct (m !! t); simpl; naive_solver. Qed.

Lemma wake_other (m : gmap nat call) t c :
  c ≠ Waiting → c ≠ Woken → (wake <$> m) !! t = Some c ↔ m !! t = Some c.
Proof.
  intros H1 H2. rewrite lookup_wake. split; [|by intros H; exists c; destruct c].
  intros (c0 & Hc0 & ->). destruct c0; simpl in *; congruence.
Qed.

Lemma inv_callback s c q :
  inv s → st_queue s = c :: q →
  inv (run_callback c (State (st_status s) (st_database s) (st_event s) q (st_calls s))).
Proof.
  intros [H1 H2 H3 H4 H5 H6 H7] Hq. rewrite Hq in H6, H7.
  destruct c as [| |t|t]; cbn [run_callback omap list_omap wait_of] in *.
  - assert (Hcr : is_creating (State (st_status s) (st_database s) true q (wake <$> st_calls s)) ↔ is_creating s).
    { unfold is_creating. cbn. by setoid_rewrite wake_other. }
    constructor; rewrite ?Hcr; cbn; try done.
    + intros a b. rewrite !wake_other by done. apply H2.
    + intros a. rewrite wake_other by done. apply H4.
    + intros a b. rewrite wake_other by done. apply H5.
    + intros a Ha. rewrite wake_other by done. by apply H6.
  - by constructor.
  - assert (Hw : waits (q ++ [CStart t]) ≡ₚ t :: waits q) by (rewrite omap_app; cbn; by rewrite Permutation_app_comm).
    constructor; cbn; rewrite ?Hw; try done. intros a. rewrite Hw. apply H6.
  - apply NoDup_cons in H7 as [Hnt Hnd].
    assert (Htq : st_calls s !! t = Some Queued) by (apply H6; left).
    apply inv_move; cbn; try done; [|congruence|by destruct (st_event s)..].
    constructor; cbn; try done. intros a Ha. apply H6. by right.
Qed.

Lemma inv_test s t :
  inv s → st_calls s !! t ≠ Some Creating → st_calls s !! t ≠ Some Queued → inv (test_status t s).
Proof.
  intros Hs Hc Hq. unfold test_status. destruct (st_status s) eqn:Hst.
  - by apply inv_start.
  - by apply inv_wait.
  - apply inv_move; try done; [by apply not_queued|]. intros _. by apply Hs.
Qed.

Lemma inv_exec a s s' : inv s → exec a s = Some s' → inv s'.
Proof.
  intros Hs. destruct a as [t|t|t|t|t|t|]; cbn [exec]; repeat case_decide; try done.
  - destruct (st_calls s !! t) eqn:Ht; [done|]. intros [= <-]. apply inv_move; try done; [by rewrite Ht|].
    apply not_queued; [done|by rewrite Ht].
  - intros [= <-]. apply inv_test; congruence.
  - intros [= <-]. unfold test_status. cbn [st_status enqueue with_status].
    apply inv_finish; [done|done|by left].
  - intros [= <-]. apply inv_finish; [done|done|by right].
  - intros [= <-]. apply inv_test; [by apply inv_enqueue|cbn; congruence..].
  - intros [= <-]. assert (st_database s = true) as -> by (by eapply iv_past).
    apply inv_move; try done; try congruence; [apply not_queued; [done|congruence]|].
    intros b [= <-]. split; [done|]. by eapply iv_past.
  - destruct (st_queue s) as [|c q] eqn:Hq; [done|]. intros [= <-]. by apply inv_callback.
Qed.

Lemma inv_run l s s' : inv s → run l s = Some s' → inv s'.
Proof.
  revert s. induction l as [|a l IH]; intros s Hs; cbn; [by intros [= <-]|].
  destruct (exec a s) as [s1|] eqn:Ha; [|done]. intros Hr. eapply IH; [by eapply inv_exec|done].
Qed.

(** C35.  However calls on a storage interleave, at most one creation of the
    database is in progress, no call goes on before the database is there,
    and every call that returned found it. *)
Theorem provider_single_creation l s :
  run l init = Some s →
  (∀ t t', st_calls s !! t = Some Creating → st_calls s !! t' = Some Creating → t = t') ∧
  (∀ t, st_calls s !! t = Some Past → st_database s = true) ∧
  (∀ t b, st_calls s !! t = Some (Returned b) → b = true).
Proof.
  intros Hr. pose proof (inv_run l init s workers_inv_init Hr) as Hs. split; [apply Hs|]. split; [apply Hs|].
  intros t b Ht. by apply (iv_returned s Hs) in Ht as [? _].
Qed.

(** ** A lost wake-up *)

(** The database is there, the call waits, and no [set] is to come. *)
Record lost (t : nat) (s : state) : Prop := Lost {
  lo_ready : st_status s = READY;
  lo_waiting : st_calls s !! t = Some Waiting;
  lo_no_set : CSet ∉ st_queue s;
  lo_not_queued : t ∉ waits (st_queue s);
  lo_no_creation : ∀ t', st_calls s !! t' ≠ Some Creating
}.

Lemma lost_call t t' c s : lost t s → t' ≠ t → c ≠ Creating → lost t (with_call t' c s).
Proof.
  intros [H1 H2 H3 H4 H5] Ht Hc. constructor; cbn; try done; [by rewrite lookup_insert_ne|].
  intros a Ha. calls. by eapply H5.
Qed.
Lemma lost_enqueue t c s : lost t s → c ≠ CSet → wait_of c ≠ Some t → lost t (enqueue c s).
Proof.
  intros [H1 H2 H3 H4 H5] Hc Hw. constructor; cbn; try done; rewrite ?omap_app, elem_of_app.
  - rewrite list_elem_of_singleton. naive_solver.
  - intros [?|Hin]; [done|]. cbn in Hin. destruct (wait_of c); [|by apply not_elem_of_nil in Hin].
    apply list_elem_of_singleton in Hin as ->. done.
Qed.

Lemma lost_exec t a s s' : lost t s → exec a s = Some s' → lost t s'.
Proof.
  intros Hl. pose proof Hl as [H1 H2 H3 H4 H5].
  destruct a as [u|u|u|u|u|u|]; cbn [exec]; repeat case_decide; try done; try by destruct (H5 u).
  - destruct (st_calls s !! u) eqn:Hu; [done|]. intros [= <-]. apply lost_call; [done| |done]. intros ->. congruence.
  - intros [= <-]. unfold test_status. rewrite H1. apply lost_call; [done|intros ->; congruence|done].
  - intros [= <-]. unfold test_status. cbn [st_status enqueue]. rewrite H1.
    apply lost_call; [by apply lost_enqueue|intros ->; cbn in *; congruence|done].
  - intros [= <-]. apply lost_call; [done|intros ->; congruence|done].
  - destruct (st_queue s) as [|c q] eqn:Hq; [done|]. intros [= <-].
    assert (Hl' : lost t (State (st_status s) (st_database s) (st_event s) q (st_calls s))).
    { constructor; cbn; try done; [by intros Hin; apply H3; right|]. intros Hin. apply H4. cbn.
      destruct (wait_of c); [by right|done]. }
    destruct c as [| |u|u]; cbn [run_callback].
    + destruct H3. left.
    + by destruct Hl'.
    + apply lost_enqueue; [done|done|]. cbn. intros [= ->]. apply H4. left.
    + apply lost_call; [done|intros ->; apply H4; left|by destruct (st_event s)].
Qed.

Lemma lost_forever t l s s' : lost t s → run l s = Some s' → st_calls s' !! t = Some Waiting.
Proof.
  revert s. induction l as [|a l IH]; intros s Hl; cbn; [intros [= <-]; apply Hl|].
  destruct (exec a s) as [s1|] eqn:Ha; [|done]. apply IH. by eapply lost_exec.
Qed.

(** A creation that fails wakes 2, and 3, which has not started to wait yet; 3
    creates the database, and 4 finds it at that; the [clear] of 2 comes between
    the [set] of 3 and the start of the wait of 4. *)
Definition losing : list action :=
  [Call 1; Call 2; Call 3; Call 4; Test 1; Test 2; Callback; Callback; Test 3; CreateFail 1; Callback; Callback; Callback;
   Wake 3; Test 4; CreateOk 3; Wake 2; Callback; Callback; Callback; Callback; Callback].

(** C36.  A wake-up can be lost: there is a run after which the database is
    there and a call waits for it, and goes on waiting whatever runs
    afterwards. *)
Theorem provider_lost_wakeup :
  ∃ l s t, run l init = Some s ∧ st_status s = READY ∧ st_database s = true ∧ st_queue s = [] ∧
    ∀ l' s', run l' s = Some s' → st_calls s' !! t = Some Waiting.
Proof.
  destruct (run losing init) as [s|] eqn:Hs; [|by vm_compute in Hs]. exists losing, s, 4.
  assert (Hf : (st_status s, st_database s, st_queue s, st_calls s) =
    (READY, true, [], list_to_map [(1, Failed); (2, Past); (3, Past); (4, Waiting)])).
  { vm_compute in Hs. injection Hs as <-. vm_compute. reflexivity. }
  injection Hf as Hr Hd Hq Hc. split_and!; [done..|]. intros l' s'. apply lost_forever. clear Hs.
  constructor; rewrite ?Hq; [done|rewrite Hc; reflexivity|apply not_elem_of_nil..|].
  intros t'. rewrite Hc. intros Hin.
  apply (elem_of_list_to_map_2 [(1, Failed); (2, Past); (3, Past); (4, Waiting)]) in Hin. rewrite !elem_of_cons in Hin.
  destruct Hin as [[=]|[[=]|[[=]|[[=]|Hin]]]]. by apply not_elem_of_nil in Hin.
Qed.

(** ** Executions *)

(** Two calls; the first creation fails, the second call creates. *)
Definition two_calls : list action :=
  [Call 1; Call 2; Test 1; Test 2; Callback; Callback; CreateFail 1; Callback; Wake 2; CreateOk 2; Proceed 2].
Definition after_two : state := default init (run two_calls init).

Lemma provider_single_creation_witness :
  run two_calls init = Some after_two ∧
  (∀ t b, st_calls after_two !! t = Some (Returned b) → b = true).
Proof.
  assert (H : run two_calls init = Some after_two) by (vm_compute; reflexivity).
  split; [exact H|]. apply (provider_single_creation two_calls after_two H).
Defined.

End Provider.
