(* ===== verification/EsDb.v ===== *)
(** [utils/data/db/elasticsearch_db/storage.py]: filter trees translated to
    queries of the Elasticsearch DSL, index mappings, search requests and the
    scripts of updates; the creation of a storage and its operations, and the
    [_by_id] methods of [generic_storage.py] over them.  The server and its
    client are parameters. *)
From Stdlib Require Import Ascii.
From S2P Require Import Prelude PyStr PyVal DataAccess.
Import PyStr Data.

Module Es.

Section es.
Context {V : Type}.

(** ** [ElasticSearchQueryConverter] *)

(** [Q("match", field=v)], [Q("range", field={op: v})], [q1 & q2], [q1 | q2]. *)
Inductive Qobj :=
| QMatch (field : string) (target : V)
| QRange (field op_string : string) (target : V)
| QAnd (a b : Qobj)
| QOr (a b : Qobj).

(** The table [comparison_conversion]; [!=] and [like] are not in it. *)
Definition comparison_conversion (op : ComparisonOperation) (field : string) (target : V) : res Qobj :=
  match op with
  | OPERATION_EQ => Ok (QMatch field target)
  | OPERATION_LT => Ok (QRange field "lt" target)
  | OPERATION_GT => Ok (QRange field "gt" target)
  | OPERATION_LEQ => Ok (QRange field "lte" target)
  | OPERATION_GEQ => Ok (QRange field "gte" target)
  | OPERATION_NE | OPERATION_LIKE => Err KeyError
  end.

Definition handle_compare (m : Model V) (field : operand) (op : ComparisonOperation) (v : V) : res Qobj :=
  field_str ← field_to_str field;
  right_operand ←
    match field with
    | FieldName _ => to_native m field_str v
    | _ => match md_to_native m field_str v with Some w => Ok w | None => Err DataAccessInternalError end
    end;
  comparison_conversion op field_str right_operand.

Definition build (m : Model V) (root : filter_tree V) : res Qobj :=
  accept_visitor QAnd QOr (handle_compare m) root.

(** ** [ElasticSearchQueryService.search_by_query] *)

Record Search := MkSearch {
  s_query : option Qobj;
  s_from : option Z;
  s_size : option Z;
  s_sort : option (string * string)   (* field, order *)
}.

(** [string_field_type] of [order_by.kwargs], when the field is a
    [StringType] object. *)
Definition search_by_query (m : Model V) (q : Query V) (string_field_type : option string) : res Search :=
  query ← match q_filter_by q with
          | Some f => b ← build m f; Ok (Some b)
          | None => Ok None
          end;
  sort ← match q_order_by q with
         | None => Ok None
         | Some ob =>
             field ← field_to_str (ob_field ob);
             let name := match ob_field ob, string_field_type with
                         | FieldType _, Some t => if md_is_string m field then field +:+ "." +:+ t else field
                         | _, _ => field
                         end in
             Ok (Some (name, match ob_order ob with ASC => "asc" | DESC => "desc" end))
         end;
  Ok (MkSearch query (q_offset q) (q_limit q) sort).

(** ** [ElasticSearchDataMapper] *)

Definition LOWERCASE_NORMALIZER : string := "lowercase_normalizer".

Definition INDEX_SETTINGS : list (string * value) :=
  [("analysis", VDict [("normalizer", VDict [(LOWERCASE_NORMALIZER,
     VDict [("type", VStr "custom"); ("char_filter", VList []); ("filter", VList [VStr "lowercase"])])])])].

Definition DATA_MAP : list (string * string) :=
  [("StringType", "keyword"); ("IntType", "integer"); ("DateType", "date"); ("BooleanType", "boolean");
   ("DateTimeType", "date"); ("UTCDateTimeType", "date"); ("DecimalType", "keyword"); ("FloatType", "float");
   ("LongType", "long"); ("NumberType", "short"); ("ListType", "nested")].

Definition _add_property (name property_type : string) (properties : list (string * value))
    : res (list (string * value)) :=
  match dget name properties with
  | Some _ => Err InternalError
  | None =>
      match dget property_type DATA_MAP with
      | None => Err KeyError
      | Some t =>
          Ok (dset name (VDict (("type", VStr t) ::
            (if decide (t = "keyword") then [("normalizer", VStr LOWERCASE_NORMALIZER)] else []))) properties)
      end
  end.

Fixpoint add_properties (fields : list (string * string)) (properties : list (string * value))
    : res (list (string * value)) :=
  match fields with
  | [] => Ok properties
  | (name, ty) :: fields' => p ← _add_property name ty properties; add_properties fields' p
  end.

(** The module's [INDEX_SETTINGS] is the state: the mapping holds the object
    itself, and the replication settings are written into it. *)
Definition build_index_mappings (fields : list (string * string)) (replication : Z)
    : ST (list (string * value)) value := λ settings,
  match add_properties fields [] with
  | Err e => (Err e, settings)
  | Ok properties =>
      let settings :=
        if decide (0 < replication)%Z then
          dset "auto_expand_replicas" (VStr (dec (Z.to_nat replication) +:+ "-all"))
            (dset "number_of_replicas" (VStr (dec (Z.to_nat replication))) settings)
        else settings in
      (Ok (VDict [("mappings", VDict [("properties", VDict properties)]); ("settings", VDict settings)]),
       settings)
  end.

(** ** [ElasticSearchDB] *)

(** The scheme read back from the index: its keys in lower case. *)
Definition model_scheme (properties : list (string * value)) : list (string * value) :=
  foldl (λ d kv, dset (lower kv.1) kv.2 d) [] properties.

(** [store]: the document built from the object, field by field of the
    scheme. *)
Definition store_doc (m : Model V) (scheme : list string) (o : obj V) : res (string * list (string * V)) :=
  o ← generic_store m scheme o;
  doc ← res_map (λ k, v ← getattr o k; Ok (k, v)) scheme;
  id ← getattr o (md_primary_key m);
  Ok (md_key m id, doc).

(** The native types [dict_to_source] tells apart. *)
Inductive kind := KBool | KInt | KFloat | KDate | KOther.
Context (kind_of : V → kind) (str : V → string) (strftime : V → string).

Definition _value_converter (v : V) : string :=
  match kind_of v with
  | KBool => lower (str v)
  | KDate => strftime v
  | _ => str v
  end.

(** [$FIELD_NAME = $FIELD_VALUE], quoted unless a boolean or a number. *)
Definition assign (key : string) (v : V) : string :=
  match kind_of v with
  | KBool | KInt | KFloat => "ctx._source." +:+ key +:+ " = " +:+ _value_converter v +:+ ";"
  | _ => "ctx._source." +:+ key +:+ " = '" +:+ _value_converter v +:+ "';"
  end.

Definition dict_to_source (to_update : list (string * V)) : string :=
  join " " (map (λ kv, assign kv.1 kv.2) to_update).

(** [update]: the query and the script sent to the server. *)
Definition update_request (m : Model V) (scheme : list string) (f : filter_tree V) (to_update : list (string * V))
    : res (Qobj * string) :=
  to_update ← generic_update m scheme to_update;
  q ← build m f;
  Ok (q, dict_to_source to_update).

(** ** Properties *)

(** The index maps the texts of a model to keywords with a normalizer, which
    puts in lower case what it stores and what it is asked for. *)
Context {O : Ordering V} (lowered : V → V) (field_types : list (string * string)).

Definition normalized (k : string) : bool :=
  match add_properties field_types [] with
  | Ok properties => match dget k properties with
                     | Some (VDict d) => match dget "normalizer" d with
                                         | Some (VStr n) => bool_decide (n = LOWERCASE_NORMALIZER)
                                         | _ => false
                                         end
                     | _ => false
                     end
  | Err _ => false
  end.
Definition indexed (k : string) (v : V) : V := if normalized k then lowered v else v.

(** [field op value] for the server *)
Definition server_test (k : string) (op : ComparisonOperation) (x v : V) : bool := means op (indexed k x) (indexed k v).

(** What the server's documentation says of queries on a document: [match] on
    a field that is not analysed is equality, [range] compares, both on the
    values as they are indexed; [&] and [|] combine. *)
Class ServerLaws (holds : Qobj → obj V → bool) : Prop := {
  holds_match : ∀ f v o x, o !! f = Some x → holds (QMatch f v) o = server_test f OPERATION_EQ x v;
  holds_lt : ∀ f v o x, o !! f = Some x → holds (QRange f "lt" v) o = server_test f OPERATION_LT x v;
  holds_gt : ∀ f v o x, o !! f = Some x → holds (QRange f "gt" v) o = server_test f OPERATION_GT x v;
  holds_lte : ∀ f v o x, o !! f = Some x → holds (QRange f "lte" v) o = server_test f OPERATION_LEQ x v;
  holds_gte : ∀ f v o x, o !! f = Some x → holds (QRange f "gte" v) o = server_test f OPERATION_GEQ x v;
  holds_and : ∀ a b o, holds (QAnd a b) o = holds a o && holds b o;
  holds_or : ∀ a b o, holds (QOr a b) o = holds a o || holds b o
}.

(** Every field a filter names is one of the model's, and the object has it. *)
Fixpoint fields_ok (m : Model V) (o : obj V) (f : filter_tree V) : Prop :=
  match f with
  | FilterOperationAnd l | FilterOperationOr l => foldr (λ g P, fields_ok m o g ∧ P) True l
  | FilterOperationCompare lhs _ _ =>
      match field_to_str lhs with Ok k => k ∈ md_fields m ∧ is_Some (o !! k) | Err _ => False end
  end.

Lemma fields_ok_list m o l :
  foldr (λ g P, fields_ok m o g ∧ P) True l → Forall (fields_ok m o) l.
Proof. induction l as [|g l IH]; [constructor|]. intros [? ?]. constructor; auto. Qed.

Section semantics.
Context (holds : Qobj → obj V → bool) {SL : ServerLaws holds} (m : Model V) (o : obj V).

Lemma foldl_holds (op : Qobj → Qobj → Qobj) (bop : bool → bool → bool) q qs :
  (∀ a b, holds (op a b) o = bop (holds a o) (holds b o)) →
  holds (foldl op q qs) o = foldl bop (holds q o) ((λ q, holds q o) <$> qs).
Proof.
  intros Hop. revert q. induction qs as [|q' qs IH]; intros q; [done|]. rewrite fmap_cons. cbn [foldl].
  by rewrite IH, Hop.
Qed.

Lemma operation_holds (op : Qobj → Qobj → Qobj) (bop : bool → bool → bool) l q :
  (∀ a b, holds (op a b) o = bop (holds a o) (holds b o)) →
  Forall (λ f, ∀ q, build m f = Ok q → fields_ok m o f → holds q o = satisfied server_test m o f) l →
  Forall (fields_ok m o) l →
  handle_operands op (map (build m) l) = Ok q →
  ∃ b bs, map (satisfied server_test m o) l = b :: bs ∧ holds q o = foldl bop b bs.
Proof.
  intros Hop Hl Hok (a & b & qs & Hqs & ->)%handle_ok.
  exists (holds a o), ((λ q, holds q o) <$> b :: qs). split; [|by apply foldl_holds].
  change (holds a o :: ((λ q, holds q o) <$> b :: qs)) with ((λ q, holds q o) <$> a :: b :: qs).
  apply Forall2_fmap_l in Hqs. induction Hqs as [|f x l' xs Hfx Hrest IH]; [done|].
  apply Forall_cons in Hl as [Hf Hl], Hok as [Hof Hok]. cbn. f_equal; [symmetry; by apply Hf|by apply IH].
Qed.

(** The Elasticsearch storage asks for what the filter says: on every
    object that has the fields the filter names, the query it builds holds
    exactly when the filter, read as [field op value], is satisfied. *)
Theorem es_filter_semantics f q :
  build m f = Ok q → fields_ok m o f → holds q o = satisfied server_test m o f.
Proof.
  revert q. induction f as [l IH|l IH|lhs op v] using filter_nested_ind; intros q.
  - intros Hq Hok%fields_ok_list.
    destruct (operation_holds QAnd andb l q) as (b & bs & Hb & ->); [intros; apply holds_and|done..|].
    change (foldl andb b bs = forallb (satisfied server_test m o) l). by rewrite foldl_andb, (forallb_as_map (satisfied _ _ _)), Hb.
  - intros Hq Hok%fields_ok_list.
    destruct (operation_holds QOr orb l q) as (b & bs & Hb & ->); [intros; apply holds_or|done..|].
    change (foldl orb b bs = existsb (satisfied server_test m o) l). by rewrite foldl_orb, (existsb_as_map (satisfied _ _ _)), Hb.
  - unfold build. cbn [accept_visitor fields_ok satisfied]. unfold handle_compare.
    destruct (field_to_str lhs) as [k|] eqn:Hleft; [|done]. cbn [mbind res_bind].
    intros Hq [Hk [x Hx]]. rewrite Hx.
    assert (Hw : ∃ w, md_to_native m k v = Some w ∧ comparison_conversion op k w = Ok q).
    { unfold to_native in *. rewrite decide_True in * by done.
      destruct lhs as [s|s|]; cbn in Hleft; [injection Hleft as ->..|done];
        destruct (md_to_native m k v) as [w|]; cbn in Hq; try done; eauto. }
    destruct Hw as (w & -> & Hc).
    destruct op; cbn in Hc; try done; injection Hc as <-.
    + by apply holds_gt.
    + by apply holds_lt.
    + by apply holds_match.
    + by apply holds_lte.
    + by apply holds_gte.
Qed.

End semantics.

End es.
Arguments Qobj : clear implicits.

(** ** The storage on its server

    The client of the server is a parameter, with the exceptions it raises for
    a lost connection and for a conflict; the calls that the storage makes in
    the threads of a pool are made here one after the other, as it awaits
    them. *)

Record config := Config { cf_hosts : list string; cf_port : Z; cf_login : string; cf_password : string; cf_replication : Z }.

Class Client (V W : Type) := {
  es_connect : list (string * Z) → option (string * string) → ST W unit;     (* Elasticsearch(hosts, http_auth), which sniffs *)
  es_get_alias : string → ST W (list (string * value));
  es_create : string → value → ST W unit;
  es_get_index : string → ST W (list (string * value));
  es_index : string → string → list (string * V) → ST W value;               (* index, id, body *)
  es_refresh : string → ST W unit;
  es_search : string → Search (V:=V) → ST W (list (list (string * V)));      (* hit.to_dict() of the hits *)
  es_update : string → Qobj V → string → ST W Z;                             (* query and script: updated *)
  es_delete : string → Qobj V → ST W Z;                                      (* deleted *)
  es_count : string → option (Qobj V) → ST W Z;                              (* None: match_all *)
  is_connection_error : exn → bool;
  is_conflict_error : exn → bool
}.

Section storage.
Context {V W : Type} {CL : Client V W}.
Context (m : Model V) (field_types : list (string * string)) (model_of : list (string * V) → res (obj V)).
Context (kind_of : V → kind) (str strftime : V → string).

(** The attributes of the class, the module's [INDEX_SETTINGS], and the
    server.  Nothing ever assigns [thread_pool]: the pool is kept as [pool]. *)
Record process := Process {
  elastic_instance : bool; thread_pool : bool; pool : bool; loop : bool;
  index_settings : list (string * value);
  server : W
}.
Definition on_server {A} (c : ST W A) : ST process A := λ p,
  let '(r, w) := c (server p) in
  (r, Process (elastic_instance p) (thread_pool p) (pool p) (loop p) (index_settings p) w).
Definition on_settings {A} (c : ST (list (string * value)) A) : ST process A := λ p,
  let '(r, s) := c (index_settings p) in
  (r, Process (elastic_instance p) (thread_pool p) (pool p) (loop p) s (server p)).

(** An instance of [ElasticSearchDB] *)
Record db := Db { db_index : string; db_scheme : option (list (string * value)) }.

Definition connect (c : config) : ST process unit :=
  let auth := if decide (cf_login c = "") then None else Some (cf_login c, cf_password c) in
  on_server (es_connect ((λ x, (x, cf_port c)) <$> cf_hosts c) auth) ;;;
  λ p, (Ok tt, Process true (thread_pool p) true true (index_settings p) (server p)).

(** [self._index_info[self._index]["mappings"]["properties"]] *)
Definition properties_of (index : string) (info : list (string * value)) : res (list (string * value)) :=
  let item k (v : value) :=
    match v with
    | VDict d => match dget k d with Some x => Ok x | None => Err KeyError end
    | _ => Err TypeError
    end in
  i ← item index (VDict info);
  mappings ← item "mappings" i;
  properties ← item "properties" mappings;
  match properties with VDict d => Ok d | _ => Err AttributeError end.

Definition raised_as (P : exn → bool) (e' : exn) {S A} (c : ST S A) : ST S A := λ s,
  match c s with (Err e, s') => (Err (if P e then e' else e), s') | r => r end.

(** A missing alias, and one that is [None], are the same to [get]. *)
Definition attach_to_index (d : db) (replication : Z) : ST process db :=
  let! indices := raised_as is_connection_error DataAccessExternalError (on_server (es_get_alias (db_index d))) in
  (if is_null (default VNull (dget (db_index d) indices)) then
     let! mappings_dict := on_settings (build_index_mappings field_types replication) in
     on_server (es_create (db_index d) mappings_dict)
   else st_ret tt) ;;;
  let! info := on_server (es_get_index (db_index d)) in
  let! properties := st_lift (properties_of (db_index d) info) in
  st_ret (Db (db_index d) (Some (model_scheme properties))).

(** [all((cls.elastic_instance, cls.thread_pool, cls.loop))] *)
Definition initialised (p : process) : bool := elastic_instance p && thread_pool p && loop p.
Definition create_database (c : config) (collection : string) (create_schema : bool) : ST process db :=
  (λ p, (if initialised p then st_ret tt else connect c) p) ;;;
  let d := Db collection None in
  if create_schema then raised_as is_exception DataAccessExternalError (attach_to_index d (cf_replication c))
  else st_ret d.

(** *** The operations of an instance *)

Definition scheme_of (d : db) : res (list string) :=
  match db_scheme d with Some s => Ok (dkeys s) | None => Err AttributeError end.

Definition _refresh_index (d : db) : ST process unit := on_server (es_refresh (db_index d)).

(** An instance without a scheme validates the object first, and raises. *)
Definition store (d : db) (o : obj V) : ST process value :=
  match md_validate m o with None => st_raise DataAccessInternalError | Some _ =>
  let! scheme := st_lift (scheme_of d) in
  let! (obj_id, doc) := st_lift (store_doc m scheme o) in
  let! result := on_server (es_index (db_index d) obj_id doc) in
  _refresh_index d ;;; st_ret result
  end.

Definition get (d : db) (q : Query V) (string_field_type : option string) : ST process (list (obj V)) :=
  let! search := st_lift (search_by_query m q string_field_type) in
  let! result := on_server (es_search (db_index d) search) in
  st_lift (res_map model_of result).

Definition update (d : db) (f : filter_tree V) (to_update : list (string * V)) : ST process Z :=
  let! scheme := st_lift (scheme_of d) in
  let! (filter_by, source) := st_lift (update_request kind_of str strftime m scheme f to_update) in
  let! updated := on_server (es_update (db_index d) filter_by source) in
  _refresh_index d ;;; st_ret updated.

Definition delete (d : db) (f : filter_tree V) : ST process Z :=
  let! filter_by := st_lift (build m f) in
  _refresh_index d ;;;
  raised_as is_conflict_error DataAccessExternalError (on_server (es_delete (db_index d) filter_by)).

Definition count (d : db) (f : option (filter_tree V)) : ST process Z :=
  let! q := st_lift (match f with Some f => q ← build m f; Ok (Some q) | None => Ok None end) in
  on_server (es_count (db_index d) q).

(** [count_by_query] is not implemented. *)
Definition count_by_query : ST process unit := st_ret tt.

(** *** The [_by_id] methods of [GenericDataBase] *)

Definition get_by_id (d : db) (obj_id : V) : ST process (option (obj V)) :=
  let! f := st_lift (id_filter m obj_id) in
  let! result := get d (MkQuery None (Some f) None None) None in
  st_ret (last result).
Definition delete_by_id (d : db) (obj_id : V) : ST process bool :=
  let! f := st_lift (id_filter m obj_id) in
  let! n := delete d f in st_ret (0 <? n)%Z.
Definition update_by_id (d : db) (obj_id : V) (to_update : list (string * V)) : ST process bool :=
  let! f := st_lift (id_filter m obj_id) in
  let! n := update d f to_update in st_ret (0 <? n)%Z.

End storage.

(** ** What the storage does to the documents of its index *)

Section documents.
Context {V W : Type} {CL : Client V W} {O : Ordering V} (lowered : V → V) (field_types : list (string * string)).
Context (holds : Qobj V → obj V → bool) {SL : ServerLaws lowered field_types holds}.
Notation server_test := (server_test lowered field_types).

(** The documents of an index, and what the server's documentation says of the
    calls that count and delete: they reach the documents that the query holds
    of, once the index was refreshed. *)
Class ServerDocs (docs : W → string → list (string * obj V)) : Prop := {
  docs_refresh : ∀ i w, docs (es_refresh i w).2 = docs w;
  docs_count : ∀ i q w n w', es_count i (Some q) w = (Ok n, w') →
    docs w' = docs w ∧ n = Z.of_nat (length (filter (λ d, holds q d.2 = true) (docs w i)));
  docs_delete : ∀ i q w n w', es_delete i q w = (Ok n, w') →
    n = Z.of_nat (length (filter (λ d, holds q d.2 = true) (docs w i))) ∧
    docs w' i = filter (λ d, ¬ holds q d.2 = true) (docs w i) ∧
    ∀ j, j ≠ i → docs w' j = docs w j
}.
Context (docs : W → string → list (string * obj V)) {SD : ServerDocs docs}.
Context (m : Model V) (d : db).

(** The objects of the storage, and those that a filter selects *)
Definition objects (p : process) : list (string * obj V) := docs (server p) (db_index d).
Definition selected (f : filter_tree V) (l : list (string * obj V)) : list (string * obj V) :=
  filter (λ x, satisfied server_test m x.2 f = true) l.
Definition unselected (f : filter_tree V) (l : list (string * obj V)) : list (string * obj V) :=
  filter (λ x, ¬ satisfied server_test m x.2 f = true) l.

Lemma query_selects f q l :
  build m f = Ok q → Forall (λ x, fields_ok m x.2 f) l →
  filter (λ x, holds q x.2 = true) l = selected f l ∧ filter (λ x, ¬ holds q x.2 = true) l = unselected f l.
Proof.
  intros Hq Hl. assert (Hx : Forall (λ x, holds q x.2 = true ↔ satisfied server_test m x.2 f = true) l).
  { eapply Forall_impl; [exact Hl|]. intros x Hx. by rewrite (es_filter_semantics lowered field_types holds m x.2 f q Hq Hx). }
  unfold selected, unselected. clear Hl.
  induction Hx as [|x l Hx _ [IH1 IH2]]; [done|]. rewrite !filter_cons, IH1, IH2. by repeat case_decide; tauto || (split; f_equal).
Qed.

Lemma on_server_run {A} (c : ST W A) (p : process) r p' :
  on_server c p = (r, p') → c (server p) = (r, server p').
Proof. unfold on_server. destruct (c (server p)) as [r1 w]. by intros [= <- <-]. Qed.

Lemma es_delete_run f n (p p' : process) :
  delete m d f p = (Ok n, p') → Forall (λ x, fields_ok m x.2 f) (objects p) →
  n = Z.of_nat (length (selected f (objects p))) ∧ objects p' = unselected f (objects p) ∧
  ∀ j, j ≠ db_index d → docs (server p') j = docs (server p) j.
Proof.
  unfold delete. intros Hrun Hok.
  apply st_bind_ok in Hrun as (q & p1 & Hq & Hrun). unfold st_lift in Hq. injection Hq as Hq <-.
  apply st_bind_ok in Hrun as ([] & p2 & Href & Hrun). apply on_server_run in Href.
  pose proof (docs_refresh (db_index d) (server p)) as Hdocs. rewrite Href in Hdocs. cbn in Hdocs.
  unfold raised_as in Hrun. destruct (on_server _ p2) as [[n'|e] p3] eqn:Hdel; [|done].
  injection Hrun as -> ->. apply on_server_run, docs_delete in Hdel as (Hn & Hi & Hj). rewrite Hdocs in *.
  destruct (query_selects f q (objects p) Hq Hok) as [Hs Hu]. unfold objects in *. rewrite Hs in Hn. rewrite Hu in Hi.
  by split_and!.
Qed.

(** C40. A deletion that returns has taken away the objects that the filter,
    read as [field op value], selects, and no other, in this index and in the
    others; it answers how many there were.  Texts are compared in lower case,
    as the index that the storage creates holds them. *)
Theorem es_delete_exact f n (p p' : process) :
  delete m d f p = (Ok n, p') → Forall (λ x, fields_ok m x.2 f) (objects p) →
  n = Z.of_nat (length (selected f (objects p))) ∧ objects p' = unselected f (objects p) ∧
  ∀ j, j ≠ db_index d → docs (server p') j = docs (server p) j.
Proof. apply es_delete_run. Qed.

(** What a filter selected is not counted after it was deleted. *)
Lemma es_delete_count f n k (p p' p'' : process) :
  delete m d f p = (Ok n, p') → count m d (Some f) p' = (Ok k, p'') → Forall (λ x, fields_ok m x.2 f) (objects p) → k = 0%Z.
Proof.
  intros Hdel Hcount Hok. destruct (es_delete_run f n p p' Hdel Hok) as (_ & Hp' & _).
  unfold count in Hcount. apply st_bind_ok in Hcount as (q & p1 & Hq & Hrun). unfold st_lift in Hq. injection Hq as Hq <-.
  destruct (build m f) as [b|] eqn:Hb; [|done]. injection Hq as <-. apply on_server_run, docs_count in Hrun as [_ ->].
  fold (objects p'). rewrite Hp'. assert (Hok' : Forall (λ x, fields_ok m x.2 f) (unselected f (objects p))) by by rewrite Forall_forall in *; intros x [_ Hx]%list_elem_of_filter; apply Hok.
  destruct (query_selects f b _ Hb Hok') as [-> _].
  destruct (selected f (unselected f (objects p))) as [|x l] eqn:Hx; [done|]. exfalso.
  assert (Hin : x ∈ selected f (unselected f (objects p))) by (rewrite Hx; by left).
  by apply list_elem_of_filter in Hin as [? [? _]%list_elem_of_filter].
Qed.

End documents.

(** ** The pool *)

Section pool.
Context {V W : Type} {CL : Client V W}.
Notation process := (process (W:=W)).

Definition keeps_pool {A} (c : ST process A) : Prop := ∀ p, thread_pool (c p).2 = thread_pool p.

Lemma pool_bind {A B} (c : ST process A) (f : A → ST process B) :
  keeps_pool c → (∀ a, keeps_pool (f a)) → keeps_pool (st_bind c f).
Proof.
  intros Hc Hf p. unfold st_bind. specialize (Hc p). destruct (c p) as [[a|e] p1]; [|done]. by rewrite Hf.
Qed.
Lemma pool_server {A} (c : ST W A) : keeps_pool (on_server c).
Proof. intros p. unfold on_server. by destruct (c (server p)). Qed.
Lemma pool_settings {A} (c : ST (list (string * value)) A) : keeps_pool (on_settings (W:=W) c).
Proof. intros p. unfold on_settings. by destruct (c (index_settings p)). Qed.
Lemma pool_lift {A} (r : res A) : keeps_pool (st_lift r).
Proof. done. Qed.
Lemma pool_raised P e {A} (c : ST process A) : keeps_pool c → keeps_pool (raised_as P e c).
Proof. intros Hc p. unfold raised_as. specialize (Hc p). by destruct (c p) as [[a|e'] p1]. Qed.

Lemma pool_attach field_types d replication : keeps_pool (attach_to_index (V:=V) field_types d replication).
Proof.
  apply pool_bind; [apply pool_raised, pool_server|]. intros indices. apply pool_bind.
  - destruct (is_null _); [|done]. apply pool_bind; [apply pool_settings|]. intros b. apply pool_server.
  - intros _. apply pool_bind; [apply pool_server|]. intros info. by apply pool_bind.
Qed.

(** Every creation of a storage connects anew: the pool is kept under another
    name than the one that is tested. *)
Lemma es_reconnects field_types c collection create_schema (p : process) :
  thread_pool p = false → initialised (create_database (V:=V) field_types c collection create_schema p).2 = false.
Proof.
  intros Hp. unfold initialised.
  enough (thread_pool (create_database field_types c collection create_schema p).2 = false) as -> by by rewrite andb_false_r.
  rewrite <- Hp. unfold create_database. apply pool_bind.
  - intros p0. destruct (initialised p0); [done|]. unfold connect. apply pool_bind; [apply pool_server|done].
  - intros _. destruct create_schema; [|done]. by apply pool_raised, pool_attach.
Qed.

End pool.

Lemma dget_settings (r : Z) settings :
  dget "number_of_replicas"
    (dset "auto_expand_replicas" (VStr (dec (Z.to_nat r) +:+ "-all"))
       (dset "number_of_replicas" (VStr (dec (Z.to_nat r))) settings)) = Some (VStr (dec (Z.to_nat r))).
Proof. rewrite dget_dset_ne by done. apply dget_dset_eq. Qed.

(** Replication settings leak between indexes: once an index was
    described with replicas, every later index described without is given the
    replicas of the earlier one. *)
Theorem es_settings_leak fields1 fields2 r settings mapping1 mapping2 settings1 settings2 :
  (0 < r)%Z →
  build_index_mappings fields1 r settings = (Ok mapping1, settings1) →
  build_index_mappings fields2 0 settings1 = (Ok mapping2, settings2) →
  ∃ mappings items, mapping2 = VDict [("mappings", mappings); ("settings", VDict items)] ∧
    dget "number_of_replicas" items = Some (VStr (dec (Z.to_nat r))).
Proof.
  intros Hr. unfold build_index_mappings.
  destruct (add_properties fields1 []) as [p1|]; [|done]. rewrite decide_True by done. intros [= _ <-].
  destruct (add_properties fields2 []) as [p2|]; [|done]. rewrite decide_False by lia. intros [= <- _].
  eexists _, _. split; [done|]. apply dget_settings.
Qed.

(** ** Executions *)

Section string_server.
(** A server over texts, and a model that converts nothing. *)
#[local] Instance strings : Ordering string := {
  v_eqb a b := bool_decide (a = b); v_ltb := String.ltb; v_contains := contains }.

Definition text_fields : list (string * string) := [("id", "StringType"); ("sev", "StringType")].
Notation test := (server_test lower text_fields).

Fixpoint string_holds (q : Qobj string) (o : obj string) : bool :=
  match q with
  | QMatch f v => match o !! f with Some x => test f OPERATION_EQ x v | None => false end
  | QRange f op v =>
      match o !! f with
      | Some x => test f (if decide (op = "lt") then OPERATION_LT else if decide (op = "gt") then OPERATION_GT
                          else if decide (op = "lte") then OPERATION_LEQ else OPERATION_GEQ) x v
      | None => false
      end
  | QAnd a b => string_holds a o && string_holds b o
  | QOr a b => string_holds a o || string_holds b o
  end.

#[local] Instance string_laws : ServerLaws lower text_fields string_holds.
Proof. constructor; intros; cbn [string_holds]; by simplify_option_eq. Qed.

Definition string_model : Model string := {|
  md_fields := ["id"; "sev"]; md_primary_key := "id"; md_is_string _ := true;
  md_to_native _ v := Some v; md_validate o := Some o; md_dumps _ := ""; md_loads _ := Err ValueError;
  md_key v := v
|}.

Definition high : filter_tree string :=
  FilterOperationAnd [FilterOperationCompare (FieldName "sev") OPERATION_GT "3";
                      FilterOperationCompare (FieldName "id") OPERATION_EQ "N1"].

Lemma es_filter_semantics_witness :
  let o : obj string := <["id" := "n1"]> {["sev" := "5"]} in
  string_holds (QAnd (QRange "sev" "gt" "3") (QMatch "id" "N1")) o = satisfied test string_model o high.
Proof.
  intros o. apply (es_filter_semantics lower text_fields string_holds string_model o high
                     (QAnd (QRange "sev" "gt" "3") (QMatch "id" "N1"))).
  - reflexivity.
  - repeat split; first [set_solver|by eexists].
Defined.

(** A server with one index *)
Notation logs := (list (string * obj string)).
Definition docs_of (w : logs) (i : string) : logs := if decide (i = "logs") then w else [].
Definition hits (q : option (Qobj string)) (x : string * obj string) : bool :=
  match q with Some q => string_holds q x.2 | None => true end.
Definition counted (q : option (Qobj string)) (l : logs) : Z := Z.of_nat (length (filter (λ x, hits q x = true) l)).
#[local] Instance one_index : Client string logs := {
  es_connect _ _ := st_ret tt;
  es_get_alias _ := st_ret [];
  es_create _ _ := st_ret tt;
  es_get_index _ := st_ret [];
  es_index i id doc w := (Ok VNull, if decide (i = "logs") then w ++ [(id, list_to_map doc)] else w);
  es_refresh _ := st_ret tt;
  es_search i s w := (Ok (map_to_list ∘ snd <$> filter (λ x, hits (s_query s) x = true) (docs_of w i)), w);
  es_update _ _ _ := st_ret 0%Z;
  es_delete i q w := if decide (i = "logs") then (Ok (counted (Some q) w), filter (λ x, ¬ hits (Some q) x = true) w)
                     else (Ok 0%Z, w);
  es_count i q w := (Ok (counted q (docs_of w i)), w);
  is_connection_error _ := false;
  is_conflict_error _ := false
}.
#[local] Instance one_index_docs : ServerDocs string_holds docs_of.
Proof.
  constructor; [done|by intros i q w n w' [= <- <-]|]. intros i q w n w'. cbn [es_delete one_index]. unfold docs_of.
  case_decide; intros [= <- <-]; [|done]. split; [done|]. split; [done|].
  intros j Hj. by rewrite !decide_False by congruence.
Qed.

Definition record (id sev : string) : string * obj string := (id, <["id" := id]> {["sev" := sev]}).
Definition stored : process (W:=logs) :=
  Process true false true true INDEX_SETTINGS [record "n1" "5"; record "n2" "5"; record "n1" "2"].

(** The index takes the name N1 for n1. *)
Lemma es_delete_exact_witness :
  (delete string_model (Db "logs" None) high stored).1 = Ok 1%Z ∧
  objects docs_of (Db "logs" None) (delete string_model (Db "logs" None) high stored).2 = [record "n2" "5"; record "n1" "2"] ∧
  1%Z = Z.of_nat (length (selected lower text_fields string_model high (server stored))).
Proof.
  split; [vm_compute; reflexivity|]. split; [vm_compute; reflexivity|].
  apply (es_delete_exact lower text_fields string_holds docs_of string_model (Db "logs" None) high 1 stored
    (delete string_model (Db "logs" None) high stored).2).
  - vm_compute. reflexivity.
  - repeat apply Forall_cons_2; [..|apply Forall_nil_2]; repeat split; first [set_solver|by eexists].
Defined.
End string_server.

Definition mapping_of (fields : list (string * string)) (r : Z) (settings : list (string * value)) : value :=
  match (build_index_mappings fields r settings).1 with Ok v => v | Err _ => VNull end.
Definition settings_of (fields : list (string * string)) (r : Z) (settings : list (string * value))
  : list (string * value) := (build_index_mappings fields r settings).2.

Lemma es_settings_leak_witness :
  let s1 := settings_of [("id", "StringType")] 2 INDEX_SETTINGS in
  ∃ mappings items, mapping_of [("n", "IntType")] 0 s1 = VDict [("mappings", mappings); ("settings", VDict items)] ∧
    dget "number_of_replicas" items = Some (VStr "2").
Proof.
  apply (es_settings_leak [("id", "StringType")] [("n", "IntType")] 2 INDEX_SETTINGS
           (mapping_of [("id", "StringType")] 2 INDEX_SETTINGS)
           (mapping_of [("n", "IntType")] 0 (settings_of [("id", "StringType")] 2 INDEX_SETTINGS))
           (settings_of [("id", "StringType")] 2 INDEX_SETTINGS)
           (settings_of [("n", "IntType")] 0 (settings_of [("id", "StringType")] 2 INDEX_SETTINGS)));
    reflexivity.
Defined.

End Es.
