(* ===== verification/HaDecision.v ===== *)
(** [utils/ha/dm/]: the rule engine and the decision maker
    ([decision_maker.py]), the decision repository ([repository/decisiondb.py],
    [models/decisiondb.py]) and the decision monitor ([decision_monitor.py]).

    Alerts, rules and configuration files are JSON values.  The repository
    works on the interface [storage] of a database; [consul_storage] is the
    Consul one.  The [asyncio.wait_for] of the monitor raises inside the
    storage operation that is late. *)
From Stdlib Require Import Ascii.
From S2P Require Import Prelude PyStr PyVal DataAccess ConsulDb.
Import PyStr Data.

Module Ha.

(** ** Dictionary reads of the source *)

(** [v.get(k)] and [v.get(k, d)] with a literal key *)
Definition vget_or (v : value) (k : string) (d : value) : res value :=
  match v with
  | VDict items => Ok (default d (dget k items))
  | _ => Err AttributeError
  end.
Definition vget (v : value) (k : string) : res value := vget_or v k VNull.

(** [v.get(key, d)] with any key: lists and dictionaries are not hashable, and
    the keys of a JSON document are strings. *)
Definition vget_key_or (v key d : value) : res value :=
  match v, key with
  | VDict items, VStr k => Ok (default d (dget k items))
  | VDict _, (VList _ | VDict _) => Err TypeError
  | VDict _, _ => Ok d
  | _, _ => Err AttributeError
  end.
Definition vget_key (v key : value) : res value := vget_key_or v key VNull.

(** [v[k]] with a literal key *)
Definition vitem (v : value) (k : string) : res value :=
  match v with
  | VDict items => match dget k items with Some x => Ok x | None => Err KeyError end
  | _ => Err TypeError
  end.

(** [l[z]]: a negative index counts from the end. *)
Definition seq_item {A} (l : list A) (z : Z) : res A :=
  let n := Z.of_nat (length l) in
  let i := if decide (z < 0)%Z then (z + n)%Z else z in
  if decide (i < 0)%Z then Err IndexError else
  match l !! Z.to_nat i with Some x => Ok x | None => Err IndexError end.

Definition chars (s : string) : list value :=
  map (λ c, VStr (sep c)) (String.list_ascii_of_string s).

(** [for x in v] *)
Definition iter_values (v : value) : res (list value) :=
  match v with
  | VList l => Ok l
  | VStr s => Ok (chars s)
  | VDict items => Ok (map VStr (dkeys items))
  | _ => Err TypeError
  end.

(** [v[key]] with any key *)
Definition vitem_key (v key : value) : res value :=
  match v, key with
  | VDict _, VStr k => vitem v k
  | VDict _, (VList _ | VDict _) => Err TypeError
  | VDict _, _ => Err KeyError
  | VList l, VInt z => seq_item l z
  | VList l, VBool b => seq_item l (if b then 1 else 0)
  | VStr s, VInt z => seq_item (chars s) z
  | VStr s, VBool b => seq_item (chars s) (if b then 1 else 0)
  | _, _ => Err TypeError
  end.

(** [for x in v] *)
Definition py_iter (v : value) : res (list value) :=
  match v with
  | VList l => Ok l
  | VDict d => Ok (map VStr (dkeys d))
  | VStr s => Ok (chars s)
  | _ => Err TypeError
  end.

(** [x in v] *)
Definition py_in (x v : value) : res bool :=
  match v, x with
  | VList l, _ => Ok (existsb (py_eq x) l)
  | VDict d, VStr k => Ok (bool_decide (k ∈ dkeys d))
  | VDict _, (VList _ | VDict _) => Err TypeError
  | VDict _, _ => Ok false
  | VStr s, VStr p => Ok (contains s p)
  | _, _ => Err TypeError
  end.

(** ** [RuleEngine] *)

(** [_load_rules]: what [open(...).read()] gives, an [OSError] being logged
    whatever its number. *)
Definition _load_rules (json_loads : string → res value) (rule_file : option (res string)) : res value :=
  match rule_file with
  | None => Ok VNull
  | Some (Err (OSError _)) => Ok VNull
  | Some (Err e) => Err e
  | Some (Ok rules_data) => if decide (rules_data = "") then Ok VNull else json_loads rules_data
  end.

Definition IEM : value := VStr "iem".

(** The fields of an alert the rules look at. *)
Record fields := Fields {
  f_res_type : value;
  f_alert_type : value;
  f_severity : value;
  f_component : value;    (* component_var *)
  f_module : value        (* module_var *)
}.

(** One rule: [None] when it does not match, its action otherwise.  The
    comparisons stop at the first that fails. *)
Definition match_rule (f : fields) (item : value) : res (option value) :=
  a ← vitem item "alert_type";
  if negb (py_eq (f_alert_type f) a) then Ok None else
  s ← vitem item "severity";
  if negb (py_eq (f_severity f) s) then Ok None else
  if py_eq (f_res_type f) IEM then
    c ← vitem item "component_id";
    if negb (py_eq (f_component f) c) then Ok None else
    m ← vitem item "module_id";
    if negb (py_eq (f_module f) m) then Ok None else
    x ← vitem item "action"; Ok (Some x)
  else x ← vitem item "action"; Ok (Some x).

(** The loop over the rules of the resource type. *)
Fixpoint match_rules (f : fields) (action : value) (items : list value) : res value :=
  match items with
  | [] => Ok action
  | item :: items' => r ← match_rule f item; match_rules f (default action r) items'
  end.

Definition sensor_response (alert : value) : res value :=
  m ← vget alert "message"; vget m "sensor_response_type".

(** The reads of [evaluate_alert]; no fields when the alert has no resource
    type. *)
Definition alert_fields (alert : value) : res (option fields) :=
  sr ← sensor_response alert;
  info ← vget sr "info";
  res_type ← vget info "resource_type";
  if is_null res_type then Ok None else
  alert_type ← vget sr "alert_type";
  severity ← vget sr "severity";
  if py_eq res_type IEM then
    si ← vget sr "specific_info";
    component_var ← vget si "component";
    si2 ← vget sr "specific_info";
    module_var ← vget si2 "module";
    Ok (Some (Fields res_type alert_type severity component_var module_var))
  else Ok (Some (Fields res_type alert_type severity (VStr "") (VStr ""))).

Definition evaluate_alert (rules_schema alert : value) : res value :=
  if negb (truthy rules_schema) then Ok VNull else
  fs ← alert_fields alert;
  match fs with
  | None => Ok VNull
  | Some f =>
      res_type_data ← vitem_key rules_schema (f_res_type f);
      if is_null res_type_data then Ok VNull
      else items ← py_iter res_type_data; match_rules f VNull items
  end.

(** ** [DecisionDB] *)

(** The operations of [self.storage(DecisionModel)]. *)
Record storage (W : Type) := Storage {
  s_store : obj value → ST W unit;
  s_get : Query value → ST W (list (obj value));
  s_delete : filter_tree value → ST W Z
}.
Arguments s_store {_} _ _.
Arguments s_get {_} _ _.
Arguments s_delete {_} _ _.
Arguments Storage {_} _ _ _.

Definition consul_storage {W} `{Consul.ConsulKV W} `{PyValues value} (c : Consul.db value) : storage W :=
  Storage (Consul.store c) (Consul.get c) (Consul.delete c).

Definition as_str (v : value) : res string :=
  match v with VStr s => Ok s | _ => Err TypeError end.

(** ["/".join(decision_payload)] *)
Definition create_decision_id (decision_payload : list value) : res string :=
  parts ← res_map as_str decision_payload; Ok (join "/" parts).

Definition instantiate_decision (decision_id : string) (action alert_time : value) : obj value :=
  <["decision_id" := VStr decision_id]> (<["action" := action]> {["alert_time" := alert_time]}).

Section decisiondb.
Context {W : Type} (db : storage W).

Definition store_event (entity entity_id component component_id alert_time action : value) : ST W unit :=
  let! decision_id := st_lift (create_decision_id [entity; entity_id; component; component_id; alert_time]) in
  s_store db (instantiate_decision decision_id action alert_time).

Definition get_event (entity entity_id component component_id alert_time : value)
    : ST W (list (obj value)) :=
  let! decision_id := st_lift (create_decision_id [entity; entity_id; component; component_id; alert_time]) in
  let! f := st_lift (Compare (FieldType "decision_id") "=" (VStr decision_id)) in
  s_get db (filter_by f query_init).

Definition like_filter (decision_id : string) : res (filter_tree value) :=
  Compare (FieldType "decision_id") "like" (VStr decision_id).

Definition get_event_time (entity entity_id component component_id : value) (sort_by : option OrderBy)
    : ST W (list (obj value)) :=
  let! decision_id := st_lift (create_decision_id [entity; entity_id; component; component_id]) in
  let! f := st_lift (like_filter decision_id) in
  let query := filter_by f query_init in
  s_get db (match sort_by with Some s => order_by (ob_field s) (ob_order s) query | None => query end).

Definition delete_event (entity entity_id component component_id : value) : ST W unit :=
  let! decision_id := st_lift (create_decision_id [entity; entity_id; component; component_id]) in
  let! f := st_lift (like_filter decision_id) in
  s_delete db f ;;; st_ret tt.

End decisiondb.

(** ** [DecisionMaker] *)

Section maker.
(** [self._conf] *)
Context (conf : value).

Definition nw_interface (kind : string) (host_id : value) : res value :=
  if truthy conf then
    network ← vget conf "network"; host ← vget_key network host_id; vget host kind
  else Ok (VList []).

Definition _get_data_nw_interface (host_id : value) : res value := nw_interface "data_iface" host_id.
Definition _get_mgmt_nw_interface (host_id : value) : res value := nw_interface "mgmt_iface" host_id.

Definition _get_host_id (node_id : value) : res value :=
  if truthy conf then nodes ← vget conf "nodes"; vget_key nodes node_id else Ok (VStr "").

Definition _get_component_id_for_nic (host_id resource_id : value) : res string :=
  data ← _get_data_nw_interface host_id;
  b ← py_in resource_id data;
  if b : bool then Ok "data" else
  mgmt ← _get_mgmt_nw_interface host_id;
  b ← py_in resource_id mgmt;
  if b : bool then Ok "mgmt" else Ok "".

Definition NIC : string := "node:interface:nw".
Definition NIC_CABLE : string := "node:interface:nw:cable".

(** [d[k] == s] for an entry that is there *)
Definition entry_is (d : list (string * value)) (k s : string) : bool :=
  match dget k d with Some v => py_eq v (VStr s) | None => false end.

(** [_set_db_key_info] after the reads: the entries 2 to 4 of the source. *)
Definition key_info_base (resource_type : string) (specific_component event_time host_id : value)
    : list (string * value) :=
  let res_list := split ":" resource_type in
  let info := [("event_time", event_time)] in
  let info :=
    if decide (resource_type = "iem") then
      dset "component_id" specific_component (dset "component" (VStr resource_type)
        (dset "entity" (VStr "node") info))
    else dset "entity" (VStr (default "" (head res_list))) info in
  let info := dset "entity_id" (if entry_is info "entity" "node" then host_id else VStr "0") info in
  if decide (1 < length res_list) then dset "component" (VStr (List.last res_list "")) info
  else if entry_is info "entity" "enclosure" then
    dset "component_id" host_id (dset "component" (VStr "connectivity") info)
  else info.

Definition _set_db_key_info (sr : value) : res (list (string * value)) :=
  info ← vget sr "info";
  resource_type ← vget info "resource_type";
  resource_id ← vget info "resource_id";
  node_id ← vget info "node_id";
  host_id ← _get_host_id node_id;
  event_time ← vget info "event_time";
  match resource_type with
  | VStr rt =>
      specific ← (if decide (rt = "iem") then si ← vget sr "specific_info"; vget si "component" else Ok VNull);
      let info_dict := key_info_base rt specific event_time host_id in
      component ← vitem (VDict info_dict) "component";
      if py_eq component (VStr "controller") then Ok (dset "component_id" host_id info_dict)
      else if decide (rt = NIC ∨ rt = NIC_CABLE) then
        comp_id ← _get_component_id_for_nic host_id resource_id;
        if decide (comp_id = "") then Ok [] else Ok (dset "component_id" (VStr comp_id) info_dict)
      else if decide (rt = "iem" ∨ rt = "enclosure") then Ok info_dict
      else Ok (dset "component_id" resource_id info_dict)
  | _ => Err AttributeError
  end.

Context {W : Type} (db : storage W).

(** [try: ... except Exception: Log.error(...)] *)
Definition logged (m : ST W unit) : ST W unit := λ w, (Ok tt, (m w).2).

Definition _store_action (alert action : value) : ST W unit :=
  logged (
    let! sr := st_lift (sensor_response alert) in
    let! info_dict := st_lift (_set_db_key_info sr) in
    if negb (truthy (VDict info_dict)) then st_ret tt else
    let! entity := st_lift (vitem (VDict info_dict) "entity") in
    let! entity_id := st_lift (vitem (VDict info_dict) "entity_id") in
    let! component := st_lift (vitem (VDict info_dict) "component") in
    let! component_id := st_lift (vitem (VDict info_dict) "component_id") in
    let! event_time := st_lift (vitem (VDict info_dict) "event_time") in
    store_event db entity entity_id component component_id event_time action).

Definition handle_alert (rules_schema alert : value) : ST W unit :=
  logged (
    if is_null alert then st_ret tt else
    let! action := st_lift (evaluate_alert rules_schema alert) in
    if is_null action then st_ret tt else _store_action alert action).

End maker.

(** ** [DecisionMonitor] *)

Definition FAILED : value := VStr "failed".
Definition RESOLVED : value := VStr "resolved".
Definition OK : value := VStr "ok".

Section monitor.
(** [self._resource_file] *)
Context {W : Type} (db : storage W) (resource_file : value).

(** The keyword arguments [**resource_key] of [get_event_time] and of
    [delete_event]: the four parts of the key; [get_event_time] takes further
    names, except the one it is called with. *)
Definition key_args (resource_key : value) : res (value * value * value * value) :=
  match resource_key with
  | VDict d =>
      match dget "entity" d, dget "entity_id" d, dget "component" d, dget "component_id" d with
      | Some e, Some i, Some c, Some ci => Ok (e, i, c, ci)
      | _, _, _, _ => Err TypeError
      end
  | _ => Err TypeError
  end.
Definition arg_names : list string := ["entity"; "entity_id"; "component"; "component_id"].

Definition call_get (resource_key : value) : ST W (list (obj value)) :=
  let! args := st_lift (key_args resource_key) in
  let '(e, i, c, ci) := args in
  match resource_key with
  | VDict d =>
      if decide ("sort_by" ∈ dkeys d ∨ "self" ∈ dkeys d) then st_raise TypeError
      else get_event_time db e i c ci (Some (MkOrderBy (FieldType "alert_time") DESC))
  | _ => st_raise TypeError
  end.

Definition call_delete (resource_key : value) : ST W unit :=
  let! args := st_lift (key_args resource_key) in
  let '(e, i, c, ci) := args in
  match resource_key with
  | VDict d =>
      if decide (Exists (λ k, k ∉ arg_names) (dkeys d)) then st_raise TypeError
      else delete_event db e i c ci
  | _ => st_raise TypeError
  end.

Definition resource_key_of (resource : value) : res value :=
  resources ← vget_or resource_file "resources" (VDict []); vget_key_or resources resource (VDict []).

Definition get_resource_status (resource : value) : ST W value :=
  let! resource_key := st_lift (resource_key_of resource) in
  λ w, match call_get resource_key w with
       | (Err _, w') => (Ok OK, w')
       | (Ok [], w') => (Ok OK, w')
       | (Ok (o :: _), w') => (getattr o "action", w')
       end.

Fixpoint group_loop (resources : list value) (group_status : list value) : ST W value :=
  match resources with
  | [] => st_ret (if existsb (py_eq RESOLVED) group_status then RESOLVED else OK)
  | resource :: resources' =>
      let! status := get_resource_status resource in
      if py_eq status FAILED then st_ret status
      else group_loop resources' (group_status ++ [status])
  end.

Definition group_resources (resource_group : string) : res (list value) :=
  groups ← vget_or resource_file "resource_groups" (VDict []);
  l ← vget_or groups resource_group (VList []);
  py_iter l.

Definition get_resource_group_status (resource_group : string) : ST W value :=
  let! resources := st_lift (group_resources resource_group) in
  group_loop resources [].

Definition acknowledge_resource (resource : value) (force : bool) : ST W unit :=
  let! resource_key := st_lift (resource_key_of resource) in
  logged (
    let! go := (if force then st_ret true
                else let! s := get_resource_status resource in st_ret (negb (py_eq s FAILED))) in
    if go : bool then call_delete resource_key else st_ret tt).

Definition acknowledge_resource_group (resource_group : string) : ST W unit :=
  let! resources := st_lift (group_resources resource_group) in
  st_iter (λ resource, acknowledge_resource resource false) resources.

End monitor.

End Ha.
