(* ===== verification/HaDecisionSpec.v ===== *)
(** What the HA decision components promise: which rule decides, which key a
    decision is stored under, which events an acknowledgement deletes, and
    what the status of a resource group is. *)
From Stdlib Require Import Ascii.
From S2P Require Import Prelude PyStr PyVal DataAccess ConsulDb ConsulDbSpec HaDecision.
Import PyStr Data Consul ConsulSpec Ha.

Module HaSpec.

(** ** Rules *)

(** The field of a rule, [None] when it is missing. *)
Definition rule_field (k : string) (item : value) : value :=
  match item with VDict d => default VNull (dget k d) | _ => VNull end.

(** The reading of one rule, without the order of the comparisons. *)
Definition rule_applies (f : fields) (item : value) : bool :=
  py_eq (f_alert_type f) (rule_field "alert_type" item)
  && py_eq (f_severity f) (rule_field "severity" item)
  && (negb (py_eq (f_res_type f) IEM)
      || py_eq (f_component f) (rule_field "component_id" item)
         && py_eq (f_module f) (rule_field "module_id" item)).

Lemma vitem_field item k x : vitem item k = Ok x → rule_field k item = x.
Proof. destruct item; simpl; try done. by destruct (dget k d) as [v|]; intros [= ->]. Qed.

Lemma match_rule_ok f item r :
  match_rule f item = Ok r →
  r = if rule_applies f item then Some (rule_field "action" item) else None.
Proof.
  unfold match_rule, rule_applies. intros (a & ->%vitem_field & H)%res_bind_ok. revert H.
  destruct (py_eq (f_alert_type f) a); cbn [negb andb]; [|by intros [= <-]].
  intros (s & ->%vitem_field & H)%res_bind_ok. revert H.
  destruct (py_eq (f_severity f) s); cbn [negb andb]; [|by intros [= <-]].
  destruct (py_eq (f_res_type f) IEM); cbn [negb andb orb].
  - intros (c & ->%vitem_field & H)%res_bind_ok. revert H.
    destruct (py_eq (f_component f) c); cbn [negb andb]; [|by intros [= <-]].
    intros (m & ->%vitem_field & H)%res_bind_ok. revert H.
    destruct (py_eq (f_module f) m); cbn [negb andb]; [|by intros [= <-]].
    by intros (x & ->%vitem_field & [= <-])%res_bind_ok.
  - by intros (x & ->%vitem_field & [= <-])%res_bind_ok.
Qed.

Lemma match_rules_ok f items : ∀ action r,
  match_rules f action items = Ok r →
  r = default action (last (rule_field "action" <$> filter (λ i, rule_applies f i = true) items)).
Proof.
  induction items as [|item items IH]; intros action r; cbn [match_rules]; [by intros [= <-]|].
  intros (o & ->%match_rule_ok & ->%IH)%res_bind_ok. rewrite filter_cons.
  destruct (rule_applies f item); [rewrite decide_True by done|by rewrite decide_False].
  rewrite fmap_cons, last_cons. by destruct (last _).
Qed.

(** The rule engine takes the action of the last rule, in file order,
    that agrees with the alert on its type and severity, and for IEM alerts on
    component and module too; without such a rule there is no action. *)
Theorem evaluate_alert_last_rule rules_schema alert f items action :
  truthy rules_schema = true →
  alert_fields alert = Ok (Some f) →
  vitem_key rules_schema (f_res_type f) = Ok (VList items) →
  evaluate_alert rules_schema alert = Ok action →
  action = default VNull
    (last (rule_field "action" <$> filter (λ i, rule_applies f i = true) items)).
Proof.
  unfold evaluate_alert. intros -> Hf Hi. cbn [negb]. rewrite Hf. cbn [mbind res_bind].
  rewrite Hi. cbn [mbind res_bind is_null py_iter]. apply match_rules_ok.
Qed.

Lemma vget_dict items k : vget (VDict items) k = Ok (default VNull (dget k items)).
Proof. done. Qed.

(** ** The key of a decision *)

Section maker.
Context {W : Type} (db : storage W) (conf : value).

(** What an alert says of a resource [rt = entity:...:component]. *)
Record hw_alert (alert : value) (entity component rt rid time host : string) : Prop := {
  hw_split : ∃ mid, split ":" rt = entity :: mid ++ [component];
  hw_info : ∃ sr info node,
    sensor_response alert = Ok (VDict sr) ∧ dget "info" sr = Some (VDict info) ∧
    dget "resource_type" info = Some (VStr rt) ∧ dget "resource_id" info = Some (VStr rid) ∧
    dget "event_time" info = Some (VStr time) ∧
    default VNull (dget "node_id" info) = node ∧ _get_host_id conf node = Ok (VStr host)
}.

Lemma base_entries entity mid component rt spec time host :
  split ":" rt = entity :: mid ++ [component] →
  let info := key_info_base rt spec time host in
  dget "entity" info = Some (VStr entity) ∧
  dget "entity_id" info = Some (if decide (entity = "node") then host else VStr "0") ∧
  dget "component" info = Some (VStr component) ∧ dget "event_time" info = Some time.
Proof.
  intros Hs. unfold key_info_base. rewrite Hs.
  assert (Hiem : rt ≠ "iem").
  { intros ->. cbn in Hs. injection Hs as _ Hs. by destruct mid. }
  rewrite !(decide_False (P:=rt = "iem")) by done.
  rewrite decide_True by (cbn; rewrite length_app; simpl; lia).
  change (entity :: mid ++ [component]) with ((entity :: mid) ++ [component]).
  rewrite List.last_last. cbn [app head default]. unfold entry_is.
  repeat first [rewrite dget_dset_eq | rewrite dget_dset_ne by done]. cbn [py_eq dget].
  case_bool_decide; [rewrite decide_True by done|rewrite decide_False by done]; done.
Qed.

(** A failure of a hardware component named [entity:...:component] is
    stored under [entity/id/component/resource_id/event_time] with its action,
    the id being the host for a node and 0 otherwise; controllers and network
    interfaces follow rules of their own. *)
Theorem store_action_key alert entity component rt rid time host action w :
  hw_alert alert entity component rt rid time host →
  component ≠ "controller" → rt ≠ NIC → rt ≠ NIC_CABLE →
  _store_action conf db alert action w =
    (Ok tt, (s_store db (instantiate_decision
       (join "/" [entity; if decide (entity = "node") then host else "0"; component; rid; time])
       action (VStr time)) w).2).
Proof.
  intros [[mid Hs] (sr & info & node & Hsr & Hinfo & Hrt & Hrid & Ht & Hnode & Hhost)] Hc Hn1 Hn2.
  destruct (base_entries entity mid component rt VNull (VStr time) (VStr host) Hs) as (He & Hei & Hcm & Het).
  unfold _store_action, logged. rewrite Hsr. f_equal.
  assert (Hiem : rt ≠ "iem") by (intros ->; cbn in Hs; injection Hs as _ Hs; by destruct mid).
  assert (Henc : rt ≠ "enclosure") by (intros ->; cbn in Hs; injection Hs as _ Hs; by destruct mid).
  assert (Hset : _set_db_key_info conf (VDict sr) =
            Ok (dset "component_id" (VStr rid) (key_info_base rt VNull (VStr time) (VStr host)))).
  { unfold _set_db_key_info. rewrite !vget_dict, Hinfo. cbn [default mbind res_bind].
    change (id ?x) with x. rewrite !vget_dict, Hrt, Hrid, Hnode, Ht. cbn [mbind res_bind].
    rewrite Hhost. cbn [mbind res_bind]. change (default VNull (Some ?x)) with x. cbn iota.
    rewrite decide_False by done. cbn [mbind res_bind vitem]. rewrite Hcm. cbn [mbind res_bind py_eq].
    rewrite bool_decide_false by done. by rewrite !decide_False by tauto. }
  unfold st_bind at 1, st_lift at 1. unfold st_bind at 1, st_lift at 1. rewrite Hset.
  set (d := dset "component_id" _ _).
  assert (Hd : truthy (VDict d) = true).
  { unfold d. cbn. rewrite negb_true_iff, bool_decide_eq_false.
    intros H%length_zero_iff_nil. by destruct (key_info_base _ _ _ _) as [|[k v] l]; cbn in H; repeat case_match. }
  rewrite Hd. cbn [negb]. unfold vitem.
  assert (Hg : dget "entity" d = Some (VStr entity) ∧
     dget "entity_id" d = Some (VStr (if decide (entity = "node") then host else "0")) ∧
     dget "component" d = Some (VStr component) ∧ dget "component_id" d = Some (VStr rid) ∧
     dget "event_time" d = Some (VStr time)).
  { unfold d. rewrite dget_dset_eq, !dget_dset_ne by done. rewrite Hei. repeat split; try done.
    by case_decide. }
  destruct Hg as (-> & -> & -> & -> & ->). reflexivity.
Qed.

End maker.

(** ** The repository over Consul *)

Section repository.
Context {W : Type} {K : ConsulKV W} {KL : ConsulLaws K} {PV : PyValues value} (c : db value).
Notation m := (db_model c).

(** The field [decision_id] holds strings, and [like] is the substring test
    on them. *)
Class DecisionModelLaws : Prop := {
  id_native : ∀ s, to_native m "decision_id" (VStr s) = Ok (VStr s);
  id_like : ∀ s p, py_op OPERATION_LIKE (VStr s) (VStr p) = Ok (contains s p)
}.
Context {ML : DecisionModelLaws}.

(** The decision id of a stored event. *)
Definition event_id (v : string) : option string :=
  match md_loads m v with
  | Ok o => match o !! "decision_id" with Some (VStr s) => Some s | _ => None end
  | Err _ => None
  end.

Definition all_events (w : W) : Prop := ∀ k v,
  kv_contents w !! k = Some v → startswith k (obj_prefix c) = true → is_Some (event_id v).

Definition event_matches (key : string) (v : string) : bool :=
  match event_id v with Some s => contains s key | None => false end.

Lemma sat_like o s key :
  o !! "decision_id" = Some (VStr s) →
  sat m o (FilterOperationCompare (FieldType "decision_id") OPERATION_LIKE (VStr key)) = Ok (contains s key).
Proof.
  intros Ho. unfold sat. cbn [accept_visitor]. unfold sat_compare, getattr.
  cbn [field_to_str mbind res_bind]. rewrite id_native. cbn [mbind res_bind].
  rewrite Ho. cbn [mbind res_bind compare_entry]. apply id_like.
Qed.

(** Deleting the events of a component removes exactly the events whose
    id contains the text [entity/entity_id/component/component_id], in
    particular those of every component whose id starts with that one. *)
Theorem delete_event_exact e i cm ci w w' :
  inv c w → all_events w →
  delete_event (consul_storage c) (VStr e) (VStr i) (VStr cm) (VStr ci) w = (Ok tt, w') →
  ∀ k, kv_contents w' !! k =
    match kv_contents w !! k with
    | Some v => if startswith k (obj_prefix c) && event_matches (join "/" [e; i; cm; ci]) v
                then None else Some v
    | None => None
    end.
Proof.
  intros Hinv Hev. unfold delete_event, st_bind, st_lift. cbn [create_decision_id res_map as_str mbind res_bind].
  unfold like_filter. cbn [Compare from_standard_representation mbind res_bind].
  set (key := join "/" [e; i; cm; ci]). cbn [s_delete consul_storage].
  set (f := FilterOperationCompare (FieldType "decision_id") OPERATION_LIKE (VStr key)).
  change (Compare (FieldType "decision_id") "like" (VStr key)) with (@Ok (filter_tree value) f).
  cbn iota beta.
  destruct (Consul.delete c f w) as [[n|e'] w1] eqn:Hdel; [|done]. intros [= <-].
  assert (Hsat : ∀ k v o, kv_contents w !! k = Some v → startswith k (obj_prefix c) = true →
            md_loads m v = Ok o → ∃ s, event_id v = Some s ∧ sat m o f = Ok (contains s key)).
  { intros k v o Hk Hp Ho. destruct (Hev k v Hk Hp) as [s Hs]. exists s. split; [done|].
    apply sat_like. unfold event_id in Hs. rewrite Ho in Hs.
    destruct (o !! "decision_id") as [[]|] eqn:Hid; try done. by injection Hs as ->. }
  destruct (delete_exact c f w n w1 Hinv) as [_ Hk]; [|done|].
  { intros k v o Hk Hp Ho. destruct (Hsat k v o Hk Hp Ho) as (s & _ & ->). eauto. }
  intros k. rewrite Hk. destruct (kv_contents w !! k) as [v|] eqn:Hv; [|done].
  destruct (startswith k (obj_prefix c)) eqn:Hp; cbn [andb]; [|done].
  unfold satb, event_matches. cbn [snd]. destruct (md_loads m v) as [o|e'] eqn:Ho.
  - destruct (Hsat k v o Hv Hp Ho) as (s & Hs & ->). by rewrite Hs.
  - unfold event_id. by rewrite Ho.
Qed.

End repository.

(** The key of component [ci] is part of the ids of the events of every
    component whose id starts with [ci]. *)
Lemma event_overmatch e i cm ci x t :
  contains (join "/" [e; i; cm; ci +:+ x; t]) (join "/" [e; i; cm; ci]) = true.
Proof.
  assert (Hc : ∀ s p, startswith s p = true → contains s p = true)
    by (intros [|c s] p H; cbn [contains]; by rewrite H).
  apply Hc, startswith_spec. exists (x +:+ "/" +:+ t). cbn [join]. by rewrite !sapp_assoc.
Qed.

(** ** The monitor *)

Section monitor.
Context {W : Type} (db : storage W) (resource_file : value).
Context (Hpure : ∀ q w, (s_get db q w).2 = w).

Lemma status_pure resource w : (get_resource_status db resource_file resource w).2 = w.
Proof.
  unfold get_resource_status, st_bind, st_lift.
  destruct (resource_key_of resource_file resource) as [rk|e]; [|done].
  assert (Hw : (call_get db rk w).2 = w).
  { unfold call_get, st_bind, st_lift, st_raise. destruct (key_args rk) as [[[[e i] cm] ci]|]; [|done].
    destruct rk; try done. case_decide; [done|].
    unfold get_event_time, st_bind, st_lift. destruct (create_decision_id _) as [s|]; [|done].
    destruct (like_filter s); [|done]. apply Hpure. }
  destruct (call_get db rk w) as [[[|o l]|e] w1]; cbn in *; done.
Qed.

Lemma py_eq_str v s : py_eq v (VStr s) = true ↔ v = VStr s.
Proof.
  destruct v; simpl; try (split; [done|by intros [=]]).
  rewrite bool_decide_eq_true. split; [by intros ->|by intros [=]].
Qed.

Lemma group_loop_exact w resources : ∀ statuses seen,
  Forall2 (λ r s, (get_resource_status db resource_file r w).1 = Ok s) resources statuses →
  Forall (λ s, s ≠ FAILED) seen →
  group_loop db resource_file resources seen w =
    (Ok (if existsb (λ s, py_eq s FAILED) statuses then FAILED
         else if existsb (py_eq RESOLVED) (seen ++ statuses) then RESOLVED else OK), w).
Proof.
  induction resources as [|r resources IH]; intros statuses seen H Hseen; cbn [group_loop].
  { apply Forall2_nil_inv_l in H as ->. by rewrite app_nil_r. }
  apply Forall2_cons_inv_l in H as (s & ss & Hs & Hss & ->). unfold st_bind.
  pose proof (status_pure r w) as Hw. destruct (get_resource_status db resource_file r w) as [x w1].
  cbn in Hs, Hw. subst x w1. cbn [existsb]. destruct (py_eq s FAILED) eqn:Hf; cbn [orb].
  - apply py_eq_str in Hf as ->. done.
  - rewrite (IH ss); [by rewrite <- app_assoc|done|].
    apply Forall_app. split; [done|]. constructor; [|done]. intros ->. done.
Qed.

(** The status of a resource group is FAILED when some resource of the
    group has failed, else RESOLVED when some is resolved, else OK; reading it
    changes nothing. *)
Theorem resource_group_status_exact resource_group resources statuses w :
  group_resources resource_file resource_group = Ok resources →
  Forall2 (λ r s, (get_resource_status db resource_file r w).1 = Ok s) resources statuses →
  get_resource_group_status db resource_file resource_group w =
    (Ok (if existsb (λ s, py_eq s FAILED) statuses then FAILED
         else if existsb (py_eq RESOLVED) statuses then RESOLVED else OK), w).
Proof.
  intros Hr H. unfold get_resource_group_status, st_bind, st_lift. rewrite Hr.
  by apply group_loop_exact.
Qed.

(** An acknowledgement that is not forced leaves the events of a resource
    alone while its status is FAILED. *)
Theorem acknowledge_keeps_failed resource w :
  (get_resource_status db resource_file resource w).1 = Ok FAILED →
  acknowledge_resource db resource_file resource false w = (Ok tt, w).
Proof.
  intros Hs. unfold acknowledge_resource, st_bind, st_lift.
  assert (Hk : is_ok (resource_key_of resource_file resource) = true).
  { revert Hs. unfold get_resource_status, st_bind, st_lift.
    by destruct (resource_key_of resource_file resource). }
  destruct (resource_key_of resource_file resource) as [rk|]; [|done].
  unfold logged. pose proof (status_pure resource w) as Hw.
  destruct (get_resource_status db resource_file resource w) as [x w1]. cbn in Hs, Hw. subst x w1. done.
Qed.

End monitor.

End HaSpec.
