(* ===== verification/HaWitness.v ===== *)
(** Executions of the HA decision components over a key-value service held in
    memory: rules, an alert handled into the store, its events deleted. *)
From Stdlib Require Import Ascii.
From stdpp Require Import countable.
From S2P Require Import Prelude PyStr PyVal KvFiles KvCodec DataAccess ConsulDb ConsulDbSpec ConsulWitness HaDecision HaDecisionSpec.
Import PyStr Data Consul ConsulSpec Ha HaSpec.

Module HaWitness.

#[local] Instance mem : ConsulKV (gmap string string) := ConsulWitness.mem.

(** Native values: JSON values, strings in the order of their characters. *)
#[local] Instance values : PyValues value := {
  py_op op a b :=
    match op, a, b with
    | OPERATION_EQ, _, _ => Ok (py_eq a b)
    | OPERATION_NE, _, _ => Ok (negb (py_eq a b))
    | OPERATION_LIKE, VStr s, VStr p => Ok (contains s p)
    | OPERATION_LT, VStr s, VStr t => Ok (ConsulWitness.sltb s t)
    | OPERATION_GT, VStr s, VStr t => Ok (ConsulWitness.sltb t s)
    | OPERATION_LEQ, VStr s, VStr t => Ok (negb (ConsulWitness.sltb t s))
    | OPERATION_GEQ, VStr s, VStr t => Ok (negb (ConsulWitness.sltb s t))
    | _, _, _ => Err TypeError
    end;
  py_lower v := match v with VStr s => Ok (VStr (lower s)) | _ => Err AttributeError end
}.

Definition decision : Model value := {|
  md_fields := ["decision_id"; "action"; "alert_time"];
  md_primary_key := "decision_id";
  md_is_string k := negb (bool_decide (k = "alert_time"));
  md_to_native _ v := Some v;
  md_validate o := Some o;
  md_dumps o := Files.dumps (VDict (map_to_list o));
  md_loads s := match Files.loads s with Some (VDict d) => Ok (list_to_map d) | _ => Err ValueError end;
  md_key v := match v with VStr s => s | _ => "" end
|}.

Definition decisions : Consul.db value := MkDb decision "decisions" (md_fields decision).
Definition db : storage (gmap string string) := consul_storage decisions.

#[local] Instance decision_laws : DecisionModelLaws decisions.
Proof. by constructor. Qed.

(** ** Rules *)

Definition rule (alert_type severity action : string) : value :=
  VDict [("alert_type", VStr alert_type); ("severity", VStr severity); ("action", VStr action)].
Definition disk_rules : list value :=
  [rule "fault" "critical" "restart"; rule "fault_resolved" "informational" "resolved";
   rule "fault" "critical" "failed"].
Definition rules : value := VDict [("node:disk", VList disk_rules)].

Definition node_conf : value := VDict [("nodes", VDict [("n7", VStr "srvnode-1")])].

Definition disk_alert (resource_id event_time : string) : value :=
  VDict [("message", VDict [("sensor_response_type", VDict [
    ("info", VDict [("resource_type", VStr "node:disk"); ("resource_id", VStr resource_id);
                    ("node_id", VStr "n7"); ("event_time", VStr event_time)]);
    ("alert_type", VStr "fault"); ("severity", VStr "critical")])])].

Lemma evaluate_alert_last_rule_witness :
  evaluate_alert rules (disk_alert "1" "t0") = Ok (VStr "failed") ∧
  let f := Fields (VStr "node:disk") (VStr "fault") (VStr "critical") (VStr "") (VStr "") in
  VStr "failed" = default VNull
    (last (rule_field "action" <$> filter (λ i, rule_applies f i = true) disk_rules)).
Proof.
  assert (H : evaluate_alert rules (disk_alert "1" "t0") = Ok (VStr "failed")) by reflexivity.
  split; [exact H|]. intros f.
  by apply (evaluate_alert_last_rule rules (disk_alert "1" "t0") f disk_rules).
Defined.

Lemma disk_alert_hw r t :
  hw_alert node_conf (disk_alert r t) "node" "disk" "node:disk" r t "srvnode-1".
Proof. split; [by exists []|]. eexists _, _, (VStr "n7"). by vm_compute. Qed.

Lemma store_action_key_witness :
  _store_action node_conf db (disk_alert "1" "t0") FAILED ∅ =
    (Ok tt, (s_store db (instantiate_decision "node/srvnode-1/disk/1/t0" FAILED (VStr "t0")) ∅).2).
Proof.
  apply (store_action_key db node_conf (disk_alert "1" "t0") "node" "disk" "node:disk" "1" "t0" "srvnode-1" FAILED ∅);
    [apply disk_alert_hw|done|done|done].
Defined.

(** ** Events *)

Definition handled : gmap string string :=
  foldl (λ w r, (handle_alert node_conf db rules (disk_alert r "t0") w).2) ∅ ["1"; "12"; "2"].

(** A check of all entries proves a statement about all entries. *)
Lemma entries_check (P : string → string → bool) (w : gmap string string) k v :
  forallb (λ kv, P kv.1 kv.2) (map_to_list w) = true → w !! k = Some v → P k v = true.
Proof.
  rewrite forallb_forall. intros H Hk. apply (H (k, v)). by apply list_elem_of_In, elem_of_map_to_list.
Qed.

Definition entry_ok (k v : string) : bool :=
  match event_id decisions v, md_loads decision v with
  | Some s, Ok o => bool_decide (k = object_path decisions (VStr s))
  | _, _ => false
  end.

Lemma entry_ok_spec k v :
  entry_ok k v = true →
  ∃ o s, md_loads decision v = Ok o ∧ o !! "decision_id" = Some (VStr s) ∧
         event_id decisions v = Some s ∧ k = object_path decisions (VStr s).
Proof.
  unfold entry_ok, event_id. change (db_model decisions) with decision.
  destruct (md_loads decision v) as [o|]; [|done].
  destruct (o !! "decision_id") as [[| | | |s| |]|] eqn:Hid; try done.
  intros H. apply bool_decide_eq_true in H. by exists o, s.
Qed.

Lemma entries_inv w :
  forallb (λ kv, entry_ok kv.1 kv.2) (map_to_list w) = true → inv decisions w ∧ all_events decisions w.
Proof.
  intros Hall. split; intros k v Hk _;
    destruct (entry_ok_spec k v (entries_check entry_ok w k v Hall Hk)) as (o & s & Ho & Hid & He & ->).
  - by exists o, (VStr s).
  - by exists s.
Qed.

Lemma handled_ok : inv decisions handled ∧ all_events decisions handled.
Proof. apply entries_inv. vm_compute. reflexivity. Qed.

Definition deleted : gmap string string :=
  (delete_event db (VStr "node") (VStr "srvnode-1") (VStr "disk") (VStr "1") handled).2.

(** Three disks failed; deleting the events of disk 1 also deletes those of
    disk 12. *)
Lemma delete_event_exact_witness :
  (∀ k, kv_contents deleted !! k =
    match kv_contents handled !! k with
    | Some v => if startswith k (obj_prefix decisions) && event_matches decisions "node/srvnode-1/disk/1" v
                then None else Some v
    | None => None
    end) ∧
  (map_to_list handled).*1 ≡ₚ
    ["cortx/base/decisions/obj/node/srvnode-1/disk/1/t0";
     "cortx/base/decisions/obj/node/srvnode-1/disk/12/t0";
     "cortx/base/decisions/obj/node/srvnode-1/disk/2/t0"] ∧
  (map_to_list deleted).*1 = ["cortx/base/decisions/obj/node/srvnode-1/disk/2/t0"].
Proof.
  split; [|split; [|vm_compute; reflexivity]].
  - apply (delete_event_exact decisions "node" "srvnode-1" "disk" "1" handled deleted);
      [apply handled_ok|apply handled_ok|vm_compute; reflexivity].
  - apply (bool_decide_unpack _). vm_compute. exact I.
Defined.

(** ** The monitor *)

Definition resource (id : string) : value :=
  VDict [("entity", VStr "node"); ("entity_id", VStr "srvnode-1"); ("component", VStr "disk");
         ("component_id", VStr id)].
Definition monitor_conf : value :=
  VDict [("resources", VDict [("disk2", resource "2"); ("disk3", resource "3")]);
         ("resource_groups", VDict [("disks", VList [VStr "disk3"; VStr "disk2"])])].

Lemma db_pure q w : (s_get db q w).2 = w.
Proof. cbn [s_get db consul_storage]. unfold get, st_bind, _get_all_raw, st_lift, st_ret. by destruct (kv_get_all _ w). Qed.

Lemma resource_group_status_exact_witness :
  get_resource_group_status db monitor_conf "disks" handled = (Ok FAILED, handled).
Proof.
  refine (resource_group_status_exact db monitor_conf db_pure "disks" [VStr "disk3"; VStr "disk2"] [OK; FAILED] handled _ _);
    [reflexivity|]. repeat constructor; vm_compute; reflexivity.
Defined.

Lemma acknowledge_keeps_failed_witness :
  acknowledge_resource db monitor_conf (VStr "disk2") false handled = (Ok tt, handled).
Proof. apply (acknowledge_keeps_failed db monitor_conf db_pure). vm_compute. reflexivity. Defined.

End HaWitness.
