(* ===== verification/Release.v ===== *)
(** [utils/schema/release.py]: class [Release], the release manifest, the
    comparison of versions and the compatibility rules of an update.

    The configuration is read through the interface [reader]; [mapped_reader]
    is the [MappedConf] of the configuration store. *)
From Stdlib Require Import Ascii.
From S2P Require Import Prelude PyStr PyVal KvStore KvFiles ConfStore HaDecision.
Import PyStr.

Module Release.

Definition INTERNAL_ERROR : Z := 0x1005.

(** ** Strings and numbers *)

(** [c.isdigit()]: the superscripts are digits too, which [int] refuses. *)
Definition isdigit (c : ascii) : bool :=
  is_digit c || (let n := code c in (n =? 178) || (n =? 179) || (n =? 185))%N.

Definition digit_val (c : ascii) : Z := (Z.of_N (code c) - 48)%Z.

(** [int(c)] for a one-character string of digits *)
Definition int_of_char (c : ascii) : res Z :=
  if is_digit c then Ok (digit_val c) else Err ValueError.

(** The digits of [int(s)], with underscores between digits. *)
Fixpoint int_scan (s : string) (acc : Z) (after_digit : bool) : option Z :=
  match s with
  | EmptyString => if after_digit then Some acc else None
  | String c s' =>
      if is_digit c then int_scan s' (10 * acc + digit_val c)%Z true
      else if Ascii.eqb c "_" && after_digit then int_scan s' acc false
      else None
  end.

(** [int(v)] *)
Definition py_int (v : value) : res Z :=
  match v with
  | VBool b => Ok (if b then 1 else 0)%Z
  | VInt z => Ok z
  | VFloat m e => Ok (if (0 <=? e)%Z then Z.shiftl m e else Z.quot m (Z.shiftl 1 (- e)))
  | VStr s =>
      let '(neg, digits) :=
        match strip s with
        | String c r => if Ascii.eqb c "-" then (true, r)
                        else if Ascii.eqb c "+" then (false, r) else (false, strip s)
        | EmptyString => (false, EmptyString)
        end in
      match int_scan digits 0 false with
      | Some n => Ok (if neg then - n else n)%Z
      | None => Err ValueError
      end
  | _ => Err TypeError
  end.

(** [range(0, n)] *)
Definition range (n : Z) : list nat := seq 0 (Z.to_nat n).

(** ** [version_check] *)

(** One element of [list(version_str)]. *)
Definition elem_digit (elem : value) : res (list Z) :=
  match elem with
  | VStr (String c EmptyString) =>
      if isdigit c then z ← int_of_char c; Ok [z] else Ok []
  | VStr s =>
      if negb (bool_decide (s = "")) && sforall isdigit s then z ← py_int (VStr s); Ok [z] else Ok []
  | _ => Err AttributeError
  end.

Definition _get_digits (version_str : value) : res (list Z) :=
  elems ← Ha.py_iter version_str;
  digits ← res_map elem_digit elems;
  Ok (concat digits).

(** [zip_longest(deploy_digits, release_digits, fillvalue=-1)] *)
Fixpoint zip_longest (a b : list Z) : list (Z * Z) :=
  match a, b with
  | x :: a', y :: b' => (x, y) :: zip_longest a' b'
  | _, [] => map (λ x, (x, -1)%Z) a
  | [], _ => map (λ y, (-1, y)%Z) b
  end.

(** The loop over the pairs: the first difference decides. *)
Fixpoint compare_digits (l : list (Z * Z)) : Z :=
  match l with
  | [] => 0%Z
  | (deploy_digit, release_digit) :: l' =>
      if (deploy_digit <? release_digit)%Z then (-1)%Z
      else if (release_digit <? deploy_digit)%Z then 1%Z
      else compare_digits l'
  end.

Definition version_check (deploy_version release_version : value) : res Z :=
  if py_eq deploy_version release_version then Ok 0%Z
  else
    deploy_digits ← _get_digits deploy_version;
    release_digits ← _get_digits release_version;
    Ok (compare_digits (zip_longest deploy_digits release_digits)).

(** ** Versions of packages *)

(** [[x for x in search_list if component in x][0]] *)
Definition _get_rpm_from_list (component : string) (search_list : value) : res value :=
  xs ← Ha.py_iter search_list;
  found ← res_map (λ x, b ← Ha.py_in (VStr component) x; Ok (if b : bool then [x] else [])) xs;
  match concat found with
  | x :: _ => Ok x
  | [] => Err PlainException
  end.

(** The elements of [rpm_name.split('-')] that start with a digit;
    [element[0]] of an empty one raises [IndexError]. *)
Fixpoint digit_elements (elements : list string) : res (list string) :=
  match elements with
  | [] => Ok []
  | EmptyString :: _ => Err IndexError
  | (String c _ as element) :: elements' =>
      rest ← digit_elements elements'; Ok (if isdigit c then element :: rest else rest)
  end.

(** The text before the distribution or architecture suffix. *)
Definition strip_suffix (s : string) : string :=
  if contains s ".el7" then before ".el7" s
  else if contains s "_el7" then before "_el7" s
  else if contains s ".noarch" then before ".noarch" s
  else if contains s ".x86_64" then before ".x86_64" s
  else s.

(** [except IndexError: raise Exception] *)
Definition _get_rpm_version (rpm_name : value) : res string :=
  match rpm_name with
  | VStr name =>
      match digit_elements (split "-" name) with
      | Ok (t0 :: t1 :: _) => Ok (t0 +:+ "-" +:+ strip_suffix t1)
      | _ => Err PlainException
      end
  | _ => Err AttributeError
  end.

(** [while version.find('_') != -1: version = version.split('_')[0]] *)
Fixpoint strip_git_hash (fuel : nat) (version : string) : option string :=
  if no_char "_" version then Some version
  else match fuel with
       | 0 => None
       | S fuel => strip_git_hash fuel (before "_" version)
       end.

(** ** The manifest *)

(** Reading a configuration: [get(key, default)] on a state. *)
Record reader (S : Type) := Reader { rd_get : string → value → ST S value }.
Arguments rd_get {_} _ _ _.
Arguments Reader {_} _.

Definition mapped_reader {W : Type} : reader (Conf.singleton (W:=W)) :=
  Reader (λ key dflt, Conf.mapped_get (Some key) dflt).

Section release.
Context {S : Type} (rd : reader S).
(** [str()] of floats and containers. *)
Context (repr : value → string).

Definition _get_val (key : string) : ST S value := rd_get rd key (VStr "").

Definition get_release_version : ST S value := _get_val "VERSION".

Definition get_component_version (component : string) : ST S string :=
  let! rpms := _get_val "COMPONENTS" in
  st_lift (
    component_rpm ← _get_rpm_from_list component rpms;
    version ← _get_rpm_version component_rpm;
    match strip_git_hash 1 version with Some v => Ok v | None => Err InternalError end).

(** [validate]: the keys that differ, with the value of the manifest. *)
Definition validate_key (release_spec : option (list (string * value))) (key KEY : string)
    (acc : bool * list (string * value)) : ST S (bool * list (string * value)) :=
  let! v := _get_val KEY in
  let differs := match release_spec with
                 | None => true
                 | Some spec => negb (py_eq (default VNull (dget key spec)) v)
                 end in
  st_ret (if differs then (false, dset key v acc.2) else acc).

Definition validate (release_spec : option (list (string * value))) : ST S (bool * list (string * value)) :=
  let! acc := validate_key release_spec "name" "NAME" (true, []) in
  validate_key release_spec "version" "VERSION" acc.

(** ** Installed versions *)

Definition str (v : value) : string := Files.py_str repr v.
Definition get (key : string) : ST S value := rd_get rd key VNull.

Definition NODE_NAME_KEY (node : value) : string := "node>" +:+ str node +:+ ">name".
Definition NUM_COMPONENTS_KEY (node : value) : string := "node>" +:+ str node +:+ ">num_components".
Definition COMPONENT_KEY (node : value) (i : nat) : string :=
  "node>" +:+ str node +:+ ">components[" +:+ dec i +:+ "]".
Definition STORAGE_SET (i : nat) : string := "cluster>storage_set[" +:+ dec i +:+ "]".

(** [for x in l: acc += f(x)] *)
Fixpoint st_concat {A B} (f : A → ST S (list B)) (l : list A) : ST S (list B) :=
  match l with
  | [] => st_ret []
  | x :: l' => let! bs := f x in let! rest := st_concat f l' in st_ret (bs ++ rest)
  end.

Definition _get_node_list : ST S (list value) :=
  let! v := get "cluster>num_storage_set" in
  let! num_storage_set := st_lift (py_int v) in
  st_concat (λ storage_set_idx,
    let! v := get (STORAGE_SET storage_set_idx +:+ ">num_nodes") in
    let! num_nodes := st_lift (py_int v) in
    st_concat (λ node_idx,
      let! node := get (STORAGE_SET storage_set_idx +:+ ">nodes[" +:+ dec node_idx +:+ "]") in
      st_ret [node]) (range num_nodes)) (range num_storage_set).

(** The dictionary [version_info]: its keys are values. *)
Definition hashable (v : value) : bool := negb (is_container v).

Fixpoint vset (k v : value) (d : list (value * value)) : list (value * value) :=
  match d with
  | [] => [(k, v)]
  | (k', v') :: d' => if py_eq k k' then (k', v) :: d' else (k', v') :: vset k v d'
  end.

Definition version_info_set (k v : value) (d : list (value * value)) : res (list (value * value)) :=
  if hashable k then Ok (vset k v d) else Err TypeError.

(** The node of the given name: the last one of the list. *)
Fixpoint find_node (resource_id : string) (nodes : list value) (node_id : value) : ST S value :=
  match nodes with
  | [] => st_ret node_id
  | node :: nodes' =>
      let! name := get (NODE_NAME_KEY node) in
      find_node resource_id nodes' (if py_eq (VStr resource_id) name then node else node_id)
  end.

Fixpoint component_versions (node_id : value) (components : list nat) (d : list (value * value))
    : ST S (list (value * value)) :=
  match components with
  | [] => st_ret d
  | i :: components' =>
      let! _name := get (COMPONENT_KEY node_id i +:+ ">name") in
      let! _version := get (COMPONENT_KEY node_id i +:+ ">version") in
      if is_null _version then st_raise (SetupError INTERNAL_ERROR)
      else let! d' := st_lift (version_info_set _name _version d) in
           component_versions node_id components' d'
  end.

(** [open_conf] is [MappedConf(conf_url)]; [[]] stands for the [0] the source
    returns when nothing but the release is there. *)
Definition get_installed_version (open_conf : string → ST S unit) (resource_id conf_url : string)
    : ST S (list (value * value)) :=
  open_conf conf_url ;;;
  let! node_list := _get_node_list in
  let! node_id := find_node resource_id node_list VNull in
  if is_null node_id then st_raise (SetupError EINVAL) else
  let! n := get (NUM_COMPONENTS_KEY node_id) in
  let! num_components := st_lift (py_int n) in
  let! version_info := component_versions node_id (range num_components) [] in
  let! release_name := get "cortx>common>release>name" in
  let! release_version := get "cortx>common>release>version" in
  let! version_info := st_lift (version_info_set release_name release_version version_info) in
  st_ret (if decide (1 < length version_info) then version_info else []).

(** ** Compatibility *)

Definition COMPONENT_NAME_MAP : list (string * string) :=
  [("CORTX", "CORTX"); ("cortx-motr", "motr"); ("cortx-rgw", "rgw"); ("cortx-hare", "hare");
   ("cortx-py-utils", "utils"); ("cortx-csm_agent", "csm"); ("cortx-ha", "ha"); ("cortx-prvsnr", "prvsnr")].

Definition clause_name (clause : string) : string := strip (before ">=" clause).

(** [len(clause.split('>=')) < 1] never holds: only the names are checked. *)
Definition _validate_clauses (version_clauses : list string) : bool :=
  forallb (λ clause, bool_decide (clause_name clause ∈ dkeys COMPONENT_NAME_MAP)) version_clauses.

(** [_parse_version(clause, "UPGRADE")]: [clause.split('>=')[1]] is the text up
    to the next [>=], or raises [IndexError]. *)
Definition _parse_version (clause : string) : res (string * string) :=
  match after ">=" clause with
  | Some rest => Ok (clause_name clause, strip (before "<=" (before ">=" rest)))
  | None => Err IndexError
  end.

(** The clauses for one component: [None] when none is about it. *)
Fixpoint check_component (component version : value) (version_clauses : list string)
    : res (option (Z * string)) :=
  match version_clauses with
  | [] => Ok None
  | clause :: clauses' =>
      nv ← _parse_version clause;
      match dget nv.1 COMPONENT_NAME_MAP with
      | None => Err KeyError
      | Some mapped =>
          if py_eq component (VStr mapped) then
            c ← version_check version (VStr nv.2); Ok (Some (c, nv.2))
          else check_component component version clauses'
      end
  end.

Definition older_message (component version : value) (new_version : string) : string :=
  str component +:+ " deployed version " +:+ str version +:+ " is older than the compatible version "
    +:+ new_version +:+ ".".

(** The loop over the installed versions: the component that is too old, or
    the number of components checked. *)
Fixpoint check_all (installed : list (value * value)) (version_clauses : list string) (count : nat)
    : res (nat + string) :=
  match installed with
  | [] => Ok (inl count)
  | (component, version) :: installed' =>
      r ← check_component component version version_clauses;
      match r with
      | None => check_all installed' version_clauses count
      | Some (c, new_version) =>
          if decide (c = -1)%Z then Ok (inr (older_message component version new_version))
          else check_all installed' version_clauses (Datatypes.S count)
      end
  end.

Definition check_versions (installed : list (value * value)) (version_clauses : list string)
    : res (bool * string) :=
  r ← check_all installed version_clauses 0;
  match r with
  | inr status_string => Ok (false, status_string)
  | inl validation_count =>
      if decide (validation_count ≠ length installed) then Err (SetupError EINVAL)
      else Ok (true, "Versions are Compatible")
  end.

(** [consul_conf] is the text of the file that names the configuration. *)
Definition is_version_compatible (open_conf : string → ST S unit) (consul_conf : res value)
    (resource_type resource_id : string) (version_clauses : list string) : ST S (bool * string) :=
  if decide (resource_type = "cluster") then st_raise NotImplementedError else
  if negb (_validate_clauses version_clauses) then st_raise (SetupError EINVAL) else
  let! conf_text := st_lift consul_conf in
  let! installed_versions := get_installed_version open_conf resource_id (strip (str conf_text)) in
  if decide (installed_versions = []) then st_raise (SetupError INTERNAL_ERROR)
  else st_lift (check_versions installed_versions version_clauses).

End release.

End Release.
