(* ===== verification/ReleaseSpec.v ===== *)
(** What the release manifest promises: versions whose numbers are equally
    wide compare as numbers, and an update that is reported compatible has a
    rule for every installed component that its version meets. *)
From Stdlib Require Import Ascii.
From S2P Require Import Prelude PyStr PyVal HaDecision Release.
Import PyStr Release.

Module ReleaseSpec.

(** ** Digits *)

Fixpoint digits_of (s : string) : list Z :=
  match s with
  | EmptyString => []
  | String c s' => if is_digit c then digit_val c :: digits_of s' else digits_of s'
  end.

(** No superscripts. *)
Definition plain_text (s : string) : bool := sforall (λ c, implb (isdigit c) (is_digit c)) s.

Lemma get_digits_text s : plain_text s = true → _get_digits (VStr s) = Ok (digits_of s).
Proof.
  unfold _get_digits, plain_text. cbn [Ha.py_iter mbind res_bind].
  induction s as [|c s IH]; [done|]. cbn [sforall digits_of]. intros [Hc Hs]%andb_prop.
  specialize (IH Hs). unfold Ha.chars in *. cbn [String.list_ascii_of_string map res_map].
  apply res_bind_ok in IH as (ds & Hds & [= Hcat]).
  assert (He : elem_digit (VStr (sep c)) = Ok (if is_digit c then [digit_val c] else [])).
  { unfold sep. cbn [elem_digit]. destruct (isdigit c) eqn:Hi.
    - cbn [implb] in Hc. unfold int_of_char. by rewrite Hc.
    - destruct (is_digit c) eqn:Hd; [|done]. unfold isdigit in Hi. by rewrite Hd in Hi. }
  rewrite He. cbn [mbind res_bind]. rewrite Hds. cbn [mbind res_bind concat].
  rewrite Hcat. by destruct (is_digit c).
Qed.

Lemma digits_of_app s t : digits_of (s +:+ t) = digits_of s ++ digits_of t.
Proof.
  induction s as [|c s IH]; [done|]. rewrite sapp_cons. cbn [digits_of].
  destruct (is_digit c); [|done]. by rewrite IH.
Qed.

Lemma digits_of_none s : sforall (λ c, negb (isdigit c)) s = true → digits_of s = [].
Proof.
  induction s as [|c s IH]; [done|]. cbn [sforall digits_of]. intros [Hc Hs]%andb_prop.
  destruct (is_digit c) eqn:Hd; [|by apply IH]. unfold isdigit in Hc. by rewrite Hd in Hc.
Qed.

Lemma digits_of_length s : sforall is_digit s = true → length (digits_of s) = String.length s.
Proof.
  induction s as [|c s IH]; [done|]. cbn [sforall digits_of String.length]. intros [-> Hs]%andb_prop.
  cbn. by rewrite IH.
Qed.

Definition digit (z : Z) : Prop := (0 <= z <= 9)%Z.

Lemma digits_of_range s : Forall digit (digits_of s).
Proof.
  induction s as [|c s IH]; [constructor|]. cbn [digits_of]. destruct (is_digit c) eqn:Hc; [|done].
  constructor; [|done]. unfold is_digit in Hc. apply andb_prop in Hc as [H1%N.leb_le H2%N.leb_le].
  unfold digit, digit_val. lia.
Qed.

(** ** Comparing digit by digit *)

(** The number a list of digits denotes, after those already read. *)
Definition num (ds : list Z) : Z := foldl (λ n d, 10 * n + d)%Z 0%Z ds.

(** The number of a string of digits, as [int] reads it. *)
Definition number (s : string) : Z := num (digits_of s).

Fixpoint lex (l : list (Z * Z)) : Z :=
  match l with
  | [] => 0
  | (x, y) :: l' => if (x <? y)%Z then -1 else if (y <? x)%Z then 1 else lex l'
  end.

Lemma num_step n ds :
  foldl (λ n d, 10 * n + d)%Z n ds = (n * 10 ^ Z.of_nat (length ds) + num ds)%Z.
Proof.
  unfold num. revert n. induction ds as [|d ds IH]; intros n; cbn [foldl length]; [lia|].
  rewrite IH, (IH (10 * 0 + d)%Z). rewrite Nat2Z.inj_succ, Z.pow_succ_r by lia. lia.
Qed.

Lemma num_cons d ds : num (d :: ds) = (d * 10 ^ Z.of_nat (length ds) + num ds)%Z.
Proof. unfold num at 1. cbn [foldl]. rewrite num_step. lia. Qed.

Lemma num_bound ds : Forall digit ds → (0 <= num ds < 10 ^ Z.of_nat (length ds))%Z.
Proof.
  induction 1 as [|d ds Hd Hds IH]; [cbn; lia|]. rewrite num_cons. cbn [length].
  rewrite Nat2Z.inj_succ, Z.pow_succ_r by lia. unfold digit in Hd. nia.
Qed.

(** Digits of the same number of the same width, then the rest. *)
Lemma compare_digits_prefix ds rs ds' rs' :
  Forall digit ds → Forall digit rs → length ds = length rs →
  compare_digits (zip_longest (ds ++ ds') (rs ++ rs')) =
    if (num ds <? num rs)%Z then (-1)%Z else if (num rs <? num ds)%Z then 1%Z
    else compare_digits (zip_longest ds' rs').
Proof.
  intros Hds. revert rs. induction Hds as [|d ds Hd Hds IH]; intros rs Hrs Hlen.
  { destruct rs; [|done]. by rewrite Z.ltb_irrefl. }
  destruct Hrs as [|r rs Hr Hrs]; [done|]. injection Hlen as Hlen.
  cbn [app zip_longest compare_digits]. rewrite IH by done. rewrite !num_cons, Hlen.
  pose proof (num_bound ds Hds) as Hnd. pose proof (num_bound rs Hrs) as Hnr. rewrite Hlen in Hnd.
  set (p := (10 ^ Z.of_nat (length rs))%Z) in *. unfold digit in *.
  destruct (Z.ltb_spec d r); [by rewrite (proj2 (Z.ltb_lt _ _)) by nia|].
  destruct (Z.ltb_spec r d).
  { rewrite (proj2 (Z.ltb_ge _ _)) by nia. by rewrite (proj2 (Z.ltb_lt _ _)) by nia. }
  assert (d = r) as -> by lia.
  by destruct (Z.ltb_spec (num ds) (num rs)), (Z.ltb_spec (num rs) (num ds)),
    (Z.ltb_spec (r * p + num ds) (r * p + num rs)), (Z.ltb_spec (r * p + num rs) (r * p + num ds)); try lia.
Qed.

(** ** Versions *)

(** A version text: numbers, each with the text that follows it. *)
Definition version (parts : list (string * string)) : string :=
  foldr (λ p s, p.1 +:+ p.2 +:+ s) "" parts.

Definition version_parts (parts : list (string * string)) : Prop :=
  Forall (λ p, sforall is_digit p.1 = true ∧ sforall (λ c, negb (isdigit c)) p.2 = true) parts.

Definition numbers (ds rs : list (string * string)) : list (Z * Z) :=
  zip (number <$> ds.*1) (number <$> rs.*1).

Lemma version_plain parts : version_parts parts → plain_text (version parts) = true.
Proof.
  unfold plain_text. induction 1 as [|[n s] parts [Hn Hs] _ IH]; [done|]. cbn [version foldr fst snd] in *.
  fold (version parts). rewrite !sforall_app, IH, !andb_true_iff. split; [|split; [|done]].
  - eapply sforall_impl; [|exact Hn]. intros c Hc. rewrite Hc. by destruct (isdigit c).
  - eapply sforall_impl; [|exact Hs]. intros c Hc. apply negb_true_iff in Hc. by rewrite Hc.
Qed.

Lemma version_digits n s parts :
  sforall (λ c, negb (isdigit c)) s = true →
  digits_of (version ((n, s) :: parts)) = digits_of n ++ digits_of (version parts).
Proof.
  intros Hs. cbn [version foldr fst snd]. by rewrite !digits_of_app, (digits_of_none s Hs).
Qed.

Lemma compare_versions ds rs :
  version_parts ds → version_parts rs →
  Forall2 (λ p q, String.length p.1 = String.length q.1) ds rs →
  compare_digits (zip_longest (digits_of (version ds)) (digits_of (version rs))) = lex (numbers ds rs).
Proof.
  intros Hds Hrs Hlen. revert Hds Hrs. induction Hlen as [|[n s] [n' s'] ds rs Hl _ IH]; [done|].
  intros [[Hn Hs] Hds]%Forall_cons [[Hn' Hs'] Hrs]%Forall_cons. cbn [fst snd] in *.
  rewrite !version_digits by done.
  rewrite compare_digits_prefix; [|apply digits_of_range|apply digits_of_range|by rewrite !digits_of_length].
  unfold numbers. cbn [lex zip fmap list_fmap zip_with fst]. fold (numbers ds rs). by rewrite IH.
Qed.

(** Versions written with numbers of the same widths compare as lists of
    numbers: [-1] when the deployed one is older, [0] when equal, [1] when
    newer. *)
Theorem version_check_same_widths ds rs :
  version_parts ds → version_parts rs →
  Forall2 (λ p q, String.length p.1 = String.length q.1) ds rs →
  version_check (VStr (version ds)) (VStr (version rs)) = Ok (lex (numbers ds rs)).
Proof.
  intros Hds Hrs Hlen. unfold version_check. cbn [py_eq]. rewrite <- compare_versions by done.
  case_bool_decide as Heq.
  - rewrite Heq. f_equal. generalize (digits_of (version rs)). intros l.
    induction l as [|x l IH]; [done|]. cbn. by rewrite Z.ltb_irrefl.
  - rewrite !get_digits_text by (by apply version_plain). done.
Qed.

(** ** The order of versions *)

(** A version is older when its digits, one after another, come first in the
    order of words: at the first difference its digit is smaller, or it ends
    there. *)
Definition older (a b : string) : Prop :=
  ∃ p y v, digits_of b = p ++ y :: v ∧ (digits_of a = p ∨ ∃ x u, digits_of a = p ++ x :: u ∧ (x < y)%Z).

Lemma get_digits_ok s ds : _get_digits (VStr s) = Ok ds → ds = digits_of s.
Proof.
  intros H. rewrite get_digits_text in H; [congruence|]. revert ds H.
  unfold _get_digits, plain_text. cbn [Ha.py_iter mbind res_bind].
  induction s as [|c s IH]; [done|]. unfold Ha.chars in *. cbn [String.list_ascii_of_string map res_map sforall].
  intros ds (l & Hl & _)%res_bind_ok. apply res_bind_ok in Hl as (x & Hx & (l' & Hl' & _)%res_bind_ok).
  rewrite (IH (concat l')) by by rewrite Hl'. rewrite andb_true_r. unfold sep in Hx. cbn [elem_digit] in Hx.
  destruct (isdigit c); [|done]. unfold int_of_char in Hx. by destruct (is_digit c).
Qed.

Lemma compare_digits_older ds rs :
  Forall digit ds → Forall digit rs →
  compare_digits (zip_longest ds rs) = (-1)%Z ↔
  ∃ p y v, rs = p ++ y :: v ∧ (ds = p ∨ ∃ x u, ds = p ++ x :: u ∧ (x < y)%Z).
Proof.
  intros Hds. revert rs. induction Hds as [|d ds Hd Hds IH]; intros rs Hrs.
  - destruct Hrs as [|r rs Hr Hrs]; cbn [zip_longest map compare_digits].
    + split; [done|]. intros (p & y & v & Hp & _). by destruct p.
    + unfold digit in Hr. rewrite (proj2 (Z.ltb_lt _ _)) by lia. split; [|done]. intros _.
      exists [], r, rs. split; [done|by left].
  - unfold digit in Hd. destruct Hrs as [|r rs Hr Hrs]; cbn [zip_longest map compare_digits].
    + rewrite (proj2 (Z.ltb_ge _ _)), (proj2 (Z.ltb_lt _ _)) by lia. split; [done|].
      intros (p & y & v & Hp & _). by destruct p.
    + destruct (Z.ltb_spec d r) as [Hlt|Hge]; [split; [|done]; intros _; exists [], r, rs; split; [done|right; eauto]|].
      destruct (Z.ltb_spec r d) as [Hgt|Hle].
      { split; [done|]. intros ([|q p] & y & v & [= -> ->] & [[=]|(x & u & [= -> ->] & ?)]); simplify_eq; lia. }
      assert (r = d) as -> by lia. rewrite IH by done. split.
      * intros (p & y & v & -> & H). exists (d :: p), y, v. split; [done|].
        destruct H as [->|(x & u & -> & ?)]; [by left|right]. by exists x, u.
      * intros ([|q p] & y & v & [= -> ->] & H).
        { destruct H as [[=]|(x & u & [= -> ->] & ?)]. lia. }
        exists p, y, v. split; [done|]. destruct H as [[= ->]|(x & u & [= ->] & ?)]; [by left|right]. by exists x, u.
Qed.

Lemma older_irrefl a b : a = b → ¬ older a b.
Proof.
  intros -> (p & y & v & Hb & [Ha|(x & u & Ha & Hxy)]); rewrite Ha in Hb.
  - apply (f_equal length) in Hb. rewrite length_app in Hb. cbn in Hb. lia.
  - apply app_inv_head in Hb as [= -> _]. lia.
Qed.

Lemma version_check_older a b c : version_check (VStr a) (VStr b) = Ok c → c = (-1)%Z ↔ older a b.
Proof.
  unfold version_check. cbn [py_eq]. case_bool_decide as Heq.
  - intros [= <-]. split; [done|]. by intros ?%(older_irrefl a b Heq).
  - intros (ds & ->%get_digits_ok & (rs & ->%get_digits_ok & [= <-])%res_bind_ok)%res_bind_ok.
    apply compare_digits_older; apply digits_of_range.
Qed.

(** Versions whose numbers are equally wide are in the order of their numbers. *)
Lemma older_numbers ds rs :
  version_parts ds → version_parts rs → Forall2 (λ p q, String.length p.1 = String.length q.1) ds rs →
  older (version ds) (version rs) ↔ lex (numbers ds rs) = (-1)%Z.
Proof. intros Hds Hrs Hl. symmetry. by apply version_check_older, version_check_same_widths. Qed.

(** Others are not: build 1000 is older than build 999. *)
Lemma older_widths : older "2.0.0-1000" "2.0.0-999".
Proof. by apply (version_check_older _ _ (-1)%Z). Qed.

(** ** Compatibility *)

(** The version that the first clause about a component asks for *)
Inductive ruled (component : value) : list string → string → Prop :=
| ruled_here clause clauses name new_version mapped :
    _parse_version clause = Ok (name, new_version) →
    dget name COMPONENT_NAME_MAP = Some mapped → py_eq component (VStr mapped) = true →
    ruled component (clause :: clauses) new_version
| ruled_later clause clauses name new_version mapped least :
    _parse_version clause = Ok (name, new_version) →
    dget name COMPONENT_NAME_MAP = Some mapped → py_eq component (VStr mapped) = false →
    ruled component clauses least → ruled component (clause :: clauses) least.

Lemma check_component_ruled component version clauses r :
  check_component component version clauses = Ok (Some r) →
  ∃ least, ruled component clauses least ∧ version_check version (VStr least) = Ok r.1.
Proof.
  revert r. induction clauses as [|clause clauses IH]; intros r; cbn [check_component]; [done|].
  intros ([name new] & Hp & H)%res_bind_ok. cbn [fst snd] in H.
  destruct (dget name COMPONENT_NAME_MAP) as [mapped|] eqn:Hm; [|done].
  destruct (py_eq component (VStr mapped)) eqn:He.
  - apply res_bind_ok in H as (c & Hc & [= <-]). exists new. split; [by eapply ruled_here|done].
  - destruct (IH _ H) as (least & Hl & Hv). exists least. split; [by eapply ruled_later|done].
Qed.

(** An installed component, with the text of its version, meets its rule, or is
    below it. *)
Definition meets (clauses : list string) (cv : value * value) : Prop :=
  ∃ least, ruled cv.1 clauses least ∧ ∀ v, cv.2 = VStr v → ¬ older v least.
Definition below (clauses : list string) (cv : value * value) : Prop :=
  ∃ least, ruled cv.1 clauses least ∧ ∀ v, cv.2 = VStr v → older v least.

Lemma check_all_count repr installed clauses : ∀ n m,
  check_all repr installed clauses n = Ok (inl m) →
  m ≤ n + length installed ∧ (m = n + length installed → Forall (meets clauses) installed).
Proof.
  induction installed as [|[component version] installed IH]; intros n m; cbn [check_all length].
  { intros [= <-]. split; [lia|]. constructor. }
  intros (r & Hr & H)%res_bind_ok. destruct r as [[c new]|].
  - destruct (decide (c = -1)%Z) as [|Hc]; [done|]. apply IH in H as [Hle Hall]. split; [lia|].
    intros Hm. constructor; [|apply Hall; lia].
    destruct (check_component_ruled _ _ _ _ Hr) as (least & Hl & Hv). exists least. split; [done|].
    intros v. cbn. intros ->. cbn in Hv. by rewrite <- (version_check_older _ _ _ Hv).
  - apply IH in H as [Hle Hall]. split; [lia|]. lia.
Qed.

Lemma check_all_older repr installed clauses s : ∀ n,
  check_all repr installed clauses n = Ok (inr s) → Exists (below clauses) installed.
Proof.
  induction installed as [|[component version] installed IH]; intros n; cbn [check_all]; [done|].
  intros (r & Hr & H)%res_bind_ok. destruct r as [[c new]|]; [|apply Exists_cons_tl; by eapply IH].
  destruct (decide (c = -1)%Z) as [->|]; [|apply Exists_cons_tl; by eapply IH].
  apply Exists_cons_hd. destruct (check_component_ruled _ _ _ _ Hr) as (least & Hl & Hv). exists least. split; [done|].
  intros v. cbn. intros ->. by apply (version_check_older _ _ _ Hv).
Qed.

(** C37.  An update is answered compatible only when every installed component
    has a rule and its version is not older than the first rule about it says;
    it is answered incompatible only when some component is older than its
    rule.  The order is that of the digits as words: it is that of the numbers
    where they are equally wide. *)
Theorem compatible_exact {S} (rd : reader S) repr open_conf consul_conf resource_type resource_id clauses st b s st' :
  is_version_compatible rd repr open_conf consul_conf resource_type resource_id clauses st = (Ok (b, s), st') →
  ∃ conf_text installed,
    consul_conf = Ok conf_text ∧
    get_installed_version rd repr open_conf resource_id (strip (str repr conf_text)) st = (Ok installed, st') ∧
    if b then Forall (meets clauses) installed else Exists (below clauses) installed.
Proof.
  unfold is_version_compatible. destruct (decide _); [done|]. destruct (negb _); [done|].
  unfold st_bind at 1, st_lift at 1. destruct consul_conf as [text|]; [|done].
  intros H. exists text. apply st_bind_ok in H as (installed & st1 & Hi & H).
  destruct (decide _); [done|]. unfold st_lift in H. injection H as H <-.
  exists installed. split; [done|]. split; [done|].
  unfold check_versions in H. apply res_bind_ok in H as (r & Hr & H). destruct r as [m|msg].
  - destruct (decide _) as [|Hm]; [done|]. injection H as <- <-. apply check_all_count in Hr as [_ Hall].
    apply Hall. simpl. destruct (decide (m = length installed)); [done|tauto].
  - injection H as <- <-. by eapply check_all_older.
Qed.

(** ** Executions *)

(** A configuration held as a dictionary of full keys. *)
Definition items_reader : reader (list (string * value)) :=
  Reader (λ key dflt s, (Ok (default dflt (dget key s)), s)).

Definition old_version : list (string * string) := [("2", "."); ("0", "."); ("0", "-"); ("428", "")].
Definition new_version : list (string * string) := [("2", "."); ("0", "."); ("0", "-"); ("430", "")].

Lemma version_check_same_widths_witness :
  version_check (VStr "2.0.0-428") (VStr "2.0.0-430") = Ok (-1)%Z ∧
  version_check (VStr "2.0.0-430") (VStr "2.0.0-428") = Ok 1%Z.
Proof.
  split.
  - apply (version_check_same_widths old_version new_version); repeat constructor.
  - apply (version_check_same_widths new_version old_version); repeat constructor.
Defined.

Definition cluster : list (string * value) :=
  [("cluster>num_storage_set", VInt 1); ("cluster>storage_set[0]>num_nodes", VStr "1");
   ("cluster>storage_set[0]>nodes[0]", VStr "0cdf"); ("node>0cdf>name", VStr "srvnode-1");
   ("node>0cdf>num_components", VInt 1); ("node>0cdf>components[0]>name", VStr "hare");
   ("node>0cdf>components[0]>version", VStr "2.0.0-438");
   ("cortx>common>release>name", VStr "CORTX"); ("cortx>common>release>version", VStr "2.0.0-440")].

Definition installed_versions : list (value * value) :=
  [(VStr "hare", VStr "2.0.0-438"); (VStr "CORTX", VStr "2.0.0-440")].

Definition compatible (clauses : list string) : ST (list (string * value)) (bool * string) :=
  is_version_compatible items_reader (λ _, "") (λ _, st_ret tt) (Ok (VStr "consul")) "node" "srvnode-1" clauses.

Lemma compatible_exact_witness :
  let clauses := ["cortx-hare >= 2.0.0-430"; "CORTX >= 2.0.0-440"] in
  compatible clauses cluster = (Ok (true, "Versions are Compatible"), cluster) ∧
  (∃ conf_text installed, Ok (VStr "consul") = Ok conf_text ∧
     get_installed_version items_reader (λ _, "") (λ _, st_ret tt) "srvnode-1" (strip (str (λ _, "") conf_text)) cluster
       = (Ok installed, cluster) ∧
     Forall (meets clauses) installed) ∧
  compatible ["cortx-hare >= 2.0.0-500"; "CORTX >= 2.0.0-440"] cluster =
    (Ok (false, "hare deployed version 2.0.0-438 is older than the compatible version 2.0.0-500."), cluster).
Proof.
  intros clauses.
  assert (H : compatible clauses cluster = (Ok (true, "Versions are Compatible"), cluster)) by (vm_compute; reflexivity).
  split; [exact H|]. split; [|vm_compute; reflexivity].
  exact (compatible_exact items_reader (λ _, "") (λ _, st_ret tt) (Ok (VStr "consul")) "node" "srvnode-1" clauses
           cluster true "Versions are Compatible" cluster H).
Defined.

(** A build whose number is wider than that of the rule is refused. *)
Lemma newer_build_refused :
  (compatible ["cortx-hare >= 2.0.0-500"; "CORTX >= 2.0.0-440"]
     (dset "node>0cdf>components[0]>version" (VStr "2.0.0-1000") cluster)).1 =
    Ok (false, "hare deployed version 2.0.0-1000 is older than the compatible version 2.0.0-500.").
Proof. vm_compute. reflexivity. Qed.

End ReleaseSpec.
