(* ===== verification/Activity.v ===== *)
(** [utils/activity_tracker/activity_store.py]: [ActivityEntry], an activity
    as a payload of attributes, and [Activity], which keeps every activity as a
    JSON text under its id in a store.

    The store is a backend of [KvStore], JSON a document format; the time and
    the fresh id of a call are arguments. *)
From Stdlib Require Import Ascii.
From S2P Require Import Prelude PyStr PyVal KvPayload KvPayloadFacts KvPayloadKeys KvPayloadSpec KvStore KvFiles HaDecision.
Import PyStr PayloadFacts PayloadSpec.

Module Activity.

Notation payload := Payload.payload.
Notation kp_data := Payload.kp_data.

Definition NEW : value := VStr "NEW".
Definition IN_PROGRESS : value := VStr "IN_PROGRESS".
Definition COMPLETED : value := VStr "COMPLETED".
Definition SUSPENDED : value := VStr "SUSPENDED".
Definition CREATED_DESC : value := VStr "An activity has been created".

(** ** [ActivityEntry] *)

Record entry := ActivityEntry { ae_id : value; ae_payload : payload }.

(** [self._payload[key] = value] for each item *)
Definition set_items (items : list (string * value)) : ST payload unit :=
  st_iter (λ '(key, val), Payload.set key val) items.

Definition new_payload : payload := Payload.Payload (VDict []) ">" [].

Definition created_items (id : string) (name resource_path description : value) (now : Z)
    : list (string * value) :=
  [("id", VStr id); ("name", name); ("resource_path", resource_path); ("description", description);
   ("pct_progress", VInt 0); ("status", NEW); ("status_description", CREATED_DESC);
   ("created_time", VInt now)].

(** [ActivityEntry] from keyword arguments: a new activity, or the attributes of an old
    one. *)
Definition entry_init (uuid : string) (now : Z) (kwargs : list (string * value)) : res entry :=
  let activity_id := default VNull (dget "id" kwargs) in
  if is_null activity_id then
    match dget "name" kwargs, dget "resource_path" kwargs, dget "description" kwargs with
    | Some activity_name, Some resource_path, Some description =>
        if is_null activity_name || is_null resource_path || is_null description
        then Err (ActivityError EINVAL)
        else match set_items (created_items uuid activity_name resource_path description now) new_payload with
             | (Ok _, p) => Ok (ActivityEntry (VStr uuid) p)
             | (Err e, _) => Err e
             end
    | _, _, _ => Err (ActivityError EINVAL)
    end
  else match set_items kwargs new_payload with
       | (Ok _, p) => Ok (ActivityEntry activity_id p)
       | (Err e, _) => Err e
       end.

(** The mutators, on the payload. *)
Definition set_attr (attr : string) (val : value) : ST payload unit := Payload.set attr val.

Definition set_progress (pct_progress : Z) (status_desc : value) (now : Z) : ST payload unit :=
  if decide (pct_progress < 0 ∨ 99 < pct_progress)%Z then st_raise (ActivityError EINVAL)
  else set_items [("pct_progress", VInt pct_progress); ("status", IN_PROGRESS);
                  ("status_description", status_desc); ("updated_time", VInt now)].

Definition finish_entry (rc : Z) (status_desc : value) (now : Z) : ST payload unit :=
  set_items [("pct_progress", VInt 100); ("status", COMPLETED); ("status_description", status_desc);
             ("updated_time", VInt now); ("rc", VInt rc)].

Definition suspend_entry (status_desc : value) (now : Z) : ST payload unit :=
  set_items [("status", SUSPENDED); ("status_description", status_desc); ("updated_time", VInt now)].

(** ** [Activity] *)

Section activity.
Context {W : Type} (b : Store.backend W) {F : Files.Format}.

(** [activity.payload.json], and [json.loads] of a text *)
Definition json (p : payload) : string := Files.dumps (kp_data p).
Definition json_loads (s : value) : res value :=
  match s with
  | VStr s => match Files.loads s with Some v => Ok v | None => Err JSONDecodeError end
  | _ => Err TypeError
  end.

Definition is_complete (activity_data : value) : res bool :=
  status ← Ha.vget activity_data "status"; Ok (py_eq status COMPLETED).

(** [pct_progress < v] *)
Definition less (pct_progress : Z) (v : value) : res bool :=
  match v with
  | VInt z => Ok (pct_progress <? z)%Z
  | VBool x => Ok (pct_progress <? (if x then 1 else 0))%Z
  | VFloat m e => Ok (if (0 <=? e)%Z then (pct_progress <? Z.shiftl m e)%Z
                      else (Z.shiftl pct_progress (- e) <? m)%Z)
  | _ => Err TypeError
  end.

(** [Activity._kv_store.set([activity.id], [activity.payload.json])] *)
Definition store_entry (id : value) (p : payload) : ST W unit :=
  let! key := st_lift (Ha.as_str id) in Store.set b [key] [VStr (json p)].

Definition create (uuid : string) (now : Z) (name resource_path description : value) : ST W entry :=
  let! activity := st_lift (entry_init uuid now
    [("name", name); ("resource_path", resource_path); ("description", description)]) in
  store_entry (ae_id activity) (ae_payload activity) ;;; st_ret activity.

(** A method on an entry: the entry is changed before the store is. *)
Definition on_entry (check : value → res unit) (m : ST payload unit) : ST (entry * W) unit := λ '(a, w),
  match (data ← json_loads (VStr (json (ae_payload a))); check data) with
  | Err e => (Err e, (a, w))
  | Ok _ =>
      match m (ae_payload a) with
      | (Err e, p) => (Err e, (ActivityEntry (ae_id a) p, w))
      | (Ok _, p) =>
          let '(r, w') := store_entry (ae_id a) p w in (r, (ActivityEntry (ae_id a) p, w'))
      end
  end.

Definition not_complete (data : value) : res unit :=
  c ← is_complete data; if c : bool then Err (ActivityError EINVAL) else Ok tt.

Definition update (pct_progress : Z) (status_desc : value) (now : Z) : ST (entry * W) unit :=
  on_entry (λ data,
    _ ← not_complete data;
    old ← Ha.vget data "pct_progress";
    l ← less pct_progress old;
    if l : bool then Err (ActivityError EINVAL) else Ok tt) (set_progress pct_progress status_desc now).

(** [finish] does not look at the status. *)
Definition finish (rc : Z) (status_desc : value) (now : Z) : ST (entry * W) unit := λ '(a, w),
  match finish_entry rc status_desc now (ae_payload a) with
  | (Err e, p) => (Err e, (ActivityEntry (ae_id a) p, w))
  | (Ok _, p) => let '(r, w') := store_entry (ae_id a) p w in (r, (ActivityEntry (ae_id a) p, w'))
  end.

Definition suspend (status_desc : value) (now : Z) : ST (entry * W) unit :=
  on_entry not_complete (suspend_entry status_desc now).

(** [Activity.get]: a missing key is [None]. *)
Definition get (activity_id : string) : ST W entry :=
  let! val := Store.get b [activity_id] in
  match val with
  | [] | VNull :: _ => st_raise (ActivityError EINVAL)
  | v :: _ =>
      let! data := st_lift (json_loads v) in
      match data with
      | VDict items => st_lift (entry_init "" 0 items)
      | _ => st_raise TypeError
      end
  end.

(** *** [search] *)

(** [re.split("[^a-zA-Z_]", f)[0]] *)
Fixpoint name_prefix (f : string) : string :=
  match f with
  | EmptyString => EmptyString
  | String c f' =>
      let n := code c in
      if ((65 <=? n) && (n <=? 90) || (97 <=? n) && (n <=? 122) || (n =? 95))%N
      then String c (name_prefix f') else EmptyString
  end.

(** [_, r = [i.strip() for i in f.split("==")]], then the quotes removed *)
Definition filter_value (f : string) : res string :=
  match after "==" f with
  | Some rest => if contains rest "==" then Err ValueError
                 else Ok (join "" (split "'" (strip rest)))
  | None => Err ValueError
  end.

Fixpoint matches (repr : value → string) (data : list (string * value)) (filters : list string) : res bool :=
  match filters with
  | [] => Ok true
  | f :: filters' =>
      match dget (name_prefix f) data with
      | None => Ok false
      | Some v =>
          r ← filter_value f;
          if decide (Files.py_str repr v = r) then matches repr data filters' else Ok false
      end
  end.

(** The ids tried are those that start with the resource path. *)
Definition search (repr : value → string) (resource_path : string) (filters : list string)
    : ST W (list string) :=
  let! activity_list := Store.get_keys b resource_path in
  let fix go (ids : list string) : ST W (list string) :=
    match ids with
    | [] => st_ret []
    | activity_id :: ids' =>
        let! val := Store.get b [activity_id] in
        let! data := st_lift (match val with v :: _ => json_loads v | [] => Err IndexError end) in
        let! matched := st_lift (match data with
                                 | VDict items => matches repr items filters
                                 | _ => if decide (filters = []) then Ok true else Err AttributeError
                                 end) in
        let! rest := go ids' in
        st_ret (if matched : bool then activity_id :: rest else rest)
    end in
  go activity_list.

End activity.

End Activity.
