(* ===== verification/ActivitySpec.v ===== *)
(** What the activity tracker promises: the life of an activity (its progress
    never goes back, a completed one stays so), and that the store holds every
    activity as it is. *)
From Stdlib Require Import Ascii.
From S2P Require Import Prelude PyStr PyVal KvPayload KvPayloadFacts KvPayloadKeys KvPayloadSpec KvStore KvStoreFacts KvFiles KvFilesFacts KvCodec HaDecision Activity.
Import PyStr PayloadFacts PayloadSpec Store StoreFacts Activity.

Module ActivitySpec.

(** ** Attributes *)

Lemma set_items_simple its : ∀ items keys,
  Forall (λ kv, simple kv.1 = true) its →
  set_items its (Payload.Payload (VDict items) ">" keys) =
    (Ok tt, Payload.Payload (VDict (dupdate items its)) ">" (foldl append_new keys (Some <$> its.*1))).
Proof. intros items keys. apply set_all_simple. Qed.

Lemma dget_dset_many k k' (v : value) d : dget k (dset k' v d) = if decide (k = k') then Some v else dget k d.
Proof. case_decide; [subst; apply dget_dset_eq|by apply dget_dset_ne]. Qed.

(** ** The life of an activity *)

Section life.
Context {W : Type} (b : Store.backend W) {F : Files.Format} {FL : Files.FormatLaws F}.

Definition progress (d : list (string * value)) : Z :=
  match dget "pct_progress" d with Some (VInt z) => z | _ => 0 end.
Definition status (d : list (string * value)) : option value := dget "status" d.

(** The attributes of an activity with a given id: a JSON object of simple
    names, with a progress between 0 and 100 that is 100 exactly when the
    activity is completed. *)
Record life (id : string) (d : list (string * value)) : Prop := {
  life_wf : wf (VDict d);
  life_scal : all_scalars Files.scal (VDict d) = true;
  life_keys : Forall (λ kv, simple kv.1 = true) d;
  life_id : dget "id" d = Some (VStr id);
  life_status : ∃ s, status d = Some s ∧ s ∈ [NEW; IN_PROGRESS; SUSPENDED; COMPLETED];
  life_progress : dget "pct_progress" d = Some (VInt (progress d)) ∧ (0 <= progress d <= 100)%Z;
  life_complete : status d = Some COMPLETED ↔ progress d = 100%Z
}.

Definition good (id : string) (a : entry) : Prop :=
  ae_id a = VStr id ∧ ∃ d keys, ae_payload a = Payload.Payload (VDict d) ">" keys ∧ life id d.

Definition items (a : entry) : list (string * value) :=
  match Payload.kp_data (ae_payload a) with VDict d => d | _ => [] end.

Inductive act :=
| Update (pct_progress : Z) (status_desc : string) (now : Z)
| Finish (rc : Z) (status_desc : string) (now : Z)
| Suspend (status_desc : string) (now : Z).

Definition run (o : act) : ST (entry * W) unit :=
  match o with
  | Update pct desc now => update b pct (VStr desc) now
  | Finish rc desc now => finish b rc (VStr desc) now
  | Suspend desc now => suspend b (VStr desc) now
  end.

(** The attributes an operation sets. *)
Definition sets (o : act) : list (string * value) :=
  match o with
  | Update pct desc now =>
      [("pct_progress", VInt pct); ("status", IN_PROGRESS); ("status_description", VStr desc); ("updated_time", VInt now)]
  | Finish rc desc now =>
      [("pct_progress", VInt 100); ("status", COMPLETED); ("status_description", VStr desc);
       ("updated_time", VInt now); ("rc", VInt rc)]
  | Suspend desc now =>
      [("status", SUSPENDED); ("status_description", VStr desc); ("updated_time", VInt now)]
  end.

(** When an operation is refused. *)
Definition refused (o : act) (d : list (string * value)) : bool :=
  match o with
  | Finish _ _ _ => false
  | Suspend _ _ => bool_decide (progress d = 100%Z)
  | Update pct _ _ =>
      bool_decide (progress d = 100%Z) || (pct <? progress d)%Z || (pct <? 0)%Z || (99 <? pct)%Z
  end.

Lemma dupdate_scal d its :
  all_scalars Files.scal (VDict d) = true → Forall (λ kv, all_scalars Files.scal kv.2 = true) its →
  all_scalars Files.scal (VDict (dupdate d its)) = true.
Proof.
  unfold dupdate. revert d. induction its as [|[k v] its IH]; intros d Hd; [done|].
  intros [Hv Hits]%Forall_cons. cbn [foldl fst snd]. apply IH; [|done]. clear IH Hits. cbn in Hv |- *.
  induction d as [|[k' v'] d IHd]; cbn in *; [by rewrite Hv|].
  apply andb_prop in Hd as [Hv' Hd]. case_decide; cbn; [by rewrite Hv, Hd|]. by rewrite Hv', IHd.
Qed.

Lemma dupdate_forall (P : string → Prop) (d its : list (string * value)) :
  Forall (λ kv, P kv.1) d → Forall (λ kv, P kv.1) its → Forall (λ kv, P kv.1) (dupdate d its).
Proof.
  unfold dupdate. revert d. induction its as [|[k v] its IH]; intros d Hd; [done|].
  intros [Hk Hits]%Forall_cons. cbn [foldl fst snd]. apply IH; [|done].
  clear -Hd Hk. induction Hd as [|[k' v'] d Hk' Hd IHd]; cbn; [by constructor|].
  case_decide; by constructor.
Qed.

Lemma dupdate_wf d its :
  wf (VDict d) → Forall (λ kv, wf kv.2) its → wf (VDict (dupdate d its)).
Proof.
  unfold dupdate. revert d. induction its as [|[k v] its IH]; intros d Hd; [done|].
  intros [Hk Hits]%Forall_cons. cbn [foldl fst snd]. apply IH; [|done]. by apply wf_dset.
Qed.

Lemma sets_facts o :
  Forall (λ kv, simple kv.1 = true) (sets o) ∧ Forall (λ kv, wf kv.2) (sets o) ∧
  Forall (λ kv, all_scalars Files.scal kv.2 = true) (sets o).
Proof.
  destruct o; split_and!; repeat first [apply Forall_nil_2|apply Forall_cons_2]; cbn;
    first [reflexivity|apply wf_int|apply wf_str|apply Files.scal_int|apply Files.scal_str].
Qed.

Lemma life_sets id d o : life id d → refused o d = false → life id (dupdate d (sets o)).
Proof.
  intros [Hwf Hsc Hk Hid Hst Hpr Hc] Hr. destruct (sets_facts o) as (Hs1 & Hs2 & Hs3).
  assert (Hg : ∀ k, dget k (dupdate d (sets o)) = match dget k (rev (sets o)) with Some v => Some v | None => dget k d end).
  { intros k. destruct o; cbn [dupdate sets foldl fst snd rev app]; rewrite !dget_dset_many;
      cbn [dget]; repeat case_decide; done. }
  assert (Hp : progress (dupdate d (sets o)) = match o with Update p _ _ => p | Finish _ _ _ => 100%Z | _ => progress d end).
  { unfold progress. rewrite Hg. by destruct o. }
  assert (Hstat : status (dupdate d (sets o)) =
            Some match o with Update _ _ _ => IN_PROGRESS | Finish _ _ _ => COMPLETED | Suspend _ _ => SUSPENDED end).
  { unfold status. rewrite Hg. by destruct o. }
  split.
  - by apply dupdate_wf.
  - by apply dupdate_scal.
  - by apply (dupdate_forall (λ k, simple k = true)).
  - rewrite Hg. by destruct o.
  - rewrite Hstat. eexists; split; [done|]; destruct o; repeat first [left|right].
  - rewrite Hp, Hg. destruct o; cbn [rev app sets dget].
    + split; [done|]. unfold refused in Hr. rewrite !orb_false_iff, !Z.ltb_ge in Hr. lia.
    + split; [done|lia].
    + split; [|apply Hpr]. destruct Hpr as [-> _]. done.
  - rewrite Hp, Hstat. destruct o; cbn [refused] in Hr.
    + rewrite !orb_false_iff, !Z.ltb_ge in Hr. split; [by intros [=]|lia].
    + done.
    + apply bool_decide_eq_false in Hr. split; [by intros [=]|done].
Qed.

Lemma loads_life id d : life id d → Files.loads (Files.dumps (VDict d)) = Some (VDict d).
Proof. intros [Hwf Hsc _ _ _ _ _]. by apply Files.loads_dumps. Qed.

Lemma complete_life id d : life id d → is_complete (VDict d) = Ok (bool_decide (progress d = 100%Z)).
Proof.
  intros [_ _ _ _ (s & Hs & Hin) _ Hc]. unfold is_complete. cbn [Ha.vget Ha.vget_or mbind res_bind].
  unfold status in Hs, Hc. rewrite Hs in *. cbn [default]. f_equal. change (Datatypes.id s) with s.
  rewrite !elem_of_cons, elem_of_nil in Hin.
  destruct (decide (progress d = 100%Z)) as [Hp|Hp].
  - apply Hc in Hp as Heq. injection Heq as ->. rewrite bool_decide_true by done. done.
  - rewrite bool_decide_false by done.
    destruct Hin as [->|[->|[->|[->|[]]]]]; try done. exfalso. by apply Hp, Hc.
Qed.

(** Every operation on a good entry: refused with nothing changed, or the
    attributes set and stored. *)
Lemma run_exact id a w o :
  good id a →
  run o (a, w) =
    if refused o (items a) then (Err (ActivityError EINVAL), (a, w))
    else let p := (set_items (sets o) (ae_payload a)).2 in
         let '(r, w') := store_entry b (VStr id) p w in (r, (ActivityEntry (VStr id) p, w')).
Proof.
  destruct a as [aid p]. intros [Hid (d & keys & Hp & Hl)]. cbn [ae_id ae_payload] in *. subst aid p.
  unfold items. cbn [ae_payload Payload.kp_data].
  destruct (sets_facts o) as (Hs & _ & _). pose proof (set_items_simple (sets o) d keys Hs) as Hset.
  pose proof (complete_life id d Hl) as Hcomp. pose proof (life_progress id d Hl) as [Hpct _].
  assert (Hjs : json_loads (VStr (json (Payload.Payload (VDict d) ">" keys))) = Ok (VDict d)).
  { unfold json_loads, json. cbn [Payload.kp_data]. by rewrite (loads_life id d Hl). }
  destruct o as [pct desc now|rc desc now|desc now]; cbn [run refused].
  - unfold update, on_entry. cbn [ae_payload]. rewrite Hjs. cbn [mbind res_bind].
    unfold not_complete. rewrite Hcomp. cbn [mbind res_bind].
    destruct (bool_decide (progress d = 100%Z)); [done|]. cbn [mbind res_bind orb Ha.vget Ha.vget_or].
    rewrite Hpct. cbn [default]. change (Datatypes.id (VInt (progress d))) with (VInt (progress d)).
    cbn [less mbind res_bind]. destruct (pct <? progress d)%Z; [done|]. cbn [orb].
    unfold set_progress.
    destruct (decide (pct < 0 ∨ 99 < pct)%Z) as [Hr|Hr].
    + assert ((pct <? 0)%Z || (99 <? pct)%Z = true) as ->; [|done].
      rewrite orb_true_iff, !Z.ltb_lt. done.
    + assert ((pct <? 0)%Z || (99 <? pct)%Z = false) as ->.
      { rewrite orb_false_iff, !Z.ltb_ge. lia. }
      change (set_items _ (Payload.Payload (VDict d) ">" keys)) with
        (set_items (sets (Update pct desc now)) (Payload.Payload (VDict d) ">" keys)).
      by rewrite Hset.
  - unfold finish, finish_entry. cbn [ae_payload].
    change (set_items _ (Payload.Payload (VDict d) ">" keys)) with
      (set_items (sets (Finish rc desc now)) (Payload.Payload (VDict d) ">" keys)). by rewrite Hset.
  - unfold suspend, on_entry. cbn [ae_payload]. rewrite Hjs. cbn [mbind res_bind].
    unfold not_complete. rewrite Hcomp. cbn [mbind res_bind].
    destruct (bool_decide (progress d = 100%Z)); [done|]. unfold suspend_entry.
    change (set_items _ (Payload.Payload (VDict d) ">" keys)) with
      (set_items (sets (Suspend desc now)) (Payload.Payload (VDict d) ">" keys)). by rewrite Hset.
Qed.

Lemma run_good id a w o : good id a → good id (run o (a, w)).2.1 ∧
  (progress (items a) <= progress (items (run o (a, w)).2.1))%Z.
Proof.
  intros Hg. rewrite (run_exact id) by done. destruct (refused o (items a)) eqn:Hr; [split; [done|cbn; lia]|].
  destruct Hg as [Hid (d & keys & Hp & Hl)]. unfold items in Hr |- *. rewrite Hp in Hr |- *. cbn [Payload.kp_data] in Hr |- *.
  destruct (sets_facts o) as (Hs & _ & _). rewrite set_items_simple by done. cbn [snd].
  destruct (store_entry b (VStr id) _ w) as [r w']. cbn [fst snd ae_payload Payload.kp_data].
  pose proof (life_sets id d o Hl Hr) as Hl'. split; [split; [done|by eexists _, _]|].
  destruct o; cbn [refused] in Hr.
  - rewrite !orb_false_iff, !Z.ltb_ge in Hr. unfold progress at 2. cbn [dupdate sets foldl fst snd].
    rewrite !dget_dset_many, !decide_False, decide_True by done. lia.
  - unfold progress at 2. cbn [dupdate sets foldl fst snd].
    rewrite !dget_dset_many, !decide_False, decide_True by done. apply (life_progress id d Hl).
  - unfold progress at 2. cbn [dupdate sets foldl fst snd].
    rewrite !dget_dset_many, !decide_False by done. fold (progress d). lia.
Qed.

Definition run_all (os : list act) (st : entry * W) : entry * W := foldl (λ st o, (run o st).2) st os.

Lemma run_all_good id os : ∀ a w, good id a →
  good id (run_all os (a, w)).1 ∧ (progress (items a) <= progress (items (run_all os (a, w)).1))%Z.
Proof.
  unfold run_all. induction os as [|o os IH]; intros a w Hg; [split; [done|cbn; lia]|]. cbn [foldl].
  destruct (run_good id a w o Hg) as [Hg' Hle]. destruct (run o (a, w)).2 as [a' w']. cbn [fst] in *.
  destruct (IH a' w' Hg') as [? ?]. split; [done|lia].
Qed.

Lemma good_life id a : good id a → life id (items a).
Proof. intros [_ (d & keys & Hp & Hl)]. unfold items. by rewrite Hp. Qed.

(** A new activity has the attributes it was created with. *)
Lemma create_good uuid now name path desc w a w' :
  create b uuid now (VStr name) (VStr path) (VStr desc) w = (Ok a, w') →
  good uuid a ∧ items a = created_items uuid (VStr name) (VStr path) (VStr desc) now ∧
  store_entry b (VStr uuid) (ae_payload a) w = (Ok tt, w').
Proof.
  set (its := created_items uuid (VStr name) (VStr path) (VStr desc) now).
  assert (Hits : Forall (λ kv, simple kv.1 = true) its)
    by (repeat first [apply Forall_nil_2|apply Forall_cons_2]; reflexivity).
  assert (Hset : set_items its new_payload =
     (Ok tt, Payload.Payload (VDict its) ">" (foldl append_new [] (Some <$> its.*1)))).
  { unfold new_payload. rewrite set_items_simple by done.
    by rewrite dupdate_fresh by (apply (bool_decide_unpack _); reflexivity). }
  assert (Hinit : entry_init uuid now [("name", VStr name); ("resource_path", VStr path); ("description", VStr desc)] =
     match set_items its new_payload with
     | (Ok _, p) => Ok (ActivityEntry (VStr uuid) p) | (Err e, _) => Err e end) by reflexivity.
  unfold create, st_bind, st_lift. rewrite Hinit, Hset. cbn [ae_id ae_payload].
  destruct (store_entry b (VStr uuid) _ w) as [[[]|e] w1] eqn:Hst; [|done]. intros [= <- <-].
  split_and!; [|done|done]. split; [done|]. eexists its, _; split; [done|].
  split.
  - apply wf_dict; [apply (bool_decide_unpack _); reflexivity|].
    repeat first [apply Forall_nil_2|apply Forall_cons_2]; cbn; first [apply wf_str|apply wf_int].
  - cbn. by rewrite !Files.scal_str, !Files.scal_int.
  - done.
  - done.
  - exists NEW. split; [done|]. left.
  - split; [done|]. change (progress its) with 0%Z. lia.
  - change (progress its) with 0%Z. change (status its) with (Some NEW). split; [by intros [=]|lia].
Qed.

(** C38.  The life of an activity: however it is updated, suspended and
    finished, in whatever order, with refused and failed calls in between, its
    attributes stay those of an activity with its id, its progress never goes
    back, and it is completed exactly when the progress is 100, for good. *)
Theorem activity_lifecycle uuid now name path desc w a w1 os1 os2 :
  create b uuid now (VStr name) (VStr path) (VStr desc) w = (Ok a, w1) →
  let st1 := run_all os1 (a, w1) in
  let st2 := run_all os2 st1 in
  life uuid (items st1.1) ∧ (progress (items st1.1) <= progress (items st2.1))%Z ∧
  (status (items st1.1) = Some COMPLETED → status (items st2.1) = Some COMPLETED).
Proof.
  intros (Hg & _ & _)%create_good. cbv zeta.
  destruct (run_all_good uuid os1 a w1 Hg) as [Hg1 _]. destruct (run_all os1 (a, w1)) as [a1 w2].
  cbn [fst] in Hg1. destruct (run_all_good uuid os2 a1 w2 Hg1) as [Hg2 Hle].
  pose proof (good_life _ _ Hg1) as Hl1. pose proof (good_life _ _ Hg2) as Hl2.
  split_and!; [done..|]. cbn [fst] in *. intros Hs%(life_complete _ _ Hl1).
  apply (life_complete _ _ Hl2). pose proof (proj2 (life_progress _ _ Hl2)). lia.
Qed.

(** ** The store *)

Context (dom : value → Prop) (valid : W → Prop) {BL : Store.BackendLaws b ">" dom valid}.
Context (dom_str : ∀ s, dom (VStr s)).

(** The store can be read and holds the activity. *)
Definition stored (id : string) (a : entry) (w : W) : Prop :=
  valid w ∧ (∃ p, Store.b_load b true w = (Ok p, w)) ∧
  Store.get b [id] w = (Ok [VStr (json (ae_payload a))], w).

(** Storing an entry in a store that can be read. *)
Lemma store_stored id p w :
  fair id = true → valid w → (∃ p0, Store.b_load b true w = (Ok p0, w)) →
  ∃ w', store_entry b (VStr id) p w = (Ok tt, w') ∧ stored id (ActivityEntry (VStr id) p) w'.
Proof.
  intros Hid Hv Hr. unfold store_entry, st_bind, st_lift. cbn [Ha.as_str].
  destruct (set_one b dom valid id (VStr (json p)) w Hid Hv Hr (dom_str _) (wf_str _)) as (w' & Hs & Hv' & Hr' & Hg).
  by exists w'.
Qed.

Lemma store_entry_readable id p w w' :
  valid w → store_entry b id p w = (Ok tt, w') → ∃ p0, Store.b_load b true w = (Ok p0, w).
Proof.
  intros Hv. unfold store_entry, st_bind, st_lift. destruct (Ha.as_str id); [|done].
  unfold Store.set, Store.load_modify_dump, st_bind. rewrite decide_False by (intros Hlen; by apply Hlen).
  pose proof (Store.load_inv b ">" dom valid true w) as Hl.
  destruct (Store.b_load b true w) as [[p0|e] w0]; [|done]. cbn [fst] in Hl. injection Hl as ->. eauto.
Qed.

(** What is stored follows the entry: a refused call changes neither. *)
Lemma run_stored id a w o :
  fair id = true → good id a → stored id a w → stored id (run o (a, w)).2.1 (run o (a, w)).2.2.
Proof.
  intros Hid Hg Hs. rewrite (run_exact id) by done. destruct (refused o (items a)); [done|].
  cbv zeta. destruct Hs as (Hv & Hr & _).
  destruct (store_stored id (set_items (sets o) (ae_payload a)).2 w Hid Hv Hr) as (w' & -> & Hs'). done.
Qed.

Lemma run_all_stored id os : ∀ a w,
  fair id = true → good id a → stored id a w →
  stored id (run_all os (a, w)).1 (run_all os (a, w)).2.
Proof.
  unfold run_all. induction os as [|o os IH]; intros a w Hid Hg Hs; [done|]. cbn [foldl].
  pose proof (run_stored id a w o Hid Hg Hs) as Hs'. pose proof (proj1 (run_good id a w o Hg)) as Hg'.
  destruct (run o (a, w)).2 as [a' w']. by apply IH.
Qed.

Lemma get_stored id a w :
  good id a → stored id a w →
  ∃ a', get b id w = (Ok a', w) ∧ ae_id a' = ae_id a ∧
        Payload.kp_data (ae_payload a') = Payload.kp_data (ae_payload a).
Proof.
  intros [Hid (d & keys & Hp & Hl)] (_ & _ & Hget). unfold get, st_bind. rewrite Hget.
  unfold json. rewrite Hp. unfold st_lift, json_loads. cbn [Payload.kp_data].
  rewrite (loads_life id d Hl). unfold entry_init. rewrite (life_id id d Hl). cbn [default is_null]. change (Datatypes.id (VStr id)) with (VStr id). cbn [is_null].
  unfold new_payload. rewrite set_items_simple by apply (life_keys id d Hl).
  rewrite dupdate_fresh.
  - eexists. split; [done|]. cbn [ae_id ae_payload Payload.kp_data app]. by rewrite Hid.
  - pose proof (life_wf id d Hl) as Hwf. by inversion Hwf.
Qed.

(** What the store holds is the activity as it stands: after it was
    created, whatever calls are made on it and whichever are refused,
    [Activity.get] returns an entry with its id and its attributes. *)
Theorem activity_get_back uuid now name path desc w a w1 os :
  create b uuid now (VStr name) (VStr path) (VStr desc) w = (Ok a, w1) →
  valid w → fair uuid = true →
  let st := run_all os (a, w1) in
  ∃ a', get b uuid st.2 = (Ok a', st.2) ∧ ae_id a' = VStr uuid ∧
        Payload.kp_data (ae_payload a') = Payload.kp_data (ae_payload st.1).
Proof.
  intros (Hg & _ & Hst)%create_good Hv Hid. cbv zeta.
  pose proof (store_entry_readable _ _ _ _ Hv Hst) as Hr.
  destruct (store_stored uuid (ae_payload a) w Hid Hv Hr) as (w' & Hst' & Hs).
  rewrite Hst in Hst'. injection Hst' as <-. 
  assert (Ha : ActivityEntry (VStr uuid) (ae_payload a) = a) by (destruct a, Hg as [Hga _]; cbn in *; by subst).
  rewrite Ha in Hs. pose proof (run_all_stored uuid os a w1 Hid Hg Hs) as Hs'.
  pose proof (proj1 (run_all_good uuid os a w1 Hg)) as Hg'.
  destruct (run_all os (a, w1)) as [a1 w2]. cbn [fst snd] in *.
  destruct (get_stored uuid a1 w2 Hg' Hs') as (a' & ? & Hi & ?). exists a'. split_and!; [done| |done].
  rewrite Hi. apply Hg'.
Qed.

End life.
(** ** An activity in a store that keeps a document in memory *)

Import Codec.

Definition memory : Store.backend value :=
  Store.Backend (λ _ w, (Ok (Payload.Payload w ">" []), w)) (λ p _, (Ok tt, Payload.kp_data p)).
Definition in_memory (w : value) : Prop := wf w ∧ is_dict w = true.

#[global] Instance memory_laws : Store.BackendLaws memory ">" (λ _, True) in_memory.
Proof.
  constructor; try done.
  - intros r w p w' [Hw Hd] [= <- <-]. split_and!; [|done..]. split; [done..|]. by exists ">"%char.
  - intros p w [Hw Hd _] _. done.
  - intros p w _ _ _. by eexists.
Qed.

Definition empty : value := VDict [].
Definition uuid1 : string := "5f0c".
Definition created : res entry * value :=
  create (F:=binary) memory uuid1 1 (VStr "scan") (VStr "sr>1") (VStr "all") empty.
Definition entry1 : entry :=
  match created.1 with Ok a => a | Err _ => ActivityEntry VNull new_payload end.

(** Halfway, an update that goes back, a pause, the end, and a late update. *)
Definition calls : list act :=
  [Update 50 "half" 2; Update 40 "back" 3; Suspend "pause" 4; Finish 0 "done" 5; Update 60 "late" 6].

Lemma created_ok :
  create (F:=binary) memory uuid1 1 (VStr "scan") (VStr "sr>1") (VStr "all") empty = (Ok entry1, created.2).
Proof. vm_compute. reflexivity. Qed.

Lemma activity_lifecycle_witness :
  let st1 := run_all (F:=binary) memory (take 3 calls) (entry1, created.2) in
  let st2 := run_all (F:=binary) memory (drop 3 calls) st1 in
  progress (items st1.1) = 50%Z ∧ progress (items st2.1) = 100%Z ∧
  (progress (items st1.1) <= progress (items st2.1))%Z.
Proof.
  cbv zeta. split_and!; [vm_compute; reflexivity..|].
  apply (activity_lifecycle memory uuid1 1 "scan" "sr>1" "all" empty entry1 created.2 (take 3 calls) (drop 3 calls) created_ok).
Defined.

Lemma activity_get_back_witness :
  let st := run_all (F:=binary) memory calls (entry1, created.2) in
  status (items st.1) = Some COMPLETED ∧
  ∃ a', get (F:=binary) memory uuid1 st.2 = (Ok a', st.2) ∧ ae_id a' = VStr uuid1 ∧
        Payload.kp_data (ae_payload a') = Payload.kp_data (ae_payload st.1).
Proof.
  cbv zeta. split; [vm_compute; reflexivity|].
  apply (activity_get_back memory (λ _, True) in_memory (λ _, I)
    uuid1 1 "scan" "sr>1" "all" empty entry1 created.2 calls created_ok
    (conj (wf_dict [] (NoDup_nil_2) (Forall_nil_2 _)) eq_refl) eq_refl).
Defined.

(** [search] lists the ids that start with the resource path, so it finds an
    activity by the start of its id and not by its resource path. *)
Lemma search_by_id :
  (search (F:=binary) memory (λ _, "") "sr>1" [] created.2).1 = Ok [] ∧
  (search (F:=binary) memory (λ _, "") "5f" ["status == 'NEW'"] created.2).1 = Ok [uuid1].
Proof. split; vm_compute; reflexivity. Qed.

End ActivitySpec.
