(* ===== verification/HacCompile.v ===== *)
(** [utils/ha/hac/compile.py], [validation.py]: the compiler of HA
    specifications.  It merges the specification files of the components,
    derives the edges between their resources and validates the result.

    The listing of the source directory ([os.walk]), the JSON decoder and
    [networkx.simple_cycles] are parameters; drawing the graphs is not
    modelled. *)
From Stdlib Require Import Ascii.
From S2P Require Import Prelude PyStr PyVal KvFiles HaDecision.
Import PyStr.

Module Hac.

(** ** Constants and the compiled schema *)

Definition HA_MODES : list string := ["active_passive"; "active_active"; "primary_secondary"].
Definition HA_GROUP : list string := ["common"; "management"; "io"].

Definition edge : Type := string * string.

Record schema := Schema {
  predecessors_edge : list edge;
  colocation_edges : list edge;
  isolate_resources : list string;
  resources : list (string * value)
}.

Definition empty_schema : schema := Schema [] [] [] [].

(** [for x in v], of names *)
Definition iter_names (v : value) : res (list string) := l ← Ha.iter_values v; res_map Ha.as_str l.

(** [resource_set[res]["dependencies"][kind]] *)
Definition dependencies (kind : string) (body : value) : res (list string) :=
  deps ← Ha.vitem body "dependencies"; l ← Ha.vitem deps kind; iter_names l.

(** [v.keys()] *)
Definition keys (v : value) : res (list string) :=
  match v with VDict items => Ok (dkeys items) | _ => Err AttributeError end.

(** A loop over a list that may raise. *)
Fixpoint each {A B} (f : A → B → res B) (l : list A) (acc : B) : res B :=
  match l with
  | [] => Ok acc
  | a :: l' => acc' ← f a acc; each f l' acc'
  end.

(** ** [SyntaxValidator] *)

Section syntax.
Context {F : Files.Format}.

Definition files : Type := gmap string string.

(** The lines that are no comments. *)
Definition uncomment (text : string) : string :=
  String.concat "" (filter (λ l, negb (startswith (strip l) "#")) (readlines (Files.universal_newlines text))).

(** [_is_file] and [_is_valid_json]: what is parsed is written next to the
    file first. *)
Definition read_spec (schema_file : string) : ST files value := λ fs,
  match fs !! schema_file with
  | None => (Err PlainException, fs)
  | Some text =>
      let parsed := uncomment text in
      (match Files.loads parsed with Some v => Ok v | None => Err PlainException end,
       <[schema_file +:+ ".parse" := parsed]> fs)
  end.

Definition each_resource (f : value → res unit) (schema : value) : res unit :=
  components ← keys schema;
  each (λ component _,
    c ← Ha.vitem schema component; rs ← keys c;
    each (λ resource _, body ← Ha.vitem c resource; f body) rs tt) components tt.

(** An invalid group is a warning on the standard output. *)
Definition _validate_component_group (schema : value) : res unit :=
  each_resource (λ body, _ ← Ha.vitem body "group"; Ok tt) schema.

Definition _validate_mode (schema : value) : res unit :=
  each_resource (λ body,
    ha ← Ha.vitem body "ha"; mode ← Ha.vitem ha "mode";
    if existsb (λ m, py_eq mode (VStr m)) HA_MODES then Ok tt else Err PlainException) schema.

(** [execute]: the methods in the order of their names. *)
Definition execute (methods : list (res unit)) : res unit := each (λ m _, m) methods tt.

Definition syntax_methods (schema : value) : list (res unit) :=
  [_validate_component_group schema; _validate_mode schema].

Definition _verify_ha_spec_schema (ha_spec_file : string) : ST files value :=
  let! schema := read_spec ha_spec_file in
  st_lift (execute (syntax_methods schema)) ;;; st_ret schema.

(** ** [Compiler] *)

(** One resource of a component: [res] and [compiled_schema] are undefined in
    the message of the exception. *)
Definition add_resource (component resource : string) (body : value) : ST schema unit := λ s,
  let put b := Schema (predecessors_edge s) (colocation_edges s) (isolate_resources s)
                      (dset resource b (resources s)) in
  match dget resource (resources s) with
  | Some _ => (Err NameError, s)
  | None =>
      match body with
      | VDict items => (Ok tt, put (VDict (dset "component" (VStr component) items)))
      | _ => (Err TypeError, put body)
      end
  end.

(** [for component in components.keys(): for resource in components[component].keys()] *)
Definition add_components (components : value) : ST schema unit :=
  let! names := st_lift (keys components) in
  st_iter (λ component,
    let! c := st_lift (Ha.vitem components component) in
    let! rs := st_lift (keys c) in
    st_iter (λ resource,
      let! body := st_lift (Ha.vitem c resource) in add_resource component resource body) rs) names.

(** [_create_parse_file]; the directories are not looked at, and every file is
    looked for in [source_path] itself. *)
Definition _create_parse_file (source_path : string) (filenames : list string)
    : ST (files * schema) unit :=
  st_iter (λ filename '(fs, s),
    if endswith filename "json" then
      match _verify_ha_spec_schema (source_path +:+ filename) fs with
      | (Err e, fs') => (Err e, (fs', s))
      | (Ok components, fs') => let '(r, s') := add_components components s in (r, (fs', s'))
      end
    else (Ok tt, (fs, s))) filenames.

(** [walk]: the names of the files of each directory. *)
Definition parse_files (source_path : string) (walk : list (list string)) : ST (files * schema) unit :=
  st_iter (_create_parse_file source_path) walk.

(** *** [compile_graph] *)

Definition _update_dependencies (deps : list string) (edges : list edge) (resource : string) : list edge :=
  edges ++ map (λ res_name, (res_name, resource)) deps.

(** The edges of the resources, and the resources of all relations. *)
Definition collect (rs : list (string * value)) : res (list edge * list edge * list string) :=
  each (λ '(r, body) '(predecessors_edges, colocation_edges, isolate_resources),
    predecessors ← dependencies "predecessors" body;
    colocations ← dependencies "colocation" body;
    relation ← dependencies "relation" body;
    Ok (_update_dependencies predecessors predecessors_edges r,
        _update_dependencies colocations colocation_edges r,
        isolate_resources ++ relation)) rs ([], [], []).

(** [l.remove(x)] of an element of the list *)
Fixpoint remove1 {A} `{EqDecision A} (x : A) (l : list A) : list A :=
  match l with
  | [] => []
  | y :: l' => if decide (x = y) then l' else y :: remove1 x l'
  end.

(** [if res in isolate_resources: isolate_resources.remove(res)] *)
Definition isolate_step (isolate_resources : list string) (r : string) : list string :=
  if decide (r ∈ isolate_resources) then remove1 r isolate_resources else isolate_resources.

Definition _isolate (predecessors : list edge) (isolate_resources : list string) : list string :=
  foldl (λ iso '(a, b), isolate_step (isolate_step iso a) b) isolate_resources predecessors.

(** [list(set(edges))]; a set has no order of its own. *)
Definition edge_set (edges : list edge) : list edge := remove_dups edges.

Definition compile_graph (s : schema) : res schema :=
  '(pred, coloc, iso) ← collect (resources s);
  Ok (Schema (edge_set pred) (edge_set coloc) (_isolate (edge_set pred) iso) (resources s)).

(** *** [verify_schema] *)

(** The order graph: its nodes and its edges. *)
Record graph := Graph { nodes : list string; edges : list edge }.

Definition add_node (g : graph) (n : string) : graph := Graph (append_new (nodes g) n) (edges g).
Definition add_edge (g : graph) (e : edge) : graph :=
  Graph (append_new (append_new (nodes g) e.1) e.2) (append_new (edges g) e).

Definition order_graph (s : schema) : graph :=
  foldl add_edge (foldl add_node (Graph [] []) (dkeys (resources s))) (predecessors_edge s).

Context (simple_cycles : graph → list (list string)).

Definition _validate_cycle (s : schema) : res unit :=
  if decide (simple_cycles (order_graph s) = []) then Ok tt else Err PlainException.

(** Every dependency of a kind names a resource; the messages are collected and
    raised at the end. *)
Definition _validate_resource (kind : string) (s : schema) : res unit :=
  invalid ← each (λ '(_, body) invalid,
    deps ← dependencies kind body;
    Ok (invalid || existsb (λ d, negb (bool_decide (d ∈ dkeys (resources s)))) deps)) (resources s) false;
  if invalid : bool then Err PlainException else Ok tt.

Definition _validate_resource_predecessors (s : schema) : res unit := _validate_resource "predecessors" s.
Definition _validate_resource_colocation (s : schema) : res unit := _validate_resource "colocation" s.
Definition _validate_resource_relation (s : schema) : res unit := _validate_resource "relation" s.

Definition symantic_methods (s : schema) : list (res unit) :=
  [_validate_cycle s; _validate_resource_colocation s; _validate_resource_predecessors s;
   _validate_resource_relation s].

Definition _verify_compiled_schema (s : schema) : res unit := execute (symantic_methods s).

Definition verify_schema (s : schema) : res unit := _verify_compiled_schema s.

(** [hac --compile]: the compiled schema. *)
Definition compile (source_path : string) (walk : list (list string)) : ST (files * schema) schema := λ st,
  match parse_files source_path walk st with
  | (Err e, st') => (Err e, st')
  | (Ok _, (fs, s)) =>
      match compile_graph s with
      | Err e => (Err e, (fs, s))
      | Ok s' => (match verify_schema s' with Ok _ => Ok s' | Err e => Err e end, (fs, s'))
      end
  end.

End syntax.

End Hac.
