(* ===== verification/HacGenerate.v ===== *)
(** [utils/ha/hac/generate.py]: the generators of the scripts that configure a
    cluster from a compiled schema, whole or restricted to some resources and
    what they depend on.

    A generator writes its script piece by piece: the state of the writing
    functions is the text of the file.  The replacement of [${var}] in the
    text of the whole schema by provisioned values is a parameter. *)
From Stdlib Require Import Ascii.
From S2P Require Import Prelude PyStr PyVal KvFiles HaDecision Release HacCompile.
Import PyStr Hac.

Module Gen.

(** ** Restriction to some resources: [PCSGeneratorResource] *)

(** The dependencies [_search_recursive] follows from a resource. *)
Definition depends (s : schema) (resource : string) : res (list string) :=
  match dget resource (resources s) with
  | None => Err KeyError
  | Some body =>
      predecessors ← dependencies "predecessors" body;
      colocation ← dependencies "colocation" body;
      Ok (predecessors ++ colocation)
  end.

(** The list grows while it is iterated over: [todo] is what is left of it.
    Python's loop has no bound; [None] is a loop still running when the fuel
    is spent. *)
Fixpoint search_loop (fuel : nat) (s : schema) (todo seen : list string) : option (res (list string)) :=
  match fuel with
  | O => None
  | S fuel' =>
      match todo with
      | [] => Some (Ok seen)
      | resource :: todo' =>
          match depends s resource with
          | Err e => Some (Err e)
          | Ok deps => search_loop fuel' s (todo' ++ deps) (seen ++ [resource])
          end
      end
  end.

Definition _search_recursive (fuel : nat) (s : schema) (selected : list string) : option (res (list string)) :=
  match search_loop fuel s selected [] with
  | Some (Ok l) => Some (Ok (remove_dups l))
  | r => r
  end.

Definition _modify_compiled_schema_resources (recursive_list : list string) (rs : list (string * value))
    : list (string * value) :=
  foldl (λ new resource, if decide (resource ∈ recursive_list) then new else ddel resource new) rs (dkeys rs).

Definition _update_edge (recursive_list : list string) (es : list edge) : list edge :=
  foldl (λ new '(a, b),
    if decide (a ∉ recursive_list ∨ b ∉ recursive_list) then remove1 (a, b) new else new) es es.

Definition _update_isolate_resources (recursive_list : list string) (iso : list string) : list string :=
  foldl (λ new r, if decide (r ∈ recursive_list) then new else remove1 r new) iso iso.

(** [_modify_schema]: [None] keeps the whole schema. *)
Definition _modify_schema (fuel : nat) (selected : option (list string)) (s : schema) : option (res schema) :=
  match selected with
  | None => Some (Ok s)
  | Some names =>
      if existsb (λ r, negb (bool_decide (r ∈ dkeys (resources s)))) names then Some (Err PlainException)
      else match _search_recursive fuel s names with
           | None => None
           | Some (Err e) => Some (Err e)
           | Some (Ok l) =>
               Some (Ok (Schema (_update_edge l (predecessors_edge s)) (_update_edge l (colocation_edges s))
                                (_update_isolate_resources l (isolate_resources s))
                                (_modify_compiled_schema_resources l (resources s))))
           end
  end.

(** ** The scripts *)

Section script.
(** [str] of floats, lists and dictionaries; [Conf.get] of the provisioned
    values; the elements [${var}] that occur in the schema. *)
Context (repr : value → string) (prov : string → value).
Context (cluster_cfg : string).

Definition str (v : value) : string := Files.py_str repr v.

(** [f.writelines(s)] *)
Definition writelines (s : string) : ST string unit := λ script, (Ok tt, script +:+ s).
Definition newline : string := sep (Ascii.ascii_of_nat 10).

(** [_get_clone_name] *)
Definition _get_clone_name (s : schema) (resource : string) : res string :=
  match dget resource (resources s) with
  | None => Err KeyError
  | Some body =>
      ha ← Ha.vitem body "ha"; mode ← Ha.vitem ha "mode";
      Ok (if negb (py_eq mode (VStr "active_passive"))
          then resource +:+ (if py_eq mode (VStr "active_active") then "-clone" else "_Primary")
          else resource)
  end.

(** The templates, after substitution. *)
Definition order_cmd (res1 res2 : string) : string :=
  "echo $pcs_status | grep -q 'start " +:+ res1 +:+ " then start " +:+ res2 +:+ "' || " +:+
  "pcs -f " +:+ cluster_cfg +:+ " constraint order " +:+ res1 +:+ " then " +:+ res2.
Definition colocation_cmd (res1 res2 : string) : string :=
  "echo $pcs_status | grep -q 'set " +:+ res1 +:+ " " +:+ res2 +:+ "' || " +:+
  "pcs -f " +:+ cluster_cfg +:+ " constraint colocation set " +:+ res1 +:+ " " +:+ res2.
Definition location_cmd (resource node score : string) : string :=
  "echo $pcs_location | grep -q " +:+ resource +:+ " || " +:+
  "pcs -f " +:+ cluster_cfg +:+ " constraint location " +:+ resource +:+ " prefers " +:+ node +:+ "=" +:+ score.
Definition resource_cmd (resource provider param fail_tout mon_tout mon_in sta_tout sto_tout : string) : string :=
  "echo $pcs_status | grep -q " +:+ resource +:+ " || " +:+
  "pcs -f " +:+ cluster_cfg +:+ " resource create " +:+ resource +:+ " " +:+
  provider +:+ " " +:+ param +:+ " meta failure-timeout=" +:+ fail_tout +:+ " " +:+
  "op monitor timeout=" +:+ mon_tout +:+ " interval=" +:+ mon_in +:+ " op start " +:+
  "timeout=" +:+ sta_tout +:+ " op stop timeout=" +:+ sto_tout.
Definition active_active_cmd (resource clone_max clone_node_max param : string) : string :=
  "echo $pcs_status | grep -q " +:+ resource +:+ " || " +:+
  "pcs -f " +:+ cluster_cfg +:+ " resource clone " +:+ resource +:+ " " +:+
  "clone-max=" +:+ clone_max +:+ " clone-node-max=" +:+ clone_node_max +:+ " " +:+ param.
Definition primary_secondary_cmd (primary resource clone_max clone_node_max primary_max primary_node_max param : string)
    : string :=
  "echo $pcs_status | grep -q " +:+ resource +:+ " || " +:+
  "pcs -f " +:+ cluster_cfg +:+ " resource master " +:+ primary +:+ " " +:+
  resource +:+ " clone-max=" +:+ clone_max +:+ " clone-node-max=" +:+ clone_node_max +:+ " " +:+
  "master-max=" +:+ primary_max +:+ " master-node-max=" +:+ primary_node_max +:+ " " +:+ param.

(** A constraint for each edge. *)
Definition edge_cmds (s : schema) (cmd : string → string → string) (es : list edge) : ST string unit :=
  st_iter (λ '(a, b),
    let! r0 := st_lift (_get_clone_name s a) in
    let! r1 := st_lift (_get_clone_name s b) in
    writelines (cmd r0 r1 +:+ newline)) es.

Definition _create_order (s : schema) : ST string unit := edge_cmds s order_cmd (predecessors_edge s).
Definition _create_colocation (s : schema) : ST string unit := edge_cmds s colocation_cmd (colocation_edges s).

(** [self._resource_set[res]] *)
Definition resource_body (s : schema) (r : string) : res value :=
  match dget r (resources s) with Some body => Ok body | None => Err KeyError end.

Definition _create_location (s : schema) (r : string) : ST string unit :=
  let! res_clone := st_lift (_get_clone_name s r) in
  let! location := st_lift (body ← resource_body s r; ha ← Ha.vitem body "ha"; Ha.vitem ha "location") in
  let! names := st_lift (keys location) in
  st_iter (λ node,
    let! score := st_lift (Ha.vitem location node) in
    writelines (location_cmd res_clone node (str score) +:+ newline)) names.

(** [params = params + parameter + "=" + value + " "] *)
Definition param_text (parameters : value) : res string :=
  names ← keys parameters;
  each (λ parameter params,
    v ← Ha.vitem parameters parameter;
    match v with
    | VStr v => Ok (params +:+ parameter +:+ "=" +:+ v +:+ " ")
    | _ => Err TypeError
    end) names "".

(** ["parameters" in v.keys()] *)
Definition has_parameters (v : value) : res bool :=
  names ← keys v; Ok (bool_decide ("parameters" ∈ names)).

(** [int(x.replace("s", "")) * 2] *)
Definition double_seconds (x : value) : res Z :=
  match x with
  | VStr x => n ← Release.py_int (VStr (replace "s" "" x)); Ok (n * 2)%Z
  | _ => Err AttributeError
  end.

(** [max(l)] *)
Definition list_max (l : list Z) : res Z :=
  match l with [] => Err ValueError | z :: l' => Ok (foldl Z.max z l') end.

(** [v[i]] *)
Definition item (v : value) (i : Z) : res value := Ha.vitem_key v (VInt i).

(** The command that creates a resource. *)
Definition create_cmd (s : schema) (r : string) : res string :=
  body ← resource_body s r;
  has ← has_parameters body;
  params ← (if has : bool then parameters ← Ha.vitem body "parameters"; param_text parameters else Ok "");
  provider ← Ha.vitem body "provider";
  timeouts ← Ha.vitem provider "timeouts";
  l ← Ha.iter_values timeouts;
  timeout_list ← res_map double_seconds l;
  name ← Ha.vitem provider "name";
  mon_tout ← item timeouts 1;
  mon_in ← Ha.vitem provider "interval";
  sta_tout ← item timeouts 0;
  sto_tout ← item timeouts 2;
  fail_tout ← list_max timeout_list;
  Ok (resource_cmd r (str name) params (Files.dec_Z fail_tout +:+ "s") (str mon_tout) (str mon_in)
        (str sta_tout) (str sto_tout)).

(** The clones of a resource: with parameters, the code looks the resource up
    in itself. *)
Definition clone_params (body : value) (r : string) : res (value * string) :=
  ha ← Ha.vitem body "ha"; clones ← Ha.vitem ha "clones";
  has ← has_parameters clones;
  params ← (if has : bool then
              self ← Ha.vitem body r; ha' ← Ha.vitem self "ha"; clones' ← Ha.vitem ha' "clones";
              parameters ← Ha.vitem clones' "parameters"; names ← keys parameters;
              each (λ parameter params,
                own ← Ha.vitem clones "parameters"; v ← Ha.vitem own parameter;
                match v with
                | VStr v => Ok (params +:+ parameter +:+ "=" +:+ v +:+ " ")
                | _ => Err TypeError
                end) names ""
            else Ok "");
  Ok (clones, params).

Definition _create_resource_active_passive (r : string) : ST string unit := st_ret tt.

Definition _create_resource_active_active (s : schema) (r : string) : ST string unit :=
  let! clone := st_lift (
    body ← resource_body s r;
    '(clones, params) ← clone_params body r;
    active ← Ha.vitem clones "active";
    clone_max ← item active 1; clone_node_max ← item active 0;
    Ok (active_active_cmd r (str clone_max) (str clone_node_max) params)) in
  writelines (clone +:+ newline).

Definition _create_resource_primary_secondary (s : schema) (r : string) : ST string unit :=
  let! primary := st_lift (
    body ← resource_body s r;
    '(clones, params) ← clone_params body r;
    active ← Ha.vitem clones "active";
    clone_max ← item active 1; clone_node_max ← item active 0;
    primaries ← Ha.vitem clones "primary";
    primary_max ← item primaries 1; primary_node_max ← item primaries 0;
    Ok (primary_secondary_cmd (r +:+ "_Primary") r (str clone_max) (str clone_node_max)
          (str primary_max) (str primary_node_max) params)) in
  writelines (primary +:+ newline).

(** [self._mode[res_mode](res)] *)
Definition create_mode (s : schema) (mode : value) (r : string) : ST string unit :=
  if py_eq mode (VStr "active_passive") then _create_resource_active_passive r
  else if py_eq mode (VStr "active_active") then _create_resource_active_active s r
  else if py_eq mode (VStr "primary_secondary") then _create_resource_primary_secondary s r
  else st_raise (if is_container mode then TypeError else KeyError).

Definition _res_create (s : schema) (r : string) (res_mode : value) : ST string unit :=
  let! resource := st_lift (create_cmd s r) in
  writelines (resource +:+ newline) ;;;
  create_mode s res_mode r ;;;
  writelines newline.

Definition res_mode (s : schema) (r : string) : res value :=
  body ← resource_body s r; ha ← Ha.vitem body "ha"; Ha.vitem ha "mode".

(** [_cluster_create]: any exception is raised again as an [Exception]. *)
Definition reraise (m : ST string unit) : ST string unit := λ script,
  match m script with (Err _, script') => (Err PlainException, script') | r => r end.

Definition _cluster_create (s : schema) : ST string unit := reraise (
  st_iter (λ r, let! mode := st_lift (res_mode s r) in _res_create s r mode) (dkeys (resources s)) ;;;
  writelines (newline +:+ newline +:+ "#Location" +:+ newline) ;;;
  st_iter (λ r, st_lift (res_mode s r) ;;; _create_location s r) (dkeys (resources s)) ;;;
  writelines (newline +:+ newline +:+ "#Order" +:+ newline) ;;;
  _create_order s ;;;
  writelines (newline +:+ newline +:+ "#Colocation" +:+ newline) ;;;
  _create_colocation s ;;;
  writelines ("pcs cluster verify -V " +:+ cluster_cfg +:+ newline) ;;;
  writelines ("pcs cluster cib-push " +:+ cluster_cfg +:+ newline)).

(** [_assign_var]: a variable per element [${var}] without a dot *)
Definition variable_of (element : string) : string := replace "}" "" (replace "${" "" element).

Definition _assign_var (elements : list string) : ST string unit :=
  writelines ("pcs_status=$(pcs constraint)" +:+ newline) ;;;
  writelines ("pcs_location=$(pcs constraint location)" +:+ newline) ;;;
  st_iter (λ element,
    if contains element "." then st_ret tt
    else let variable := variable_of element in
         writelines (variable +:+ "=" +:+ str (prov (replace "_" "." variable)) +:+ newline))
    (remove_dups elements).

(** [create_script] of [PCSGenerator]: the file is written anew. *)
Definition create_script (elements : list string) (s : schema) : ST string unit := λ _,
  (writelines ("#!/bin/bash" +:+ newline +:+ newline) ;;;
   writelines ("#Assign variable" +:+ newline +:+ newline) ;;;
   _assign_var elements ;;;
   writelines (newline +:+ newline +:+ "# Set pcs cluster " +:+ newline +:+ newline) ;;;
   writelines ("pcs cluster cib " +:+ cluster_cfg +:+ newline) ;;;
   writelines ("# Create Resource" +:+ newline) ;;;
   _cluster_create s) "".

(** [create_script] of [KubernetesGenerator] *)
Definition k8s_create_script (s : schema) : ST string unit := λ _,
  (writelines ("#!/bin/bash" +:+ newline +:+ newline) ;;;
   writelines ("# Create Pod" +:+ newline) ;;;
   st_iter (λ r, writelines ("kubectl deploy pod " +:+ r +:+ ".yaml" +:+ newline)) (dkeys (resources s))) "".

End script.

(** [self._cluster_cfg] *)
Definition cluster_cfg_of (output_file : string) : string :=
  replace ".sh" ".xml" (List.last (split "/" output_file) "").

End Gen.
