(* ===== verification/HacSpec.v ===== *)
(** What the HA compiler and the generators promise: the compiled edges are
    the declared dependencies, an accepted schema can be started in order, the
    restriction to some resources returns exactly when nothing they depend on
    is in a cycle and then keeps exactly what they depend on. *)
From Stdlib Require Import Ascii.
From S2P Require Import Prelude PyStr PyVal KvFiles HaDecision Release HacCompile HacGenerate.
Import PyStr Hac Gen.

Module HacSpec.

(** ** Loops *)

Lemma each_unit_ok {A} (f : A → unit → res unit) l :
  each f l tt = Ok tt ↔ ∀ a, a ∈ l → f a tt = Ok tt.
Proof.
  induction l as [|a l IH]; cbn [each]; [split; [set_solver|done]|].
  destruct (f a tt) as [[]|] eqn:Ha; cbn [mbind res_bind].
  - rewrite IH. set_solver.
  - split; [done|]. intros H. specialize (H a). rewrite Ha in H. by apply H; left.
Qed.

(** Removing, from a list, each bad element as it is met leaves the good ones. *)
Lemma remove1_app {A} `{EqDecision A} (x : A) l1 l2 : x ∉ l1 → remove1 x (l1 ++ x :: l2) = l1 ++ l2.
Proof.
  induction l1 as [|y l1 IH]; cbn; intros H; [by rewrite decide_True|].
  apply not_elem_of_cons in H as [Hne H]. rewrite decide_False by done. by rewrite IH.
Qed.

Lemma remove_bad {A} `{EqDecision A} (good : A → Prop) `{∀ x, Decision (good x)} l :
  foldl (λ new x, if decide (good x) then new else remove1 x new) l l = filter good l.
Proof.
  enough (H' : ∀ g, Forall good g →
    foldl (λ new x, if decide (good x) then new else remove1 x new) (g ++ l) l = g ++ filter good l)
    by apply (H' [] (Forall_nil_2 _)).
  induction l as [|x l IH]; intros g Hg; cbn [foldl]; [done|].
  rewrite filter_cons. case_decide as Hx.
  - specialize (IH (g ++ [x])). rewrite <- !app_assoc in IH. apply IH. apply Forall_app. split; [done|by constructor].
  - rewrite remove1_app; [by apply IH|]. intros Hin. rewrite Forall_forall in Hg. by apply Hx, Hg.
Qed.

Lemma remove_bad_keys {A} (good : string → Prop) `{∀ x, Decision (good x)} (d : list (string * A)) :
  NoDup (dkeys d) →
  foldl (λ new r, if decide (good r) then new else ddel r new) d (dkeys d) = filter (λ kv, good kv.1) d.
Proof.
  intros Hnd.
  enough (H' : ∀ g : list (string * A), NoDup (dkeys (g ++ d)) → foldl (λ new r, if decide (good r) then new else ddel r new) (g ++ d) (dkeys d)
    = g ++ filter (λ kv, good kv.1) d) by apply (H' [] Hnd).
  clear Hnd. induction d as [|[k v] d IH]; intros g Hnd; cbn [dkeys fmap list_fmap fst foldl]; [done|].
  rewrite filter_cons. cbn [fst]. case_decide as Hx.
  - specialize (IH (g ++ [(k, v)])). rewrite <- !app_assoc in IH. by apply IH.
  - assert (ddel k (g ++ (k, v) :: d) = g ++ d) as ->.
    { unfold dkeys in Hnd. rewrite fmap_app in Hnd. apply NoDup_app in Hnd as (_ & Hk & _).
      assert (Hkg : k ∉ g.*1) by (intros Hin; apply (Hk k Hin); left). clear -Hkg.
      induction g as [|[k' v'] g IHg]; cbn in *; [by rewrite decide_True|].
      apply not_elem_of_cons in Hkg as [? ?]. rewrite decide_False by done. by rewrite IHg. }
    apply IH. unfold dkeys in *. rewrite fmap_app in *. cbn in Hnd. apply NoDup_app in Hnd as (H1 & H2 & [_ H3]%NoDup_cons). apply NoDup_app. split_and!; [done| |done]. intros x Hx' Hx''. by apply (H2 x Hx'); right.
Qed.

(** ** The compiled edges *)

(** What the specifications declare: [r] depends on [d]. *)
Definition declared (kind : string) (rs : list (string * value)) (d r : string) : Prop :=
  ∃ body deps, (r, body) ∈ rs ∧ dependencies kind body = Ok deps ∧ d ∈ deps.

Definition related (rs : list (string * value)) : list string :=
  concat (map (λ kv, match dependencies "relation" kv.2 with Ok l => l | Err _ => [] end) rs).

Lemma elem_of_pairs (deps : list string) (r : string) (e : edge) :
  e ∈ map (λ d, (d, r)) deps ↔ e.1 ∈ deps ∧ e.2 = r.
Proof.
  rewrite list_elem_of_fmap. split; [intros (d & -> & ?); done|].
  destruct e as [a b]. cbn. intros [? ->]. by exists a.
Qed.

Lemma declared_cons kind r body rs deps d x :
  dependencies kind body = Ok deps →
  declared kind ((r, body) :: rs) d x ↔ (d ∈ deps ∧ x = r) ∨ declared kind rs d x.
Proof.
  intros Hd. unfold declared. setoid_rewrite elem_of_cons. split.
  - intros (b & l & [[= -> ->]|Hin] & Hl & ?); [left; split; congruence|right; eauto 10].
  - intros [[? ->]|(b & l & ? & ? & ?)]; eauto 10.
Qed.

Lemma collect_loop rs : ∀ pe ce iso pe' ce' iso',
  each (λ '(r, body) '(predecessors_edges, colocation_edges, isolate_resources),
    predecessors ← dependencies "predecessors" body;
    colocations ← dependencies "colocation" body;
    relation ← dependencies "relation" body;
    Ok (_update_dependencies predecessors predecessors_edges r,
        _update_dependencies colocations colocation_edges r,
        isolate_resources ++ relation)) rs (pe, ce, iso) = Ok (pe', ce', iso') →
  (∀ e, e ∈ pe' ↔ e ∈ pe ∨ declared "predecessors" rs e.1 e.2) ∧
  (∀ e, e ∈ ce' ↔ e ∈ ce ∨ declared "colocation" rs e.1 e.2) ∧ iso' = iso ++ related rs.
Proof.
  induction rs as [|[r body] rs IH]; intros pe ce iso pe' ce' iso'; cbn [each].
  { intros [= <- <- <-]. unfold declared. cbn. rewrite app_nil_r. split_and!; [..|done].
    all: intros e; split; [by left|intros [?|(b & l & H & _)]; [done|by apply elem_of_nil in H]]. }
  destruct (dependencies "predecessors" body) as [p|] eqn:Hp; [|done].
  destruct (dependencies "colocation" body) as [c|] eqn:Hc; [|done].
  destruct (dependencies "relation" body) as [l|] eqn:Hl; [|done].
  cbn [mbind res_bind]. intros (Hpe & Hce & Hiso)%IH. split_and!.
  - intros e. rewrite Hpe, (declared_cons _ _ _ _ _ _ _ Hp). unfold _update_dependencies.
    rewrite elem_of_app, elem_of_pairs. tauto.
  - intros e. rewrite Hce, (declared_cons _ _ _ _ _ _ _ Hc). unfold _update_dependencies.
    rewrite elem_of_app, elem_of_pairs. tauto.
  - rewrite Hiso, <- app_assoc. f_equal. unfold related. cbn [map concat snd]. by rewrite Hl.
Qed.

(** *** The isolated resources *)

Definition count (r : string) (l : list string) : nat := length (filter (λ x, x = r) l).

Lemma count_cons r x l : count r (x :: l) = (if decide (x = r) then S (count r l) else count r l).
Proof. unfold count. rewrite filter_cons. by case_decide. Qed.

Lemma count_zero r l : r ∉ l → count r l = 0.
Proof.
  induction l as [|x l IH]; intros H; [done|]. apply not_elem_of_cons in H as [? ?].
  rewrite count_cons, decide_False by done. by apply IH.
Qed.

Lemma count_elem r l : r ∈ l ↔ 0 < count r l.
Proof.
  induction l as [|x l IH]; [by split; [intros ?%elem_of_nil|cbn; lia]|].
  rewrite elem_of_cons, count_cons, IH. case_decide; [subst; split; [lia|by left]|].
  split; [intros [->|?]; [done|lia]|by right].
Qed.

Lemma count_step iso r x : count r (isolate_step iso x) = count r iso - (if decide (x = r) then 1 else 0).
Proof.
  unfold isolate_step. destruct (decide (x ∈ iso)) as [Hin|Hin].
  - induction iso as [|y iso IH]; [by apply elem_of_nil in Hin|]. cbn [remove1].
    destruct (decide (x = y)) as [->|Hne]; [rewrite count_cons; case_decide; lia|].
    rewrite !count_cons. apply elem_of_cons in Hin as [?|Hin]; [done|]. rewrite IH by done.
    repeat case_decide; subst; try done; try lia.
  - case_decide; [subst; rewrite count_zero by done|]; lia.
Qed.

(** The ends of edges. *)
Definition ends (es : list edge) : list string := concat (map (λ e, [e.1; e.2]) es).

Lemma count_isolate es r : ∀ iso, count r (_isolate es iso) = count r iso - count r (ends es).
Proof.
  unfold _isolate. induction es as [|[a b] es IH]; intros iso; [change (count r (ends [])) with 0; cbn [foldl]; lia|].
  cbn [foldl]. rewrite IH, !count_step. unfold ends. cbn [map concat app fst snd].
  rewrite !count_cons. fold (ends es). repeat case_decide; lia.
Qed.

Lemma compile_parts s s' :
  compile_graph s = Ok s' →
  (NoDup (predecessors_edge s') ∧ ∀ e, e ∈ predecessors_edge s' ↔ declared "predecessors" (resources s) e.1 e.2) ∧
  (NoDup (colocation_edges s') ∧ ∀ e, e ∈ colocation_edges s' ↔ declared "colocation" (resources s) e.1 e.2) ∧
  resources s' = resources s ∧
  ∀ r, r ∈ isolate_resources s' ↔ count r (ends (predecessors_edge s')) < count r (related (resources s)).
Proof.
  unfold compile_graph. destruct (collect (resources s)) as [[[pe ce] iso]|] eqn:Hc; [|done].
  cbn [mbind res_bind]. intros [= <-]. apply collect_loop in Hc as (Hp & Hl & ->). cbn [predecessors_edge colocation_edges isolate_resources resources].
  unfold edge_set. split_and!; try apply NoDup_remove_dups; try done.
  - intros e. rewrite elem_of_remove_dups, Hp. split; [intros [?%elem_of_nil|?]; done|by right].
  - intros e. rewrite elem_of_remove_dups, Hl. split; [intros [?%elem_of_nil|?]; done|by right].
  - intros r. rewrite count_elem, count_isolate. cbn [app]. lia.
Qed.

(** The compiled schema says what the specifications declare: its
    predecessor and colocation edges are, each once, exactly the declared
    dependencies, its resources the declared ones, and a resource is isolated
    exactly when the relations name it more often than the predecessor edges
    do. *)
Theorem compile_graph_exact s s' :
  compile_graph s = Ok s' →
  (NoDup (predecessors_edge s') ∧ ∀ e, e ∈ predecessors_edge s' ↔ declared "predecessors" (resources s) e.1 e.2) ∧
  (NoDup (colocation_edges s') ∧ ∀ e, e ∈ colocation_edges s' ↔ declared "colocation" (resources s) e.1 e.2) ∧
  resources s' = resources s ∧
  ∀ r, r ∈ isolate_resources s' ↔ count r (ends (predecessors_edge s')) < count r (related (resources s)).
Proof. apply compile_parts. Qed.

(** ** Acyclic finite relations *)

Section acyclic.
Context {A : Type}.

Lemma tc_last (R : A → A → Prop) x y : tc R x y → ∃ z, rtc R x z ∧ R z y.
Proof.
  induction 1 as [x y H|x y z H _ (w & Hyw & Hwz)]; [by exists x|].
  exists w. split; [by eapply rtc_l|done].
Qed.

Context (R : A → A → Prop).

Lemma Acc_acyclic x : Acc R x → ¬ tc R x x.
Proof.
  induction 1 as [x _ IH]. intros (z & Hxz & Hzx)%(tc_last R). apply (IH z Hzx).
  by eapply tc_rtc_r; [apply tc_once|].
Qed.

Lemma tc_flip x y : tc (flip R) x y → tc R y x.
Proof. induction 1 as [x y H|x y z H _ IH]; [by apply tc_once|by eapply tc_r]. Qed.

Lemma acyclic_Acc (xs : list A) :
  (∀ x y, R x y → x ∈ xs) → (∀ x, ¬ tc R x x) → ∀ x, Acc R x.
Proof.
  intros Hxs Hac x. change (sn (flip R) x). apply tc_finite_sn.
  - intros y Hy. by eapply Hac, tc_flip.
  - exists xs. intros y (z & _ & Hz)%tc_last. by eapply Hxs.
Qed.

End acyclic.

(** ** Validation *)

Section verify.
Context (simple_cycles : graph → list (list string)).
Context (cycles_spec : ∀ g, simple_cycles g = [] ↔ ∀ x, ¬ tc (λ a b, (a, b) ∈ edges g) x x).

Lemma order_graph_edges s e : e ∈ edges (order_graph s) ↔ e ∈ predecessors_edge s.
Proof.
  unfold order_graph.
  assert (H1 : ∀ l g, edges (foldl add_node g l) = edges g).
  { induction l as [|n l IH]; intros g; [done|]. cbn [foldl]. by rewrite IH. }
  assert (H2 : ∀ l g, e ∈ edges (foldl add_edge g l) ↔ e ∈ edges g ∨ e ∈ l).
  { induction l as [|x l IH]; intros g; cbn [foldl]; [set_solver|].
    rewrite IH. cbn [add_edge edges]. rewrite elem_of_append_new. set_solver. }
  rewrite H2, H1. cbn. set_solver.
Qed.

(** Every dependency of the kind can be read and names a resource. *)
Definition defined (s : schema) (kind : string) : Prop :=
  ∀ r body, (r, body) ∈ resources s →
    ∃ deps, dependencies kind body = Ok deps ∧ ∀ d, d ∈ deps → d ∈ dkeys (resources s).

Lemma validate_resource_ok kind s : _validate_resource kind s = Ok tt ↔ defined s kind.
Proof.
  unfold _validate_resource, defined. set (names := dkeys (resources s)).
  assert (H : ∀ (l : list (string * value)) (b : bool), each (λ '(_, body) invalid,
      deps ← dependencies kind body;
      Ok (invalid || existsb (λ d, negb (bool_decide (d ∈ names))) deps)) l b = Ok false ↔
    b = false ∧ ∀ r body, (r, body) ∈ l →
      ∃ deps, dependencies kind body = Ok deps ∧ ∀ d, d ∈ deps → d ∈ names).
  { induction l as [|[r body] l IH]; intros b; cbn [each].
    { split; [intros [= ->]; split; [done|]; by intros ?? ?%elem_of_nil|by intros [-> _]]. }
    destruct (dependencies kind body) as [deps|] eqn:Hd; cbn [mbind res_bind].
    - rewrite IH. rewrite orb_false_iff.
      assert (He : existsb (λ d, negb (bool_decide (d ∈ names))) deps = false ↔ ∀ d, d ∈ deps → d ∈ names).
      { clear. induction deps as [|d deps IH]; cbn; [split; [by intros _ ? ?%elem_of_nil|done]|].
        rewrite orb_false_iff, negb_false_iff, bool_decide_eq_true, IH. set_solver. }
      rewrite He. split.
      + intros [[-> Hdeps] Hl]. split; [done|]. intros r' body' [[= -> ->]|Hin]%elem_of_cons; eauto.
      + intros [-> Hl]. split; [split; [done|]|].
        * destruct (Hl r body) as (deps' & Hd' & ?); [by left|]. rewrite Hd in Hd'. by injection Hd' as <-.
        * intros r' body' Hin. apply (Hl r'). by right.
    - split; [done|]. intros [_ Hl]. destruct (Hl r body) as (? & ? & _); [by left|]. congruence. }
  specialize (H (resources s) false).
  assert (Hl : (∀ r body, (r, body) ∈ resources s →
      ∃ deps, dependencies kind body = Ok deps ∧ ∀ d, d ∈ deps → d ∈ names) ↔
    each (λ '(_, body) (invalid : bool),
      deps ← dependencies kind body;
      Ok (invalid || existsb (λ d, negb (bool_decide (d ∈ names))) deps)) (resources s) false = Ok false)
    by (rewrite H; tauto).
  rewrite Hl. by destruct (each _ (resources s) false) as [[]|e].
Qed.

Lemma verify_parts s :
  verify_schema simple_cycles s = Ok tt ↔
    (∀ kind, kind ∈ ["predecessors"; "colocation"; "relation"] → defined s kind) ∧
    ∀ r, Acc (λ d r, (d, r) ∈ predecessors_edge s) r.
Proof.
  unfold verify_schema, _verify_compiled_schema, execute. rewrite each_unit_ok.
  assert (Hcyc : _validate_cycle simple_cycles s = Ok tt ↔ ∀ r, Acc (λ d r, (d, r) ∈ predecessors_edge s) r).
  { unfold _validate_cycle. pose proof (cycles_spec (order_graph s)) as Hc. destruct (decide (simple_cycles (order_graph s) = [])) as [Hd|Hd].
    - split; [intros _|by intros _]. apply (acyclic_Acc _ (predecessors_edge s).*1).
      + intros x y Hxy. apply list_elem_of_fmap. by exists (x, y).
      + intros x Hx. apply (proj1 Hc Hd x). eapply (tc_congruence id); [|exact Hx].
        intros a b. by apply order_graph_edges.
    - split; [by intros [=]|]. intros Hacc. exfalso. apply Hd, Hc. intros x Hx. apply (Acc_acyclic _ x (Hacc x)).
      eapply (tc_congruence id); [|exact Hx]. intros a b. by apply order_graph_edges. }
  rewrite <- Hcyc. unfold symantic_methods. split.
  - intros H. split; [|by apply H; left].
    intros kind Hk. apply validate_resource_ok, H. rewrite !elem_of_cons, elem_of_nil in Hk.
    destruct Hk as [->|[->|[->|[]]]]; rewrite !elem_of_cons; auto.
  - intros [Hk Hc] m Hm. rewrite !elem_of_cons, elem_of_nil in Hm.
    destruct Hm as [->|[->|[->|[->|[]]]]]; [done|apply validate_resource_ok, Hk; rewrite !elem_of_cons; auto..].
Qed.

(** The validation accepts a compiled schema exactly when every resource
    it depends on is defined and the predecessor edges are a well-founded order:
    the resources can be started one after the other, each after its
    predecessors. *)
Theorem verify_schema_exact s :
  verify_schema simple_cycles s = Ok tt ↔
    (∀ kind, kind ∈ ["predecessors"; "colocation"; "relation"] → defined s kind) ∧
    ∀ r, Acc (λ d r, (d, r) ∈ predecessors_edge s) r.
Proof. apply verify_parts. Qed.

End verify.

(** ** What some resources need *)

Section restrict.
Context (s : schema).

(** [r] depends on [d], as a predecessor or for its place. *)
Definition needs (r d : string) : Prop := ∃ deps, depends s r = Ok deps ∧ d ∈ deps.

Definition closed : Prop :=
  ∀ r, r ∈ dkeys (resources s) → ∃ deps, depends s r = Ok deps ∧ ∀ d, d ∈ deps → d ∈ dkeys (resources s).

(** The visits the loop makes for a resource. *)
Inductive visits : string → nat → Prop :=
| visits_of r deps ns : depends s r = Ok deps → Forall2 visits deps ns → visits r (S (sum_list ns)).

Lemma visits_exist r : closed → sn needs r → r ∈ dkeys (resources s) → ∃ n, visits r n.
Proof.
  intros Hc Hr. induction Hr as [r _ IH]. intros Hin.
  destruct (Hc r Hin) as (deps & Hd & Hk).
  assert (H : ∀ l, (∀ d, d ∈ l → d ∈ deps) → ∃ ns, Forall2 visits l ns).
  { induction l as [|d l IHl]; intros Hl; [by exists []|].
    destruct (IH d) as [n Hn]; [exists deps; split; [done|apply Hl; left]|apply Hk, Hl; left|].
    destruct IHl as [ns Hns]; [intros; apply Hl; by right|]. exists (n :: ns). by constructor. }
  destruct (H deps) as [ns Hns]; [done|]. eexists. by econstructor.
Qed.

Lemma search_loop_returns ns : ∀ todo seen fuel,
  Forall2 visits todo ns → sum_list ns < fuel → ∃ l, search_loop fuel s todo seen = Some (Ok l).
Proof.
  remember (sum_list ns) as n eqn:Hn. revert ns Hn. induction n as [n IH] using lt_wf_ind.
  intros ns Hn todo seen fuel Hall Hf. destruct fuel as [|fuel]; [lia|].
  destruct Hall as [|r m todo ms Hr Hall]; [by eexists|]. destruct Hr as [r deps ks Hd Hks].
  cbn [search_loop]. rewrite Hd. assert (Hsum : n = S (sum_list ks) + sum_list ms) by exact Hn. clear Hn.
  assert (Hf' : S (sum_list ks) + sum_list ms < S fuel) by (by rewrite <- Hsum).
  apply (IH (sum_list (ms ++ ks))) with (ns := ms ++ ks); [rewrite sum_list_with_app; lia|done| |].
  - by apply Forall2_app.
  - rewrite sum_list_with_app. lia.
Qed.

(** When the loop returns, nothing it saw is on an endless path. *)
Lemma search_loop_sn fuel : ∀ todo seen l,
  search_loop fuel s todo seen = Some (Ok l) → ∀ r, r ∈ todo → sn needs r.
Proof.
  induction fuel as [|fuel IH]; intros todo seen l; cbn [search_loop]; [done|].
  destruct todo as [|r todo]; [by intros _ r ?%elem_of_nil|].
  destruct (depends s r) as [deps|] eqn:Hd; [|done]. intros Hl.
  assert (H : ∀ x, x ∈ todo ++ deps → sn needs x) by (by eapply IH).
  intros x [->|Hx]%elem_of_cons; [|apply H; set_solver].
  constructor. intros y (deps' & Hd' & Hy). rewrite Hd in Hd'. injection Hd' as <-. apply H. set_solver.
Qed.

Lemma rtc_needs r x deps :
  depends s r = Ok deps → rtc needs r x ↔ x = r ∨ ∃ d, d ∈ deps ∧ rtc needs d x.
Proof.
  intros Hd. split.
  - intros [->|(y & (deps' & Hd' & Hy) & Hyx)]%rtc_inv; [by left|]. right. exists y.
    rewrite Hd in Hd'. by injection Hd' as <-.
  - intros [->|(d & Hin & Hdx)]; [done|]. eapply rtc_l; [|exact Hdx]. by exists deps.
Qed.

Lemma search_loop_exact fuel : ∀ todo seen l,
  search_loop fuel s todo seen = Some (Ok l) →
  ∀ x, x ∈ l ↔ x ∈ seen ∨ ∃ r, r ∈ todo ∧ rtc needs r x.
Proof.
  induction fuel as [|fuel IH]; intros todo seen l; cbn [search_loop]; [done|].
  destruct todo as [|r todo].
  { intros [= ->] x. split; [by left|]. intros [?|(? & ?%elem_of_nil & _)]; done. }
  destruct (depends s r) as [deps|] eqn:Hd; [|done]. intros Hl x. rewrite (IH _ _ _ Hl x).
  setoid_rewrite elem_of_cons. setoid_rewrite elem_of_app. rewrite list_elem_of_singleton.
  pose proof (rtc_needs r x deps Hd). naive_solver.
Qed.

(** C34.  The loop over the growing list of [_search_recursive] ends exactly
    when no chain of dependencies, predecessors and colocations together, is
    endless from the resources asked for. *)
Theorem search_recursive_terminates selected :
  closed → (∀ r, r ∈ selected → r ∈ dkeys (resources s)) →
  (∃ fuel l, _search_recursive fuel s selected = Some (Ok l)) ↔ ∀ r, r ∈ selected → sn needs r.
Proof.
  intros Hc Hsel. unfold _search_recursive. split.
  - intros (fuel & l & H). destruct (search_loop fuel s selected []) as [[l'|]|] eqn:Hl; [|done..].
    by eapply search_loop_sn.
  - intros Hsn. assert (H : ∃ ns, Forall2 visits selected ns).
    { induction selected as [|r sel IH]; [by exists []|].
      destruct (visits_exist r) as [n Hn]; [done|apply Hsn; left|apply Hsel; left|].
      destruct IH as [ns Hns]; [intros; apply Hsel; by right|intros; apply Hsn; by right|].
      exists (n :: ns). by constructor. }
    destruct H as [ns Hns]. exists (S (sum_list ns)).
    destruct (search_loop_returns ns selected [] (S (sum_list ns)) Hns) as [l ->]; [lia|by eexists].
Qed.

Lemma update_edge_filter (l : list string) (es : list edge) :
  _update_edge l es = filter (λ e, e.1 ∈ l ∧ e.2 ∈ l) es.
Proof.
  rewrite <- remove_bad. unfold _update_edge. generalize es at 1 3. intros acc. revert acc.
  induction es as [|[a b] es IH]; intros acc; [done|]. cbn [foldl fst snd]. rewrite IH. f_equal.
  destruct (decide (a ∈ l)), (decide (b ∈ l)); repeat case_decide; tauto.
Qed.

Lemma search_recursive_exact fuel names l :
  _search_recursive fuel s names = Some (Ok l) → ∀ x, x ∈ l ↔ ∃ r, r ∈ names ∧ rtc needs r x.
Proof.
  unfold _search_recursive. destruct (search_loop fuel s names []) as [[l'|]|] eqn:Hl; [|done..].
  intros [= <-] x. rewrite elem_of_remove_dups, (search_loop_exact _ _ _ _ Hl x). set_solver.
Qed.

Lemma modify_schema_parts fuel names s' :
  NoDup (dkeys (resources s)) → _modify_schema fuel (Some names) s = Some (Ok s') →
  let kept x := ∃ r, r ∈ names ∧ rtc needs r x in
  (∀ kv, kv ∈ resources s' ↔ kv ∈ resources s ∧ kept kv.1) ∧ resources s' `sublist_of` resources s ∧
  (∀ e, e ∈ predecessors_edge s' ↔ e ∈ predecessors_edge s ∧ kept e.1 ∧ kept e.2) ∧
  predecessors_edge s' `sublist_of` predecessors_edge s ∧
  (∀ e, e ∈ colocation_edges s' ↔ e ∈ colocation_edges s ∧ kept e.1 ∧ kept e.2) ∧
  colocation_edges s' `sublist_of` colocation_edges s ∧
  ∀ r, r ∈ isolate_resources s' ↔ r ∈ isolate_resources s ∧ kept r.
Proof.
  intros Hnd. unfold _modify_schema. destruct (existsb _ names); [done|].
  destruct (_search_recursive fuel s names) as [[l|]|] eqn:Hl; [|done..].
  pose proof (search_recursive_exact _ _ _ Hl) as Hx. intros Heq. injection Heq as <-.
  cbn [resources predecessors_edge colocation_edges isolate_resources].
  assert (Hr : _modify_compiled_schema_resources l (resources s) = filter (λ kv, kv.1 ∈ l) (resources s))
    by (unfold _modify_compiled_schema_resources; exact (remove_bad_keys (λ x, x ∈ l) (resources s) Hnd)).
  assert (Hi : _update_isolate_resources l (isolate_resources s) = filter (λ x, x ∈ l) (isolate_resources s))
    by (apply remove_bad).
  rewrite Hr, Hi, !update_edge_filter.
  split_and!; try apply sublist_filter; intros ?; rewrite list_elem_of_filter, !Hx; tauto.
Qed.

(** The schema of a script for some resources keeps exactly what they
    need: a resource is kept when one of them needs it, directly or not, an
    edge when both its ends are kept, an isolated resource when it is kept,
    each with its place. *)
Theorem modify_schema_exact fuel names s' :
  NoDup (dkeys (resources s)) → _modify_schema fuel (Some names) s = Some (Ok s') →
  let kept x := ∃ r, r ∈ names ∧ rtc needs r x in
  (∀ kv, kv ∈ resources s' ↔ kv ∈ resources s ∧ kept kv.1) ∧ resources s' `sublist_of` resources s ∧
  (∀ e, e ∈ predecessors_edge s' ↔ e ∈ predecessors_edge s ∧ kept e.1 ∧ kept e.2) ∧
  predecessors_edge s' `sublist_of` predecessors_edge s ∧
  (∀ e, e ∈ colocation_edges s' ↔ e ∈ colocation_edges s ∧ kept e.1 ∧ kept e.2) ∧
  colocation_edges s' `sublist_of` colocation_edges s ∧
  ∀ r, r ∈ isolate_resources s' ↔ r ∈ isolate_resources s ∧ kept r.
Proof. apply modify_schema_parts. Qed.

End restrict.

(** ** The script *)

(** The text of a list of lines. *)
Definition text (lines : list string) : string := foldr (λ l t, l +:+ newline +:+ t) "" lines.

Lemma edge_cmds_ok s cmd (name : string → string) es : ∀ script,
  (∀ e, e ∈ es → _get_clone_name s e.1 = Ok (name e.1) ∧ _get_clone_name s e.2 = Ok (name e.2)) →
  edge_cmds s cmd es script = (Ok tt, script +:+ text (map (λ e, cmd (name e.1) (name e.2)) es)).
Proof.
  unfold edge_cmds. induction es as [|[a b] es IH]; intros script H; cbn [st_iter].
  { by rewrite sapp_nil_r. }
  destruct (H (a, b)) as [Ha Hb]; [left|]. cbn [fst snd] in Ha, Hb.
  unfold st_bind, st_lift. rewrite Ha, Hb. unfold writelines. rewrite IH by (intros; apply H; by right).
  f_equal. cbn [map text foldr fst snd]. by rewrite !sapp_assoc.
Qed.

(** The mode of a resource, as the validation of its file has read it. *)
Definition mode_of (body : value) : res value := ha ← Ha.vitem body "ha"; Ha.vitem ha "mode".

Definition has_modes (s : schema) : Prop :=
  ∀ r body, (r, body) ∈ resources s → ∃ mode, mode_of body = Ok mode.

Definition clone_name (s : schema) (r : string) : string :=
  match _get_clone_name s r with Ok n => n | Err _ => r end.

Lemma clone_name_ok s s' r :
  has_modes s → dget r (resources s) = dget r (resources s') → r ∈ dkeys (resources s) →
  _get_clone_name s' r = Ok (clone_name s r).
Proof.
  intros Hm Hr [body Hb]%dget_is_Some. unfold clone_name, _get_clone_name. rewrite <- Hr, Hb.
  destruct (Hm r body) as [mode Hmode]; [by apply dget_Some_elem|]. unfold mode_of in Hmode.
  destruct (Ha.vitem body "ha") as [ha|]; [|done]. cbn [mbind res_bind] in *. by rewrite Hmode.
Qed.

Lemma verified_closed s :
  NoDup (dkeys (resources s)) → defined s "predecessors" → defined s "colocation" → closed s.
Proof.
  intros Hnd Hp Hc r [body Hb]%dget_is_Some. apply dget_Some_elem in Hb as Hin.
  destruct (Hp r body Hin) as (p & Hpd & Hpk), (Hc r body Hin) as (c & Hcd & Hck).
  exists (p ++ c). unfold depends. rewrite Hb, Hpd. cbn [mbind res_bind]. rewrite Hcd. cbn [mbind res_bind].
  split; [done|]. set_solver.
Qed.

Lemma elem_dkeys {A} (d : list (string * A)) r : r ∈ dkeys d ↔ ∃ v, (r, v) ∈ d.
Proof.
  unfold dkeys. rewrite list_elem_of_fmap. split; [intros ([k v] & -> & ?); by exists v|].
  intros [v Hv]. by exists (r, v).
Qed.

(** The resources kept are those of the schema. *)
Lemma kept_dget s s' r :
  NoDup (dkeys (resources s)) → resources s' `sublist_of` resources s → r ∈ dkeys (resources s') →
  dget r (resources s) = dget r (resources s').
Proof.
  intros Hnd Hsub [body Hb]%dget_is_Some. rewrite Hb. apply dget_elem; [done|].
  apply dget_Some_elem in Hb. eapply elem_of_submseteq; [exact Hb|by apply sublist_submseteq].
Qed.

(** From an accepted schema to the script of some of its resources: when
    the restriction returns, every constraint it keeps is between resources it
    keeps, and the order section of the script is, in order, one constraint for
    each kept predecessor edge, with the names the whole schema gives the
    resources; writing it does not raise. *)
Theorem restricted_order simple_cycles cluster_cfg s fuel names s' script :
  (∀ g, simple_cycles g = [] ↔ ∀ x, ¬ tc (λ a b, (a, b) ∈ edges g) x x) →
  NoDup (dkeys (resources s)) → has_modes s → verify_schema simple_cycles s = Ok tt →
  (∀ e, e ∈ predecessors_edge s ↔ declared "predecessors" (resources s) e.1 e.2) →
  _modify_schema fuel (Some names) s = Some (Ok s') →
  (∀ e, e ∈ predecessors_edge s' → e.1 ∈ dkeys (resources s') ∧ e.2 ∈ dkeys (resources s')) ∧
  _create_order cluster_cfg s' script =
    (Ok tt, script +:+ text (map (λ e, order_cmd cluster_cfg (clone_name s e.1) (clone_name s e.2))
                                 (predecessors_edge s'))).
Proof.
  intros Hsc Hnd Hm [Hdef _]%(verify_parts simple_cycles Hsc) Hdecl Hmod.
  pose proof (modify_schema_parts s fuel names s' Hnd Hmod) as (Hr & Hsub & Hp & _).
  assert (Hends : ∀ e, e ∈ predecessors_edge s' → e.1 ∈ dkeys (resources s') ∧ e.2 ∈ dkeys (resources s')).
  { intros e (He & Hk1 & Hk2)%Hp. apply Hdecl in He as (body & deps & Hin & Hd & He1).
    destruct (Hdef "predecessors" ltac:(set_solver) _ _ Hin) as (deps' & Hd' & Hk).
    rewrite Hd in Hd'. injection Hd' as <-. apply Hk, elem_dkeys in He1 as [b1 Hb1].
    split; apply elem_dkeys; eexists; apply Hr; by split. }
  split; [done|]. unfold _create_order. apply edge_cmds_ok. intros e He. destruct (Hends e He) as [H1 H2].
  pose proof (kept_dget s s' _ Hnd Hsub H1) as Hg1. pose proof (kept_dget s s' _ Hnd Hsub H2) as Hg2.
  split; (apply clone_name_ok; [done..|]); apply dget_is_Some; rewrite ?Hg1, ?Hg2; by apply dget_is_Some.
Qed.

End HacSpec.
