(* ===== verification/HacWitness.v ===== *)
(** A cluster of three resources, compiled, validated and restricted: the
    hypotheses of the theorems on the HA compiler hold.  [simple_cycles] is
    instantiated by peeling off the edges from nodes nothing leads to. *)
From Stdlib Require Import Ascii.
From S2P Require Import Prelude PyStr PyVal KvFiles HaDecision Release HacCompile HacGenerate HacSpec.
Import PyStr Hac Gen HacSpec.

Module HacWitness.

(** ** Finding cycles *)

Definition peel (es : list edge) : list edge := filter (λ e, e.1 ∈ es.*2) es.
Fixpoint peels (n : nat) (es : list edge) : list edge :=
  match n with O => es | S n' => peels n' (peel es) end.
Definition cycles (g : graph) : list (list string) :=
  map (λ e, [e.1]) (peels (length (edges g)) (edges g)).

Definition leads (es : list edge) : string → string → Prop := λ a b, (a, b) ∈ es.

Lemma filter_full {A} (P : A → Prop) `{∀ x, Decision (P x)} l :
  length l ≤ length (filter P l) → filter P l = l.
Proof.
  induction l as [|x l IH]; [done|]. rewrite filter_cons. case_decide; cbn [length]; intros Hl.
  - by rewrite IH by lia.
  - pose proof (length_filter P l). lia.
Qed.

Lemma peel_acyclic es : (∀ x, ¬ tc (leads es) x x) → peel es = es → es = [].
Proof.
  intros Hac Hp. assert (Hacc : ∀ x, Acc (leads es) x).
  { apply (acyclic_Acc _ es.*1); [|done]. intros x y Hxy. apply list_elem_of_fmap. by exists (x, y). }
  assert (Hno : ∀ x, Acc (leads es) x → ∀ b, ¬ leads es x b).
  { induction 1 as [x _ IH]. intros b Hb. unfold leads in Hb. rewrite <- Hp in Hb.
    apply list_elem_of_filter in Hb as [([a x'] & Hx & Ha)%list_elem_of_fmap _]. cbn in Hx. subst x'.
    by apply (IH a Ha x). }
  destruct es as [|[a b] es']; [done|]. exfalso. apply (Hno a (Hacc a) b). left.
Qed.

Lemma peel_leads es a b : leads (peel es) a b → leads es a b.
Proof. unfold leads, peel. by intros [_ ?]%list_elem_of_filter. Qed.

Lemma peels_acyclic n : ∀ es, length es ≤ n → (∀ x, ¬ tc (leads es) x x) → peels n es = [].
Proof.
  induction n as [|n IH]; intros es Hn Hac; cbn [peels].
  { by destruct es; [|cbn in Hn; lia]. }
  apply IH.
  - destruct (decide (length (peel es) < length es)) as [|Hge]; [lia|].
    assert (He : peel es = es).
    { apply filter_full. change (length es ≤ length (peel es)). lia. }
    rewrite He. apply (peel_acyclic es Hac) in He. subst es. cbn. lia.
  - intros x Hx. apply (Hac x). eapply (tc_congruence Datatypes.id); [apply peel_leads|exact Hx].
Qed.

(** The edges of a cycle stay. *)
Lemma peel_cycle es x : tc (leads es) x x → tc (leads (peel es)) x x.
Proof.
  intros (z & Hxz & Hzx)%tc_last.
  assert (Hkeep : ∀ a b, leads es a b → rtc (leads es) b a → leads (peel es) a b).
  { intros a b Hab Hba. apply list_elem_of_filter. split; [|done]. cbn [fst].
    destruct (tc_last (leads es) a a) as (w & _ & Hw).
    { by eapply tc_rtc_r; [apply tc_once|]. }
    apply list_elem_of_fmap. by exists (w, a). }
  assert (Hpath : ∀ y, rtc (leads es) x y → rtc (leads es) y x → rtc (leads (peel es)) x y).
  { apply (rtc_ind_r (λ y, rtc (leads es) y x → rtc (leads (peel es)) x y)); [done|].
    intros y w Hxy Hyw IH Hwx. eapply rtc_r; [apply IH; by eapply rtc_l|].
    apply Hkeep; [done|]. by etransitivity. }
  eapply tc_rtc_l; [apply Hpath; [done|by eapply rtc_once]|]. apply tc_once, Hkeep; done.
Qed.

Lemma peels_cycle n : ∀ es, peels n es = [] → ∀ x, ¬ tc (leads es) x x.
Proof.
  induction n as [|n IH]; intros es; cbn [peels].
  - intros -> x (z & _ & ?%elem_of_nil)%tc_last. done.
  - intros H x Hx. by apply (IH _ H x), peel_cycle.
Qed.

Lemma cycles_spec g : cycles g = [] ↔ ∀ x, ¬ tc (λ a b, (a, b) ∈ edges g) x x.
Proof.
  unfold cycles. split.
  - intros H. apply (peels_cycle (length (edges g))). by destruct (peels _ _).
  - intros H. by rewrite (peels_acyclic _ _ (reflexivity _) H).
Qed.

(** ** A cluster *)

Definition resource (mode : string) (pred coloc rel : list string) : value :=
  VDict [("group", VStr "io");
         ("dependencies", VDict [("predecessors", VList (map VStr pred)); ("colocation", VList (map VStr coloc));
                                 ("relation", VList (map VStr rel))]);
         ("ha", VDict [("mode", VStr mode); ("location", VDict [])]); ("component", VStr "c")].

Definition cluster : schema := Schema [] [] []
  [("consul", resource "active_active" [] [] []);
   ("motr", resource "active_passive" ["consul"] [] ["hax"]);
   ("hax", resource "active_passive" ["consul"; "motr"] ["motr"] ["spare"]);
   ("spare", resource "primary_secondary" [] [] [])].

Definition compiled : schema := match compile_graph cluster with Ok s => s | Err _ => empty_schema end.
Definition restricted : schema :=
  match _modify_schema 20 (Some ["motr"]) compiled with Some (Ok s) => s | _ => empty_schema end.

Lemma compiled_ok : compile_graph cluster = Ok compiled.
Proof. vm_compute. reflexivity. Qed.
Lemma restricted_ok : _modify_schema 20 (Some ["motr"]) compiled = Some (Ok restricted).
Proof. vm_compute. reflexivity. Qed.
Lemma compiled_nodup : NoDup (dkeys (resources compiled)).
Proof. apply (bool_decide_unpack _). vm_compute. exact I. Qed.

Lemma compile_graph_exact_witness :
  predecessors_edge compiled = [("consul", "motr"); ("consul", "hax"); ("motr", "hax")] ∧
  isolate_resources compiled = ["spare"] ∧
  ∀ r, r ∈ isolate_resources compiled ↔ count r (ends (predecessors_edge compiled)) < count r (related (resources cluster)).
Proof.
  split_and!; [vm_compute; reflexivity..|]. apply (compile_graph_exact cluster compiled compiled_ok).
Defined.

Lemma verify_schema_exact_witness :
  verify_schema cycles compiled = Ok tt ∧ ∀ r, Acc (λ d r, (d, r) ∈ predecessors_edge compiled) r.
Proof.
  assert (H : verify_schema cycles compiled = Ok tt) by (vm_compute; reflexivity).
  split; [exact H|]. by apply (verify_schema_exact cycles cycles_spec compiled).
Defined.

Lemma deps_ok :
  closed compiled.
Proof.
  apply verified_closed; [apply compiled_nodup|..];
    apply (verify_parts cycles cycles_spec compiled); try (vm_compute; reflexivity); repeat constructor.
Qed.

Lemma search_recursive_terminates_witness :
  (∃ fuel l, _search_recursive fuel compiled ["hax"] = Some (Ok l)) ∧ ∀ r, r ∈ ["hax"] → sn (needs compiled) r.
Proof.
  assert (H : ∃ fuel l, _search_recursive fuel compiled ["hax"] = Some (Ok l))
    by (exists 20, ["hax"; "motr"; "consul"]; vm_compute; reflexivity).
  split; [exact H|]. apply (search_recursive_terminates compiled ["hax"]); [apply deps_ok| |exact H].
  intros r ->%list_elem_of_singleton. apply (bool_decide_unpack _). vm_compute. exact I.
Defined.

Lemma modify_schema_exact_witness :
  dkeys (resources restricted) = ["consul"; "motr"] ∧
  ∀ e, e ∈ predecessors_edge restricted ↔ e ∈ predecessors_edge compiled ∧
    (∃ r, r ∈ ["motr"] ∧ rtc (needs compiled) r e.1) ∧ ∃ r, r ∈ ["motr"] ∧ rtc (needs compiled) r e.2.
Proof.
  split; [vm_compute; reflexivity|].
  apply (modify_schema_exact compiled 20 ["motr"] restricted compiled_nodup restricted_ok).
Defined.

Lemma compiled_modes : has_modes compiled.
Proof.
  intros r body Hin. unfold compiled in Hin. vm_compute in Hin.
  repeat (apply elem_of_cons in Hin as [[= -> ->]|Hin]; [eexists; vm_compute; reflexivity|]).
  by apply elem_of_nil in Hin.
Qed.

Lemma compiled_declared e :
  e ∈ predecessors_edge compiled ↔ declared "predecessors" (resources compiled) e.1 e.2.
Proof.
  destruct (compile_parts cluster compiled compiled_ok) as ([_ H] & _ & Hr & _). rewrite Hr. apply H.
Qed.

Lemma restricted_order_witness :
  (_create_order "c.xml" restricted "").2 =
    text ["echo $pcs_status | grep -q 'start consul-clone then start motr' || pcs -f c.xml constraint order consul-clone then motr"] ∧
  _create_order "c.xml" restricted "" =
    (Ok tt, "" +:+ text (map (λ e, order_cmd "c.xml" (clone_name compiled e.1) (clone_name compiled e.2))
                             (predecessors_edge restricted))).
Proof.
  split; [vm_compute; reflexivity|].
  apply (restricted_order cycles "c.xml" compiled 20 ["motr"] restricted "" cycles_spec compiled_nodup
           compiled_modes (eq_refl : verify_schema cycles compiled = Ok tt) compiled_declared restricted_ok).
Defined.

(** ** What the validation does not look at *)

(** Two resources placed with each other are accepted, but the loop that
    collects what one of them needs never ends. *)
Definition together : schema := Schema [] [("b", "a"); ("a", "b")] []
  [("a", resource "active_passive" [] ["b"] []); ("b", resource "active_passive" [] ["a"] [])].

Lemma colocation_cycle_endless :
  verify_schema cycles together = Ok tt ∧ ∀ fuel, search_loop fuel together ["a"] [] = None.
Proof.
  split; [vm_compute; reflexivity|].
  assert (H : ∀ fuel seen, search_loop fuel together ["a"] seen = None ∧ search_loop fuel together ["b"] seen = None).
  { induction fuel as [|fuel IH]; intros seen; [done|]. split; cbn [search_loop].
    - change (depends together "a") with (Ok ["b"] : res (list string)). apply IH.
    - change (depends together "b") with (Ok ["a"] : res (list string)). apply IH. }
  intros fuel. apply H.
Qed.

(** A resource with parameters for its clones is looked up in itself. *)
Definition cloned : schema := Schema [] [] []
  [("r", VDict [("ha", VDict [("mode", VStr "active_active");
     ("clones", VDict [("active", VList [VStr "1"; VStr "2"]); ("parameters", VDict [("p", VStr "v")])])])])].

Lemma clone_parameters_raise repr cfg script :
  _create_resource_active_active repr cfg cloned "r" script = (Err KeyError, script).
Proof. reflexivity. Qed.

End HacWitness.
