(* ===== verification/LogFilter.v ===== *)
(** [utils/support_framework/log_filters.py]: the filters that keep the logs of
    a support bundle to a size ([limit_size]) or to a span of time
    ([limit_time]).

    A source directory is its entries in the order [os.listdir] gives them, the
    destination, which exists, its files by name; the two differ.  Contents
    are bytes.  Times are microseconds of local time, taken to run evenly (no
    change of the clock within the span). *)
From Stdlib Require Import Ascii.
From S2P Require Import Prelude PyStr PyVal KvFiles.
Import PyStr.

Module LogFilter.

Record dirent := Dirent {
  de_name : string;
  de_isfile : bool;
  de_data : string;
  de_mtime : Z;
  de_ctime : Z
}.

Definition dest : Type := gmap string string.

(** ** Sizes *)

Definition upper_char (c : ascii) : ascii :=
  let n := code c in
  if ((97 <=? n) && (n <=? 122))%N then Ascii.ascii_of_N (n - 32) else c.
Definition upper (s : string) : string := smap upper_char s.

(** [s[:n]] and [s[:-n]] *)
Fixpoint stake (n : nat) (s : string) : string :=
  match n, s with
  | S n', String c s' => String c (stake n' s')
  | _, _ => EmptyString
  end.
Definition drop_suffix (n : nat) (s : string) : string := stake (String.length s - n) s.

Definition units : list (string * Z) :=
  [("GB", 1024 * 1024 * 1024)%Z; ("MB", 1024 * 1024)%Z; ("KB", 1024)%Z; ("B", 1)%Z].

Section size.
(** [float(s)], as [m] times [2] to the power [e]; it raises what [int] of it
    does when the number is not finite. *)
Context (float_of : string → res (Z * Z)).

(** [int(float(s) * multiplier)], for a multiplier that is a power of two *)
Definition scaled (s : string) (multiplier : Z) : res Z :=
  '(m, e) ← float_of s;
  Ok (if (0 <=? e)%Z then Z.shiftl m e * multiplier else Z.quot (m * multiplier) (Z.shiftl 1 (- e)))%Z.

Fixpoint size_in (units : list (string * Z)) (size : string) : res Z :=
  match units with
  | [] => Err ValueError                 (* int('') *)
  | (suffix, multiplier) :: units' =>
      if endswith size suffix then scaled (drop_suffix (String.length suffix) size) multiplier
      else size_in units' size
  end.

Definition _get_size_in_bytes (size : string) : res Z := size_in units size.

(** ** [limit_size] *)

(** [sorted(files, key=getmtime, reverse=True)] keeps the order of equal keys. *)
Fixpoint insert_recent (f : dirent) (l : list dirent) : list dirent :=
  match l with
  | [] => [f]
  | g :: l' => if (de_mtime f <? de_mtime g)%Z then g :: insert_recent f l' else f :: l
  end.
Definition by_recent (l : list dirent) : list dirent := foldr insert_recent [] l.

Definition list_of_files (src : list dirent) : list dirent := by_recent (filter de_isfile src).

Definition file_size (f : dirent) : Z := Z.of_nat (String.length (de_data f)).

Fixpoint zeros (n : nat) : string :=
  match n with O => EmptyString | S n' => String Ascii.zero (zeros n') end.

(** [os.truncate]: cuts, or extends with zero bytes. *)
Definition truncate (n : nat) (s : string) : string := stake n s +:+ zeros (n - String.length s).

(** The last bytes of the file; a negative size is refused once the file was
    written. *)
Definition _truncate_file_size (f : dirent) (original required : Z) : ST dest unit := λ d,
  if (original - required <? 0)%Z then (Err (OSError EINVAL), <[de_name f := ""]> d)   (* seek *)
  else
    let written := sdrop (Z.to_nat (original - required)) (de_data f) in
    if (required <? 0)%Z then (Err (BundleError EINVAL), <[de_name f := written]> d)
    else (Ok tt, <[de_name f := truncate (Z.to_nat required) written]> d).

Fixpoint limit_loop (files : list dirent) (reg_ex : string) (required : Z) : ST dest unit :=
  match files with
  | [] => st_ret tt
  | f :: files' =>
      if startswith (de_name f) reg_ex then
        if (file_size f <=? required)%Z then λ d,
          limit_loop files' reg_ex (required - file_size f) (<[de_name f := de_data f]> d)
        else _truncate_file_size f (file_size f) required
      else limit_loop files' reg_ex required
  end.

Definition strip_star (file_name_reg_ex : string) : string :=
  if endswith file_name_reg_ex "*" then drop_suffix 1 file_name_reg_ex else file_name_reg_ex.

(** [src]: [None] when the directory does not exist. *)
Definition limit_size (src : option (list dirent)) (size file_name_reg_ex : string) : ST dest unit :=
  match src with
  | None => st_raise (BundleError EINVAL)
  | Some src =>
      let! required := st_lift (_get_size_in_bytes (upper size)) in
      limit_loop (list_of_files src) (strip_star file_name_reg_ex) required
  end.

End size.

(** ** Dates *)

Definition second : Z := 1000000.

(** The days from 1970-01-01 to a day of the Gregorian calendar *)
Definition is_leap (y : Z) : bool :=
  ((y mod 4 =? 0) && (negb (y mod 100 =? 0) || (y mod 400 =? 0)))%Z.
Definition month_days (y m : Z) : Z :=
  if (m =? 2)%Z then (if is_leap y then 29 else 28)
  else if existsb (Z.eqb m) [4; 6; 9; 11]%Z then 30 else 31.
Definition days_before_year (y : Z) : Z :=
  let p := (y - 1)%Z in (365 * p + p / 4 - p / 100 + p / 400)%Z.
Definition days_before_month (y m : Z) : Z :=
  foldl (λ n k, n + month_days y (Z.of_nat k))%Z 0%Z (seq 1 (Z.to_nat (m - 1))).
Definition datetime (y mo d h mi s : Z) : Z :=
  ((((days_before_year y + days_before_month y mo + d - 1 - 719162) * 24 + h) * 60 + mi) * 60 + s)%Z * second.

(** A field of [strptime]: one or two digits, or four for the year, in a range. *)
Definition field (widths : list nat) (lo hi : Z) (s : string) : option Z :=
  let z := Z.of_nat (int_of_digits s) in
  if sforall is_digit s && existsb (Nat.eqb (String.length s)) widths && (lo <=? z)%Z && (z <=? hi)%Z
  then Some z else None.

(** [datetime.strptime(s, '%Y-%m-%d?%H:%M:%S')] with a separator of date and
    time; [None] is [ValueError]. *)
Definition strptime (sepc : ascii) (s : string) : option Z :=
  match split sepc s with
  | [date; time] =>
      match split "-" date, split ":" time with
      | [y; mo; d], [h; mi; s] =>
          y ← field [4] 1 9999 y; mo ← field [1; 2] 1 12 mo;
          d ← field [1; 2] 1 (month_days y mo) d;
          h ← field [1; 2] 0 23 h; mi ← field [1; 2] 0 59 mi; s ← field [1; 2] 0 59 s;
          Some (datetime y mo d h mi s)
      | _, _ => None
      end
  | _ => None
  end.

(** ** Durations *)

(** [re.search("[0-9T:\-]*P", duration)], without the [P] *)
Fixpoint before_P (run s : string) : option string :=
  match s with
  | EmptyString => None
  | String c s' =>
      if Ascii.eqb c "P" then Some run
      else if is_digit c || Ascii.eqb c "T" || Ascii.eqb c ":" || Ascii.eqb c "-"
           then before_P (run +:+ sep c) s'
           else before_P "" s'
  end.

(** [re.search("[0-9]+D", duration)], as a number; 0 without a match *)
Fixpoint digits_before (delim : ascii) (run s : string) : Z :=
  match s with
  | EmptyString => 0
  | String c s' =>
      if is_digit c then digits_before delim (run +:+ sep c) s'
      else if Ascii.eqb c delim && negb (bool_decide (run = "")) then Z.of_nat (int_of_digits run)
      else digits_before delim "" s'
  end.
Definition _get_delim_value (duration : string) (delim : ascii) : Z := digits_before delim "" duration.

Definition duration_seconds (duration : string) : Z :=
  (_get_delim_value duration "D" * 86400 + _get_delim_value duration "H" * 3600 +
   _get_delim_value duration "M" * 60 + _get_delim_value duration "S")%Z.

(** The start and the end; [now] is [datetime.now()]. *)
Definition _parse_duration (now : Z) (duration : string) : res (Z * Z) :=
  let length := (duration_seconds duration * second)%Z in
  let start := default "" (before_P "" duration) in
  if decide (start = "") then Ok (now - length, now)%Z
  else match strptime "T" start with
       | Some start_time => Ok (start_time, start_time + length)%Z
       | None => Err ValueError
       end.

(** ** [limit_time] *)

Definition valid_char (c : ascii) : bool :=
  is_digit c || existsb (Ascii.eqb c) ["P"; "T"; "D"; "H"; "M"; "S"; "-"; ":"]%char.

(** The default expression and format of a timestamp *)
Inductive tchar := Digit | Lit (c : ascii).
Definition TIMESTAMP : list tchar :=
  [Digit; Digit; Digit; Digit; Lit "-"; Digit; Digit; Lit "-"; Digit; Digit; Lit " ";
   Digit; Digit; Lit ":"; Digit; Digit; Lit ":"; Digit; Digit].

Definition tmatch (t : tchar) (c : ascii) : bool :=
  match t with Digit => is_digit c | Lit x => Ascii.eqb c x end.

Fixpoint match_at (p : list tchar) (s : string) : bool :=
  match p, s with
  | [], _ => true
  | t :: p', String c s' => tmatch t c && match_at p' s'
  | _, _ => false
  end.

Fixpoint search (p : list tchar) (s : string) : option string :=
  if match_at p s then Some (stake (length p) s)
  else match s with EmptyString => None | String _ s' => search p s' end.

(** What the loop learns of a line: no timestamp, one that is no date, or its
    time. *)
Inductive stamp := NoStamp | BadStamp | At (t : Z).

Definition log_time (line : string) : stamp :=
  match search TIMESTAMP line with
  | None => NoStamp
  | Some s => match strptime " " s with Some t => At t | None => BadStamp end
  end.

(** The loop over the lines of a file: the flag
    [include_lines_without_timestamp], whether anything was written, whether
    the span was exceeded, and the lines written. *)
Record scan := Scan { sc_include : bool; sc_written : bool; sc_exceeded : bool; sc_lines : list string }.

Section time.
Context (stamp_of : string → stamp) (start_time end_time : Z).

Fixpoint scan_lines (lines : list string) (include : bool) : scan :=
  match lines with
  | [] => Scan include false false []
  | line :: lines' =>
      let keep include' := let r := scan_lines lines' include' in
        Scan (sc_include r) true (sc_exceeded r) (line :: sc_lines r) in
      match stamp_of line with
      | At t =>
          if ((start_time <=? t) && (t <=? end_time))%Z then keep true
          else if (end_time <? t)%Z && include then Scan false false true []
          else scan_lines lines' include
      | BadStamp => if include then keep include else scan_lines lines' include
      | NoStamp => scan_lines lines' include
      end
  end.

(** [pathlib.Path(file).suffix] *)
Definition suffix (file : string) : string :=
  let parts := split "." file in
  let ext := List.last parts "" in
  let stem := String.length file - String.length ext - 1 in
  if decide (length parts ≤ 1) then ""
  else if decide (ext = "" ∨ stem = 0) then "" else "." +:+ ext.

Definition supported_file_types : list string := [".log"; ".txt"].

Definition _collect_rotated_log_file (f : dirent) (d : dest) : dest :=
  if ((start_time <=? de_ctime f) && (de_ctime f <=? end_time))%Z then <[de_name f := de_data f]> d else d.

(** One log file: [op_file] is opened for appending, then renamed or removed. *)
Definition filter_file (f : dirent) (include : bool) (d : dest) : bool * bool * dest :=
  let r := scan_lines (readlines (Files.universal_newlines (de_data f))) include in
  let op_file := "tmp_" +:+ de_name f in
  let text := default "" (d !! op_file) +:+ String.concat "" (sc_lines r) in
  let d' := delete op_file d in
  (sc_include r, sc_exceeded r, if sc_written r then <[de_name f := text]> d' else d').

Fixpoint time_loop (files : list dirent) (reg_ex : string) (include : bool) (d : dest) : dest :=
  match files with
  | [] => d
  | f :: files' =>
      if startswith (de_name f) reg_ex then
        if decide (suffix (de_name f) ∈ supported_file_types) then
          let '(include', exceeded, d') := filter_file f include d in
          if exceeded : bool then d' else time_loop files' reg_ex include' d'
        else time_loop files' reg_ex include (_collect_rotated_log_file f d)
      else time_loop files' reg_ex include d
  end.

End time.

Definition limit_time (stamp_of : string → stamp) (now : Z) (src : list dirent)
    (duration file_name_reg_ex : string) : ST dest unit := λ d,
  if sforall valid_char duration then
    match _parse_duration now duration with
    | Err e => (Err e, d)
    | Ok (start_time, end_time) =>
        (Ok tt, time_loop stamp_of start_time end_time (list_of_files src) file_name_reg_ex false d)
    end
  else (Err (BundleError EINVAL), d).

Example date1 : strptime " " "1970-01-02 00:00:01" = Some (86401 * second)%Z.
Proof. reflexivity. Qed.
Example date2 : strptime "T" "2022-03-01T00:00:00" = Some (1646092800 * second)%Z.
Proof. reflexivity. Qed.
Example duration1 : duration_seconds "2020-09-06T05:30:00P5DT3H3S" = (5 * 86400 + 3 * 3600 + 3)%Z.
Proof. reflexivity. Qed.
Example suffix1 : map suffix ["a.log"; ".log"; "a.tar.gz"; "a."; "a"] = [".log"; ""; ".gz"; ""; ""].
Proof. reflexivity. Qed.

End LogFilter.
