(* ===== verification/LogFilterSpec.v ===== *)
(** What the log filters promise: [limit_size] copies the newest logs, no more
    bytes than asked for and no fewer than there are; [limit_time] keeps, of a
    log in order, exactly the lines of the span. *)
From Stdlib Require Import Ascii Sorting.Sorted.
From S2P Require Import Prelude PyStr PyVal KvFiles LogFilter.
Import PyStr LogFilter.

Module LogFilterSpec.

(** ** Strings *)

Lemma length_stake n s : String.length (stake n s) = Nat.min n (String.length s).
Proof. revert s. induction n as [|n IH]; intros [|c s]; cbn; try done. by rewrite IH. Qed.

Lemma length_sdrop n s : String.length (sdrop n s) = String.length s - n.
Proof. revert s. induction n as [|n IH]; intros [|c s]; cbn; done. Qed.

Lemma stake_sdrop n s : stake n s +:+ sdrop n s = s.
Proof. revert s. induction n as [|n IH]; intros [|c s]; cbn; try done. by rewrite IH. Qed.

Lemma stake_all n s : String.length s ≤ n → stake n s = s.
Proof. revert s. induction n as [|n IH]; intros [|c s]; cbn; intros; try done; [lia|]. rewrite IH; [done|lia]. Qed.

(** What [_truncate_file_size] leaves of a file larger than the size. *)
Lemma truncate_last n s :
  n ≤ String.length s → truncate n (sdrop (String.length s - n) s) = sdrop (String.length s - n) s.
Proof.
  intros Hn. unfold truncate. rewrite length_sdrop.
  replace (n - (String.length s - (String.length s - n))) with 0 by lia.
  cbn [zeros]. rewrite sapp_nil_r, stake_all; [done|]. rewrite length_sdrop. lia.
Qed.

(** ** The order of the files *)

Definition newer (f g : dirent) : Prop := (de_mtime g <= de_mtime f)%Z.

Lemma insert_recent_elem f l g : g ∈ insert_recent f l ↔ g = f ∨ g ∈ l.
Proof.
  induction l as [|h l IH]; cbn [insert_recent]; [set_solver|].
  destruct (_ <? _)%Z; [rewrite elem_of_cons, IH|]; set_solver.
Qed.

Lemma insert_recent_sorted f l : StronglySorted newer l → StronglySorted newer (insert_recent f l).
Proof.
  induction 1 as [|g l Hl IH Hg]; cbn [insert_recent]; [by repeat constructor|].
  destruct (Z.ltb_spec (de_mtime f) (de_mtime g)) as [Hlt|Hge].
  - constructor; [done|]. apply Forall_forall. intros h [->|Hh]%insert_recent_elem; [unfold newer; lia|].
    by eapply Forall_forall.
  - constructor; [by constructor|]. constructor; [unfold newer; lia|].
    eapply Forall_impl; [exact Hg|]. unfold newer. cbn. lia.
Qed.

Lemma by_recent_sorted l : StronglySorted newer (by_recent l).
Proof. induction l as [|f l IH]; [constructor|]. cbn. by apply insert_recent_sorted. Qed.

Lemma by_recent_perm l : by_recent l ≡ₚ l.
Proof.
  assert (H : ∀ f l, insert_recent f l ≡ₚ f :: l).
  { intros f l'. induction l' as [|g l' IH]; cbn [insert_recent]; [done|].
    destruct (_ <? _)%Z; [|done]. rewrite IH. apply Permutation_swap. }
  induction l as [|f l IH]; [done|]. cbn. by rewrite H, IH.
Qed.

Lemma filter_sorted (P : dirent → Prop) `{∀ f, Decision (P f)} l :
  StronglySorted newer l → StronglySorted newer (filter P l).
Proof.
  induction 1 as [|f l Hl IH Hf]; [constructor|]. rewrite filter_cons. case_decide; [|done].
  constructor; [done|]. apply Forall_forall. intros g [_ Hg]%list_elem_of_filter. by eapply Forall_forall.
Qed.

(** ** [limit_size] *)

(** The files the filter looks at, newest first. *)
Definition chosen (src : list dirent) (reg_ex : string) : list dirent :=
  filter (λ f, startswith (de_name f) reg_ex = true) (list_of_files src).

Definition bytes (l : list string) : nat := sum_list (String.length <$> l).

(** [out] is the first files whole, in their order, and after them nothing, or
    the end of the one file that comes next, without its beginning. *)
Definition wholes (files : list dirent) : list (string * string) := (λ f, (de_name f, de_data f)) <$> files.
Definition whole_then_end (out : list (string * string)) (files : list dirent) : Prop :=
  ∃ k, out = wholes (take k files) ∨
    ∃ f cut rest, files !! k = Some f ∧ de_data f = cut +:+ rest ∧ cut ≠ "" ∧
      out = wholes (take k files) ++ [(de_name f, rest)].

Definition copied (d : dest) (out : list (string * string)) (d' : dest) : Prop :=
  d' = foldl (λ d o, <[o.1 := o.2]> d) d out.

Lemma limit_loop_exact reg_ex files : ∀ required d,
  (0 <= required)%Z →
  let l := filter (λ f, startswith (de_name f) reg_ex = true) files in
  ∃ out d', limit_loop files reg_ex required d = (Ok tt, d') ∧ copied d out d' ∧ whole_then_end out l ∧
    Z.of_nat (bytes out.*2) = Z.min required (Z.of_nat (bytes (de_data <$> l))).
Proof.
  induction files as [|f files IH]; intros required d Hr; cbv zeta.
  { exists [], d. split_and!; [done..|by exists 0; left|]. cbn. lia. }
  cbn [limit_loop]. rewrite filter_cons.
  destruct (startswith (de_name f) reg_ex) eqn:Hs; cbn [decide].
  2: { rewrite decide_False by done. by apply IH. }
  rewrite decide_True by done. unfold file_size.
  destruct (Z.leb_spec (Z.of_nat (String.length (de_data f))) required) as [Hle|Hgt].
  - destruct (IH (required - Z.of_nat (String.length (de_data f)))%Z (<[de_name f := de_data f]> d))
      as (out & d' & -> & Hc & [k Hk] & Hb); [lia|].
    exists ((de_name f, de_data f) :: out), d'. split_and!; [done|exact Hc| |].
    + exists (S k). destruct Hk as [->|(g & cut & rest & Hg & Hd & Hn & ->)]; [by left|right]. by exists g, cut, rest.
    + unfold bytes in *. cbn [fmap list_fmap snd sum_list_with]. unfold id in *. lia.
  - unfold _truncate_file_size. rewrite (proj2 (Z.ltb_ge _ _)) by lia. rewrite (proj2 (Z.ltb_ge _ _)) by lia.
    set (n := Z.to_nat required).
    replace (Z.to_nat (Z.of_nat (String.length (de_data f)) - required)) with (String.length (de_data f) - n) by lia.
    rewrite truncate_last by lia.
    exists [(de_name f, sdrop (String.length (de_data f) - n) (de_data f))]. eexists. split_and!; [done|done| |].
    + exists 0. right. eexists f, (stake (String.length (de_data f) - n) (de_data f)), _. split_and!; [done|by rewrite stake_sdrop| |done].
      intros Hcut. apply (f_equal String.length) in Hcut. rewrite length_stake in Hcut. cbn in Hcut. lia.
    + unfold bytes. cbn [fmap list_fmap snd sum_list_with]. unfold id. rewrite length_sdrop. lia.
Qed.

(** C39.  The size asked for is a bound and is used up: for a size of zero or
    more bytes, [limit_size] returns, and what it writes is, of the files that
    match, newest first, whole files and the end of the one next, in all as many
    bytes as asked for, or all of them when there are fewer. *)
Theorem limit_size_bound float_of src size reg_ex d required :
  _get_size_in_bytes float_of (upper size) = Ok required → (0 <= required)%Z →
  let files := chosen src (strip_star reg_ex) in
  StronglySorted newer files ∧
  ∃ out d', limit_size float_of (Some src) size reg_ex d = (Ok tt, d') ∧ copied d out d' ∧ whole_then_end out files ∧
    Z.of_nat (bytes out.*2) = Z.min required (Z.of_nat (bytes (de_data <$> files))).
Proof.
  intros Hs Hr. cbv zeta. split.
  - unfold chosen, list_of_files. apply filter_sorted, by_recent_sorted.
  - unfold limit_size, st_bind, st_lift. rewrite Hs. by apply limit_loop_exact.
Qed.

(** ** [limit_time] *)

Section scan.
Context (stamp_of : string → stamp) (start_time end_time : Z).

Definition in_span (line : string) : bool :=
  match stamp_of line with At t => ((start_time <=? t) && (t <=? end_time))%Z | _ => false end.
Definition after_span (line : string) : bool :=
  match stamp_of line with At t => (end_time <? t)%Z | _ => false end.

(** The times of the lines that have one, in order. *)
Definition times (lines : list string) : list Z :=
  omap (λ l, match stamp_of l with At t => Some t | _ => None end) lines.

Definition no_bad (lines : list string) : Prop := Forall (λ l, stamp_of l ≠ BadStamp) lines.

Definition within (lines : list string) : list string := filter (λ l, in_span l = true) lines.

Lemma within_cons l lines : within (l :: lines) = if in_span l then l :: within lines else within lines.
Proof. unfold within. rewrite filter_cons. by destruct (in_span l). Qed.

Lemma times_cons l lines :
  times (l :: lines) = match stamp_of l with At t => t :: times lines | _ => times lines end.
Proof. unfold times. cbn. by destruct (stamp_of l). Qed.

(** In a log in order, nothing after a line beyond the span is in it. *)
Lemma after_none t lines :
  (end_time < t)%Z → Forall (λ u, (t <= u)%Z) (times lines) → existsb in_span lines = false ∧ within lines = [].
Proof.
  intros Ht. induction lines as [|l lines IH]; [done|]. rewrite times_cons, within_cons. cbn [existsb]. intros Hall.
  assert (in_span l = false) as ->.
  { unfold in_span. destruct (stamp_of l) as [| |u]; [done..|].
    apply Forall_cons in Hall as [Hu _]. rewrite andb_false_iff, !Z.leb_gt. lia. }
  apply IH. destruct (stamp_of l); [done..|]. by apply Forall_cons in Hall as [_ ?].
Qed.

Lemma scan_parts lines : ∀ include,
  no_bad lines → StronglySorted Z.le (times lines) →
  let r := scan_lines stamp_of start_time end_time lines include in
  sc_lines r = within lines ∧
  sc_written r = negb (bool_decide (sc_lines r = [])) ∧
  sc_exceeded r = (include || existsb in_span lines) && existsb after_span lines.
Proof.
  induction lines as [|l lines IH]; intros include Hnb Hs; cbv zeta.
  { cbn. by rewrite andb_false_r. }
  apply Forall_cons in Hnb as [Hl Hnb]. rewrite within_cons, times_cons in *. cbn [scan_lines existsb].
  assert (Hi : in_span l = match stamp_of l with At t => ((start_time <=? t) && (t <=? end_time))%Z | _ => false end) by done.
  assert (Ha : after_span l = match stamp_of l with At t => (end_time <? t)%Z | _ => false end) by done.
  rewrite Hi, Ha. clear Hi Ha.
  destruct (stamp_of l) as [| |t]; [by apply IH|done|].
  apply StronglySorted_inv in Hs as [Hs Hall].
  destruct ((start_time <=? t) && (t <=? end_time))%Z eqn:Hin.
  - cbn [orb sc_lines sc_written sc_exceeded].
    destruct (IH true Hnb Hs) as (-> & _ & ->). split_and!; [done|done|].
    apply andb_prop in Hin as [_ Hle%Z.leb_le]. rewrite (proj2 (Z.ltb_ge _ _)) by lia.
    by rewrite orb_true_r.
  - cbn [orb]. destruct (Z.ltb_spec end_time t) as [Hgt|Hle]; cbn [andb orb]; [|by apply IH].
    destruct (after_none t lines Hgt Hall) as [Hno Hw].
    destruct include; cbn [orb andb sc_lines sc_written sc_exceeded]; [by rewrite Hw|].
    destruct (IH false Hnb Hs) as (-> & -> & ->). cbn [orb]. by rewrite Hno.
Qed.

(** Of a log whose timestamps are dates in order, the time filter keeps
    exactly the lines stamped within the span, in order, whatever an earlier
    file left; it writes a file when there is such a line, and goes no further
    when the log reaches beyond the span after a line in it (here or in an
    earlier file). *)
Theorem scan_lines_exact lines include :
  no_bad lines → StronglySorted Z.le (times lines) →
  let r := scan_lines stamp_of start_time end_time lines include in
  sc_lines r = within lines ∧
  sc_written r = negb (bool_decide (sc_lines r = [])) ∧
  sc_exceeded r = (include || existsb in_span lines) && existsb after_span lines.
Proof. apply scan_parts. Qed.

End scan.

(** ** Logs *)

Definition line (s : string) : string := s +:+ sep (Ascii.ascii_of_nat 10).

Definition old_log : dirent := Dirent "app.log.log" true
  (line "2022-07-10 05:00:00 boot" +:+ line "2022-07-10 06:00:00 start") 10 0.
Definition new_log : dirent := Dirent "app.log" true
  (line "2022-07-10 06:30:00 work" +:+ line "  a line more" +:+ line "2022-07-10 09:00:00 late") 20 0.

(** [float] of a whole number *)
Definition whole (s : string) : res (Z * Z) := Ok (Z.of_nat (int_of_digits s), 0%Z).

Lemma limit_size_bound_witness :
  _get_size_in_bytes whole (upper "90b") = Ok 90%Z ∧
  ∃ out d', limit_size whole (Some [old_log; new_log]) "90b" "app*" ∅ = (Ok tt, d') ∧ copied ∅ out d' ∧
    whole_then_end out (chosen [old_log; new_log] "app") ∧ Z.of_nat (bytes out.*2) = 90%Z.
Proof.
  assert (H : _get_size_in_bytes whole (upper "90b") = Ok 90%Z) by reflexivity.
  split; [exact H|].
  apply (limit_size_bound whole [old_log; new_log] "90b" "app*" ∅ 90 H). lia.
Defined.

Definition span : Z * Z :=
  match _parse_duration 0 "2022-07-10T05:30:00PT2H" with Ok p => p | Err _ => (0, 0)%Z end.

Lemma scan_lines_exact_witness :
  let lines := readlines (de_data new_log) in
  let r := scan_lines log_time span.1 span.2 lines false in
  sc_lines r = [line "2022-07-10 06:30:00 work"] ∧
  sc_lines r = within log_time span.1 span.2 lines ∧ sc_exceeded r = true.
Proof.
  cbv zeta. split; [vm_compute; reflexivity|].
  destruct (scan_lines_exact log_time span.1 span.2 (readlines (de_data new_log)) false) as (H1 & _ & H2).
  - repeat (constructor; [by vm_compute|]). constructor.
  - match goal with |- StronglySorted _ ?l => let l' := eval vm_compute in l in change l with l' end.
    repeat first [apply SSorted_cons | apply SSorted_nil | apply Forall_cons_2 | apply Forall_nil_2 | lia].
  - split; [exact H1|]. by rewrite H2.
Defined.

(** A line without a timestamp is dropped, also within the span; and a newer
    log that reaches beyond the span keeps an older one within it from being
    read. *)
Lemma limit_time_loses :
  scan_lines log_time span.1 span.2 (readlines (de_data new_log)) false =
    Scan false true true [line "2022-07-10 06:30:00 work"] ∧
  (limit_time log_time 0 [old_log; new_log] "2022-07-10T05:30:00PT2H" "app" ∅).2 =
    {["app.log" := line "2022-07-10 06:30:00 work"]} ∧
  (limit_time log_time 0 [old_log] "2022-07-10T05:30:00PT2H" "app" ∅).2 =
    {["app.log.log" := line "2022-07-10 06:00:00 start"]}.
Proof. split_and!; vm_compute; reflexivity. Qed.

End LogFilterSpec.
