(* ===== verification/MessageBus.v ===== *)
(** [utils/message_bus]: [MessageBus] over the Kafka broker
    ([message_broker.py], [message_broker_collection.py], [message_bus.py]) and
    its clients ([message_bus_client.py]).

    The Kafka service is the class [KafkaApi]: its operations act on a world
    and may raise.  Messages are byte strings; client ids and message types are
    strings. *)
From Stdlib Require Import Ascii.
From S2P Require Import Prelude PyStr PyVal KvPayload KvStore KvFiles ConfStore HaDecision Release.
Import PyStr.

Module Bus.

Definition ENOKEY : Z := 126.
Definition E2BIG : Z := 7.
Definition ETIMEDOUT : Z := 110.
Definition ERR_OP_FAILED : Z := 0x1100.
Definition ERR_INVALID_CLIENT_TYPE : Z := 0x1501.
Definition ERR_INVALID_SERVICE_NAME : Z := 0x1502.
Definition ERR_NOT_INITIALIZED : Z := 0x1505.

(** ** The service *)

(** What [poll] returns: no message, an error, or the bytes of a message. *)
Inductive polled := NoMessage | Failed | Message (value : string).

(** Configurations are dictionaries; the result of an altered configuration is
    [None] when it was accepted. *)
Class KafkaApi (K C : Type) := {
  k_admin : list (string * value) → ST K C;
  k_producer : list (string * value) → ST K C;
  k_consumer : list (string * value) → ST K C;
  k_subscribe : C → list string → ST K unit;
  k_list_topics : C → ST K (list (string * Z));
  k_create_topics : C → list string → Z → ST K (list (res unit));
  k_delete_topics : C → list string → ST K (list (res unit));
  k_create_partitions : C → string → Z → ST K (list (res unit));
  k_describe_configs : C → string → ST K (list (string * value));
  k_alter_configs : C → string → list (string * value) → ST K value;
  k_produce : C → string → string → ST K unit;
  k_flush : C → ST K unit;
  k_poll_producer : C → ST K unit;
  k_poll : C → value → ST K polled;
  k_commit : C → ST K unit;
  k_sleep : Z → K → K
}.

(** ** [MessageBrokerFactory.get_server_list] *)

(** [server_info] is one dictionary: the list holds it once per endpoint. *)
Definition server_info : Type := list (string * value).
Record server_heap := ServerHeap { sh_info : server_info; sh_list : nat }.

(** [split(s)[i]] and the two parts of [split(s)] *)
Definition part (i : nat) (l : list string) : res string :=
  match l !! i with Some x => Ok x | None => Err IndexError end.

(** [s.split('//')]: the text after the first separator, up to the next *)
Definition split_slashes (s : string) : list string :=
  match after "//" s with
  | None => [s]
  | Some rest => [before "//" s; before "//" rest]
  end.

Definition add_server (server : string) : ST server_heap unit := λ h,
  if contains server ":" then
    match (e ← part 1 (split_slashes server);
           match split ":" e with
           | [fqdn; port] => Ok (fqdn, port)
           | _ => Err ValueError
           end) with
    | Err e => (Err e, h)
    | Ok (fqdn, port) =>
        (Ok tt, ServerHeap (dset "port" (VStr port) (dset "server" (VStr fqdn) (sh_info h))) (S (sh_list h)))
    end
  else (Ok tt, ServerHeap (dset "port" (VStr "9092") (dset "server" (VStr server) (sh_info h))) (S (sh_list h))).

Definition get_server_list (endpoints : list string) : res (list server_info) :=
  match st_iter add_server endpoints (ServerHeap [] 0) with
  | (Ok _, h) => Ok (replicate (sh_list h) (sh_info h))
  | (Err _, _) => Err (BusError EINVAL)
  end.

(** [MessageBroker.__init__]: [','.join(x['server'] + ':' + x['port'] ...)] *)
Definition servers_of (broker_conf : value) : res string :=
  cluster ← Ha.vitem broker_conf "cluster";
  l ← Ha.iter_values cluster;
  names ← res_map (λ x, s ← Ha.vitem x "server"; p ← Ha.vitem x "port";
                        match s, p with
                        | VStr s, VStr p => Ok (s +:+ ":" +:+ p)
                        | _, _ => Err TypeError
                        end) l;
  Ok (join "," names).

(** ** [KafkaMessageBroker] *)

Section kafka.
Context {K C : Type} `{KafkaApi K C}.

Record broker := KafkaMessageBroker {
  bk_servers : string;
  bk_admin : gmap string C;
  bk_producer : gmap string C;
  bk_consumer : gmap string C;
  bk_recv_timeout : value;
  bk_socket_timeout : value;
  bk_send_timeout : value;
  bk_resource : option (string * list (string * value));   (* self._resource *)
  bk_saved_retention : option value                        (* self._saved_retention *)
}.

Definition _default_msg_retention_period : Z := 604800000.
Definition _min_msg_retention_period : Z := 1.
Definition _max_config_retry_count : nat := 3.
Definition _max_list_message_type_count : nat := 15.
Definition _config_prop_map : list (string * string) :=
  [("expire_time_ms", "retention.ms"); ("data_limit_bytes", "segment.bytes");
   ("file_delete_ms", "file.delete.delay.ms")].

Definition broker_init (broker_conf : value) : res broker :=
  servers ← servers_of broker_conf;
  mb ← Ha.vitem broker_conf "message_bus";
  recv ← Ha.vitem mb "receive_timeout";
  socket ← Ha.vitem mb "socket_timeout";
  send ← Ha.vitem mb "send_timeout";
  _ ← Ha.vitem mb "admin_api_timeout";
  Ok (KafkaMessageBroker servers ∅ ∅ ∅ recv socket send None None).

Definition set_clients (client_type : string) (f : gmap string C → gmap string C) (b : broker) : broker :=
  KafkaMessageBroker (bk_servers b)
    (if decide (client_type = "admin") then f (bk_admin b) else bk_admin b)
    (if decide (client_type = "producer") then f (bk_producer b) else bk_producer b)
    (if decide (client_type = "consumer") then f (bk_consumer b) else bk_consumer b)
    (bk_recv_timeout b) (bk_socket_timeout b) (bk_send_timeout b) (bk_resource b) (bk_saved_retention b).
Definition set_resource (r : option (string * list (string * value))) (b : broker) : broker :=
  KafkaMessageBroker (bk_servers b) (bk_admin b) (bk_producer b) (bk_consumer b)
    (bk_recv_timeout b) (bk_socket_timeout b) (bk_send_timeout b) r (bk_saved_retention b).
Definition set_saved (v : option value) (b : broker) : broker :=
  KafkaMessageBroker (bk_servers b) (bk_admin b) (bk_producer b) (bk_consumer b)
    (bk_recv_timeout b) (bk_socket_timeout b) (bk_send_timeout b) (bk_resource b) v.

Definition clients (client_type : string) (b : broker) : option (gmap string C) :=
  if decide (client_type = "admin") then Some (bk_admin b)
  else if decide (client_type = "producer") then Some (bk_producer b)
  else if decide (client_type = "consumer") then Some (bk_consumer b)
  else None.

(** The broker and the service together *)
Definition on_service {A} (m : ST K A) : ST (broker * K) A := λ '(b, k), let '(r, k') := m k in (r, (b, k')).
Definition on_broker (f : broker → broker) : ST (broker * K) unit := λ '(b, k), (Ok tt, (f b, k)).
Definition sleep (t : Z) : ST (broker * K) unit := λ '(b, k), (Ok tt, (b, k_sleep t k)).

(** [self._clients[client_type][client_id]] *)
Definition client (client_type client_id : string) : ST (broker * K) C := λ '(b, k),
  match (l ← clients client_type b; l !! client_id) with
  | Some c => (Ok c, (b, k))
  | None => (Err KeyError, (b, k))
  end.

(** [client_conf[key]] *)
Definition conf_item (client_conf : list (string * value)) (key : string) : res value :=
  match dget key client_conf with Some v => Ok v | None => Err KeyError end.

(** [x in l] for the names of topics *)
Definition name_in (names : list string) (v : value) : bool := existsb (λ n, py_eq v (VStr n)) names.

(** A client that exists is kept, if its topic does. *)
Definition check_topics (client_type : string) (c : C) (client_conf : list (string * value))
    : ST (broker * K) unit :=
  let! topics := on_service (k_list_topics c) in
  let available := dkeys topics in
  if decide (client_type = "producer") then
    let! t := st_lift (conf_item client_conf "message_type") in
    if name_in available t then st_ret tt else st_raise (BusError EINVAL)
  else if decide (client_type = "consumer") then
    let! ts := st_lift (l ← conf_item client_conf "message_types"; Ha.iter_values l) in
    if existsb (name_in available) ts then st_ret tt else st_raise (BusError EINVAL)
  else st_ret tt.

Definition new_admin (kafka_conf : list (string * value)) (client_id : string) : ST (broker * K) unit :=
  let! admin := on_service (k_admin kafka_conf) in
  on_broker (set_clients "admin" <[client_id := admin]>).

(** The retention of the topic, to be restored after [delete]. *)
Definition new_producer (kafka_conf : list (string * value)) (client_id : string)
    (client_conf : list (string * value)) : ST (broker * K) unit :=
  let! producer := on_service (k_producer kafka_conf) in
  on_broker (set_clients "producer" <[client_id := producer]>) ;;;
  let! topic := st_lift (t ← conf_item client_conf "message_type"; Ha.as_str t) in
  on_broker (set_resource (Some (topic, []))) ;;;
  let! admin := client "admin" client_id in
  let! default_configs := on_service (k_describe_configs admin topic) in
  match dget "retention.ms" default_configs with
  | None => st_raise (BusError ENOKEY)
  | Some v =>
      let! z := st_lift (Release.py_int v) in
      on_broker (set_saved (Some (VInt (if decide (z = _min_msg_retention_period)
                                        then _default_msg_retention_period else z))))
  end.

Definition consumer_entries : list string :=
  ["offset"; "consumer_group"; "message_types"; "auto_ack"; "client_id"].

Definition new_consumer (kafka_conf : list (string * value)) (client_id : string)
    (client_conf : list (string * value)) : ST (broker * K) unit :=
  if existsb (λ e, negb (bool_decide (is_Some (dget e client_conf)))) consumer_entries
  then st_raise (BusError ENOENT)
  else
    let item key := default VNull (dget key client_conf) in
    let! consumer := on_service (k_consumer (kafka_conf ++
      [("enable.auto.commit", item "auto_ack"); ("auto.offset.reset", item "offset");
       ("group.id", item "consumer_group")])) in
    let! names := st_lift (l ← Ha.iter_values (item "message_types"); res_map Ha.as_str l) in
    on_service (k_subscribe consumer names) ;;;
    on_broker (set_clients "consumer" <[client_id := consumer]>).

Definition init_client (client_type : string) (client_conf : list (string * value)) : ST (broker * K) unit := λ '(b, k),
  match clients client_type b with
  | None => (Err (BusError ERR_INVALID_CLIENT_TYPE), (b, k))
  | Some existing =>
      (let! client_id := st_lift (c ← conf_item client_conf "client_id"; Ha.as_str c) in
       match existing !! client_id with
       | Some c => check_topics client_type c client_conf
       | None =>
           let kafka_conf :=
             [("bootstrap.servers", VStr (bk_servers b)); ("client.id", VStr client_id)] in
           let with_socket := kafka_conf ++ [("socket.timeout.ms", bk_socket_timeout b)] in
           if decide (client_type = "admin") then new_admin with_socket client_id
           else if decide (client_type = "producer") then
             new_admin with_socket client_id ;;;
             new_producer (with_socket ++ [("message.timeout.ms", bk_send_timeout b)]) client_id client_conf
           else new_consumer kafka_conf client_id client_conf
       end) (b, k)
  end.

(** *** Message types *)

(** [task.result()] of each task: any exception is an operation that failed. *)
Definition _task_status (tasks : list (res unit)) : res unit :=
  if forallb is_ok tasks then Ok tt else Err (BusError ERR_OP_FAILED).

Definition _get_metadata (admin : C) : ST (broker * K) (list (string * Z)) := λ '(b, k),
  match k_list_topics admin k with
  | (Ok topics, k') => (Ok topics, (b, k'))
  | (Err _, k') => (Err (BusError ERR_OP_FAILED), (b, k'))
  end.

Definition list_message_types (admin_id : string) : ST (broker * K) (list string) :=
  let! admin := client "admin" admin_id in
  let! topics := _get_metadata admin in st_ret (dkeys topics).

(** [for list_retry in range(1, count + 2)]: waits until [done] holds of the
    metadata; the last turn raises. *)
Fixpoint wait_until (done : list (string * Z) → res bool) (e : exn) (admin : C) (retries : list nat)
    : ST (broker * K) unit :=
  match retries with
  | [] => st_ret tt
  | list_retry :: retries' =>
      let! topics := _get_metadata admin in
      let! ok := st_lift (done topics) in
      if ok : bool then st_ret tt
      else if decide (_max_list_message_type_count < list_retry) then st_raise e
      else sleep (Z.of_nat list_retry) ;;; wait_until done e admin retries'
  end.
Definition retries : list nat := seq 1 (_max_list_message_type_count + 1).

Definition listed (t : string) (topics : list (string * Z)) : bool := bool_decide (t ∈ dkeys topics).

Definition register_message_type (admin_id : string) (message_types : list string) (partitions : Z)
    : ST (broker * K) unit :=
  let! admin := client "admin" admin_id in
  let! created := on_service (k_create_topics admin message_types partitions) in
  st_lift (_task_status created) ;;;
  st_iter (λ t, wait_until (λ topics, Ok (listed t topics)) (BusError ETIMEDOUT) admin retries) message_types.

Definition deregister_message_type (admin_id : string) (message_types : list string) : ST (broker * K) unit :=
  let! admin := client "admin" admin_id in
  let! deleted := on_service (k_delete_topics admin message_types) in
  st_lift (_task_status deleted) ;;;
  st_iter (λ t, wait_until (λ topics, Ok (negb (listed t topics))) (BusError ETIMEDOUT) admin retries) message_types.

Definition add_concurrency (admin_id message_type : string) (concurrency_count : Z) : ST (broker * K) unit :=
  let! admin := client "admin" admin_id in
  let! partitions := on_service (k_create_partitions admin message_type concurrency_count) in
  st_lift (_task_status partitions) ;;;
  wait_until (λ topics, match dget message_type topics with
                        | Some n => Ok (n =? concurrency_count)%Z
                        | None => Err KeyError
                        end) (BusError E2BIG) admin retries.

(** *** Messages *)

Definition send (producer_id message_type : string) (method : value) (messages : list string)
    : ST (broker * K) unit :=
  let! producer := client "producer" producer_id in
  st_iter (λ message,
    on_service (k_produce producer message_type message) ;;;
    if py_eq method (VStr "sync") then on_service (k_flush producer)
    else on_service (k_poll_producer producer)) messages.

(** [for retry in range(3)]: alters the configuration of the resource until it
    is accepted; the third refusal raises. *)
Fixpoint alter_loop (admin : C) (topic : string) (configs : list (string * value)) (e : exn) (retries : list nat)
    : ST K unit :=
  match retries with
  | [] => st_ret tt
  | retry :: retries' =>
      let! result := k_alter_configs admin topic configs in
      if is_null result then st_ret tt
      else if decide (1 < retry) then st_raise e
      else alter_loop admin topic configs e retries'
  end.
Definition config_retries : list nat := seq 0 _max_config_retry_count.

(** [self._resource.set_config('retention.ms', val)], and the loop around it *)
Definition alter_retention (admin : C) (val : value) (e : exn) : ST (broker * K) unit := λ '(b, k),
  match bk_resource b with
  | None => (Err AttributeError, (b, k))
  | Some (topic, configs) =>
      let configs' := dset "retention.ms" val configs in
      on_service (alter_loop admin topic configs' e config_retries) (set_resource (Some (topic, configs')) b, k)
  end.

(** The topic purged is the one of [self._resource]. *)
Definition delete (admin_id message_type : string) : ST (broker * K) Z :=
  let! admin := client "admin" admin_id in
  alter_retention admin (VInt _min_msg_retention_period) (BusError ERR_OP_FAILED) ;;;
  sleep 1 ;;;
  (λ '(b, k), match bk_saved_retention b with
              | None => (Err AttributeError, (b, k))
              | Some v => alter_retention admin v (BusError ENOKEY) (b, k)
              end) ;;;
  st_ret 0%Z.

(** [while True]: without a message, a blocking call polls again; [None] is a
    call still waiting when the fuel is spent. *)
Definition interrupted (e : exn) : exn := match e with KeyboardInterrupt => BusError EINTR | _ => e end.
Fixpoint receive_loop (fuel : nat) (consumer : C) (timeout : value) (blocking : bool) (k : K)
    : option (res (option string) * K) :=
  match fuel with
  | O => None
  | S fuel' =>
      match k_poll consumer timeout k with
      | (Err e, k') => Some (Err (interrupted e), k')
      | (Ok NoMessage, k') => if blocking then receive_loop fuel' consumer timeout blocking k' else Some (Ok None, k')
      | (Ok Failed, k') => Some (Err (BusError ERR_OP_FAILED), k')
      | (Ok (Message v), k') => Some (Ok (Some v), k')
      end
  end.

Definition receive (fuel : nat) (consumer_id : string) (timeout : value) (st : broker * K)
    : option (res (option string) * (broker * K)) :=
  match client "consumer" consumer_id st with
  | (Err e, st') => Some (Err e, st')
  | (Ok consumer, (b, k)) =>
      let timeout1 := if is_null timeout then bk_recv_timeout b else timeout in
      let blocking := py_eq timeout1 (VInt 0) in
      let timeout2 := if blocking then bk_recv_timeout b else timeout1 in
      match receive_loop fuel consumer timeout2 blocking k with
      | None => None
      | Some (r, k') => Some (r, (b, k'))
      end
  end.

Definition ack (consumer_id : string) : ST (broker * K) unit :=
  let! consumer := client "consumer" consumer_id in on_service (k_commit consumer).

(** *** Retention *)

Definition add_config (configs : list (string * value)) (kv : string * value) : res (list (string * value)) :=
  match dget kv.1 _config_prop_map with
  | None => Err (BusError EINVAL)
  | Some prop => Ok (dset prop kv.2 configs)
  end.

Fixpoint set_configs (kwargs : list (string * value)) (configs : list (string * value)) : res (list (string * value)) :=
  match kwargs with
  | [] => Ok configs
  | kv :: kwargs' => configs' ← add_config configs kv; set_configs kwargs' configs'
  end.

Definition _configure_message_type (admin_id message_type : string) (kwargs : list (string * value))
    : ST (broker * K) Z :=
  let! admin := client "admin" admin_id in
  let! message_type_list := list_message_types admin_id in
  if decide (message_type ∈ message_type_list) then
    let! configs := st_lift (set_configs kwargs []) in
    on_service (alter_loop admin message_type configs (BusError ERR_OP_FAILED) config_retries) ;;;
    st_ret 0%Z
  else st_raise (BusError ENOENT).

Definition set_message_type_expire (admin_id message_type : string) (kwargs : list (string * value))
    : ST (broker * K) Z :=
  if existsb (λ p, negb (bool_decide (is_Some (dget p kwargs)))) ["expire_time_ms"; "data_limit_bytes"]
  then st_raise (BusError EINVAL)
  else _configure_message_type admin_id message_type (dset "file_delete_ms" (VInt 1) kwargs).

(** ** [MessageBus] *)

(** The brokers of the factory by type, and the one the bus uses. *)
Record bus := BusState {
  mb_brokers : gmap string broker;       (* MessageBrokerFactory._brokers *)
  mb_broker : option string              (* MessageBus._broker *)
}.

(** [MessageBrokerFactory.get_instance]: Kafka is the only broker. *)
Definition get_instance (broker_type : string) (broker_conf : value) : ST bus string := λ m,
  match mb_brokers m !! broker_type with
  | Some _ => (Ok broker_type, m)
  | None =>
      if decide (broker_type = "kafka") then
        match broker_init broker_conf with
        | Ok b => (Ok broker_type, BusState (<[broker_type := b]> (mb_brokers m)) (mb_broker m))
        | Err e => (Err e, m)
        end
      else (Err (BusError ERR_INVALID_SERVICE_NAME), m)
  end.

(** [MessageBus._broker.method(...)] *)
Definition with_broker {A} (e : exn) (f : ST (broker * K) A) : ST (bus * K) A := λ '(m, k),
  match (t ← mb_broker m; b ← mb_brokers m !! t; Some (t, b)) with
  | None => (Err e, (m, k))
  | Some (t, b) =>
      let '(r, (b', k')) := f (b, k) in (r, (BusState (<[t := b']> (mb_brokers m)) (mb_broker m), k'))
  end.

Definition bus_init_client (client_type : string) (client_conf : list (string * value)) : ST (bus * K) unit :=
  with_broker (BusError ERR_NOT_INITIALIZED) (init_client client_type client_conf).
Definition bus_list_message_types (client_id : string) : ST (bus * K) (list string) :=
  with_broker AttributeError (list_message_types client_id).
Definition bus_register_message_type (client_id : string) (message_types : list string) (partitions : Z)
    : ST (bus * K) unit :=
  with_broker AttributeError (register_message_type client_id message_types partitions).
Definition bus_deregister_message_type (client_id : string) (message_types : list string) : ST (bus * K) unit :=
  with_broker AttributeError (deregister_message_type client_id message_types).
Definition bus_add_concurrency (client_id message_type : string) (concurrency_count : Z) : ST (bus * K) unit :=
  with_broker AttributeError (add_concurrency client_id message_type concurrency_count).
Definition bus_send (client_id message_type : string) (method : value) (messages : list string)
    : ST (bus * K) unit :=
  with_broker AttributeError (send client_id message_type method messages).
Definition bus_delete (client_id message_type : string) : ST (bus * K) Z :=
  with_broker AttributeError (delete client_id message_type).
Definition bus_ack (client_id : string) : ST (bus * K) unit := with_broker AttributeError (ack client_id).
Definition bus_set_message_type_expire (client_id message_type : string) (kwargs : list (string * value))
    : ST (bus * K) Z :=
  with_broker AttributeError (set_message_type_expire client_id message_type kwargs).
Definition bus_receive (fuel : nat) (client_id : string) (timeout : value) (st : bus * K)
    : option (res (option string) * (bus * K)) :=
  let '(m, k) := st in
  match (t ← mb_broker m; b ← mb_brokers m !! t; Some (t, b)) with
  | None => Some (Err AttributeError, (m, k))
  | Some (t, b) =>
      match receive fuel client_id timeout (b, k) with
      | None => None
      | Some (r, (b', k')) => Some (r, (BusState (<[t := b']> (mb_brokers m)) (mb_broker m), k'))
      end
  end.

(** ** [MessageBusClient] *)

Definition _get_conf (client_conf : list (string * value)) (key : string) : res value :=
  match dget key client_conf with Some v => Ok v | None => Err (BusError ENOENT) end.
Definition client_id (client_conf : list (string * value)) : res string :=
  v ← _get_conf client_conf "client_id"; Ha.as_str v.

(** The constructors: the configuration the client keeps. *)
Definition admin_conf (admin_id : string) : list (string * value) := [("client_id", VStr admin_id)].
Definition producer_conf (producer_id message_type : string) (method : value) : list (string * value) :=
  [("client_id", VStr producer_id); ("message_type", VStr message_type); ("method", method)].
Definition consumer_conf (consumer_id consumer_group : string) (auto_ack message_types offset : value)
    : list (string * value) :=
  [("client_id", VStr consumer_id); ("consumer_group", VStr consumer_group); ("message_types", message_types);
   ("auto_ack", auto_ack); ("offset", offset)].

Definition new_client (client_type : string) (client_conf : list (string * value))
    : ST (bus * K) (list (string * value)) :=
  bus_init_client client_type client_conf ;;; st_ret client_conf.

(** A message is a payload, a string or something else. *)
Inductive message := MPayload (p : Payload.payload) | MStr (s : string) | MOther.

Context {F : Files.Format}.

Definition _get_str_message_list (messages : list message) : res (list string) :=
  res_map (λ m, match m with
                | MPayload p => Ok (Files.dumps (Payload.kp_data p))
                | MStr s => Ok s
                | MOther => Err (BusError EINVAL)
                end) messages.

Definition client_send (conf : list (string * value)) (messages : list message) : ST (bus * K) unit :=
  let! message_type := st_lift (v ← _get_conf conf "message_type"; Ha.as_str v) in
  let! method := st_lift (_get_conf conf "method") in
  let! id := st_lift (client_id conf) in
  let! strs := st_lift (_get_str_message_list messages) in
  bus_send id message_type method strs.

Definition client_delete (conf : list (string * value)) : ST (bus * K) Z :=
  let! message_type := st_lift (v ← _get_conf conf "message_type"; Ha.as_str v) in
  let! id := st_lift (client_id conf) in
  bus_delete id message_type.

Definition client_list_message_types (conf : list (string * value)) : ST (bus * K) (list string) :=
  let! id := st_lift (client_id conf) in bus_list_message_types id.
Definition client_register_message_type (conf : list (string * value)) (message_types : list string) (partitions : Z)
    : ST (bus * K) unit :=
  let! id := st_lift (client_id conf) in bus_register_message_type id message_types partitions.
Definition client_deregister_message_type (conf : list (string * value)) (message_types : list string)
    : ST (bus * K) unit :=
  let! id := st_lift (client_id conf) in bus_deregister_message_type id message_types.
Definition client_add_concurrency (conf : list (string * value)) (message_type : string) (count : Z)
    : ST (bus * K) unit :=
  let! id := st_lift (client_id conf) in bus_add_concurrency id message_type count.
Definition client_set_message_type_expire (conf : list (string * value)) (message_type : string)
    (kwargs : list (string * value)) : ST (bus * K) Z :=
  let! id := st_lift (client_id conf) in bus_set_message_type_expire id message_type kwargs.
Definition client_receive (fuel : nat) (conf : list (string * value)) (timeout : value) (st : bus * K)
    : option (res (option string) * (bus * K)) :=
  match client_id conf with
  | Err e => Some (Err e, st)
  | Ok id => bus_receive fuel id timeout st
  end.
Definition client_ack (conf : list (string * value)) : ST (bus * K) unit :=
  let! id := st_lift (client_id conf) in bus_ack id.

(** ** [MessageBus.init] *)

Section init.
Context {W : Type} (machine_id_file : W → option string) (urlparse : string → string * string * string).
Context (classes : list (string * (string → string → string → ST W (Store.backend W)))).

Definition conf_set (key : string) (val : value) : ST (Conf.singleton (W:=W)) unit :=
  Conf.conf_call (Conf.set "utils_ind" key val).

(** The parameter given, or the default of the class *)
Definition param (kwargs : list (string * value)) (key : string) (dflt : value) : value :=
  default dflt (dget key kwargs).

(** The configuration of the broker, kept under [message_broker]. *)
Definition store_broker_conf (endpoints : list server_info) (kwargs : list (string * value))
    : ST (Conf.singleton (W:=W)) value :=
  conf_set "message_broker>type" (param kwargs "broker_type" (VStr "kafka")) ;;;
  conf_set "message_broker>cluster" (VList (map VDict endpoints)) ;;;
  conf_set "message_broker>message_bus>receive_timeout" (param kwargs "receive_timeout" (VInt 2)) ;;;
  conf_set "message_broker>message_bus>socket_timeout" (param kwargs "socket_timeout" (VInt 15000)) ;;;
  conf_set "message_broker>message_bus>send_timeout" (param kwargs "send_timeout" (VInt 5000)) ;;;
  conf_set "message_broker>message_bus>admin_api_timeout" (param kwargs "admin_api_timeout" (VInt 60)) ;;;
  Conf.conf_call (Conf.save "utils_ind") ;;;
  Conf.conf_call (Conf.get "utils_ind" "message_broker").

Definition init (message_server_endpoints : list string) (kwargs : list (string * value))
    : ST (Conf.singleton (W:=W) * bus) unit := λ '(g, m),
  match (Conf.conf_class_load machine_id_file urlparse classes "utils_ind" "dict:{}" (VBool true)
           [("skip_reload", VBool true)] ;;;
         let! endpoints := st_lift (get_server_list message_server_endpoints) in
         store_broker_conf endpoints kwargs) g with
  | (Err e, g') => (Err e, (g', m))
  | (Ok broker_conf, g') =>
      if is_null broker_conf then (Err (BusError EINVAL), (g', m))
      else match (broker_type ← Ha.as_str (param kwargs "broker_type" (VStr "kafka"));
                  Ok (get_instance broker_type broker_conf m)) with
           | Err e => (Err e, (g', m))
           | Ok (Err e, m') => (Err e, (g', m'))
           | Ok (Ok t, m') => (Ok tt, (g', BusState (mb_brokers m') (Some t)))
           end
  end.

End init.

End kafka.
Arguments broker : clear implicits.
Arguments bus : clear implicits.

End Bus.
