(* ===== verification/MessageBusSpec.v ===== *)
(** What the message bus promises, given what it relies on of Kafka: sent
    messages are in the log in order, [receive] returns as soon as there is a
    message, a client is created once, and what [delete] purges. *)
From Stdlib Require Import Ascii.
From S2P Require Import Prelude PyStr PyVal KvPayload KvStore KvFiles ConfStore HaDecision Release MessageBus.
Import PyStr Bus.

Module BusSpec.

(** What the bus relies on of Kafka: the log of a topic, the messages a client
    has produced and not flushed, the configuration of a topic. *)
Class KafkaLaws {K C : Type} (api : KafkaApi K C) := {
  k_log : K → string → list string;
  k_pending : K → C → list (string * string);
  k_config : K → string → string → option value;
  produce_pending : ∀ c t m k k', k_produce c t m k = (Ok tt, k') →
    k_pending k' c = k_pending k c ++ [(t, m)] ∧ ∀ u, k_log k' u = k_log k u;
  flush_delivers : ∀ c k k', k_flush c k = (Ok tt, k') →
    k_pending k' c = [] ∧
    ∀ u, k_log k' u = k_log k u ++ (filter (λ p, p.1 = u) (k_pending k c)).*2;
  alter_other : ∀ c t cfg k r k', k_alter_configs c t cfg k = (r, k') →
    ∀ u p, u ≠ t → k_config k' u p = k_config k u p;
  alter_accepted : ∀ c t cfg k k', k_alter_configs c t cfg k = (Ok VNull, k') →
    ∀ p v, dget p cfg = Some v → k_config k' t p = Some v;
  sleep_config : ∀ dt k u p, k_config (k_sleep dt k) u p = k_config k u p
}.

Section theory.
Context {K C : Type} {api : KafkaApi K C} {laws : KafkaLaws api}.
Notation broker := (Bus.broker C).

Lemma client_found client_type id (b : broker) (k : K) l c :
  clients client_type b = Some l → l !! id = Some c → client client_type id (b, k) = (Ok c, (b, k)).
Proof. intros Hl Hc. unfold client. rewrite Hl. cbn [mbind option_bind]. by rewrite Hc. Qed.

(** ** Sending *)

Lemma send_log id t ms b k b' k' c :
  bk_producer b !! id = Some c → k_pending k c = [] →
  send id t (VStr "sync") ms (b, k) = (Ok tt, (b', k')) →
  b' = b ∧ k_pending k' c = [] ∧
  k_log k' t = k_log k t ++ ms ∧ ∀ u, u ≠ t → k_log k' u = k_log k u.
Proof.
  intros Hc. unfold send, st_bind at 1. rewrite (client_found "producer" id b k _ c eq_refl Hc). revert k.
  match goal with |- context [st_iter ?f ms] => set (body := f) end.
  induction ms as [|m ms IH]; intros k Hp; cbn [st_iter].
  { intros [= <- <-]. rewrite app_nil_r. done. }
  unfold st_bind at 1. destruct (body m (b, k)) as [[[]|e] [b1 k2]] eqn:Hb; [|done]. intros Hrest.
  unfold body, st_bind, on_service in Hb. destruct (k_produce c t m k) as [[[]|e] k1] eqn:Hprod; [|done].
  apply produce_pending in Hprod as [Hp1 Hl1].
  change (py_eq (VStr "sync") (VStr "sync")) with true in Hb. cbn iota in Hb.
  cbn beta iota in Hb. destruct (k_flush c k1) as [[[]|e] k3] eqn:Hfl; [|done]. injection Hb as <- <-.
  apply flush_delivers in Hfl as [Hp2 Hl2].
  apply (IH k3 Hp2) in Hrest as (-> & Hp' & Ht & Hu). rewrite Hp1, Hp in Hl2. split_and!; [done..| |].
  - rewrite Ht, Hl2, Hl1. cbn [app]. rewrite filter_cons_True by done. cbn. by rewrite <- app_assoc.
  - intros u Hne. rewrite Hu, Hl2, Hl1 by done. cbn [app]. rewrite filter_cons_False by (by intros ?).
    cbn. by rewrite app_nil_r.
Qed.

(** A synchronous [send] that returns has appended its messages, in
    order, to the log of the topic and to no other. *)
Theorem send_appends id t ms b k b' k' c :
  bk_producer b !! id = Some c → k_pending k c = [] →
  send id t (VStr "sync") ms (b, k) = (Ok tt, (b', k')) →
  b' = b ∧ k_pending k' c = [] ∧
  k_log k' t = k_log k t ++ ms ∧ ∀ u, u ≠ t → k_log k' u = k_log k u.
Proof. apply send_log. Qed.

(** ** Receiving *)

(** The first [n] polls return no message and leave the service in [k']. *)
Inductive idle (c : C) (timeout : value) : nat → K → K → Prop :=
| idle_O k : idle c timeout 0 k k
| idle_S n k k1 k' : k_poll c timeout k = (Ok NoMessage, k1) → idle c timeout n k1 k' → idle c timeout (S n) k k'.

Definition answer (r : res polled) : option (res (option string)) :=
  match r with
  | Ok NoMessage => None
  | Ok Failed => Some (Err (BusError ERR_OP_FAILED))
  | Ok (Message v) => Some (Ok (Some v))
  | Err e => Some (Err (interrupted e))
  end.

Lemma receive_idle c timeout n k k1 r k2 :
  idle c timeout n k k1 → answer (k_poll c timeout k1).1 = Some r → (k_poll c timeout k1).2 = k2 →
  receive_loop (S n) c timeout true k = Some (r, k2).
Proof.
  induction 1 as [k|n k k1 k' Hp Hi IH]; intros Ha Hk.
  - cbn [receive_loop]. destruct (k_poll c timeout k) as [[[| |v]|e] k'']; cbn in *; by simplify_eq.
  - specialize (IH Ha Hk). cbn [receive_loop] in IH |- *. by rewrite Hp.
Qed.

Lemma receive_ends fuel c timeout : ∀ k r k2,
  receive_loop fuel c timeout true k = Some (r, k2) →
  ∃ n k1, idle c timeout n k k1 ∧ answer (k_poll c timeout k1).1 = Some r ∧ (k_poll c timeout k1).2 = k2.
Proof.
  induction fuel as [|fuel IH]; intros k r k2; cbn [receive_loop]; [done|].
  destruct (k_poll c timeout k) as [[[| |v]|e] k'] eqn:Hp.
  - intros (n & k1 & Hi & Ha & Hk)%IH. exists (S n), k1. split_and!; [by econstructor|done..].
  - intros [= <- <-]. exists 0, k. split; [constructor|]. by rewrite Hp.
  - intros [= <- <-]. exists 0, k. split; [constructor|]. by rewrite Hp.
  - intros [= <- <-]. exists 0, k. split; [constructor|]. by rewrite Hp.
Qed.

(** C27.  [receive] with a timeout polls once: the message, [None], or an error.
    With a timeout of 0 it waits: it returns exactly when, after some polls
    without a message, one answers, and with that answer. *)
Theorem receive_exact id timeout b k c :
  bk_consumer b !! id = Some c →
  let timeout1 := if is_null timeout then bk_recv_timeout b else timeout in
  if py_eq timeout1 (VInt 0) then
    ∀ r b' k', (∃ fuel, receive fuel id timeout (b, k) = Some (r, (b', k'))) ↔
      b' = b ∧ ∃ n k1, idle c (bk_recv_timeout b) n k k1 ∧
        answer (k_poll c (bk_recv_timeout b) k1).1 = Some r ∧ (k_poll c (bk_recv_timeout b) k1).2 = k'
  else
    receive 1 id timeout (b, k) =
      Some (default (Ok None) (answer (k_poll c timeout1 k).1), (b, (k_poll c timeout1 k).2)).
Proof.
  intros Hc. cbv zeta. set (timeout1 := if is_null timeout then _ else _).
  assert (Hr : ∀ fuel, receive fuel id timeout (b, k) =
    match receive_loop fuel c (if py_eq timeout1 (VInt 0) then bk_recv_timeout b else timeout1)
            (py_eq timeout1 (VInt 0)) k with
    | None => None | Some (r, k') => Some (r, (b, k')) end).
  { intros fuel. unfold receive. by rewrite (client_found "consumer" id b k _ c eq_refl Hc). }
  destruct (py_eq timeout1 (VInt 0)) eqn:Ht.
  - intros r b' k'. split.
    + intros [fuel H]. rewrite Hr in H. destruct (receive_loop fuel c _ true k) as [[r' k2]|] eqn:Hl; [|done].
      injection H as <- <- <-. split; [done|]. by apply receive_ends in Hl.
    + intros (-> & n & k1 & Hi & Ha & Hk). exists (S n). rewrite Hr.
      by rewrite (receive_idle _ _ _ _ _ _ _ Hi Ha Hk).
  - rewrite Hr. cbn [receive_loop]. by destruct (k_poll c timeout1 k) as [[[| |v]|e] k'].
Qed.

(** ** Clients *)

(** Asking again for a client creates nothing and changes nothing in the
    broker, whatever the answer. *)
Lemma init_client_once client_type conf id b k c :
  (l ← clients client_type b; l !! id) = Some c → dget "client_id" conf = Some (VStr id) →
  (init_client client_type conf (b, k)).2.1 = b.
Proof.
  intros Hc Hid. unfold init_client. destruct (clients client_type b) as [l|]; [|done]. cbn in Hc.
  unfold conf_item, st_bind, st_lift. rewrite Hid. cbn [mbind res_bind Ha.as_str]. rewrite Hc.
  unfold check_topics, st_bind, on_service, st_lift.
  destruct (k_list_topics c k) as [[ts|e] k']; [|done]. repeat case_match; done.
Qed.

(** ** Deleting the messages *)

Lemma alter_loop_config admin t cfg e rs : ∀ k r k',
  alter_loop admin t cfg e rs k = (r, k') →
  (∀ u p, u ≠ t → k_config k' u p = k_config k u p) ∧
  (r = Ok tt → last rs = Some 2 → ∀ p v, dget p cfg = Some v → k_config k' t p = Some v).
Proof.
  induction rs as [|n rs IH]; intros k r k'; cbn [alter_loop].
  { intros [= <- <-]. split; [done|]. intros _ H. done. }
  unfold st_bind. destruct (k_alter_configs admin t cfg k) as [[v|e'] k1] eqn:Ha.
  2: { intros [= <- <-]. split; [|done]. by eapply alter_other. }
  pose proof (alter_other _ _ _ _ _ _ Ha) as Ho.
  destruct (is_null v) eqn:Hv.
  - intros [= <- <-]. split; [done|]. intros _ _. destruct v; try done. by eapply alter_accepted.
  - case_decide as Hn.
    + intros [= <- <-]. split; [done|]. intros [=].
    + intros (Hu & Hok)%IH. split; [intros u p Hne; by rewrite Hu, Ho by done|].
      intros Hr Hl. apply Hok; [done|]. destruct rs; [|done]. cbn in Hl. injection Hl as ->. lia.
Qed.

(** The retention of the topic is set and whatever else the resource holds. *)
Lemma alter_retention_config admin v e b k r b' k' t cfg :
  bk_resource b = Some (t, cfg) → alter_retention admin v e (b, k) = (r, (b', k')) →
  (∀ u p, u ≠ t → k_config k' u p = k_config k u p) ∧
  (r = Ok tt → k_config k' t "retention.ms" = Some v) ∧
  bk_resource b' = Some (t, dset "retention.ms" v cfg) ∧ bk_saved_retention b' = bk_saved_retention b.
Proof.
  intros Hr. unfold alter_retention. rewrite Hr. unfold on_service.
  destruct (alter_loop admin t _ e config_retries k) as [r1 k1] eqn:Ha. intros [= <- <- <-].
  apply alter_loop_config in Ha as [Hu Hok]. split_and!; [done| |done..].
  intros ->. apply Hok; [done..|]. apply dget_dset_eq.
Qed.

(** [delete] purges the topic of the producer initialised last, whatever
    topic it is asked for: no configuration of another topic is touched, and
    when it returns the saved retention is back. *)
Theorem delete_last_topic id message_type b k r b' k' t cfg saved :
  bk_resource b = Some (t, cfg) → bk_saved_retention b = Some saved →
  delete id message_type (b, k) = (r, (b', k')) →
  (∀ u p, u ≠ t → k_config k' u p = k_config k u p) ∧
  (is_ok r = true → k_config k' t "retention.ms" = Some saved).
Proof.
  intros Hres Hsaved. unfold delete, st_bind at 1.
  destruct (client "admin" id (b, k)) as [[admin|e] [b0 k0]] eqn:Hcl.
  2: { intros [= <- <- <-]. unfold client in Hcl. destruct (mbind _ _); [done|].
       injection Hcl as _ _ <-. done. }
  assert (b0 = b ∧ k0 = k) as [-> ->]
    by (unfold client in Hcl; destruct (mbind _ _); [by injection Hcl as _ <- <-|done]). clear Hcl.
  unfold st_bind at 1.
  destruct (alter_retention admin _ (BusError ERR_OP_FAILED) (b, k)) as [[[]|e] [b1 k1]] eqn:H1.
  2: { intros [= <- <- <-]. split; [by eapply alter_retention_config|done]. }
  destruct (alter_retention_config _ _ _ _ _ _ _ _ _ _ Hres H1) as (Hu1 & _ & Hres1 & Hs1).
  unfold st_bind at 1, sleep. unfold st_bind. rewrite Hs1, Hsaved.
  destruct (alter_retention admin saved _ (b1, k_sleep 1 k1)) as [[[]|e] [b2 k2]] eqn:H2;
    intros [= <- <- <-];
    destruct (alter_retention_config _ _ _ _ _ _ _ _ _ _ Hres1 H2) as (Hu2 & Hok & _).
  - split; [|intros _; by apply Hok]. intros u p Hne. by rewrite Hu2, sleep_config, Hu1.
  - split; [|done]. intros u p Hne. by rewrite Hu2, sleep_config, Hu1.
Qed.

(** ** Message types *)

(** [register_message_type] that returns has seen every type listed. *)
Lemma wait_until_done done e admin rs : ∀ b k b' k',
  last rs = Some (S _max_list_message_type_count) →
  wait_until done e admin rs (b, k) = (Ok tt, (b', k')) →
  ∃ k1 topics, k_list_topics admin k1 = (Ok topics, k') ∧ done topics = Ok true.
Proof.
  induction rs as [|n rs IH]; intros b k b' k' Hl; [discriminate|]. cbn [wait_until].
  unfold st_bind, _get_metadata, st_lift. destruct (k_list_topics admin k) as [[topics|e'] k1] eqn:Ht; [|discriminate].
  destruct (done topics) as [[]|e'] eqn:Hd; [|..|discriminate].
  - intros [= <- <-]. eauto.
  - case_decide as Hn; [discriminate|]. unfold sleep. apply IH. destruct rs; [|by rewrite <- Hl].
    cbn in Hl. injection Hl as ->. unfold _max_list_message_type_count in Hn. lia.
Qed.

End theory.

(** ** The list of servers *)

(** Every entry is the dictionary of the last endpoint. *)
Lemma server_list_last servers last_server :
  Forall (λ s, contains s ":" = false) servers → contains last_server ":" = false →
  get_server_list (servers ++ [last_server]) =
    Ok (replicate (S (length servers)) [("server", VStr last_server); ("port", VStr "9092")]).
Proof.
  intros Hs Hl. unfold get_server_list. rewrite st_iter_app. unfold st_bind.
  assert (H : ∀ l h, Forall (λ s, contains s ":" = false) l →
    sh_info h = [] ∨ (∃ x, sh_info h = [("server", VStr x); ("port", VStr "9092")]) →
    ∃ h', st_iter add_server l h = (Ok tt, h') ∧ sh_list h' = sh_list h + length l ∧
      (sh_info h' = [] ∨ ∃ x, sh_info h' = [("server", VStr x); ("port", VStr "9092")])).
  { induction l as [|s l IH]; intros h Hall Hh; cbn [st_iter length].
    { exists h. split_and!; [done|lia|done]. }
    apply Forall_cons in Hall as [Hs1 Hall]. unfold st_bind, add_server at 1. rewrite Hs1.
    destruct (IH (ServerHeap (dset "port" (VStr "9092") (dset "server" (VStr s) (sh_info h))) (S (sh_list h))) Hall)
      as (h' & -> & Hn & Hi).
    { right. exists s. destruct Hh as [->|[x ->]]; reflexivity. }
    exists h'. split_and!; [done|cbn in Hn; lia|done]. }
  destruct (H servers (ServerHeap [] 0) Hs) as (h' & -> & Hn & Hi); [by left|].
  cbn [st_iter]. unfold st_bind, add_server. rewrite Hl. cbn [st_ret sh_list sh_info]. rewrite Hn. cbn [sh_list].
  do 2 f_equal. destruct Hi as [->|[x ->]]; reflexivity.
Qed.

(** An endpoint with a port needs a scheme. *)
Lemma server_list_port :
  get_server_list ["host:9092"] = Err (BusError EINVAL) ∧
  get_server_list ["tcp://host:9092"] = Ok [[("server", VStr "host"); ("port", VStr "9092")]].
Proof. split; reflexivity. Qed.

(** ** A service in memory *)

Record service := Service {
  sv_log : gmap string (list string);
  sv_pending : gmap string (list (string * string));
  sv_config : gmap string (list (string * value));
  sv_queue : list polled
}.

Definition topic_log (k : service) (t : string) : list string := default [] (sv_log k !! t).
Definition topic_config (k : service) (t : string) : list (string * value) := default [] (sv_config k !! t).
Definition pending (k : service) (c : string) : list (string * string) := default [] (sv_pending k !! c).
Definition put_log (log : gmap string (list string)) (p : string * string) : gmap string (list string) :=
  <[p.1 := default [] (log !! p.1) ++ [p.2]]> log.

Definition new (conf : list (string * value)) : ST service string := λ k,
  (Ok match dget "client.id" conf with Some (VStr s) => s | _ => "" end, k).
Definition done_tasks {A} (l : list A) : ST service (list (res unit)) := st_ret (map (λ _, Ok tt) l).

#[global] Instance memory_kafka : KafkaApi service string := {|
  k_admin := new; k_producer := new; k_consumer := new;
  k_subscribe := λ _ _, st_ret tt;
  k_list_topics := λ _ k, (Ok (map (λ kv, (kv.1, 1%Z)) (map_to_list (sv_config k))), k);
  k_create_topics := λ _ l _, done_tasks l;
  k_delete_topics := λ _ l, done_tasks l;
  k_create_partitions := λ _ t _, done_tasks [t];
  k_describe_configs := λ _ t k, (Ok (topic_config k t), k);
  k_alter_configs := λ _ t cfg k,
    (Ok VNull, Service (sv_log k) (sv_pending k) (<[t := dupdate (topic_config k t) (rev cfg)]> (sv_config k)) (sv_queue k));
  k_produce := λ c t m k,
    (Ok tt, Service (sv_log k) (<[c := pending k c ++ [(t, m)]]> (sv_pending k)) (sv_config k) (sv_queue k));
  k_flush := λ c k,
    (Ok tt, Service (foldl put_log (sv_log k) (pending k c)) (<[c := []]> (sv_pending k)) (sv_config k) (sv_queue k));
  k_poll_producer := λ _, st_ret tt;
  k_poll := λ _ _ k,
    match sv_queue k with
    | [] => (Ok NoMessage, k)
    | m :: q => (Ok m, Service (sv_log k) (sv_pending k) (sv_config k) q)
    end;
  k_commit := λ _, st_ret tt;
  k_sleep := λ _ k, k
|}.

Lemma put_log_all ps u : ∀ log,
  default [] (foldl put_log log ps !! u) = default [] (log !! u) ++ (filter (λ p, p.1 = u) ps).*2.
Proof.
  induction ps as [|[t m] ps IH]; intros log; cbn [foldl]; [by rewrite app_nil_r|].
  rewrite IH. unfold put_log. cbn [fst snd]. destruct (decide (t = u)) as [->|Hne].
  - rewrite lookup_insert_eq, filter_cons_True by done. cbn. by rewrite <- app_assoc.
  - rewrite lookup_insert_ne, filter_cons_False by done. done.
Qed.

Lemma dget_dupdate_rev (d cfg : list (string * value)) p v :
  dget p cfg = Some v → dget p (dupdate d (rev cfg)) = Some v.
Proof.
  unfold dupdate. revert d. induction cfg as [|[q w] cfg IH]; intros d; [done|]. cbn [rev dget].
  rewrite foldl_app. cbn [foldl fst snd]. case_decide as Heq.
  - intros [= ->]. subst q. apply dget_dset_eq.
  - intros Hg. rewrite dget_dset_ne by done. by apply IH.
Qed.

#[global] Program Instance memory_laws : KafkaLaws memory_kafka := {|
  k_log := topic_log; k_pending := pending; k_config := λ k t p, dget p (topic_config k t)
|}.
Next Obligation. intros c t m k k' [= <-]. unfold pending, topic_log. cbn. by rewrite lookup_insert_eq. Qed.
Next Obligation.
  intros c k k' [= <-]. unfold pending, topic_log. cbn. rewrite lookup_insert_eq. split; [done|].
  intros u. apply put_log_all.
Qed.
Next Obligation.
  intros c t cfg k r k' [= <- <-] u p Hne. unfold topic_config at 1. cbn. by rewrite lookup_insert_ne by done.
Qed.
Next Obligation.
  intros c t cfg k k' [= <-] p v Hp. unfold topic_config at 1. cbn. rewrite lookup_insert_eq. by apply dget_dupdate_rev.
Qed.
Next Obligation. done. Qed.

Definition kafka0 : service :=
  Service ∅ ∅ {["alerts" := [("retention.ms", VStr "1000")]; "events" := [("retention.ms", VStr "2000")]]}
          [NoMessage; Message "hello"].
Definition broker0 : Bus.broker string :=
  KafkaMessageBroker "h:9092" ∅ ∅ ∅ (VInt 2) (VInt 15000) (VInt 5000) None None.

(** Producers for two topics, then a consumer. *)
Definition started : Bus.broker string * service :=
  ((init_client "producer" (producer_conf "p1" "alerts" (VStr "sync")) ;;;
    init_client "producer" (producer_conf "p2" "events" (VStr "sync")) ;;;
    init_client "consumer" (consumer_conf "c1" "g" (VStr "True") (VList [VStr "alerts"]) (VStr "earliest")))
     (broker0, kafka0)).2.

Lemma send_appends_witness :
  ∃ b' k', send "p1" "alerts" (VStr "sync") ["m1"; "m2"] started = (Ok tt, (b', k')) ∧
    k_log k' "alerts" = k_log started.2 "alerts" ++ ["m1"; "m2"].
Proof.
  eexists _, _. split; [vm_compute; reflexivity|].
  eapply (send_appends "p1" "alerts" ["m1"; "m2"] started.1 started.2 started.1 _ "p1");
    [vm_compute; reflexivity|vm_compute; reflexivity|vm_compute; reflexivity].
Defined.

Lemma receive_exact_witness :
  ∃ k', receive 2 "c1" (VInt 0) started = Some (Ok (Some "hello"), (started.1, k')) ∧
  ∃ n k1, idle (K:=service) "c1" (bk_recv_timeout started.1) n started.2 k1 ∧
    answer (k_poll "c1" (bk_recv_timeout started.1) k1).1 = Some (Ok (Some "hello")).
Proof.
  eexists. split; [vm_compute; reflexivity|].
  destruct (proj1 (receive_exact "c1" (VInt 0) started.1 started.2 "c1" eq_refl (Ok (Some "hello")) started.1
              (Service (sv_log started.2) (sv_pending started.2) (sv_config started.2) [])))
    as (_ & n & k1 & Hi & Ha & _); [exists 2; vm_compute; reflexivity|].
  by exists n, k1.
Defined.

Lemma delete_last_topic_witness :
  ∃ b' k', delete "p1" "alerts" started = (Ok 0%Z, (b', k')) ∧
    k_config k' "alerts" "retention.ms" = k_config started.2 "alerts" "retention.ms" ∧
    k_config k' "events" "retention.ms" = Some (VInt 2000).
Proof.
  eexists _, _. split; [vm_compute; reflexivity|].
  edestruct (delete_last_topic "p1" "alerts" started.1 started.2) as [Hu Hok];
    [vm_compute; reflexivity|vm_compute; reflexivity|vm_compute; reflexivity|].
  split; [by apply Hu|by apply Hok].
Defined.

End BusSpec.
