(* ===== verification/EventMessage.v ===== *)
(** [utils/iem_framework/event_message.py]: [EventMessage], alerts sent and
    received as JSON texts over the message bus. *)
From Stdlib Require Import Ascii.
From S2P Require Import Prelude PyStr PyVal KvStore KvFiles ConfStore HaDecision MessageBus.
Import PyStr.

Module Iem.

Definition EPERM : Z := 1.
Definition ERR_SERVICE_NOT_INITIALIZED : Z := 0x1504.

Definition _SEVERITY_LEVELS : list (string * string) :=
  [("A", "alert"); ("X", "critical"); ("E", "error"); ("W", "warning"); ("N", "notice");
   ("C", "configuration"); ("I", "informational"); ("D", "detail"); ("B", "debug")].
Definition _SOURCE : list (string * string) :=
  [("H", "Hardware"); ("S", "Software"); ("F", "Firmware"); ("O", "OS")].

(** The attributes of the class: [None] is [VNull], a client its configuration. *)
Record context := Context {
  _component : value;
  _source : value;
  _site_id : value;
  _rack_id : value;
  _node_id : value;
  _cluster_id : value;
  _producer : option (list (string * value));
  _consumer : option (list (string * value))
}.

Definition set_producer (p : option (list (string * value))) (c : context) : context :=
  Context (_component c) (_source c) (_site_id c) (_rack_id c) (_node_id c) (_cluster_id c) p (_consumer c).
Definition set_consumer (p : option (list (string * value))) (c : context) : context :=
  Context (_component c) (_source c) (_site_id c) (_rack_id c) (_node_id c) (_cluster_id c) (_producer c) p.

Section iem.
Context {K C : Type} `{Bus.KafkaApi K C} {F : Files.Format}.
Context {W : Type} (machine_id_file : W → option string) (urlparse : string → string * string * string).
Context (classes : list (string * (string → string → string → ST W (Store.backend W)))).

(** The process: the configuration store, the bus, the service and the class *)
Definition world : Type := Conf.singleton (W:=W) * Bus.bus C * K * context.

(** [MessageBus.init], then a client of the bus *)
Definition connect (endpoints : list string) (kwargs : list (string * value)) (client_type : string)
    (conf : list (string * value)) : ST (Conf.singleton (W:=W) * Bus.bus C * K) unit := λ '(g, m, k),
  match Bus.init machine_id_file urlparse classes endpoints kwargs (g, m) with
  | (Err e, (g', m')) => (Err e, (g', m', k))
  | (Ok _, (g', m')) =>
      match Bus.new_client client_type conf (m', k) with
      | (Err e, (m'', k')) => (Err e, (g', m'', k'))
      | (Ok _, (m'', k')) => (Ok tt, (g', m'', k'))
      end
  end.

Definition iem_producer : list (string * value) := Bus.producer_conf "event_producer" "IEM" (VStr "sync").
Definition iem_consumer (component : value) : list (string * value) :=
  [("client_id", VStr "event_consumer"); ("consumer_group", component); ("message_types", VList [VStr "IEM"]);
   ("auto_ack", VBool true); ("offset", VStr "earliest")].

(** [init]: the attributes are set before they are checked. *)
Definition init (component source cluster_id : value) (endpoints : list string) (kwargs : list (string * value))
    : ST world unit := λ '(g, m, k, c),
  match Conf.conf_class_machine_id machine_id_file g with
  | (Err e, g') => (Err e, (g', m, k, Context component source (VInt 1) (VInt 1) (_node_id c) (_cluster_id c)
                                        (_producer c) (_consumer c)))
  | (Ok node_id, g') =>
      let c' := Context component source (VInt 1) (VInt 1) node_id cluster_id (_producer c) (_consumer c) in
      if is_null component then (Err (EventError EINVAL), (g', m, k, c'))
      else if existsb (λ kv, py_eq source (VStr kv.1)) _SOURCE then
        match connect endpoints kwargs "producer" iem_producer (g', m, k) with
        | (Err e, st) => (Err e, (st, c'))
        | (Ok _, st) => (Ok tt, (st, set_producer (Some iem_producer) c'))
        end
      else (Err (EventError EINVAL), (g', m, k, c'))
  end.

(** [x if x is not None else y] *)
Definition or_else (x y : value) : value := if is_null x then y else x.

(** The document of an alert *)
Definition alert_doc (c : context) (severity type : string)
    (cluster_id site_id rack_id node_id host module event_id message event_time : value) : value :=
  VDict [("iem", VDict [
    ("version", VStr "1");
    ("info", VDict [("severity", VStr severity); ("type", VStr type); ("event_time", event_time)]);
    ("location", VDict [("cluster_id", cluster_id); ("site_id", site_id); ("rack_id", rack_id);
                        ("node_id", node_id); ("host", host)]);
    ("source", VDict [("site_id", _site_id c); ("rack_id", _rack_id c); ("node_id", _node_id c);
                      ("component", _component c); ("module", module)]);
    ("contents", VDict [("event", event_id); ("message", message)])])].

(** Where and when the problem is, as far as the caller says *)
Record problem := Problem {
  problem_cluster_id : value;
  problem_site_id : value;
  problem_rack_id : value;
  problem_node_id : value;
  problem_host : value;
  event_time : value
}.

(** [d[v]] in a table of names *)
Definition table (t : list (string * string)) (v : value) : res string :=
  match v with
  | VStr s => match dget s t with Some x => Ok x | None => Err KeyError end
  | VList _ | VDict _ => Err TypeError
  | _ => Err KeyError
  end.

(** The alert of a call; [sender_host] and [now] are the environment's. *)
Definition make_alert (c : context) (module event_id severity message_blob : value) (p : problem)
    (sender_host : string) (now : value) : res value :=
  let site_id := or_else (problem_site_id p) (_site_id c) in
  let rack_id := or_else (problem_rack_id p) (_rack_id c) in
  let node_id := or_else (problem_node_id p) (_node_id c) in
  let cluster_id := or_else (problem_cluster_id p) (_cluster_id c) in
  let host := or_else (problem_host p) (VStr sender_host) in
  let time := or_else (event_time p) now in
  if existsb is_null [module; event_id; message_blob; site_id; rack_id; node_id; cluster_id]
  then Err (EventError EINVAL)
  else match table _SEVERITY_LEVELS severity with
       | Err KeyError => Err (EventError EINVAL)
       | Err e => Err e
       | Ok level =>
           type ← table _SOURCE (_source c);
           Ok (alert_doc c level type cluster_id site_id rack_id node_id host module event_id message_blob time)
       end.

Definition send (module event_id severity message_blob : value) (p : problem) (sender_host : string) (now : value)
    : ST world unit := λ '(g, m, k, c),
  match _producer c with
  | None => (Err (EventError ERR_SERVICE_NOT_INITIALIZED), (g, m, k, c))
  | Some conf =>
      match make_alert c module event_id severity message_blob p sender_host now with
      | Err e => (Err e, (g, m, k, c))
      | Ok alert =>
          let '(r, (m', k')) := Bus.client_send conf [Bus.MStr (Files.dumps alert)] (m, k) in (r, (g, m', k', c))
      end
  end.

Definition subscribe (component : value) (endpoints : list string) (kwargs : list (string * value))
    : ST world unit := λ '(st, c),
  if is_null component then (Err (EventError EINVAL), (st, c))
  else match connect endpoints kwargs "consumer" (iem_consumer component) st with
       | (Err e, st') => (Err e, (st', c))
       | (Ok _, st') => (Ok tt, (st', set_consumer (Some (iem_consumer component)) c))
       end.

(** [receive]: [None] without an alert, or the document of its JSON text.  The
    fuel is that of the bus, which polls once unless its receive timeout is 0. *)
Definition receive (fuel : nat) (st : world) : option (res value * world) :=
  let '(g, m, k, c) := st in
  match _consumer c with
  | None => Some (Err (EventError ERR_SERVICE_NOT_INITIALIZED), st)
  | Some conf =>
      match Bus.client_receive fuel conf VNull (m, k) with
      | None => None
      | Some (r, (m', k')) =>
          let r' := alert ← r;
                    match alert with
                    | None => Ok VNull
                    | Some text => match Files.loads text with Some v => Ok v | None => Err (EventError EPERM) end
                    end in
          Some (r', (g, m', k', c))
      end
  end.

End iem.

End Iem.

(** * Theorems

    What [EventMessage] promises over the bus: an alert is sent whole or
    refused, and the consumer that polls it gets back its document. *)
From S2P Require Import Prelude PyStr PyVal KvPayload KvPayloadFacts KvPayloadKeys KvPayloadSpec KvStore KvFiles KvFilesFacts KvCodec ConfStore HaDecision MessageBus MessageBusSpec.
Import PyStr PayloadFacts Bus BusSpec Iem.

Module EventSpec.

Section theory.
Context {K C : Type} {api : KafkaApi K C} {laws : KafkaLaws api} {F : Files.Format} {FL : Files.FormatLaws F}.
Context {W : Type}.

(** The bus runs a broker whose producer of alerts has nothing pending. *)
Definition producing (m : Bus.bus C) (k : K) : Prop :=
  ∃ t b cl, mb_broker m = Some t ∧ mb_brokers m !! t = Some b ∧
    bk_producer b !! "event_producer" = Some cl ∧ k_pending k cl = [].

Lemma client_send_log text (m : Bus.bus C) (k : K) m' k' :
  producing m k → client_send iem_producer [MStr text] (m, k) = (Ok tt, (m', k')) →
  k_log k' "IEM" = k_log k "IEM" ++ [text] ∧ ∀ u, u ≠ "IEM" → k_log k' u = k_log k u.
Proof.
  intros (t & b & cl & Hm & Hb & Hcl & Hp). unfold client_send, st_bind, st_lift.
  change (v ← _get_conf iem_producer "message_type"; Ha.as_str v) with (Ok "IEM" : res string).
  change (_get_conf iem_producer "method") with (Ok (VStr "sync") : res value).
  change (client_id iem_producer) with (Ok "event_producer" : res string).
  change (_get_str_message_list [MStr text]) with (Ok [text] : res (list string)). cbn iota beta.
  unfold bus_send, with_broker. rewrite Hm. cbn [mbind option_bind]. rewrite Hb. cbn [mbind option_bind].
  destruct (Bus.send "event_producer" "IEM" (VStr "sync") [text] (b, k)) as [r [b' k1]] eqn:Hs.
  intros [= -> <- <-]. destruct (send_log _ _ _ _ _ _ _ _ Hcl Hp Hs) as (_ & _ & ? & ?). done.
Qed.

(** ** What is relied on of Kafka for a consumer

    The settings it was made with, the topics it listens to and the place in the
    log of a topic where it reads on; and where a group of consumers stopped.
    These are the laws of topics with one partition, read by the only consumer
    of its group. *)
Class KafkaDelivery := {
  k_settings : K → C → list (string * value);
  k_topics : K → C → list string;
  k_position : K → C → string → nat;
  k_committed : K → value → string → option nat;
  law_consumer : ∀ cfg k c k', k_consumer cfg k = (Ok c, k') →
    k_settings k' c = cfg ∧ (∀ u, k_log k' u = k_log k u) ∧ ∀ g u, k_committed k' g u = k_committed k g u;
  law_subscribe : ∀ c ts k k', k_subscribe c ts k = (Ok tt, k') →
    k_topics k' c = ts ∧ (∀ u, k_log k' u = k_log k u) ∧
    ∀ u, u ∈ ts → k_position k' c u =
      match k_committed k (default VNull (dget "group.id" (k_settings k c))) u with
      | Some n => n
      | None => if py_eq (default VNull (dget "auto.offset.reset" (k_settings k c))) (VStr "earliest") then 0
                else length (k_log k u)
      end;
  law_message : ∀ c timeout k v k', k_poll c timeout k = (Ok (Message v), k') →
    ∃ t, t ∈ k_topics k c ∧ k_log k t !! k_position k c t = Some v ∧
      ∀ u, k_position k' c u = if decide (u = t) then S (k_position k c u) else k_position k c u;
  law_no_message : ∀ c timeout k r k', k_poll c timeout k = (r, k') → (∀ v, r ≠ Ok (Message v)) →
    ∀ u, k_position k' c u = k_position k c u;
  law_poll : ∀ c timeout k, k_topics (k_poll c timeout k).2 c = k_topics k c ∧
    ∀ u, k_log (k_poll c timeout k).2 u = k_log k u;
  law_produce : ∀ p t m k c, k_topics (k_produce p t m k).2 c = k_topics k c ∧
    ∀ u, k_position (k_produce p t m k).2 c u = k_position k c u;
  law_flush : ∀ p k c, k_topics (k_flush p k).2 c = k_topics k c ∧
    ∀ u, k_position (k_flush p k).2 c u = k_position k c u
}.

Section delivery.
Context {KD : KafkaDelivery}.
Context (machine_id_file : W → option string) (urlparse : string → string * string * string).
Context (classes : list (string * (string → string → string → ST W (Store.backend W)))).

(** A consumer that listens to the alerts alone, and reads on at [n]. *)
Definition listens (n : nat) (log : list string) (cl : C) (k : K) : Prop :=
  k_topics k cl = ["IEM"] ∧ k_position k cl "IEM" = n ∧ k_log k "IEM" = log.

Lemma listens_poll n log cl timeout k r k' :
  listens n log cl k → k_poll cl timeout k = (r, k') →
  match r with
  | Ok (Message v) => log !! n = Some v ∧ listens (S n) log cl k'
  | _ => listens n log cl k'
  end.
Proof.
  intros (Ht & Hn & Hl) Hp. pose proof (law_poll cl timeout k) as [Ht' Hl']. rewrite Hp in Ht', Hl'. cbn in Ht', Hl'.
  assert (Hno : (∀ v, r ≠ Ok (Message v)) → listens n log cl k').
  { intros Hr. split_and!; [by rewrite Ht'| |by rewrite Hl']. by rewrite (law_no_message _ _ _ _ _ Hp Hr). }
  destruct r as [[| |v]|e]; try by apply Hno.
  destruct (law_message _ _ _ _ _ Hp) as (t & Hin & Hv & Hpos). rewrite Ht in Hin. apply list_elem_of_singleton in Hin as ->.
  rewrite Hl, Hn in Hv. split; [done|]. split_and!; [by rewrite Ht'| |by rewrite Hl']. by rewrite Hpos, decide_True, Hn.
Qed.

Lemma listens_loop fuel n log cl timeout blocking : ∀ k r k',
  listens n log cl k → receive_loop fuel cl timeout blocking k = Some (r, k') →
  match r with
  | Ok (Some v) => log !! n = Some v ∧ listens (S n) log cl k'
  | _ => listens n log cl k'
  end.
Proof.
  induction fuel as [|fuel IH]; intros k r k' Hk; cbn [receive_loop]; [done|].
  destruct (k_poll cl timeout k) as [pr k1] eqn:Hp. pose proof (listens_poll _ _ _ _ _ _ _ Hk Hp) as Hk1.
  destruct pr as [[| |v]|e]; [destruct blocking; [by apply IH|]|..]; by intros [= <- <-].
Qed.

(** The consumer of the alerts in the broker that the bus runs *)
Definition reading (n : nat) (log : list string) (m : Bus.bus C) (k : K) : Prop :=
  ∃ t b cl, mb_broker m = Some t ∧ mb_brokers m !! t = Some b ∧
    bk_consumer b !! "event_consumer" = Some cl ∧ listens n log cl k.

(** *** [subscribe] *)

Definition no_consumer (m : Bus.bus C) : Prop :=
  ∀ t b, mb_brokers m !! t = Some b → bk_consumer b !! "event_consumer" = None.

Lemma init_no_consumer endpoints kwargs (g : Conf.singleton (W:=W)) (m : Bus.bus C) r g' m' :
  no_consumer m → Bus.init machine_id_file urlparse classes endpoints kwargs (g, m) = (r, (g', m')) → no_consumer m'.
Proof.
  intros Hm. unfold Bus.init. match goal with |- context [?c g] => destruct (c g) as [[v|e] g1] end; [|by intros [= _ _ <-]].
  destruct (is_null v); [by intros [= _ _ <-]|].
  destruct (Ha.as_str _) as [t|e]; cbn [mbind res_bind]; [|by intros [= _ _ <-]].
  assert (Hg : no_consumer (get_instance t v m).2).
  { unfold get_instance. destruct (mb_brokers m !! t); [done|]. case_decide; [|done].
    destruct (broker_init v) as [b|e] eqn:Hb; [|done]. intros t' b'. cbn.
    destruct (decide (t' = t)) as [->|Hne]; [|rewrite lookup_insert_ne by done; apply Hm].
    rewrite lookup_insert_eq. intros [= <-]. unfold broker_init in Hb.
    repeat (apply res_bind_ok in Hb as (? & _ & Hb)). by injection Hb as <-. }
  destruct (get_instance t v m) as [[t'|e] m1]; cbn in Hg; by intros [= _ _ <-].
Qed.

Lemma new_consumer_listens component (b : Bus.broker C) (k : K) b' k' :
  bk_consumer b !! "event_consumer" = None →
  init_client "consumer" (iem_consumer component) (b, k) = (Ok tt, (b', k')) →
  ∃ cl, bk_consumer b' !! "event_consumer" = Some cl ∧
    listens (default 0 (k_committed k component "IEM")) (k_log k "IEM") cl k'.
Proof.
  intros Hb. unfold init_client. cbn [clients]. change (clients "consumer" b) with (Some (bk_consumer b)). cbn iota.
  erewrite st_bind_run; [|reflexivity]. rewrite Hb. cbn iota. rewrite !decide_False by done.
  unfold new_consumer. change (existsb _ consumer_entries) with false. cbn iota zeta.
  intros (cl & [b1 k1] & H1 & H)%st_bind_ok. unfold on_service in H1.
  match goal with H1 : (let '(_, _) := k_consumer ?cfg k in _) = _ |- _ => set (conf := cfg) in * end.
  destruct (k_consumer conf k) as [[c|e] k2] eqn:Hc; [|done]. injection H1 as -> <- <-.
  apply st_bind_ok in H as (names & [b3 k3] & H3 & H). injection H3 as <- <- <-.
  apply st_bind_ok in H as ([] & [b4 k4] & H4 & H). unfold on_service in H4.
  destruct (k_subscribe cl _ _) as [[[]|e] k5] eqn:Hs; [|done]. injection H4 as <- <-.
  injection H as <- <-. exists cl. split; [apply lookup_insert_eq|].
  destruct (law_consumer _ _ _ _ Hc) as (Hset & Hlog & Hcom). destruct (law_subscribe _ _ _ _ Hs) as (Ht & Hl & Hp).
  split_and!; [done| |by rewrite Hl, Hlog].
  rewrite Hp by left. rewrite Hset, Hcom.
  change (default VNull (dget "group.id" conf)) with component. by destruct (k_committed k component "IEM").
Qed.

Lemma subscribe_reading component endpoints kwargs (g : Conf.singleton (W:=W)) m k c g1 m1 k1 c1 :
  no_consumer m →
  subscribe machine_id_file urlparse classes component endpoints kwargs (g, m, k, c) = (Ok tt, (g1, m1, k1, c1)) →
  _consumer c1 = Some (iem_consumer component) ∧
  reading (default 0 (k_committed k component "IEM")) (k_log k "IEM") m1 k1.
Proof.
  intros Hm. unfold subscribe. destruct (is_null component); [done|]. unfold connect.
  destruct (Bus.init machine_id_file urlparse classes endpoints kwargs (g, m)) as [[[]|e] [g' m']] eqn:Hi; [|done].
  apply (init_no_consumer _ _ _ _ _ _ _ Hm) in Hi as Hm'.
  unfold new_client, bus_init_client, with_broker, st_bind.
  destruct (mb_broker m') as [t|] eqn:Ht; cbn [mbind option_bind]; [|done].
  destruct (mb_brokers m' !! t) as [b|] eqn:Hb; cbn [mbind option_bind]; [|done].
  destruct (init_client "consumer" (iem_consumer component) (b, k)) as [[[]|e] [b' k']] eqn:Hc; [|done].
  intros [= _ <- <- <-]. split; [done|].
  destruct (new_consumer_listens _ _ _ _ _ (Hm' t b Hb) Hc) as (cl & Hcl & Hl).
  exists t, b', cl. split_and!; [done|apply lookup_insert_eq|done|done].
Qed.

(** *** [send] *)

Lemma send_keeps_consumer id t ms cl : ∀ (b : Bus.broker C) (k : K) b' k',
  Bus.send id t (VStr "sync") ms (b, k) = (Ok tt, (b', k')) →
  k_topics k' cl = k_topics k cl ∧ ∀ u, k_position k' cl u = k_position k cl u.
Proof.
  intros b k b' k' (p & [b0 k0] & Hp & H)%st_bind_ok.
  assert (k0 = k) as ->. { unfold client in Hp. destruct (mbind _ _); by simplify_eq. }
  clear Hp. revert b0 k b' k' H. induction ms as [|x ms IH]; intros b0 k b' k'; [by intros [= <- <-]|].
  cbn [st_iter]. intros ([] & [b1 k1] & Hb & (Ht & Hu)%IH)%st_bind_ok.
  apply st_bind_ok in Hb as ([] & [b2 k2] & H1 & H2). change (py_eq (VStr "sync") (VStr "sync")) with true in H2.
  unfold on_service in H1, H2. pose proof (law_produce p t x k cl) as [P1 P2]. pose proof (law_flush p k2 cl) as [F1 F2].
  destruct (k_produce p t x k) as [r3 k3]. cbn in P1, P2. injection H1 as -> <- <-.
  destruct (k_flush p k3) as [r4 k4]. cbn in F1, F2. injection H2 as -> <- <-.
  split; [by rewrite Ht, F1, P1|]. intros u. by rewrite Hu, F2, P2.
Qed.

Lemma send_reading n log text (m : Bus.bus C) (k : K) m' k' :
  producing m k → reading n log m k → client_send iem_producer [MStr text] (m, k) = (Ok tt, (m', k')) →
  reading n (log ++ [text]) m' k'.
Proof.
  intros Hpr (t & b & cl & Hm & Hb & Hcl & Ht & Hn & Hl) Hs.
  destruct (client_send_log _ _ _ _ _ Hpr Hs) as [Hlog _].
  destruct Hpr as (t' & b0 & p & Hm' & Hb' & Hp & Hpend). assert (t' = t) as -> by congruence. assert (b0 = b) as -> by congruence.
  revert Hs. unfold client_send, st_bind, st_lift.
  change (v ← _get_conf iem_producer "message_type"; Ha.as_str v) with (Ok "IEM" : res string).
  change (_get_conf iem_producer "method") with (Ok (VStr "sync") : res value).
  change (client_id iem_producer) with (Ok "event_producer" : res string).
  change (_get_str_message_list [MStr text]) with (Ok [text] : res (list string)). cbn iota beta.
  unfold bus_send, with_broker. rewrite Hm. cbn [mbind option_bind]. rewrite Hb. cbn [mbind option_bind].
  destruct (Bus.send "event_producer" "IEM" (VStr "sync") [text] (b, k)) as [r [b' k1]] eqn:Hs.
  intros [= -> <- <-]. destruct (send_log _ _ _ _ _ _ _ _ Hp Hpend Hs) as (-> & _).
  destruct (send_keeps_consumer _ _ _ cl _ _ _ _ Hs) as [Ht' Hp'].
  exists t, b, cl. split_and!; [done|apply lookup_insert_eq|done|]. split_and!; [by rewrite Ht'|by rewrite Hp'|by rewrite Hlog, Hl].
Qed.

(** *** [receive] *)

(** The documents that calls of [receive] in a row give, with calls in between
    that come back without a message *)
Inductive receives : list value → world (K:=K) (C:=C) (W:=W) → world (K:=K) (C:=C) (W:=W) → Prop :=
| receives_none st : receives [] st st
| receives_wait fuel st st1 st' vs :
    receive fuel st = Some (Ok VNull, st1) → receives vs st1 st' → receives vs st st'
| receives_one fuel v st st1 st' vs :
    receive fuel st = Some (Ok v, st1) → is_null v = false → receives vs st1 st' → receives (v :: vs) st st'.

(** The poll that the next call of [receive] makes comes back with a message. *)
Definition message_there (m : Bus.bus C) (k : K) : Prop :=
  ∃ t b cl v, mb_broker m = Some t ∧ mb_brokers m !! t = Some b ∧ bk_consumer b !! "event_consumer" = Some cl ∧
    (k_poll cl (bk_recv_timeout b) k).1 = Ok (Message v).

(** The text of a log that is an alert, and its document *)
Definition text_of_doc (t : string) (d : value) : Prop := Files.loads t = Some d ∧ is_null d = false.

Lemma receive_run component fuel n log (g : Conf.singleton (W:=W)) m k c r st' :
  _consumer c = Some (iem_consumer component) → reading n log m k →
  receive fuel (g, m, k, c) = Some (r, st') →
  ∃ m' k', st' = (g, m', k', c) ∧
    ((∃ t, log !! n = Some t ∧ r = match Files.loads t with Some v => Ok v | None => Err (EventError EPERM) end ∧
        reading (S n) log m' k') ∨
     ((r = Ok VNull ∨ ∃ e, r = Err e) ∧ reading n log m' k')).
Proof.
  intros Hc (t & b & cl & Hm & Hb & Hcl & Hl). unfold receive. rewrite Hc. unfold client_receive.
  change (client_id (iem_consumer component)) with (Ok "event_consumer" : res string). cbn iota.
  unfold bus_receive. rewrite Hm. cbn [mbind option_bind]. rewrite Hb. cbn [mbind option_bind]. unfold Bus.receive.
  rewrite (client_found "consumer" "event_consumer" b k _ cl eq_refl Hcl).
  destruct (receive_loop fuel cl _ _ k) as [[r1 k1]|] eqn:Hr; [|done]. intros [= <- <-].
  pose proof (listens_loop _ _ _ _ _ _ _ _ _ Hl Hr) as Hk.
  assert (Hre : ∀ n', listens n' log cl k1 → reading n' log (BusState (<[t:=b]> (mb_brokers m)) (mb_broker m)) k1).
  { intros n' Hk'. exists t, b, cl. split_and!; [done|apply lookup_insert_eq|done|done]. }
  eexists _, _. split; [by rewrite Hm in *|]. rewrite Hm in Hre.
  destruct r1 as [[text|]|e]; cbn [mbind res_bind]; [left|right; split; [by left|by apply Hre]|right; split; [by eauto|by apply Hre]].
  destruct Hk as [Ht Hk]. exists text. split_and!; [done|by destruct (Files.loads text)|by apply Hre].
Qed.

Lemma prefix_next {A} (vs l : list A) x : vs `prefix_of` l → l !! length vs = Some x → vs ++ [x] `prefix_of` l.
Proof.
  intros [w ->]. rewrite lookup_app_r, Nat.sub_diag by done. destruct w as [|y w]; [done|]. intros [= ->].
  exists w. by rewrite <- app_assoc.
Qed.

Section reader.
Context (component : value) (start : nat) (log : list string) (docs : list value).
Context (Hdocs : Forall2 text_of_doc log docs).

Lemma receive_next fuel vs (g : Conf.singleton (W:=W)) m k c r st' :
  _consumer c = Some (iem_consumer component) → vs `prefix_of` drop start docs → reading (start + length vs) log m k →
  receive fuel (g, m, k, c) = Some (r, st') →
  ∃ m' k', st' = (g, m', k', c) ∧
    match r with
    | Ok v => if is_null v then reading (start + length vs) log m' k'
              else vs ++ [v] `prefix_of` drop start docs ∧ reading (start + length (vs ++ [v])) log m' k'
    | Err _ => reading (start + length vs) log m' k'
    end.
Proof using Hdocs.
  intros Hc Hp Hr Hrun. destruct (receive_run _ _ _ _ _ _ _ _ _ _ Hc Hr Hrun) as (m' & k' & -> & H).
  exists m', k'. split; [done|]. destruct H as [(t & Ht & -> & Hr')|[[->|[e ->]] Hr']]; [|done..].
  destruct (Forall2_lookup_l _ _ _ _ _ Hdocs Ht) as (d & Hd & -> & Hnull). rewrite Hnull. split.
  - apply prefix_next; [done|]. by rewrite lookup_drop.
  - rewrite length_app. cbn. by rewrite Nat.add_1_r, Nat.add_succ_r.
Qed.

Lemma receives_prefix vs (st st' : world (K:=K) (C:=C) (W:=W)) : receives vs st st' → ∀ us g m k c,
  st = (g, m, k, c) → _consumer c = Some (iem_consumer component) →
  us `prefix_of` drop start docs → reading (start + length us) log m k →
  us ++ vs `prefix_of` drop start docs ∧
  ∃ m' k', st' = (g, m', k', c) ∧ reading (start + length (us ++ vs)) log m' k'.
Proof using Hdocs.
  induction 1 as [st|fuel st st1 st' vs Hrun _ IH|fuel v st st1 st' vs Hrun Hv _ IH];
    intros us g m k c -> Hc Hus Hr.
  - rewrite app_nil_r. eauto.
  - destruct (receive_next _ _ _ _ _ _ _ _ Hc Hus Hr Hrun) as (m' & k' & -> & Hr'). by eapply IH.
  - destruct (receive_next _ _ _ _ _ _ _ _ Hc Hus Hr Hrun) as (m' & k' & -> & Hr'). rewrite Hv in Hr'.
    destruct Hr' as [Hus' Hr']. destruct (IH (us ++ [v]) g m' k' c) as [H1 H2]; [done..|].
    by rewrite <- app_assoc in H1, H2.
Qed.

Lemma message_received vs (g : Conf.singleton (W:=W)) m k c :
  _consumer c = Some (iem_consumer component) → vs `prefix_of` drop start docs → reading (start + length vs) log m k →
  message_there m k →
  ∃ v st', receive 1 (g, m, k, c) = Some (Ok v, st') ∧ vs ++ [v] `prefix_of` drop start docs.
Proof using Hdocs.
  intros Hc Hvs Hr (t & b & cl & x & Hm & Hb & Hcl & Hx).
  assert (∃ r st', receive 1 (g, m, k, c) = Some (r, st') ∧
    r = match Files.loads x with Some v => Ok v | None => Err (EventError EPERM) end) as (r & st' & Hrun & Hrx).
  { unfold receive. rewrite Hc. unfold client_receive.
    change (client_id (iem_consumer component)) with (Ok "event_consumer" : res string). cbn iota.
    unfold bus_receive. rewrite Hm. cbn [mbind option_bind]. rewrite Hb. cbn [mbind option_bind]. unfold Bus.receive.
    rewrite (client_found "consumer" "event_consumer" b k _ cl eq_refl Hcl). cbn [is_null receive_loop].
    replace (if py_eq (bk_recv_timeout b) (VInt 0) then bk_recv_timeout b else bk_recv_timeout b) with (bk_recv_timeout b)
      by by destruct (py_eq _ _).
    destruct (k_poll cl (bk_recv_timeout b) k) as [r k1]. cbn in Hx. subst r. eexists _, _. split; [done|].
    cbn [mbind res_bind]. by destruct (Files.loads x). }
  destruct Hr as (t' & b' & cl' & Hm' & Hb' & Hcl' & Hl). assert (t' = t) as -> by congruence. assert (b' = b) as -> by congruence.
  assert (cl' = cl) as -> by congruence.
  destruct (k_poll cl (bk_recv_timeout b) k) as [pr k1] eqn:Hp. cbn in Hx. subst pr.
  destruct (listens_poll _ _ _ _ _ _ _ Hl Hp) as [Hlog _].
  destruct (Forall2_lookup_l _ _ _ _ _ Hdocs Hlog) as (d & Hd & Hld & _). rewrite Hld in Hrx. subst r.
  exists d, st'. split; [exact Hrun|]. apply prefix_next; [done|]. by rewrite lookup_drop.
Qed.

End reader.

(** C31.  An alert goes through.  For a component that subscribes, with no
    consumer of alerts in its process before, and an alert whose [send] then
    returns: the documents that the component receives are, in order and
    without a gap, those of the log from where its group stopped, or from the
    beginning for a new group, and after those that were there already comes
    the document of this alert; a message that a poll comes back with is never
    passed over. *)
Theorem iem_send_receive component endpoints kwargs module event_id severity blob p host now docs
    (g : Conf.singleton (W:=W)) m k c g1 m1 k1 c1 g2 m2 k2 c2 :
  no_consumer m →
  subscribe machine_id_file urlparse classes component endpoints kwargs (g, m, k, c) = (Ok tt, (g1, m1, k1, c1)) →
  _producer c1 = Some iem_producer → producing m1 k1 →
  (∀ a, make_alert c1 module event_id severity blob p host now = Ok a → wf a ∧ all_scalars Files.scal a = true) →
  send module event_id severity blob p host now (g1, m1, k1, c1) = (Ok tt, (g2, m2, k2, c2)) →
  Forall2 text_of_doc (k_log k "IEM") docs →
  ∃ alert, make_alert c1 module event_id severity blob p host now = Ok alert ∧
    let all := drop (default 0 (k_committed k component "IEM")) (docs ++ [alert]) in
    ∀ vs g3 m3 k3 c3, receives vs (g2, m2, k2, c2) (g3, m3, k3, c3) →
      vs `prefix_of` all ∧
      (message_there m3 k3 →
         ∃ v st, receive 1 (g3, m3, k3, c3) = Some (Ok v, st) ∧ vs ++ [v] `prefix_of` all).
Proof.
  intros Hno Hsub Hp Hpr Hgood. destruct (subscribe_reading _ _ _ _ _ _ _ _ _ _ _ Hno Hsub) as [Hc Hread].
  unfold send. rewrite Hp.
  destruct (make_alert c1 module event_id severity blob p host now) as [alert|e] eqn:Ha; [|done].
  destruct (client_send iem_producer [MStr (Files.dumps alert)] (m1, k1)) as [r [m1' k1']] eqn:Hs.
  intros [= -> <- <- <- <-] Hdocs. apply (send_reading _ _ _ _ _ _ _ Hpr Hread) in Hs as Hread2.
  destruct (Hgood alert eq_refl) as [Hwf Hsc].
  assert (Hdict : is_dict alert = true).
  { unfold make_alert in Ha. destruct (existsb _ _); [done|]. destruct (table _SEVERITY_LEVELS severity) as [l|[]]; try done.
    destruct (table _SOURCE (_source c1)); [|done]. cbn in Ha. by injection Ha as <-. }
  assert (Hall : Forall2 text_of_doc (k_log k "IEM" ++ [Files.dumps alert]) (docs ++ [alert])).
  { apply Forall2_app; [done|]. constructor; [|constructor]. split; [by apply Files.loads_dumps|by destruct alert]. }
  exists alert. split; [done|]. intros vs g3 m3 k3 c3 Hvs.
  destruct (receives_prefix component (default 0 (k_committed k component "IEM")) _ _ Hall vs _ _ Hvs [] g1 m1' k1' c1) as (Hpre & m' & k' & [= -> -> -> ->] & Hr);
    [done|done|apply prefix_nil|by rewrite Nat.add_0_r|].
  split; [done|]. intros Hmsg. by apply (message_received component (default 0 (k_committed k component "IEM")) _ _ Hall).
Qed.

End delivery.

(** A refused alert sends nothing. *)
Lemma iem_refused c module event_id severity blob p host now (g : Conf.singleton (W:=W)) m k e :
  make_alert c module event_id severity blob p host now = Err e →
  (send module event_id severity blob p host now (g, m, k, c)).2 = (g, m, k, c).
Proof. intros He. unfold send. destruct (_producer c); [|done]. by rewrite He. Qed.

End theory.

(** ** A service that delivers

    The service in memory, with the consumers' settings, subscriptions and
    places; its only group has not stopped anywhere. *)

Record stream := Stream {
  st_service : service;
  st_settings : gmap string (list (string * value));
  st_topics : gmap string (list string);
  st_places : gmap (string * string) nat
}.
Definition settings_of (k : stream) (c : string) : list (string * value) := default [] (st_settings k !! c).
Definition topics_of (k : stream) (c : string) : list string := default [] (st_topics k !! c).
Definition place (k : stream) (c t : string) : nat := default 0 (st_places k !! (c, t)).
Definition stream_log (k : stream) (t : string) : list string := topic_log (st_service k) t.

Definition served {A} (f : ST service A) : ST stream A := λ k,
  let '(r, sv) := f (st_service k) in (r, Stream sv (st_settings k) (st_topics k) (st_places k)).
Definition starts_at (k : stream) (c t : string) : nat :=
  if py_eq (default VNull (dget "auto.offset.reset" (settings_of k c))) (VStr "earliest") then 0
  else length (stream_log k t).
Fixpoint next_message (k : stream) (c : string) (ts : list string) : option (string * string) :=
  match ts with
  | [] => None
  | t :: ts' => match stream_log k t !! place k c t with Some v => Some (t, v) | None => next_message k c ts' end
  end.

#[local] Instance stream_kafka : KafkaApi stream string := {|
  k_admin conf := served (k_admin conf); k_producer conf := served (k_producer conf);
  k_consumer conf k :=
    let '(r, k') := served (k_consumer conf) k in
    (r, match r with
        | Ok c => Stream (st_service k') (<[c := conf]> (st_settings k')) (st_topics k') (st_places k')
        | Err _ => k'
        end);
  k_subscribe c ts k :=
    (Ok tt, Stream (st_service k) (st_settings k) (<[c := ts]> (st_topics k))
              (foldr (λ t places, <[(c, t) := starts_at k c t]> places) (st_places k) ts));
  k_list_topics c := served (k_list_topics c); k_create_topics c l n := served (k_create_topics c l n);
  k_delete_topics c l := served (k_delete_topics c l); k_create_partitions c t n := served (k_create_partitions c t n);
  k_describe_configs c t := served (k_describe_configs c t);
  k_alter_configs c t cfg := served (k_alter_configs c t cfg);
  k_produce c t m := served (k_produce c t m); k_flush c := served (k_flush c);
  k_poll_producer c := served (k_poll_producer c);
  k_poll c _ k :=
    match next_message k c (topics_of k c) with
    | Some (t, v) => (Ok (Message v), Stream (st_service k) (st_settings k) (st_topics k) (<[(c, t) := S (place k c t)]> (st_places k)))
    | None => (Ok NoMessage, k)
    end;
  k_commit c := served (k_commit c);
  k_sleep _ k := k
|}.

#[local] Program Instance stream_laws : KafkaLaws stream_kafka := {|
  k_log k := stream_log k; k_pending k := pending (st_service k); k_config k t p := dget p (topic_config (st_service k) t)
|}.
Next Obligation. intros c t m k k' [= <-]. exact (produce_pending (api:=memory_kafka) c t m (st_service k) _ eq_refl). Qed.
Next Obligation. intros c k k' [= <-]. exact (flush_delivers (api:=memory_kafka) c (st_service k) _ eq_refl). Qed.
Next Obligation. intros c t cfg k r k' [= <- <-]. exact (alter_other (api:=memory_kafka) c t cfg (st_service k) _ _ eq_refl). Qed.
Next Obligation. intros c t cfg k k' [= <-]. exact (alter_accepted (api:=memory_kafka) c t cfg (st_service k) _ eq_refl). Qed.
Next Obligation. done. Qed.

Lemma next_message_there k c ts t v : next_message k c ts = Some (t, v) → t ∈ ts ∧ stream_log k t !! place k c t = Some v.
Proof.
  induction ts as [|u ts IH]; cbn [next_message]; [done|].
  destruct (stream_log k u !! place k c u) eqn:Hu; [intros [= <- <-]; split; [left|done]|].
  intros [? ?]%IH. split; [by right|done].
Qed.
Lemma subscribed_place (k : stream) (c : string) (ts : list string) (u : string) (places : gmap (string * string) nat) :
  u ∈ ts → default 0 (foldr (λ t places, <[(c, t) := starts_at k c t]> places) places ts !! (c, u)) = starts_at k c u.
Proof.
  induction ts as [|t ts IH]; [by intros ?%not_elem_of_nil|]. cbn [foldr].
  destruct (decide (u = t)) as [->|Hne]; [by rewrite lookup_insert_eq|].
  intros [?|?]%elem_of_cons; [done|]. rewrite lookup_insert_ne by congruence. by apply IH.
Qed.

#[local] Program Instance stream_delivery : KafkaDelivery (api:=stream_kafka) := {|
  k_settings := settings_of; k_topics := topics_of; k_position := place; k_committed _ _ _ := None
|}.
Next Obligation. intros cfg k c k' [= <- <-]. unfold settings_of. cbn. by rewrite lookup_insert_eq. Qed.
Next Obligation.
  intros c ts k k' [= <-]. unfold topics_of, place. cbn. rewrite lookup_insert_eq. split_and!; [done..|].
  intros u Hu. rewrite subscribed_place by done. done.
Qed.
Next Obligation.
  intros c timeout k v k'. cbn. destruct (next_message k c (topics_of k c)) as [[t x]|] eqn:Hn; [|done].
  intros [= -> <-]. destruct (next_message_there _ _ _ _ _ Hn). exists t. split_and!; [done..|].
  intros u. unfold place at 1. cbn. case_decide as Hu; [subst; by rewrite lookup_insert_eq|].
  by rewrite lookup_insert_ne by congruence.
Qed.
Next Obligation.
  intros c timeout k r k'. cbn. destruct (next_message k c (topics_of k c)) as [[t x]|]; intros [= <- <-] Hr; [|done].
  by destruct (Hr x).
Qed.
Next Obligation. intros c timeout k. cbn. by destruct (next_message k c (topics_of k c)) as [[t x]|]. Qed.
Next Obligation. done. Qed.
Next Obligation. done. Qed.

(** A process that sends alerts and subscribes to them, on a topic that has an
    alert already *)
Definition kafka1 : stream :=
  Stream (Service {["IEM" := [Files.dumps (Format:=Codec.binary) (VDict [("iem", VStr "old")])]]} ∅
            {["IEM" := [("retention.ms", VStr "1000")]]} []) ∅ ∅ ∅.
Definition dict_class : list (string * (string → string → string → ST unit (Store.backend unit))) :=
  [("dict", λ _ _ _, st_ret (Store.Backend (λ _, st_ret (KvPayload.Payload.Payload (VDict []) ">" [])) (λ _, st_ret tt)))].
Definition dict_url (url : string) : string * string * string := ("dict", "", "{}").
Definition conf0 : Conf.singleton (W:=unit) := Conf.Singleton None (VStr ">") VNull (∅, tt, 0%Z).
Definition here : Iem.context := Context VNull VNull VNull VNull VNull VNull None None.
Definition nowhere : problem := Problem VNull VNull VNull VNull VNull VNull.

Definition begun : res unit * world (K:=stream) (C:=string) (W:=unit) :=
  init (λ _, Some "m1") dict_url dict_class (VStr "S3") (VStr "S") (VStr "c1") ["h"] [] (conf0, BusState ∅ None, kafka1, here).
Definition listening : res unit * world (K:=stream) (C:=string) (W:=unit) :=
  subscribe (λ _, Some "m1") dict_url dict_class (VStr "csm") ["h"] [] begun.2.
Definition sent : res unit * world (K:=stream) (C:=string) (W:=unit) :=
  send (F:=Codec.binary) (VStr "mod") (VStr "12") (VStr "E") (VStr "text") nowhere "h" (VInt 5) listening.2.
Definition first_received := receive (F:=Codec.binary) 1 sent.2.
Definition second_received := match first_received with Some (_, st) => receive (F:=Codec.binary) 1 st | None => None end.

Definition old : value := VDict [("iem", VStr "old")].

(** The second document the component gets is the alert. *)
Lemma iem_send_receive_witness :
  sent.1 = Ok tt ∧ ∃ alert,
    make_alert listening.2.2 (VStr "mod") (VStr "12") (VStr "E") (VStr "text") nowhere "h" (VInt 5) = Ok alert ∧
    (fst <$> first_received) = Some (Ok old) ∧ (fst <$> second_received) = Some (Ok alert) ∧
    ∀ vs g3 m3 k3 c3, receives (F:=Codec.binary) vs sent.2 (g3, m3, k3, c3) →
      vs `prefix_of` [old; alert] ∧
      (message_there m3 k3 →
         ∃ v st, receive (F:=Codec.binary) 1 (g3, m3, k3, c3) = Some (Ok v, st) ∧ vs ++ [v] `prefix_of` [old; alert]).
Proof.
  split; [vm_compute; reflexivity|].
  assert (Hwf : ∀ a, make_alert listening.2.2 (VStr "mod") (VStr "12") (VStr "E") (VStr "text") nowhere "h" (VInt 5) = Ok a →
     wf a ∧ all_scalars (Files.scal (Format:=Codec.binary)) a = true).
  { intros a Ha. vm_compute in Ha. injection Ha as <-. split; [|apply Codec.all_scalars_true].
    apply Codec.wfb_wf. vm_compute. reflexivity. }
  destruct (iem_send_receive (F:=Codec.binary) (W:=unit) (λ _, Some "m1") dict_url dict_class (VStr "csm") ["h"] []
    (VStr "mod") (VStr "12") (VStr "E") (VStr "text") nowhere "h" (VInt 5) [old]
    begun.2.1.1.1 begun.2.1.1.2 begun.2.1.2 begun.2.2
    listening.2.1.1.1 listening.2.1.1.2 listening.2.1.2 listening.2.2 sent.2.1.1.1 sent.2.1.1.2 sent.2.1.2 sent.2.2)
    as (alert & Ha & Hr).
  - assert (mb_brokers begun.2.1.1.2 = {["kafka" := default broker0 (mb_brokers begun.2.1.1.2 !! "kafka")]}) as Hm by (vm_compute; reflexivity).
    intros t b. rewrite Hm, lookup_singleton_Some. intros [<- <-]. vm_compute. reflexivity.
  - vm_compute. reflexivity.
  - vm_compute. reflexivity.
  - eexists "kafka", _, "event_producer". vm_compute. repeat split.
  - exact Hwf.
  - vm_compute. reflexivity.
  - vm_compute. repeat constructor.
  - exists alert. split; [exact Ha|]. rewrite <- Ha. split; [vm_compute; reflexivity|]. split; [vm_compute; reflexivity|].
    assert (Hs : sent.2 = (sent.2.1.1.1, sent.2.1.1.2, sent.2.1.2, sent.2.2)) by (by destruct sent.2 as [[[]]]).
    rewrite Hs. exact Hr.
Defined.

End EventSpec.
