(* ===== verification/Discovery.v ===== *)
(** [utils/discovery]: requests for the map of a node's resources
    ([request_handler.py], [discovery.py]), and the resources
    ([resource.py], [resource_collection.py]).

    The request register, the common configuration and the maps are stores of
    [KvStore] over one world.  Times are seconds; the text of an exception, the
    providers of the data and the format of a time are parameters. *)
From Stdlib Require Import Ascii.
From S2P Require Import Prelude PyStr PyVal KvPayload KvPayloadFacts KvPayloadKeys KvPayloadSpec KvStore.
From S2P Require Import KvStoreFacts KvFiles KvDir HaDecision Release LogFilter.
Import PyStr.

Module Discovery.

Definition ROOT_NODE : string := "node".
Definition INPROGRESS : value := VStr "In-progress".
Definition SUCCESS : value := VStr "Success".
Definition FAILED : string := "Failed".

(** ** Resources *)

Record resource := Resource { r_name : string; r_childs : list string }.

Definition resource_collection : list resource :=
  [Resource "node" ["server"; "storage"]; Resource "server" []; Resource "storage" []].

Fixpoint find_resource (node : string) (l : list resource) : res resource :=
  match l with
  | [] => Err (DiscoveryError EINVAL)
  | r :: l' => if decide (node = r_name r) then Ok r else find_resource node l'
  end.
(** [ResourceFactory.get_instance] *)
Definition resource_class (node : string) : res resource := find_resource node resource_collection.

Definition has_child (r : resource) (child : string) : bool := bool_decide (child ∈ r_childs r).

(** [\w] on ASCII *)
Definition is_word (c : ascii) : bool :=
  let n := code c in
  is_digit c || ((65 <=? n) && (n <=? 90))%N || ((97 <=? n) && (n <=? 122))%N || (n =? 95)%N.

(** The first run of word characters, and what follows it *)
Fixpoint word_run (s : string) : string * string :=
  match s with
  | String c s' => if is_word c then let '(w, r) := word_run s' in (String c w, r) else (EmptyString, s)
  | EmptyString => (EmptyString, EmptyString)
  end.
Fixpoint skip_to_word (s : string) : string :=
  match s with
  | String c s' => if is_word c then s else skip_to_word s'
  | EmptyString => EmptyString
  end.

(** [([\d]+)\]] after an opening bracket *)
Fixpoint instance_digits (run s : string) : option string :=
  match s with
  | String c s' =>
      if is_digit c then instance_digits (run +:+ sep c) s'
      else if Ascii.eqb c "]" && negb (bool_decide (run = "")) then Some run else None
  | EmptyString => None
  end.

Definition _get_node_details (node : string) : res (string * string) :=
  match word_run (skip_to_word node) with
  | (EmptyString, _) => Err AttributeError
  | (w, String c rest) =>
      if Ascii.eqb c "[" then
        match instance_digits "" rest with Some inst => Ok (w, inst) | None => Ok (w, "*") end
      else Ok (w, "*")
  | (w, EmptyString) => Ok (w, "*")
  end.

Example node_details1 : _get_node_details "storage" = Ok ("storage", "*").
Proof. reflexivity. Qed.
Example node_details2 : _get_node_details "storage[0]" = Ok ("storage", "0").
Proof. reflexivity. Qed.

Section discovery.
Context {W : Type}.
(** [requests.json], the common configuration, and [KvStoreFactory.get_instance] *)
Context (req_register common_config : Store.backend W) (open_store : string → ST W (Store.backend W)).
(** The classes of the solution's module by name, each with what it answers to
    a request type and a path *)
Context (providers : list (string * (string → string → res value))).
Context (err_text : exn → string) (strftime : Z → string).

(** The world and [Resource._kv] *)
Definition world : Type := W * option (Store.backend W).

Definition on_store {A} (m : ST W A) : ST world A := λ '(w, kv), let '(r, w') := m w in (r, (w', kv)).

(** [store.get([key])[0]] *)
Definition get_one (b : Store.backend W) (key : string) : ST world value :=
  let! l := on_store (Store.get b [key]) in
  match l with v :: _ => st_ret v | [] => st_raise IndexError end.

(** *** [Resource] *)

Definition resource_init (url : string) : ST world unit := λ '(w, kv),
  match open_store url w with
  | (Err e, w') => (Err e, (w', kv))
  | (Ok b, w') => let '(r, w'') := Store.b_load b true w' in
                  (match r with Ok _ => Ok tt | Err e => Err e end, (w'', Some b))
  end.

Definition resource_set (key : string) (value : value) : ST world unit := λ '(w, kv),
  match kv with
  | None => (Err AttributeError, (w, kv))
  | Some b => on_store (Store.set b [key] [value]) (w, kv)
  end.

(** [get_data] of the class [name]: the first provider of the name that
    answers; its exceptions are raised again. *)
Fixpoint ask (members : list (string * (string → string → res value))) (name rpath request_type : string)
    : res value :=
  match members with
  | [] => Err (DiscoveryError EINVAL)
  | (cls, f) :: members' =>
      if decide (cls = name ∧ request_type ∈ ["health"; "manifest"]) then
        match f request_type rpath with Ok v => Ok v | Err _ => Err (DiscoveryError EINVAL) end
      else ask members' name rpath request_type
  end.

Definition get_data (name rpath request_type : string) : ST world value :=
  get_one common_config "discovery>solution_platform_monitor" ;;;
  let! product_id := get_one common_config "product_id" in
  match product_id with
  | VStr _ => st_lift (ask providers name rpath request_type)
  | _ => st_raise AttributeError
  end.

(** *** [RequestHandler] *)

Definition _add_discovery_request (now : Z) (rpath req_id url : string) : ST world unit :=
  on_store (Store.set req_register [req_id]
    [VDict [("rpath", VStr rpath); ("status", INPROGRESS); ("url", VStr url); ("time", VStr (strftime now))]]).

Definition _set_discovery_request_processed (now : Z) (req_id : string) (status : value) : ST world unit :=
  let! req_info := get_one req_register req_id in
  match req_info with
  | VDict items =>
      on_store (Store.set req_register [req_id]
        [VDict (dupdate items [("status", status); ("time", VStr (strftime now))])])
  | _ => st_raise AttributeError
  end.

(** The children of the last node: each under its own path. *)
Definition set_children (rpath request_type : string) (r : resource) : ST world unit :=
  st_iter (λ child,
    let! _ := st_lift (resource_class child) in
    let joined_rpath := rpath +:+ ">" +:+ child in
    let! data := get_data child joined_rpath request_type in
    resource_set joined_rpath data) (r_childs r).

(** [for num, node in enumerate(nodes, 1)]; [rest] are the nodes after. *)
Fixpoint walk (rpath request_type leaf_node : string) (nodes : list string) : ST world unit :=
  match nodes with
  | [] => st_ret tt
  | node0 :: rest =>
      let! (node, _) := st_lift (_get_node_details node0) in
      let! r := st_lift (resource_class node) in
      (if decide (node ≠ leaf_node) then
         match rest with
         | [] => st_raise IndexError
         | next :: _ =>
             let! (next_node, _) := st_lift (_get_node_details next) in
             if bool_decide (r_childs r ≠ []) && negb (has_child r next_node)
             then st_raise (DiscoveryError EINVAL) else st_ret tt
         end
       else st_ret tt) ;;;
      if decide (node = leaf_node ∧ r_childs r ≠ []) then set_children rpath request_type r
      else if decide (node = leaf_node ∨ r_childs r = []) then
        let! data := get_data (r_name r) rpath request_type in resource_set rpath data
      else walk rpath request_type leaf_node rest
  end.

Definition _update_resource_map (rpath request_type : string) : ST world unit :=
  let nodes := split ">" (strip rpath) in
  let! (leaf_node, _) := st_lift (_get_node_details (List.last nodes "")) in
  walk rpath request_type leaf_node nodes.

(** [os.path.join(resource_map_loc, data_file_map[req_type])], as an URL;
    [infix] is empty or [_] and the id of the request. *)
Definition store_url_of (infix req_type : string) : ST world string :=
  let! store_type := get_one common_config "discovery>resource_map>store_type" in
  let! resource_map_loc := get_one common_config "discovery>resource_map>location" in
  match store_type, resource_map_loc with
  | VStr store_type, VStr loc =>
      if decide (req_type ∈ ["health"; "manifest"]) then
        st_ret (store_type +:+ "://" +:+
                Dir.path_join loc ("node_" +:+ req_type +:+ "_info" +:+ infix +:+ "." +:+ store_type))
      else st_raise KeyError
  | _, _ => st_raise TypeError
  end.

(** The path and the URL of a request; a missing one is the empty string. *)
Definition request_target (rpath req_id store_url req_type : string) : ST world (string * string) :=
  if decide (store_url = "") then
    if decide (rpath = "") then let! url := store_url_of "" req_type in st_ret (ROOT_NODE, url)
    else let! url := store_url_of ("_" +:+ req_id) req_type in st_ret (rpath, url)
  else st_ret (if decide (rpath = "") then ROOT_NODE else rpath, store_url).

(** [process]: an exception is recorded as the status of the request. *)
Definition process (now : Z) (rpath req_id store_url req_type : string) : ST world unit :=
  let! (rpath, store_url) := request_target rpath req_id store_url req_type in
  λ st,
  match (resource_init store_url ;;;
         _add_discovery_request now rpath req_id store_url ;;;
         _update_resource_map rpath req_type ;;;
         _set_discovery_request_processed now req_id SUCCESS) st with
  | (Ok _, st') => (Ok tt, st')
  | (Err e, st') =>
      _set_discovery_request_processed now req_id (VStr (FAILED +:+ " - " +:+ err_text e)) st'
  end.

Definition EXPIRED : value := VStr "Failed - request is expired.".

(** [status is RequestHandler.INPROGRESS] compares objects: a status read from
    the file is never that object, so the time of the last reboot plays no
    part. *)
Definition get_processing_status (current_time : Z) (req_id : string) : ST world value :=
  let! status := get_one req_register (req_id +:+ ">status") in
  if truthy status then
    let! expiry := get_one common_config "discovery>resource_map>expiry_sec" in
    let! expiry_sec := st_lift (Release.py_int expiry) in
    let! time := get_one req_register (req_id +:+ ">time") in
    match time with
    | VStr t =>
        match LogFilter.strptime " " t with
        | None => st_raise ValueError
        | Some start =>
            (if (expiry_sec <? current_time - start / LogFilter.second)%Z
             then _set_discovery_request_processed current_time req_id EXPIRED else st_ret tt) ;;;
            get_one req_register (req_id +:+ ">status")
        end
    | _ => st_raise TypeError
    end
  else st_raise (DiscoveryError EINVAL).

(** [exists]: [os.path.exists] *)
Definition get_resource_map_location (exists_path : W → string → bool) (req_id req_type : string) : ST world value :=
  if decide (req_id = "") then
    let! url := store_url_of "" req_type in
    λ '(w, kv),
      if exists_path w (default "" (after "://" url)) then (Ok (VStr url), (w, kv))
      else (Err (DiscoveryError ENOENT), (w, kv))
  else
    let! url := get_one req_register (req_id +:+ ">url") in
    if truthy url then st_ret url else st_raise (DiscoveryError EINVAL).

(** *** [Discovery]: the request is processed in a thread of its own. *)

Definition __get_request_status__ (current_time : Z) (request_id : string) : ST world value :=
  if decide (request_id = "") then st_raise (DiscoveryError EINVAL)
  else get_processing_status current_time request_id.

Definition generate (now : Z) (request_id rpath store_url req_type : string) : ST world unit :=
  process now rpath request_id store_url req_type.
Definition generate_node_health (now : Z) (request_id rpath store_url : string) : ST world unit :=
  generate now request_id rpath store_url "health".
Definition generate_node_manifest (now : Z) (request_id rpath store_url : string) : ST world unit :=
  generate now request_id rpath store_url "manifest".
Definition get_node_health (exists_path : W → string → bool) (request_id : string) : ST world value :=
  get_resource_map_location exists_path request_id "health".
Definition get_node_manifest (exists_path : W → string → bool) (request_id : string) : ST world value :=
  get_resource_map_location exists_path request_id "manifest".

End discovery.

End Discovery.

(** * Theorems

    What the discovery requests promise: a request is never left in progress,
    and what its status is told to be. *)
Import PyStr PayloadFacts PayloadSpec StoreFacts Discovery.

Module DiscoverySpec.

Section theory.
Context {W : Type}.
Context (reg common : Store.backend W) (open_store : string → ST W (Store.backend W)).
Context (providers : list (string * (string → string → res value))).
Context (err_text : exn → string) (strftime : Z → string).
Context (dom : value → Prop) (valid : W → Prop) {BL : Store.BackendLaws reg ">" dom valid}.

Notation world := (Discovery.world (W:=W)).

(** A request as the register holds it *)
Definition info_ok (items : list (string * value)) : Prop := wf (VDict items) ∧ dom (VDict items).
Definition entry (req_id : string) (w : W) (items : list (string * value)) : Prop :=
  valid w ∧ readable reg w ∧ Store.get reg [req_id] w = (Ok [VDict items], w) ∧ info_ok items.

(** The documents of requests are in the domain of the register. *)
Context (dom_new : ∀ rpath url t, dom (VDict [("rpath", VStr rpath); ("status", INPROGRESS); ("url", VStr url); ("time", VStr t)])).
Context (dom_update : ∀ items s t, dom (VDict items) →
  dom (VDict (dupdate items [("status", VStr s); ("time", VStr t)]))).

(** What is done to the other stores leaves the register alone. *)
Definition keeps (w w' : W) : Prop :=
  valid w → valid w' ∧ ∀ r, (Store.b_load reg r w').1 = (Store.b_load reg r w).1.

Definition apart (b : Store.backend W) : Prop :=
  (∀ r w, keeps w (Store.b_load b r w).2) ∧ ∀ p w, keeps w (Store.b_dump b p w).2.

Context (common_apart : apart common).
Context (open_keeps : ∀ url w, keeps w (open_store url w).2).
Context (open_apart : ∀ url w b w', open_store url w = (Ok b, w') → apart b).

Lemma keeps_refl w : keeps w w.
Proof. done. Qed.
Lemma keeps_trans w1 w2 w3 : keeps w1 w2 → keeps w2 w3 → keeps w1 w3.
Proof. intros H1 H2 Hv. destruct (H1 Hv) as [Hv2 E1], (H2 Hv2) as [Hv3 E2]. split; [done|]. intros r. by rewrite E2. Qed.

Lemma entry_keeps id w w' items : keeps w w' → entry id w items → entry id w' items.
Proof.
  intros Hk (Hv & [p Hr] & Hg & Hi). destruct (Hk Hv) as [Hv' He].
  assert (Hl : Store.b_load reg true w' = (Ok p, w')).
  { rewrite (Store.load_inv reg ">" dom valid true w'), He. by rewrite Hr. }
  split_and!; [done|by exists p| |done].
  unfold Store.get, st_bind in *. rewrite Hl. rewrite Hr in Hg. unfold st_lift in *.
  apply (f_equal fst) in Hg. unfold fst in Hg. by rewrite Hg.
Qed.

(** ** Computations that keep the register *)

Definition kv_ok (kv : option (Store.backend W)) : Prop := match kv with Some b => apart b | None => True end.
Definition quiet {A} (m : ST world A) : Prop :=
  ∀ w kv, kv_ok kv → keeps w (m (w, kv)).2.1 ∧ kv_ok (m (w, kv)).2.2.

Lemma quiet_bind {A B} (m : ST world A) (f : A → ST world B) :
  quiet m → (∀ a, quiet (f a)) → quiet (st_bind m f).
Proof.
  intros Hm Hf w kv Hkv. unfold st_bind. destruct (Hm w kv Hkv) as [H1 H2].
  destruct (m (w, kv)) as [[a|e] [w1 kv1]]; [|done]. cbn in H1, H2.
  destruct (Hf a w1 kv1 H2) as [H3 H4]. split; [by eapply keeps_trans|done].
Qed.
Lemma quiet_ret {A} (a : A) : quiet (st_ret a).
Proof. by intros w kv H. Qed.
Lemma quiet_raise {A} e : quiet (st_raise (A:=A) e).
Proof. by intros w kv H. Qed.
Lemma quiet_lift {A} (r : res A) : quiet (st_lift r).
Proof. by intros w kv H. Qed.
Lemma quiet_iter {A} (f : A → ST world unit) l : (∀ a, quiet (f a)) → quiet (st_iter f l).
Proof. intros Hf. induction l as [|a l IH]; cbn; [apply quiet_ret|]. by apply quiet_bind. Qed.

Lemma apart_get b keys w : apart b → keeps w (Store.get b keys w).2.
Proof.
  intros [Hl _]. unfold Store.get, st_bind. pose proof (Hl true w) as Hk.
  by destruct (Store.b_load b true w) as [[p|e] w1].
Qed.
Lemma apart_set b keys vals w : apart b → keeps w (Store.set b keys vals w).2.
Proof.
  intros [Hl Hd]. unfold Store.set. case_decide; [done|]. unfold Store.load_modify_dump, st_bind.
  pose proof (Hl true w) as Hk. destruct (Store.b_load b true w) as [[p|e] w1]; [|done].
  destruct (st_iter _ _ p) as [[[]|e] p']; [|done]. by eapply keeps_trans.
Qed.

Lemma quiet_get_one b key : apart b → quiet (get_one b key).
Proof.
  intros Hb. apply quiet_bind; [|intros [|v l]; [apply quiet_raise|apply quiet_ret]].
  intros w kv Hkv. unfold on_store. pose proof (apart_get b [key] w Hb) as Hk.
  by destruct (Store.get b [key] w).
Qed.
Lemma quiet_resource_set key v : quiet (resource_set key v).
Proof.
  intros w [b|] Hkv; [|done]. unfold resource_set, on_store. pose proof (apart_set b [key] [v] w Hkv) as Hk.
  by destruct (Store.set b [key] [v] w).
Qed.
Lemma quiet_get_data name rpath ty : quiet (get_data common providers name rpath ty).
Proof.
  apply quiet_bind; [by apply quiet_get_one|]. intros _. apply quiet_bind; [by apply quiet_get_one|].
  intros []; first [apply quiet_raise|apply quiet_lift].
Qed.

Lemma quiet_walk rpath ty leaf nodes : quiet (walk common providers rpath ty leaf nodes).
Proof.
  induction nodes as [|n rest IH]; cbn [walk]; [apply quiet_ret|].
  apply quiet_bind; [apply quiet_lift|]. intros [node ?]. apply quiet_bind; [apply quiet_lift|]. intros r.
  apply quiet_bind.
  - case_decide; [|apply quiet_ret]. destruct rest as [|nx rest']; [apply quiet_raise|].
    apply quiet_bind; [apply quiet_lift|]. intros [nn ?]. destruct (_ && _); [apply quiet_raise|apply quiet_ret].
  - intros _. case_decide; [|case_decide; [|done]].
    + apply quiet_iter. intros c. apply quiet_bind; [apply quiet_lift|]. intros _.
      apply quiet_bind; [apply quiet_get_data|]. intros d. apply quiet_resource_set.
    + apply quiet_bind; [apply quiet_get_data|]. intros d. apply quiet_resource_set.
Qed.

Lemma quiet_update rpath ty : quiet (_update_resource_map common providers rpath ty).
Proof. apply quiet_bind; [apply quiet_lift|]. intros [leaf ?]. apply quiet_walk. Qed.

Lemma quiet_init url : quiet (resource_init open_store url).
Proof.
  intros w kv Hkv. unfold resource_init. pose proof (open_keeps url w) as Hk.
  destruct (open_store url w) as [[b|e] w1] eqn:Ho; [|done]. cbn in Hk.
  pose proof (open_apart _ _ _ _ Ho) as Hb. pose proof (proj1 Hb true w1) as Hk2.
  destruct (Store.b_load b true w1) as [r w2]. split; [by eapply keeps_trans|done].
Qed.

(** ** The register *)

Definition status_is (id : string) (w : W) (s : value) : Prop :=
  ∃ items, entry id w items ∧ dget "status" items = Some s.

Lemma add_entry now rpath id url w kv :
  fair id = true → valid w → readable reg w →
  ∃ w' items, _add_discovery_request reg strftime now rpath id url (w, kv) = (Ok tt, (w', kv)) ∧ entry id w' items.
Proof.
  intros Hid Hv Hr. unfold _add_discovery_request, on_store.
  destruct (set_one reg dom valid id (VDict [("rpath", VStr rpath); ("status", INPROGRESS); ("url", VStr url);
    ("time", VStr (strftime now))]) w Hid Hv Hr (dom_new _ _ _)) as (w' & Hs & Hv' & Hr' & Hg).
  { apply wf_dict; [apply (bool_decide_unpack _); reflexivity|]. repeat constructor; apply wf_str. }
  rewrite Hs. exists w'. eexists. split; [done|]. split_and!; [done..|]. split; [|apply dom_new].
  apply wf_dict; [apply (bool_decide_unpack _); reflexivity|]. repeat constructor; apply wf_str.
Qed.

Lemma set_processed now id s w kv items :
  fair id = true → entry id w items →
  ∃ w', _set_discovery_request_processed reg strftime now id (VStr s) (w, kv) = (Ok tt, (w', kv)) ∧
    status_is id w' (VStr s).
Proof.
  intros Hid (Hv & Hr & Hg & Hwf & Hd). unfold _set_discovery_request_processed, get_one, st_bind at 1.
  unfold st_bind at 1, on_store. rewrite Hg. cbn [st_ret].
  set (new := dupdate items [("status", VStr s); ("time", VStr (strftime now))]).
  assert (Hwn : wf (VDict new)) by (unfold new, dupdate; cbn [foldl fst snd]; repeat (apply wf_dset; [|apply wf_str]); done).
  assert (Hdn : dom (VDict new)) by (by apply dom_update).
  destruct (set_one reg dom valid id (VDict new) w Hid Hv Hr Hdn Hwn) as (w' & Hs & Hv' & Hr' & Hg').
  rewrite Hs. exists w'. split; [done|]. exists new. split; [by repeat split|].
  unfold new, dupdate. cbn [foldl fst snd]. rewrite dget_dset_ne by done. apply dget_dset_eq.
Qed.

Lemma quiet_target rpath id url ty : quiet (request_target common rpath id url ty).
Proof.
  assert (Hu : ∀ infix, quiet (store_url_of common infix ty)).
  { intros infix. apply quiet_bind; [by apply quiet_get_one|]. intros st. apply quiet_bind; [by apply quiet_get_one|]. intros loc.
    repeat case_match; first [apply quiet_ret|apply quiet_raise]. }
  unfold request_target. repeat case_decide; first [apply quiet_ret|apply quiet_bind; [apply Hu|intros; apply quiet_ret]].
Qed.

Lemma readable_keeps w w' : valid w → keeps w w' → readable reg w → valid w' ∧ readable reg w'.
Proof.
  intros Hv Hk [p Hr]. destruct (Hk Hv) as [Hv' He]. split; [done|]. exists p.
  rewrite (Store.load_inv reg ">" dom valid true w'), He. by rewrite Hr.
Qed.

(** C32.  A request does not stay in progress.  When its path and the URL of
    its map, given or by default, are found and the map can be opened,
    [process] of it alone returns, over a register that obeys [BackendLaws];
    the register then says [Success] of it if the update of the map returned,
    and otherwise [Failed] with the text of the exception that ended it. *)
Theorem process_finishes now rpath id url ty w path url1 w0 kv0 w1 kv1 :
  fair id = true → valid w → readable reg w →
  request_target common rpath id url ty (w, None) = (Ok (path, url1), (w0, kv0)) →
  resource_init open_store url1 (w0, kv0) = (Ok tt, (w1, kv1)) →
  ∃ w2 r st3 w' kv',
    _add_discovery_request reg strftime now path id url1 (w1, kv1) = (Ok tt, (w2, kv1)) ∧
    _update_resource_map common providers path ty (w2, kv1) = (r, st3) ∧
    process reg common open_store providers err_text strftime now rpath id url ty (w, None) = (Ok tt, (w', kv')) ∧
    status_is id w' (match r with Ok _ => SUCCESS | Err e => VStr (FAILED +:+ " - " +:+ err_text e) end).
Proof.
  intros Hid Hv Hr Htarget Hinit. pose proof (quiet_target rpath id url ty w None I) as [Hk0 Hkv0].
  rewrite Htarget in Hk0, Hkv0. cbn in Hk0, Hkv0. destruct (readable_keeps _ _ Hv Hk0 Hr) as [Hv0 Hr0].
  pose proof (quiet_init url1 w0 kv0 Hkv0) as [Hk1 Hkv1]. rewrite Hinit in Hk1, Hkv1. cbn in Hk1, Hkv1.
  destruct (readable_keeps _ _ Hv0 Hk1 Hr0) as [Hv1 Hr1].
  unfold process. erewrite st_bind_run; [|exact Htarget]. cbv beta iota. erewrite st_bind_run; [|exact Hinit].
  destruct (add_entry now path id url1 w1 kv1 Hid Hv1 Hr1) as (w2 & items & Hadd & Hent).
  erewrite st_bind_run; [|exact Hadd]. pose proof (quiet_update path ty w2 kv1 Hkv1) as [Hk2 _].
  unfold st_bind. destruct (_update_resource_map common providers path ty (w2, kv1)) as [r [w3 kv3]] eqn:Hup; cbn in Hk2.
  pose proof (entry_keeps _ _ _ _ Hk2 Hent) as Hent3. exists w2, r, (w3, kv3).
  destruct (set_processed now id (match r with Ok _ => "Success" | Err e => FAILED +:+ " - " +:+ err_text e end) w3 kv3 items Hid Hent3)
    as (w4 & Hset & Hst).
  exists w4, kv3. split; [done|]. split; [done|]. destruct r as [[]|e]; unfold SUCCESS; by rewrite Hset.
Qed.

(** The status told of a request: as recorded while it is younger than the
    expiry time, and failed for being expired afterwards, whether it had
    succeeded or not, in the register too. *)
Theorem processing_status_exact now id w kv items s t start e :
  fair id = true → entry id w items →
  dget "status" items = Some (VStr s) → s ≠ "" →
  dget "time" items = Some (VStr t) → LogFilter.strptime " " t = Some start →
  get_one common "discovery>resource_map>expiry_sec" (w, kv) = (Ok (VInt e), (w, kv)) →
  if (e <? now - start / LogFilter.second)%Z
  then ∃ w', get_processing_status reg common strftime now id (w, kv) = (Ok EXPIRED, (w', kv)) ∧ status_is id w' EXPIRED
  else get_processing_status reg common strftime now id (w, kv) = (Ok (VStr s), (w, kv)).
Proof.
  intros Hid Hent Hs Hne Ht Hp He. pose proof Hent as (Hv & Hr & Hg & Hi).
  assert (Hattr : ∀ a x w kv its, fair a = true → entry id w its → dget a its = Some x →
             get_one reg (id +:+ ">" +:+ a) (w, kv) = (Ok x, (w, kv))).
  { intros a x w0 kv0 its Ha (Hv0 & _ & Hg0 & _) Hx. unfold get_one, st_bind, on_store.
    rewrite (get_attr reg dom valid id a its w0 Hv0 Hid Ha Hg0), Hx. done. }
  assert (Hstatus : get_processing_status reg common strftime now id (w, kv) =
    st_bind (if (e <? now - start / LogFilter.second)%Z
             then _set_discovery_request_processed reg strftime now id EXPIRED else st_ret tt)
      (λ _, get_one reg (id +:+ ">status")) (w, kv)).
  { unfold get_processing_status. erewrite st_bind_run; [|by apply (Hattr "status" _ _ _ items)].
    cbn [truthy]. rewrite bool_decide_false by done. cbn [negb]. erewrite st_bind_run; [|exact He].
    erewrite st_bind_run; [|reflexivity]. erewrite st_bind_run; [|by apply (Hattr "time" _ _ _ items)].
    cbv beta iota. rewrite Hp. reflexivity. }
  rewrite Hstatus. clear Hstatus. destruct (e <? now - start / LogFilter.second)%Z.
  - destruct (set_processed now id "Failed - request is expired." w kv items Hid Hent) as (w' & Hset & its' & Hent' & Hs').
    exists w'. split; [|by exists its']. erewrite st_bind_run; [|exact Hset]. by apply (Hattr "status" _ _ _ its').
  - erewrite st_bind_run; [|reflexivity]. by apply (Hattr "status" _ _ _ items).
Qed.

End theory.

(** ** A node whose register and maps are kept in memory *)

(** The register is the first document of the world, the maps are the second. *)
Definition doc1 : Store.backend (value * value) :=
  Store.Backend (λ _ w, (Ok (Payload.Payload w.1 ">" []), w)) (λ p w, (Ok tt, (Payload.kp_data p, w.2))).
Definition doc2 : Store.backend (value * value) :=
  Store.Backend (λ _ w, (Ok (Payload.Payload w.2 ">" []), w)) (λ p w, (Ok tt, (w.1, Payload.kp_data p))).
Definition doc1_ok (w : value * value) : Prop := wf w.1 ∧ is_dict w.1 = true.

#[global] Instance doc1_laws : Store.BackendLaws doc1 ">" (λ _, True) doc1_ok.
Proof.
  constructor; try done.
  - intros r w p w' [Hw Hd] [= <- <-]. split_and!; [|done..]. split; [done..|]. by exists ">"%char.
  - intros p w [Hw Hd _] _. done.
  - intros p w _ _ _. by eexists.
Qed.

Definition conf : value :=
  VDict [("product_id", VStr "LR2");
         ("discovery", VDict [("solution_platform_monitor", VStr "/opt/monitor");
                              ("resource_map", VDict [("expiry_sec", VInt 60); ("store_type", VStr "json"); ("location", VStr "/var")])])].
Definition conf_store : Store.backend (value * value) :=
  Store.Backend (λ _ w, (Ok (Payload.Payload conf ">" []), w)) (λ _ w, (Ok tt, w)).
Definition open_map (url : string) : ST (value * value) (Store.backend (value * value)) := st_ret doc2.
Definition server_only : list (string * (string → string → res value)) :=
  [("server", λ ty rpath, Ok (VStr (ty +:+ " of " +:+ rpath)))].
Definition text_of (e : exn) : string := match e with DiscoveryError _ => "refused" | _ => "error" end.
Definition clock (now : Z) : string := "1970-01-01 00:00:" +:+ (if (now <? 10)%Z then "01" else "30").
Definition node0 : value * value := (VDict [], VDict []).

(** The register after a request for a path, made at time 1. *)
Definition asked (rpath url : string) : res unit * Discovery.world (W:=value * value) :=
  process doc1 conf_store open_map server_only text_of clock 1 rpath "r1" url "health" (node0, None).
Definition requested (rpath : string) := asked rpath "json:///tmp/map".

Lemma conf_store_apart : apart doc1 doc1_ok conf_store.
Proof. split; [by intros r w H|by intros p w H]. Qed.
Lemma doc2_apart : apart doc1 doc1_ok doc2.
Proof. split; [by intros r w H|by intros p w H]. Qed.

Definition told (r : res unit * Discovery.world (W:=value * value)) : res value :=
  (get_one doc1 "r1>status" r.2).1.

(** The server answers, the storage does not; the map of the first request has
    the place that the configuration says. *)
Lemma process_finishes_witness :
  told (asked "node>server" "") = Ok SUCCESS ∧
  (get_one doc1 "r1>url" (asked "node>server" "").2).1 = Ok (VStr "json:///var/node_health_info_r1.json") ∧
  told (asked "node" "json:///tmp/map") = Ok (VStr "Failed - refused") ∧
  ∃ w2 r st3 w' kv',
    _add_discovery_request doc1 clock 1 "node>server" "r1" "json:///var/node_health_info_r1.json" (node0, Some doc2) =
      (Ok tt, (w2, Some doc2)) ∧
    _update_resource_map conf_store server_only "node>server" "health" (w2, Some doc2) = (r, st3) ∧
    asked "node>server" "" = (Ok tt, (w', kv')) ∧
    status_is doc1 (λ _, True) doc1_ok "r1" w' (match r with Ok _ => SUCCESS | Err e => VStr (FAILED +:+ " - " +:+ text_of e) end).
Proof.
  split; [vm_compute; reflexivity|]. split; [vm_compute; reflexivity|]. split; [vm_compute; reflexivity|].
  apply (process_finishes doc1 conf_store open_map server_only text_of clock (λ _, True) doc1_ok
    (λ _ _ _, I) (λ _ _ _ _, I) conf_store_apart (λ _ w H, conj H (λ _, eq_refl))
    (λ _ _ b _ H, match H in _ = q return apart doc1 doc1_ok (match q.1 with Ok b' => b' | Err _ => b end) with eq_refl => doc2_apart end)
    1 "node>server" "r1" "" "health" node0 "node>server" "json:///var/node_health_info_r1.json" node0 None node0 (Some doc2) eq_refl).
  - split; [apply wf_dict; [apply NoDup_nil_2|apply Forall_nil_2]|done].
  - by eexists.
  - vm_compute. reflexivity.
  - reflexivity.
Defined.

(** A finished request, told of a second later and two minutes later. *)
Definition world1 : value * value := (requested "node>server").2.1.
Definition request1 : list (string * value) :=
  [("rpath", VStr "node>server"); ("status", SUCCESS); ("url", VStr "json:///tmp/map");
   ("time", VStr "1970-01-01 00:00:01")].

Lemma entry1 : entry doc1 (λ _, True) doc1_ok "r1" world1 request1.
Proof.
  assert (Hw : wf (VDict request1)).
  { apply wf_dict; [apply (bool_decide_unpack _); vm_compute; reflexivity|].
    repeat first [apply Forall_cons_2|apply Forall_nil_2]; apply wf_str. }
  assert (He : world1.1 = VDict [("r1", VDict request1)]) by (vm_compute; reflexivity).
  split_and!; [|by eexists|vm_compute; reflexivity|by split].
  unfold doc1_ok. rewrite He. split; [|done].
  apply wf_dict; [apply (bool_decide_unpack _); vm_compute; reflexivity|]. by apply Forall_cons_2; [|apply Forall_nil_2].
Qed.

Lemma processing_status_exact_witness :
  (get_processing_status doc1 conf_store clock 2 "r1" (world1, None)).1 = Ok SUCCESS ∧
  ∃ w', get_processing_status doc1 conf_store clock 121 "r1" (world1, None) = (Ok EXPIRED, (w', None)) ∧
    status_is doc1 (λ _, True) doc1_ok "r1" w' EXPIRED.
Proof.
  split; [vm_compute; reflexivity|].
  refine (processing_status_exact doc1 conf_store clock (λ _, True) doc1_ok (λ _ _ _ _, I)
    121 "r1" world1 None request1 "Success" "1970-01-01 00:00:01" LogFilter.second 60
    eq_refl entry1 eq_refl _ eq_refl _ _).
  - done.
  - vm_compute. reflexivity.
  - vm_compute. reflexivity.
Defined.

End DiscoverySpec.
