(* ===== verification/ConfCli.v ===== *)
(** [conf_store/conf_cli.py]: the command [conf], a run of which is a process
    of its own over the backends, and [schema/format.py], which formats what
    it prints.

    A run starts with no index loaded.  [argparse] is not modelled: a command
    is its parsed arguments.  The writers of the formats, the shell and the
    text of a list of keys are parameters. *)
From Stdlib Require Import Ascii.
From S2P Require Import Prelude PyStr PyVal KvPayload KvStore ConfStore.
Import PyStr Conf.

(** ** [Format] *)

Module Format.
Section format.
Context (json_dumps yaml_dump toml_dumps : value → res string).

(** The classes of the module in the order of their names, with their [name]s. *)
Definition formats : list (string * (value → res string)) :=
  [("json", json_dumps); ("toml", toml_dumps); ("yaml", yaml_dump)].

Fixpoint find_format (format_type : string) (l : list (string * (value → res string))) (data : value) : res string :=
  match l with
  | [] => Err (FormatError EINVAL)
  | (name, _dump) :: l' => if decide (name = format_type) then _dump data else find_format format_type l' data
  end.
Definition dump (data : value) (format_type : string) : res string := find_format format_type formats data.

End format.
End Format.

Module ConfCli.

(** The parsed arguments of a command; an option that is not given is [None]. *)
Inductive command :=
| Get (keys : string) (defaults : option string) (format : option string)
| Diff (second_url : string) (args : list string)
| Set_ (kv_delim : option string) (arg : string)
| Copy (target_url : string) (args : list string)
| Delete (force : option string) (arg : string)
| GetKeys (key_index : option string)
| Merge (src_url : string) (keys : list string)
| Compare (second_url : string)
| Search (parent_key search_key : string) (search_val : option string)
| AddNumKeys.

(** What a command returns, to be printed. *)
Inductive out :=
| Nothing
| Text (s : string)
| Keys (l : list (option string))
| Changes (new_keys deleted_keys updated_keys : list string).

(** [out is not None and len(out) > 0] *)
Definition printed (o : out) : bool :=
  match o with
  | Nothing => false
  | Text s => negb (bool_decide (s = ""))
  | Keys l => negb (bool_decide (l = []))
  | Changes _ _ _ => true
  end.

Section cli.
Context {W : Type}.
Context (machine_id_file : W → option string) (urlparse : string → string * string * string).
Context (classes : list (string * (string → string → string → ST W (Store.backend W)))).
Context (json_dumps yaml_dump toml_dumps : value → res string).
(** [stdout, stderr, rc] of a shell command; [None] when it cannot be run. *)
Context (shell : string → option (string * string * Z)) (str_keys : list (option string) → string).

(** [Conf] and [ConfCli._index] *)
Definition cli : Type := Conf.singleton (W:=W) * string.

Definition call {A} (m : ST (Conf.singleton (W:=W)) A) : ST cli A := λ '(g, i), let '(r, g') := m g in (r, (g', i)).
(** A method of [Conf] on an index *)
Definition conf_do {A} (m : ST (Conf.conf (W:=W)) A) : ST cli A := call (conf_call m).
(** The same on [ConfCli._index] *)
Definition here {A} (m : string → ST (Conf.conf (W:=W)) A) : ST cli A := λ '(g, i), conf_do (m i) (g, i).

Definition load (url index : string) : ST cli unit :=
  call (conf_class_load machine_id_file urlparse classes index url (VBool true) []).
Definition init (url : string) : ST cli unit := λ '(g, i), load url i (g, i).

Definition add_num_keys : ST cli unit := here Conf.add_num_keys ;;; here Conf.save.

Definition kv_delims : list string := [":"; ">"; "."; "|"; "/"; "="].

(** [key, val = kv.split(kv_delim, 1)] *)
Definition split_kv (kv_delim kv : string) : res (string * string) :=
  match kv_delim with
  | String d EmptyString =>
      match split1 d kv with (key, Some val) => Ok (key, val) | (_, None) => Err (ConfError EINVAL) end
  | _ => Err (ConfError EINVAL)
  end.

(** One turn of the loop of [set] *)
Definition set_kv (kv_delim kv : string) : ST cli unit :=
  let! (key, val) := st_lift (split_kv kv_delim kv) in
  here (λ i, Conf.set i key (VStr val)).

Definition set (kv_delim : option string) (arg : string) : ST cli unit :=
  let kv_delim := default "=" kv_delim in
  if decide (1 < String.length kv_delim ∨ kv_delim ∉ kv_delims) then st_raise (ConfError EINVAL) else
  st_iter (set_kv kv_delim) (split ";" arg) ;;;
  here Conf.save.

(** The loop over [range(0, n_keys)] *)
Fixpoint get_vals (kds : list (string * value)) : ST cli (list value) :=
  match kds with
  | [] => st_ret []
  | (key, dflt) :: kds' =>
      let! val := here (λ i, Conf.get_val i (Some key) dflt true) in
      let! vals := get_vals kds' in
      st_ret (val :: vals)
  end.

Definition get (keys : string) (defaults format : option string) : ST cli string :=
  let key_list := split ";" keys in
  let! def_val_list := match defaults with
    | None => st_ret ((λ _, VNull) <$> key_list)
    | Some d => if decide (length (split ";" d) = length key_list) then st_ret (VStr <$> split ";" d)
                else st_raise (ConfError EINVAL)
    end in
  let! val_list := get_vals (zip key_list def_val_list) in
  st_lift (Format.dump json_dumps yaml_dump toml_dumps (VList val_list) (default "json" format)).

Definition key_index_of (key_index : option string) : res bool :=
  let k := match key_index with None => "true" | Some s => strip (lower s) end in
  if decide (k = "true") then Ok true
  else if decide (k = "false") then Ok false
  else Err (ConfError EINVAL).

Definition get_keys (key_index : option string) (index : option string) : ST cli (list (option string)) :=
  let! b := st_lift (key_index_of key_index) in
  here (λ i, Conf.get_keys (default i index) "" true b).

Definition quote : string := sep "034"%char.
Definition diff_cmd (string_1 string_2 : string) : string :=
  "bash -c " +:+ quote +:+ "diff <(echo \" +:+ quote +:+ string_1 +:+ "\" +:+ quote +:+ ") <(echo \" +:+ quote +:+
  string_2 +:+ "\" +:+ quote +:+ ")" +:+ quote +:+ " ".

Definition set_index (index : string) : ST cli unit := λ '(g, _), (Ok tt, (g, index)).

Definition diff (second_url : string) (args : list string) : ST cli string :=
  let! (string_1, string_2) :=
    match args with
    | [] =>
        let! string_1 := get_keys None None in
        load second_url "string_diff" ;;;
        let! string_2 := get_keys None (Some "string_diff") in
        st_ret (str_keys string_1, str_keys string_2)
    | keys :: more =>
        let! string_1 := get keys (head more) None in
        set_index "string_diff" ;;;
        init second_url ;;;
        let! string_2 := get keys (head more) None in
        st_ret (string_1, string_2)
    end in
  match shell (diff_cmd string_1 string_2) with
  | Some (stdout, stderr, rc) => st_ret (if decide (rc = 1%Z) then stdout else stderr)
  | None => st_raise AttributeError
  end.

Definition merge (src_url : string) (keys : list string) : ST cli unit :=
  load src_url "src_index" ;;;
  let! src_keys := conf_do (Conf.get_keys "src_index" "" true true) in
  let src_keys := omap id src_keys in
  let! keys := match keys with
    | [] => st_ret src_keys
    | arg :: _ =>
        st_iter (λ key, if decide (key ∈ src_keys) then st_ret tt else st_raise (ConfError ENOENT)) (split ";" arg) ;;;
        st_ret (split ";" arg)
    end in
  here (λ i, Conf.merge i "src_index" (Some keys)) ;;;
  here Conf.save.

Definition compare (second_url : string) : ST cli (list string * list string * list string) :=
  load second_url "index2" ;;;
  here (λ i, Conf.compare i "index2").

Definition forced (force : option string) : bool := negb (bool_decide (default "" force = "")).

Fixpoint delete_keys (force : bool) (keys : list string) : ST cli (list bool) :=
  match keys with
  | [] => st_ret []
  | key :: keys' =>
      let! status := here (λ i, Conf.delete i key force) in
      let! is_deleted := delete_keys force keys' in
      st_ret (status :: is_deleted)
  end.

Definition delete (force : option string) (arg : string) : ST cli unit :=
  let! is_deleted := delete_keys (forced force) (split ";" arg) in
  if existsb id is_deleted then here Conf.save else st_ret tt.

Definition copy (target_url : string) (args : list string) : ST cli unit :=
  load target_url "target" ;;;
  here (λ i, Conf.copy i "target" (split ";" <$> head args) true).

Definition search (parent_key search_key : string) (search_val : option string) : ST cli (list string) :=
  here (λ i, Conf.search i parent_key search_key (match search_val with Some s => VStr s | None => VNull end)).

(** [args.func(args)] *)
Definition run_command (c : command) : ST cli out :=
  match c with
  | Get keys defaults format => let! s := get keys defaults format in st_ret (Text s)
  | Diff url args => let! s := diff url args in st_ret (Text s)
  | Set_ d arg => set d arg ;;; st_ret Nothing
  | Copy url args => copy url args ;;; st_ret Nothing
  | Delete force arg => delete force arg ;;; st_ret Nothing
  | GetKeys k => let! l := get_keys k None in st_ret (Keys l)
  | Merge url keys => merge url keys ;;; st_ret Nothing
  | Compare url => let! (nk, dk, uk) := compare url in st_ret (Changes nk dk uk)
  | Search p k v => let! l := search p k v in st_ret (Keys (Some <$> l))
  | AddNumKeys => add_num_keys ;;; st_ret Nothing
  end.

(** The state a process starts in, and the backends as it leaves them. *)
Definition fresh (w : W) (now : Z) : cli := (Singleton None (VStr ">") VNull (∅, w, now), "conf_cli").
Definition world_of (st : cli) : W :=
  match g_conf st.1 with Some s => cs_world s | None => (g_env st.1).1.2 end.

(** [main]: the exit code, what is printed, and the backends. *)
Definition main (url : string) (c : command) (w : W) (now : Z) : Z * option out * W :=
  match (init url ;;; run_command c) (fresh w now) with
  | (Ok o, st) => (0%Z, if printed o then Some o else None, world_of st)
  | (Err _, st) => (EINVAL, None, world_of st)
  end.

End cli.
End ConfCli.
