(* ===== verification/ConfCliSpec.v ===== *)
(** What the command [conf] promises: setting and getting from the command
    line is setting and getting in the store, a failed command changes nothing,
    and what the other commands leave behind. *)
From Stdlib Require Import Ascii.
From S2P Require Import Prelude PyStr PyVal KvPayload KvPayloadFacts KvPayloadKeys KvPayloadSpec KvStore ConfStore ConfStoreSpec ConfCli.
Import PyStr PayloadFacts PayloadSpec Conf ConfCli.

Module CliSpec.

Section theory.
Context {W : Type}.
Context (machine_id_file : W → option string) (urlparse : string → string * string * string).
Context (classes : list (string * (string → string → string → ST W (Store.backend W)))).
Context (json_dumps yaml_dump toml_dumps : value → res string).
Context (shell : string → option (string * string * Z)) (str_keys : list (option string) → string).

Notation main := (main machine_id_file urlparse classes json_dumps yaml_dump toml_dumps shell str_keys).
Notation get_instance := (Store.get_instance urlparse classes).

(** A URL that a new process can open and read. *)
Record opens (url : string) (w : W) (b : Store.backend W) (w0 : W) (p : payload) : Prop := {
  opens_instance : get_instance url ">" (∅, w) = (Ok b, ({[url := b]}, w0));
  opens_load : Store.b_load b true w0 = (Ok p, w0)
}.

(** The state of a process that has loaded its URL only. *)
Definition held (url : string) (b : Store.backend W) (mid : value) (now : Z) (w0 : W) (dirty : bool) (p : payload)
    : conf (W:=W) :=
  ConfStore ">" {["conf_cli" := Cache b ">" dirty p true]} ∅ mid mid {[url := b]} w0 now.
Definition process (mid : value) (env : gmap string (Store.backend W) * W * Z) (s : conf (W:=W)) : cli :=
  (Singleton (Some s) (VStr ">") mid env, "conf_cli").

Lemma here_run {A} (m : string → ST (conf (W:=W)) A) mid env s :
  here m (process mid env s) = let '(r, s') := m "conf_cli" s in (r, process mid env s').
Proof. unfold here, conf_do, call, conf_call, process. cbn. by destruct (m "conf_cli" s). Qed.

(** Loading an index for the first time *)
Lemma load_new index url s b stores w' p :
  cs_cache s !! index = None → String.length (cs_delim s) ≤ 1 →
  get_instance url (cs_delim s) (cs_stores s, cs_world s) = (Ok b, (stores, w')) →
  Store.b_load b true w' = (Ok p, w') →
  Conf.load urlparse classes index url [("recurse", VBool true)] s =
    (Ok tt, set_cache <[index := Cache b (cs_delim s) false p true]> (set_env stores w' (cs_now s) s)).
Proof.
  intros Hn Hlen Hi Hl. unfold Conf.load. erewrite st_bind_run; [|reflexivity]. cbn beta. rewrite Hn.
  erewrite st_bind_run; [|unfold Conf.get_instance; rewrite Hi; reflexivity].
  erewrite st_bind_run; [reflexivity|]. unfold new_cache, cache_init. cbn -[String.length].
  rewrite decide_False by lia. unfold st_bind. by rewrite Hl.
Qed.

Lemma init_run url w now b w0 p :
  opens url w b w0 p →
  let mid := _get_machine_id machine_id_file w in
  init machine_id_file urlparse classes url (fresh w now) =
    (Ok tt, process mid (∅, w, now) (held url b mid now w0 false p)).
Proof.
  intros [Hi Hl] mid. unfold init, load, fresh, call, conf_class_load. erewrite st_bind_run; [|reflexivity].
  unfold conf_call. cbn -[Conf.load].
  by rewrite (load_new "conf_cli" url _ b {[url := b]} w0 p).
Qed.

Section one.
Context (url : string) (b : Store.backend W) (mid : value) (env : gmap string (Store.backend W) * W * Z) (now : Z) (w0 : W).
Notation held := (held url b mid now w0).
Notation process := (process mid env).

Lemma held_update dirty p dirty' p' :
  set_cache <["conf_cli" := cc_update (Cache b ">" dirty p true) dirty' p']> (held dirty p) = held dirty' p'.
Proof. unfold set_cache, held. by f_equal. Qed.
Lemma held_cache dirty p : cs_cache (held dirty p) !! "conf_cli" = Some (Cache b ">" dirty p true).
Proof. apply lookup_singleton_eq. Qed.

Lemma on_held {A} (m : ST payload A) dirty p :
  on_cache (ConfError EINVAL) "conf_cli" (cache_mutate m) (held dirty p) =
    match m p with (Ok a, p') => (Ok a, held true p') | (Err e, p') => (Err e, held dirty p') end.
Proof.
  unfold on_cache, with_index. rewrite held_cache. unfold cache_mutate. cbn [cc_data cc_dirty].
  by destruct (m p) as [[a|e] p']; rewrite held_update.
Qed.

Lemma here_set k v dirty p :
  here (λ i, Conf.set i k v) (process (held dirty p)) =
    match Payload.set k v p with
    | (Ok _, p') => (Ok tt, process (held true p'))
    | (Err e, p') => (Err e, process (held dirty p'))
    end.
Proof.
  rewrite here_run. unfold Conf.set, cache_set. rewrite on_held.
  by destruct (Payload.set k v p) as [[[]|e] p'].
Qed.

Lemma here_save p :
  here Conf.save (process (held true p)) =
    (let '(r, w1) := Store.b_dump b p w0 in
     (r, process (ConfStore ">" {["conf_cli" := Cache b ">" (match r with Ok _ => false | Err _ => true end) p true]}
                    ∅ mid mid {[url := b]} w1 now))).
Proof.
  rewrite here_run. unfold Conf.save, with_index. rewrite held_cache. unfold cache_dump, held. cbn -[insert].
  by destruct (Store.b_dump b p w0) as [[[]|e] w1].
Qed.

(** *** [set] *)

Definition pair_of (d : ascii) (kv : string * string) : string := kv.1 +:+ sep d +:+ kv.2.
Definition pair_ok (d : ascii) (kv : string * string) : bool :=
  no_char d kv.1 && no_char ";" kv.1 && no_char ";" kv.2.

Lemma split_pair d kv : pair_ok d kv = true → split_kv (sep d) (pair_of d kv) = Ok kv.
Proof.
  intros [[Hd _]%andb_prop _]%andb_prop. destruct kv as [k v]. unfold split_kv, pair_of, sep. cbn [fst snd] in *.
  assert (split1 d (k +:+ String d EmptyString +:+ v) = (k, Some v)) as ->; [|done].
  induction k as [|c k IH]; cbn in *; [by rewrite Ascii.eqb_refl|].
  apply andb_prop in Hd as [Hc Hd]. apply negb_true_iff in Hc. by rewrite Hc, IH.
Qed.

Definition store_pairs (kvs : list (string * string)) : ST payload unit :=
  st_iter (λ '(key, val), Payload.set key val) (zip kvs.*1 (VStr <$> kvs.*2)).
Lemma set_loop d kvs dirty p :
  Forall (λ kv, pair_ok d kv = true) kvs →
  ∃ dirty', st_iter (set_kv (sep d)) (pair_of d <$> kvs) (process (held dirty p)) =
      (let '(r, p') := store_pairs kvs p in (r, process (held dirty' p'))) ∧
    (kvs ≠ [] → (store_pairs kvs p).1 = Ok tt → dirty' = true) ∧ (dirty = true → dirty' = true).
Proof.
  intros Hok. revert dirty p. induction Hok as [|[k v] kvs Hkv Hok IH]; intros dirty p; [by exists dirty|].
  cbn [fmap list_fmap st_iter fst snd]. unfold store_pairs in *. cbn [fmap list_fmap zip zip_with st_iter fst snd].
  unfold set_kv at 1. rewrite (split_pair d (k, v) Hkv). unfold st_bind, st_lift. rewrite here_set.
  destruct (Payload.set k (VStr v) p) as [[[]|e] p']; [|by exists dirty].
  destruct (IH true p') as (dirty' & Hit & _ & Hd). exists dirty'. rewrite Hit.
  specialize (Hd eq_refl). by rewrite Hd.
Qed.

End one.
(** ** Whole commands *)

Lemma pair_no_semicolon d kv : Ascii.eqb d ";" = false → pair_ok d kv = true → no_char ";" (pair_of d kv) = true.
Proof.
  intros Hd [[_ Hk]%andb_prop Hv]%andb_prop. unfold pair_of, no_char in *. rewrite !sforall_app, Hk, Hv. cbn. by rewrite Hd.
Qed.

Theorem cli_set_exact url w now b w0 p d kvs :
  opens url w b w0 p → sep d ∈ kv_delims → kvs ≠ [] → Forall (λ kv, pair_ok d kv = true) kvs →
  main url (Set_ (Some (sep d)) (join ";" (pair_of d <$> kvs))) w now =
    match Store.set b kvs.*1 (VStr <$> kvs.*2) w0 with
    | (Ok _, w1) => (0%Z, None, w1)
    | (Err _, w1) => (EINVAL, None, w1)
    end.
Proof.
  intros Ho Hd Hne Hok. unfold ConfCli.main. erewrite st_bind_run; [|by apply init_run].
  set (mid := _get_machine_id machine_id_file w). cbn [run_command]. unfold set. cbn [default].
  assert (Hsemi : Ascii.eqb d ";" = false).
  { clear -Hd. unfold kv_delims in Hd. repeat (apply elem_of_cons in Hd as [Hd|Hd]; [by injection Hd as ->|]).
    by apply elem_of_nil in Hd. }
  rewrite decide_False by (cbn; intros [?|?]; [lia|done]).
  rewrite split_join; [| |].
  - destruct (set_loop url b mid (∅, w, now) now w0 d kvs false p Hok) as (dirty & Hit & Hdirty & _).
    change (id (sep d)) with (sep d). unfold st_bind at 1 2. rewrite Hit. unfold Store.set. rewrite decide_False by (rewrite !length_fmap; auto).
    unfold Store.load_modify_dump, st_bind. rewrite (opens_load _ _ _ _ _ Ho). fold (store_pairs kvs).
    destruct (store_pairs kvs p) as [[[]|e] p'] eqn:Hs; [|done].
    rewrite Hdirty by done. rewrite here_save. by destruct (Store.b_dump b p' w0) as [[[]|e] w1].
  - by destruct kvs.
  - apply Forall_fmap. eapply Forall_impl; [exact Hok|]. intros kv. by apply pair_no_semicolon.
Qed.

(** *** [get] *)

Lemma here_get k dflt url b mid env now w0 dirty p :
  here (λ i, Conf.get_val i (Some k) dflt true) (process mid env (held url b mid now w0 dirty p)) =
    (v ← Payload.get p k true; Ok (if is_null v then dflt else v), process mid env (held url b mid now w0 dirty p)).
Proof.
  rewrite here_run. unfold Conf.get_val, with_index. rewrite held_cache. unfold cache_get, st_bind, st_lift. cbn [cc_data].
  by destruct (Payload.get p k true).
Qed.

Lemma get_loop keys url b mid env now w0 dirty p :
  get_vals (zip keys ((λ _, VNull) <$> keys)) (process mid env (held url b mid now w0 dirty p)) =
    (res_map (λ key, Payload.get p key true) keys, process mid env (held url b mid now w0 dirty p)).
Proof.
  induction keys as [|k keys IH]; [done|]. cbn [fmap list_fmap zip zip_with get_vals res_map].
  unfold st_bind. rewrite here_get. cbn [fmap list_fmap] in IH. destruct (Payload.get p k true) as [v|e]; [|done]. cbn [res_bind mbind].
  unfold st_bind in IH. rewrite IH. destruct (res_map _ keys); [|done]. by destruct v.
Qed.

Theorem cli_get_exact url w now b w0 p keys :
  opens url w b w0 p → keys ≠ [] → Forall (λ k, no_char ";" k = true) keys →
  main url (Get (join ";" keys) None None) w now =
    match Store.get b keys w0 with
    | (Ok vals, _) => match json_dumps (VList vals) with
                      | Ok s => (0%Z, if bool_decide (s = "") then None else Some (Text s), w0)
                      | Err _ => (EINVAL, None, w0)
                      end
    | (Err _, _) => (EINVAL, None, w0)
    end.
Proof.
  intros Ho Hne Hk. unfold ConfCli.main. erewrite st_bind_run; [|by apply init_run]. cbn [run_command].
  unfold get. rewrite split_join by done. unfold st_bind at 1. erewrite st_bind_run; [|reflexivity].
  unfold st_bind. rewrite get_loop. unfold Store.get, st_bind. rewrite (opens_load _ _ _ _ _ Ho). unfold st_lift.
  destruct (res_map _ keys) as [vals|e]; [|done]. unfold Format.dump. cbn [default Format.find_format Format.formats].
  change (id "json") with "json". rewrite decide_True by done. destruct (json_dumps (VList vals)) as [s|e]; [|done].
  cbn. by case_bool_decide.
Qed.


(** ** Two URLs *)

Lemma st_iter_world {A} (f : A → ST (conf (W:=W)) unit) l s :
  (∀ a s0, cs_world (f a s0).2 = cs_world s0) → cs_world (st_iter f l s).2 = cs_world s.
Proof. intros Hf. apply (st_iter_inv (λ s0, cs_world s0 = cs_world s)); [|done]. intros a s0 _ <-. apply Hf. Qed.

Lemma copy_key_world src dst k s : cs_world (copy_key (W:=W) src dst k s).2 = cs_world s.
Proof.
  unfold copy_key, with_index. destruct (cs_cache s !! dst); [|done]. destruct (cs_cache s !! src) as [c1|]; [|done].
  unfold st_bind, st_lift. destruct (cache_get c1 k true) as [v|e]; [|done]. unfold on_cache, with_index.
  destruct (cs_cache s !! dst) as [c2|]; [|done]. by destruct (cache_set k v c2).
Qed.

Lemma copy_world src dst ks r s : cs_world (Conf.copy (W:=W) src dst ks r s).2 = cs_world s.
Proof.
  unfold Conf.copy, with_index. destruct (cs_cache s !! src); [|done]. destruct (cs_cache s !! dst); [|done].
  apply st_iter_world. intros k s0. apply copy_key_world.
Qed.

(** A second URL that the process can open after its own. *)
Record opens2 (url url2 : string) (b : Store.backend W) (w0 : W) (b2 : Store.backend W) (w2 : W) (p2 : payload) : Prop := {
  opens2_instance : ∃ stores, get_instance url2 ">" ({[url := b]}, w0) = (Ok b2, (stores, w2));
  opens2_load : Store.b_load b2 true w2 = (Ok p2, w2)
}.

Lemma load_run index url url2 w now b w0 p b2 w2 p2 :
  opens2 url url2 b w0 b2 w2 p2 → index ≠ "conf_cli" →
  let mid := _get_machine_id machine_id_file w in
  ∃ s2, load machine_id_file urlparse classes url2 index (process mid (∅, w, now) (held url b mid now w0 false p)) =
      (Ok tt, process mid (∅, w, now) s2) ∧
    cs_world s2 = w2 ∧ cs_cache s2 !! index = Some (Cache b2 ">" false p2 true) ∧
    cs_cache s2 !! "conf_cli" = Some (Cache b ">" false p true).
Proof.
  intros [[stores Hi] Hl] Hne mid.
  assert (Hn : cs_cache (held url b mid now w0 false p) !! index = None) by (by apply lookup_singleton_ne).
  pose proof (load_new index url2 _ b2 stores w2 p2 Hn ltac:(cbn; lia) Hi Hl) as Hload.
  eexists. split; [|split; [|split]].
  - unfold load, call, conf_class_load, process. erewrite st_bind_run; [|reflexivity].
    unfold conf_call. cbn [g_conf g_delim g_machine_id g_env]. rewrite Hload. reflexivity.
  - done.
  - cbn [cs_cache set_cache set_env]. apply lookup_insert_eq.
  - cbn [cs_cache set_cache set_env]. rewrite lookup_insert_ne by done. apply lookup_singleton_eq.
Qed.

(** [conf copy] writes nothing: whatever it answers, the backends are as
    opening the two URLs left them. *)
Theorem cli_copy_saves_nothing url url2 args w now b w0 p b2 w2 p2 :
  opens url w b w0 p → opens2 url url2 b w0 b2 w2 p2 →
  ∃ code, main url (Copy url2 args) w now = (code, None, w2).
Proof.
  intros Ho Ho2. unfold ConfCli.main. erewrite st_bind_run; [|by apply init_run]. cbn [run_command].
  destruct (load_run "target" url url2 w now b w0 p b2 w2 p2 Ho2) as (s2 & Hl & Hw & _); [done|].
  unfold st_bind at 1, copy. erewrite st_bind_run; [|exact Hl]. rewrite here_run.
  pose proof (copy_world "conf_cli" "target" (split ";" <$> head args) true s2) as Hc.
  destruct (Conf.copy "conf_cli" "target" (split ";" <$> head args) true s2) as [[[]|e] s3]; cbn in *;
    eexists; unfold world_of; cbn; by rewrite Hc, Hw.
Qed.

(** The check of the keys to be merged refuses an empty value. *)
Lemma merge_check src_p ks k v (s : conf (W:=W)) :
  k ∈ ks → Payload.get src_p k true = Ok v → truthy v = false →
  ∃ e, st_iter (λ key, let! v := st_lift (Payload.get src_p key true) in
                       if truthy v then st_ret tt else st_raise (ConfError ENOENT)) ks s = (Err e, s).
Proof.
  intros Hk Hg Hv. induction ks as [|x ks IH]; [by apply elem_of_nil in Hk|].
  cbn [st_iter]. unfold st_bind at 1. destruct (decide (x = k)) as [->|Hne].
  - unfold st_bind, st_lift. rewrite Hg, Hv. by eexists.
  - apply elem_of_cons in Hk as [->|Hk]; [done|]. unfold st_bind, st_lift.
    destruct (Payload.get src_p x true) as [u|e]; [|by exists e].
    destruct (truthy u); [by apply IH|by eexists].
Qed.

(** [conf merge] of a whole file is refused, and nothing of it is merged,
    when the file holds an empty value: a listed key that reads as an empty
    string or the like is taken for a missing one. *)
Theorem cli_merge_empty_value url url2 w now b w0 p b2 w2 p2 k v :
  opens url w b w0 p → opens2 url url2 b w0 b2 w2 p2 →
  k ∈ Payload.get_keys_rec p2 "" true → Payload.get p2 k true = Ok v → truthy v = false →
  main url (Merge url2 []) w now = (EINVAL, None, w2).
Proof.
  intros Ho Ho2 Hk Hg Hv. unfold ConfCli.main. erewrite st_bind_run; [|by apply init_run]. cbn [run_command].
  destruct (load_run "src_index" url url2 w now b w0 p b2 w2 p2 Ho2) as (s2 & Hl & Hw & Hsrc & Hdst); [done|].
  unfold st_bind at 1, merge. erewrite st_bind_run; [|exact Hl].
  set (st := process _ _ s2). set (keys := Payload.get_keys_rec p2 "" true) in *.
  assert (Hkeys : conf_do (Conf.get_keys "src_index" "" true true) st = (Ok (Some <$> keys), st)).
  { unfold conf_do, call, conf_call, st, process, Conf.get_keys, with_index. cbn [g_conf g_delim g_machine_id g_env].
    by rewrite Hsrc. }
  erewrite st_bind_run; [|exact Hkeys]. cbv zeta.
  assert (omap id (Some <$> keys) = keys) as ->.
  { clear. induction keys as [|x l IH]; [done|]. cbn. by f_equal. }
  erewrite st_bind_run; [|reflexivity]. unfold st_bind. unfold st. rewrite here_run.
  unfold Conf.merge, with_index. rewrite Hsrc, Hdst. unfold cache_get. cbn [cc_data].
  destruct (merge_check p2 keys k v s2 Hk Hg Hv) as [e He]. unfold st_bind in *. rewrite He.
  unfold world_of. cbn. by rewrite Hw.
Qed.

End theory.
End CliSpec.
