(* ===== verification/ConfCliWitness.v ===== *)
(** Runs of the command [conf] over JSON files: the hypotheses of its theorems
    hold on concrete files. *)
From Stdlib Require Import Ascii.
From S2P Require Import Prelude PyStr PyVal KvPayload KvPayloadFacts KvPayloadKeys KvPayloadSpec KvStore KvFiles KvFilesFacts KvCodec ConfStore ConfStoreSpec ConfCli ConfCliSpec.
Import PyStr PayloadFacts PayloadSpec Files FilesFacts Codec Conf ConfCli CliSpec.

Module CliWitness.

Definition url_parts (url : string) : string * string * string :=
  match after "://" url with Some path => ("json", "", path) | None => ("", "", url) end.
Definition json_classes : list (string * (string → string → string → ST files (Store.backend files))) :=
  [("json", λ _ path delim, json_init path ;;; st_ret (json_store path delim))].
Definition no_machine (fs : files) : option string := None.
(** A writer of lists of strings *)
Definition write_list (v : value) : res string :=
  match v with
  | VList l => Ok (join "," ((λ x, match x with VStr s => s | _ => "null" end) <$> l))
  | _ => Err TypeError
  end.
Definition no_shell (cmd : string) : option (string * string * Z) := None.

Definition run (c : command) (fs : files) : Z * option out * files :=
  main no_machine url_parts json_classes write_list write_list write_list no_shell (λ _, "") "json:///etc/conf" c fs 0.

Definition pairs : list (string * string) := [("x>y", "7"); ("n", "b c")].

Lemma conf_opens fs p :
  is_Some (fs !! "/etc/conf") → json_load "/etc/conf" ">" true fs = (Ok p, fs) →
  opens url_parts json_classes "json:///etc/conf" fs (json_store "/etc/conf" ">") fs p.
Proof.
  intros [s Hs] Hl. constructor; [|exact Hl]. unfold Store.get_instance.
  change (url_parts "json:///etc/conf") with ("json", "", "/etc/conf"). cbv beta iota. rewrite lookup_empty.
  cbn [Store.find_class json_classes]. rewrite decide_True by done. unfold st_bind, json_init. by rewrite Hs.
Qed.

(** What a file holds *)
Definition held_in (path : string) (fs : files) : payload :=
  match (json_load path ">" true fs).1 with Ok p => p | Err _ => Payload.Payload VNull ">" [] end.

Definition stored : files := (run (Set_ (Some "=") "x>y=7;n=b c") one_file).2.

Lemma one_file_load : json_load "/etc/conf" ">" true one_file = (Ok (held_in "/etc/conf" one_file), one_file).
Proof. vm_compute. reflexivity. Qed.
Lemma stored_load : json_load "/etc/conf" ">" true stored = (Ok (held_in "/etc/conf" stored), stored).
Proof. vm_compute. reflexivity. Qed.
Lemma stored_run : run (Set_ (Some "=") "x>y=7;n=b c") one_file = (0%Z, None, stored).
Proof. vm_compute. reflexivity. Qed.
Lemma stored_file : is_Some (stored !! "/etc/conf").
Proof. apply (bool_decide_unpack _). vm_compute. reflexivity. Qed.


(** A merge with a file that holds an empty value *)
Definition blank_file : files := <["/tmp/src" := dumps (VDict [("a", VStr "1"); ("b", VStr "")])]> one_file.

Lemma blank_load1 : json_load "/etc/conf" ">" true blank_file = (Ok (held_in "/etc/conf" blank_file), blank_file).
Proof. vm_compute. reflexivity. Qed.
Lemma blank_load2 : json_load "/tmp/src" ">" true blank_file = (Ok (held_in "/tmp/src" blank_file), blank_file).
Proof. vm_compute. reflexivity. Qed.
Lemma blank_keys :
  "b" ∈ Payload.get_keys_rec (held_in "/tmp/src" blank_file) "" true ∧
  Payload.get (held_in "/tmp/src" blank_file) "b" true = Ok (VStr "").
Proof. split; [apply (bool_decide_unpack _)|]; vm_compute; reflexivity. Qed.
Lemma blank_opens2 :
  opens2 url_parts json_classes "json:///etc/conf" "json:///tmp/src" (json_store "/etc/conf" ">") blank_file
    (json_store "/tmp/src" ">") blank_file (held_in "/tmp/src" blank_file).
Proof. constructor; [by eexists|exact blank_load2]. Qed.

Lemma cli_merge_empty_value_witness :
  run (Merge "json:///tmp/src" []) blank_file = (EINVAL, None, blank_file).
Proof.
  apply (cli_merge_empty_value no_machine url_parts json_classes write_list write_list write_list no_shell (λ _, "")
    "json:///etc/conf" "json:///tmp/src" blank_file 0 (json_store "/etc/conf" ">") blank_file (held_in "/etc/conf" blank_file)
    (json_store "/tmp/src" ">") blank_file (held_in "/tmp/src" blank_file) "b" (VStr "")).
  - apply conf_opens; [by eexists|exact blank_load1].
  - exact blank_opens2.
  - apply blank_keys.
  - apply blank_keys.
  - done.
Defined.

End CliWitness.
