(* ===== verification/Kafka.v ===== *)
(** [setup/kafka/kafka.py]: the set-up of a Kafka server, its properties files
    and the commands it runs.

    Files are the text files of [KvFiles]; the rest of the machine, its
    commands, directories and users, is the class [Machine].  Texts are of code
    points below 256. *)
From Stdlib Require Import Ascii.
From S2P Require Import Prelude PyStr PyVal KvFiles.
Import PyStr Files.

Module Kafka.

(** What the operating system offers; a command answers its standard output,
    its standard error and its exit code. *)
Class Machine (W : Type) := {
  h_run : string → W → (string * string * Z) * W;        (* SimpleProcess(cmd).run() *)
  h_system : string → W → W;                             (* os.system(cmd) *)
  h_makedirs : string → W → option Z * W;                (* the errno of the OSError *)
  h_listdir : string → W → option (list string);         (* None: it does not exist *)
  h_rmtree : string → W → bool * W;
  h_remove : string → W → option Z * W;
  h_pw_gid : string → W → option Z;                      (* getpwnam(name).pw_gid *)
  h_gr_gid : string → W → option Z;                      (* getgrnam(name).gr_gid *)
  h_hostname : W → string;
  h_address : string → W → string                        (* gethostbyname *)
}.

Definition ERR_OP_FAILED : Z := 0x1100.

(** [KafkaSetupError(rc, message, err)]: the messages have no format for the
    error text, so that [message % args] raises. *)
Definition setup_error (rc : Z) : exn := TypeError.

(** ** Properties files *)

Definition line_of (key : string) (val : value) : string := key +:+ "=" +:+ py_str (λ _, "") val +:+ sep nl.
Definition sets_key (key line : string) : bool := startswith line (key +:+ "=").

(** One pass of [fileinput] over the file, in place *)
Definition rewrite_lines (file_path : string) (f : string → string) : ST files (list string) :=
  let! s := read_file file_path in
  let lines := readlines (universal_newlines s) in
  write_file file_path (String.concat "" (f <$> lines)) ;;;
  st_ret lines.

Fixpoint update_loop (file_path : string) (properties : list (string * value)) : ST files (list string) :=
  match properties with
  | [] => st_ret []
  | (key, val) :: properties' =>
      let! lines := rewrite_lines file_path (λ line, if sets_key key line then line_of key val else line) in
      let! pending_config := update_loop file_path properties' in
      st_ret (if existsb (sets_key key) lines then pending_config else line_of key val :: pending_config)
  end.

Definition append_file (file_path s : string) : ST files unit := λ fs,
  (Ok tt, <[file_path := default "" (fs !! file_path) +:+ s]> fs).

Definition _update_properties_file (file_path : string) (properties : list (string * value)) : ST files unit :=
  let! pending_config := update_loop file_path properties in
  append_file file_path (String.concat "" pending_config).

Definition _delete_properties_from_file (file_path : string) (properties : list string) : ST files unit :=
  st_iter (λ key,
    rewrite_lines file_path (λ line, if sets_key key line || startswith line "server." then sep nl else line) ;;;
    st_ret tt) properties.

Section kafka.
Context {W : Type} {H : Machine W}.

Definition world : Type := files * W.
Definition on_files {A} (m : ST files A) : ST world A := λ '(fs, w), let '(r, fs') := m fs in (r, (fs', w)).
Definition on_host {A} (m : W → A * W) : ST world A := λ '(fs, w), let '(a, w') := m w in (Ok a, (fs, w')).
Definition ask_host {A} (f : W → A) : ST world A := λ '(fs, w), (Ok (f w), (fs, w)).

(** ** The installation *)

(** [PkgV().validate('rpms', pkgs)] on the local host *)
Definition validate_rpm_pkgs (pkgs : list string) : ST world unit :=
  let! (stdout, _, retcode) := on_host (h_run "rpm -qa") in
  if decide (retcode ≠ 0%Z) then st_raise (VError EINVAL) else
  st_iter (λ pkg, if contains stdout pkg then st_ret tt else st_raise (VError EINVAL)) pkgs.

(** [KafkaSetupError(e.rc, e)]: an exception without a return code raises in
    its turn; the message is an exception, which [%] cannot format. *)
Definition as_setup_error {A} (m : ST world A) : ST world A := λ st,
  match m st with
  | (Err (VError _), st') => (Err TypeError, st')
  | (Err _, st') => (Err AttributeError, st')
  | r => r
  end.

Definition user_commands : list string :=
  ["adduser kafka"; "usermod -aG wheel kafka"; "groupadd --force kafka"; "usermod --append --groups kafka kafka"].

Definition _validate_kafka_installation : ST world unit :=
  as_setup_error (validate_rpm_pkgs ["kafka"]) ;;;
  let! user := ask_host (h_pw_gid "kafka") in
  let! group := ask_host (h_gr_gid "kafka") in
  if decide (is_Some user ∧ user = group) then st_ret tt else
  st_iter (λ cmd,
    let! (_, _, rc) := on_host (h_run cmd) in
    if decide (rc ∈ [0; 9; 12]%Z) then st_ret tt else st_raise (setup_error rc)) user_commands.

Definition _create_dir_and_set_kafka_ownership (directory : string) : ST world unit :=
  let! e := on_host (h_makedirs directory) in
  match e with
  | Some errno => st_raise (setup_error errno)
  | None => on_host (λ w, (tt, h_system ("chown -R kafka:kafka " +:+ directory) w))
  end.

(** ** The configuration *)

Definition host_of (server : string) : string := (split1 ":" server).1.

Definition SERVER_PROPERTIES : string := "/opt/kafka/config/server.properties".
Definition ZOOKEEPER_PROPERTIES : string := "/opt/kafka/config/zookeeper.properties".

Definition server_properties (hostname port : string) (kafka_servers : list string) : list (string * value) :=
  let props :=
    [("zookeeper.connect", VStr (join ", " ((λ host, host +:+ ":2181") <$> (host_of <$> kafka_servers))));
     ("listeners", VStr ("PLAINTEXT://" +:+ hostname +:+ ":" +:+ port));
     ("log.flush.offset.checkpoint.interval.ms", VStr "1");
     ("log.retention.check.interval.ms", VStr "1");
     ("log.dirs", VStr "/var/local/data/kafka");
     ("log.delete.delay.ms", VStr "1")] in
  if decide (1 < length kafka_servers) then
    dupdate props [("default.replication.factor", VInt 3); ("transaction.state.log.min.isr", VInt 2);
                   ("offsets.topic.replication.factor", VInt 3);
                   ("transaction.state.log.replication.factor", VInt 3)]
  else props.

Definition zookeeper_properties : list (string * value) :=
  [("dataLogDir", VStr "/var/log/zookeeper"); ("dataDir", VStr "/var/lib/zookeeper"); ("tickTime", VInt 2000);
   ("initLimit", VInt 10); ("syncLimit", VInt 5); ("clientPort", VInt 2181);
   ("autopurge.snapRetainCount", VInt 3); ("autopurge.purgeInterval", VInt 24); ("4lw.commands.whitelist", VStr "*")].

Definition directories : list string := ["/var/local/data/kafka"; "/var/lib/zookeeper"; "/var/log/zookeeper"].

(** [for index, host in enumerate(hosts)]: the properties of both files *)
Fixpoint number_hosts (hostname : string) (several : bool) (index : nat) (hosts : list string)
    (server zookeeper : list (string * value)) : ST files (list (string * value) * list (string * value)) :=
  match hosts with
  | [] => st_ret (server, zookeeper)
  | host :: hosts' =>
      let zookeeper := dset ("server." +:+ dec (index + 1)) (VStr (host +:+ ":2888:3888")) zookeeper in
      if decide (host = hostname) then
        (if several then write_file "/var/lib/zookeeper/myid" (dec (index + 1)) else st_ret tt) ;;;
        number_hosts hostname several (index + 1) hosts' (dset "broker.id" (VInt (Z.of_nat index)) server) zookeeper
      else number_hosts hostname several (index + 1) hosts' server zookeeper
  end.

Definition _set_kafka_config (hostname port : string) (kafka_servers : list string) : ST world unit :=
  st_iter _create_dir_and_set_kafka_ownership directories ;;;
  on_files (
    let! (server, zookeeper) :=
      number_hosts hostname (bool_decide (1 < length kafka_servers)) 0 (host_of <$> kafka_servers)
        (server_properties hostname port kafka_servers) zookeeper_properties in
    _update_properties_file SERVER_PROPERTIES server ;;;
    _update_properties_file ZOOKEEPER_PROPERTIES zookeeper).

(** [host, port = server.split(':') if ':' in server else (server, '9092')] *)
Definition host_port (server : string) : res (string * string) :=
  match split ":" server with
  | [host] => Ok (host, "9092")
  | [host; port] => Ok (host, port)
  | _ => Err ValueError
  end.

Definition config (kafka_servers : list string) : ST world unit :=
  let! curr_host_fqdn := ask_host h_hostname in
  let! curr_host_ip := ask_host (h_address curr_host_fqdn) in
  st_iter (λ server,
    let! (host, port) := st_lift (host_port server) in
    if decide (host ∈ [curr_host_fqdn; curr_host_ip]) then
      _validate_kafka_installation ;;; _set_kafka_config host port kafka_servers
    else st_ret tt) kafka_servers.

(** ** The other phases *)

Definition post_install : ST world unit := λ st,
  match _validate_kafka_installation st with
  | (Err (SetupError _), st') => (Ok tt, st')
  | r => r
  end.

(** [attempt <= 100]; the sleep is not modelled. *)
Fixpoint wait_zookeeper (attempts : nat) : ST world bool :=
  match attempts with
  | O => st_ret false
  | S attempts' =>
      let! (_, _, rc) := on_host (h_run "echo ruok|nc `hostname` 2181|grep imok") in
      if decide (rc = 0%Z) then st_ret true else wait_zookeeper attempts'
  end.

Definition restart (cmd : string) : ST world unit :=
  let! (_, _, rc) := on_host (h_run cmd) in
  if decide (rc ≠ 0%Z) then st_raise (setup_error rc) else st_ret tt.

Definition init (kafka_servers : list string) : ST world unit :=
  _validate_kafka_installation ;;;
  let! curr_host_fqdn := ask_host h_hostname in
  let! curr_host_ip := ask_host (h_address curr_host_fqdn) in
  let hosts := host_of <$> kafka_servers in
  if decide (curr_host_fqdn ∈ hosts ∨ curr_host_ip ∈ hosts) then
    restart "systemctl restart kafka-zookeeper" ;;;
    let! up := wait_zookeeper 101 in
    if up : bool then restart "systemctl restart kafka" else st_raise (SetupError ERR_OP_FAILED)
  else st_ret tt.

Definition data_directories : list string :=
  ["/var/log/kafka"; "/tmp/kafka-logs"; "/var/log/zookeeper"; "/var/lib/zookeeper"; "/var/local/data/kafka"].

(** [shutil.rmtree(path)], or [os.remove(path)] when it fails *)
Definition delete_path (path : string) : ST world unit :=
  let! removed := on_host (h_rmtree path) in
  if removed : bool then st_ret tt else
  let! e := on_host (h_remove path) in
  match e with Some errno => st_raise (OSError errno) | None => st_ret tt end.

Definition reset : ST world unit :=
  st_iter (λ directory,
    let! found := ask_host (h_listdir directory) in
    match found with
    | None => st_ret tt
    | Some names => st_iter (λ name, delete_path (directory +:+ "/" +:+ name)) names
    end) data_directories.

Definition default_server_properties : list (string * value) :=
  [("broker.id", VInt 0); ("log.dirs", VStr "/tmp/kafka-logs"); ("log.retention.check.interval.ms", VInt 300000);
   ("zookeeper.connect", VStr "localhost:2181"); ("transaction.state.log.min.isr", VInt 1);
   ("offsets.topic.replication.factor", VInt 1); ("transaction.state.log.replication.factor", VInt 1)].
Definition delete_server_properties : list string :=
  ["listeners"; "log.delete.delay.ms"; "default.replication.factor"; "log.flush.offset.checkpoint.interval.ms"].
Definition default_zookeeper_properties : list (string * value) :=
  [("clientPort", VInt 2181); ("dataDir", VStr "/tmp/zookeeper")].
Definition delete_zookeeper_properties : list string :=
  ["dataLogDir"; "tickTime"; "initLimit"; "syncLimit"; "dataLogDir"; "autopurge.snapRetainCount"; "server.";
   "autopurge.purgeInterval"; "4lw.commands.whitelist"].

Definition cleanup : ST world unit :=
  on_files (
    _update_properties_file SERVER_PROPERTIES default_server_properties ;;;
    _delete_properties_from_file SERVER_PROPERTIES delete_server_properties ;;;
    _update_properties_file ZOOKEEPER_PROPERTIES default_zookeeper_properties ;;;
    _delete_properties_from_file ZOOKEEPER_PROPERTIES delete_zookeeper_properties).

End kafka.
End Kafka.
