(* ===== verification/KafkaSpec.v ===== *)
(** What the set-up of Kafka promises: a properties file holds what it is told
    to, its other lines are kept, and the servers of a cluster agree on their
    numbers. *)
From Stdlib Require Import Ascii.
From S2P Require Import Prelude PyStr PyVal KvFiles KvFilesFacts Kafka.
Import PyStr Files Kafka.

Module KafkaSpec.

(** ** Lines *)

(** A line without its line feed *)
Definition plain (s : string) : bool := no_char nl s && no_char cr s.
(** A text of whole lines *)
Definition text_of (lines : list string) : string := String.concat "" ((λ l, l +:+ sep nl) <$> lines).

Lemma universal_plain s t : no_char cr s = true → universal_newlines (s +:+ t) = s +:+ universal_newlines t.
Proof.
  induction s as [|c s IH]; [done|]. cbn. intros [Hc Hs]%andb_prop. apply negb_true_iff in Hc. by rewrite Hc, IH.
Qed.
Lemma readlines_line s t : no_char nl s = true → readlines (s +:+ sep nl +:+ t) = (s +:+ sep nl) :: readlines t.
Proof.
  induction s as [|c s IH]; [done|]. cbn [no_char sforall]. intros [Hc Hs]%andb_prop. apply negb_true_iff in Hc.
  rewrite !sapp_cons. cbn [readlines]. change (Ascii.ascii_of_nat 10) with nl. rewrite Hc.
  by rewrite (IH Hs).
Qed.
Lemma text_cons l ls : text_of (l :: ls) = (l +:+ sep nl) +:+ text_of ls.
Proof. unfold text_of. cbn. destruct ls; cbn; [by rewrite sapp_nil_r|done]. Qed.

Lemma universal_text ls : Forall (λ l, plain l = true) ls → universal_newlines (text_of ls) = text_of ls.
Proof.
  induction 1 as [|l ls [_ Hl]%andb_prop Hls IH]; [done|].
  rewrite text_cons, sapp_assoc, universal_plain by done.
  change (universal_newlines (sep nl +:+ text_of ls)) with (String nl (universal_newlines (text_of ls))). by rewrite IH.
Qed.
Lemma readlines_text ls : Forall (λ l, plain l = true) ls → readlines (text_of ls) = (λ l, l +:+ sep nl) <$> ls.
Proof.
  induction 1 as [|l ls [Hl _]%andb_prop Hls IH]; [done|].
  rewrite text_cons, sapp_assoc, readlines_line by done. by rewrite IH.
Qed.

Lemma text_app ls1 ls2 : text_of (ls1 ++ ls2) = text_of ls1 +:+ text_of ls2.
Proof. induction ls1 as [|l ls1 IH]; [done|]. cbn [app]. by rewrite !text_cons, IH, !sapp_assoc. Qed.

(** ** The key of a line *)

Definition key_of (line : string) : option string :=
  match split1 "=" line with (k, Some _) => Some k | (_, None) => None end.
Definition assignment (kv : string * value) : string := kv.1 +:+ "=" +:+ py_str (λ _, "") kv.2.
Definition entry_ok (kv : string * value) : bool :=
  no_char "=" kv.1 && plain kv.1 && plain (py_str (λ _, "") kv.2).

Lemma key_of_app k t : no_char "=" k = true → key_of (k +:+ String "=" t) = Some k.
Proof.
  intros Hk. unfold key_of. assert (split1 "=" (k +:+ String "=" t) = (k, Some t)) as ->; [|done].
  induction k as [|c k IH]; [done|]. cbn in *. apply andb_prop in Hk as [Hc Hk]. apply negb_true_iff in Hc.
  by rewrite Hc, (IH Hk).
Qed.
Lemma key_of_assignment kv : entry_ok kv = true → key_of (assignment kv) = Some kv.1.
Proof. intros [[Hk _]%andb_prop _]%andb_prop. by apply (key_of_app kv.1 (py_str (λ _, "") kv.2)). Qed.
Lemma assignment_plain kv : entry_ok kv = true → plain (assignment kv) = true.
Proof.
  intros [[_ [Hk1 Hk2]%andb_prop]%andb_prop [Hv1 Hv2]%andb_prop]%andb_prop. unfold plain, assignment, no_char in *.
  rewrite !sforall_app, Hk1, Hk2, Hv1, Hv2. done.
Qed.

Lemma sets_key_line key l :
  no_char "=" key = true → plain key = true → sets_key key (l +:+ sep nl) = bool_decide (key_of l = Some key).
Proof.
  intros Hk [Hn _]%andb_prop. unfold sets_key, key_of. revert l Hk Hn.
  induction key as [|c key IH]; intros l Hk Hn.
  - destruct l as [|a l]; [done|].
    assert (startswith (String a l +:+ sep nl) ("" +:+ "=") = Ascii.eqb a "=") as ->.
    { rewrite Ascii.eqb_sym. change (Ascii.eqb "=" a && startswith (l +:+ sep nl) "" = Ascii.eqb "=" a).
      assert (startswith (l +:+ sep nl) "" = true) as -> by (by destruct l). apply andb_true_r. }
    cbn [split1]. destruct (Ascii.eqb a "=") eqn:Ha; [done|].
    destruct (split1 "=" l) as [k [r|]]; by rewrite bool_decide_false.
  - cbn in Hk, Hn. apply andb_prop in Hk as [Hc Hk], Hn as [Hcn Hn]. apply negb_true_iff in Hc, Hcn.
    destruct l as [|a l]; [cbn; by rewrite Hcn|].
    specialize (IH l Hk Hn). cbn [split1].
    change (startswith (String a l +:+ sep nl) (String c key +:+ "=")) with
      (Ascii.eqb c a && startswith (l +:+ sep nl) (key +:+ "=")).
    destruct (Ascii.eqb c a) eqn:Hca; cbn [andb].
    + apply Ascii.eqb_eq in Hca as <-. rewrite Hc, IH.
      destruct (split1 "=" l) as [k [r|]]; [|done]. apply bool_decide_ext. split; [by intros [= ->]|by intros [= ->]].
    + apply Ascii.eqb_neq in Hca. destruct (Ascii.eqb a "="); [by rewrite bool_decide_false|].
      destruct (split1 "=" l) as [k [r|]]; by rewrite bool_decide_false by congruence.
Qed.

(** ** Updating a file *)

Definition step (kv : string * value) (line : string) : string :=
  if decide (key_of line = Some kv.1) then assignment kv else line.
(** The lines of the file that set no key of the update yet *)
Definition missing (props : list (string * value)) (ls : list string) : list (string * value) :=
  filter (λ kv, Some kv.1 ∉ key_of <$> ls) props.
(** What a line becomes: the assignment of its key, when that is updated *)
Definition updated (props : list (string * value)) (line : string) : string :=
  match key_of line with
  | Some k => match dget k props with Some v => assignment (k, v) | None => line end
  | None => line
  end.

Definition file_ok (ls : list string) : Prop := Forall (λ l, plain l = true) ls.

Lemma rewrite_text file f g ls fs :
  fs !! file = Some (text_of ls) → file_ok ls → (∀ l, l ∈ ls → f (l +:+ sep nl) = g l +:+ sep nl) →
  rewrite_lines file f fs = (Ok ((λ l, l +:+ sep nl) <$> ls), <[file := text_of (g <$> ls)]> fs).
Proof.
  intros Hf Hok Hfg. unfold rewrite_lines, st_bind, read_file. rewrite Hf, universal_text, readlines_text by done.
  unfold write_file, st_ret. do 3 f_equal. unfold text_of. f_equal. rewrite <- !list_fmap_compose.
  apply list_fmap_ext. intros i l Hi%list_elem_of_lookup_2. cbn. by apply Hfg.
Qed.

Lemma step_line kv l :
  entry_ok kv = true → (if sets_key kv.1 (l +:+ sep nl) then line_of kv.1 kv.2 else l +:+ sep nl) = step kv l +:+ sep nl.
Proof.
  intros [[Hk Hp]%andb_prop _]%andb_prop. rewrite sets_key_line by done. unfold step.
  case_decide; [rewrite bool_decide_true|rewrite bool_decide_false]; try done.
  unfold line_of, assignment. by rewrite !sapp_assoc.
Qed.

Lemma found_line kv ls :
  entry_ok kv = true → existsb (sets_key kv.1) ((λ l, l +:+ sep nl) <$> ls) = bool_decide (Some kv.1 ∈ key_of <$> ls).
Proof.
  intros [[Hk Hp]%andb_prop _]%andb_prop. induction ls as [|l ls IH].
  - cbn. symmetry. apply bool_decide_false. apply not_elem_of_nil.
  - cbn [fmap list_fmap existsb]. rewrite sets_key_line, IH by done. rewrite <- bool_decide_or.
    apply bool_decide_ext. rewrite elem_of_cons. split; intros [?|?]; eauto.
Qed.

Lemma step_plain kv l : entry_ok kv = true → plain l = true → plain (step kv l) = true.
Proof. unfold step. case_decide; [|done]. intros. by apply assignment_plain. Qed.

Lemma step_key kv l : entry_ok kv = true → key_of (step kv l) = key_of l.
Proof. intros Hok. unfold step. case_decide as Hd; [|done]. by rewrite key_of_assignment. Qed.

Lemma updated_cons kv props l :
  entry_ok kv = true → kv.1 ∉ props.*1 → updated props (step kv l) = updated (kv :: props) l.
Proof.
  intros Hok Hn. unfold updated. rewrite step_key by done. destruct kv as [k v]. cbn [fst] in *. cbn [dget].
  unfold step. destruct (key_of l) as [k'|]; [|by rewrite decide_False].
  destruct (decide (k' = k)) as [->|Hne].
  - assert (dget k props = None) as -> by (by apply dget_None). by rewrite !decide_True.
  - rewrite (decide_False (P := Some k' = Some k)) by congruence. cbn. by destruct (decide (k' = k)).
Qed.

Lemma update_loop_exact file props ls fs :
  fs !! file = Some (text_of ls) → file_ok ls → Forall (λ kv, entry_ok kv = true) props → NoDup props.*1 →
  update_loop file props fs =
    (Ok ((λ kv, line_of kv.1 kv.2) <$> missing props ls),
     if decide (props = []) then fs else <[file := text_of (updated props <$> ls)]> fs) ∧
  file_ok (updated props <$> ls).
Proof.
  intros Hf Hok Hprops Hnd. revert ls fs Hf Hok. induction Hprops as [|kv props Hkv Hprops IH]; intros ls fs Hf Hok.
  { rewrite decide_True by done. split; [done|]. apply Forall_fmap. eapply Forall_impl; [exact Hok|]. intros l Hl.
    cbn. unfold updated. by destruct (key_of l). }
  rewrite fmap_cons in Hnd. apply NoDup_cons in Hnd as [Hn Hnd].
  assert (Hok1 : file_ok (step kv <$> ls)) by (apply Forall_fmap; eapply Forall_impl; [exact Hok|]; intros; by apply step_plain).
  specialize (IH Hnd (step kv <$> ls) (<[file := text_of (step kv <$> ls)]> fs)).
  rewrite lookup_insert_eq in IH. destruct (IH eq_refl Hok1) as [Hloop Hok2]. clear IH.
  assert (Hupd : updated props <$> (step kv <$> ls) = updated (kv :: props) <$> ls).
  { rewrite <- list_fmap_compose. apply list_fmap_ext. intros i l _. by apply updated_cons. }
  assert (Hkeys : key_of <$> (step kv <$> ls) = key_of <$> ls).
  { rewrite <- list_fmap_compose. apply list_fmap_ext. intros i l _. by apply step_key. }
  rewrite Hupd in Hok2, Hloop. split; [|done]. rewrite decide_False by done. destruct kv as [k v]. cbn [update_loop].
  erewrite st_bind_run; [|apply (rewrite_text file _ (step (k, v)) ls fs Hf Hok); intros l _; by apply (step_line (k, v))].
  erewrite st_bind_run; [|exact Hloop]. unfold st_ret. cbn beta.
  pose proof (found_line (k, v) ls Hkv) as Hfound. cbn [fst] in Hfound. rewrite Hfound. f_equal.
  - unfold missing. rewrite Hkeys. rewrite filter_cons. cbn [fst]. case_bool_decide.
    + by rewrite decide_False by (by intros []).
    + by rewrite decide_True.
  - case_decide as Hnil; [|by rewrite insert_insert_eq]. subst props. do 2 f_equal. rewrite <- Hupd. rewrite <- list_fmap_compose.
    apply list_fmap_ext. intros i l _. cbn. unfold updated. by destruct (key_of (step (k, v) l)).
Qed.

Lemma update_run file props ls fs :
  fs !! file = Some (text_of ls) → file_ok ls → Forall (λ kv, entry_ok kv = true) props → NoDup props.*1 →
  _update_properties_file file props fs =
    (Ok tt, <[file := text_of ((updated props <$> ls) ++ (assignment <$> missing props ls))]> fs).
Proof.
  intros Hf Hok Hprops Hnd. destruct (update_loop_exact file props ls fs Hf Hok Hprops Hnd) as [Hloop _].
  unfold _update_properties_file. erewrite st_bind_run; [|exact Hloop]. unfold append_file. f_equal.
  assert (Hp : String.concat "" ((λ kv, line_of kv.1 kv.2) <$> missing props ls) = text_of (assignment <$> missing props ls)).
  { unfold text_of. f_equal. rewrite <- list_fmap_compose. apply list_fmap_ext. intros i kv _. cbn.
    unfold line_of, assignment. by rewrite !sapp_assoc. }
  rewrite Hp, text_app. case_decide as Hnil.
  - subst props. rewrite Hf. cbn [default from_option id]. do 2 f_equal. unfold text_of. do 2 f_equal.
    symmetry. rewrite <- (list_fmap_id ls) at 2. apply list_fmap_ext. intros i l _. unfold updated. by destruct (key_of l).
  - rewrite lookup_insert_eq, insert_insert_eq. done.
Qed.

(** Updating a properties file: a line that sets a key of the update
    becomes its assignment, every other line is kept, comments included, and
    the keys that no line set are added at the end. *)
Theorem update_properties_exact file props ls fs :
  fs !! file = Some (text_of ls) → file_ok ls → Forall (λ kv, entry_ok kv = true) props → NoDup props.*1 →
  _update_properties_file file props fs =
    (Ok tt, <[file := text_of ((updated props <$> ls) ++ (assignment <$> missing props ls))]> fs).
Proof. apply update_run. Qed.

(** The lines that set a key after the update *)
Definition new_lines (props : list (string * value)) (ls : list string) : list string :=
  (updated props <$> ls) ++ (assignment <$> missing props ls).

Lemma entry_in props k v : Forall (λ kv, entry_ok kv = true) props → dget k props = Some v → entry_ok (k, v) = true.
Proof. rewrite Forall_forall. intros H Hd%dget_Some_elem. by apply (H (k, v)). Qed.

Lemma key_of_updated props l : Forall (λ kv, entry_ok kv = true) props → key_of (updated props l) = key_of l.
Proof.
  intros Hok. unfold updated. destruct (key_of l) as [k|] eqn:Hk; [|done].
  destruct (dget k props) as [v|] eqn:Hd; [|done]. apply (key_of_assignment (k, v)). by eapply entry_in.
Qed.

Lemma new_lines_value props ls k v :
  Forall (λ kv, entry_ok kv = true) props → NoDup props.*1 → dget k props = Some v →
  assignment (k, v) ∈ new_lines props ls ∧ ∀ l, l ∈ new_lines props ls → key_of l = Some k → l = assignment (k, v).
Proof.
  intros Hok Hnd Hd. unfold new_lines. split.
  - apply elem_of_app. destruct (decide (Some k ∈ key_of <$> ls)) as [Hin|Hin].
    + left. apply list_elem_of_fmap in Hin as (l & Hl & Hin). apply list_elem_of_fmap. exists l. split; [|done].
      unfold updated. by rewrite <- Hl, Hd.
    + right. apply list_elem_of_fmap. exists (k, v). split; [done|]. apply list_elem_of_filter.
      split; [done|by apply dget_Some_elem].
  - intros l [Hl|Hl]%elem_of_app Hk.
    + apply list_elem_of_fmap in Hl as (l0 & -> & Hl0). rewrite key_of_updated in Hk by done.
      unfold updated. by rewrite Hk, Hd.
    + apply list_elem_of_fmap in Hl as ([k' v'] & -> & [_ Hkv]%list_elem_of_filter).
      assert (Hok' : entry_ok (k', v') = true) by (by rewrite Forall_forall in Hok; apply Hok).
      rewrite (key_of_assignment (k', v') Hok') in Hk. injection Hk as Hk. cbn in Hk. subst k'.
      apply (dget_elem k v' props Hnd) in Hkv. congruence.
Qed.

Lemma new_lines_ok props ls : Forall (λ kv, entry_ok kv = true) props → file_ok ls → file_ok (new_lines props ls).
Proof.
  intros Hok Hls. unfold file_ok, new_lines. apply Forall_app. split.
  - apply Forall_fmap. eapply Forall_impl; [exact Hls|]. intros l Hl. cbn. unfold updated.
    destruct (key_of l) as [k|]; [|done]. destruct (dget k props) as [v|] eqn:Hd; [|done].
    apply assignment_plain. by eapply entry_in.
  - apply Forall_fmap, Forall_forall. intros kv [_ Hkv]%list_elem_of_filter. rewrite Forall_forall in Hok.
    by apply assignment_plain, Hok.
Qed.

(** ** The numbers of the servers *)

Fixpoint server_entries (index : nat) (hosts : list string) : list (string * value) :=
  match hosts with
  | [] => []
  | host :: hosts' => ("server." +:+ dec (index + 1), VStr (host +:+ ":2888:3888")) :: server_entries (S index) hosts'
  end.

Lemma server_entries_lookup index hosts j h :
  hosts !! j = Some h → ("server." +:+ dec (index + j + 1), VStr (h +:+ ":2888:3888")) ∈ server_entries index hosts.
Proof.
  revert index j. induction hosts as [|h0 hosts IH]; intros index [|j]; [done..| |].
  - intros [= ->]. cbn. rewrite Nat.add_0_r. left.
  - intros Hj. right. replace (index + S j + 1) with (S index + j + 1) by lia. by apply IH.
Qed.

Lemma server_entries_keys index hosts k : k ∈ (server_entries index hosts).*1 → ∃ j, k = "server." +:+ dec j ∧ index < j.
Proof.
  revert index. induction hosts as [|h hosts IH]; intros index; [by intros ?%elem_of_nil|].
  cbn [server_entries fmap list_fmap fst]. intros [->|Hk]%elem_of_cons; [exists (index + 1); split; [done|lia]|].
  destruct (IH (S index) Hk) as (j & -> & Hj). exists j. split; [done|lia].
Qed.
Lemma server_entries_NoDup index hosts : NoDup (server_entries index hosts).*1.
Proof.
  revert index. induction hosts as [|h hosts IH]; intros index; [apply NoDup_nil_2|].
  cbn [server_entries fmap list_fmap fst]. apply NoDup_cons. split; [|apply IH].
  intros (j & Hj%sapp_inj%dec_inj & Hlt)%server_entries_keys. lia.
Qed.

(** The position of a host *)
Fixpoint position (host : string) (hosts : list string) : option nat :=
  match hosts with
  | [] => None
  | h :: hosts' => if decide (h = host) then Some 0 else S <$> position host hosts'
  end.
Lemma position_lookup host hosts i : NoDup hosts → hosts !! i = Some host → position host hosts = Some i.
Proof.
  revert i. induction hosts as [|h hosts IH]; intros i; [done|]. intros [Hn Hnd]%NoDup_cons.
  destruct i as [|i]; cbn; [intros [= ->]; by rewrite decide_True|]. intros Hi.
  rewrite decide_False by (intros ->; by apply Hn, (list_elem_of_lookup_2 _ i)). by rewrite (IH i).
Qed.
Lemma position_None host hosts : host ∉ hosts → position host hosts = None.
Proof.
  induction hosts as [|h hosts IH]; [done|]. intros [Hne Hn]%not_elem_of_cons. cbn.
  rewrite decide_False by done. by rewrite IH.
Qed.

Lemma number_hosts_run hostname several index hosts server zookeeper fs :
  NoDup hosts →
  ∃ fs', number_hosts hostname several index hosts server zookeeper fs =
    (Ok (match position hostname hosts with Some i => dset "broker.id" (VInt (Z.of_nat (index + i))) server | None => server end,
         dupdate zookeeper (server_entries index hosts)), fs') ∧
    ∀ file, file ≠ "/var/lib/zookeeper/myid" → fs' !! file = fs !! file.
Proof.
  intros Hnd. revert index server zookeeper fs. induction hosts as [|h hosts IH]; intros index server zookeeper fs; [by exists fs|].
  apply NoDup_cons in Hnd as [Hn Hnd]. specialize (IH Hnd (index + 1)).
  unfold dupdate. cbn [number_hosts position server_entries foldl fst snd]. replace (S index) with (index + 1) by lia.
  case_decide as Hh.
  - subst h. rewrite position_None in IH by done. rewrite Nat.add_0_r. destruct several.
    + unfold write_file. erewrite st_bind_run; [|reflexivity].
      edestruct IH as (fs' & Heq & Hfs). rewrite Heq. exists fs'. split; [done|]. intros file Hf.
      rewrite Hfs by done. by rewrite lookup_insert_ne.
    + erewrite st_bind_run; [|reflexivity]. edestruct IH as (fs' & Heq & Hfs). rewrite Heq. by exists fs'.
  - edestruct IH as (fs' & Heq & Hfs). rewrite Heq. exists fs'. split; [|done]. do 3 f_equal.
    destruct (position hostname hosts); [|done]. cbn. do 3 f_equal. lia.
Qed.

(** ** The files of a server of a cluster *)

Lemma plain_app s t : plain (s +:+ t) = plain s && plain t.
Proof.
  unfold plain, no_char. rewrite !sforall_app. by destruct (sforall _ s), (sforall _ s), (sforall _ t), (sforall _ t).
Qed.
Lemma plain_join l : Forall (λ s, plain s = true) l → plain (join ", " l) = true.
Proof.
  induction 1 as [|s l Hs Hl IH]; [done|]. destruct l as [|s' l]; [done|].
  change (join ", " (s :: s' :: l)) with (s +:+ ", " +:+ join ", " (s' :: l)). by rewrite !plain_app, Hs, IH.
Qed.
Lemma plain_dec n : plain (dec n) = true.
Proof. unfold plain. by rewrite !dec_no_char. Qed.
Lemma dec_Z_nat n : dec_Z (Z.of_nat n) = dec n.
Proof. unfold dec_Z. rewrite (proj2 (Z.ltb_ge _ _)) by lia. by rewrite Nat2Z.id. Qed.

Definition entries_ok (d : list (string * value)) : Prop := Forall (λ kv, entry_ok kv = true) d ∧ NoDup (dkeys d).

Lemma entries_dset k v d : entry_ok (k, v) = true → entries_ok d → entries_ok (dset k v d).
Proof.
  intros Hkv [Hd Hnd]. split; [|by apply NoDup_dset]. clear Hnd.
  induction Hd as [|[k' v'] d Hk Hd IH]; cbn; [by repeat constructor|]. case_decide; by constructor; subst.
Qed.
Lemma entries_dupdate d1 d2 : Forall (λ kv, entry_ok kv = true) d2 → entries_ok d1 → entries_ok (dupdate d1 d2).
Proof.
  unfold dupdate. intros Hd2. revert d1. induction Hd2 as [|[k v] d2 Hk Hd2 IH]; intros d1 Hd1; [done|].
  cbn. by apply IH, entries_dset.
Qed.

Lemma server_properties_ok hostname port servers :
  plain hostname = true → plain port = true → Forall (λ s, plain (host_of s) = true) servers →
  entries_ok (server_properties hostname port servers).
Proof.
  intros Hh Hp Hs.
  assert (Hz : plain (join ", " ((λ host, host +:+ ":2181") <$> (host_of <$> servers))) = true).
  { apply plain_join. rewrite <- list_fmap_compose. apply Forall_fmap. eapply Forall_impl; [exact Hs|].
    intros s Hpl. cbn. by rewrite plain_app, Hpl. }
  assert (Hl : plain ("PLAINTEXT://" +:+ hostname +:+ ":" +:+ port) = true) by (by rewrite !plain_app, Hh, Hp).
  unfold server_properties. case_decide; [apply entries_dupdate; [repeat constructor|]|];
    (split; [|apply (bool_decide_unpack _); reflexivity]);
    (apply Forall_cons; split; [unfold entry_ok; cbn [fst snd py_str]; by rewrite Hz|]);
    (apply Forall_cons; split; [unfold entry_ok; cbn [fst snd py_str]; by rewrite Hl|]); repeat constructor.
Qed.

Lemma server_entries_ok index hosts :
  Forall (λ h, plain h = true) hosts → Forall (λ kv, entry_ok kv = true) (server_entries index hosts).
Proof.
  intros Hh. revert index. induction Hh as [|h hosts Hp Hh IH]; intros index; [constructor|].
  cbn [server_entries]. constructor; [|apply IH]. unfold entry_ok. cbn [fst snd py_str].
  rewrite !plain_app, Hp, plain_dec. unfold no_char. rewrite sforall_app.
  assert (sforall (λ a, negb (Ascii.eqb a "=")) (dec (index + 1)) = true) as -> by (by apply (dec_no_char "=")). done.
Qed.

Section machine.
Context {W : Type} {H : Machine W}.

Lemma on_files_run {A} (m : ST files A) (fs fs' : files) (w : W) r : m fs = (r, fs') → on_files m (fs, w) = (r, (fs', w)).
Proof. unfold on_files. by intros ->. Qed.

Lemma dirs_run (dirs : list string) (fs : files) (w : W) :
  (∀ d w, (h_makedirs d w).1 = None) → ∃ w', st_iter _create_dir_and_set_kafka_ownership dirs (fs, w) = (Ok tt, (fs, w')).
Proof.
  intros Hd. revert w. induction dirs as [|d dirs IH]; intros w; [by exists w|].
  cbn [st_iter]. unfold _create_dir_and_set_kafka_ownership at 1, on_host, st_bind. specialize (Hd d w).
  destruct (h_makedirs d w) as [e w1]. cbn in Hd. subst e. apply IH.
Qed.

(** Every server of a cluster that is set up from the same list of
    servers takes its position as its number, writes the same entry for every
    server in its ZooKeeper file, and no line of either file says otherwise. *)
Theorem cluster_numbers servers i h port (fs : files) (w : W) ls1 ls2 :
  (∀ d w, (h_makedirs d w).1 = None) →
  fs !! SERVER_PROPERTIES = Some (text_of ls1) → file_ok ls1 →
  fs !! ZOOKEEPER_PROPERTIES = Some (text_of ls2) → file_ok ls2 →
  NoDup (host_of <$> servers) → (host_of <$> servers) !! i = Some h →
  Forall (λ s, plain (host_of s) = true) servers → plain port = true →
  ∃ fs' w' ls1' ls2',
    _set_kafka_config h port servers (fs, w) = (Ok tt, (fs', w')) ∧
    fs' !! SERVER_PROPERTIES = Some (text_of ls1') ∧ fs' !! ZOOKEEPER_PROPERTIES = Some (text_of ls2') ∧
    ("broker.id=" +:+ dec i ∈ ls1' ∧ ∀ l, l ∈ ls1' → key_of l = Some "broker.id" → l = "broker.id=" +:+ dec i) ∧
    ∀ j hj, (host_of <$> servers) !! j = Some hj →
      let key := "server." +:+ dec (j + 1) in
      let line := key +:+ "=" +:+ hj +:+ ":2888:3888" in
      line ∈ ls2' ∧ ∀ l, l ∈ ls2' → key_of l = Some key → l = line.
Proof.
  intros Hdirs Hf1 Hok1 Hf2 Hok2 Hnd Hi Hplain Hport.
  assert (Hhosts : Forall (λ h, plain h = true) (host_of <$> servers)) by (by apply Forall_fmap).
  assert (Hh : plain h = true) by (by rewrite Forall_forall in Hhosts; apply Hhosts, (list_elem_of_lookup_2 _ i)).
  destruct (dirs_run directories fs w Hdirs) as [w' Hd].
  destruct (number_hosts_run h (bool_decide (1 < length servers)) 0 (host_of <$> servers)
    (server_properties h port servers) zookeeper_properties fs Hnd) as (fs1 & Hnum & Hfs1).
  rewrite (position_lookup h _ i Hnd Hi) in Hnum. cbn [Nat.add] in Hnum.
  set (server := dset "broker.id" (VInt (Z.of_nat i)) (server_properties h port servers)) in *.
  set (zookeeper := dupdate zookeeper_properties (server_entries 0 (host_of <$> servers))) in *.
  assert (Hserver : entries_ok server).
  { apply entries_dset; [|by apply server_properties_ok]. unfold entry_ok. cbn [fst snd py_str]. by rewrite dec_Z_nat, plain_dec. }
  assert (Hzoo : entries_ok zookeeper).
  { apply entries_dupdate; [by apply server_entries_ok|]. split; [repeat constructor|].
    apply (bool_decide_unpack _). reflexivity. }
  rewrite <- (Hfs1 SERVER_PROPERTIES) in Hf1 by done. rewrite <- (Hfs1 ZOOKEEPER_PROPERTIES) in Hf2 by done.
  destruct Hserver as [Hs1 Hs2], Hzoo as [Hz1 Hz2].
  pose proof (update_run SERVER_PROPERTIES server ls1 fs1 Hf1 Hok1 Hs1 Hs2) as Hup1.
  fold (new_lines server ls1) in Hup1. set (fs2 := <[SERVER_PROPERTIES := _]> fs1) in Hup1.
  assert (Hf2' : fs2 !! ZOOKEEPER_PROPERTIES = Some (text_of ls2)) by (unfold fs2; by rewrite lookup_insert_ne).
  pose proof (update_run ZOOKEEPER_PROPERTIES zookeeper ls2 fs2 Hf2' Hok2 Hz1 Hz2) as Hup2.
  fold (new_lines zookeeper ls2) in Hup2. set (fs3 := <[ZOOKEEPER_PROPERTIES := _]> fs2) in Hup2.
  exists fs3, w', (new_lines server ls1), (new_lines zookeeper ls2).
  split_and!.
  - unfold _set_kafka_config. erewrite st_bind_run; [|exact Hd]. apply on_files_run.
    erewrite st_bind_run; [|exact Hnum]. cbv beta iota. erewrite st_bind_run; [|exact Hup1]. exact Hup2.
  - unfold fs3, fs2. by rewrite lookup_insert_ne, lookup_insert_eq.
  - unfold fs3. by rewrite lookup_insert_eq.
  - pose proof (new_lines_value server ls1 "broker.id" (VInt (Z.of_nat i)) Hs1 Hs2 (dget_dset_eq _ _ _)) as Hv.
    unfold assignment in Hv. cbn [fst snd py_str] in Hv. rewrite dec_Z_nat in Hv. by apply Hv.
  - pose proof (new_lines_value server ls1 "broker.id" (VInt (Z.of_nat i)) Hs1 Hs2 (dget_dset_eq _ _ _)) as Hv.
    unfold assignment in Hv. cbn [fst snd py_str] in Hv. rewrite dec_Z_nat in Hv. by apply Hv.
  - intros j hj Hj. cbv zeta.
    assert (Hg : dget ("server." +:+ dec (j + 1)) zookeeper = Some (VStr (hj +:+ ":2888:3888"))).
    { apply dget_dupdate_in; [apply server_entries_NoDup|]. apply dget_elem; [apply server_entries_NoDup|].
      by apply (server_entries_lookup 0). }
    exact (new_lines_value zookeeper ls2 _ _ Hz1 Hz2 Hg).
Qed.

(** [post_install] does without a user, and not without the package: the
    error it means to report cannot be built. *)
Lemma post_install_needs_kafka (fs : files) (w : W) :
  let '(out, _, rc) := (h_run "rpm -qa" w).1 in
  rc ≠ 0%Z ∨ contains out "kafka" = false →
  (post_install (fs, w)).1 = Err TypeError.
Proof.
  destruct (h_run "rpm -qa" w) as [[[out err] rc] w1] eqn:Hrun. cbn. intros Hmiss.
  unfold post_install, _validate_kafka_installation, as_setup_error, validate_rpm_pkgs, on_host, st_bind.
  rewrite Hrun. case_decide as Hrc; [done|]. destruct Hmiss as [|Hc]; [done|]. cbn [st_iter]. unfold st_bind. by rewrite Hc.
Qed.

End machine.

(** ** The second server of a cluster of two *)

#[local] Instance plain_machine : Machine unit := {
  h_run _ w := (("kafka-2.7", "", 0%Z), w);
  h_system _ w := w;
  h_makedirs _ w := (None, w);
  h_listdir _ _ := None;
  h_rmtree _ w := (true, w);
  h_remove _ w := (None, w);
  h_pw_gid _ _ := Some 1%Z;
  h_gr_gid _ _ := Some 1%Z;
  h_hostname _ := "n2";
  h_address _ _ := "10.0.0.2"
}.

Definition lines1 : list string := ["# The id of the broker"; "broker.id=0"; ""; "listeners=PLAINTEXT://:9092"].
Definition lines2 : list string := ["dataDir=/tmp/zookeeper"; "# the port"; "clientPort=2181"].
Definition two_files : files := <[SERVER_PROPERTIES := text_of lines1]> {[ZOOKEEPER_PROPERTIES := text_of lines2]}.
Definition cluster : list string := ["n1:9092"; "n2:9092"].

Lemma lines_ok : file_ok lines1 ∧ file_ok lines2.
Proof. split; repeat constructor. Qed.

Lemma update_properties_exact_witness :
  _update_properties_file SERVER_PROPERTIES [("broker.id", VInt 3); ("log.dirs", VStr "/data")] two_files =
    (Ok tt, <[SERVER_PROPERTIES := text_of ["# The id of the broker"; "broker.id=3"; ""; "listeners=PLAINTEXT://:9092"; "log.dirs=/data"]]> two_files).
Proof.
  apply (update_properties_exact SERVER_PROPERTIES [("broker.id", VInt 3); ("log.dirs", VStr "/data")] lines1 two_files);
    [reflexivity|apply lines_ok|repeat constructor|apply (bool_decide_unpack _); reflexivity].
Defined.

Lemma cluster_numbers_witness :
  ∃ fs' w' ls1' ls2',
    _set_kafka_config "n2" "9092" cluster (two_files, tt) = (Ok tt, (fs', w')) ∧
    fs' !! SERVER_PROPERTIES = Some (text_of ls1') ∧ fs' !! ZOOKEEPER_PROPERTIES = Some (text_of ls2') ∧
    ("broker.id=1" ∈ ls1' ∧ ∀ l, l ∈ ls1' → key_of l = Some "broker.id" → l = "broker.id=1") ∧
    ∀ j hj, (host_of <$> cluster) !! j = Some hj →
      let key := "server." +:+ dec (j + 1) in
      let line := key +:+ "=" +:+ hj +:+ ":2888:3888" in
      line ∈ ls2' ∧ ∀ l, l ∈ ls2' → key_of l = Some key → l = line.
Proof.
  apply (cluster_numbers cluster 1 "n2" "9092" two_files tt lines1 lines2);
    [done|reflexivity|apply lines_ok|reflexivity|apply lines_ok|apply (bool_decide_unpack _); reflexivity|reflexivity
    |repeat constructor|done].
Defined.

End KafkaSpec.
