(* ===== verification/Validator.v ===== *)
(** [utils/validator]: checks of the network, paths, services, packages,
    storage, BMC, controller and configuration of the nodes.

    A check runs commands and raises [VError] on the first answer that is not
    as it should be.  The machine is the class [Nodes]: commands that can be
    started, SSH sessions, name resolution and HTTP.  Arguments are lists of
    strings. *)
From Stdlib Require Import Ascii.
From S2P Require Import Prelude PyStr PyVal KvFiles Release ConfStore.
Import PyStr Files.

Module Validator.

Definition ECOMM : Z := 70.
Definition ECONNREFUSED : Z := 111.

(** The answer to a GET request, or the exception of [requests] *)
Inductive http_answer := Status (code : Z) | InvalidURL | ConnectionError | RequestException.

Class Nodes (W : Type) := {
  n_run : string → W → (string * string * Z) * W;             (* stdout, stderr, rc of SimpleProcess *)
  n_resolve : string → W → option string;                     (* gethostbyname *)
  n_user : W → string;                                        (* the name of the user of the process *)
  n_fqdn : W → string;
  n_ssh : string → string → string → W → bool * W;            (* SSHChannel(host, user, password) *)
  n_execute : string → string → W → (Z * string) * W;         (* session.execute on a host *)
  n_disconnect : string → W → W;
  n_http : string → W → http_answer
}.

Section validator.
Context {W : Type} {N : Nodes W}.

Definition run (cmd : string) : ST W (string * string * Z) := λ w, let '(r, w') := n_run cmd w in (Ok r, w').
Definition ask {A} (f : W → A) : ST W A := λ w, (Ok (f w), w).
Definition invalid {A} : ST W A := st_raise (VError EINVAL).

(** [if run_result[1] or run_result[2]: raise VError(rc, ...)]; the output *)
Definition run_clean (rc : Z) (cmd : string) : ST W string :=
  let! (stdout, stderr, code) := run cmd in
  if decide (stderr ≠ "" ∨ code ≠ 0%Z) then st_raise (VError rc) else st_ret stdout.

(** [int(out.decode('utf-8').strip())] *)
Definition int_of_output (out : string) : res Z := Release.py_int (VStr (strip out)).

(** ** [NetworkV] *)

Definition _is_valid_ipv4_part (ip_part : string) : bool :=
  match Release.py_int (VStr ip_part) with
  | Ok z => bool_decide (dec_Z z = ip_part) && (0 <=? z)%Z && (z <=? 255)%Z
  | Err _ => false
  end.

(** [ip.count(".") == 3 and all(...)] *)
Definition _is_ip (ip : string) : bool :=
  let parts := split "." ip in
  bool_decide (length parts = 4) && forallb _is_valid_ipv4_part parts.

Definition _resolve_host (host : string) : ST W string :=
  let! r := ask (n_resolve host) in
  match r with Some ip => st_ret ip | None => invalid end.

Fixpoint ping_all (ips : list string) : ST W (list string) :=
  match ips with
  | [] => st_ret []
  | ip :: ips' =>
      if _is_ip ip then
        let! (_, _, rc) := run ("ping -c 1 -W 1 " +:+ ip) in
        let! unreachable_ips := ping_all ips' in
        st_ret (if decide (rc = 0%Z) then unreachable_ips else ip :: unreachable_ips)
      else invalid
  end.
Definition validate_ip_connectivity (ips : list string) : ST W unit :=
  let! unreachable_ips := ping_all ips in
  if decide (unreachable_ips = []) then st_ret tt else st_raise (VError ECONNREFUSED).

Definition validate_host_connectivity (hosts : list string) : ST W unit :=
  st_iter (λ host,
    let! ip := (if _is_ip host then st_ret host else _resolve_host host) in
    validate_ip_connectivity [ip]) hosts.

Definition validate_passwordless_ssh (user : string) (nodes : list string) : ST W unit :=
  st_iter (λ node,
    run_clean ECONNREFUSED ("ssh -o PreferredAuthentications=publickey -o StrictHostKeyChecking=no " +:+
                            user +:+ "@" +:+ node +:+ " /bin/true") ;;;
    st_ret tt) nodes.

Definition validate_network_drivers (driver : string) (nodes : list string) : ST W unit :=
  st_iter (λ node, run_clean EINVAL ("ssh " +:+ node +:+ " rpm -qa | grep " +:+ driver) ;;; st_ret tt) nodes.

Definition hca_checks : list string := ["mellanox"].

(** The only provider in capitals is [Mellanox]. *)
Definition validate_hca (provider : string) (nodes : list string) : ST W unit :=
  st_iter (λ node,
    if decide (lower provider ∈ hca_checks) then
      let cmd := "ssh " +:+ node +:+ " lspci -nn | grep 'Mellanox'" in
      run_clean EINVAL cmd ;;;
      let! out := run_clean EINVAL (cmd +:+ " | wc -l") in
      let! n := st_lift (int_of_output out) in
      if decide (n = 0%Z) then invalid else st_ret tt
    else st_ret tt) nodes.

Definition validate_network (v_type : string) (args : list string) : ST W unit :=
  if decide (v_type = "connectivity") then
    if decide (length args < 1) then invalid else validate_host_connectivity args
  else
    match args with
    | a0 :: (_ :: _) as rest =>
        let rest := tail args in
        if decide (v_type = "passwordless") then validate_passwordless_ssh a0 rest
        else if decide (v_type = "drivers") then validate_network_drivers a0 rest
        else if decide (v_type = "hca") then
          if decide (lower a0 ∈ hca_checks) then validate_hca a0 rest else invalid
        else invalid
    | _ => invalid
    end.

(** [NetworkV().validate('passwordless', [user, host])] of the validators that
    take a host *)
Definition passwordless (host : option string) : ST W unit :=
  match host with
  | Some h => if decide (h = "") then st_ret tt else
              let! user := ask n_user in validate_network "passwordless" [user; h]
  | None => st_ret tt
  end.

(** ** [PathV] *)

Definition stat_type (_type : string) : option string :=
  if decide (_type = "file") then Some "regular file"
  else if decide (_type = "dir") then Some "directory"
  else if decide (_type = "link") then Some "symbolic link"
  else if decide (_type = "device") then Some "block special file"
  else None.

Definition stat_cmd (host : option string) (_path : string) : string :=
  match host with
  | Some h => "ssh " +:+ h +:+ " stat " +:+ _path +:+ " --printf=%F"
  | None => "stat " +:+ _path +:+ " --printf=%F"
  end.

Definition validate_path (host : option string) (path : string) : ST W unit :=
  match split ":" path with
  | _type :: _path :: _ =>
      match stat_type _type with
      | None => invalid
      | Some found =>
          if decide (_path = "") then invalid else
          let! (result, stderr, retcode) := run (stat_cmd host _path) in
          if decide (retcode ≠ 0%Z) then invalid
          else if decide (stderr ≠ "") then invalid
          else if contains result found then st_ret tt else invalid
      end
  | _ => invalid
  end.
Definition validate_paths (host : option string) (paths : list string) : ST W unit :=
  st_iter (validate_path host) paths.

Definition validate_path_command (v_type : string) (args : list string) (host : option string) : ST W unit :=
  passwordless host ;;;
  if decide (v_type = "exists") then validate_paths host args else invalid.

(** ** [ServiceV] *)

Definition validate_services (host : option string) (services : list string) : ST W unit :=
  st_iter (λ service,
    let cmd := match host with
               | Some h => "ssh " +:+ h +:+ " systemctl status " +:+ service
               | None => "systemctl status " +:+ service
               end in
    let! (_, stderr, retcode) := run cmd in
    if decide (retcode ≠ 0%Z) then invalid else if decide (stderr ≠ "") then invalid else st_ret tt) services.

Definition validate_service_command (v_type : string) (args : list string) (host : option string) : ST W unit :=
  passwordless host ;;;
  if decide (v_type = "isrunning") then validate_services host args else invalid.

(** ** [StorageV] *)

Definition validate_hba (provider : string) (nodes : list string) : ST W unit :=
  st_iter (λ node,
    if decide (lower provider = "lsi") then
      run_clean EINVAL ("ssh " +:+ node +:+ " lspci -nn | grep 'SCSI'") ;;;
      let! out := run_clean EINVAL ("ssh " +:+ node +:+ " ls /sys/class/scsi_host/ | wc -l") in
      let! n := st_lift (int_of_output out) in
      if decide (n = 0%Z) then invalid else st_ret tt
    else st_ret tt) nodes.

(** [bytes.splitlines()] *)
Definition splitlines (s : string) : list string :=
  let l := split nl (universal_newlines s) in
  if decide (List.last l "" = "") then removelast l else l.

Definition luns_accessible (node : string) : ST W unit :=
  let! out := run_clean EINVAL ("ssh " +:+ node +:+ " lsblk -S | grep sas | wc -l") in
  let! n := st_lift (int_of_output out) in
  if decide (n = 0 ∨ n `mod` 16 ≠ 0)%Z then invalid else st_ret tt.
Definition luns_size (node : string) : ST W unit :=
  let! out := run_clean EINVAL ("ssh " +:+ node +:+ " lsscsi -s | grep -e disk | grep -e SEAGATE | awk '{print $7}'") in
  if decide (length (remove_dups (splitlines out)) ≠ 1) then invalid else st_ret tt.
(** Both commands are run before either answer is looked at. *)
Definition luns_mapped (node : string) : ST W unit :=
  let! (out1, err1, rc1) := run ("ssh " +:+ node +:+ " multipath -ll | grep prio=50 | wc -l") in
  let! (out2, err2, rc2) := run ("ssh " +:+ node +:+ " multipath -ll | grep prio=10 | wc -l") in
  if decide (err1 ≠ "" ∨ rc1 ≠ 0%Z ∨ err2 ≠ "" ∨ rc2 ≠ 0%Z) then invalid else
  let! n1 := st_lift (int_of_output out1) in
  if decide (n1 ≠ 16%Z) then invalid else
  let! n2 := st_lift (int_of_output out2) in
  if decide (n2 ≠ 16%Z) then invalid else st_ret tt.

Definition validate_luns (v_check : string) (nodes : list string) : ST W unit :=
  st_iter (λ node,
    if decide (v_check = "accessible") then luns_accessible node
    else if decide (v_check = "size") then luns_size node
    else if decide (v_check = "mapped") then luns_mapped node
    else st_ret tt) nodes.

Definition validate_lvm (nodes : list string) : ST W unit :=
  st_iter (λ node,
    run_clean EINVAL ("ssh " +:+ node +:+ " vgdisplay | grep vg_metadata_" +:+ node) ;;;
    let! out := run_clean EINVAL ("ssh " +:+ node +:+ " vgdisplay | grep vg_metadata | wc -l") in
    if decide (strip out = "") then invalid else
    let! n := st_lift (int_of_output out) in
    if decide (n ≠ Z.of_nat (length nodes)) then invalid else st_ret tt) nodes.

Definition validate_storage (v_type : string) (args : list string) : ST W unit :=
  if decide (v_type = "lvms") then
    if decide (length args < 1) then invalid else validate_lvm args
  else
    match args with
    | a0 :: _ :: _ =>
        if decide (v_type = "luns") then
          if decide (a0 ∈ ["accessible"; "mapped"; "size"]) then validate_luns a0 (tail args) else invalid
        else if decide (v_type = "hba") then
          if decide (lower a0 ∈ ["lsi"]) then validate_hba a0 (tail args) else invalid
        else invalid
    | _ => invalid
    end.

(** ** [HttpService], [ElasticsearchV], [ConsulV] *)

Definition validate_service_status (host port service_url : string) : ST W unit :=
  let! a := ask (n_http ("http://" +:+ host +:+ ":" +:+ port +:+ service_url)) in
  match a with
  | Status code => if decide (code = 200%Z) then st_ret tt else st_raise (VError ECOMM)
  | InvalidURL => invalid
  | ConnectionError => st_raise (VError ECONNREFUSED)
  | RequestException => st_raise (VError ECOMM)
  end.

Definition validate_http (service_url v_type : string) (args : list string) : ST W unit :=
  match args with
  | host :: port :: _ =>
      if decide (v_type = "service") then validate_service_status host port service_url else invalid
  | _ => invalid
  end.
Definition validate_elasticsearch : string → list string → ST W unit := validate_http "".
Definition validate_consul : string → list string → ST W unit := validate_http "/v1/status/leader".

(** ** [BmcV] *)

Definition execute (node cmd : string) : ST W (Z * string) := λ w, let '(r, w') := n_execute node cmd w in (Ok r, w').
Definition session_ok (rc_error : Z) (node cmd : string) : ST W string :=
  let! (rc, output) := execute node cmd in
  if decide (rc ≠ 0%Z) then st_raise (VError rc_error) else st_ret output.

(** [output.split()[-1]] *)
Definition last_word (s : string) : res string :=
  match filter (λ x, x ≠ "") (split " " (smap (λ c, if is_space c then " "%char else c) s)) with
  | [] => Err IndexError
  | l => Ok (List.last l "")
  end.

Definition __get_bmc_ip (node : string) : ST W string :=
  let! output := session_ok EINVAL node "ipmitool lan print 1 | grep 'IP Address'" in
  st_lift (last_word output).
Definition __ping_bmc (node : string) : ST W unit :=
  let! ip := __get_bmc_ip node in
  session_ok ECONNREFUSED node ("ping -c 1 -W 1 " +:+ ip) ;;; st_ret tt.

Definition channel_cmd : string := "channel info".
Definition validate_inband_bmc_channel (node : string) : ST W bool :=
  session_ok EINVAL node ("ipmitool " +:+ channel_cmd) ;;; st_ret true.
Definition validate_bmc_channel_over_lan (node bmc_ip bmc_user bmc_passwd : string) : ST W bool :=
  session_ok EINVAL node ("ipmitool -H " +:+ bmc_ip +:+ " -U " +:+ bmc_user +:+ " -P " +:+ bmc_passwd +:+
                          " -I lan " +:+ channel_cmd) ;;; st_ret true.
Definition validate_bmc_accessibility (node bmc_ip bmc_user bmc_passwd : string) : ST W unit :=
  validate_inband_bmc_channel node ;;;
  validate_bmc_channel_over_lan node bmc_ip bmc_user bmc_passwd ;;;
  __ping_bmc node.
Definition validate_bmc_stonith_config (node bmc_ip bmc_user bmc_passwd : string) : ST W unit :=
  session_ok EINVAL node ("fence_ipmilan -P -a " +:+ bmc_ip +:+ " -o status -l " +:+ bmc_user +:+ " -p " +:+ bmc_passwd) ;;;
  st_ret tt.

Definition ssh (host user password : string) : ST W bool := λ w, let '(b, w') := n_ssh host user password w in (Ok b, w').
Definition disconnect (host : string) : ST W unit := λ w, (Ok tt, n_disconnect host w).

(** A session that cannot be opened raises an exception of the SSH library. *)
Definition validate_bmc (v_type : string) (args : list string) : ST W unit :=
  match args with
  | [node; bmc_ip; bmc_user; bmc_passwd] =>
      let! opened := ssh node "root" "" in
      if opened : bool then
        (if decide (v_type = "accessible") then validate_bmc_accessibility node bmc_ip bmc_user bmc_passwd
         else if decide (v_type = "stonith") then validate_bmc_stonith_config node bmc_ip bmc_user bmc_passwd
         else invalid) ;;;
        disconnect node
      else st_raise PlainException
  | _ => invalid
  end.

(** ** [ControllerV] *)

Definition version_cmd : string := "show versions".
Definition success_msg : string := "Command completed successfully".

Definition validate_controller_accessibility (ip username password : string) : ST W unit :=
  let! opened := ssh ip username password in
  if opened : bool then
    disconnect ip ;;;
    let! (_, _, rc) := run ("ping -c 1 -W 1 " +:+ ip) in
    if decide (rc ≠ 0%Z) then invalid else st_ret tt
  else invalid.

(** The expected versions: a string, or any of a list *)
Definition supported (mc_expected : string + list string) (output : string) : bool :=
  match mc_expected with
  | inl s => negb (bool_decide (s = "")) && contains output s
  | inr l => existsb (λ ver, contains output ver && negb (bool_decide (ver = ""))) l
  end.
Definition validate_firmware (ip username password : string) (mc_expected : string + list string) : ST W unit :=
  let! opened := ssh ip username password in
  if opened : bool then
    let! (rc, output) := execute ip version_cmd in
    if decide (rc ≠ 0%Z ∨ contains output success_msg = false) then invalid
    else if supported mc_expected output then disconnect ip else invalid
  else invalid.
Definition validate_controller (v_type : string) (args : list string) : ST W unit :=
  if decide (v_type = "accessible") then
    match args with [ip; u; p] => validate_controller_accessibility ip u p | _ => invalid end
  else if decide (v_type = "firmware") then
    match args with [ip; u; p; mc] => validate_firmware ip u p (inl mc) | _ => invalid end
  else invalid.

End validator.

(** ** [ConfKeysV] *)

Section confkeys.
Context {W : Type}.

Definition validate_keys (index : string) (keylist : list string) : ST (Conf.singleton (W:=W)) unit :=
  st_iter (λ key,
    let! v := Conf.conf_call (Conf.get index key) in
    if is_null v then st_raise (VError ENOENT) else st_ret tt) keylist.
Definition validate_confkeys (v_type index : string) (keylist : list string) : ST (Conf.singleton (W:=W)) unit :=
  if decide (v_type = "exists") then validate_keys index keylist else st_raise (VError EINVAL).

End confkeys.
End Validator.
