(* ===== verification/ValidatorSpec.v ===== *)
(** What the validators promise: the addresses they take are exactly the
    dotted quads, and a check of paths passes exactly when every path is what
    it is said to be. *)
From Stdlib Require Import Ascii.
From S2P Require Import Prelude PyStr PyVal KvFiles Release Validator.
Import PyStr Files Validator.

Module ValidatorSpec.

(** ** Addresses *)

Lemma part_dec n : n ≤ 255 → _is_valid_ipv4_part (dec n) = true.
Proof.
  intros Hn. assert (Hall : forallb (λ n, _is_valid_ipv4_part (dec n)) (seq 0 256) = true) by (vm_compute; reflexivity).
  rewrite forallb_forall in Hall. apply Hall, in_seq. lia.
Qed.

Lemma part_exact p : _is_valid_ipv4_part p = true ↔ ∃ n, n ≤ 255 ∧ p = dec n.
Proof.
  split; [|intros (n & Hn & ->); by apply part_dec]. unfold _is_valid_ipv4_part.
  destruct (Release.py_int (VStr p)) as [z|e]; [|done]. intros [[Hp%bool_decide_eq_true H0%Z.leb_le]%andb_prop H1%Z.leb_le]%andb_prop.
  exists (Z.to_nat z). split; [lia|]. rewrite <- Hp. unfold dec_Z. by rewrite (proj2 (Z.ltb_ge z 0)) by lia.
Qed.

Definition quad (a b c d : nat) : string := join "." [dec a; dec b; dec c; dec d].

(** The network checks take for an address exactly the dotted quads of
    numbers up to 255, written without signs, spaces or leading zeros. *)
Theorem is_ip_exact ip :
  _is_ip ip = true ↔ ∃ a b c d, a ≤ 255 ∧ b ≤ 255 ∧ c ≤ 255 ∧ d ≤ 255 ∧ ip = quad a b c d.
Proof.
  unfold _is_ip. split.
  - intros [Hlen%bool_decide_eq_true Hall]%andb_prop. rewrite <- (join_split "." ip).
    destruct (split "." ip) as [|p1 [|p2 [|p3 [|p4 [|? ?]]]]]; try done. cbn [forallb] in Hall.
    rewrite !andb_true_iff in Hall. destruct Hall as (H1 & H2 & H3 & H4 & _).
    apply part_exact in H1 as (a & Ha & ->), H2 as (b & Hb & ->), H3 as (c & Hc & ->), H4 as (d & Hd & ->).
    by exists a, b, c, d.
  - intros (a & b & c & d & Ha & Hb & Hc & Hd & ->). unfold quad. change "." with (sep ".").
    rewrite split_join; [|done|repeat constructor; by apply dec_no_char].
    cbn [forallb length]. by rewrite !part_dec.
Qed.

(** ** Paths *)

Section paths.
Context {W : Type} {N : Nodes W}.
(** Commands that look change nothing. *)
Context (quiet : ∀ cmd w, (n_run cmd w).2 = w).

(** A path is what it is said to be: [stat] prints the name of its type. *)
Definition path_ok (host : option string) (w : W) (path : string) : Prop :=
  ∃ _type _path rest found out,
    split ":" path = _type :: _path :: rest ∧ stat_type _type = Some found ∧ _path ≠ "" ∧
    (n_run (stat_cmd host _path) w).1 = (out, "", 0%Z) ∧ contains out found = true.

Lemma validate_path_run host path w :
  (validate_path host path w = (Ok tt, w) ∧ path_ok host w path) ∨
  (validate_path host path w = (Err (VError EINVAL), w) ∧ ¬ path_ok host w path).
Proof.
  unfold validate_path. destruct (split ":" path) as [|_type [|_path rest]] eqn:Hs;
    [right; split; [done|]; intros (?&?&?&?&?&?&_); congruence..|].
  destruct (stat_type _type) as [found|] eqn:Hty;
    [|right; split; [done|]; intros (?&?&?&?&?&?&?&_); congruence].
  case_decide as Hp; [right; split; [done|]; intros (?&?&?&?&?&?&?&?&_); congruence|].
  unfold st_bind, run. pose proof (quiet (stat_cmd host _path) w) as Hq.
  destruct (n_run (stat_cmd host _path) w) as [[[out err] rc] w'] eqn:Hrun. cbn in Hq. subst w'.
  assert (Hne : ∀ P : Prop, (∀ found', stat_type _type = Some found' → (out, err, rc) = (out, "", 0%Z) → contains out found' = true → P) →
            path_ok host w path → P).
  { intros P HP (t & q & r & f & o & Hs' & Hty' & _ & Ho & Hc). rewrite Hs in Hs'. injection Hs' as <- <- <-.
    rewrite Hrun in Ho. cbn in Ho. injection Ho as -> -> ->. by eapply HP. }
  case_decide as Hrc; [right; split; [done|]; refine (Hne False _); by intros f' Hf' [= -> ->]|].
  case_decide as Herr; [right; split; [done|]; refine (Hne False _); by intros f' Hf' [= -> ->]|].
  subst. destruct (contains out found) eqn:Hc.
  - left. split; [done|]. exists _type, _path, rest, found, out. split_and!; try done. by rewrite Hrun.
  - right. split; [done|]. refine (Hne False _). intros f' Hf' _ Hc'. congruence.
Qed.

(** The check of paths returns exactly when every path is what it is said
    to be, and otherwise raises [VError] with [EINVAL]. *)
Theorem validate_paths_exact host paths w :
  (validate_paths host paths w = (Ok tt, w) ∧ Forall (path_ok host w) paths) ∨
  (validate_paths host paths w = (Err (VError EINVAL), w) ∧ ¬ Forall (path_ok host w) paths).
Proof.
  induction paths as [|path paths IH]; [by left|]. unfold validate_paths in *. cbn [st_iter]. unfold st_bind.
  destruct (validate_path_run host path w) as [[-> Hp]|[-> Hp]].
  - destruct IH as [[-> IH]|[-> IH]]; [left|right]; (split; [done|]).
    + by constructor.
    + by intros [_ ?]%Forall_cons.
  - right. split; [done|]. by intros [? _]%Forall_cons.
Qed.

End paths.

(** ** A node with one directory *)

#[local] Instance one_node : Nodes unit := {
  n_run cmd w := (if decide (cmd = "stat /etc --printf=%F") then ("directory", "", 0%Z)
                  else ("", "stat: cannot stat", 1%Z), w);
  n_resolve _ _ := None;
  n_user _ := "root";
  n_fqdn _ := "n1";
  n_ssh _ _ _ w := (false, w);
  n_execute _ _ w := ((1%Z, ""), w);
  n_disconnect _ w := w;
  n_http _ _ := ConnectionError
}.

Lemma validate_paths_exact_witness :
  validate_paths None ["dir:/etc"] tt = (Ok tt, tt) ∧ validate_paths None ["dir:/etc"; "file:/etc"] tt = (Err (VError EINVAL), tt) ∧
  ¬ Forall (path_ok None tt) ["dir:/etc"; "file:/etc"].
Proof.
  split; [reflexivity|]. split; [reflexivity|].
  assert (quiet : ∀ cmd (w : ()), (n_run cmd w).2 = w) by reflexivity.
  destruct (validate_paths_exact quiet None ["dir:/etc"; "file:/etc"] tt) as [[H _]|[_ H]]; [discriminate H|exact H].
Defined.

End ValidatorSpec.
