(* ===== verification/SchemaDoc.v ===== *)
(** [utils/schema/payload.py] and [utils/schema/conf.py]: documents in files
    ([Doc] and its formats), [Payload] and [CommonPayload] over them, and the
    process-wide table [Conf] of payloads; with the operations of [os] and
    [shutil] they and their clients use on the tree of files of [KvDir].

    The document formats and the archives of [tarfile] are parameters.  The
    [Ini] documents and the attribute views [ConfSection] and [DebugConf] are
    not modelled. *)
From Stdlib Require Import Ascii.
From stdpp Require Import countable.
From S2P Require Import Prelude PyStr PyVal KvFiles KvDir.
Import PyStr Dir.

(** ** [os] and [shutil] on the tree *)

Module Shutil.

Notation tree := (gmap (list string) node).

Definition EEXIST : Z := 17.

Section shutil.
Context (cwd : list string).

(** [os.path.dirname(path)]: what comes before the last slash, without the
    slashes at its end unless there is nothing else. *)
Fixpoint strip_slashes (s : string) : string :=
  match s with
  | EmptyString => EmptyString
  | String c s' =>
      match strip_slashes s' with
      | EmptyString => if Ascii.eqb c "/" then EmptyString else sep c
      | r => String c r
      end
  end.
Fixpoint head_part (s : string) : string :=
  match s with
  | EmptyString => EmptyString
  | String c s' => if no_char "/" s' then (if Ascii.eqb c "/" then "/" else EmptyString) else String c (head_part s')
  end.
Definition dirname (path : string) : string :=
  let head := head_part path in
  if decide (strip_slashes head = "") then head else strip_slashes head.

(** [os.makedirs(path)]: the directory must not be there. *)
Definition makedirs_new (path : string) : ST tree unit := λ fs,
  if os_exists cwd fs path then (Err (OSError EEXIST), fs) else makedirs cwd path fs.

(** What is at or below a place. *)
Definition under (p q : list string) : Prop := take (length p) q = p.
#[global] Instance under_dec p q : Decision (under p q).
Proof. unfold under. apply _. Defined.

Definition rmtree (path : string) : ST tree unit := λ fs,
  match resolve fs cwd path with
  | Err e => (Err e, fs)
  | Ok p =>
      match node_at fs p with
      | Some FDir => (Ok tt, filter (λ qn, ¬ under p qn.1) fs)
      | Some (FFile _) => (Err (OSError ENOTDIR), fs)
      | None => (Err (OSError ENOENT), fs)
      end
  end.

(** [os.listdir(path)], in the order of the tree *)
Definition entries (fs : tree) (p : list string) : list string := omap (λ qn, child p qn.1) (map_to_list fs).
Definition listdir (fs : tree) (path : string) : res (list string) :=
  p ← resolve fs cwd path;
  match node_at fs p with
  | Some FDir => Ok (entries fs p)
  | Some (FFile _) => Err (OSError ENOTDIR)
  | None => Err (OSError ENOENT)
  end.

(** The bytes of a file *)
Definition read_bytes (fs : tree) (path : string) : res string :=
  p ← resolve fs cwd path;
  match node_at fs p with
  | Some (FFile s) => Ok s
  | Some FDir => Err (OSError EISDIR)
  | None => Err (OSError ENOENT)
  end.
Definition copyfile (src dst : string) : ST tree unit :=
  let! s := (λ fs, (read_bytes fs src, fs)) in write_path cwd dst (VStr s).

(** [shutil.move(src, dst)] of a file: into [dst] when that is a directory. *)
Definition move_file (src dst : string) : ST tree unit := λ fs,
  let real_dst := if os_isdir cwd fs dst then path_join dst (List.last (split "/" src) "") else dst in
  if os_isdir cwd fs dst && os_exists cwd fs real_dst then (Err PlainException, fs) else
  match read_bytes fs src with
  | Err e => (Err e, fs)
  | Ok s => (write_path cwd real_dst (VStr s) ;;; os_remove cwd src) fs
  end.

(** [shutil.copytree(src, dst, ignore=ignore_patterns(name))], for a [dst] that
    is not below [src]. *)
Definition copied (p q : list string) (ignored : string) (fs : tree) : tree :=
  list_to_map (omap (λ kn,
    let rel := drop (length p) kn.1 in
    if decide (under p kn.1 ∧ rel ≠ [] ∧ ignored ∉ rel) then Some (q ++ rel, kn.2) else None) (map_to_list fs)).
Definition copytree (src dst ignored : string) : ST tree unit := λ fs,
  match resolve fs cwd src with
  | Err e => (Err e, fs)
  | Ok p =>
      match node_at fs p with
      | Some FDir =>
          match makedirs_new dst fs with
          | (Err e, fs1) => (Err e, fs1)
          | (Ok _, fs1) =>
              match resolve fs1 cwd dst with
              | Err e => (Err e, fs1)
              | Ok q => (Ok tt, copied p q ignored fs ∪ fs1)
              end
          end
      | Some (FFile _) => (Err (OSError ENOTDIR), fs)
      | None => (Err (OSError ENOENT), fs)
      end
  end.

End shutil.
End Shutil.

(** ** Documents *)

Module Schema.

Notation tree := (gmap (list string) node).

Inductive kind := Toml | Json | Yaml | Text | Tar.

(** The libraries behind the formats: what is written for the data, which may
    be refused, and what is read, which may be refused too; and the bytes of an
    archive of some files of the tree. *)
Class Libraries := {
  lib_loads : kind → string → res value;
  lib_dumps : kind → value → res string;
  lib_tar : tree → list string → string
}.

Section docs.
Context {L : Libraries} (cwd : list string).

(** *** [_load] and [_dump] of the formats *)

Definition _load (k : kind) (source : string) (fs : tree) : res value :=
  match k with
  | Tar => Err AttributeError
  | Text => s ← read_path cwd fs source; Ok (VStr s)
  | _ => s ← read_path cwd fs source; lib_loads k s
  end.

(** The file is emptied when it is opened. *)
Definition dump_text (source : string) (text : res string) : ST tree unit :=
  write_path cwd source (VStr "") ;;;
  let! s := st_lift text in write_path cwd source (VStr s).

Definition _dump (k : kind) (source : string) (data : value) : ST tree unit :=
  match k with
  | Text => write_path cwd source data
  | Tar =>
      match data with
      | VList files =>
          write_path cwd source (VStr "") ;;;
          let! names := st_lift (res_map (λ f, match f with VStr s => Ok s | _ => Err TypeError end) files) in
          st_iter (λ f fs, (if os_exists cwd fs f then Ok tt else Err (OSError ENOENT), fs)) names ;;;
          (λ fs, write_path cwd source (VStr (lib_tar fs names)) fs)
      | _ => st_raise TypeError
      end
  | _ => dump_text source (lib_dumps k data)
  end.

(** *** [Doc.load] and [Doc.dump] *)

Definition load (k : kind) (source : string) (fs : tree) : res value :=
  if negb (os_exists cwd fs source) then Ok (VDict [])
  else match _load k source fs with Ok v => Ok v | Err _ => Err PlainException end.

Definition dump (k : kind) (source : string) (data : value) : ST tree unit := λ fs,
  let dir_path := Shutil.dirname source in
  (if negb (bool_decide (dir_path = "")) && negb (os_exists cwd fs dir_path)
   then Shutil.makedirs_new cwd dir_path ;;; _dump k source data
   else _dump k source data) fs.

(** *** [JsonMessage]: its source is the text itself. *)

Definition message_load (source : string) : res value := lib_loads Json source.
Definition message_dump (data : value) : ST string unit := λ source,
  match lib_dumps Json data with Ok s => (Ok tt, s) | Err e => (Err e, source) end.

(** *** [CommonPayload]: the format by the extension of the file *)

(** [os.path.splitext(path)[1]]: from the last dot of the last component,
    unless only dots come before it. *)
Fixpoint last_dot (s : string) : string :=
  match s with
  | EmptyString => EmptyString
  | String c s' => if Ascii.eqb c "." && no_char "." s' then s else last_dot s'
  end.
Fixpoint lstrip_dots (s : string) : string :=
  match s with
  | String c s' => if Ascii.eqb c "." then lstrip_dots s' else s
  | EmptyString => EmptyString
  end.
Definition splitext (path : string) : string := last_dot (lstrip_dots (List.last (split "/" path) "")).

(** [None]: the [Ini] documents *)
Definition doc_classes : list (string * option kind) :=
  [("json", Some Json); ("toml", Some Toml); ("yaml", Some Yaml); ("ini", None); ("yml", Some Yaml); ("txt", Some Text)].

Definition get_doc_type (source : string) : res (option kind) :=
  let extension := lower (strip (sdrop 1 (splitext source))) in
  let extension := if decide (extension = "") then "txt" else extension in
  match dget extension doc_classes with Some k => Ok k | None => Err KeyError end.

Definition common_load (k : kind) (source : string) (fs : tree) : res value := _load k source fs.
Definition common_dump (k : kind) (source : string) (data : value) : ST tree unit := _dump k source data.

(** ** [Payload]

    [load] keeps the method [self._doc.load] and not what it returns: the data
    of a payload is a method object, whatever was called on it. *)

Inductive doc := FileDoc (k : kind) (source : string) | DictDoc (data : option value) | MessageDoc (text : string).

Record payload := Payload { pl_dirty : bool; pl_doc : doc }.

Definition payload_load : ST payload unit := λ p, (if pl_dirty p then Err PlainException else Ok tt, p).
Definition payload_init (d : doc) : payload := Payload false d.

(** [data.keys()] of a method *)
Definition payload_get (key : string) : ST payload value := st_raise AttributeError.
(** [data[k] = val] of a method, once the key has no dot *)
Definition payload_set (key : string) (val : value) : ST payload unit :=
  match split1 "." key with
  | (_, None) => st_raise TypeError
  | _ => st_raise AttributeError
  end.

(** What the writers make of a method *)
Context (dump_method : kind → res string).

(** [dump]: [None] stands for the method in the data of a dictionary document. *)
Definition payload_dump : ST (payload * tree) unit := λ '(p, fs),
  match pl_doc p with
  | DictDoc _ => (Ok tt, (Payload false (DictDoc None), fs))
  | MessageDoc text =>
      match dump_method Json with
      | Ok s => (Ok tt, (Payload false (MessageDoc s), fs))
      | Err e => (Err e, (p, fs))
      end
  | FileDoc k source =>
      let dir_path := Shutil.dirname source in
      let write := match k with
                   | Text => write_path cwd source (VStr "") ;;; st_raise TypeError
                   | Tar => st_raise TypeError
                   | _ => dump_text source (dump_method k)
                   end in
      match (if negb (bool_decide (dir_path = "")) && negb (os_exists cwd fs dir_path)
             then Shutil.makedirs_new cwd dir_path ;;; write else write) fs with
      | (Ok _, fs') => (Ok tt, (Payload false (pl_doc p), fs'))
      | (Err e, fs') => (Err e, (p, fs'))
      end
  end.

(** [convert]: the first key read raises. *)
Definition payload_convert (dict_map : list (string * string)) (target : payload) : ST payload payload :=
  match dict_map with
  | [] => st_ret target
  | (key, _) :: _ => payload_get key ;;; st_ret target
  end.

(** ** [Conf] of [schema/conf.py] *)

Definition conf : Type := gmap string payload * tree.

Definition doc_name (d : doc) (repr : option value → string) : string :=
  match d with FileDoc _ s | MessageDoc s => s | DictDoc v => repr v end.

Definition dump_index (index : string) : ST conf unit := λ '(ps, fs),
  match ps !! index with
  | None => (Err KeyError, (ps, fs))
  | Some p => let '(r, (p', fs')) := payload_dump (p, fs) in (r, (<[index := p']> ps, fs'))
  end.

(** [_payloads] is no name of the function; the index is a text, whose
    characters are the indexes dumped. *)
Definition conf_save (index : option string) : ST conf unit :=
  match index with
  | None => st_raise NameError
  | Some index => st_iter dump_index (sep <$> String.list_ascii_of_string index)
  end.

Definition conf_load (repr : option value → string) (index : string) (d : doc) (force : bool) : ST conf unit := λ '(ps, fs),
  if negb (os_isfile cwd fs (doc_name d repr)) then (Err PlainException, (ps, fs)) else
  let add : ST conf unit := λ '(ps, fs), (Ok tt, (<[index := payload_init d]> ps, fs)) in
  match ps !! index with
  | Some _ => if negb force then (Err PlainException, (ps, fs)) else (conf_save (Some index) ;;; add) (ps, fs)
  | None => add (ps, fs)
  end.

Definition on_payload {A} (index : string) (m : ST payload A) : ST conf A := λ '(ps, fs),
  match ps !! index with
  | None => (Err KeyError, (ps, fs))
  | Some p => let '(r, p') := m p in (r, (<[index := p']> ps, fs))
  end.
Definition conf_get (index key : string) (default_val : value) : ST conf value :=
  let! v := on_payload index (payload_get key) in
  if is_null v then st_ret default_val else on_payload index (payload_get key).
Definition conf_set (index key : string) (val : value) : ST conf unit := on_payload index (payload_set key val).

End docs.
End Schema.

(** ** Facts *)

Module SchemaFacts.

(** Whatever a payload was made from, no key of it is read or written. *)
Lemma payload_unusable key v p :
  is_ok (Schema.payload_get key p).1 = false ∧ is_ok (Schema.payload_set key v p).1 = false ∧
  (Schema.payload_set key v p).2 = p.
Proof. unfold Schema.payload_set. by destruct (split1 "." key) as [? []]. Qed.

(** A name without its extension, and what [CommonPayload] takes it for *)
Lemma doc_types :
  Schema.get_doc_type "/etc/a.YAML" = Ok (Some Schema.Yaml) ∧ Schema.get_doc_type "a.b/serial" = Ok (Some Schema.Text) ∧
  Schema.get_doc_type "/x/.json" = Ok (Some Schema.Text) ∧ Schema.get_doc_type "a.csv" = Err KeyError.
Proof. done. Qed.

End SchemaFacts.
