(* ===== verification/Bundle.v ===== *)
(** [utils/support_framework/support_bundle.py] and [bundle_generate.py]: the
    generation of a support bundle on a node, from the parsed command to the
    archive, and its status in the store under [sb_index].

    The world of the stores is a machine: a tree of files ([KvDir]) and what
    its other programs do ([Host]).  A state is the process-wide [Conf].
    Options are the texts that the command line or [generate] gives them;
    numbers in place of paths (file descriptors) are not open; logging, and
    the time that passes, have no effect on the state. *)
From Stdlib Require Import Ascii.
From stdpp Require Import countable.
From S2P Require Import Prelude PyStr PyVal KvFiles KvDir KvStore ConfStore Release LogFilter SchemaDoc.
Import PyStr Dir Conf.

Module Bundle.

(** The rest of the machine: commands, with the standard output ([None] when
    the command cannot be run) and the return code, and what [psutil] and the
    clock tell, as texts where the code prints it. *)
Inductive mem_val := Bytes (n : Z) | Percent (s : string).

Class Host (W : Type) := {
  h_tree : W → Schema.tree;
  h_set_tree : Schema.tree → W → W;
  h_run : string → W → (option string * Z) * W;
  h_now : W → string;
  h_cpu_percent : W → string * W;
  h_loadavg : W → string * string * string;
  h_users : W → nat;
  h_mounts : W → list string;
  h_disk_usage : string → W → Z * Z * Z * string;   (* total, used, free, percent *)
  h_memory : W → list (string * mem_val)            (* virtual_memory()._asdict() *)
}.

(** ** Sizes *)

Section floats.

(** Python's [float]: finite ones as [m] times [2] to the power [e]. *)
Inductive float := Finite (m e : Z) | Inf | NaN.

(** To the nearest of 53 bits, ties to even, for a magnitude [m]; [odd] tells
    that a little more than [m] is rounded. *)
Definition round53 (m e : Z) (more : bool) : Z * Z :=
  let k := (Z.log2 m + 1 - 53)%Z in
  if (k <=? 0)%Z then (m, e) else
  let q := Z.shiftr m k in
  let r := (m - Z.shiftl q k)%Z in
  let half := Z.shiftl 1 (k - 1) in
  let up := (half <? r)%Z || (r =? half)%Z && (more || Z.odd q) in
  ((if up then q + 1 else q)%Z, (e + k)%Z).

Definition finite (sign : Z) (me : Z * Z) : float :=
  let '(m, e) := me in if (1024 <? Z.log2 m + 1 + e)%Z then Inf else Finite (sign * m) e.

(** [x * n] for a small integer, and [a / b] of integers *)
Definition fmul (x : float) (n : Z) : float :=
  match x with
  | Finite m e => finite (Z.sgn m) (round53 (Z.abs m * n) e false)
  | _ => x
  end.
Definition fdiv (a b : Z) : res float :=
  if (b =? 0)%Z then Err ZeroDivisionError else
  let s := Z.max 0 (Z.log2 (Z.abs b) - Z.log2 (Z.abs a) + 55) in
  let n := Z.shiftl (Z.abs a) s in
  let q := Z.div n (Z.abs b) in
  match finite (Z.sgn a * Z.sgn b) (round53 q (- s) (negb (n mod Z.abs b =? 0)%Z)) with
  | Inf => Err OverflowError
  | x => Ok x
  end.
(** [int(x)]: towards zero *)
Definition int_of_float (x : float) : res Z :=
  match x with
  | Finite m e => Ok (if (0 <=? e)%Z then Z.shiftl m e else Z.quot m (Z.shiftl 1 (- e)))
  | Inf => Err OverflowError
  | NaN => Err ValueError
  end.
End floats.

Section size.
(** [float(s)] of a text, [None] when it raises, and [str(x)] *)
Context (py_float : string → option float) (str_float : float → string).

(** A [ValueError] gives the empty text. *)
Definition _get_uncompressed_size (size_limit : float) : res (option Z) :=
  match int_of_float (fmul size_limit 5) with
  | Ok n => Ok (Some n)
  | Err ValueError => Ok None
  | Err e => Err e
  end.

(** The loop over the units; [found] is the local [size_limit_per_comp]. *)
Fixpoint size_loop (units : list string) (size_limit : string) (num_components : nat) (found : option string)
    : res string :=
  match units with
  | [] => match found with Some s => Ok s | None => Err UnboundLocalError end
  | suffix :: units' =>
      if endswith size_limit suffix then
        match py_float (LogFilter.drop_suffix (String.length suffix) size_limit) with
        | None => Err ValueError
        | Some num_units =>
            n ← _get_uncompressed_size num_units;
            match n with
            | None => Err TypeError
            | Some n => x ← fdiv n (Z.of_nat num_components);
                        size_loop units' size_limit num_components (Some (str_float x +:+ suffix))
            end
        end
      else size_loop units' size_limit num_components found
  end.
Definition get_component_size_limit (size_limit : string) (num_components : nat) : res string :=
  size_loop ["GB"; "MB"; "KB"] size_limit num_components None.
End size.

(** ** Secrets *)

(** [re.sub(r'secret:.+', r'secret: ****', content)]: from the first
    [secret:] of a line that something follows, the rest of the line. *)
Fixpoint redact (skip : bool) (s : string) : string :=
  match s with
  | EmptyString => EmptyString
  | String c s' =>
      if skip then (if Ascii.eqb c Files.nl then String c (redact false s') else redact true s')
      else if startswith s "secret:" && match sdrop 7 s with
                                        | String d _ => negb (Ascii.eqb d Files.nl)
                                        | EmptyString => false
                                        end
      then "secret: ****" +:+ redact true s'
      else String c (redact false s')
  end.
Definition hide_secrets (content : string) : string :=
  if contains content "secret:" then redact false content else content.

(** ** Components *)

(** [components.lower().split(',')] with the services of each after a colon *)
Definition parse_component (comp : string) : string * string :=
  match split ":" comp with
  | comp_name :: services :: _ => (comp_name, smap (λ c, if Ascii.eqb c "|" then ","%char else c) services)
  | _ => (comp, "all")
  end.
Definition parse_components (components : string) : list (string * string) :=
  parse_component <$> split "," (lower components).

Record bundle := Bundle {
  b_id : string; b_path : string; b_comment : value; b_node_name : value;
  b_components : list value;
  b_services : list (value * string)
}.

(** A dictionary of texts whose keys are values *)
Fixpoint vget (k : value) (d : list (value * string)) : option string :=
  match d with
  | [] => None
  | (k', s) :: d' => if py_eq k k' then Some s else vget k d'
  end.
Fixpoint vset (k : value) (s : string) (d : list (value * string)) : list (value * string) :=
  match d with
  | [] => [(k, s)]
  | (k', s') :: d' => if py_eq k k' then (k', s) :: d' else (k', s') :: vset k s d'
  end.

(** Lists and dictionaries have no hash. *)
Definition hashable (v : value) : res unit := if is_container v then Err TypeError else Ok tt.

Definition add_component (acc : list value * list (value * string)) (comp : value) (service : string)
    : res (list value * list (value * string)) :=
  _ ← hashable comp; Ok (acc.1 ++ [comp], vset comp service acc.2).

(** [','.join(services)] *)
Definition join_services (services : list value) : res string :=
  l ← res_map (λ v, match v with VStr s => Ok s | _ => Err TypeError end) services;
  Ok (if decide (services = []) then "all" else join "," l).

(** What [_generate_bundle] returns *)
Inductive outcome := Skipped | Response (output : value) (rc : Z) | Generated (b : bundle).

(** The options of the command *)
Record options := Options {
  o_bundle_id : string; o_comment : value; o_duration : value; o_size_limit : string; o_config_url : string;
  o_binlogs : value; o_coredumps : value; o_stacktrace : value; o_components : string; o_target_path : string;
  o_sub_command : string
}.

Definition SB_INDEX : string := "sb_index".
Definition SB_URL : string := "json:///var/cortx/support_bundle/sb_status.json".
Definition CORTX_SOLUTION_DIR : string := "/etc/cortx/solution".
Definition CORTX_RELEASE_INFO : string := "/opt/seagate/cortx/RELEASE.INFO".
Definition SUPPORT_YAML : string := "cortx/utils/conf/support_bundle.yaml".
Definition DEFAULT_INSTALL_PATH : string := "/opt/seagate".
Definition OPERATION_SUCESSFUL : Z := 0.
Definition ERR_OP_FAILED : Z := 0x1100.

Section node.
Context {W : Type} {HW : Host W} {L : Schema.Libraries} (cwd : list string).
Context (machine_id_file : W → option string) (urlparse : string → string * string * string).
Context (classes : list (string * (string → string → string → ST W (Store.backend W)))).
Context (py_float : string → option float) (str_float : float → string).
(** [str(v)] and [repr(v)] of values, and the text of an exception *)
Context (repr : value → string) (repr_comment : value → string) (str_exn : exn → string).

Notation process := (Conf.singleton (W:=W)).
Notation text := (Files.py_str repr).

(** *** The machine under the process *)

Definition on_machine {A} (m : ST W A) : ST process A := λ g,
  match g_conf g with
  | Some s =>
      let '(r, w) := m (cs_world s) in
      (r, Singleton (Some (set_env (cs_stores s) w (cs_now s) s)) (g_delim g) (g_machine_id g) (g_env g))
  | None =>
      let '(stores, w, now) := g_env g in
      let '(r, w') := m w in (r, Singleton None (g_delim g) (g_machine_id g) (stores, w', now))
  end.
Definition on_files {A} (m : ST Schema.tree A) : ST process A :=
  on_machine (λ w, let '(r, fs) := m (h_tree w) in (r, h_set_tree fs w)).
Definition look {A} (f : Schema.tree → res A) : ST process A := on_files (λ fs, (f fs, fs)).
Definition exists_path (path : string) : ST process bool := look (λ fs, Ok (os_exists cwd fs path)).
Definition ask {A} (f : W → A) : ST process A := on_machine (λ w, (Ok (f w), w)).
Definition run (cmd : string) : ST process (option string * Z) :=
  on_machine (λ w, let '(r, w') := h_run cmd w in (Ok r, w')).

(** [try: m except Exception: handler] *)
Definition catch_all {A} (m : ST process A) (handler : exn → ST process A) : ST process A := λ g,
  match m g with (Err e, g') => handler e g' | r => r end.

(** [MappedConf(config_url)], its [get], and [Conf] on the index of the status *)
Definition mapped_conf (config_url : string) : ST process unit :=
  mapped_init machine_id_file urlparse classes config_url.
Definition cluster_get (key : string) (dflt : value) : ST process value := mapped_get (Some key) dflt.
Definition conf_load_sb (kwargs : list (string * value)) : ST process unit :=
  conf_class_load machine_id_file urlparse classes SB_INDEX SB_URL (VBool true) kwargs.
Definition sb_set (key : string) (v : value) : ST process unit := conf_call (Conf.set SB_INDEX key v).
Definition sb_get (key : string) : ST process value := conf_call (Conf.get SB_INDEX key).
Definition sb_save : ST process unit := conf_call (Conf.save SB_INDEX).

(** *** [_get_component_and_services] *)

Definition get_services (node comp : string) : ST process string :=
  let! num_services := cluster_get (node +:+ comp +:+ ">num_services") VNull in
  let! services := (if is_null num_services then st_ret [] else
    let! n := st_lift (Release.py_int num_services) in
    let fix go (l : list nat) : ST process (list value) :=
      match l with
      | [] => st_ret []
      | svc_index :: l' =>
          let! s := cluster_get (node +:+ comp +:+ ">services[" +:+ dec svc_index +:+ "]") VNull in
          let! rest := go l' in st_ret (s :: rest)
      end in go (Release.range n)) in
  st_lift (join_services services).

Fixpoint configured (node : string) (indexes : list nat) (acc : list value * list (value * string))
    : ST process (list value * list (value * string)) :=
  match indexes with
  | [] => st_ret acc
  | comp_idx :: indexes' =>
      let comp := ">components[" +:+ dec comp_idx +:+ "]" in
      let! service := get_services node comp in
      let! comp_name := cluster_get (node +:+ comp +:+ ">name") VNull in
      let! acc := st_lift (add_component acc comp_name service) in
      configured node indexes' acc
  end.

Definition requested (components : string) : list value * list (value * string) :=
  foldl (λ acc '(comp, service), (acc.1 ++ [VStr comp], vset (VStr comp) service acc.2)) ([], [])
    (parse_components components).

Definition _get_component_and_services (node_id : value) (components : string)
    : ST process (list value * list (value * string)) :=
  if decide (components = "") then
    let node := "node>" +:+ text node_id in
    let! v := cluster_get (node +:+ ">num_components") VNull in
    let! num_components := st_lift (Release.py_int v) in
    configured node (Release.range num_components) ([], [])
  else st_ret (requested components).

(** *** The health of the node *)

(** The last of two samples *)
Definition get_cpu_overall_usage : ST process value :=
  on_machine (λ w,
    let '(_, w1) := h_cpu_percent w in
    let '(s, w2) := h_cpu_percent w1 in (Ok (VStr (s +:+ " %")), w2)).

(** The output of a command that cannot be run is a text, with no [decode]. *)
Definition get_system_uptime : ST process value :=
  let! (out, _) := run "/usr/bin/uptime -p" in
  match out with
  | None => st_raise AttributeError
  | Some out =>
      ask (λ w,
        let '(l0, l1, l2) := h_loadavg w in
        VDict [("current_time", VStr (h_now w));
               ("system_uptime", VStr (replace "up " "" (strip out)));
               ("logged_in_users", VStr (dec (h_users w) +:+ " users"));
               ("load_average", VStr (l0 +:+ ", " +:+ l1 +:+ ", " +:+ l2))])
  end.

Definition gigabytes (n : Z) : value := VStr (Files.dec_Z (n / 1000000000) +:+ " GB").
Definition get_disk_overall_usage : ST process value :=
  ask (λ w, VList (map (λ mountpoint,
    let '(total, used, free, percent) := h_disk_usage mountpoint w in
    VDict [("volume", VStr mountpoint); ("totalSpace", gigabytes total); ("usedSpace", gigabytes used);
           ("freeSpace", gigabytes free); ("diskUsedPercentage", VStr (percent +:+ " %"))]) ("/" :: h_mounts w))).

(** [f'{value} %'] of the percentage, [f'{value >> 20} MB'] of the others *)
Definition memory_text (key : string) (v : mem_val) : res value :=
  match v with
  | Bytes n => Ok (VStr (if decide (key = "percent") then Files.dec_Z n +:+ " %"
                         else Files.dec_Z (Z.shiftr n 20) +:+ " MB"))
  | Percent s => if decide (key = "percent") then Ok (VStr (s +:+ " %")) else Err TypeError
  end.
Definition memory_keys : list (string * string) :=
  [("total", "total"); ("available", "available"); ("used_percent", "percent"); ("used", "used"); ("free", "free");
   ("active", "active"); ("inactive", "inactive"); ("buffers", "buffers"); ("cached", "cached"); ("shared", "shared");
   ("slab", "slab")].
Definition get_mem_overall_usage : ST process value :=
  let! mem_info := ask h_memory in
  let! total_memory := st_lift (res_map (λ '(key, v), t ← memory_text key v; Ok (key, t)) mem_info) in
  let! items := st_lift (res_map (λ '(name, key),
    match dget key total_memory with Some v => Ok (name, v) | None => Err KeyError end) memory_keys) in
  st_ret (VDict items).

Definition node_health : ST process value :=
  let! cpu := get_cpu_overall_usage in
  let! uptime := get_system_uptime in
  let! disk := get_disk_overall_usage in
  let! mem := get_mem_overall_usage in
  st_ret (VDict [("resource_usage",
    VDict [("cpu_usage", cpu); ("uptime", uptime); ("disk_usage", disk); ("memory_usage", mem)])]).

(** *** [ComponentsBundle] *)

(** [for x in v] *)
Definition iter_value (v : value) : res (list value) :=
  match v with
  | VList l => Ok l
  | VStr s => Ok ((λ c, VStr (sep c)) <$> String.list_ascii_of_string s)
  | VDict d => Ok (VStr <$> dkeys d)
  | _ => Err TypeError
  end.

(** [v.get(key, dflt)] of a document *)
Definition doc_get (key : string) (dflt v : value) : res value :=
  match v with VDict d => Ok (default dflt (dget key d)) | _ => Err AttributeError end.

(** [v[k]] *)
Definition py_index (l : list value) (z : Z) : res value :=
  let i := if (z <? 0)%Z then (z + Z.of_nat (length l))%Z else z in
  match (if (i <? 0)%Z then None else l !! Z.to_nat i) with Some x => Ok x | None => Err IndexError end.
Definition subscript (v k : value) : res value :=
  match v, k with
  | VDict d, VStr k => match dget k d with Some x => Ok x | None => Err KeyError end
  | VDict _, (VList _ | VDict _) => Err TypeError
  | VDict _, _ => Err KeyError
  | VList l, VInt z => py_index l z
  | VList l, VBool b => py_index l (if b then 1 else 0)%Z
  | VStr s, VInt z => py_index ((λ c, VStr (sep c)) <$> String.list_ascii_of_string s) z
  | VStr s, VBool b => py_index ((λ c, VStr (sep c)) <$> String.list_ascii_of_string s) (if b then 1 else 0)%Z
  | _, _ => Err TypeError
  end.

(** [os.path.exists(v)] *)
Definition exists_value (v : value) : ST process bool :=
  match v with
  | VStr path => exists_path path
  | VInt _ | VBool _ => st_ret false
  | _ => st_raise TypeError
  end.

(** The commands of a component get the same arguments; the loop returns from
    its first turn. *)
Record arguments := Arguments_ {
  a_config_url : string; a_duration : value; a_size_limit : string;
  a_binlogs : value; a_coredumps : value; a_stacktrace : value
}.
Definition cli_cmd (command : value) (bundle_id path services : string) (a : arguments) : string :=
  text command +:+ " -b " +:+ bundle_id +:+ " -t " +:+ path +:+ " -c " +:+ a_config_url a +:+
  " -s " +:+ services +:+ " --duration " +:+ text (a_duration a) +:+ " --size_limit " +:+ a_size_limit a +:+
  " --binlogs " +:+ text (a_binlogs a) +:+ " --coredumps " +:+ text (a_coredumps a) +:+
  " --stacktrace " +:+ text (a_stacktrace a).
Definition _exc_components_cmd (commands : value) (bundle_id path services : string) (a : arguments) : ST process Z :=
  let! l := st_lift (iter_value commands) in
  match l with
  | [] => st_raise TypeError
  | command :: _ => let! (_, return_code) := run (cli_cmd command bundle_id path services a) in st_ret return_code
  end.

Definition load_yaml (path : string) : ST process value := look (Schema.load cwd Schema.Yaml path).

Definition file_commands (file_data : value) : res value := doc_get "support_bundle" (VList []) file_data.

(** The files of one component: a file that cannot be read, or is empty, ends
    the loop. *)
Fixpoint component_files (run_commands : value → ST process unit) (files : list value) : ST process unit :=
  match files with
  | [] => st_ret tt
  | file_path :: files' =>
      let! there := exists_value file_path in
      match there, file_path with
      | true, VStr path => λ g,
          match load_yaml path g with
          | (Err _, g') => (Ok tt, g')
          | (Ok file_data, g') =>
              (if truthy file_data then
                 let! components_commands := st_lift (file_commands file_data) in
                 (if truthy components_commands then run_commands components_commands else st_ret tt) ;;;
                 component_files run_commands files'
               else st_ret tt) g'
          end
      | _, _ => component_files run_commands files'
      end
  end.

(** One turn of the loop over the components *)
Definition component_turn (b : bundle) (node_id : value) (a : arguments) (command_files_info each_component : value)
    : ST process unit :=
  let! services := st_lift (match vget each_component (b_services b) with
                            | Some s => Ok s
                            | None => Err KeyError
                            end) in
  let! components_files := st_lift (subscript command_files_info each_component) in
  let! files := st_lift (iter_value components_files) in
  component_files (λ commands,
    _exc_components_cmd commands (b_id b +:+ "_" +:+ text node_id +:+ "_" +:+ text each_component)
      (b_path b +:+ "/") services a ;;; st_ret tt) files.

Definition summary_path (b : bundle) : string := path_join (b_path b) "summary.yaml".
Definition _create_summary_file (b : bundle) : ST process unit :=
  let! now := ask h_now in
  let summary_data := VDict [("bundle_id", VStr (b_id b)); ("node_name", VStr (text (b_node_name b)));
                             ("comment", VStr (repr_comment (b_comment b))); ("Generated Time", VStr now)] in
  catch_all (on_files (Schema.dump cwd Schema.Yaml (summary_path b) summary_data)) (λ _, st_ret tt).

(** The [finally] clause: the directories in the bundle and the summary go. *)
Definition remove_dir (bundle_path each_dir : string) : ST Schema.tree unit := λ fs,
  let comp_dir := path_join bundle_path each_dir in
  if os_isdir cwd fs comp_dir then Shutil.rmtree cwd comp_dir fs else (Ok tt, fs).
Definition clean_up (bundle_path : string) : ST Schema.tree unit := λ fs,
  if negb (os_exists cwd fs bundle_path) then (Ok tt, fs) else
  (let! dirs := st_lift (Shutil.listdir cwd fs bundle_path) in
   st_iter (remove_dir bundle_path) dirs ;;;
   λ fs, if os_exists cwd fs (path_join bundle_path "summary.yaml")
         then os_remove cwd (path_join bundle_path "summary.yaml") fs else (Ok tt, fs)) fs.

Definition success_status (b : bundle) : value := VStr ("Successfully generated SB at path:" +:+ b_path b).
Definition failure_status (e : exn) : value := VStr ("Failed to generate tar file. ERROR:" +:+ str_exn e).

Definition write_archive (b : bundle) (node_id : value) : ST process unit :=
  on_files (Schema.dump cwd Schema.Tar (path_join (b_path b) (b_id b +:+ "_" +:+ text node_id +:+ ".tar.gz"))
              (VList [VStr (b_path b)])).

Definition archive (b : bundle) (node_id : value) : ST process value :=
  let! bundle_status := catch_all
    (write_archive b node_id ;;; st_ret (success_status b))
    (λ e, st_ret (failure_status e)) in
  on_files (clean_up (b_path b)) ;;;
  st_ret bundle_status.

Definition status_key (node_id : value) (bundle_id : string) : string := text node_id +:+ ">" +:+ bundle_id.

(** [Conf.load(..., fail_reload=False)], [Conf.set], [Conf.save] *)
Definition record_status (b : bundle) (node_id bundle_status : value) : ST process unit :=
  conf_load_sb [("fail_reload", VBool false)] ;;;
  sb_set (status_key node_id (b_id b) +:+ ">status") bundle_status ;;;
  sb_save.

(** The configuration of the support bundles: a failed load leaves the local
    without a value. *)
Definition setup_config : ST process value :=
  let! install_path := cluster_get "install_path" (VStr DEFAULT_INSTALL_PATH) in
  let! dir := st_lift (match install_path with VStr s => Ok s | _ => Err TypeError end) in
  catch_all (load_yaml (path_join dir SUPPORT_YAML)) (λ _, st_raise UnboundLocalError).

(** [init], up to the archive, and with it *)
Definition run_components (b : bundle) (node_id : value) (a : arguments) : ST process unit :=
  mapped_conf (a_config_url a) ;;;
  let! log := cluster_get "cortx>common>storage>log" VNull in
  st_lift (match log with VStr _ => Ok tt | _ => Err TypeError end) ;;;
  cluster_get "utils>log_level" (VStr "INFO") ;;;
  let! support_bundle_config := setup_config in
  let! command_files_info := st_lift (doc_get "COMPONENTS" VNull support_bundle_config) in
  st_iter (component_turn b node_id a command_files_info) (b_components b) ;;;
  _create_summary_file b.

Definition components_init (b : bundle) (node_id : value) (a : arguments) : ST process unit :=
  run_components b node_id a ;;;
  let! bundle_status := archive b node_id in
  record_status b node_id bundle_status.

(** *** [_generate_bundle] *)

(** [s.replace(old, new)], also for an empty [old] *)
Fixpoint interleave (new s : string) : string :=
  match s with EmptyString => new | String c s' => new +:+ String c (interleave new s') end.
Definition py_replace (old new s : string) : string :=
  if decide (old = "") then interleave new s else replace old new s.

Definition last_name (path : string) : string := List.last (split "/" path) "".
(** [path.split('/')[1]] *)
Definition location_of (path : string) : res string :=
  match split "/" path with _ :: l :: _ => Ok l | _ => Err IndexError end.

Notation "'file!' m" := (on_files m) (at level 10, m at level 9).
Definition open_w (path : string) : ST process unit := file! (write_path cwd path (VStr "")).
Definition write_text (path s : string) : ST process unit := file! (write_path cwd path (VStr s)).

(** The configuration without its secrets, through a copy beside it *)
Definition copy_config (bundle_path config_path : string) (locations : list string) : ST process (list string) :=
  let! there := (if decide (config_path = "") then st_ret false else exists_path config_path) in
  if negb there then st_ret locations else
  let conf_name := last_name config_path in
  let sb_config := py_replace conf_name "sb_cluster.conf" config_path in
  open_w sb_config ;;;
  let! content := look (λ fs, read_path cwd fs config_path) in
  write_text sb_config (hide_secrets content) ;;;
  let conf_target := path_join bundle_path ("common" +:+ config_path) in
  file! (makedirs cwd (py_replace ("/" +:+ conf_name) "" conf_target)) ;;;
  file! (Shutil.move_file cwd sb_config conf_target) ;;;
  let! l := st_lift (location_of config_path) in st_ret (append_new locations l).

Definition copy_solution (bundle_path : string) (locations : list string) : ST process (list string) :=
  let sln_target := path_join bundle_path ("common" +:+ CORTX_SOLUTION_DIR) in
  let! old := exists_path sln_target in
  (if old : bool then file! (Shutil.rmtree cwd sln_target) else st_ret tt) ;;;
  let! there := exists_path CORTX_SOLUTION_DIR in
  if there : bool then
    file! (Shutil.copytree cwd CORTX_SOLUTION_DIR sln_target "secret") ;;;
    let! l := st_lift (location_of CORTX_SOLUTION_DIR) in st_ret (append_new locations l)
  else st_ret locations.

Definition copy_release (bundle_path : string) (locations : list string) : ST process (list string) :=
  let! there := exists_path CORTX_RELEASE_INFO in
  if there : bool then
    let rel_target := path_join bundle_path ("common" +:+ CORTX_RELEASE_INFO) in
    file! (makedirs cwd (py_replace "/RELEASE.INFO" "" rel_target)) ;;;
    file! (Shutil.copyfile cwd CORTX_RELEASE_INFO rel_target) ;;;
    let! l := st_lift (location_of CORTX_RELEASE_INFO) in st_ret (append_new locations l)
  else st_ret locations.

Definition write_health (bundle_path : string) (locations : list string) : ST process (list string) :=
  let health_target := path_join bundle_path "common/health" in
  file! (makedirs cwd health_target) ;;;
  let file := health_target +:+ "/node_health.json" in
  open_w file ;;;
  let! info := node_health in
  let! t := st_lift (Schema.lib_dumps Schema.Json info) in
  write_text file t ;;;
  st_ret (append_new locations "health").

(** An [OSError] of the archive or of the clean-up after it is logged. *)
Definition pack_common (bundle_path : string) (locations : list string) : ST process unit :=
  let common_path := path_join bundle_path "common" in
  let common_tar := path_join common_path "common.tar.gz" in
  catch_all
    (open_w common_tar ;;;
     let! there := exists_path common_path in
     file! (λ fs, write_path cwd common_tar (VStr (Schema.lib_tar fs (if there : bool then [common_path] else []))) fs) ;;;
     st_iter (λ location,
       let untar_location := path_join common_path location in
       let! there := exists_path untar_location in
       if there : bool then file! (Shutil.rmtree cwd untar_location) else st_ret tt) locations)
    (λ e, match e with OSError _ => st_ret tt | _ => st_raise e end).

(** [except BundleError] *)
Definition catch_bundle (m : ST process unit) : ST process unit :=
  catch_all m (λ e, match e with BundleError _ => st_ret tt | _ => st_raise e end).

Definition add_manifest (bundle_path config_path : string) : ST process unit :=
  catch_bundle
    (let! locations := copy_config bundle_path config_path [] in
     let! locations := copy_solution bundle_path locations in
     let! locations := copy_release bundle_path locations in
     let! locations := write_health bundle_path locations in
     pack_common bundle_path locations).

(** [config_url.split('//')[1] if '//' in config_url else ''] *)
Definition path_of_url (config_url : string) : string :=
  match after "//" config_url with Some rest => before "//" rest | None => "" end.

(** [os.makedirs(bundle_path)] *)
Definition new_bundle_dir (bundle_path : string) : ST process unit :=
  catch_all (file! (Shutil.makedirs_new cwd bundle_path))
    (λ e, if decide (e = OSError Shutil.EEXIST) then st_raise (BundleError EINVAL) else st_raise e).

(** The status of a bundle that is started *)
Definition start_status (now : string) : value := VDict [("status", VStr "In-Progress"); ("start_time", VStr now)].
Definition register (node_id : value) (bundle_id : string) : ST process unit :=
  conf_load_sb [("skip_reload", VBool true)] ;;;
  let! now := ask h_now in
  sb_set (status_key node_id bundle_id) (start_status now) ;;;
  sb_save.

Fixpoint dashes (n : nat) : string := match n with O => "" | S n => "-" +:+ dashes n end.
Definition response_msg (b : bundle) : string :=
  let line := dashes (String.length (b_id b) + 4) in
  "Please use the below bundle id for checking the status of support bundle." +:+ sep Files.nl +:+ line +:+
  sep Files.nl +:+ "| " +:+ b_id b +:+ " |" +:+ sep Files.nl +:+ line +:+ sep Files.nl +:+
  "Please Find the file on -> " +:+ b_path b +:+ " ." +:+ sep Files.nl.

(** Once the bundle is registered *)
Definition generate_registered (o : options) (bundle_path : string) (node_id : value) : ST process outcome :=
  let! node_name := cluster_get ("node>" +:+ text node_id +:+ ">name") VNull in
  let! (components_list, service_per_comp) := _get_component_and_services node_id (o_components o) in
  if decide (components_list = []) then st_ret Skipped else
  let! size_limit_per_comp :=
    st_lift (get_component_size_limit py_float str_float (o_size_limit o) (length components_list)) in
  let b := Bundle (o_bundle_id o) bundle_path (o_comment o) node_name components_list service_per_comp in
  add_manifest bundle_path (path_of_url (o_config_url o)) ;;;
  catch_all (components_init b node_id
               (Arguments_ (o_config_url o) (o_duration o) size_limit_per_comp (o_binlogs o) (o_coredumps o) (o_stacktrace o)))
            (λ _, st_ret tt) ;;;
  st_ret (if decide (o_sub_command o = "generate") then Response (VStr (response_msg b)) OPERATION_SUCESSFUL
          else Generated b).

Definition _generate_bundle (o : options) : ST process outcome :=
  let bundle_path := path_join (o_target_path o) (o_bundle_id o) in
  new_bundle_dir bundle_path ;;;
  mapped_conf (o_config_url o) ;;;
  let! node_id := conf_class_machine_id machine_id_file in
  if is_null node_id then st_raise (BundleError EINVAL) else
  register node_id (o_bundle_id o) ;;;
  generate_registered o bundle_path node_id.

(** *** [_get_bundle_status] and the methods for other programs *)

Definition read_status (bundle_id : option string) : ST process outcome :=
  let! node_id := conf_class_machine_id machine_id_file in
  conf_load_sb [("skip_reload", VBool true)] ;;;
  let! status := sb_get (match bundle_id with
                         | Some id => if decide (id = "") then text node_id else status_key node_id id +:+ ">status"
                         | None => text node_id
                         end) in
  st_ret (if truthy status then Response status OPERATION_SUCESSFUL
          else Response (VStr ("No status found for bundle_id: " +:+ text (from_option VStr VNull bundle_id) +:+
                 "in input config. Please check if the Bundle ID is correct")) ERR_OP_FAILED).

Definition _get_bundle_status (bundle_id : option string) : ST process outcome :=
  catch_all (read_status bundle_id) (λ e,
    st_ret (Response (VStr ("Support Bundle status is not available Failed to get status of bundle. Related error - " +:+
                            str_exn e)) ENOENT)).

(** [json.dumps(res.output(), indent=2)] of a success *)
Definition get_status (bundle_id : option string) : ST process value :=
  let! res := _get_bundle_status bundle_id in
  match res with
  | Response output rc =>
      if decide (rc = OPERATION_SUCESSFUL) then let! t := st_lift (Schema.lib_dumps Schema.Json output) in st_ret (VStr t)
      else st_ret output
  | _ => st_raise AttributeError
  end.

(** [SupportBundle.generate]: the keyword arguments and their defaults *)
Record keywords := Keywords {
  k_config_url : option string; k_duration : option value; k_size_limit : option string;
  k_binlogs : option value; k_coredumps : option value; k_stacktrace : option value; k_components : option string
}.
Definition generate (comment : value) (target_path bundle_id : string) (k : keywords) : ST process outcome :=
  _generate_bundle {|
    o_bundle_id := bundle_id; o_comment := comment; o_duration := default (VStr "P5D") (k_duration k);
    o_size_limit := default "500MB" (k_size_limit k); o_config_url := default "" (k_config_url k);
    o_binlogs := default VNull (k_binlogs k); o_coredumps := default VNull (k_coredumps k);
    o_stacktrace := default VNull (k_stacktrace k); o_components := default "" (k_components k);
    o_target_path := target_path; o_sub_command := "generate_bundle" |}.

End node.
End Bundle.
