(* ===== verification/BundleSpec.v ===== *)
(** What a support bundle promises: nothing of a secret is copied, the
    components asked for are the ones served, the status follows the
    generation, and only the archives are left. *)
From Stdlib Require Import Ascii.
From stdpp Require Import countable.
From S2P Require Import Prelude PyStr PyVal KvPayload KvPayloadFacts KvPayloadKeys KvPayloadSpec KvStore KvFiles KvDir KvDirSpec ConfStore ConfStoreSpec ConfLock SchemaDoc Bundle.
Import PyStr Dir Bundle.

Module BundleSpec.

(** ** Secrets *)

(** A line: what comes before the first [secret:], when something follows it. *)
Definition hide_line (l : string) : string :=
  match after "secret:" l with
  | Some (String _ _) => before "secret:" l +:+ "secret: ****"
  | _ => l
  end.

(** The end of a line: nothing, or a line feed and the next lines. *)
Definition at_end (r : string) : Prop := r = "" ∨ ∃ t, r = String Files.nl t.

Lemma redact_skip l r : no_char Files.nl l = true → at_end r → redact true (l +:+ r) = redact false r.
Proof.
  intros Hl Hr. induction l as [|c l IH].
  - by destruct Hr as [->|[t ->]].
  - apply no_char_cons in Hl as [Hc Hl]. cbn. apply Ascii.eqb_neq in Hc as ->. by apply IH.
Qed.

Lemma startswith_end p l r : no_char Files.nl p = true → at_end r → startswith (l +:+ r) p = startswith l p.
Proof.
  intros Hp Hr. revert p Hp. induction l as [|c l IH]; intros p Hp; (destruct p as [|a p]; [by destruct Hr as [->|[t ->]]|]).
  - apply no_char_cons in Hp as [Ha _]. destruct Hr as [->|[t ->]]; [done|]. cbn.
    apply Ascii.eqb_neq in Ha. by rewrite Ha.
  - apply no_char_cons in Hp as [_ Hp]. cbn. by rewrite IH.
Qed.

Lemma hide_cons c l :
  hide_line (String c l) =
    if startswith (String c l) "secret:" then
      match sdrop 7 (String c l) with String _ _ => "secret: ****" | EmptyString => String c l end
    else String c (hide_line l).
Proof.
  unfold hide_line. cbn [after before]. destruct (startswith (String c l) "secret:").
  - change (String.length "secret:") with 7. by destruct (sdrop 7 (String c l)).
  - destruct (after "secret:" l) as [[|d t]|]; [done|by rewrite sapp_cons|done].
Qed.

Lemma redact_line l r :
  no_char Files.nl l = true → at_end r → redact false (l +:+ r) = hide_line l +:+ redact false r.
Proof.
  intros Hl Hr. induction l as [|c l IH]; [done|]. pose proof Hl as [Hc Hl']%no_char_cons. specialize (IH Hl').
  rewrite hide_cons, sapp_cons. cbn [redact]. rewrite <- sapp_cons, startswith_end by done.
  destruct (startswith (String c l) "secret:") eqn:Hs; cbn [andb]; [|by rewrite IH].
  apply startswith_spec in Hs as [u Hu]. rewrite Hu, sapp_assoc. rewrite !(sdrop_app "secret:").
  destruct u as [|d u].
  - replace (match "" +:+ r with String d _ => _ | EmptyString => false end) with false
      by (destruct Hr as [->|[t ->]]; done).
    injection Hu as -> ->. rewrite IH. done.
  - cbn. rewrite Hu in Hl. apply no_char_app in Hl as [_ [Hd _]%no_char_cons].
    apply Ascii.eqb_neq in Hd. rewrite Hd. cbn. rewrite redact_skip by done. done.
Qed.

Lemma redact_join ls :
  Forall (λ l, no_char Files.nl l = true) ls →
  redact false (join (sep Files.nl) ls) = join (sep Files.nl) (hide_line <$> ls).
Proof.
  induction 1 as [|l ls Hl Hls IH]; [done|]. destruct ls as [|l2 ls].
  - cbn. rewrite <- (sapp_nil_r l) at 1. rewrite redact_line by (done || by left). by rewrite sapp_nil_r.
  - change (join (sep Files.nl) (l :: l2 :: ls)) with (l +:+ String Files.nl (join (sep Files.nl) (l2 :: ls))).
    rewrite redact_line by (done || (right; by eexists)). cbn [redact]. cbn -[join hide_line redact] in *.
    rewrite IH. done.
Qed.

Lemma redact_absent s : contains s "secret:" = false → redact false s = s.
Proof.
  induction s as [|c s IH]; [done|]. cbn [contains redact]. intros [-> Hs]%orb_false_iff. cbn. by rewrite IH.
Qed.

Lemma hide_secrets_lines s : hide_secrets s = join (sep Files.nl) (hide_line <$> split Files.nl s).
Proof.
  unfold hide_secrets. destruct (contains s "secret:") eqn:Hs.
  - rewrite <- redact_join by apply split_pieces. by rewrite join_split.
  - rewrite <- redact_join, join_split by apply split_pieces. by rewrite redact_absent.
Qed.

(** Two lines that differ in the text of a secret at most *)
Inductive same_but_secret : string → string → Prop :=
| same_line l : same_but_secret l l
| other_secret pre x y : x ≠ "" → y ≠ "" → same_but_secret (pre +:+ "secret:" +:+ x) (pre +:+ "secret:" +:+ y).

Lemma startswith_long u x p : String.length p ≤ String.length u → startswith (u +:+ x) p = startswith u p.
Proof.
  revert p. induction u as [|c u IH]; intros [|a p] Hp; cbn in *; try done; [by destruct x|lia|].
  by rewrite IH by lia.
Qed.

Lemma sdrop_ne n u x : x ≠ "" → n ≤ String.length u → sdrop n (u +:+ x) ≠ "".
Proof.
  revert n. induction u as [|c u IH]; intros [|n] Hx Hn; cbn in *; try done; [lia|]. apply IH; [done|lia].
Qed.

Lemma hide_secret pre x :
  x ≠ "" → hide_line (pre +:+ "secret:" +:+ x) = before "secret:" (pre +:+ "secret:") +:+ "secret: ****".
Proof.
  intros Hx. induction pre as [|c pre IH]; [by destruct x|].
  assert (String.length "secret:" ≤ String.length (String c pre +:+ "secret:")) as Hlen by (rewrite slength_app; lia).
  pose proof (startswith_long _ x _ Hlen) as Hs. pose proof (sdrop_ne 7 _ x Hx Hlen) as Hd.
  rewrite sapp_assoc in Hs, Hd. rewrite sapp_cons, hide_cons, <- sapp_cons, Hs, (sapp_cons c pre "secret:").
  cbn [before]. rewrite <- (sapp_cons c pre "secret:").
  rewrite IH. clear Hs. destruct (startswith (String c pre +:+ "secret:") "secret:"); [|done].
  by destruct (sdrop 7 _).
Qed.

Lemma same_hidden l l' : same_but_secret l l' → hide_line l = hide_line l'.
Proof. intros [|pre x y Hx Hy]; [done|]. by rewrite !hide_secret. Qed.

Lemma hidden_lines s t :
  Forall2 same_but_secret (split Files.nl s) (split Files.nl t) → hide_secrets s = hide_secrets t.
Proof.
  intros Hl. rewrite !hide_secrets_lines. f_equal. induction Hl as [|l l' ls ls' Hl _ IH]; [done|].
  cbn. by rewrite (same_hidden l l'), IH.
Qed.

(** A secret on the next line stays. *)
Lemma secret_on_next_line :
  hide_secrets ("secret:" +:+ sep Files.nl +:+ "  gAAAAA") = "secret:" +:+ sep Files.nl +:+ "  gAAAAA".
Proof. reflexivity. Qed.

(** *** Two machines that differ in the secrets of one file *)

Section twins.
Context {W : Type} {HW : Host W} (cwd : list string).
Context (tree_set : ∀ fs (w : W), h_tree (h_set_tree fs w) = fs).
(** The file and its two contents *)
Context (p : list string) (s t : string).
Context (twin_texts : Forall2 same_but_secret (split Files.nl (Files.universal_newlines s)) (split Files.nl (Files.universal_newlines t))).
Notation process := (Conf.singleton (W:=W)).
Implicit Types (fs : Schema.tree) (g : process).

Definition twins fs1 fs2 : Prop :=
  (∀ q, q ≠ p → fs1 !! q = fs2 !! q) ∧
  (fs1 !! p = fs2 !! p ∨ fs1 !! p = Some (FFile s) ∧ fs2 !! p = Some (FFile t)).

(** What is there is of the same kind. *)
Definition is_dir (n : option node) : option bool := (λ n, bool_decide (n = FDir)) <$> n.

Lemma twins_kind fs1 fs2 q : twins fs1 fs2 → is_dir (node_at fs1 q) = is_dir (node_at fs2 q).
Proof.
  intros [Hq Hp]. unfold node_at. case_decide; [done|]. destruct (decide (q = p)) as [->|Hne]; [|by rewrite Hq].
  by destruct Hp as [->|[-> ->]].
Qed.

Lemma twins_cases fs1 fs2 q :
  twins fs1 fs2 →
  node_at fs1 q = None ∧ node_at fs2 q = None ∨ node_at fs1 q = Some FDir ∧ node_at fs2 q = Some FDir ∨
  ∃ a b, node_at fs1 q = Some (FFile a) ∧ node_at fs2 q = Some (FFile b) ∧ (a = b ∨ q = p ∧ a = s ∧ b = t).
Proof.
  intros [Hq Hp]. unfold node_at. case_decide as He; [auto|]. destruct (decide (q = p)) as [->|Hne].
  - destruct Hp as [->|[-> ->]]; [destruct (fs2 !! p) as [[|a]|]; [auto|right; right; exists a, a; auto|auto]|]. right; right. exists s, t. auto 6.
  - rewrite Hq by done. destruct (fs2 !! q) as [[|a]|]; [auto|right; right; exists a, a; auto|auto].
Qed.

Lemma twins_walk fs1 fs2 cur l : twins fs1 fs2 → walk_path fs1 cur l = walk_path fs2 cur l.
Proof.
  intros Ht. revert cur. induction l as [|c l IH]; intros cur; [done|]. cbn [walk_path].
  assert (step_path fs1 cur c = step_path fs2 cur c) as ->.
  { unfold step_path. by destruct (twins_cases fs1 fs2 cur Ht) as [[-> ->]|[[-> ->]|(a & b & -> & -> & _)]]. }
  destruct (step_path fs2 cur c); [apply IH|done].
Qed.

Lemma twins_resolve fs1 fs2 path : twins fs1 fs2 → resolve fs1 cwd path = resolve fs2 cwd path.
Proof. intros Ht. unfold resolve. case_decide; [done|]. by apply twins_walk. Qed.

Lemma twins_stat fs1 fs2 path :
  twins fs1 fs2 → is_dir (stat cwd fs1 path) = is_dir (stat cwd fs2 path).
Proof.
  intros Ht. unfold stat. rewrite (twins_resolve fs1 fs2) by done. destruct (resolve fs2 cwd path); [|done].
  by apply twins_kind.
Qed.

Lemma twins_exists fs1 fs2 path : twins fs1 fs2 → os_exists cwd fs1 path = os_exists cwd fs2 path.
Proof.
  intros Ht. pose proof (twins_stat fs1 fs2 path Ht) as Hs. unfold os_exists.
  destruct (stat cwd fs1 path), (stat cwd fs2 path); try done; by rewrite !bool_decide_false by (by intros []).
Qed.

Lemma twins_isdir fs1 fs2 path : twins fs1 fs2 → os_isdir cwd fs1 path = os_isdir cwd fs2 path.
Proof.
  intros Ht. pose proof (twins_stat fs1 fs2 path Ht) as Hs. unfold os_isdir.
  destruct (stat cwd fs1 path) as [[]|], (stat cwd fs2 path) as [[]|]; done.
Qed.

Lemma twins_insert fs1 fs2 q n : twins fs1 fs2 → twins (<[q := n]> fs1) (<[q := n]> fs2).
Proof.
  intros [Hq Hp]. split.
  - intros q' Hq'. destruct (decide (q = q')) as [->|]; [by rewrite !lookup_insert_eq|]. rewrite !lookup_insert_ne by done. by apply Hq.
  - destruct (decide (q = p)) as [->|]; [left; by rewrite !lookup_insert_eq|]. by rewrite !lookup_insert_ne.
Qed.

Lemma twins_delete fs1 fs2 q : twins fs1 fs2 → twins (base.delete q fs1) (base.delete q fs2).
Proof.
  intros [Hq Hp]. split.
  - intros q' Hq'. destruct (decide (q = q')) as [->|]; [by rewrite !lookup_delete_eq|]. rewrite !lookup_delete_ne by done. by apply Hq.
  - destruct (decide (q = p)) as [->|]; [left; by rewrite !lookup_delete_eq|]. by rewrite !lookup_delete_ne.
Qed.

(** Steps that answer the same and leave twins *)
Definition in_step {S A} (R : S → S → Prop) (m : ST S A) (x y : S) : Prop := (m x).1 = (m y).1 ∧ R (m x).2 (m y).2.

Lemma step_bind {S A B} (R : S → S → Prop) (m : ST S A) (f : A → ST S B) x y :
  in_step R m x y → (∀ a x' y', m x = (Ok a, x') → m y = (Ok a, y') → R x' y' → in_step R (f a) x' y') →
  in_step R (st_bind m f) x y.
Proof.
  intros [Hr HR] Hf. unfold in_step, st_bind. destruct (m x) as [r1 x'] eqn:Hx, (m y) as [r2 y'] eqn:Hy.
  cbn [fst snd] in *. subst r2. destruct r1 as [a|e]; [by apply Hf|done].
Qed.

Lemma write_step fs1 fs2 path v : twins fs1 fs2 → in_step twins (write_path cwd path v) fs1 fs2.
Proof.
  intros Ht. unfold in_step, write_path. rewrite (twins_resolve fs1 fs2) by done.
  destruct (resolve fs2 cwd path) as [q|]; [|done].
  destruct (twins_cases fs1 fs2 q Ht) as [[-> ->]|[[-> ->]|(a & b & -> & -> & _)]]; [|done|];
    destruct v; (split; [done|by apply twins_insert]).
Qed.

Lemma make_path_step fs1 fs2 cur l :
  twins fs1 fs2 → (make_path fs1 cur l).1 = (make_path fs2 cur l).1 ∧ twins (make_path fs1 cur l).2 (make_path fs2 cur l).2.
Proof.
  revert fs1 fs2 cur. induction l as [|c l IH]; intros fs1 fs2 cur Ht; [done|]. cbn [make_path].
  case_decide; [by apply IH|]. case_decide; [by apply IH|].
  destruct (twins_cases fs1 fs2 (cur ++ [c]) Ht) as [[-> ->]|[[-> ->]|(a & b & -> & -> & _)]]; [|by apply IH|done].
  by apply IH, twins_insert.
Qed.

Lemma makedirs_step fs1 fs2 path : twins fs1 fs2 → in_step twins (makedirs cwd path) fs1 fs2.
Proof.
  intros Ht. unfold in_step, makedirs. case_decide; [done|].
  destruct (make_path_step fs1 fs2 (start cwd path) (split "/" path) Ht) as [Hr Hm].
  destruct (make_path fs1 _ _) as [r1 x], (make_path fs2 _ _) as [r2 y]. cbn [fst snd] in *. subst r2. by destruct r1.
Qed.

Lemma remove_step fs1 fs2 path : twins fs1 fs2 → in_step twins (os_remove cwd path) fs1 fs2.
Proof.
  intros Ht. unfold in_step, os_remove. rewrite (twins_resolve fs1 fs2) by done.
  destruct (resolve fs2 cwd path) as [q|]; [|done].
  destruct (twins_cases fs1 fs2 q Ht) as [[-> ->]|[[-> ->]|(a & b & -> & -> & _)]]; [done|done|].
  split; [done|]. by apply twins_delete.
Qed.

(** A file with the same content in both is moved alike. *)
Lemma move_step fs1 fs2 src dst q :
  twins fs1 fs2 → resolve fs2 cwd src = Ok q → fs1 !! q = fs2 !! q → in_step twins (Shutil.move_file cwd src dst) fs1 fs2.
Proof.
  intros Ht Hq Heq. unfold in_step, Shutil.move_file. rewrite (twins_isdir fs1 fs2) by done.
  set (real_dst := if os_isdir cwd fs2 dst then _ else _). rewrite (twins_exists fs1 fs2 real_dst) by done.
  destruct (_ && _); [done|]. unfold Shutil.read_bytes. rewrite (twins_resolve fs1 fs2), Hq by done. cbn [mbind res_bind].
  assert (node_at fs1 q = node_at fs2 q) as -> by (unfold node_at; by rewrite Heq).
  destruct (node_at fs2 q) as [[|c]|]; [done| |done].
  apply (step_bind twins); [by apply write_step|]. intros [] x y _ _ Hxy. by apply remove_step.
Qed.

(** *** The copy of the configuration *)

Definition tree_of g : Schema.tree :=
  h_tree match Conf.g_conf g with Some c => Conf.cs_world c | None => (Conf.g_env g).1.2 end.
Definition twin_processes g1 g2 : Prop := twins (tree_of g1) (tree_of g2).

Lemma on_files_twin {A} (m : ST Schema.tree A) g :
  (on_files m g).1 = (m (tree_of g)).1 ∧ tree_of (on_files m g).2 = (m (tree_of g)).2.
Proof.
  unfold tree_of, on_files, on_machine. destruct (Conf.g_conf g) as [c|].
  - destruct (m (h_tree (Conf.cs_world c))) as [r fs]. cbn. by rewrite tree_set.
  - destruct (Conf.g_env g) as [[stores w] now]. cbn. destruct (m (h_tree w)) as [r fs]. cbn. by rewrite tree_set.
Qed.

Lemma files_step {A} (m : ST Schema.tree A) g1 g2 :
  in_step twins m (tree_of g1) (tree_of g2) → in_step twin_processes (on_files m) g1 g2.
Proof.
  intros [Hr Ht]. destruct (on_files_twin m g1) as [R1 T1], (on_files_twin m g2) as [R2 T2].
  unfold in_step, twin_processes. by rewrite R1, R2, T1, T2.
Qed.

(** What is read of the configuration, once its secrets are hidden *)
Lemma read_hidden fs1 fs2 path :
  twins fs1 fs2 →
  (∃ a b, read_path cwd fs1 path = Ok a ∧ read_path cwd fs2 path = Ok b ∧ hide_secrets a = hide_secrets b) ∨
  ∃ e, read_path cwd fs1 path = Err e ∧ read_path cwd fs2 path = Err e.
Proof.
  intros Ht. unfold read_path. rewrite (twins_resolve fs1 fs2) by done.
  destruct (resolve fs2 cwd path) as [q|e]; [|right; by exists e].
  destruct (twins_cases fs1 fs2 q Ht) as [[-> ->]|[[-> ->]|(a & b & -> & -> & Hab)]]; [right; by eexists..|].
  left. exists (Files.universal_newlines a), (Files.universal_newlines b). split; [done|]. split; [done|].
  destruct Hab as [->|(_ & -> & ->)]; [done|by apply hidden_lines].
Qed.

(** Directories stay while others are made. *)
Lemma make_path_dirs fs cur l r : node_at fs r = Some FDir → node_at (make_path fs cur l).2 r = Some FDir.
Proof.
  revert fs cur. induction l as [|c l IH]; intros fs cur Hr; [done|]. cbn [make_path].
  case_decide; [by apply IH|]. case_decide; [by apply IH|].
  destruct (node_at fs (cur ++ [c])) as [[|a]|]; [by apply IH|done|]. apply IH. unfold node_at in *.
  case_decide; [done|]. destruct (decide (cur ++ [c] = r)) as [<-|]; [by rewrite lookup_insert_eq|by rewrite lookup_insert_ne].
Qed.

Lemma write_path_ok path v fs fs' :
  write_path cwd path (VStr v) fs = (Ok tt, fs') →
  ∃ q, resolve fs cwd path = Ok q ∧ fs' = <[q := FFile v]> fs ∧ node_at fs q ≠ Some FDir.
Proof.
  unfold write_path. destruct (resolve fs cwd path) as [q|]; [|done].
  destruct (node_at fs q) as [[|a]|] eqn:Hn; intros [= <-]; exists q; by rewrite Hn.
Qed.

Lemma resolve_kept fs fs' path q :
  (∀ r, node_at fs r = Some FDir → node_at fs' r = Some FDir) → resolve fs cwd path = Ok q → resolve fs' cwd path = Ok q.
Proof. intros Hk. unfold resolve. case_decide; [done|]. by apply DirSpec.walk_grown. Qed.

(** The redacted copy is still where it was written when it is moved. *)
Lemma copy_stays fs fs1 fs2 src v dir q :
  write_path cwd src (VStr v) fs = (Ok tt, fs1) → makedirs cwd dir fs1 = (Ok tt, fs2) → resolve fs cwd src = Ok q →
  resolve fs2 cwd src = Ok q ∧ fs2 !! q = Some (FFile v).
Proof.
  intros (q' & Hq & -> & Hn)%write_path_ok Hm Hq'. assert (q' = q) as -> by congruence.
  assert (Hne : q ≠ []) by (intros ->; by apply Hn).
  unfold makedirs in Hm. case_decide; [done|].
  assert (Hkeep : ∀ l cur fs0, fs0 !! q = Some (FFile v) → (make_path fs0 cur l).2 !! q = Some (FFile v)).
  { induction l as [|c l IH]; intros cur fs0 H0; [done|]. cbn [make_path]. case_decide; [by apply IH|].
    case_decide; [by apply IH|]. destruct (node_at fs0 (cur ++ [c])) as [[|a]|] eqn:Hc; [by apply IH|done|].
    apply IH. rewrite lookup_insert_ne; [done|]. intros <-. unfold node_at in Hc. rewrite decide_False in Hc by done. congruence. }
  destruct (make_path _ _ _) as [r fs3] eqn:Hmp. assert (fs3 = fs2) as -> by (by destruct r; injection Hm).
  pose proof (Hkeep (split "/" dir) (start cwd dir) (<[q := FFile v]> fs) (lookup_insert_eq _ _ _)) as Hv.
  rewrite Hmp in Hv. split; [|done].
  apply (resolve_kept fs); [|done]. intros r' Hr'.
  pose proof (make_path_dirs (<[q := FFile v]> fs) (start cwd dir) (split "/" dir) r') as Hd. rewrite Hmp in Hd. apply Hd.
  destruct (decide (q = r')) as [<-|Hqr]; [done|]. unfold node_at in *. case_decide; [done|]. by rewrite lookup_insert_ne.
Qed.

Lemma written src text g g1 g2 dir :
  write_text cwd src text g = (Ok tt, g1) → on_files (makedirs cwd dir) g1 = (Ok tt, g2) →
  ∃ q, resolve (tree_of g2) cwd src = Ok q ∧ tree_of g2 !! q = Some (FFile text).
Proof.
  intros Hw Hm. destruct (on_files_twin (write_path cwd src (VStr text)) g) as [R1 T1].
  destruct (on_files_twin (makedirs cwd dir) g1) as [R2 T2]. unfold write_text in Hw.
  rewrite Hw in R1, T1. rewrite Hm in R2, T2. cbn [fst snd] in *.
  assert (Hw' : write_path cwd src (VStr text) (tree_of g) = (Ok tt, tree_of g1)) by (rewrite R1, T1; apply surjective_pairing).
  assert (Hm' : makedirs cwd dir (tree_of g1) = (Ok tt, tree_of g2)) by (rewrite R2, T2; apply surjective_pairing).
  pose proof (write_path_ok _ _ _ _ Hw') as (q & Hq & _). exists q. by eapply copy_stays.
Qed.

Lemma look_step {A B D : Type} (f : Schema.tree → res A) (h : A → D) (k : D → ST process B) g1 g2 :
  twin_processes g1 g2 →
  (∃ a b, f (tree_of g1) = Ok a ∧ f (tree_of g2) = Ok b ∧ h a = h b) ∨
    (∃ e, f (tree_of g1) = Err e ∧ f (tree_of g2) = Err e) →
  (∀ c g1' g2', tree_of g1' = tree_of g1 → tree_of g2' = tree_of g2 → in_step twin_processes (k c) g1' g2') →
  in_step twin_processes (let! a := look f in k (h a)) g1 g2.
Proof.
  intros Ht Hf Hk. unfold look.
  destruct (on_files_twin (λ fs, (f fs, fs)) g1) as [R1 T1], (on_files_twin (λ fs, (f fs, fs)) g2) as [R2 T2].
  unfold in_step, st_bind. destruct (on_files _ g1) as [r1 g1'], (on_files _ g2) as [r2 g2']. cbn [fst snd] in *.
  subst r1 r2. destruct Hf as [(a & b & -> & -> & Hab)|(e & -> & ->)].
  - rewrite Hab. by apply Hk.
  - split; [done|]. unfold twin_processes. cbn [snd]. by rewrite T1, T2.
Qed.

(** C16.  On two machines that are alike but for the texts of secrets in one
    file (its lines differ only in what follows [secret:], in the same line),
    the copy of a configuration into the bundle answers the same, and leaves
    the same at every other place: nothing of such a secret reaches the bundle. *)
Theorem secrets_hidden bundle_path config_path locations g1 g2 :
  tree_of g1 !! p = Some (FFile s) → tree_of g2 = <[p := FFile t]> (tree_of g1) →
  (copy_config cwd bundle_path config_path locations g1).1 = (copy_config cwd bundle_path config_path locations g2).1 ∧
  ∀ q, q ≠ p →
    tree_of (copy_config cwd bundle_path config_path locations g1).2 !! q =
    tree_of (copy_config cwd bundle_path config_path locations g2).2 !! q.
Proof.
  intros H1 H2.
  assert (Ht : twin_processes g1 g2).
  { unfold twin_processes. rewrite H2. split; [intros; by rewrite lookup_insert_ne|right]. by rewrite lookup_insert_eq. }
  cut (in_step twin_processes (copy_config cwd bundle_path config_path locations) g1 g2).
  { intros [Hr [Hq _]]. by split. }
  unfold copy_config. apply step_bind.
  { case_decide; [done|]. apply files_step. split; [|done]. cbn. by rewrite (twins_exists (tree_of g1) (tree_of g2)). }
  intros there x y _ _ Hxy. destruct (negb there); [done|]. cbv zeta.
  set (src := py_replace _ _ _). set (dir := py_replace _ _ (path_join _ _)).
  apply step_bind; [by apply files_step, write_step|]. intros [] x1 y1 _ _ H11.
  refine (look_step _ hide_secrets (λ text, write_text cwd src text ;;; _) x1 y1 H11 (read_hidden _ _ config_path H11) _).
  intros text x2 y2 Hx2 Hy2. assert (H22 : twin_processes x2 y2) by (unfold twin_processes; by rewrite Hx2, Hy2).
  apply step_bind; [by apply files_step, write_step|]. intros [] x3 y3 Hwx Hwy H33.
  apply step_bind; [by apply files_step, makedirs_step|]. intros [] x4 y4 Hmx Hmy H44.
  apply step_bind; [|by intros [] x5 y5 _ _ H55; destruct (location_of config_path)].
  destruct (written src text x2 x3 x4 dir Hwx Hmx) as (q & Hrx & Hqx).
  destruct (written src text y2 y3 y4 dir Hwy Hmy) as (q' & Hry & Hqy).
  rewrite (twins_resolve (tree_of x4) (tree_of y4)) in Hrx by done. assert (q' = q) as -> by congruence.
  apply files_step, (move_step _ _ _ _ q); [done|done|congruence].
Qed.
End twins.

(** ** Components *)

(** A word of a list of components: no separator, and no capital letter. *)
Definition plain_char (c : ascii) : bool :=
  negb (Ascii.eqb c "," || Ascii.eqb c ":" || Ascii.eqb c "|") && Ascii.eqb (lower_char c) c.
Definition word (w : string) : Prop := sforall plain_char w = true.

Lemma word_no_char w (c : ascii) : word w → plain_char c = false → no_char c w = true.
Proof.
  unfold word. intros Hw Hc. induction w as [|a w IH]; [done|]. cbn in Hw. apply andb_prop in Hw as [Ha Hw].
  apply no_char_cons. split; [congruence|by apply IH].
Qed.
Lemma word_lower w : word w → lower w = w.
Proof.
  unfold word, lower. induction w as [|a w IH]; [done|]. cbn. intros [Ha Hw]%andb_prop.
  apply andb_prop in Ha as [_ Ha]. apply Ascii.eqb_eq in Ha. by rewrite Ha, IH.
Qed.

(** What a client asks for: a component with some of its services, or with all
    of them. *)
Definition asked : Type := string * list string.
Definition asked_ok (a : asked) : Prop := word a.1 ∧ Forall word a.2.
Definition render (a : asked) : string :=
  match a.2 with [] => a.1 | services => a.1 +:+ ":" +:+ join "|" services end.
Definition services_text (a : asked) : string := match a.2 with [] => "all" | services => join "," services end.

Lemma lower_join d l : lower d = d → Forall (λ s, lower s = s) l → lower (join d l) = join d l.
Proof.
  intros Hd. induction 1 as [|s l Hs Hl IH]; [done|]. destruct l as [|s2 l]; [done|].
  change (join d (s :: s2 :: l)) with (s +:+ d +:+ join d (s2 :: l)). by rewrite !lower_app, Hs, Hd, IH.
Qed.

Lemma words_join (c : ascii) d l : no_char c d = true → Forall (λ s, no_char c s = true) l → no_char c (join d l) = true.
Proof.
  intros Hd. induction 1 as [|s l Hs Hl IH]; [done|]. destruct l as [|s2 l]; [done|].
  change (join d (s :: s2 :: l)) with (s +:+ d +:+ join d (s2 :: l)). by rewrite !no_char_app.
Qed.

Lemma render_ok a : asked_ok a → lower (render a) = render a ∧ no_char "," (render a) = true.
Proof.
  destruct a as [name services]. intros [Hn Hs]. unfold render. cbn [fst snd] in *.
  destruct services as [|s services]; [split; [by apply word_lower|by apply word_no_char]|].
  split.
  - rewrite !lower_app, word_lower, lower_join by (done || (eapply Forall_impl; [exact Hs|apply word_lower])). done.
  - rewrite !no_char_app. split; [by apply word_no_char|]. split; [done|]. apply words_join; [done|].
    eapply Forall_impl; [exact Hs|]. intros. by apply word_no_char.
Qed.

Lemma smap_app f s t : smap f (s +:+ t) = smap f s +:+ smap f t.
Proof. induction s as [|c s IH]; [done|]. cbn. by rewrite IH. Qed.

Notation comma c := (if Ascii.eqb c "|" then ","%char else c).
Lemma comma_join l : Forall word l → smap (λ c, comma c) (join "|" l) = join "," l.
Proof.
  assert (∀ w, word w → smap (λ c, comma c) w = w) as Hword.
  { intros w. unfold word. induction w as [|a w IH]; [done|]. cbn. intros [Ha Hw]%andb_prop. rewrite IH by done.
    unfold plain_char in Ha. by destruct (Ascii.eqb a "|"), (Ascii.eqb a ","), (Ascii.eqb a ":"). }
  induction 1 as [|s l Hs Hl IH]; [done|]. destruct l as [|s2 l]; [by apply Hword|].
  change (join "|" (s :: s2 :: l)) with (s +:+ "|" +:+ join "|" (s2 :: l)).
  rewrite !smap_app, IH, Hword by done. done.
Qed.

Lemma parse_render a : asked_ok a → parse_component (render a) = (a.1, services_text a).
Proof.
  destruct a as [name services]. intros [Hn Hs]. unfold parse_component, render, services_text. cbn [fst snd] in *.
  destruct services as [|s services].
  - by rewrite split_no_char by by apply word_no_char.
  - change (name +:+ ":" +:+ join "|" (s :: services)) with (name +:+ String ":" (join "|" (s :: services))).
    rewrite split_app by by apply word_no_char. rewrite (split_no_char ":").
    + by rewrite comma_join.
    + apply words_join; [done|]. eapply Forall_impl; [exact Hs|]. intros. by apply word_no_char.
Qed.

Lemma vset_fresh k s d : (∀ k' s', (k', s') ∈ d → py_eq k k' = false) → vset k s d = d ++ [(k, s)].
Proof.
  induction d as [|[k' s'] d IH]; intros Hk; [done|]. cbn. rewrite (Hk k' s') by set_solver.
  by rewrite IH by set_solver.
Qed.

Lemma request_loop (l : list (string * string)) names d :
  NoDup (names ++ l.*1) → d.*1 = VStr <$> names →
  foldl (λ acc '(comp, service), (acc.1 ++ [VStr comp], vset (VStr comp) service acc.2)) (VStr <$> names, d) l =
    (VStr <$> names ++ l.*1, d ++ ((λ cs, (VStr cs.1, cs.2)) <$> l)).
Proof.
  revert names d. induction l as [|[comp service] l IH]; intros names d Hnd Hd; cbn.
  { by rewrite !app_nil_r. }
  rewrite vset_fresh.
  - replace ((VStr <$> names) ++ [VStr comp]) with (VStr <$> (names ++ [comp])) by by rewrite fmap_app.
    rewrite IH; [by rewrite <- !app_assoc| |by rewrite !fmap_app, Hd]. by rewrite <- app_assoc.
  - intros k' s' Hin. assert (k' ∈ d.*1) as Hk by (apply list_elem_of_fmap; by exists (k', s')).
    rewrite Hd in Hk. apply list_elem_of_fmap in Hk as (n & -> & Hn). cbn. apply bool_decide_false.
    intros ->. apply NoDup_app in Hnd as (_ & Hnd & _). by apply (Hnd n Hn); left.
Qed.

(** The components of a request, in any capitals, are those the bundle is
    made of, in order, each with the services that were asked for. *)
Theorem components_roundtrip (l : list asked) text :
  Forall asked_ok l → NoDup l.*1 → l ≠ [] → lower text = join "," (render <$> l) →
  requested text = (VStr <$> l.*1, (λ a, (VStr a.1, services_text a)) <$> l).
Proof.
  intros Hl Hnd Hne Ht. unfold requested, parse_components. rewrite Ht. change "," with (sep ",") at 1.
  rewrite split_join.
  - assert (parse_component <$> (render <$> l) = (λ a, (a.1, services_text a)) <$> l) as ->.
    { clear -Hl. induction Hl as [|a l Ha Hl IH]; [done|]. cbn. by rewrite parse_render, IH. }
    pose proof (request_loop ((λ a, (a.1, services_text a)) <$> l) [] []) as Hr. cbn in Hr. rewrite Hr.
    + by rewrite <- !list_fmap_compose.
    + by rewrite <- list_fmap_compose.
    + done.
  - by destruct l.
  - apply Forall_fmap. eapply Forall_impl; [exact Hl|]. intros a Ha. by apply (render_ok a Ha).
Qed.

Lemma components_roundtrip_witness :
  requested "S3:Authserver|BGProducer,CSM,UTILS" =
    ([VStr "s3"; VStr "csm"; VStr "utils"],
     [(VStr "s3", "authserver,bgproducer"); (VStr "csm", "all"); (VStr "utils", "all")]).
Proof.
  apply (components_roundtrip [("s3", ["authserver"; "bgproducer"]); ("csm", []); ("utils", [])]).
  - repeat constructor.
  - by apply (bool_decide_unpack _); vm_compute.
  - done.
  - reflexivity.
Defined.

(** Every component of a bundle has its services: the generation never misses
    one. *)
Lemma vget_vset_eq k s d : is_container k = false → is_Some (vget k (vset k s d)).
Proof.
  intros Hk. induction d as [|[k' s'] d IH]; cbn.
  - destruct k; try done; cbn; rewrite ?bool_decide_true by done; try done; unfold num_eq; cbn; rewrite ?Z.eqb_refl; done.
  - destruct (py_eq k k') eqn:He; cbn; by rewrite He.
Qed.
Lemma vget_vset_keep k k2 s d : is_Some (vget k2 d) → is_Some (vget k2 (vset k s d)).
Proof.
  induction d as [|[k' s'] d IH]; cbn; [by intros []|].
  destruct (py_eq k2 k') eqn:H2, (py_eq k k') eqn:H1; cbn; rewrite H2; done.
Qed.

Definition served (acc : list value * list (value * string)) : Prop := ∀ c, c ∈ acc.1 → is_Some (vget c acc.2).

Lemma served_add acc comp service acc' : served acc → add_component acc comp service = Ok acc' → served acc'.
Proof.
  intros Ha. unfold add_component, hashable. destruct (is_container comp) eqn:Hc; [done|]. intros [= <-] c. cbn.
  intros [Hin| ->%list_elem_of_singleton]%elem_of_app; [by apply vget_vset_keep, Ha|by apply vget_vset_eq].
Qed.

End BundleSpec.
