(* ===== verification/BundleStatus.v ===== *)
(** The status of a support bundle follows its generation: In-Progress from
    the start, and what became of the archive once the components have run. *)
From Stdlib Require Import Ascii.
From stdpp Require Import countable.
From S2P Require Import Prelude PyStr PyVal KvPayload KvPayloadFacts KvPayloadKeys KvPayloadSpec KvStore KvFiles KvDir ConfStore ConfStoreSpec ConfLock Release SchemaDoc Bundle.
Import PyStr PayloadFacts PayloadKeys PayloadSpec Conf ConfSpec ConfLock Bundle.

Module BundleStatus.

Section status.
Context {W : Type} {HW : Host W} {L : Schema.Libraries} (cwd : list string).
Context (machine_id_file : W → option string) (urlparse : string → string * string * string).
Context (classes : list (string * (string → string → string → ST W (Store.backend W)))).
Context (py_float : string → option float) (str_float : float → string).
Context (repr : value → string) (repr_comment : value → string) (str_exn : exn → string).

Notation process := (Conf.singleton (W:=W)).
Implicit Types (g : process) (s : conf (W:=W)).

(** The backends load well-formed documents with the delimiter they were
    created with. *)
Definition good (b : Store.backend W) : Prop :=
  ∀ r w p w', Store.b_load b r w = (Ok p, w') → wf_payload p ∧ kp_delim p = ">".
Context (good_classes : ∀ name cls loc path w b w',
  (name, cls) ∈ classes → cls loc path ">" w = (Ok b, w') → good b).

(** The store of the status: where its URL leads, one object for all that ask
    for it.  Once written it is there, and what was written is read back. *)
Context (status_store : Store.backend W) (status_type status_loc status_file : string).
Context (status_class : string → string → string → ST W (Store.backend W)).
Context (url_parsed : urlparse SB_URL = (status_type, status_loc, status_file)).
Context (url_class : Store.find_class status_type classes = Some status_class).
Context (class_store : ∀ w b w', status_class status_loc status_file ">" w = (Ok b, w') → b = status_store).
Context (dump_there : ∀ p w w', Store.b_dump status_store p w = (Ok tt, w') →
  status_class status_loc status_file ">" w' = (Ok status_store, w')).
Context (dump_read : ∀ p w w', wf_payload p → kp_delim p = ">" → Store.b_dump status_store p w = (Ok tt, w') →
  ∃ p', Store.b_load status_store true w' = (Ok p', w') ∧ kp_data p' = kp_data p).

Definition index_ok (c : cache (W:=W)) : Prop := wf_payload (cc_data c) ∧ kp_delim (cc_data c) = ">".
Record sane s : Prop := Sane {
  sane_delim : cs_delim s = ">";
  sane_stores : map_Forall (λ _ b, good b) (cs_stores s);
  sane_index : ∀ c, cs_cache s !! SB_INDEX = Some c → index_ok c;
  sane_status : ∀ c, cs_cache s !! SB_INDEX = Some c → cc_store c = status_store;
  sane_url : ∀ b, cs_stores s !! SB_URL = Some b → b = status_store
}.

(** ** What leaves the index of the status as it is *)

Definition keeps g g' : Prop := ∀ s, g_conf g = Some s → sane s →
  ∃ s', g_conf g' = Some s' ∧ sane s' ∧ g_machine_id g' = g_machine_id g ∧ cs_cache s' !! SB_INDEX = cs_cache s !! SB_INDEX.

#[local] Instance keeps_refl : Reflexive keeps.
Proof. intros g s Hg Hs. by exists s. Qed.
#[local] Instance keeps_trans : Transitive keeps.
Proof.
  intros g1 g2 g3 H12 H23 s Hg Hs. destruct (H12 s Hg Hs) as (s2 & Hg2 & Hs2 & Hm2 & Hc2).
  destruct (H23 s2 Hg2 Hs2) as (s3 & ? & ? & ? & ?). exists s3. split_and!; congruence || done.
Qed.

Class Framed {A} (m : ST process A) : Prop := framed : ∀ g, keeps g (m g).2.

#[local] Instance framed_ret {A} (a : A) : Framed (st_ret a).
Proof. intros g. reflexivity. Qed.
#[local] Instance framed_raise {A} e : Framed (st_raise (A:=A) e).
Proof. intros g. reflexivity. Qed.
#[local] Instance framed_lift {A} (m : res A) : Framed (st_lift m).
Proof. intros g. reflexivity. Qed.
#[local] Instance framed_bind {A B} (m : ST process A) (f : A → ST process B) :
  Framed m → (∀ a, Framed (f a)) → Framed (st_bind m f).
Proof.
  intros Hm Hf g. unfold st_bind. specialize (Hm g). destruct (m g) as [[a|e] g1]; [|done].
  etransitivity; [exact Hm|apply Hf].
Qed.
#[local] Instance framed_iter {A} (f : A → ST process unit) l : (∀ a, Framed (f a)) → Framed (st_iter f l).
Proof. intros Hf. induction l; cbn; apply _. Qed.
#[local] Instance framed_catch {A} (m : ST process A) h : Framed m → (∀ e, Framed (h e)) → Framed (catch_all m h).
Proof.
  intros Hm Hh g. unfold catch_all. specialize (Hm g). destruct (m g) as [[a|e] g1]; [done|].
  etransitivity; [exact Hm|apply Hh].
Qed.
#[local] Instance framed_machine {A} (m : ST W A) : Framed (on_machine m).
Proof.
  intros g s Hg Hs. unfold on_machine. rewrite Hg. destruct (m (cs_world s)) as [r w]. cbn.
  eexists. split; [done|]. split; [|done]. destruct Hs. by constructor.
Qed.

(** The other branches of a computation *)
Ltac framed := repeat first
  [ apply _
  | progress intros
  | apply framed_bind
  | apply framed_catch
  | apply framed_iter
  | match goal with |- Framed (match ?x with _ => _ end) => destruct x end
  | match goal with |- Framed (let '_ := ?x in _) => destruct x end ].

(** *** Loading an index *)

Lemma get_instance_sane url s r s' :
  sane s → Conf.get_instance urlparse classes url s = (r, s') →
  sane s' ∧ cs_cache s' = cs_cache s ∧ ∀ b, r = Ok b → good b ∧ (url = SB_URL → b = status_store).
Proof.
  intros [Hd Hst Hi Hst0 Hurl0]. unfold Conf.get_instance, Store.get_instance. destruct (urlparse url) as [[ty loc] path] eqn:Hparse.
  destruct (cs_stores s !! url) as [b|] eqn:Hb.
  - intros [= <- <-]. split_and!; [by constructor|done|]. intros b' [= <-]. split; [by apply (Hst url)|]. intros ->. by apply Hurl0.
  - destruct (Store.find_class ty classes) as [cls|] eqn:Hc; [|intros [= <- <-]; split_and!; [by constructor|done|done]].
    rewrite Hd. destruct (cls loc path ">" (cs_world s)) as [[b|e] w'] eqn:Hrun; intros [= <- <-]; cbn.
    + assert (good b) as Hgood.
      { assert (∃ name, (name, cls) ∈ classes) as [name Hin]; [|by eapply good_classes].
        clear -Hc. induction classes as [|[name c] l IH]; [done|]. cbn in Hc. case_decide.
        - injection Hc as ->. exists name. by left.
        - destruct (IH Hc) as [n Hn]. exists n. by right. }
      assert (url = SB_URL → b = status_store) as Hb0.
      { intros ->. rewrite url_parsed in Hparse. injection Hparse as <- <- <-. rewrite url_class in Hc. injection Hc as <-.
        by apply (class_store _ _ _ Hrun). }
      split_and!; [|done|by intros ? [= <-]]. constructor; [done| |done|done|].
      * by apply map_Forall_insert_2.
      * intros b'. cbn. destruct (decide (url = SB_URL)) as [->|]; [rewrite lookup_insert_eq; intros [= <-]; by apply Hb0|].
        rewrite lookup_insert_ne by done. apply Hurl0.
    + split_and!; [by constructor|done|done].
Qed.

Definition load_new (index url : string) (recurse : bool) : ST (conf (W:=W)) unit :=
  let! store := Conf.get_instance urlparse classes url in
  let! c := new_cache store recurse in
  λ s, (Ok tt, set_cache <[index := c]> s).

Lemma load_new_sane index url recurse s r s' :
  (index = SB_INDEX → url = SB_URL) → sane s → load_new index url recurse s = (r, s') →
  sane s' ∧ ((is_ok r = false ∧ cs_cache s' = cs_cache s) ∨ (r = Ok tt ∧ ∃ c, index_ok c ∧ cs_cache s' = <[index := c]> (cs_cache s))).
Proof.
  intros Hiu Hs. unfold load_new, st_bind. destruct (Conf.get_instance urlparse classes url s) as [r1 s1] eqn:Hi.
  destruct (get_instance_sane url s r1 s1 Hs Hi) as (Hs1 & Hc1 & Hb). destruct r1 as [b|e]; [|intros [= <- <-]; split; [done|by left]].
  destruct (Hb b eq_refl) as [Hgood Hb0]. unfold new_cache, cache_init. pose proof Hs1 as [Hd Hst Hix Hst0 Hurl0]. rewrite Hd. cbn -[String.length].
  rewrite decide_False by (cbn; lia). unfold st_bind. destruct (Store.b_load b recurse (cs_world s1)) as [[p|e] w] eqn:Hl; cbn.
  - destruct (Hgood _ _ _ _ Hl) as [Hwf Hdel]. intros [= <- <-].
    assert (index_ok (Cache b ">" false p recurse)) as Hok by done. split.
    + constructor; [done|done| | |done]; intros c; cbn; (destruct (decide (index = SB_INDEX)) as [->|Hne];
        [rewrite lookup_insert_eq; intros [= <-]|rewrite lookup_insert_ne by done]).
      * done. * apply Hix. * by apply Hb0, Hiu. * apply Hst0.
    + right. split; [done|]. eexists. split; [exact Hok|]. cbn. by rewrite Hc1.
  - intros [= <- <-]. split; [by constructor|]. by left.
Qed.

Lemma load_skip index url s :
  Conf.load urlparse classes index url [("recurse", VBool true); ("skip_reload", VBool true)] s =
    match cs_cache s !! index with Some _ => (Ok tt, s) | None => load_new index url true s end.
Proof. unfold Conf.load. erewrite st_bind_run; [|reflexivity]. cbn beta. by destruct (cs_cache s !! index). Qed.
Lemma load_again index url s :
  Conf.load urlparse classes index url [("recurse", VBool true); ("fail_reload", VBool false)] s = load_new index url true s.
Proof. unfold Conf.load. erewrite st_bind_run; [|reflexivity]. cbn beta. by destruct (cs_cache s !! index). Qed.

Lemma class_load_run index url kw g s :
  g_conf g = Some s →
  conf_class_load machine_id_file urlparse classes index url (VBool true) kw g =
    (let '(r, s') := Conf.load urlparse classes index url (("recurse", VBool true) :: kw) s in
     (r, Singleton (Some s') (g_delim g) (g_machine_id g) (g_env g))).
Proof.
  intros Hg. unfold conf_class_load. erewrite st_bind_run; [|unfold conf_class_init; by rewrite Hg].
  unfold conf_call. by rewrite Hg.
Qed.

#[local] Instance framed_mapped url : Framed (mapped_conf machine_id_file urlparse classes url).
Proof.
  intros g s Hg Hs. unfold mapped_conf, mapped_init. rewrite (class_load_run _ _ _ _ s) by done. rewrite load_skip.
  destruct (cs_cache s !! _conf_idx); [by exists s|].
  destruct (load_new _conf_idx url true s) as [r s'] eqn:Hl. destruct (load_new_sane _conf_idx url true s r s' ltac:(done) Hs Hl) as [Hs' Hc].
  exists s'. split_and!; [done|done|done|]. destruct Hc as [[_ ->]|(_ & c & _ & ->)]; [done|by rewrite lookup_insert_ne].
Qed.
#[local] Instance framed_cluster key dflt : Framed (cluster_get (W:=W) key dflt).
Proof.
  intros g s Hg Hs. unfold cluster_get, mapped_get, conf_call. rewrite Hg. unfold get_val, with_index.
  destruct (cs_cache s !! _conf_idx) as [c|]; [|by exists s]. unfold st_bind, st_lift.
  by destruct (cache_get c key true); exists s.
Qed.
#[local] Instance framed_files {A} (m : ST Schema.tree A) : Framed (on_files (W:=W) m).
Proof. apply _. Qed.
#[local] Instance framed_look {A} (f : Schema.tree → res A) : Framed (look (W:=W) f).
Proof. apply _. Qed.
#[local] Instance framed_exists path : Framed (exists_path (W:=W) cwd path).
Proof. apply _. Qed.
#[local] Instance framed_ask {A} (f : W → A) : Framed (ask f).
Proof. apply _. Qed.
#[local] Instance framed_run cmd : Framed (run (W:=W) cmd).
Proof. apply _. Qed.

Notation components_and_services := (_get_component_and_services (W:=W) repr).
#[local] Instance framed_services node comp : Framed (get_services (W:=W) node comp).
Proof.
  apply framed_bind; [apply _|]. intros v. apply framed_bind; [|apply _]. destruct (is_null v); [apply _|].
  apply framed_bind; [apply _|]. intros n. induction (Release.range n) as [|i l IH]; apply _.
Qed.
#[local] Instance framed_configured node indexes acc : Framed (configured (W:=W) node indexes acc).
Proof. revert acc. induction indexes as [|i l IH]; intros acc; cbn; apply _. Qed.
#[local] Instance framed_components node_id components : Framed (components_and_services node_id components).
Proof. unfold _get_component_and_services. case_decide; apply _. Qed.

#[local] Instance framed_health : Framed (node_health (W:=W)).
Proof. unfold node_health, get_cpu_overall_usage, get_system_uptime, get_disk_overall_usage, get_mem_overall_usage. framed. Qed.

#[local] Instance framed_manifest path config : Framed (add_manifest (W:=W) cwd path config).
Proof.
  unfold add_manifest, catch_bundle, copy_config, copy_solution, copy_release, write_health, pack_common, open_w, write_text.
  framed.
Qed.

#[local] Instance framed_exists_value v : Framed (exists_value (W:=W) cwd v).
Proof. destruct v; apply _. Qed.
#[local] Instance framed_component_files f files : (∀ c, Framed (f c)) → Framed (component_files (W:=W) cwd f files).
Proof.
  intros Hf. induction files as [|v files IH]; cbn; [apply _|]. apply framed_bind; [apply _|]. intros [].
  - destruct v as [| | | |path| |]; try done. intros g. unfold load_yaml.
    pose proof (framed_look (Schema.load cwd Schema.Yaml path) g) as Hl.
    destruct (look _ g) as [[d|e] g1]; [|done]. etransitivity; [exact Hl|].
    assert (Framed (if truthy d then (let! cs := st_lift (file_commands d) in
      (if truthy cs then f cs else st_ret tt) ;;; component_files cwd f files) else st_ret tt)) as Hfr by framed.
    apply Hfr.
  - destruct v; exact IH.
Qed.
#[local] Instance framed_turn b node_id a info c : Framed (component_turn (W:=W) cwd repr b node_id a info c).
Proof. unfold component_turn, _exc_components_cmd. framed. apply framed_component_files. framed. Qed.
#[local] Instance framed_summary b : Framed (_create_summary_file (W:=W) cwd repr repr_comment b).
Proof. unfold _create_summary_file. framed. Qed.
#[local] Instance framed_archive b node_id : Framed (archive (W:=W) cwd repr str_exn b node_id).
Proof. unfold archive. framed. Qed.
#[local] Instance framed_setup : Framed (setup_config (W:=W) cwd).
Proof. unfold setup_config, load_yaml. framed. Qed.

(** ** The status in the index *)

Context (mid node id : string).
Context (mid_ne : mid ≠ "") (mid_node : strip mid = node).
Context (node_clean : clean_name ">" node = true) (id_clean : clean_name ">" id = true).

Definition status_path : list string := [node; id; "status"].

(** The process holds the index of the status, where the status is [v]. *)
Definition status_at g (v : value) : Prop :=
  g_machine_id g = VStr mid ∧
  ∃ s c, g_conf g = Some s ∧ sane s ∧ cs_cache s !! SB_INDEX = Some c ∧ cell (cc_data c) status_path = Some v.
(** The process is initialised. *)
Definition ready g : Prop := g_machine_id g = VStr mid ∧ ∃ s, g_conf g = Some s ∧ sane s.

Lemma keeps_status g g' v : status_at g v → keeps g g' → status_at g' v.
Proof.
  intros [Hm (s & c & Hg & Hs & Hc & Hv)] Hk. destruct (Hk s Hg Hs) as (s' & Hg' & Hs' & Hm' & Hc').
  split; [congruence|]. exists s', c. split_and!; congruence || done.
Qed.

Lemma lookup_app p q data : lookup (p ++ q) data = x ← lookup p data; lookup q x.
Proof.
  revert data. induction p as [|k p IH]; intros data; [done|]. cbn. destruct data as [| | | | | |items]; try done.
  destruct (dget _ items) as [x|]; [|done]. cbn. destruct (Payload.key_index k).2 as [[j t]|]; [|apply IH].
  destruct x; try done. destruct (l !! j) as [y|]; [|done]. cbn. apply IH.
Qed.

Lemma split_status : split ">" (status_key repr (VStr node) id) = [node; id].
Proof.
  destruct (clean_name_parts _ _ node_clean) as (_ & _ & Hn). destruct (clean_name_parts _ _ id_clean) as (_ & _ & Hi).
  unfold status_key. change (Files.py_str repr (VStr node) +:+ ">" +:+ id) with (node +:+ String ">" id).
  by rewrite split_app, split_no_char.
Qed.
Lemma split_status_key : split ">" (status_key repr (VStr node) id +:+ ">status") = status_path.
Proof.
  destruct (clean_name_parts _ _ node_clean) as (_ & _ & Hn). destruct (clean_name_parts _ _ id_clean) as (_ & _ & Hi).
  unfold status_key. rewrite !sapp_assoc.
  change (Files.py_str repr (VStr node) +:+ ">" +:+ id +:+ ">status") with (node +:+ String ">" (id +:+ String ">" "status")).
  by rewrite !split_app.
Qed.

(** [Conf.set] on the index *)
Lemma sb_set_run d m e s c key v :
  sane s → cs_cache s !! SB_INDEX = Some c → wf v →
  ∃ r s' c', sb_set key v (Singleton (Some s) d m e) = (r, Singleton (Some s') d m e) ∧ sane s' ∧
    cs_cache s' !! SB_INDEX = Some c' ∧
    (r = Ok tt → cell (cc_data c') (split ">" key) = Some v ∧ cc_dirty c' = true).
Proof.
  intros Hs Hc Hv. destruct (sane_index s Hs c Hc) as [Hwf Hdel].
  destruct (set_cell SB_INDEX (cc_data c) s key v) as (p' & Hset & _ & Hl & _ & Hcell & _); [|done|].
  { constructor; [by exists c|done|done]. }
  destruct Hl as [(c' & Hc' & Hp') Hwf' Hdel']. assert (cs_delim (Conf.set SB_INDEX key v s).2 = cs_delim s ∧
    cs_stores (Conf.set SB_INDEX key v s).2 = cs_stores s ∧ cc_store c' = cc_store c ∧
    ((Conf.set SB_INDEX key v s).1 = Ok tt → cc_dirty c' = true)) as (Hd' & Hst' & Hcs' & Hdirty).
  { revert Hc'. unfold Conf.set, on_cache, with_index. rewrite Hc. unfold cache_set, cache_mutate.
    destruct (Payload.set key v (cc_data c)) as [[[]|?] p2]; cbn; rewrite lookup_insert_eq; by intros [= <-]. }
  destruct (Conf.set SB_INDEX key v s) as [r s'] eqn:Hrun. cbn [fst snd] in *. injection Hset as ->.
  exists (Payload.set key v (cc_data c)).1, s', c'. unfold sb_set, conf_call. cbn [g_conf]. rewrite Hrun. split_and!; [done| |done|].
  - pose proof Hs as [Hd Hst Hi Hst0 Hurl0]. constructor; [by rewrite Hd'|by rewrite Hst'| | |by rewrite Hst'];
      intros c2 Hc2; assert (c2 = c') as -> by congruence; [by subst|]. rewrite Hcs'. by apply Hst0.
  - intros Hr. split; [subst p'; by apply Hcell|by apply Hdirty].
Qed.

(** The file of the status has [v] for the bundle. *)
Definition saved (w : W) (v : value) : Prop :=
  status_class status_loc status_file ">" w = (Ok status_store, w) ∧
  ∃ p, Store.b_load status_store true w = (Ok p, w) ∧ cell p status_path = Some v.

(** [Conf.save] keeps what the index holds, and writes what was set. *)
Lemma sb_save_run d m e s c :
  sane s → cs_cache s !! SB_INDEX = Some c →
  ∃ r s' c', sb_save (Singleton (Some s) d m e) = (r, Singleton (Some s') d m e) ∧ sane s' ∧
    cs_cache s' !! SB_INDEX = Some c' ∧ cc_data c' = cc_data c ∧
    (∀ v, r = Ok tt → cc_dirty c = true → cell (cc_data c) status_path = Some v → saved (cs_world s') v).
Proof.
  intros Hs Hc. unfold sb_save, conf_call. cbn [g_conf]. unfold Conf.save, with_index. rewrite Hc.
  destruct (cache_dump (c, cs_world s)) as [r [c' w]] eqn:Hd. exists r. eexists _, c'.
  assert (cc_data c' = cc_data c ∧ cc_store c' = cc_store c ∧
    (r = Ok tt → cc_dirty c = true → Store.b_dump (cc_store c) (cc_data c) (cs_world s) = (Ok tt, w))) as (Hdata & Hstore & Hdump).
  { unfold cache_dump in Hd. destruct (cc_dirty c); [destruct (Store.b_dump _ _ _) as [[[]|?] ?]|];
      injection Hd; intros; by subst. }
  split; [done|]. cbn. rewrite lookup_insert_eq. pose proof Hs as [Hdl Hst Hi Hst0 Hurl0]. split_and!; [|done|done|].
  - constructor; [done|done| | |done]; intros c2; cbn; rewrite lookup_insert_eq; intros [= <-].
    + unfold index_ok. rewrite Hdata. by apply Hi.
    + rewrite Hstore. by apply Hst0.
  - intros v Hr Hdirty Hv. specialize (Hdump Hr Hdirty). rewrite (Hst0 c Hc) in Hdump. destruct (Hi c Hc) as [Hwf Hdel].
    split; [by eapply dump_there|]. destruct (dump_read _ _ _ Hwf Hdel Hdump) as (p & Hp & Hpd).
    exists p. split; [done|]. unfold cell in *. by rewrite Hpd.
Qed.

(** A load of the index: it is there when the load returns. *)
Lemma sb_load_run g s kw r g' :
  g_conf g = Some s → sane s →
  kw = [("skip_reload", VBool true)] ∨ kw = [("fail_reload", VBool false)] →
  conf_load_sb machine_id_file urlparse classes kw g = (r, g') →
  keeps g g' ∧ is_ok r = false ∨
  (∃ s' c, r = Ok tt ∧ g' = Singleton (Some s') (g_delim g) (g_machine_id g) (g_env g) ∧ sane s' ∧ cs_cache s' !! SB_INDEX = Some c).
Proof.
  intros Hg Hs Hkw. unfold conf_load_sb. rewrite (class_load_run _ _ _ _ s) by done.
  assert (∀ r1 s1, load_new SB_INDEX SB_URL true s = (r1, s1) →
    (r1, Singleton (Some s1) (g_delim g) (g_machine_id g) (g_env g)) = (r, g') →
    keeps g g' ∧ is_ok r = false ∨
    (∃ s' c, r = Ok tt ∧ g' = Singleton (Some s') (g_delim g) (g_machine_id g) (g_env g) ∧ sane s' ∧ cs_cache s' !! SB_INDEX = Some c)) as Hnew.
  { intros r1 s1 Hl. destruct (load_new_sane SB_INDEX SB_URL true s r1 s1 (λ _, eq_refl) Hs Hl) as [Hs1 [[Hr Hc]|(-> & c & _ & Hc)]]; intros [= <- <-].
    - left. split; [|done]. intros s0 Hg0 _. exists s1. replace s0 with s by congruence. by rewrite Hc.
    - right. exists s1, c. by rewrite Hc, lookup_insert_eq. }
  destruct Hkw as [->| ->].
  - rewrite load_skip. destruct (cs_cache s !! SB_INDEX) as [c|] eqn:Hc.
    + intros [= <- <-]. right. exists s, c. done.
    + destruct (load_new _ _ _ s) as [r1 s1] eqn:Hl. by apply Hnew.
  - rewrite load_again. destruct (load_new _ _ _ s) as [r1 s1] eqn:Hl. by apply Hnew.
Qed.

(** ** Registering, recording and reading the status *)

Lemma name_ok n : clean_name ">" n = true → plain n = true ∧ accepted n = true.
Proof.
  intros Hn. pose proof (name_index n Hn) as Hi. pose proof (clean_name_parts _ _ Hn) as (Hb & _ & _).
  unfold plain, accepted. rewrite Hi. cbn [fst snd]. by rewrite Hb.
Qed.
Lemma status_path_ok : forallb plain status_path = true ∧ forallb accepted status_path = true.
Proof.
  destruct (name_ok node node_clean) as [Hp1 Ha1], (name_ok id id_clean) as [Hp2 Ha2].
  unfold status_path. cbn [forallb]. by rewrite Hp1, Hp2, Ha1, Ha2.
Qed.

Notation register := (register machine_id_file urlparse classes repr (VStr node) id).
Notation record_status b := (record_status machine_id_file urlparse classes repr b (VStr node)).
Notation components_init b a :=
  (components_init cwd machine_id_file urlparse classes repr repr_comment str_exn b (VStr node) a).
Notation get_bundle_status := (_get_bundle_status machine_id_file urlparse classes repr str_exn (Some id)).

Definition world_of g : W := match g_conf g with Some s => cs_world s | None => (g_env g).1.2 end.

Lemma register_status g g' :
  ready g → register g = (Ok tt, g') → status_at g' (VStr "In-Progress") ∧ saved (world_of g') (VStr "In-Progress").
Proof.
  intros [Hm (s & Hg & Hs)] Hr. apply st_bind_ok in Hr as ([] & g1 & Hl & Hr).
  destruct (sb_load_run g s _ _ g1 Hg Hs (or_introl eq_refl) Hl) as [[_ ?]|(s1 & c & _ & -> & Hs1 & Hc)]; [done|].
  apply st_bind_ok in Hr as (now & g2 & Ha & Hr). unfold ask, on_machine in Ha. cbn in Ha. injection Ha as <- <-.
  cbn [g_conf cs_world set_env] in Hr. set (s2 := set_env _ _ _ s1) in Hr.
  assert (sane s2) as Hs2 by (destruct Hs1; by constructor).
  apply st_bind_ok in Hr as ([] & g3 & Hset & Hr).
  edestruct (sb_set_run (g_delim g) (g_machine_id g) (g_env g) s2 c (status_key repr (VStr node) id)
    (start_status (h_now (cs_world s1))) Hs2 Hc) as (r & s3 & c3 & Hrun & Hs3 & Hc3 & Hcell).
  { constructor; [|by repeat constructor]. apply (bool_decide_unpack _). by vm_compute. }
  rewrite Hrun in Hset. injection Hset as -> <-. destruct (Hcell eq_refl) as [Hv Hdirty]. rewrite split_status in Hv.
  assert (Hv' : cell (cc_data c3) status_path = Some (VStr "In-Progress")).
  { unfold cell in *. change status_path with ([node; id] ++ ["status"]). rewrite lookup_app, Hv. reflexivity. }
  destruct (sb_save_run (g_delim g) (g_machine_id g) (g_env g) s3 c3 Hs3 Hc3) as (r4 & s4 & c4 & Hsave & Hs4 & Hc4 & Hdata & Hsaved).
  rewrite Hsave in Hr. injection Hr as -> <-. split; [split; [done|]|by apply Hsaved].
  exists s4, c4. split_and!; [done..|]. by rewrite Hdata.
Qed.

Lemma record_run b st g g' :
  b_id b = id → wf st → ready g → record_status b st g = (Ok tt, g') → status_at g' st ∧ saved (world_of g') st.
Proof.
  intros Hb Hst [Hm (s & Hg & Hs)] Hr. apply st_bind_ok in Hr as ([] & g1 & Hl & Hr).
  destruct (sb_load_run g s _ _ g1 Hg Hs (or_intror eq_refl) Hl) as [[_ ?]|(s1 & c & _ & -> & Hs1 & Hc)]; [done|].
  apply st_bind_ok in Hr as ([] & g3 & Hset & Hr).
  destruct (sb_set_run (g_delim g) (g_machine_id g) (g_env g) s1 c (status_key repr (VStr node) (b_id b) +:+ ">status") st Hs1 Hc Hst)
    as (r & s3 & c3 & Hrun & Hs3 & Hc3 & Hcell).
  rewrite Hrun in Hset. injection Hset as -> <-. destruct (Hcell eq_refl) as [Hv Hdirty]. rewrite Hb, split_status_key in Hv.
  destruct (sb_save_run (g_delim g) (g_machine_id g) (g_env g) s3 c3 Hs3 Hc3) as (r4 & s4 & c4 & Hsave & Hs4 & Hc4 & Hdata & Hsaved).
  rewrite Hsave in Hr. injection Hr as -> <-. split; [split; [done|]|by apply Hsaved].
  exists s4, c4. split_and!; [done..|]. by rewrite Hdata.
Qed.

(** What [_get_bundle_status] tells, once it has loaded the index *)
Lemma status_read g s g1 v :
  g_machine_id g = VStr mid → g_conf g = Some s →
  conf_load_sb machine_id_file urlparse classes [("skip_reload", VBool true)] g = (Ok tt, g1) →
  status_at g1 v → truthy v = true → get_bundle_status g = (Ok (Response v OPERATION_SUCESSFUL), g1).
Proof.
  intros Hm0 Hg0 Hl [Hm (s1 & c & Hg & Hs & Hc & Hv)] Ht. unfold _get_bundle_status, catch_all, read_status.
  assert (conf_class_machine_id machine_id_file g = (Ok (VStr node), g)) as Hid.
  { unfold conf_class_machine_id. erewrite st_bind_run; [|unfold conf_class_init; by rewrite Hg0]. cbn beta.
    by rewrite Hm0, decide_False, mid_node. }
  rewrite (st_bind_run _ _ _ _ _ Hid), (st_bind_run _ _ _ _ _ Hl). destruct (clean_name_parts _ _ id_clean) as (Hb & _ & _).
  rewrite decide_False by (by intros ->).
  assert (sb_get (status_key repr (VStr node) id +:+ ">status") g1 = (Ok v, g1)) as Hget.
  { unfold sb_get, conf_call. rewrite Hg. destruct (sane_index s1 Hs c Hc) as [Hwf Hdel]. destruct status_path_ok.
    rewrite (get_cell SB_INDEX (cc_data c) s1 _ status_path) by (done || apply split_status_key || by constructor; [exists c|..]).
    rewrite Hv. cbn. by destruct g1; cbn in *; subst. }
  rewrite (st_bind_run _ _ _ _ _ Hget). unfold st_ret. by rewrite Ht.
Qed.

Lemma status_told g v : status_at g v → truthy v = true → get_bundle_status g = (Ok (Response v OPERATION_SUCESSFUL), g).
Proof.
  intros Hst Ht. pose proof Hst as [Hm (s & c & Hg & Hs & Hc & Hv)]. apply (status_read g s g v); try done.
  unfold conf_load_sb. rewrite (class_load_run _ _ _ _ s), load_skip, Hc by done. by destruct g; cbn in *; subst.
Qed.

(** What it tells another process: one that has loaded nothing yet *)
Definition fresh (w : W) : process :=
  Singleton (Some (ConfStore ">" ∅ ∅ (VStr mid) (VStr mid) ∅ w 0)) (VStr ">") (VStr mid) (∅, w, 0%Z).
Definition told_elsewhere (w : W) (st : value) : Prop :=
  (get_bundle_status (fresh w)).1 = Ok (Response st OPERATION_SUCESSFUL).

Lemma saved_told w v : saved w v → truthy v = true → told_elsewhere w v.
Proof.
  intros [Hcls (p & Hload & Hv)] Ht. unfold told_elsewhere.
  set (s0 := ConfStore ">" ∅ ∅ (VStr mid) (VStr mid) ∅ w 0) in *.
  assert (Hs0 : sane s0) by (constructor; [done|apply map_Forall_empty|done..]).
  set (c := Cache status_store ">" false p true).
  set (s1 := set_cache <[SB_INDEX := c]> (set_env (<[SB_URL := status_store]> ∅) w 0 s0)).
  assert (Hnew : load_new SB_INDEX SB_URL true s0 = (Ok tt, s1)).
  { unfold load_new, st_bind, Conf.get_instance, Store.get_instance. rewrite url_parsed. cbn [cs_stores s0].
    rewrite lookup_empty, url_class. cbn [cs_delim cs_world s0]. rewrite Hcls.
    unfold new_cache, cache_init. cbn -[String.length Store.b_load]. rewrite decide_False by (cbn; lia).
    unfold st_bind. by rewrite Hload. }
  destruct (load_new_sane SB_INDEX SB_URL true s0 _ _ (λ _, eq_refl) Hs0 Hnew) as [Hs1 _].
  rewrite (status_read _ s0 (Singleton (Some s1) (VStr ">") (VStr mid) (∅, w, 0%Z)) v); [done|done|done| | |done].
  - unfold conf_load_sb. rewrite (class_load_run _ _ _ _ s0), load_skip by done. change (cs_cache s0 !! SB_INDEX) with (@None (cache (W:=W))).
    by rewrite Hnew.
  - split; [done|]. exists s1, c. split_and!; [done|done|apply lookup_insert_eq|done].
Qed.

(** ** The generation *)

Lemma framed_step {A B} (m : ST process A) (f : A → ST process B) {Hm : Framed m} g r g' :
  st_bind m f g = (r, g') →
  (keeps g g' ∧ is_ok r = false) ∨ ∃ a g1, keeps g g1 ∧ f a g1 = (r, g').
Proof.
  unfold st_bind. specialize (Hm g). destruct (m g) as [[a|e] g1]; cbn in Hm.
  - intros Hf. right. by exists a, g1.
  - intros [= <- <-]. by left.
Qed.

Notation run_components b a := (run_components cwd machine_id_file urlparse classes repr repr_comment b (VStr node) a).

(** The status that the writing of the archive, begun in [g], comes to *)
Definition archive_result (b : bundle) g (st : value) : Prop :=
  match (write_archive cwd repr b (VStr node) g).1 with
  | Ok _ => st = success_status b
  | Err e => st = failure_status str_exn e
  end.

Lemma archive_final b g st g' : archive cwd repr str_exn b (VStr node) g = (Ok st, g') → archive_result b g st.
Proof.
  intros Hr. apply st_bind_ok in Hr as (v & g1 & Hc & Hr). apply st_bind_ok in Hr as ([] & g2 & _ & Hr).
  injection Hr as <- _. unfold catch_all, st_bind in Hc. unfold archive_result.
  destruct (write_archive cwd repr b (VStr node) g) as [[[]|e] g3]; by injection Hc.
Qed.

(** Where [init] may stop, and the status it then records *)
Lemma components_cases b a g r g' :
  components_init b a g = (r, g') →
  (keeps g g' ∧ is_ok r = false) ∨
  ∃ g1 st g2, run_components b a g = (Ok tt, g1) ∧ archive_result b g1 st ∧ keeps g g2 ∧ record_status b st g2 = (r, g').
Proof.
  intros Hr. unfold Bundle.components_init in Hr.
  assert (Hf : Framed (run_components b a)) by (unfold Bundle.run_components; framed).
  pose proof (Hf g) as Hk. unfold st_bind in Hr at 1. destruct (run_components b a g) as [[[]|e] g1]; cbn [snd] in Hk.
  2:{ injection Hr as <- <-. by left. }
  unfold st_bind in Hr. pose proof (framed_archive b (VStr node) g1) as Hk2.
  destruct (archive cwd repr str_exn b (VStr node) g1) as [[st|e] g2] eqn:Ha; cbn [snd] in Hk2.
  - right. exists g1, st, g2. split_and!; [done|by eapply archive_final|by etransitivity|done].
  - injection Hr as <- <-. left. split; [by etransitivity|done].
Qed.

Notation generate_registered o path :=
  (generate_registered cwd machine_id_file urlparse classes py_float str_float repr repr_comment str_exn o path (VStr node)).

(** What [_get_bundle_status] tells of the bundle, in the same process *)
Definition told g (st : value) : Prop := get_bundle_status g = (Ok (Response st OPERATION_SUCESSFUL), g).

(** How [init], begun in [g], ended in [g'], and the status it leaves: that of
    the archive, for this process and for others; what was there before when it
    raises; and nothing is said when recording the status is what raised. *)
Inductive ended (b : bundle) (a : arguments) (g g' : process) : res unit → Prop :=
| recorded g1 st :
    run_components b a g = (Ok tt, g1) → archive_result b g1 st →
    told g' st → told_elsewhere (world_of g') st → ended b a g g' (Ok tt)
| broken_off e : told g' (VStr "In-Progress") → ended b a g g' (Err e)
| not_recorded g1 st g2 e :
    run_components b a g = (Ok tt, g1) → archive_result b g1 st →
    record_status b st g2 = (Err e, g') → ended b a g g' (Err e).

Lemma result_truthy b g st : archive_result b g st → truthy st = true ∧ wf st.
Proof.
  unfold archive_result. destruct (_.1) as [|e]; intros ->; (split; [done|constructor]).
Qed.

Lemma components_ended b a g r g' :
  b_id b = id → status_at g (VStr "In-Progress") → components_init b a g = (r, g') → ended b a g g' r.
Proof.
  intros Hb Hst Hr. apply components_cases in Hr as [[Hk Hr]|(g1 & st & g2 & Hrun & Hf & Hk & Hr)].
  - destruct r as [|e]; [done|]. apply broken_off, status_told; [|done]. by eapply keeps_status.
  - destruct (result_truthy b g1 st Hf) as [Ht Hwf]. destruct r as [[]|e].
    + destruct (record_run b st g2 g') as [Hat Hsaved]; [done|done| |done|].
      { pose proof (keeps_status g g2 _ Hst Hk) as [Hm (s & c & ? & ? & _)]. split; [done|]. by exists s. }
      apply (recorded b a g g' g1 st Hrun Hf); [by apply status_told|by apply saved_told].
    + by eapply not_recorded.
Qed.


End status.
End BundleStatus.
