(* ===== verification/BundleWitness.v ===== *)
(** A node with one component, and the generation of a bundle on it: the
    hypotheses of the theorem on the status hold. *)
From Stdlib Require Import Ascii.
From stdpp Require Import countable.
From S2P Require Import Prelude PyStr PyVal KvPayload KvPayloadFacts KvPayloadKeys KvPayloadSpec KvStore KvFiles KvDir KvCodec ConfStore SchemaDoc Bundle BundleSpec BundleStatus.
Import PyStr PayloadKeys PayloadSpec Dir Conf Bundle BundleStatus.

Module BundleWitness.

(** The files of the node, and the document with the status of the bundles *)
Notation world := (Schema.tree * value)%type.
#[local] Instance node : Host world := {
  h_tree w := w.1;
  h_set_tree fs w := (fs, w.2);
  h_run cmd w := ((Some "up 1 day", 0%Z), (<[ ["sb"; "SB1"; "utils"] := FDir ]> w.1, w.2));
  h_now _ := "2022-01-01 10:00:00";
  h_cpu_percent w := ("3.5", w);
  h_loadavg _ := ("0.1", "0.2", "0.3");
  h_users _ := 1;
  h_mounts _ := [];
  h_disk_usage _ _ := (50000000000%Z, 20000000000%Z, 30000000000%Z, "40.0");
  h_memory _ := (λ kn, (kn.2, if decide (kn.2 = "percent") then Percent "41.5" else Bytes 4194304)) <$> memory_keys
}.

(** Enough of the formats for the two files the node has *)
#[local] Instance formats : Schema.Libraries := {
  lib_loads _ s :=
    if decide (s = "all") then Ok (VDict [("COMPONENTS", VDict [("utils", VList [VStr "/u.yaml"])])])
    else if decide (s = "utils") then Ok (VDict [("support_bundle", VList [VStr "utils_support_bundle"])])
    else Err PlainException;
  lib_dumps _ _ := Ok "text";
  lib_tar _ _ := "archive"
}.

Definition fs0 : Schema.tree := {[
  ["sb"] := FDir; ["sb"; "SB1"] := FDir; ["u.yaml"] := FFile "utils";
  ["opt"] := FDir; ["opt"; "seagate"] := FDir; ["opt"; "seagate"; "cortx"] := FDir;
  ["opt"; "seagate"; "cortx"; "utils"] := FDir; ["opt"; "seagate"; "cortx"; "utils"; "conf"] := FDir;
  ["opt"; "seagate"; "cortx"; "utils"; "conf"; "support_bundle.yaml"] := FFile "all" ]}.

(** The document of the status is part of the world; it starts empty. *)
Definition status_store : Store.backend world :=
  Store.Backend (λ _ w, (if Codec.wfb w.2 && is_dict w.2 then Ok (Payload.Payload w.2 ">" []) else Err PlainException, w))
                (λ p w, (Ok tt, (w.1, Payload.kp_data p))).
Definition status_class (_ _ _ : string) : ST world (Store.backend world) := λ w, (Ok status_store, w).
Definition classes : list (string * (string → string → string → ST world (Store.backend world))) := [("json", status_class)].
Definition cluster : cache (W:=world) := Cache status_store ">" false
  (Payload.Payload (VDict [("cortx", VDict [("common", VDict [("storage", VDict [("log", VStr "/var/log")])])]);
                           ("node", VDict [("m1", VDict [("name", VStr "n1")])])]) ">" []) true.
Definition s0 : conf := ConfStore ">" {["cortx_conf" := cluster]} ∅ (VStr "m1") (VStr "m1") ∅ (fs0, VDict []) 0.
Definition g0 : singleton := Singleton (Some s0) (VStr ">") (VStr "m1") (∅, (fs0, VDict []), 0%Z).

Definition request : options := Options "SB1" (VStr "test") (VStr "P5D") "500MB" "yaml:///etc/cluster.conf"
  VNull VNull VNull "UTILS" "/sb" "generate_bundle".

Notation url := (λ _ : string, ("json", "", "")).
Notation no_file := (λ _ : world, @None string).
Definition some_float (s : string) : option float := Some (Finite 500 0).
Definition float_text (x : float) : string := "2500.0".
Definition no_text {A} (x : A) : string := "".

Notation run := ((register no_file url classes no_text (VStr "m1") "SB1" ;;;
  generate_registered [] no_file url classes some_float float_text no_text no_text no_text request "/sb/SB1" (VStr "m1")) g0).

Definition generated (r : res outcome) : bool := match r with Ok (Generated _) => true | _ => false end.
Lemma run_generated : generated run.1 = true.
Proof. vm_compute. reflexivity. Qed.

Lemma store_good : good status_store.
Proof.
  intros r w p w'. cbn. destruct (Codec.wfb w.2 && is_dict w.2) eqn:Hw; [|done]. intros [= <- <-].
  apply andb_prop in Hw as [Hw%Codec.wfb_wf Hd]. split; [|done]. constructor; [done|done|by exists ">"%char].
Qed.
Lemma classes_good : ∀ (name : string) cls loc path (w : world) (b : Store.backend world) w',
  (name, cls) ∈ classes → cls loc path ">" w = (Ok b, w') → good b.
Proof. intros name cls loc path w b w' [= _ ->]%list_elem_of_singleton [= <- _]. apply store_good. Qed.

Lemma store_reads (p : payload) (w w' : world) :
  wf_payload p → Payload.kp_delim p = ">" → Store.b_dump status_store p w = (Ok tt, w') →
  ∃ p', Store.b_load status_store true w' = (Ok p', w') ∧ Payload.kp_data p' = Payload.kp_data p.
Proof.
  intros [Hwf Hd _] _ [= <-]. exists (Payload.Payload (Payload.kp_data p) ">" []). cbn.
  apply Codec.wfb_wf in Hwf. by rewrite Hwf, Hd.
Qed.

Lemma g0_ready : ready status_store "m1" g0.
Proof.
  split; [done|]. exists s0. split; [done|]. constructor; [done|apply map_Forall_empty|done|done|done].
Qed.


(** ** The copy of a configuration *)

Definition config (secret : string) : string :=
  "admin:" +:+ sep Files.nl +:+ "  secret: " +:+ secret +:+ sep Files.nl +:+ "  name: a".
Definition with_config (secret : string) : singleton (W:=world) :=
  Singleton None (VStr ">") VNull
    (∅, (<[["etc"; "c.yaml"] := FFile (config secret)]> {[ ["sb"] := FDir; ["sb"; "SB1"] := FDir; ["etc"] := FDir ]}, VDict []), 0%Z).
Notation copied secret := (copy_config [] "/sb/SB1" "/etc/c.yaml" [] (with_config secret)).

Lemma secrets_hidden_witness :
  (copied "one").1 = Ok ["etc"] ∧
  BundleSpec.tree_of (copied "one").2 !! ["sb"; "SB1"; "common"; "etc"; "c.yaml"] =
    Some (FFile ("admin:" +:+ sep Files.nl +:+ "  secret: ****" +:+ sep Files.nl +:+ "  name: a")) ∧
  (copied "one").1 = (copied "another").1 ∧
  ∀ q, q ≠ ["etc"; "c.yaml"] → BundleSpec.tree_of (copied "one").2 !! q = BundleSpec.tree_of (copied "another").2 !! q.
Proof.
  split; [vm_compute; reflexivity|]. split; [vm_compute; reflexivity|].
  apply (BundleSpec.secrets_hidden (W:=world) (HW:=node) [] (λ _ _, eq_refl) ["etc"; "c.yaml"] (config "one") (config "another"));
    [|vm_compute; reflexivity|vm_compute; reflexivity].
  change (split Files.nl (Files.universal_newlines (config "one"))) with ["admin:"; "  secret: one"; "  name: a"].
  change (split Files.nl (Files.universal_newlines (config "another"))) with ["admin:"; "  secret: another"; "  name: a"].
  constructor; [constructor|]. constructor; [by apply (BundleSpec.other_secret "  " " one" " another")|].
  constructor; [constructor|constructor].
Defined.

End BundleWitness.
