(* ===== verification/BundleClean.v ===== *)
(** What is left of a bundle when its generation ends: the files directly in
    its directory, without the summary. *)
From Stdlib Require Import Ascii.
From stdpp Require Import countable.
From S2P Require Import Prelude PyStr PyVal KvFiles KvDir KvDirSpec SchemaDoc Bundle.
Import PyStr Dir DirSpec Bundle.

Module BundleClean.

Notation tree := Schema.tree.

Lemma under_prefix p q : Shutil.under p q ↔ p `prefix_of` q.
Proof.
  unfold Shutil.under. split.
  - intros H. exists (drop (length p) q). by rewrite <- H at 1; rewrite take_drop.
  - intros [k ->]. by rewrite take_app_length.
Qed.

(** Removing what is at and below a place *)
Definition without (q : list string) (fs : tree) : tree := filter (λ rn, ¬ Shutil.under q rn.1) fs.

Lemma without_lookup q fs r : without q fs !! r = if decide (q `prefix_of` r) then None else fs !! r.
Proof.
  unfold without. destruct (fs !! r) as [n|] eqn:Hr.
  - case_decide as Hp.
    + apply map_lookup_filter_None. right. intros n' _. rewrite under_prefix. tauto.
    + apply map_lookup_filter_Some. by rewrite under_prefix.
  - rewrite (proj2 (map_lookup_filter_None _ _ _)) by by left. by case_decide.
Qed.
Lemma without_node q fs r : q ≠ [] → node_at (without q fs) r = if decide (q `prefix_of` r) then None else node_at fs r.
Proof.
  intros Hq. unfold node_at. rewrite without_lookup. destruct (decide (r = [])) as [->|]; [|done].
  rewrite decide_False; [done|]. by intros ->%prefix_nil_inv.
Qed.

Lemma without_wf q fs : q ≠ [] → wf fs → wf (without q fs).
Proof.
  intros Hq Hwf r n. rewrite without_lookup. case_decide as Hp; [done|]. intros Hr.
  destruct (Hwf r n Hr) as (Hv & Hne & Hpar). split_and!; [done..|]. rewrite without_node by done.
  rewrite decide_False; [done|]. intros Hpre. apply Hp. etransitivity; [exact Hpre|].
  exists [List.last r ""]. by apply List.app_removelast_last.
Qed.

(** What is above an entry is a directory. *)
Lemma ancestor_dir fs q k n : wf fs → q ≠ [] → k ≠ [] → fs !! (q ++ k) = Some n → fs !! q = Some FDir.
Proof.
  intros Hwf Hq. revert n. induction k as [|c k IH] using rev_ind; [done|]. intros n _ Hn.
  rewrite app_assoc in Hn. destruct (Hwf _ _ Hn) as (_ & _ & Hd). rewrite removelast_snoc in Hd.
  unfold node_at in Hd. rewrite decide_False in Hd by by destruct q.
  destruct (decide (k = [])) as [->|Hk]; [by rewrite app_nil_r in Hd|by eapply IH].
Qed.

Section clean.
Context (cwd : list string) (path : string) (p : list string).

(** Strictly below the bundle *)
Definition inside (r : list string) : Prop := ∃ c k, r = p ++ c :: k.

(** The path leads to the bundle without going through it. *)
Definition steady (fs : tree) : Prop := ∀ fs' : tree,
  (∀ r, ¬ inside r → node_at fs' r = node_at fs r) → resolve fs' cwd path = Ok p.

Record bundle_dir (fs : tree) : Prop := BundleDir {
  bd_wf : wf fs;
  bd_root : plain_root path;
  bd_steady : steady fs;
  bd_dir : node_at fs p = Some FDir
}.

Lemma not_inside : ¬ inside p.
Proof. intros (c & k & H). apply (f_equal length) in H. rewrite length_app in H. cbn in H. lia. Qed.

Lemma bundle_same fs fs' :
  bundle_dir fs → wf fs' → (∀ r, ¬ inside r → node_at fs' r = node_at fs r) → bundle_dir fs'.
Proof.
  intros [Hwf Hr Hs Hd] Hwf' Hsame. constructor; [done|done| |].
  - intros fs2 H2. apply Hs. intros r Hi. by rewrite H2, Hsame.
  - by rewrite Hsame by apply not_inside.
Qed.

Lemma stat_entry fs c :
  bundle_dir fs → valid c →
  (node_at fs (p ++ [c]) = None ∨ resolve fs cwd (path_join path c) = Ok (p ++ [c])) ∧
  stat cwd fs (path_join path c) = node_at fs (p ++ [c]).
Proof.
  intros [Hwf Hr Hs Hd] Hc. apply (stat_valid cwd fs path p [c]); try done; [by apply Hs|by constructor].
Qed.

Lemma entry_node fs c : node_at fs (p ++ [c]) = fs !! (p ++ [c]).
Proof. unfold node_at. by rewrite decide_False by by destruct p. Qed.

Lemma in_entries fs c : c ∈ Shutil.entries fs p ↔ is_Some (fs !! (p ++ [c])).
Proof.
  unfold Shutil.entries. rewrite list_elem_of_omap. split.
  - intros ([q n] & Hin%elem_of_map_to_list & Hc). cbn in Hc. unfold child in Hc. destruct q as [|x q]; [done|].
    case_decide as Hq; [|done]. assert (p ++ [c] = x :: q) as ->; [|by exists n].
    rewrite (List.app_removelast_last "" (l:=x :: q)), Hq by done. f_equal. f_equal.
    clear -Hc. revert x Hc. induction q as [|y q IH]; intros x Hc; [by injection Hc|]. by apply (IH y).
  - intros [n Hn]. exists (p ++ [c], n). split; [by apply elem_of_map_to_list|]. cbn. unfold child.
    destruct (p ++ [c]) as [|x q] eqn:Hq; [by destruct p|]. rewrite <- Hq, removelast_snoc, decide_True by done.
    rewrite fmap_app. cbn. by rewrite List.last_last.
Qed.

(** One turn of the loop *)
Lemma remove_dir_run fs c :
  bundle_dir fs → valid c →
  remove_dir cwd path c fs = (Ok tt, if decide (fs !! (p ++ [c]) = Some FDir) then without (p ++ [c]) fs else fs).
Proof.
  intros Hb Hc. destruct (stat_entry fs c Hb Hc) as [Hres Hst]. unfold remove_dir, os_isdir. rewrite Hst, entry_node in *.
  case_decide as Hd.
  - rewrite bool_decide_true by done. unfold Shutil.rmtree. destruct Hres as [?|Hres]; [congruence|].
    by rewrite Hres, entry_node, Hd.
  - by rewrite bool_decide_false.
Qed.

Lemma without_entry fs c :
  bundle_dir fs → bundle_dir (without (p ++ [c]) fs).
Proof.
  intros Hb. eapply bundle_same; [done|apply without_wf; [by destruct p|apply Hb]|].
  intros r Hi. rewrite without_node by by destruct p. rewrite decide_False; [done|]. intros [k ->]. apply Hi.
  exists c, k. by rewrite <- app_assoc.
Qed.

(** What the loop over some names removes *)
Definition in_dirs (l : list string) (fs : tree) (r : list string) : Prop :=
  ∃ c, c ∈ l ∧ fs !! (p ++ [c]) = Some FDir ∧ (p ++ [c]) `prefix_of` r.

Lemma remove_dirs_run l fs :
  bundle_dir fs → Forall valid l →
  ∃ fs', st_iter (remove_dir cwd path) l fs = (Ok tt, fs') ∧ bundle_dir fs' ∧
    ∀ r, (in_dirs l fs r → fs' !! r = None) ∧ (¬ in_dirs l fs r → fs' !! r = fs !! r).
Proof.
  intros Hb Hl. revert fs Hb. induction Hl as [|c l Hc Hl IH]; intros fs Hb.
  { exists fs. split; [done|]. split; [done|]. intros r. split; [|done]. intros (c & Hin & _). set_solver. }
  cbn [st_iter]. unfold st_bind. rewrite remove_dir_run by done. case_decide as Hd.
  - destruct (IH (without (p ++ [c]) fs) (without_entry fs c Hb)) as (fs' & Hrun & Hb' & Hlook).
    exists fs'. split; [done|]. split; [done|]. intros r. destruct (Hlook r) as [Hin Hout].
    assert ((p ++ [c]) `prefix_of` r ∨ ¬ (p ++ [c]) `prefix_of` r) as [Hp|Hp] by (destruct (decide ((p ++ [c]) `prefix_of` r)); tauto).
    + assert (fs' !! r = None) as Hn.
      { destruct (fs' !! r) as [n|] eqn:Hr; [|done]. assert (¬ in_dirs l (without (p ++ [c]) fs) r) as Hni by (intros ?%Hin; congruence).
        specialize (Hout Hni). by rewrite without_lookup, decide_True in Hout by done. }
      split; [done|]. intros Hni. destruct Hni. exists c. split_and!; [by left|done|done].
    + assert (in_dirs l (without (p ++ [c]) fs) r ↔ in_dirs (c :: l) fs r) as Heq.
      { split.
        - intros (c' & Hc' & Hd' & Hp'). rewrite without_lookup in Hd'. case_decide; [done|]. exists c'. split_and!; [by right|done|done].
        - intros (c' & [->|Hc']%elem_of_cons & Hd' & Hp'); [done|]. exists c'. split_and!; [done| |done].
          rewrite without_lookup, decide_False; [done|]. intros Hpre. apply Hp. by etransitivity. }
      rewrite <- Heq. split; [done|]. intros Hni. rewrite (Hout Hni), without_lookup, decide_False by done. done.
  - destruct (IH fs Hb) as (fs' & Hrun & Hb' & Hlook). exists fs'. split; [done|]. split; [done|]. intros r.
    destruct (Hlook r) as [Hin Hout].
    assert (in_dirs l fs r ↔ in_dirs (c :: l) fs r) as Heq; [|by rewrite <- Heq].
    split; intros (c' & Hc' & Hd' & Hp'); exists c'; (split_and!; [|done|done]); [by right|].
    apply elem_of_cons in Hc' as [->|?]; done.
Qed.

Notation summary := "summary.yaml".

(** What the generation leaves in the directory of a bundle: its files,
    that is the archives, without the summary; and it touches nothing else. *)
Theorem clean_up_exact fs :
  bundle_dir fs →
  ∃ fs', clean_up cwd path fs = (Ok tt, fs') ∧
    (∀ c k n, fs' !! (p ++ c :: k) = Some n ↔ k = [] ∧ c ≠ summary ∧ n ≠ FDir ∧ fs !! (p ++ [c]) = Some n) ∧
    (∀ r, ¬ inside r → fs' !! r = fs !! r).
Proof.
  intros Hb. unfold clean_up.
  assert (os_exists cwd fs path = true) as ->.
  { unfold os_exists, stat. rewrite (bd_steady fs Hb fs) by done. by rewrite (bd_dir fs Hb), bool_decide_true. }
  cbn [negb]. assert (Shutil.listdir cwd fs path = Ok (Shutil.entries fs p)) as ->.
  { unfold Shutil.listdir. rewrite (bd_steady fs Hb fs) by done. cbn. by rewrite (bd_dir fs Hb). }
  assert (Forall valid (Shutil.entries fs p)) as Hvalid.
  { apply Forall_forall. intros c [n Hn]%in_entries. apply (bd_wf fs Hb) in Hn as [Hv _]. by apply Forall_snoc_inv in Hv as [_ ?]. }
  unfold st_lift at 1. erewrite st_bind_run; [|reflexivity]. cbn beta.
  destruct (remove_dirs_run _ fs Hb Hvalid) as (fs1 & Hrun & Hb1 & Hlook). rewrite (st_bind_run _ _ _ _ _ Hrun).
  assert (∀ c k, fs1 !! (p ++ c :: k) = if decide (fs !! (p ++ [c]) = Some FDir) then None else fs !! (p ++ c :: k)) as Hfs1.
  { intros c k. destruct (Hlook (p ++ c :: k)) as [Hin Hout]. case_decide as Hd.
    - apply Hin. exists c. split_and!; [by apply in_entries; eexists|done|]. exists k. by rewrite <- app_assoc.
    - apply Hout. intros (c' & _ & Hd' & k' & Heq). rewrite <- app_assoc in Heq. apply app_inv_head in Heq. by injection Heq as -> _. }
  assert (∀ c k n, fs1 !! (p ++ c :: k) = Some n ↔ k = [] ∧ n ≠ FDir ∧ fs !! (p ++ [c]) = Some n) as Hleft.
  { intros c k n. rewrite Hfs1. case_decide as Hd; [naive_solver|]. split; [|by intros (-> & _ & ?)].
    destruct k as [|x k]; [naive_solver|]. intros Hn. exfalso. apply Hd.
    apply (ancestor_dir fs (p ++ [c]) (x :: k) n); [apply Hb|by destruct p|done|by rewrite <- app_assoc]. }
  assert (∀ r, ¬ inside r → fs1 !! r = fs !! r) as Hout1.
  { intros r Hi. apply (Hlook r). intros (c & _ & _ & k & ->). apply Hi. exists c, k. by rewrite <- app_assoc. }
  destruct (stat_entry fs1 summary Hb1) as [Hres Hst]; [done|]. unfold os_exists. rewrite Hst, entry_node in *.
  destruct (fs1 !! (p ++ [summary])) as [n0|] eqn:Hsum.
  - rewrite bool_decide_true by by eexists. destruct Hres as [?|Hres]; [done|].
    apply Hleft in Hsum as Hsum'. destruct Hsum' as (_ & Hfile & _). destruct n0 as [|text]; [done|].
    unfold os_remove. rewrite Hres, entry_node, Hsum. eexists. split; [done|]. split.
    + intros c k n. destruct (decide (p ++ [summary] = p ++ c :: k)) as [Heq|Hne].
      * rewrite Heq, lookup_delete_eq. apply app_inv_head in Heq. injection Heq as <- <-. naive_solver.
      * rewrite lookup_delete_ne, Hleft by done. split; [|naive_solver]. intros (-> & ? & ?). split_and!; try done. by intros ->.
    + intros r Hi. rewrite lookup_delete_ne; [by apply Hout1|]. intros <-. apply Hi. by exists summary, [].
  - rewrite bool_decide_false by by intros [? ?]. exists fs1. split; [done|]. split; [|done]. intros c k n. rewrite Hleft.
    split; [|naive_solver]. intros (-> & ? & Hn). split_and!; try done. intros ->.
    pose proof (proj2 (Hleft summary [] n)) as Hc. rewrite Hsum in Hc. by discriminate Hc.
Qed.

End clean.

(** ** A bundle of one component *)

#[local] Instance valid_dec c : Decision (valid c).
Proof. unfold valid. apply _. Defined.

Definition fs0 : tree := {[
  ["sb"] := FDir; ["sb"; "old"] := FFile "x"; ["sb"; "SB1"] := FDir;
  ["sb"; "SB1"; "utils"] := FDir; ["sb"; "SB1"; "utils"; "log"] := FFile "l";
  ["sb"; "SB1"; "summary.yaml"] := FFile "s"; ["sb"; "SB1"; "SB1_m1.tar.gz"] := FFile "archive" ]}.

Lemma fs0_bundle : bundle_dir [] "/sb/SB1" ["sb"; "SB1"] fs0.
Proof.
  constructor; [|done| |done].
  - assert (map_Forall (λ q n, Forall valid q ∧ q ≠ [] ∧ node_at fs0 (removelast q) = Some FDir) fs0) as H; [|exact H].
    apply (bool_decide_unpack _). vm_compute. exact I.
  - intros fs' Hsame. assert (node_at fs' ["sb"] = Some FDir) as Hsb.
    { rewrite Hsame; [done|]. by intros (c & k & H). }
    change (resolve fs' [] "/sb/SB1") with (walk_path fs' [] [""; "sb"; "SB1"]). cbn [walk_path].
    change (step_path fs' [] "") with (@Ok (list string) []). change (step_path fs' [] "sb") with (Ok ["sb"]). cbn [mbind res_bind].
    change (step_path fs' [] "sb") with (Ok ["sb"]). cbn [mbind res_bind]. unfold step_path. by rewrite Hsb.
Qed.

Lemma clean_up_exact_witness :
  ∃ fs', clean_up [] "/sb/SB1" fs0 = (Ok tt, fs') ∧
    fs' !! ["sb"; "SB1"; "SB1_m1.tar.gz"] = Some (FFile "archive") ∧ fs' !! ["sb"; "SB1"; "utils"; "log"] = None ∧
    fs' !! ["sb"; "old"] = Some (FFile "x").
Proof.
  destruct (clean_up_exact [] "/sb/SB1" ["sb"; "SB1"] fs0 fs0_bundle) as (fs' & Hrun & Hin & Hout).
  exists fs'. split; [done|]. split; [|split].
  - apply (proj2 (Hin "SB1_m1.tar.gz" [] (FFile "archive"))). split_and!; [reflexivity|discriminate|discriminate|vm_compute; reflexivity].
  - destruct (fs' !! ["sb"; "SB1"; "utils"; "log"]) as [n|] eqn:Hn; [|reflexivity].
    destruct (proj1 (Hin "utils" ["log"] n) Hn) as [Hf _]. discriminate Hf.
  - rewrite Hout; [vm_compute; reflexivity|]. intros (c & k & H). discriminate H.
Defined.

End BundleClean.
