(* ===== verification/LdapDb.v ===== *)
(** [utils/data/db/openldap]: models stored as the entries below a base DN of
    an LDAP server ([openldap.py]), and the conversion of fields, values and
    filters to the syntax of LDAP ([storage.py]).

    The server, through the library [ldap], is the class [Ldap]; the model
    class is the one of [DataAccess] with the types of its fields and its
    constructor.  An attribute is the list of the texts its bytes encode.
    Values of types the code has no case for are their texts. *)
From Stdlib Require Import Ascii.
From S2P Require Import Prelude PyStr PyVal KvFiles DataAccess ConsulDb.
Import PyStr Data.

Module Ldap.

(** ** Values *)

Record datetime := DateTime {
  dt_year : Z; dt_month : Z; dt_day : Z; dt_hour : Z; dt_minute : Z; dt_second : Z; dt_us : Z
}.
#[export] Instance datetime_eq_dec : EqDecision datetime.
Proof. solve_decision. Defined.

Inductive native := NNone | NStr (s : string) | NInt (z : Z) | NBool (b : bool) | NTime (t : datetime) | NOther (text : string).
#[export] Instance native_eq_dec : EqDecision native.
Proof. solve_decision. Defined.

(** [a == b]: booleans compare as integers. *)
Definition native_eqb (a b : native) : bool :=
  match a, b with
  | NBool x, NInt z | NInt z, NBool x => bool_decide (z = if x then 1 else 0)%Z
  | _, _ => bool_decide (a = b)
  end.

(** ** [OpenLdapSyntaxTools] *)

Definition swap_char (a b c : ascii) : ascii := if Ascii.eqb c a then b else c.
Definition generalize_field_name (field_name : string) : string := smap (swap_char "_" "-") field_name.
Definition pythonize_attr_name (attr_name : string) : string := smap (swap_char "-" "_") attr_name.

(** *** Times *)

Definition pad2 (z : Z) : string := if (z <? 10)%Z then "0" +:+ Files.dec_Z z else Files.dec_Z z.

(** [strftime('%Y%m%d%H%M%SZ')]; the year is not padded. *)
Definition _generalize_datetime (t : datetime) : string :=
  Files.dec_Z (dt_year t) +:+ pad2 (dt_month t) +:+ pad2 (dt_day t) +:+ pad2 (dt_hour t) +:+
  pad2 (dt_minute t) +:+ pad2 (dt_second t) +:+ "Z".

(** The expression [strptime] makes of the format: for each directive its
    alternatives, each a list of ranges of characters. *)
Definition cclass : Type := N * N.
Definition alt : Type := list cclass.
Definition one (c : ascii) : cclass := (code c, code c).
Definition to (a b : ascii) : cclass := (code a, code b).
Definition dig : cclass := to "0" "9".

Definition DIRECTIVES : list (list alt) :=
  [ [[dig; dig; dig; dig]];
    [[one "1"; to "0" "2"]; [one "0"; to "1" "9"]; [to "1" "9"]];
    [[one "3"; to "0" "1"]; [to "1" "2"; dig]; [one "0"; to "1" "9"]; [to "1" "9"]; [one " "; to "1" "9"]];
    [[one "2"; to "0" "3"]; [to "0" "1"; dig]; [dig]];
    [[to "0" "5"; dig]; [dig]];
    [[one "6"; to "0" "1"]; [to "0" "5"; dig]; [dig]];
    [[one "Z"]; [one "z"]] ].

Fixpoint take_alt (a : alt) (s : string) : option (string * string) :=
  match a, s with
  | [], _ => Some (EmptyString, s)
  | (lo, hi) :: a', String c s' =>
      if ((lo <=? code c) && (code c <=? hi))%N then
        match take_alt a' s' with Some (t, r) => Some (String c t, r) | None => None end
      else None
  | _, EmptyString => None
  end.

(** The first match, by backtracking: the text of each directive, and what
    is left. *)
Fixpoint match_all (ds : list (list alt)) (s : string) : option (list string * string) :=
  match ds with
  | [] => Some ([], s)
  | alts :: ds' =>
      (fix try (alts : list alt) : option (list string * string) :=
         match alts with
         | [] => None
         | a :: alts' =>
             match take_alt a s with
             | Some (t, r) => match match_all ds' r with
                              | Some (ts, r') => Some (t :: ts, r')
                              | None => try alts'
                              end
             | None => try alts'
             end
         end) alts
  end.

Definition leap (y : Z) : bool := ((y mod 4 =? 0) && (negb (y mod 100 =? 0) || (y mod 400 =? 0)))%Z.
Definition days_in_month (y m : Z) : Z :=
  if (m =? 2)%Z then (if leap y then 29 else 28) else if existsb (Z.eqb m) [4; 6; 9; 11]%Z then 30 else 31.

(** What the constructor of [datetime] accepts *)
Definition valid_datetime (t : datetime) : bool :=
  ((1 <=? dt_year t) && (dt_year t <=? 9999) && (1 <=? dt_month t) && (dt_month t <=? 12) &&
   (1 <=? dt_day t) && (dt_day t <=? days_in_month (dt_year t) (dt_month t)) &&
   (0 <=? dt_hour t) && (dt_hour t <=? 23) && (0 <=? dt_minute t) && (dt_minute t <=? 59) &&
   (0 <=? dt_second t) && (dt_second t <=? 59) && (0 <=? dt_us t) && (dt_us t <=? 999999))%Z.

Definition num (s : string) : Z := Z.of_nat (int_of_digits (strip s)).
Definition _pythonize_datetime (attr_timestamp : string) : res datetime :=
  match match_all DIRECTIVES attr_timestamp with
  | Some ([y; mo; d; h; mi; s; _], EmptyString) =>
      let t := DateTime (num y) (num mo) (num d) (num h) (num mi) (num s) 0 in
      if valid_datetime t then Ok t else Err ValueError
  | _ => Err ValueError
  end.

(** *** Booleans: [strtobool] *)

Definition _pythonize_bool (attr_bool : string) : res bool :=
  let val := lower attr_bool in
  if decide (val ∈ ["y"; "yes"; "t"; "true"; "on"; "1"]) then Ok true
  else if decide (val ∈ ["n"; "no"; "f"; "false"; "off"; "0"]) then Ok false
  else Err ValueError.

(** *** Field values *)

Definition generalize_text (v : native) : string :=
  match v with
  | NNone => "None"
  | NStr s | NOther s => s
  | NInt z => Files.dec_Z z
  | NBool b => if b then "TRUE" else "FALSE"
  | NTime t => _generalize_datetime t
  end.
(** With [to_bytes], the list of the one encoded text *)
Definition generalize_field_value (v : native) : list string := [generalize_text v].

Inductive field_type := DateTimeType | BooleanType | OtherType.

(** The model class: its name, the types of its fields, and its constructor on
    raw data, which raises when a field cannot be converted. *)
Record ldap_model := LdapModel {
  lm_model : Model native;
  lm_name : string;
  lm_type : string → option field_type;
  lm_new : list (string * native) → option (obj native)
}.

Definition attrs : Type := list (string * list string).

Definition pythonize_attr_value (m : ldap_model) (attr_name : string) (attr_value : list string) : res native :=
  match lm_type m attr_name with
  | None => Err AttributeError
  | Some ty =>
      match attr_value with
      | [] => Err IndexError
      | text :: _ =>
          match ty with
          | DateTimeType => t ← _pythonize_datetime text; Ok (NTime t)
          | BooleanType => b ← _pythonize_bool text; Ok (NBool b)
          | OtherType => Ok (NStr text)
          end
      end
  end.

(** ** [OpenLdapQueryConverter] *)

Definition op_value (op : ComparisonOperation) : string :=
  match op with
  | OPERATION_GT => ">" | OPERATION_LT => "<" | OPERATION_EQ => "=" | OPERATION_LEQ => "<="
  | OPERATION_GEQ => ">=" | OPERATION_NE => "!=" | OPERATION_LIKE => "like"
  end.

Definition handle_compare (m : Model native) (field : operand) (op : ComparisonOperation) (v : native) : res string :=
  field_str ← field_to_str field;
  right ← match field with
          | FieldName _ => to_native m field_str v
          | _ => match md_to_native m field_str v with Some w => Ok w | None => Err DataAccessInternalError end
          end;
  let right_operand := generalize_text right in
  Ok (generalize_field_name field_str +:+
      match op with
      | OPERATION_LIKE => op_value OPERATION_EQ +:+ "*" +:+ right_operand +:+ "*"
      | _ => op_value op +:+ right_operand
      end).

Definition _handle_composite (op : string) (visited : list (res string)) : res string :=
  conditions ← res_map (λ x, x) visited;
  Ok (op +:+ String.concat "" ((λ c, "(" +:+ c +:+ ")") <$> conditions)).

Fixpoint visit (m : Model native) (f : filter_tree native) : res string :=
  match f with
  | FilterOperationAnd l => _handle_composite "&" (map (visit m) l)
  | FilterOperationOr l => _handle_composite "|" (map (visit m) l)
  | FilterOperationCompare field op v => handle_compare m field op v
  end.
Definition build (m : Model native) (root : filter_tree native) : res string :=
  s ← visit m root; Ok ("(" +:+ s +:+ ")").

(** ** [OpenLdap] *)

Inductive add_result := Added | ALREADY_EXISTS | LDAPError.

(** The client: additions, searches one level below a base, modifications
    from old attributes to new ones, deletions. *)
Class Ldap (W : Type) := {
  l_add : string → attrs → W → add_result * W;
  l_search : string → option string → W → option (list (string * attrs));
  l_modify : string → attrs → attrs → W → bool * W;
  l_delete : string → W → bool * W
}.

Section openldap.
Context {W : Type} {LC : Ldap W} {PV : PyValues native}.

Record client := OpenLdap { ol_model : ldap_model; ol_collection : string }.
Notation base c := (lm_model (ol_model c)).

(** [obj.to_native()]: every field, in the order of the class *)
Definition to_native_dict (m : ldap_model) (o : obj native) : list (string * native) :=
  (λ f, (f, default NNone (o !! f))) <$> md_fields (lm_model m).

Definition _model_to_ldif (m : ldap_model) (o : obj native) : attrs :=
  foldl (λ a '(field, value), dset (generalize_field_name field) (generalize_field_value value) a)
    [("objectClass", [lm_name m])] (to_native_dict m o).

Definition _ldif_to_model (m : ldap_model) (a : attrs) : res (obj native) :=
  match dget "objectClass" a with
  | None => Err KeyError
  | Some _ =>
      model_attrs ← res_map (λ '(attr_name, attr_value),
        let model_attr_name := pythonize_attr_name attr_name in
        v ← pythonize_attr_value m model_attr_name attr_value; Ok (model_attr_name, v)) (ddel "objectClass" a);
      match lm_new m (foldl (λ d kv, dset kv.1 kv.2 d) [] model_attrs) with
      | Some o => Ok o
      | None => Err PlainException
      end
  end.

Definition _get_object_dn (c : client) (o : obj native) : res string :=
  let primary_key := md_primary_key (base c) in
  id ← getattr o primary_key;
  Ok (generalize_field_name primary_key +:+ "=" +:+
      match id with NBool b => if b then "True" else "False" | NTime t => md_key (base c) id | _ => generalize_text id end +:+
      "," +:+ ol_collection c).

Definition _get_ldap (c : client) (filter_obj : option (filter_tree native)) : ST W (list (obj native)) :=
  let! ldap_filter := st_lift (match filter_obj with
                               | Some f => s ← build (base c) f; Ok (Some s)
                               | None => Ok None
                               end) in
  λ w, match l_search (ol_collection c) ldap_filter w with
       | None => (Err DataAccessExternalError, w)
       | Some raw => (res_map (λ '(_, a), _ldif_to_model (ol_model c) a) raw, w)
       end.

Definition order_models (m : Model native) (q : Query native) (models : list (obj native)) : res (list (obj native)) :=
  if match q_order_by q with Some _ => true | None => negb (default 0%Z (q_offset q) =? 0)%Z end then
    field ← match q_order_by q with
            | Some ob => field_to_str (ob_field ob)
            | None => Ok (md_primary_key m)
            end;
    if decide (field ∈ md_fields m) then
      Consul.sorted m field
        (match q_order_by q with Some ob => match ob_order ob with DESC => true | ASC => false end | None => false end)
        models
    else Err AttributeError
  else Ok models.

Definition page (q : Query native) (models : list (obj native)) : res (list (obj native)) :=
  let offset := default 0%Z (q_offset q) in
  let limit := match q_limit q with Some l => (offset + l)%Z | None => Z.of_nat (length models) end in
  if decide (offset < 0 ∨ limit < 0)%Z then Err DataAccessInternalError
  else Ok (drop (Z.to_nat offset) (take (Z.to_nat limit) models)).

Definition get (c : client) (q : Query native) : ST W (list (obj native)) :=
  let! models := _get_ldap c (q_filter_by q) in
  st_lift (models ← order_models (base c) q models; page q models).

(** The two comprehensions of [_update_ldap] *)
Definition to_update_distinct (obj_attrs to_update : list (string * native)) : res attrs :=
  changed ← res_map (λ '(key, val),
    match dget key obj_attrs with
    | None => Err KeyError
    | Some old => Ok (if native_eqb val old then [] else [(generalize_field_name key, generalize_field_value val)])
    end) to_update;
  Ok (foldl (λ d kv, dset kv.1 kv.2 d) [] (concat changed)).
Definition old_attrs_distinct (obj_attrs : list (string * native)) (new : attrs) : attrs :=
  foldl (λ d kv, dset kv.1 kv.2 d) []
    (omap (λ '(key, val), let k := generalize_field_name key in
       if decide (k ∈ dkeys new) then Some (k, generalize_field_value val) else None) obj_attrs).

Definition _update_ldap (c : client) (to_update : list (string * native)) (o : obj native) : ST W unit :=
  let obj_attrs := to_native_dict (ol_model c) o in
  let! new := st_lift (to_update_distinct obj_attrs to_update) in
  match new with
  | [] => st_ret tt
  | _ =>
      let! dn := st_lift (_get_object_dn c o) in
      λ w, let '(b, w') := l_modify dn (old_attrs_distinct obj_attrs new) new w in
           (if b then Ok tt else Err DataAccessExternalError, w')
  end.

Definition update (c : client) (f : filter_tree native) (to_update : list (string * native)) : ST W Z :=
  let! models := _get_ldap c (Some f) in
  st_iter (_update_ldap c to_update) models ;;;
  st_ret (Z.of_nat (length models)).

(** [GenericDataBase.update_by_id], inherited *)
Definition update_by_id (c : client) (obj_id : native) (to_update : list (string * native)) : ST W bool :=
  let! f := st_lift (id_filter (base c) obj_id) in
  let! result := update c f to_update in st_ret (0 <? result)%Z.

Definition store (c : client) (o : obj native) : ST W unit :=
  let! dn := st_lift (_get_object_dn c o) in
  let ldif := _model_to_ldif (ol_model c) o in
  λ w, match l_add dn ldif w with
       | (Added, w') => (Ok tt, w')
       | (ALREADY_EXISTS, w') =>
           (let! id := st_lift (getattr o (md_primary_key (base c))) in
            update_by_id c id (to_native_dict (ol_model c) o) ;;; st_ret tt) w'
       | (LDAPError, w') => (Err DataAccessExternalError, w')
       end.

Definition delete (c : client) (f : filter_tree native) : ST W Z :=
  let! models := _get_ldap c (Some f) in
  st_iter (λ o,
    let! dn := st_lift (_get_object_dn c o) in
    λ w, let '(b, w') := l_delete dn w in (if b then Ok tt else Err DataAccessExternalError, w')) models ;;;
  st_ret (Z.of_nat (length models)).

Definition count (c : client) (f : option (filter_tree native)) : ST W Z :=
  let! models := _get_ldap c f in st_ret (Z.of_nat (length models)).

(** *** [create_database] *)

(** The class attributes [_client], [_thread_pool] and [_loop] *)
Record shared := Shared { sh_client : bool; sh_pool : bool; sh_loop : bool }.

Definition create_database (bind_ok : bool) (m : ldap_model) (collection : string) : ST shared client := λ s,
  if sh_client s && sh_pool s && sh_loop s then (Ok (OpenLdap m collection), s)
  else if bind_ok then (Ok (OpenLdap m collection), Shared true true true)
  else (Err DataAccessExternalError, Shared true (sh_pool s) (sh_loop s)).

End openldap.
End Ldap.
