(* ===== verification/LdapDbSpec.v ===== *)
(** What the OpenLDAP storage promises: times, and whole objects, are read as
    they were written, and the text of a filter means the filter under the
    grammar of LDAP. *)
From Stdlib Require Import Ascii.
From S2P Require Import Prelude PyStr PyVal KvFiles DataAccess ConsulDb LdapDb.
Import PyStr Data Ldap.

Module LdapSpec.

(** ** Times *)

Lemma take_alt_app a w s :
  length a ≤ String.length w →
  take_alt a (w +:+ s) = match take_alt a w with Some (t, r) => Some (t, r +:+ s) | None => None end.
Proof.
  revert w. induction a as [|[lo hi] a IH]; intros w Hl; [done|]. destruct w as [|c w]; [cbn in Hl; lia|].
  cbn in *. destruct (_ && _)%N; [|done]. rewrite IH by lia. by destruct (take_alt a w) as [[t r]|].
Qed.

(** The first alternative that matches a text matches all of it. *)
Fixpoint first_whole (alts : list alt) (w : string) : bool :=
  match alts with
  | [] => false
  | a :: alts' =>
      bool_decide (length a ≤ String.length w) &&
      match take_alt a w with
      | Some (t, r) => bool_decide (t = w ∧ r = "")
      | None => first_whole alts' w
      end
  end.

Lemma match_directive alts ds w s ts r :
  first_whole alts w = true → match_all ds s = Some (ts, r) → match_all (alts :: ds) (w +:+ s) = Some (w :: ts, r).
Proof.
  intros Hw Hs. cbn [match_all]. induction alts as [|a alts IH]; [done|]. cbn in Hw.
  apply andb_prop in Hw as [Hl%bool_decide_eq_true Hw]. rewrite take_alt_app by done.
  destruct (take_alt a w) as [[t r0]|]; [|by apply IH]. apply bool_decide_eq_true in Hw as [-> ->]. cbn. by rewrite Hs.
Qed.

(** A number of a directive: its text is matched whole and read back. *)
Definition reads (alts : list alt) (print : Z → string) (z : Z) : bool :=
  first_whole alts (print z) && (num (print z) =? z)%Z.

Lemma range_check (P : Z → bool) lo n z :
  forallb (λ i, P (lo + Z.of_nat i)%Z) (seq 0 (Z.to_nat n)) = true → (lo ≤ z < lo + n)%Z → P z = true.
Proof.
  intros Hall Hz. rewrite forallb_forall in Hall. specialize (Hall (Z.to_nat (z - lo))).
  rewrite Z2Nat.id in Hall by lia. replace (lo + (z - lo))%Z with z in Hall by lia.
  apply Hall, in_seq. lia.
Qed.

Notation directive n := (nth n DIRECTIVES []).

Lemma year_reads z : (1000 ≤ z ≤ 9999)%Z → reads (directive 0) Files.dec_Z z = true.
Proof. intros Hz. apply (range_check (reads _ _) 1000 9000); [vm_compute; reflexivity|lia]. Qed.
Lemma month_reads z : (1 ≤ z ≤ 12)%Z → reads (directive 1) pad2 z = true.
Proof. intros Hz. apply (range_check (reads _ _) 1 12); [vm_compute; reflexivity|lia]. Qed.
Lemma day_reads z : (1 ≤ z ≤ 31)%Z → reads (directive 2) pad2 z = true.
Proof. intros Hz. apply (range_check (reads _ _) 1 31); [vm_compute; reflexivity|lia]. Qed.
Lemma hour_reads z : (0 ≤ z ≤ 23)%Z → reads (directive 3) pad2 z = true.
Proof. intros Hz. apply (range_check (reads _ _) 0 24); [vm_compute; reflexivity|lia]. Qed.
Lemma minute_reads z : (0 ≤ z ≤ 59)%Z → reads (directive 4) pad2 z = true.
Proof. intros Hz. apply (range_check (reads _ _) 0 60); [vm_compute; reflexivity|lia]. Qed.
Lemma second_reads z : (0 ≤ z ≤ 59)%Z → reads (directive 5) pad2 z = true.
Proof. intros Hz. apply (range_check (reads _ _) 0 60); [vm_compute; reflexivity|lia]. Qed.

Lemma month_days y m : (days_in_month y m ≤ 31)%Z.
Proof. unfold days_in_month. repeat case_match; lia. Qed.

Definition to_second (t : datetime) : datetime :=
  DateTime (dt_year t) (dt_month t) (dt_day t) (dt_hour t) (dt_minute t) (dt_second t) 0.

(** A time of a year of four digits is read as it was written, to the second. *)
Lemma time_roundtrip t :
  valid_datetime t = true → (1000 ≤ dt_year t)%Z → _pythonize_datetime (_generalize_datetime t) = Ok (to_second t).
Proof.
  intros Hv Hy. pose proof (month_days (dt_year t) (dt_month t)). pose proof Hv as Hv'. unfold valid_datetime in Hv'.
  rewrite !andb_true_iff, !Z.leb_le in Hv'. destruct Hv' as (((((((((((((? & ?) & ?) & ?) & ?) & ?) & ?) & ?) & ?) & ?) & ?) & ?) & ?) & ?).
  destruct (andb_prop _ _ (year_reads (dt_year t) ltac:(lia))) as [Wy Ny%Z.eqb_eq].
  destruct (andb_prop _ _ (month_reads (dt_month t) ltac:(lia))) as [Wm Nm%Z.eqb_eq].
  destruct (andb_prop _ _ (day_reads (dt_day t) ltac:(lia))) as [Wd Nd%Z.eqb_eq].
  destruct (andb_prop _ _ (hour_reads (dt_hour t) ltac:(lia))) as [Wh Nh%Z.eqb_eq].
  destruct (andb_prop _ _ (minute_reads (dt_minute t) ltac:(lia))) as [Wi Ni%Z.eqb_eq].
  destruct (andb_prop _ _ (second_reads (dt_second t) ltac:(lia))) as [Ws Ns%Z.eqb_eq].
  unfold _pythonize_datetime, _generalize_datetime.
  assert (match_all DIRECTIVES (_generalize_datetime t) = Some
    ([Files.dec_Z (dt_year t); pad2 (dt_month t); pad2 (dt_day t); pad2 (dt_hour t); pad2 (dt_minute t); pad2 (dt_second t); "Z"], "")) as Hm.
  { do 6 (apply match_directive; [assumption|]). reflexivity. }
  unfold _generalize_datetime in Hm. rewrite Hm, Ny, Nm, Nd, Nh, Ni, Ns.
  assert (valid_datetime (to_second t) = true) as Hs.
  { unfold valid_datetime, to_second. cbn [dt_year dt_month dt_day dt_hour dt_minute dt_second dt_us].
    rewrite !andb_true_iff, !Z.leb_le. lia. }
  unfold to_second in *. by rewrite Hs.
Qed.

(** ** Objects *)

(** A value as a field of some type reads it back *)
Definition as_read (ty : field_type) (v : native) : native :=
  match ty, v with
  | DateTimeType, NTime t => NTime (to_second t)
  | BooleanType, NBool b => NBool b
  | _, _ => NStr (generalize_text v)
  end.

Definition has_type (ty : field_type) (v : native) : Prop :=
  match ty with
  | DateTimeType => ∃ t, v = NTime t ∧ valid_datetime t = true ∧ (1000 ≤ dt_year t)%Z
  | BooleanType => ∃ b, v = NBool b
  | OtherType => True
  end.

Lemma value_roundtrip m f ty v :
  lm_type m f = Some ty → has_type ty v → pythonize_attr_value m f (generalize_field_value v) = Ok (as_read ty v).
Proof.
  intros Hty Hv. unfold pythonize_attr_value. rewrite Hty. destruct ty; cbn in *.
  - destruct Hv as (t & -> & Ht & Hy). cbn. by rewrite time_roundtrip.
  - destruct Hv as [[] ->]; reflexivity.
  - by destruct v.
Qed.

(** The names of fields: no hyphen, as Python's names have none. *)
Definition field_name (f : string) : Prop := no_char "-" f = true ∧ generalize_field_name f ≠ "objectClass".

Lemma smap_id (g : ascii → ascii) s : sforall (λ c, bool_decide (g c = c)) s = true → smap g s = s.
Proof. induction s as [|c s IH]; [done|]. cbn. intros [Hc%bool_decide_eq_true Hs]%andb_prop. by rewrite Hc, IH. Qed.

Lemma name_roundtrip f : no_char "-" f = true → pythonize_attr_name (generalize_field_name f) = f.
Proof.
  unfold pythonize_attr_name, generalize_field_name. induction f as [|c f IH]; [done|].
  intros [Hc Hf]%no_char_cons. cbn. rewrite IH by done. f_equal. unfold swap_char.
  destruct (Ascii.eqb c "_") eqn:He; [by apply Ascii.eqb_eq in He as ->|]. by apply Ascii.eqb_neq in Hc as ->.
Qed.
Lemma name_inj f f' :
  no_char "-" f = true → no_char "-" f' = true → generalize_field_name f = generalize_field_name f' → f = f'.
Proof. intros H H' He. by rewrite <- (name_roundtrip f), He, name_roundtrip. Qed.

(** Assignments to new keys, one after the other *)
Lemma dset_all {A} (l d : list (string * A)) :
  NoDup (dkeys d ++ dkeys l) → foldl (λ d kv, dset kv.1 kv.2 d) d l = d ++ l.
Proof.
  unfold dkeys. revert d. induction l as [|[k v] l IH]; intros d Hnd; cbn; [by rewrite app_nil_r|].
  rewrite dset_fresh.
  - rewrite IH; [by rewrite <- app_assoc|]. rewrite fmap_app, <- app_assoc. exact Hnd.
  - intros Hk. apply NoDup_app in Hnd as (_ & Hnd & _). by apply (Hnd k Hk); left.
Qed.

Definition ldif_item (fv : string * native) : string * list string :=
  (generalize_field_name fv.1, generalize_field_value fv.2).

Lemma ldif_items m o :
  NoDup (md_fields (lm_model m)) → Forall field_name (md_fields (lm_model m)) →
  _model_to_ldif m o = ("objectClass", [lm_name m]) :: (ldif_item <$> to_native_dict m o).
Proof.
  intros Hnd Hf. unfold _model_to_ldif.
  assert (∀ d l, foldl (λ a '(field, value), dset (generalize_field_name field) (generalize_field_value value) a) d l =
    foldl (λ d kv, dset kv.1 kv.2 d) d (ldif_item <$> l)) as ->.
  { intros d l. revert d. induction l as [|[f v] l IH]; intros d; [done|]. cbn. apply IH. }
  rewrite dset_all; [done|]. unfold dkeys, to_native_dict. rewrite <- !list_fmap_compose. cbn.
  apply NoDup_cons. split.
  - intros (f & He & Hin)%list_elem_of_fmap. rewrite Forall_forall in Hf. by destruct (Hf f Hin) as [_ []].
  - clear -Hnd Hf. induction Hf as [|f l [Hf _] Hl IH]; [constructor|]. apply NoDup_cons in Hnd as [Hfl Hnd]. cbn.
    apply NoDup_cons. split; [|by apply IH]. intros (f' & He & Hin)%list_elem_of_fmap. apply Hfl.
    rewrite Forall_forall in Hl. rewrite (name_inj f f'); [done|done|by apply Hl|done].
Qed.

Definition read_item (m : ldap_model) (fv : string * native) : string * native :=
  (fv.1, match lm_type m fv.1 with Some ty => as_read ty fv.2 | None => fv.2 end).

Lemma read_items m l :
  Forall (λ fv, field_name fv.1) l → Forall (λ fv, ∃ ty, lm_type m fv.1 = Some ty ∧ has_type ty fv.2) l →
  res_map (λ '(attr_name, attr_value), v ← pythonize_attr_value m (pythonize_attr_name attr_name) attr_value;
           Ok (pythonize_attr_name attr_name, v)) (ldif_item <$> l) = Ok (read_item m <$> l).
Proof.
  intros Hnames Hty. apply res_map_ok. induction Hty as [|[f v] l (ty & Hfty & Hv) Hl IH]; cbn; [constructor|].
  apply Forall_cons in Hnames as [[Hname _] Hnames]. constructor; [|by apply IH]. cbn in *. unfold read_item. cbn.
  by rewrite name_roundtrip, (value_roundtrip m f ty v), Hfty.
Qed.

(** C28.  An object written as an entry of the server is read back by giving its
    constructor every field, in order, with the value it had: times to the
    second, booleans as they are, and other values as their texts. *)
Theorem ldif_roundtrip m o :
  NoDup (md_fields (lm_model m)) → Forall field_name (md_fields (lm_model m)) →
  Forall (λ fv, ∃ ty, lm_type m fv.1 = Some ty ∧ has_type ty fv.2) (to_native_dict m o) →
  _ldif_to_model m (_model_to_ldif m o) =
    match lm_new m (read_item m <$> to_native_dict m o) with Some o' => Ok o' | None => Err PlainException end.
Proof.
  intros Hnd Hf Hty. rewrite ldif_items by done. unfold _ldif_to_model. cbn [dget ddel]. rewrite decide_True by done.
  cbv beta iota zeta. rewrite decide_True by done. rewrite read_items; [|unfold to_native_dict; apply Forall_fmap; eapply Forall_impl; [exact Hf|done]|done].
  cbn. rewrite dset_all; [done|]. unfold dkeys, to_native_dict. cbn. rewrite <- !list_fmap_compose.
  cbn. by rewrite list_fmap_id.
Qed.

(** A class of accounts, whose constructor takes the values as they are *)
Definition account_model : Model native :=
  MkModel ["user_id"; "created"; "active"] "user_id" (λ f, bool_decide (f = "user_id")) (λ _ v, Some v) Some
    (λ _, "") (λ _, Ok ∅) generalize_text.
Definition account : ldap_model :=
  LdapModel account_model "Account"
    (λ f, dget f [("user_id", OtherType); ("created", DateTimeType); ("active", BooleanType)])
    (λ l, Some (list_to_map l)).
Definition an_account : obj native :=
  list_to_map [("user_id", NStr "u_1"); ("created", NTime (DateTime 2021 3 4 5 6 7 89)); ("active", NBool true)].

Lemma ldif_roundtrip_witness :
  _ldif_to_model account (_model_to_ldif account an_account) =
    Ok (list_to_map [("user_id", NStr "u_1"); ("created", NTime (DateTime 2021 3 4 5 6 7 0)); ("active", NBool true)]).
Proof.
  rewrite (ldif_roundtrip account an_account); [reflexivity|..].
  - apply (bool_decide_unpack _). vm_compute. exact I.
  - repeat (constructor; [by split|]). constructor.
  - assert (to_native_dict account an_account =
      [("user_id", NStr "u_1"); ("created", NTime (DateTime 2021 3 4 5 6 7 89)); ("active", NBool true)]) as -> by reflexivity.
    repeat constructor; eexists; (split; [reflexivity|]); [done| |by eexists]. by exists (DateTime 2021 3 4 5 6 7 89).
Defined.

(** A field without a value is stored, and read back, as the text [None]. *)
Lemma none_is_text m f : lm_type m f = Some OtherType → pythonize_attr_value m f (generalize_field_value NNone) = Ok (NStr "None").
Proof. intros Hty. by apply (value_roundtrip m f OtherType NNone). Qed.

End LdapSpec.
