(* ===== verification/LdapFilterSpec.v ===== *)
(** What the text of a filter means: the grammar of search filters (RFC 4515
    with the empty lists of RFC 4526), and the theorem that the filters the
    OpenLDAP storage writes are read back as the filters they stand for. *)
From Stdlib Require Import Ascii.
From S2P Require Import Prelude PyStr PyVal KvFiles DataAccess ConsulDb LdapDb LdapDbSpec.
Import PyStr Data Ldap.

Module LdapFilter.

(** ** The grammar *)

Inductive match_type := MEqual | MApprox | MGreaterOrEqual | MLessOrEqual.

Inductive lfilter :=
| LAnd (l : list lfilter)
| LOr (l : list lfilter)
| LNot (f : lfilter)
| LMatch (attr : string) (op : match_type) (value : string)
| LPresent (attr : string)
| LSubstrings (attr : string) (pieces : list string).

Definition is_alpha (c : ascii) : bool :=
  is_upper c || ((code "a" <=? code c) && (code c <=? code "z"))%N.
(** Names, options and object identifiers *)
Definition attr_char (c : ascii) : bool :=
  is_alpha c || is_digit c || existsb (Ascii.eqb c) ["-"; "."; ";"]%char.

Fixpoint span (p : ascii → bool) (s : string) : string * string :=
  match s with
  | String c s' => if p c then let '(a, r) := span p s' in (String c a, r) else (EmptyString, s)
  | EmptyString => (EmptyString, s)
  end.

Definition hex (c : ascii) : option N :=
  let d := code c in
  if is_digit c then Some (d - 48)%N
  else if ((65 <=? d) && (d <=? 70))%N then Some (d - 55)%N
  else if ((97 <=? d) && (d <=? 102))%N then Some (d - 87)%N else None.

(** An assertion value: [\hh] is the character of that code; parentheses,
    NUL and a lone backslash have no place in it. *)
Fixpoint unescape (s : string) : option string :=
  match s with
  | EmptyString => Some EmptyString
  | String "\" (String h1 (String h2 s')) =>
      match hex h1, hex h2, unescape s' with
      | Some a, Some b, Some r => Some (String (ascii_of_N (16 * a + b)) r)
      | _, _, _ => None
      end
  | String c s' =>
      if existsb (Ascii.eqb c) ["\"; "("; ")"; "000"]%char then None
      else match unescape s' with Some r => Some (String c r) | None => None end
  end.

Definition match_symbol (s : string) : option (match_type * string) :=
  match s with
  | String "=" r => Some (MEqual, r)
  | String "~" (String "=" r) => Some (MApprox, r)
  | String ">" (String "=" r) => Some (MGreaterOrEqual, r)
  | String "<" (String "=" r) => Some (MLessOrEqual, r)
  | _ => None
  end.

(** What follows the name: a value; after [=], a lone asterisk asks for the
    presence of the attribute, and other asterisks separate substrings. *)
Definition item_of (attr : string) (op : match_type) (value : string) : option lfilter :=
  pieces ← mapM unescape (split "*" value);
  match op, pieces with
  | _, [v] => Some (LMatch attr op v)
  | MEqual, [EmptyString; EmptyString] => Some (LPresent attr)
  | MEqual, _ => Some (LSubstrings attr pieces)
  | _, _ => None
  end.

Definition item (s : string) : option (lfilter * string) :=
  let '(attr, s1) := span attr_char s in
  if decide (attr = "") then None else
  '(op, s2) ← match_symbol s1;
  let '(value, s3) := span (λ c, negb (Ascii.eqb c ")")) s2 in
  match s3 with
  | String ")" rest => f ← item_of attr op value; Some (f, rest)
  | _ => None
  end.

(** Filters one after the other, up to a closing parenthesis *)
Fixpoint filters (fuel : nat) (s : string) : option (list lfilter * string) :=
  match fuel, s with
  | S n, String ")" rest => Some ([], rest)
  | S n, String "(" s' =>
      '(f, r) ← match s' with
                | String "&" s'' => '(l, r) ← filters n s''; Some (LAnd l, r)
                | String "|" s'' => '(l, r) ← filters n s''; Some (LOr l, r)
                | String "!" s'' => '(l, r) ← filters n s''; match l with [f] => Some (LNot f, r) | _ => None end
                | _ => item s'
                end;
      '(fs, r') ← filters n r;
      Some (f :: fs, r')
  | _, _ => None
  end.

(** A text is a filter when, closed by a parenthesis, it is a list of one. *)
Definition parse (s : string) : option lfilter :=
  match filters (S (String.length s)) (s +:+ ")") with Some ([f], EmptyString) => Some f | _ => None end.

Example parse_example :
  parse "(&(name=*x*)(|(age<=5)(!(city=Bo\2aton)))(mail=*))" =
    Some (LAnd [LSubstrings "name" [""; "x"; ""];
                LOr [LMatch "age" MLessOrEqual "5"; LNot (LMatch "city" MEqual "Bo*ton")]; LPresent "mail"]).
Proof. reflexivity. Qed.


(** ** What a filter stands for *)

Definition operands (m : Model native) (field : operand) (v : native) : res (string * string) :=
  name ← field_to_str field;
  right ← match field with
          | FieldName _ => to_native m name v
          | _ => match md_to_native m name v with Some w => Ok w | None => Err DataAccessInternalError end
          end;
  Ok (generalize_field_name name, generalize_text right).

(** The filter of LDAP for a condition; there is none for [<], [>] and [!=]. *)
Definition compare_meaning (op : ComparisonOperation) (name text : string) : option lfilter :=
  match op with
  | OPERATION_EQ => Some (LMatch name MEqual text)
  | OPERATION_LEQ => Some (LMatch name MLessOrEqual text)
  | OPERATION_GEQ => Some (LMatch name MGreaterOrEqual text)
  | OPERATION_LIKE => Some (LSubstrings name [""; text; ""])
  | _ => None
  end.

Fixpoint meaning (m : Model native) (f : filter_tree native) : option lfilter :=
  match f with
  | FilterOperationAnd l => LAnd <$> mapM id (map (meaning m) l)
  | FilterOperationOr l => LOr <$> mapM id (map (meaning m) l)
  | FilterOperationCompare field op v =>
      match operands m field v with Ok (name, text) => compare_meaning op name text | Err _ => None end
  end.

(** Names that are names of attributes, and texts that need no escape; the
    text of [like] is not empty. *)
Definition plain_char (c : ascii) : bool := negb (existsb (Ascii.eqb c) ["\"; "("; ")"; "*"; "000"]%char).
Definition plain_operands (op : ComparisonOperation) (name text : string) : bool :=
  negb (String.eqb name "") && sforall attr_char name && sforall plain_char text &&
  match op with OPERATION_LIKE => negb (String.eqb text "") | _ => true end.
Fixpoint plain (m : Model native) (f : filter_tree native) : bool :=
  match f with
  | FilterOperationAnd l | FilterOperationOr l => forallb (plain m) l
  | FilterOperationCompare field op v =>
      match operands m field v with Ok (name, text) => plain_operands op name text | Err _ => false end
  end.

Definition compare_text (op : ComparisonOperation) (name text : string) : string :=
  name +:+ match op with
           | OPERATION_LIKE => "=*" +:+ text +:+ "*"
           | _ => op_value op +:+ text
           end.

Lemma handle_compare_text m field op v :
  handle_compare m field op v = '(name, text) ← operands m field v; Ok (compare_text op name text).
Proof.
  unfold handle_compare, operands. destruct (field_to_str field) as [name|e]; [|done]. cbn.
  by destruct (match field with FieldName _ => _ | _ => _ end) as [w|e]; cbn; [destruct op|].
Qed.

(** ** Reading an item *)

Lemma span_app p s t : sforall p s = true → (match t with String c _ => p c = false | _ => True end) → span p (s +:+ t) = (s, t).
Proof.
  intros Hs Ht. induction s as [|c s IH]; cbn.
  - destruct t as [|c t]; [done|]. cbn. by rewrite Ht.
  - apply andb_prop in Hs as [Hc Hs]. by rewrite Hc, IH.
Qed.

Lemma unescape_plain s : sforall plain_char s = true → unescape s = Some s.
Proof.
  induction s as [|c s IH]; [done|]. intros [Hc Hs]%andb_prop. specialize (IH Hs).
  unfold plain_char in Hc. apply negb_true_iff in Hc.
  assert (existsb (Ascii.eqb c) ["\"; "("; ")"; "000"]%char = false ∧ c ≠ "\"%char) as [Hc' Hb].
  { cbn in *. rewrite !orb_false_iff in Hc. destruct Hc as (H1 & H2 & H3 & H4 & H5 & _). rewrite H1, H2, H3, H5.
    split; [done|]. by apply Ascii.eqb_neq in H1. }
  transitivity (if existsb (Ascii.eqb c) ["\"; "("; ")"; "000"]%char then None
                else match unescape s with Some r => Some (String c r) | None => None end).
  - destruct c as [[] [] [] [] [] [] [] []]; try reflexivity. by destruct Hb.
  - by rewrite Hc', IH.
Qed.

Lemma plain_no_star s : sforall plain_char s = true → no_char "*" s = true.
Proof.
  apply sforall_impl. intros c Hc. unfold plain_char in Hc. cbn in Hc. rewrite !negb_orb, !andb_true_iff in Hc. tauto.
Qed.
Lemma plain_no_close s : sforall plain_char s = true → sforall (λ c, negb (Ascii.eqb c ")")) s = true.
Proof.
  apply sforall_impl. intros c Hc. unfold plain_char in Hc. cbn in Hc. rewrite !negb_orb, !andb_true_iff in Hc. tauto.
Qed.

Lemma item_of_plain a op v : sforall plain_char v = true → item_of a op v = Some (LMatch a op v).
Proof.
  intros Hv. unfold item_of. rewrite split_no_char by by apply plain_no_star. cbn. rewrite unescape_plain by done.
  by destruct op, v.
Qed.
Lemma item_of_like a v :
  v ≠ "" → sforall plain_char v = true → item_of a MEqual ("*" +:+ v +:+ "*") = Some (LSubstrings a [""; v; ""]).
Proof.
  intros Hne Hv. unfold item_of.
  assert (split "*" ("*" +:+ v +:+ "*") = [""; v; ""]) as ->.
  { change ("*" +:+ v +:+ "*") with (join (sep "*") [""; v; ""]). apply split_join; [done|].
    repeat constructor. by apply plain_no_star. }
  cbn. rewrite unescape_plain by done. by destruct v.
Qed.

Lemma item_reads attr c sym op value f rest :
  attr ≠ "" → sforall attr_char attr = true → attr_char c = false →
  match_symbol (String c sym +:+ value +:+ ")" +:+ rest) = Some (op, value +:+ ")" +:+ rest) →
  sforall (λ c, negb (Ascii.eqb c ")")) value = true → item_of attr op value = Some f →
  item (attr +:+ String c sym +:+ value +:+ ")" +:+ rest) = Some (f, rest).
Proof.
  intros Hne Ha Hc Hm Hv Hf. unfold item. rewrite span_app by done. rewrite decide_False by done.
  rewrite Hm. cbn. rewrite span_app by done. cbn. by rewrite Hf.
Qed.

(** The text of a condition is read as the item it stands for. *)
Lemma item_compare op name text d rest :
  plain_operands op name text = true → compare_meaning op name text = Some d →
  item (compare_text op name text +:+ ")" +:+ rest) = Some (d, rest).
Proof.
  unfold plain_operands. rewrite !andb_true_iff, negb_true_iff, String.eqb_neq. intros (((Hne & Hn) & Ht) & Hop) Hd.
  pose proof (plain_no_close _ Ht). unfold compare_text. rewrite !sapp_assoc. destruct op; try done; cbn in Hd; injection Hd as <-.
  - by apply (item_reads name "=" "" MEqual text); [..|apply item_of_plain].
  - by apply (item_reads name "<" "=" MLessOrEqual text); [..|apply item_of_plain].
  - by apply (item_reads name ">" "=" MGreaterOrEqual text); [..|apply item_of_plain].
  - apply negb_true_iff, String.eqb_neq in Hop.
    pose proof (item_reads name "=" "" MEqual ("*" +:+ text +:+ "*") (LSubstrings name [""; text; ""]) rest) as Hi.
    apply Hi; try done; [|by apply item_of_like].
    change (sforall (λ c, negb (Ascii.eqb c ")")) (text +:+ "*") = true). by rewrite sforall_app, andb_true_iff.
Qed.

(** ** Reading a list of filters *)

Lemma filters_more n s x k : filters n s = Some x → n ≤ k → filters k s = Some x.
Proof.
  revert s x k. induction n as [|n IH]; intros s x k Hs Hk; [done|]. destruct k as [|k]; [lia|].
  assert (∀ s y, filters n s = Some y → filters k s = Some y) as Hsub by (intros; eapply IH; [done|lia]). clear IH Hk.
  destruct s as [|c s]; [done|]. revert Hs. cbn [filters].
  destruct (ascii_dec c ")") as [->|Hc]; [done|]. destruct (ascii_dec c "(") as [->|Hc'].
  - intros ([f r] & Hf & ([fs r'] & Hfs & He)%bind_Some)%bind_Some. apply bind_Some. exists (f, r). split.
    + clear -Hf Hsub. destruct s as [|c s]; [done|].
      destruct (ascii_dec c "&") as [->|H1]; [|destruct (ascii_dec c "|") as [->|H2]; [|destruct (ascii_dec c "!") as [->|H3]]].
      * apply bind_Some in Hf as ([l r0] & Hl & Hf). apply bind_Some. eauto.
      * apply bind_Some in Hf as ([l r0] & Hl & Hf). apply bind_Some. eauto.
      * apply bind_Some in Hf as ([l r0] & Hl & Hf). apply bind_Some. eauto.
      * by destruct c as [[] [] [] [] [] [] [] []].
    + apply bind_Some. eauto.
  - by destruct c as [[] [] [] [] [] [] [] []].
Qed.

Definition in_parens (s : string) : string := "(" +:+ s +:+ ")".
Lemma in_parens_length s : String.length (in_parens s) = String.length s + 2.
Proof. unfold in_parens. rewrite !slength_app. cbn. lia. Qed.

(** The text [s] of a filter is read as [d], whatever follows it. *)
Definition reads_as (s : string) (d : lfilter) : Prop :=
  ∀ n fs rest r, filters n rest = Some (fs, r) → filters (n + String.length s + 2) (in_parens s +:+ rest) = Some (d :: fs, r).

Lemma reads_parse s d : reads_as s d → parse (in_parens s) = Some d.
Proof.
  intros Hr. unfold parse. rewrite (filters_more _ _ ([d], "") _ (Hr 1 [] ")" "" eq_refl)); [done|].
  rewrite in_parens_length. lia.
Qed.

Lemma reads_list ss ds n fs rest r :
  Forall2 reads_as ss ds → filters n rest = Some (fs, r) →
  filters (n + String.length (String.concat "" (in_parens <$> ss))) (String.concat "" (in_parens <$> ss) +:+ rest)
    = Some (ds ++ fs, r).
Proof.
  assert (∀ s l, String.concat "" (in_parens <$> s :: l) = in_parens s +:+ String.concat "" (in_parens <$> l)) as Hcons.
  { intros s [|s' l]; [by rewrite sapp_nil_r|done]. }
  intros Hss Hr. induction Hss as [|s d ss ds Hs Hss IH]; [by rewrite Nat.add_0_r|].
  rewrite Hcons, sapp_assoc. eapply filters_more; [by apply Hs, IH|].
  rewrite slength_app, in_parens_length. lia.
Qed.

Lemma reads_composite (c : ascii) (mk : list lfilter → lfilter) ss ds :
  (∀ n s, filters (S n) (String "(" (String c s)) =
     '(f, r) ← ('(l, r) ← filters n s; Some (mk l, r)); '(fs, r') ← filters n r; Some (f :: fs, r')) →
  Forall2 reads_as ss ds → reads_as (String c (String.concat "" (in_parens <$> ss))) (mk ds).
Proof.
  intros Hc Hss n fs rest r Hr. set (text := String.concat "" (in_parens <$> ss)).
  assert (in_parens (String c text) +:+ rest = String "(" (String c (text +:+ ")" +:+ rest))) as ->.
  { unfold in_parens. cbn. by rewrite sapp_assoc. }
  cbn [String.length]. rewrite (Nat.add_comm _ 2). change (2 + ?k) with (S (S k)). rewrite Hc.
  rewrite (filters_more (1 + String.length text) _ (ds, rest)).
  - cbv beta iota delta [mbind option_bind]. by rewrite (filters_more n rest (fs, r)) by (done || lia).
  - rewrite <- (app_nil_r ds). by apply reads_list.
  - lia.
Qed.

Lemma reads_item s d :
  (∀ rest, item (s +:+ ")" +:+ rest) = Some (d, rest)) → (match s with String c _ => attr_char c = true | _ => False end) →
  reads_as s d.
Proof.
  intros Hi Hc n fs rest r Hr.
  assert (in_parens s +:+ rest = String "(" (s +:+ ")" +:+ rest)) as -> by by rewrite <- (sapp_assoc s).
  rewrite (Nat.add_comm _ 2). change (2 + ?k) with (S (S k)).
  transitivity ('(f, r0) ← item (s +:+ ")" +:+ rest); '(fs0, r') ← filters (S (n + String.length s)) r0; Some (f :: fs0, r')).
  - destruct s as [|[[] [] [] [] [] [] [] []] s]; done.
  - rewrite Hi. cbv beta iota delta [mbind option_bind]. by rewrite (filters_more n rest (fs, r)) by (done || lia).
Qed.

Lemma reads_compare op name text d :
  plain_operands op name text = true → compare_meaning op name text = Some d → reads_as (compare_text op name text) d.
Proof.
  intros Hp Hd. apply reads_item; [intros rest; by apply item_compare|].
  unfold plain_operands in Hp. rewrite !andb_true_iff in Hp. destruct Hp as (((Hne & Hn) & _) & _).
  destruct name as [|c name]; [done|]. by apply andb_prop in Hn as [Hc _].
Qed.

(** The filters of a list, each with the text [visit] gives it *)
Lemma reads_filters m l ds :
  Forall (λ f, ∀ d, meaning m f = Some d → plain m f = true → ∃ s, visit m f = Ok s ∧ reads_as s d) l →
  mapM id (map (meaning m) l) = Some ds → forallb (plain m) l = true →
  ∃ ss, res_map (λ x, x) (map (visit m) l) = Ok ss ∧ Forall2 reads_as ss ds.
Proof.
  intros Hl. revert ds. induction Hl as [|f l Hf Hl IH]; intros ds Hd Hp.
  - injection Hd as <-. by exists [].
  - cbn in Hd. apply bind_Some in Hd as (d & Hfd & (ds' & Hds & [= <-])%bind_Some). apply andb_prop in Hp as [Hp Hps].
    destruct (Hf d Hfd Hp) as (s & Hs & Hr). destruct (IH ds' Hds Hps) as (ss & Hss & Hrs).
    exists (s :: ss). cbn. rewrite Hs. cbn. rewrite Hss. auto.
Qed.

Lemma visit_reads m f d : meaning m f = Some d → plain m f = true → ∃ s, visit m f = Ok s ∧ reads_as s d.
Proof.
  revert d. induction f as [l IH|l IH|field op v] using filter_nested_ind; intros d Hd Hp; cbn in Hd, Hp |- *.
  1, 2: apply fmap_Some in Hd as (ds & Hds & ->); destruct (reads_filters m l ds IH Hds Hp) as (ss & Hss & Hrs);
    unfold _handle_composite; rewrite Hss; eexists; split; [reflexivity|].
  - exact (reads_composite "&" LAnd ss ds (λ _ _, eq_refl) Hrs).
  - exact (reads_composite "|" LOr ss ds (λ _ _, eq_refl) Hrs).
  - rewrite handle_compare_text. destruct (operands m field v) as [[name text]|]; [|done]. cbn.
    eexists; split; [reflexivity|]. by apply reads_compare.
Qed.

(** The comparisons LDAP does not have are written with their symbols in
    Python; what is written is no filter. *)
Lemma unsupported_operator m field op v name text :
  operands m field v = Ok (name, text) → plain_operands op name text = true → startswith text "=" = false →
  compare_meaning op name text = None →
  ∃ s, build m (FilterOperationCompare field op v) = Ok s ∧ parse s = None.
Proof.
  intros Ho Hp He Hop. exists (in_parens (compare_text op name text)). unfold build, visit. rewrite handle_compare_text, Ho.
  split; [done|]. unfold plain_operands in Hp. rewrite !andb_true_iff, negb_true_iff, String.eqb_neq in Hp.
  destruct Hp as (((Hne & Hn) & _) & _).
  assert (item (compare_text op name text +:+ "))") = None) as Hi.
  { unfold item, compare_text. rewrite sapp_assoc. destruct op; try done.
    all: rewrite span_app by done. all: rewrite decide_False by done. all: cbn.
    all: destruct text as [|c text]; [reflexivity|]; destruct (ascii_dec c "=") as [->|Hc]; [by destruct text|].
    all: destruct c as [[] [] [] [] [] [] [] []]; (reflexivity || by destruct Hc). }
  unfold parse. assert (in_parens (compare_text op name text) +:+ ")" = String "(" (compare_text op name text +:+ "))")) as ->.
  { unfold in_parens. cbn. by rewrite sapp_assoc. }
  cbn [filters]. destruct name as [|c name]; [done|]. cbn in Hn. apply andb_prop in Hn as [Hc _].
  destruct c as [[] [] [] [] [] [] [] []]; try done; by rewrite Hi.
Qed.

(** C7.  For trees of conditions over names of attributes and texts that need
    no escape ([\], parentheses, [*], NUL), the operators decide: with [=], [<=],
    [>=] and [like] only, the text built is a well-formed search filter, read
    under the grammar of search filters as the same tree - the same connectives
    in the same order, the same comparisons of the same attributes, [like] as a
    substring anywhere; a comparison by [<], [>] or [!=] is written all the
    same, and is no filter. *)
Theorem filter_parses m f :
  plain m f = true →
  (∀ d, meaning m f = Some d → ∃ s, build m f = Ok s ∧ parse s = Some d) ∧
  (∀ field op v name text, f = FilterOperationCompare field op v →
     op = OPERATION_GT ∨ op = OPERATION_LT ∨ op = OPERATION_NE →
     operands m field v = Ok (name, text) → startswith text "=" = false →
     ∃ s, build m f = Ok s ∧ parse s = None).
Proof.
  intros Hp. split.
  - intros d Hd. destruct (visit_reads m f d Hd Hp) as (s & Hs & Hr). exists (in_parens s). unfold build. rewrite Hs.
    split; [done|]. by apply reads_parse.
  - intros field op v name text -> Hop Ho He. apply (unsupported_operator m field op v name text); try done.
    + cbn in Hp. by rewrite Ho in Hp.
    + by destruct Hop as [-> |[-> | ->]].
Qed.

Lemma filter_parses_witness :
  let f := FilterOperationAnd [FilterOperationCompare (FieldName "user_id") OPERATION_LIKE (NStr "bob");
             FilterOperationOr [FilterOperationCompare (FieldName "active") OPERATION_EQ (NBool true);
                                FilterOperationCompare (FieldName "created") OPERATION_LEQ (NTime (DateTime 2021 3 4 5 6 7 0))]] in
  let g := FilterOperationCompare (FieldName "user_id") OPERATION_NE (NStr "bob") in
  build LdapSpec.account_model f = Ok "(&(user-id=*bob*)(|(active=TRUE)(created<=20210304050607Z)))" ∧
  (∃ s, build LdapSpec.account_model f = Ok s ∧
    parse s = Some (LAnd [LSubstrings "user-id" [""; "bob"; ""];
                          LOr [LMatch "active" MEqual "TRUE"; LMatch "created" MLessOrEqual "20210304050607Z"]])) ∧
  build LdapSpec.account_model g = Ok "(user-id!=bob)" ∧
  ∃ s, build LdapSpec.account_model g = Ok s ∧ parse s = None.
Proof.
  intros f g. split; [reflexivity|]. split; [|split; [reflexivity|]].
  - by apply (filter_parses LdapSpec.account_model f).
  - apply (proj2 (filter_parses LdapSpec.account_model g eq_refl) (FieldName "user_id") OPERATION_NE (NStr "bob") "user-id" "bob");
      [reflexivity|right; right; reflexivity|reflexivity|reflexivity].
Defined.

(** Values are not escaped: a condition on the value [*] asks for the presence
    of the attribute, and a parenthesis ends the condition. *)
Lemma unescaped_value :
  let ask v := FilterOperationAnd [FilterOperationCompare (FieldName "user_id") OPERATION_EQ (NStr v)] in
  (∃ s, build LdapSpec.account_model (ask "*") = Ok s ∧ parse s = Some (LAnd [LPresent "user-id"])) ∧
  ∃ s, build LdapSpec.account_model (ask "x)(mail=y") = Ok s ∧
       parse s = Some (LAnd [LMatch "user-id" MEqual "x"; LMatch "mail" MEqual "y"]).
Proof. intros ask. split; (eexists; split; [reflexivity|reflexivity]). Qed.

End LdapFilter.
