(* ===== verification/Amqp.v ===== *)
(** [utils/amqp/rabbitmq/amqp.py]: a channel to a RabbitMQ broker that
    reconnects when it breaks, with its producer and its consumer.

    The library [pika], the clock and the random order of the hosts are the
    class [Pika] on the world; the keyword arguments of the constructors are the
    record [config]. *)
From S2P Require Import Prelude PyStr PyVal KvFiles KvCodec.
Import PyStr PyVal.

Module Amqp.

(** Connections, channels and parsed URLs; the operations raise in the
    exceptions of the library. *)
Class Pika (W C H U : Type) := {
  pk_sleep : Z → W → W;
  pk_shuffle : list U → W → list U * W;
  pk_URLParameters : string → res U;
  pk_BlockingConnection : list U → ST W C;
  pk_channel : C → ST W H;
  pk_exchange_declare : H → string → string → bool → ST W unit;
  pk_queue_declare : H → string → bool → bool → ST W unit;
  pk_queue_bind : H → string → string → string → ST W unit;
  pk_basic_publish : H → string → string → string → ST W unit;
  pk_basic_ack : H → option Z → ST W unit;
  pk_basic_cancel : H → string → ST W unit;
  pk_stop_consuming : H → ST W unit;
  pk_close_channel : H → ST W unit;
  pk_close_connection : C → ST W unit;
  pk_basic_consume : H → string → string → ST W unit;
  pk_next_delivery : H → ST W (option (Z * string))     (* None: consumption was stopped *)
}.

Record config := Config {
  exchange : string; exchange_queue : string; routing_key : string; hosts : list string;
  virtual_host : string; username : string; password : string; exchange_type : string;
  retry_counter : Z; durable : bool; exclusive : bool
}.

Definition CONSUMER_TAG : string := "AMQP_CONSUMER".

(** [self.connection_exceptions]; [AttributeError] is what a call on no channel
    raises. *)
Definition connection_exceptions (e : exn) : bool :=
  match e with
  | AMQPConnectionError | ChannelClosedByBroker | ChannelWrongStateError | AttributeError => true
  | _ => false
  end.
(** [except AMQPError]: the class and its subclasses *)
Definition amqp_errors (e : exn) : bool :=
  match e with AMQPError | AMQPConnectionError | ChannelClosedByBroker | ChannelWrongStateError => true | _ => false end.

Section channel.
Context {W C H U : Type} {PK : Pika W C H U} {F : Files.Format} (cfg : config).

(** ** [RabbitMQAmqpChannel] *)

(** The world, and the attributes [_connection] and [_channel] *)
Record chan := Chan { ch_world : W; ch_connection : option C; ch_channel : option H }.

Definition on_world {A} (m : ST W A) : ST chan A := λ s,
  let '(r, w) := m (ch_world s) in (r, Chan w (ch_connection s) (ch_channel s)).
(** A call of a method of [self._channel] *)
Definition on_channel {A} (m : H → ST W A) : ST chan A := λ s,
  match ch_channel s with Some h => on_world (m h) s | None => (Err AttributeError, s) end.
Definition on_connection {A} (m : C → ST W A) : ST chan A := λ s,
  match ch_connection s with Some c => on_world (m c) s | None => (Err AttributeError, s) end.

(** [self._connection and self._channel] *)
Definition connected (s : chan) : bool :=
  match ch_connection s, ch_channel s with Some _, Some _ => true | _, _ => false end.

Definition url (host : string) : string :=
  "amqp://" +:+ username cfg +:+ ":" +:+ password cfg +:+ "@" +:+ host +:+ "/" +:+ virtual_host cfg.

Definition connect : ST chan unit :=
  st_except connection_exceptions
    (let! ampq_hosts := st_lift (res_map (λ host, pk_URLParameters (url host)) (hosts cfg)) in
     let! ampq_hosts := on_world (λ w, let '(l, w') := pk_shuffle ampq_hosts w in (Ok l, w')) in
     let! c := on_world (pk_BlockingConnection ampq_hosts) in
     (λ s, (Ok tt, Chan (ch_world s) (Some c) (ch_channel s))) ;;;
     let! h := on_connection pk_channel in
     λ s, (Ok tt, Chan (ch_world s) (ch_connection s) (Some h)))
    (λ _, st_ret tt).

Definition _declare_exchange_and_queue : ST chan unit := λ s,
  if connected s then
    (st_except amqp_errors (on_channel (λ h, pk_exchange_declare h (exchange cfg) (exchange_type cfg) (durable cfg)))
       (λ _, st_ret tt) ;;;
     st_except amqp_errors
       (on_channel (λ h, pk_queue_declare h (exchange_queue cfg) (exclusive cfg) (durable cfg)) ;;;
        on_channel (λ h, pk_queue_bind h (exchange cfg) (exchange_queue cfg) (routing_key cfg)))
       (λ _, st_raise AMQPError)) s
  else (Ok tt, s).

Definition wait (dt : Z) : ST chan unit := on_world (λ w, (Ok tt, pk_sleep dt w)).

(** The loop of [init]: [attempts] more, after [retry_count] *)
Fixpoint init_loop (attempts : nat) (retry_count : nat) : ST chan unit :=
  match attempts with
  | 0 => st_ret tt
  | S attempts =>
      connect ;;;
      λ s, if connected s then (Ok tt, s)
           else (wait (2 ^ Z.of_nat retry_count) ;;; init_loop attempts (S retry_count)) s
  end.

Definition init : ST chan unit :=
  (λ s, (Ok tt, Chan (ch_world s) None None)) ;;;
  init_loop (Z.to_nat (retry_counter cfg)) 0 ;;;
  λ s, if connected s then _declare_exchange_and_queue s else (Err AmqpConnectionError, s).

Definition disconnect : ST chan unit :=
  st_except (λ _, true)
    (λ s, match ch_connection s with
          | Some _ =>
              (on_channel (λ h, pk_basic_cancel h CONSUMER_TAG) ;;;
               on_channel pk_stop_consuming ;;;
               on_channel pk_close_channel ;;;
               on_connection pk_close_connection ;;;
               (λ s, (Ok tt, Chan (ch_world s) None None))) s
          | None => (Ok tt, s)
          end)
    (λ _, st_ret tt).

(** A call that is made again after a new connection; [depth] is what is left
    of the interpreter's stack. *)
Fixpoint reconnecting (depth : nat) (m : ST chan unit) : ST chan unit :=
  match depth with
  | 0 => st_raise RecursionError
  | S depth => st_except connection_exceptions m (λ _, init ;;; reconnecting depth m)
  end.

Definition publish (message : value) : ST chan unit :=
  on_channel (λ h, pk_basic_publish h (exchange cfg) (routing_key cfg) (Files.dumps message)).
Definition send (depth : nat) (message : value) : ST chan unit := reconnecting depth (publish message).
Definition acknowledge (depth : nat) (delivery_tag : option Z) : ST chan unit :=
  reconnecting depth (on_channel (λ h, pk_basic_ack h delivery_tag)).

(** [recv], [recv_file] and [send_file] raise. *)
Definition not_implemented : ST chan unit := st_raise PlainException.

(** ** [RabbitMQAmqpConsumer] *)

Record consumer := Consumer { co_chan : chan; co_delivery_tag : option Z; co_is_disconnect : bool }.

Definition in_channel {A} (m : ST chan A) : ST consumer A := λ s,
  let '(r, c) := m (co_chan s) in (r, Consumer c (co_delivery_tag s) (co_is_disconnect s)).

Definition consumer_init : ST consumer unit := in_channel init.
Definition consumer_acknowledge (depth : nat) : ST consumer unit := λ s,
  in_channel (acknowledge depth (co_delivery_tag s)) s.
Definition consumer_disconnect : ST consumer unit :=
  (λ s, (Ok tt, Consumer (co_chan s) (co_delivery_tag s) true)) ;;; in_channel disconnect.
Definition consumer_stop : ST consumer unit := consumer_disconnect.

Definition _alert_callback (plugin_callback : string → ST consumer unit) (delivery_tag : Z) (body : string) : ST consumer unit :=
  (λ s, (Ok tt, Consumer (co_chan s) (Some delivery_tag) (co_is_disconnect s))) ;;; plugin_callback body.

(** [start_consuming] on a channel: the callback on each delivery, until the
    consumption is stopped; at most [n] deliveries are looked at. *)
Fixpoint start_consuming (n : nat) (h : H) (callback : Z → string → ST consumer unit) : ST consumer unit :=
  match n with
  | 0 => st_raise RuntimeError
  | S n =>
      let! d := in_channel (on_world (pk_next_delivery h)) in
      match d with
      | Some (tag, body) => callback tag body ;;; start_consuming n h callback
      | None => st_ret tt
      end
  end.

Definition consume (n : nat) (callback_fn : string → ST consumer unit) : ST consumer unit :=
  in_channel (on_channel (λ h, pk_basic_consume h (exchange_queue cfg) CONSUMER_TAG)) ;;;
  λ s, match ch_channel (co_chan s) with
       | Some h => start_consuming n h (_alert_callback callback_fn) s
       | None => (Err AttributeError, s)
       end.

Fixpoint recv (depth n : nat) (callback_fn : string → ST consumer unit) : ST consumer unit :=
  match depth with
  | 0 => st_raise RecursionError
  | S depth =>
      st_except connection_exceptions (consume n callback_fn)
        (λ _ s, if co_is_disconnect s then (Ok tt, s) else (consumer_init ;;; recv depth n callback_fn) s)
  end.

(** ** [RabbitMQAmqpProducer] *)

Definition producer_init : ST chan unit := init.
Definition producer_send (depth : nat) (message : value) : ST chan unit := send depth message.
Definition producer_disconnect : ST chan unit := disconnect.
Definition producer_stop : ST chan unit := producer_disconnect.

End channel.
Arguments chan : clear implicits.
Arguments consumer : clear implicits.
End Amqp.

(** * Theorems

    What the channel to the RabbitMQ broker promises: [init] makes a bounded
    number of attempts with doubling waits, and [send] returns exactly after a
    publication that returned, whatever connections broke on the way.  What the
    broker does with the publication is not in the theorem: the code asks for
    no confirmation. *)
Import PyStr PyVal Amqp.

Module AmqpSpec.

Section spec.
Context {W C H U : Type} {PK : Pika W C H U} {F : Files.Format} (cfg : config).
Notation chan := (chan W C H).
Notation connect := (connect cfg).
Notation init := (init cfg).
Implicit Types s : chan.

(** ** Attempts to connect *)

(** The channel before attempt [i], when the earlier ones have failed *)
Fixpoint before_attempt (i : nat) s : chan :=
  match i with
  | 0 => Chan (ch_world s) None None
  | S i => (wait (2 ^ Z.of_nat i) (connect (before_attempt i s)).2).2
  end.

Definition attempt_fails (i : nat) s : Prop :=
  (connect (before_attempt i s)).1 = Ok tt ∧ connected (connect (before_attempt i s)).2 = false.

Lemma init_loop_fails k more c s0 :
  (∀ i, c ≤ i < c + k → attempt_fails i s0) →
  init_loop cfg (k + more) c (before_attempt c s0) = init_loop cfg more (c + k) (before_attempt (c + k) s0).
Proof.
  revert c. induction k as [|k IH]; intros c Hk; [by rewrite Nat.add_0_r|].
  destruct (Hk c ltac:(lia)) as [Hr Hc]. cbn [init_loop plus]. unfold st_bind at 1.
  destruct (connect (before_attempt c s0)) as [r s1] eqn:Hcon. cbn in Hr, Hc. subst r. rewrite Hc.
  assert (before_attempt (S c) s0 = (wait (2 ^ Z.of_nat c) s1).2) as Hb by (cbn [before_attempt]; by rewrite Hcon).
  transitivity (init_loop cfg (k + more) (S c) (before_attempt (S c) s0)); [by rewrite Hb|].
  rewrite IH by (intros; apply Hk; lia). by rewrite Nat.add_succ_r.
Qed.

(** What [init] does after [k] failed attempts *)
Definition init_outcome (k : nat) s : res unit * chan :=
  if decide (k = Z.to_nat (retry_counter cfg)) then (Err AmqpConnectionError, before_attempt k s)
  else match connect (before_attempt k s) with
       | (Ok _, s') => _declare_exchange_and_queue cfg s'
       | (Err e, s') => (Err e, s')
       end.

Lemma connected_before k s : connected (before_attempt k s) = true → (∀ i, i < k → attempt_fails i s) → False.
Proof.
  destruct k as [|k]; [done|]. cbn [before_attempt]. intros Hc Hk. destruct (Hk k ltac:(lia)) as [_ Hf].
  destruct (connect (before_attempt k s)) as [r s1]. unfold connected in *. cbn in *. congruence.
Qed.

(** The time spent waiting, as the world counts it *)
Section waits.
Context (waited : W → Z).
Context (waited_sleep : ∀ dt w, waited (pk_sleep dt w) = (waited w + dt)%Z).
Context (waited_connect : ∀ s, waited (ch_world (connect s).2) = waited (ch_world s)).

Lemma attempts_waited k s : waited (ch_world (before_attempt k s)) = (waited (ch_world s) + 2 ^ Z.of_nat k - 1)%Z.
Proof.
  induction k as [|k IH]; [cbn; lia|]. cbn [before_attempt]. unfold wait, on_world. cbn [ch_world snd].
  rewrite waited_sleep, waited_connect, IH, Nat2Z.inj_succ, Z.pow_succ_r by lia. lia.
Qed.

(** C29.  [init] makes at most [retry_counter] attempts to connect. When the first
    [k] fail it has waited [2^k - 1] seconds, and then: if those are all the
    attempts, it raises; otherwise the next attempt either connects, and the
    exchange and the queue are declared on that connection, or raises an
    exception that is not retried. *)
Theorem init_exact k s :
  k ≤ Z.to_nat (retry_counter cfg) → (∀ i, i < k → attempt_fails i s) →
  (k < Z.to_nat (retry_counter cfg) → ¬ attempt_fails k s) →
  init s = init_outcome k s ∧ waited (ch_world (before_attempt k s)) = (waited (ch_world s) + 2 ^ Z.of_nat k - 1)%Z.
Proof.
  intros Hk Hf Hlast. split; [|apply attempts_waited]. unfold init, Amqp.init, init_outcome.
  remember (Z.to_nat (retry_counter cfg)) as n eqn:Hn. clear Hn.
  assert (init_loop cfg n 0 (Chan (ch_world s) None None) = init_loop cfg (n - k) k (before_attempt k s)) as Hl.
  { replace n with (k + (n - k)) at 1 by lia. apply (init_loop_fails k (n - k) 0 s). intros i Hi. apply Hf. lia. }
  unfold st_bind at 1 2. cbv beta iota. rewrite Hl. case_decide as Hd.
  - subst n. rewrite Nat.sub_diag. cbn [init_loop st_ret]. destruct (connected (before_attempt k s)) eqn:Hc; [|done].
    by destruct (connected_before k s Hc Hf).
  - destruct (n - k) as [|more] eqn:Hnk; [lia|]. cbn [init_loop]. unfold st_bind.
    specialize (Hlast ltac:(lia)). unfold attempt_fails in Hlast.
    destruct (connect (before_attempt k s)) as [[[]|e] s1]; [|done]. cbn in Hlast.
    destruct (connected s1) eqn:Hc; [by rewrite Hc|]. by destruct Hlast.
Qed.
End waits.

(** ** Calls that are made again *)

(** The channel after [j] calls that broke and the connections made after them *)
Fixpoint after_failures (m : ST chan unit) (j : nat) s : chan :=
  match j with 0 => s | S j => after_failures m j (init (m s).2).2 end.
Definition breaks (m : ST chan unit) s : Prop :=
  (∃ e, (m s).1 = Err e ∧ connection_exceptions e = true) ∧ (init (m s).2).1 = Ok tt.

(** After [j] calls that broke and connections that were made, the next call is
    the result; nothing but the stack bounds their number. *)
Lemma reconnecting_exact m j depth s :
  (∀ i, i < j → breaks m (after_failures m i s)) →
  reconnecting cfg (j + depth) m s = reconnecting cfg depth m (after_failures m j s).
Proof.
  revert s. induction j as [|j IH]; intros s Hj; [done|]. destruct (Hj 0 ltac:(lia)) as [(e & He & Hc) Hi].
  assert (∀ i, i < j → breaks m (after_failures m i (init (m s).2).2)) as Hj'.
  { intros i Hlt. exact (Hj (S i) ltac:(lia)). }
  clear Hj. cbn [plus reconnecting after_failures] in *. unfold st_except, st_bind.
  destruct (m s) as [r s1]. cbn [fst snd] in *. subst r. rewrite Hc.
  destruct (init s1) as [r s2]. cbn [fst snd] in *. subst r. by apply IH.
Qed.

(** The first call that does not break, or none. *)
Lemma reconnecting_cases m depth s r s' :
  reconnecting cfg depth m s = (r, s') →
  (r = Err RecursionError ∧ ∀ i, i < depth → breaks m (after_failures m i s)) ∨
  ∃ j, j < depth ∧ (∀ i, i < j → breaks m (after_failures m i s)) ∧
    ((m (after_failures m j s) = (r, s') ∧ (∀ e, r = Err e → connection_exceptions e = false)) ∨
     ∃ e e' s1, m (after_failures m j s) = (Err e, s1) ∧ connection_exceptions e = true ∧
               init s1 = (Err e', s') ∧ r = Err e').
Proof.
  revert s. induction depth as [|depth IH]; intros s; cbn [reconnecting].
  { intros [= <- <-]. left. split; [done|lia]. }
  unfold st_except at 1. destruct (m s) as [[[]|e] s1] eqn:Hm.
  { intros [= <- <-]. right. exists 0. split; [lia|]. split; [lia|]. by left. }
  destruct (connection_exceptions e) eqn:He.
  2:{ intros [= <- <-]. right. exists 0. split; [lia|]. split; [lia|]. left. split; [done|]. by intros ? [= <-]. }
  unfold st_bind at 1. destruct (init s1) as [[[]|e'] s2] eqn:Hi.
  2:{ intros [= <- <-]. right. exists 0. split; [lia|]. split; [lia|]. right. by exists e, e', s1. }
  assert (Hb : breaks m s) by (unfold breaks; rewrite Hm; cbn [fst snd]; rewrite Hi; split; [by exists e|done]).
  assert (Hshift : ∀ i, after_failures m (S i) s = after_failures m i s2) by (intros i; cbn [after_failures]; rewrite Hm; cbn [snd]; by rewrite Hi).
  intros [[Hr Hall]|(j & Hj & Hall & Hcase)]%IH.
  - left. split; [done|]. intros [|i] Hlt; [done|]. rewrite Hshift. apply Hall. lia.
  - right. exists (S j). split; [lia|]. rewrite Hshift. split; [|done].
    intros [|i] Hlt; [done|]. rewrite Hshift. apply Hall. lia.
Qed.

(** C20.  [send] publishes the message, as its text, again and again: each call
    that breaks with an error of the connection is followed by a new connection
    and another call.  [send] returns exactly when one of these calls returned,
    on the channel of that moment; it raises what a call or a reconnection
    raised otherwise, or when the calls exhaust the stack. *)
Theorem send_exact depth message s r s' :
  send cfg depth message s = (r, s') →
  let call j := publish cfg message (after_failures (publish cfg message) j s) in
  let broken j := breaks (publish cfg message) (after_failures (publish cfg message) j s) in
  match r with
  | Ok _ => ∃ j h w, let s1 := after_failures (publish cfg message) j s in
      j < depth ∧ (∀ i, i < j → broken i) ∧ ch_channel s1 = Some h ∧
      pk_basic_publish h (exchange cfg) (routing_key cfg) (Files.dumps message) (ch_world s1) = (Ok tt, w) ∧
      s' = Chan w (ch_connection s1) (ch_channel s1)
  | Err e =>
      (e = RecursionError ∧ ∀ i, i < depth → broken i) ∨
      ∃ j, j < depth ∧ (∀ i, i < j → broken i) ∧
        ((call j = (Err e, s') ∧ connection_exceptions e = false) ∨
         ∃ e0 s1, call j = (Err e0, s1) ∧ connection_exceptions e0 = true ∧ init s1 = (Err e, s'))
  end.
Proof.
  intros Hs. apply reconnecting_cases in Hs as [[-> Hall]|(j & Hj & Hall & [[Hcall He]|(e & e' & s1 & Hcall & He & Hi & ->)])];
    [by left| |right; exists j; split; [done|]; split; [done|]; right; by exists e, s1].
  destruct r as [[]|e]; [|right; exists j; split; [done|]; split; [done|]; left; split; [done|by apply He]].
  unfold publish, on_channel, on_world in Hcall. exists j.
  set (s1 := after_failures (publish cfg message) j s).
  change (after_failures _ j s) with s1 in Hcall. destruct (ch_channel s1) as [h|] eqn:Hh; [|done]. exists h.
  destruct (pk_basic_publish h _ _ _ _) as [[[]|e] w] eqn:Hp; [|done]. exists w. injection Hcall as <-. cbv zeta.
  fold s1. by rewrite Hh.
Qed.

(** A consumer that was disconnected does not connect again. *)
Lemma recv_disconnected depth n f c e c' :
  consume cfg n f c = (Err e, c') → connection_exceptions e = true → co_is_disconnect c' = true →
  recv cfg (S depth) n f c = (Ok tt, c').
Proof. intros Hc He Hd. cbn [recv]. unfold st_except. by rewrite Hc, He, Hd. Qed.

End spec.

(** ** A broker: the time, what its exchange received, how many connections it
    still refuses, and how many publications it still takes without an answer *)

Record world := World { w_time : Z; w_log : list string; w_refuses : nat; w_drops : nat }.

Definition same {A} (a : A) : ST world A := λ w, (Ok a, w).
#[local] Instance rabbit : Pika world unit unit string := {|
  pk_sleep dt w := World (w_time w + dt) (w_log w) (w_refuses w) (w_drops w);
  pk_shuffle l w := (rev l, w);
  pk_URLParameters u := Ok u;
  pk_BlockingConnection _ w :=
    match w_refuses w with
    | 0 => (Ok tt, w)
    | S n => (Err AMQPConnectionError, World (w_time w) (w_log w) n (w_drops w))
    end;
  pk_channel _ := same tt;
  pk_exchange_declare _ _ _ _ := same tt;
  pk_queue_declare _ _ _ _ := same tt;
  pk_queue_bind _ _ _ _ := same tt;
  pk_basic_publish _ _ _ b w :=
    match w_drops w with
    | 0 => (Ok tt, World (w_time w) (w_log w ++ [b]) (w_refuses w) 0)
    | S n => (Err ChannelClosedByBroker, World (w_time w) (w_log w ++ [b]) (w_refuses w) n)
    end;
  pk_basic_ack _ _ := same tt;
  pk_basic_cancel _ _ := same tt;
  pk_stop_consuming _ := same tt;
  pk_close_channel _ := same tt;
  pk_close_connection _ := same tt;
  pk_basic_consume _ _ _ := same tt;
  pk_next_delivery _ := same None
|}.

Definition rabbit_config : config :=
  Config "sspl" "alerts" "key" ["a"; "b"] "vhost" "user" "secret" "topic" 3 true false.
Definition no_channel (w : world) : chan world unit unit := Chan w None None.

Lemma init_exact_witness :
  let s := no_channel (World 10 [] 2 0) in
  init rabbit_config s = (Ok tt, Chan (World 13 [] 0 0) (Some tt) (Some tt)) ∧
  init rabbit_config s = init_outcome rabbit_config 2 s ∧
  w_time (ch_world (before_attempt rabbit_config 2 s)) = 13%Z.
Proof.
  intros s. split; [reflexivity|]. apply (init_exact rabbit_config w_time); [done| |cbn; lia| |].
  - intros [w c h]. unfold connect, st_except, st_bind, on_world. cbn. by destruct (w_refuses w) eqn:Hw; cbn.
  - intros i Hi. destruct i as [|[|i]]; [by split|by split|lia].
  - intros _ [_ Hc]. by vm_compute in Hc.
Defined.

(** The first publication breaks, the second returns. *)
Lemma send_exact_witness :
  let s := Chan (World 0 ["x"] 0 1) (Some tt) (Some tt) in
  let m := VStr "alert" in
  let s' := Chan (World 0 ["x"; Files.dumps m; Files.dumps m] 0 0) (Some tt) (Some tt) in
  send rabbit_config 5 m s = (Ok tt, s') ∧
  ∃ j h w, let s1 := after_failures rabbit_config (publish rabbit_config m) j s in
    j < 5 ∧ (∀ i, i < j → breaks rabbit_config (publish rabbit_config m) (after_failures rabbit_config (publish rabbit_config m) i s)) ∧
    ch_channel s1 = Some h ∧
    pk_basic_publish h "sspl" "key" (Files.dumps m) (ch_world s1) = (Ok tt, w) ∧ s' = Chan w (ch_connection s1) (ch_channel s1).
Proof. intros s m s'. split; [reflexivity|]. exact (send_exact rabbit_config 5 m s (Ok tt) s' eq_refl). Defined.

End AmqpSpec.
