(* ===== verification/Setup.v ===== *)
(** [setup/utils.py], [setup/utils_setup.py] and [common/dbconf.py]: the
    phases that set the utilities up, over the configuration store and the
    message bus, and the command that runs one of them.

    The machine (directories, services, packages, the test runner, the log
    files) is the class [System]; [argparse] is not modelled: a command line is
    the command it parses to. *)
From Stdlib Require Import Ascii.
From S2P Require Import Prelude PyStr PyVal KvPayload KvPayloadFacts KvPayloadKeys KvPayloadSpec KvStore KvFiles.
From S2P Require Import KvDir ConfStore ConfStoreSpec HaDecision Release MessageBus Validator.
Import PyStr PyVal.

Module Setup.

(** ** Constants *)

Definition GCONF_INDEX : string := "config".
Definition CLUSTER_CONF_LOG_KEY : string := "cortx>common>storage>log".
Definition MSG_BUS_BACKEND_KEY : string := "cortx>utils>message_bus_backend".
Definition EXTERNAL_KEY : string := "cortx>external".
Definition DELTA_INDEX : string := "gconf_change_set".
Definition CHANGED_PREFIX : string := "changed>".
Definition NEW_PREFIX : string := "new>".
Definition DELETED_PREFIX : string := "deleted>".
Definition EPERM : Z := 1.
Definition ERR_OP_FAILED : Z := 0x1100.

Class System (E : Type) := {
  sys_makedirs : string → ST E unit;
  sys_restart_service : string → ST E unit;
  sys_validate_rpms : list string → ST E unit;
  sys_run_tests : string → string → ST E Z;               (* the return code of [run_test] *)
  sys_log_init : string → string → value → ST E unit
}.

(** [[f(x) for x in l]] with effects *)
Fixpoint st_map {S A B} (f : A → ST S B) (l : list A) : ST S (list B) :=
  match l with
  | [] => st_ret []
  | a :: l' => let! b := f a in let! bs := st_map f l' in st_ret (b :: bs)
  end.

(** [s.split(p)[1]] *)
Definition split_part1 (p s : string) : res string :=
  match after p s with Some r => Ok (before p r) | None => Err IndexError end.
(** [v.split('|')[1]] *)
Definition new_part (v : value) : res string :=
  match v with
  | VStr s => match split "|" s with _ :: x :: _ => Ok x | _ => Err IndexError end
  | _ => Err AttributeError
  end.

Definition quote : string := String (ascii_of_N 34) EmptyString.

(** *** [urllib.parse]: the host and the port of a network location *)

(** [s.rpartition(d)[2]] *)
Fixpoint rsplit1 (d : ascii) (s : string) : string :=
  match s with
  | EmptyString => EmptyString
  | String _ s' => if no_char d s then s else rsplit1 d s'
  end.
Definition hostinfo (netloc : string) : string * option string :=
  let info := rsplit1 "@" netloc in
  let '(host, port) := match split1 "[" info with
                       | (_, Some bracketed) =>
                           let '(h, p) := split1 "]" bracketed in (h, (split1 ":" (default "" p)).2)
                       | _ => split1 ":" info
                       end in
  (host, match port with Some EmptyString | None => None | p => p end).
Definition hostname (netloc : string) : value :=
  let host := (hostinfo netloc).1 in
  if decide (host = "") then VNull
  else match split1 "%" host with
       | (h, Some zone) => VStr (lower h +:+ "%" +:+ zone)
       | (h, None) => VStr (lower h)
       end.
Definition port (netloc : string) : res value :=
  match (hostinfo netloc).2 with
  | None => Ok VNull
  | Some p =>
      if sforall is_digit p then
        let n := Z.of_nat (int_of_digits p) in if (n <=? 65535)%Z then Ok (VInt n) else Err ValueError
      else Err ValueError
  end.

Section setup.
Context {K C : Type} `{Bus.KafkaApi K C} {F : Files.Format}.
Context {W : Type} (machine_id_file : W → option string) (urlparse : string → string * string * string).
Context (classes : list (string * (string → string → string → ST W (Store.backend W)))).
Context {E : Type} {SY : System E} (repr : value → string).
(** Whether the error the service just answered with names [TOPIC_ALREADY_EXISTS] *)
Context (topic_already_exists : K → bool).

Notation singleton := (Conf.singleton (W:=W)).

Definition conf_load (index url : string) (kwargs : list (string * value)) : ST singleton unit :=
  Conf.conf_class_load machine_id_file urlparse classes index url (VBool true) kwargs.
Definition conf_get (index key : string) : ST singleton value := Conf.conf_call (Conf.get index key).
Definition conf_set (index key : string) (val : value) : ST singleton unit := Conf.conf_call (Conf.set index key val).
Definition conf_get_keys (index starts_with : string) : ST singleton (list (option string)) :=
  Conf.conf_call (Conf.get_keys index starts_with true true).

(** ** [DbConf] *)

Record dbconf := DbConf { _consul_host : value; _consul_port : value }.

Definition on_store {A} (m : ST singleton A) : ST (dbconf * singleton) A := λ '(d, g),
  let '(r, g') := m g in (r, (d, g')).

(** The loop over the endpoints ends at the first whose scheme is http. *)
Fixpoint netloc_loop (indices : list nat) : ST (dbconf * singleton) unit :=
  match indices with
  | [] => st_ret tt
  | i :: indices' =>
      let! endpoint := on_store (conf_get "dbconf-cluster" ("cortx>external>consul>endpoints[" +:+ dec i +:+ "]")) in
      let! url := st_lift (match endpoint with VStr s => Ok s | VNull => Ok "" | _ => Err AttributeError end) in
      let '(scheme, netloc, _) := urlparse url in
      if decide (scheme = "http") then
        (λ '(d, g), (Ok tt, (DbConf (hostname netloc) (_consul_port d), g))) ;;;
        λ '(d, g), match port netloc with
                   | Ok p => (Ok tt, (DbConf (_consul_host d) p, g))
                   | Err e => (Err e, (d, g))
                   end
      else netloc_loop indices'
  end.

Definition _get_consul_netloc : ST (dbconf * singleton) unit :=
  let! num := on_store (conf_get "dbconf-cluster" "cortx>external>consul>num_endpoints") in
  let! n := st_lift (Release.py_int num) in
  netloc_loop (seq 0 (Z.to_nat n)).

Definition dbconf_init (cluster_conf : string) : ST (dbconf * singleton) unit :=
  on_store (conf_load "dbconf-cluster" cluster_conf [("skip_reload", VBool true)]) ;;;
  _get_consul_netloc ;;;
  λ '(d, g), if is_null (_consul_host d) || is_null (_consul_port d) then (Err (ConfError ENOENT), (d, g))
             else on_store (conf_load "dbconf" ("consul://" +:+ Files.py_str repr (_consul_host d) +:+ ":" +:+
                                                Files.py_str repr (_consul_port d) +:+ "/utils_db_conf")
                             [("skip_reload", VBool true)]) (d, g).

Definition import_database_conf (db_conf : string) : ST (dbconf * singleton) unit :=
  let! consul_login := on_store (conf_get "dbconf-cluster" "cortx>external>consul>admin") in
  let! consul_secret := on_store (conf_get "dbconf-cluster" "cortx>external>consul>secret") in
  on_store (conf_load "dbconfsrc" db_conf []) ;;;
  on_store (Conf.conf_call (Conf.copy "dbconfsrc" "dbconf" None true)) ;;;
  (λ '(d, g), on_store (conf_set "dbconf" "databases>consul_db>config>hosts[0]" (_consul_host d)) (d, g)) ;;;
  (λ '(d, g), on_store (conf_set "dbconf" "databases>consul_db>config>port" (_consul_port d)) (d, g)) ;;;
  on_store (conf_set "dbconf" "databases>consul_db>config>login" consul_login) ;;;
  on_store (conf_set "dbconf" "databases>consul_db>config>password" consul_secret) ;;;
  on_store (Conf.conf_call (Conf.save "dbconf")).

(** [d[k] = f(d[k])] *)
Definition on_item (k : string) (f : value → res value) (d : value) : res value :=
  match d with
  | VDict items => match dget k items with
                   | Some x => y ← f x; Ok (VDict (dset k y items))
                   | None => Err KeyError
                   end
  | _ => Err TypeError
  end.
Definition int_port : value → res value :=
  on_item "consul_db" (on_item "config" (on_item "port" (λ p, n ← Release.py_int p; Ok (VInt n)))).

(** The dictionary [databases] is the one of the cache, whose port changes
    with it. *)
Definition export_database_conf : ST singleton value :=
  conf_load "exportdbconf" ("dict:{" +:+ quote +:+ "k" +:+ quote +:+ ":" +:+ quote +:+ "v" +:+ quote +:+ "}")
    [("fail_reload", VBool false)] ;;;
  Conf.conf_call (Conf.copy "dbconf" "exportdbconf" None true) ;;;
  let! databases := conf_get "exportdbconf" "databases" in
  let! models := conf_get "exportdbconf" "models" in
  let! databases := st_lift (int_port databases) in
  Conf.conf_call (Conf.with_index KeyError "exportdbconf" (λ c s,
    let p := Conf.cc_data c in
    let data := match Payload.kp_data p with VDict items => VDict (dset "databases" databases items) | d => d end in
    (Ok tt, Conf.set_cache <["exportdbconf" :=
       Conf.cc_update c (Conf.cc_dirty c) (Payload.Payload data (Payload.kp_delim p) (Payload.kp_keys p))]> s))) ;;;
  st_ret (VDict [("databases", databases); ("models", models)]).

(** ** [Utils] *)

(** The configuration store, [DbConf], the message bus, its service, and the
    machine *)
Record host := Host { h_conf : singleton; h_db : dbconf; h_bus : Bus.bus C; h_kafka : K; h_sys : E }.

Definition on_conf {A} (m : ST singleton A) : ST host A := λ h,
  let '(r, g) := m (h_conf h) in (r, Host g (h_db h) (h_bus h) (h_kafka h) (h_sys h)).
Definition on_db {A} (m : ST (dbconf * singleton) A) : ST host A := λ h,
  let '(r, (d, g)) := m (h_db h, h_conf h) in (r, Host g d (h_bus h) (h_kafka h) (h_sys h)).
Definition on_bus {A} (m : ST (Bus.bus C * K) A) : ST host A := λ h,
  let '(r, (b, k)) := m (h_bus h, h_kafka h) in (r, Host (h_conf h) (h_db h) b k (h_sys h)).
Definition on_sys {A} (m : ST E A) : ST host A := λ h,
  let '(r, e) := m (h_sys h) in (r, Host (h_conf h) (h_db h) (h_bus h) (h_kafka h) e).

Definition utils_path : string := "/opt/seagate/cortx/utils".

(** [x.split('>')[1]] of the keys that end in [>hostname] *)
Definition machine_ids (node_keys : list (option string)) : res (list string) :=
  names ← res_map (λ k, match k with Some x => Ok x | None => Err AttributeError end) node_keys;
  res_map (λ x, match split ">" x with _ :: id :: _ => Ok id | _ => Err IndexError end)
    (filter (λ x, endswith x ">hostname" = true) names).

Definition map_node (mc_id : string) : ST singleton unit :=
  let! name := conf_get "cluster" ("node>" +:+ mc_id +:+ ">name") in
  let! key := st_lift (match name with VStr n => Ok ("cluster>" +:+ n) | _ => Err TypeError end) in
  let! hostname := conf_get "cluster" ("node>" +:+ mc_id +:+ ">hostname") in
  conf_set "cluster" key hostname.

Definition _copy_cluster_map (config_path : string) : ST singleton unit :=
  conf_load "cluster" config_path [("skip_reload", VBool true)] ;;;
  let! node_keys := conf_get_keys "cluster" "node" in
  let! ids := st_lift (machine_ids node_keys) in
  st_iter map_node ids.

Definition _configure_rsyslog : ST host unit :=
  st_except (λ _, true) (on_sys (sys_restart_service "rsyslog.service")) (λ _, st_ret tt).

Definition _copy_database_conf (config_path : string) : ST (dbconf * singleton) unit :=
  dbconf_init config_path ;;; import_database_conf ("yaml://" +:+ utils_path +:+ "/conf/database.yaml").

Definition post_install (config_path : string) : ST host Z :=
  on_sys (sys_makedirs "/var/log/cortx/support_bundle") ;;;
  on_conf (conf_load "post_install_index" config_path []) ;;;
  let! machine_id := on_conf (Conf.conf_class_machine_id machine_id_file) in
  let id := Files.py_str repr machine_id in
  on_conf (Validator.validate_confkeys "exists" "post_install_index"
             ["node>" +:+ id +:+ ">hostname"; "node>" +:+ id +:+ ">name"]) ;;;
  on_conf (_copy_cluster_map config_path) ;;;
  on_db (_copy_database_conf config_path) ;;;
  st_ret 0%Z.

Definition config (config_path : string) : ST host Z :=
  on_conf (conf_load GCONF_INDEX config_path [("skip_reload", VBool true)]) ;;;
  on_conf (_copy_cluster_map config_path) ;;;
  _configure_rsyslog ;;;
  st_ret 0%Z.

(** *** The message bus *)

Definition bus_endpoints : ST singleton (list value) :=
  let! backend := conf_get GCONF_INDEX MSG_BUS_BACKEND_KEY in
  let external := EXTERNAL_KEY +:+ ">" +:+ Files.py_str repr backend in
  let! num := conf_get GCONF_INDEX (external +:+ ">num_endpoints") in
  let! n := st_lift (Release.py_int num) in
  st_map (λ i, conf_get GCONF_INDEX (external +:+ ">endpoints[" +:+ dec i +:+ "]")) (seq 0 (Z.to_nat n)).

(** [MessageBus.init(endpoints)]: an endpoint that is no text is refused with
    the invalid ones. *)
Definition bus_init (endpoints : list value) : ST host unit := λ h,
  match res_map Ha.as_str endpoints with
  | Ok l =>
      let '(r, (g, b)) := Bus.init machine_id_file urlparse classes l [] (h_conf h, h_bus h) in
      (r, Host g (h_db h) b (h_kafka h) (h_sys h))
  | Err _ =>
      (on_conf (conf_load "utils_ind" "dict:{}" [("skip_reload", VBool true)]) ;;; st_raise (BusError EINVAL)) h
  end.

(** What [init], [reset] and [cleanup] begin with *)
Definition connect_bus (config_path : string) : ST host unit :=
  on_conf (conf_load GCONF_INDEX config_path [("skip_reload", VBool true)]) ;;;
  let! endpoints := on_conf bus_endpoints in
  bus_init endpoints.

Definition bus_error (e : exn) : bool := match e with BusError _ => true | _ => false end.
Definition rc_of (e : exn) : Z := match e with BusError rc => rc | _ => 0%Z end.

Definition new_admin (id : string) : ST host (list (string * value)) :=
  on_bus (Bus.new_client "admin" (Bus.admin_conf id)).

Definition init (config_path : string) : ST host Z :=
  st_except bus_error
    (connect_bus config_path ;;;
     let! admin := new_admin "register" in
     on_bus (Bus.client_register_message_type admin ["IEM"; "audit_messages"] 1))
    (λ e h, if topic_already_exists (h_kafka h) then (Ok tt, h) else (Err (SetupError (rc_of e)), h)) ;;;
  st_ret 0%Z.

(** [except MessageBusError], then [except Exception], around the work of a phase *)
Definition setup_errors {A} (m : ST host A) : ST host A :=
  st_except (λ _, true) m
    (λ e, st_raise (SetupError (if bus_error e then rc_of e else ERR_OP_FAILED))).

Definition purge (message_type : string) : ST host unit :=
  let! producer := on_bus (Bus.new_client "producer" (Bus.producer_conf message_type message_type (VStr "sync"))) in
  on_bus (Bus.client_delete producer) ;;; st_ret tt.

Definition reset (config_path : string) : ST host Z :=
  setup_errors
    (connect_bus config_path ;;;
     let! mb := new_admin "reset" in
     let! message_types_list := on_bus (Bus.client_list_message_types mb) in
     st_iter purge message_types_list) ;;;
  st_ret 0%Z.

Definition cleanup (pre_factory : bool) (config_path : string) : ST host Z :=
  setup_errors
    (connect_bus config_path ;;;
     let! mb := new_admin "cleanup" in
     let! message_types_list := on_bus (Bus.client_list_message_types mb) in
     match message_types_list with
     | [] => st_ret tt
     | _ => on_bus (Bus.client_deregister_message_type mb message_types_list)
     end) ;;;
  st_ret 0%Z.

(** [raise TestFailed] is a plain exception here. *)
Definition test (config_path plan : string) : ST host Z :=
  st_except (λ e, match e with VError _ => true | _ => false end)
    (on_sys (sys_validate_rpms ["cortx-py-utils-test"]) ;;;
     let! rc := on_sys (sys_run_tests config_path plan) in
     if decide (rc = 0)%Z then st_ret tt else st_raise PlainException)
    (λ _, st_raise (SetupError EINVAL)) ;;;
  st_ret 0%Z.

(** *** [upgrade] *)

(** [p in key], for a key of the change set *)
Definition key_has (p : string) (key : option string) : res bool :=
  match key with Some k => Ok (contains k p) | None => Err TypeError end.

Definition apply_new (key : option string) : ST singleton unit :=
  let k := default "" key in
  let! new_key := st_lift (split_part1 NEW_PREFIX k) in
  let! v := conf_get DELTA_INDEX k in
  let! new_val := st_lift (new_part v) in
  conf_set GCONF_INDEX new_key (VStr new_val).
Definition apply_deleted (key : option string) : ST singleton unit :=
  let! delete_key := st_lift (split_part1 DELETED_PREFIX (default "" key)) in
  Conf.conf_call (Conf.delete GCONF_INDEX delete_key false) ;;; st_ret tt.
Definition apply_changed (key : option string) : ST singleton unit :=
  let k := default "" key in
  let! v := conf_get DELTA_INDEX k in
  let! new_val := st_lift (new_part v) in
  let! change_key := st_lift (split_part1 CHANGED_PREFIX k) in
  conf_set GCONF_INDEX change_key (VStr new_val).

(** [if p in key: m(key)] *)
Definition when_key (p : string) (m : option string → ST singleton unit) (key : option string) : ST singleton unit :=
  let! b := st_lift (key_has p key) in if b : bool then m key else st_ret tt.

Definition apply_delta (delta_keys : list (option string)) : ST singleton unit :=
  if decide (Some (CHANGED_PREFIX +:+ MSG_BUS_BACKEND_KEY) ∈ delta_keys) then
    let! v := conf_get DELTA_INDEX (CHANGED_PREFIX +:+ MSG_BUS_BACKEND_KEY) in
    let! new_msg_bus_backend := st_lift (new_part v) in
    conf_set GCONF_INDEX MSG_BUS_BACKEND_KEY (VStr new_msg_bus_backend) ;;;
    st_iter (λ key,
      when_key (NEW_PREFIX +:+ EXTERNAL_KEY +:+ new_msg_bus_backend) apply_new key ;;;
      when_key (DELETED_PREFIX +:+ EXTERNAL_KEY +:+ new_msg_bus_backend) apply_deleted key) delta_keys
  else
    let! msg_bus_backend := conf_get GCONF_INDEX MSG_BUS_BACKEND_KEY in
    st_iter (λ key,
      let! p := st_lift (match msg_bus_backend with
                         | VStr b => Ok (CHANGED_PREFIX +:+ EXTERNAL_KEY +:+ b)
                         | _ => Err TypeError
                         end) in
      when_key p apply_changed key) delta_keys.

Definition upgrade (config_path change_set_path : string) : ST host Z :=
  on_conf (conf_load DELTA_INDEX change_set_path [] ;;;
           conf_load GCONF_INDEX config_path [("skip_reload", VBool true)] ;;;
           let! delta_keys := conf_get_keys DELTA_INDEX "" in
           apply_delta delta_keys ;;;
           Conf.conf_call (Conf.save GCONF_INDEX)) ;;;
  init config_path ;;;
  st_ret 0%Z.

Definition pre_upgrade (level : string) : ST host Z := st_ret 0%Z.
Definition post_upgrade (level : string) : ST host Z := st_ret 0%Z.
Definition validate (phase : string) : ST host unit := st_ret tt.

(** ** [utils_setup] *)

(** The commands, with the arguments they read *)
Inductive command :=
| PostInstallCmd (url : string)
| PrepareCmd
| ConfigCmd (url : string)
| InitCmd (config_path : string)
| TestCmd (config_path test_plan : string)
| ResetCmd (config_path : string)
| CleanupCmd (pre_factory : bool) (config_path : string)
| UpgradeCmd (config_path change_set : string)
| PreUpgradeCmd (args : list string)
| PostUpgradeCmd (args : list string).

Definition first_arg (args : list string) : res string :=
  match args with a :: _ => Ok a | [] => Err IndexError end.

Definition process (c : command) : ST host Z :=
  match c with
  | PostInstallCmd url => validate "post_install" ;;; post_install url
  | PrepareCmd => st_ret 0%Z
  | ConfigCmd url => validate "config" ;;; config url
  | InitCmd config_path => validate "init" ;;; init config_path
  | TestCmd config_path test_plan => validate "test" ;;; test config_path test_plan
  | ResetCmd config_path => validate "reset" ;;; reset config_path
  | CleanupCmd pre_factory config_path => validate "cleanup" ;;; cleanup pre_factory config_path
  | UpgradeCmd config_path change_set => validate "upgrade" ;;; upgrade config_path change_set
  | PreUpgradeCmd args => validate "pre_upgrade" ;;; let! level := st_lift (first_arg args) in pre_upgrade level
  | PostUpgradeCmd args => validate "post_upgrade" ;;; let! level := st_lift (first_arg args) in post_upgrade level
  end.

(** [Cmd.__init__] *)
Definition new_command (euid : Z) (c : command) : ST host command :=
  if decide (euid = 0)%Z then st_ret c else st_raise (SetupError EPERM).

(** The local variables [command], when it is bound, and [rc] after the [try] *)
Definition run (euid : Z) (c : command) : ST host (option command * Z) := λ h,
  match new_command euid c h with
  | (Err e, h') => (Ok (None, match e with SetupError rc => rc | _ => EINVAL end), h')
  | (Ok cmd, h') =>
      match process cmd h' with
      | (Ok rc, h2) => (Ok (Some cmd, rc), h2)
      | (Err e, h2) => (Ok (Some cmd, match e with SetupError rc => rc | _ => EINVAL end), h2)
      end
  end.

(** The log of the command, before its [try] *)
Definition start_log (argv : list string) : ST host unit :=
  let! tmpl_file := st_lift (match argv !! 3 with Some t => Ok t | None => Err IndexError end) in
  on_conf (conf_load GCONF_INDEX tmpl_file []) ;;;
  let! log_dir := on_conf (conf_get GCONF_INDEX CLUSTER_CONF_LOG_KEY) in
  let! machine_id := on_conf (Conf.conf_class_machine_id machine_id_file) in
  let! utils_log_path := st_lift (match log_dir with
                                  | VStr d => Ok (Dir.path_join d ("utils/" +:+ Files.py_str repr machine_id))
                                  | _ => Err TypeError
                                  end) in
  let! log_level := on_conf (Conf.conf_call (Conf.get_val GCONF_INDEX (Some "utils>log_level") (VStr "INFO") true)) in
  on_sys (sys_log_init "utils_setup" utils_log_path log_level).

(** [main] has no [return]; the last message of the log reads [command]. *)
Definition main (euid : Z) (argv : list string) (c : command) : ST host unit :=
  start_log argv ;;;
  let! result := run euid c in
  match result.1 with
  | Some _ => st_ret tt
  | None => st_raise UnboundLocalError
  end.

(** [sys.exit(main())]: [None] is success; an exception that escapes is 1. *)
Definition exit_status {S} (r : res unit * S) : Z := match r.1 with Ok _ => 0 | Err _ => 1 end.

End setup.
End Setup.

(** * Theorems

    What the phases of the setup do: the map from names of nodes to their
    hosts, what an upgrade changes in the configuration, and what the command
    tells its caller. *)
Import PyStr PayloadFacts PayloadKeys PayloadSpec Conf ConfSpec Setup.

Module SetupSpec.

Section spec.
Context {K C : Type} `{Bus.KafkaApi K C} {F : Files.Format}.
Context {W : Type} (machine_id_file : W → option string) (urlparse : string → string * string * string).
Context (classes : list (string * (string → string → string → ST W (Store.backend W)))).
Context {E : Type} {SY : System E} (repr : value → string) (topic_already_exists : K → bool).
Notation singleton := (Conf.singleton (W:=W)).
Implicit Types (g : singleton) (c : cache (W:=W)).

(** ** Operations on a loaded index *)

Definition with_conf (g : singleton) (s : conf) : singleton := Singleton (Some s) (g_delim g) (g_machine_id g) (g_env g).
Definition holds (index : string) (g : singleton) (s : conf) (c : cache) : Prop :=
  g_conf g = Some s ∧ cs_cache s !! index = Some c.

Lemma with_conf_same g s : g_conf g = Some s → with_conf g s = g.
Proof. intros Hg. destruct g. cbn in Hg. by subst. Qed.

(** Loading a loaded index again is skipped. *)
Lemma load_skipped index url g s c :
  holds index g s c → conf_load machine_id_file urlparse classes index url [("skip_reload", VBool true)] g = (Ok tt, g).
Proof.
  intros [Hg Hc]. unfold conf_load, conf_class_load.
  rewrite (st_bind_run _ _ g tt g) by (unfold conf_class_init; by rewrite Hg). unfold conf_call. rewrite Hg. unfold load.
  rewrite (st_bind_run _ _ s (LoadArgs (VBool true) (VBool true) (VBool true)) s) by done. rewrite Hc. cbn.
  f_equal. by apply with_conf_same.
Qed.

Lemma conf_get_run index key g s c v :
  holds index g s c → doc ">" (cc_data c) → canonical ">" key → denotes (cc_data c) key = Some (VStr v) →
  conf_get index key g = (Ok (VStr v), g).
Proof.
  intros [Hg Hc] Hd Hk Hv. transitivity (Ok (VStr v), with_conf g s); [|by rewrite with_conf_same].
  unfold conf_get, conf_call. rewrite Hg. unfold get, get_val.
  rewrite (with_index_ok _ _ _ _ c) by done. unfold st_bind, st_lift, cache_get.
  rewrite (get_denotes_full _ key (VStr v)); [done|by destruct Hd| |done].
  unfold key_ok. destruct Hd as [_ Hdel Hg' _]. rewrite (with_delim_sep _ ">"%char) by done. by apply canonical_accepted.
Qed.

Lemma conf_set_run index key g s c v :
  holds index g s c → doc ">" (cc_data c) → clean ">" (cc_data c) → canonical ">" key →
  ∃ p s', conf_set index key (VStr v) g = (Ok tt, with_conf g s') ∧
    holds index (with_conf g s') s' (cc_update c true p) ∧ cs_world s' = cs_world s ∧
    doc ">" p ∧ clean ">" p ∧ denotes p key = Some (VStr v) ∧
    ∀ q, diverge (split ">" key) (split ">" q) = true → denotes p q = denotes (cc_data c) q.
Proof.
  intros [Hg Hc] Hd Hcl Hk. destruct (doc_set _ _ _ v Hd Hk) as (p & Hset & Hp & Hv & Hq & _).
  pose proof (clean_doc_set _ _ _ v Hd Hcl Hk) as Hclp. rewrite Hset in Hclp.
  exists p, (set_cache <[index := cc_update c true p]> s). unfold conf_set, conf_call. rewrite Hg.
  unfold set, on_cache. rewrite (with_index_ok _ _ _ _ c) by done. unfold cache_set, cache_mutate. rewrite Hset.
  split_and!; try done. split; [done|]. cbn. by rewrite lookup_insert_eq.
Qed.

(** ** The names of the nodes and their hosts *)

Definition node_key (id field : string) : string := "node>" +:+ id +:+ ">" +:+ field.
Definition cluster_key (name : string) : string := "cluster>" +:+ name.

Lemma node_key_of id field : node_key id field = key_of ">" [CName "node"; CName id; CName field].
Proof. reflexivity. Qed.
Lemma cluster_key_of name : cluster_key name = key_of ">" [CName "cluster"; CName name].
Proof. reflexivity. Qed.

Lemma node_comps id field :
  clean_name ">" id = true → clean_name ">" field = true → clean_comps ">" [CName "node"; CName id; CName field].
Proof. intros Hi Hf. split; [done|]. by repeat constructor. Qed.
Lemma cluster_comps name : clean_name ">" name = true → clean_comps ">" [CName "cluster"; CName name].
Proof. intros Hn. split; [done|]. by repeat constructor. Qed.

Lemma cluster_node_diverge name id field :
  clean_name ">" name = true → clean_name ">" id = true → clean_name ">" field = true →
  diverge (split ">" (cluster_key name)) (split ">" (node_key id field)) = true.
Proof.
  intros Hn Hi Hf. rewrite cluster_key_of, node_key_of, !split_key_of by (done || by apply node_comps || by apply cluster_comps).
  reflexivity.
Qed.

Lemma cluster_diverge n n' :
  clean_name ">" n = true → clean_name ">" n' = true → n ≠ n' →
  diverge (split ">" (cluster_key n)) (split ">" (cluster_key n')) = true.
Proof.
  intros Hn Hn' Hne. rewrite !cluster_key_of, !split_key_of by (done || by apply cluster_comps).
  pose proof (comp_key_index ">" (CName n) Hn) as Hk. pose proof (comp_key_index ">" (CName n') Hn') as Hk'.
  cbn [comp_str] in Hk, Hk'. cbn [fmap list_fmap comp_str diverge].
  change (Payload.key_index "cluster") with ("cluster", @None (nat * string)). rewrite Hk, Hk'. cbn. by rewrite (decide_False (P := n = n')) by done.
Qed.

(** The machines of a document: for each, its name and its host. *)
Record described (p : payload) (names hosts : string → string) (id : string) : Prop := Described {
  de_id : clean_name ">" id = true;
  de_clean : clean_name ">" (names id) = true;
  de_name : denotes p (node_key id "name") = Some (VStr (names id));
  de_host : denotes p (node_key id "hostname") = Some (VStr (hosts id))
}.

Lemma map_node_run names hosts id g s c :
  holds "cluster" g s c → doc ">" (cc_data c) → clean ">" (cc_data c) → described (cc_data c) names hosts id →
  ∃ p s', map_node id g = (Ok tt, with_conf g s') ∧
    holds "cluster" (with_conf g s') s' (cc_update c true p) ∧ cs_world s' = cs_world s ∧
    doc ">" p ∧ clean ">" p ∧ denotes p (cluster_key (names id)) = Some (VStr (hosts id)) ∧
    ∀ q, diverge (split ">" (cluster_key (names id))) (split ">" q) = true → denotes p q = denotes (cc_data c) q.
Proof.
  intros Hc Hd Hcl [Hi Hn Hname Hhost].
  assert (∀ field, clean_name ">" field = true → canonical ">" (node_key id field)) as Hcan.
  { intros field Hf. exists [CName "node"; CName id; CName field]. split; [by apply node_comps|apply node_key_of]. }
  destruct (conf_set_run "cluster" (cluster_key (names id)) g s c (hosts id)) as (p & s' & Hset & Hrest); try done.
  { exists [CName "cluster"; CName (names id)]. split; [by apply cluster_comps|apply cluster_key_of]. }
  exists p, s'. split; [|done]. unfold map_node.
  rewrite (st_bind_run _ _ g (VStr (names id)) g) by by apply (conf_get_run "cluster" (node_key id "name") g s c); [..|apply Hcan|].
  unfold st_bind at 1, st_lift.
  rewrite (st_bind_run _ _ g (VStr (hosts id)) g) by by apply (conf_get_run "cluster" (node_key id "hostname") g s c); [..|apply Hcan|].
  exact Hset.
Qed.

Lemma map_nodes_run names hosts ids g s c :
  holds "cluster" g s c → doc ">" (cc_data c) → clean ">" (cc_data c) →
  (∀ id, id ∈ ids → described (cc_data c) names hosts id) →
  (∀ id id', id ∈ ids → id' ∈ ids → names id = names id' → hosts id = hosts id') →
  ∃ c' s', st_iter map_node ids g = (Ok tt, with_conf g s') ∧
    holds "cluster" (with_conf g s') s' c' ∧ cs_world s' = cs_world s ∧ doc ">" (cc_data c') ∧
    (∀ id, id ∈ ids → denotes (cc_data c') (cluster_key (names id)) = Some (VStr (hosts id))) ∧
    ∀ q, (∀ id, id ∈ ids → diverge (split ">" (cluster_key (names id))) (split ">" q) = true) →
         denotes (cc_data c') q = denotes (cc_data c) q.
Proof.
  revert g s c. induction ids as [|id ids IH]; intros g s c Hc Hd Hcl Hde Huniq.
  { exists c, s. rewrite with_conf_same by apply Hc. split_and!; try done; set_solver. }
  destruct (map_node_run names hosts id g s c Hc Hd Hcl (Hde id ltac:(left)))
    as (p & s1 & H1 & Hc1 & Hw1 & Hd1 & Hcl1 & Hv1 & Hq1).
  assert (∀ id', id' ∈ ids → described p names hosts id') as Hde1.
  { intros id' Hin. destruct (Hde id') as [Hi Hn Hname Hhost]; [by right|]. pose proof (de_clean _ _ _ _ (Hde id ltac:(left))).
    split; [done|done|..]; (rewrite Hq1; [done|by apply cluster_node_diverge]). }
  destruct (IH (with_conf g s1) s1 (cc_update c true p) Hc1 Hd1 Hcl1 Hde1) as (c' & s' & H' & Hc' & Hw' & Hd' & Hin' & Hq').
  { intros. apply Huniq; [by right|by right|done]. }
  exists c', s'. cbn [st_iter]. rewrite (st_bind_run _ _ g tt (with_conf g s1)) by done. split_and!; try done.
  - by rewrite Hw'.
  - intros id' [->|Hin]%elem_of_cons; [|by apply Hin'].
    destruct (decide (names id ∈ names <$> ids)) as [(id' & He & Hi')%list_elem_of_fmap|Hni].
    + rewrite He, Hin' by done. f_equal. f_equal. symmetry. apply Huniq; [left|by right|done].
    + rewrite Hq'; [done|]. intros id' Hi'. apply cluster_diverge; [eapply de_clean, Hde; by right|eapply de_clean, Hde; left|].
      intros He. apply Hni. rewrite <- He. by apply list_elem_of_fmap_2.
  - intros q Hq. rewrite Hq' by (intros; apply Hq; by right). apply Hq1, Hq. left.
Qed.

(** Copying the map of a loaded cluster configuration gives every machine
    with a host name an entry: afterwards the index holds, under
    [cluster>name], the host of each, and every key that parts from these is as
    it was. The map is kept in memory: nothing is written to the backend. *)
Theorem copy_cluster_map_exact names hosts ids path g s c :
  holds "cluster" g s c → doc ">" (cc_data c) → clean ">" (cc_data c) →
  machine_ids (Some <$> Payload.get_keys_rec (cc_data c) "node" true) = Ok ids →
  (∀ id, id ∈ ids → described (cc_data c) names hosts id) →
  (∀ id id', id ∈ ids → id' ∈ ids → names id = names id' → hosts id = hosts id') →
  ∃ c' s', _copy_cluster_map machine_id_file urlparse classes path g = (Ok tt, with_conf g s') ∧
    cs_cache s' !! "cluster" = Some c' ∧ cs_world s' = cs_world s ∧
    (∀ id, id ∈ ids →
       conf_get "cluster" (cluster_key (names id)) (with_conf g s') = (Ok (VStr (hosts id)), with_conf g s')) ∧
    ∀ q, (∀ id, id ∈ ids → diverge (split ">" (cluster_key (names id))) (split ">" q) = true) →
         denotes (cc_data c') q = denotes (cc_data c) q.
Proof.
  intros Hc Hd Hcl Hids Hde Huniq. pose proof Hc as [Hg Hi].
  destruct (map_nodes_run names hosts ids g s c Hc Hd Hcl Hde Huniq) as (c' & s' & Hrun & Hc' & Hw & Hd' & Hin & Hq).
  exists c', s'. split_and!; [|apply Hc'|done| |done].
  - unfold _copy_cluster_map. rewrite (st_bind_run _ _ g tt g).
    + rewrite (st_bind_run _ _ g (Some <$> Payload.get_keys_rec (cc_data c) "node" true) g).
      * rewrite (st_bind_run _ _ g ids g) by (unfold st_lift; by rewrite Hids). done.
      * unfold conf_get_keys, conf_call. rewrite Hg. unfold get_keys. rewrite (with_index_ok _ _ _ _ c) by done.
        unfold st_lift. cbn. f_equal. by apply with_conf_same.
    + by apply (load_skipped "cluster" path g s c).
  - intros id Hid. apply (conf_get_run _ _ _ s' c'); [done|done| |by apply Hin].
    exists [CName "cluster"; CName (names id)]. split; [eapply cluster_comps, de_clean, (Hde id Hid)|apply cluster_key_of].
Qed.

(** ** Upgrades *)

Lemma contains_spec s p : contains s p = true → ∃ a t, s = a +:+ p +:+ t.
Proof.
  induction s as [|x s IH].
  - destruct p; [|done]. intros _. by exists "", "".
  - intros [Hp|Hp]%orb_prop.
    + apply startswith_spec in Hp as [t Ht]. by exists "", t.
    + destruct (IH Hp) as (a & t & ->). by exists (String x a), t.
Qed.

(** A key where the name of an external service is a component of its own, as
    in [cortx>external>kafka>endpoints], and the name of a service *)
Definition ends_name (t : string) : bool := match t with String c _ => Ascii.eqb c ">" | EmptyString => true end.
Fixpoint dotted (k : string) : bool :=
  implb (startswith k EXTERNAL_KEY) (ends_name (sdrop (String.length EXTERNAL_KEY) k)) &&
  match k with String _ k' => dotted k' | EmptyString => true end.
Definition service_name (b : string) : Prop := ∃ x r, b = String x r ∧ x ≠ ">"%char.

Lemma dotted_after a t : dotted (a +:+ EXTERNAL_KEY +:+ t) = true → ends_name t = true.
Proof.
  induction a as [|x a IH]; intros [Hs Hd]%andb_prop; [|by apply IH].
  change (implb (startswith (EXTERNAL_KEY +:+ t) EXTERNAL_KEY)
            (ends_name (sdrop (String.length EXTERNAL_KEY) (EXTERNAL_KEY +:+ t))) = true) in Hs.
  by rewrite startswith_app, sdrop_app in Hs.
Qed.

Lemma dotted_absent p k b : dotted k = true → service_name b → contains k (p +:+ EXTERNAL_KEY +:+ b) = false.
Proof.
  intros Hk (x & r & -> & Hx). apply not_true_iff_false. intros (a & t & ->)%contains_spec.
  rewrite !sapp_assoc, <- (sapp_assoc a) in Hk. apply dotted_after in Hk. by apply Ascii.eqb_eq in Hk.
Qed.

Lemma bind_ext {S A B} (m : ST S A) (f f' : A → ST S B) s :
  (∀ a s', m s = (Ok a, s') → f a s' = f' a s') → st_bind m f s = st_bind m f' s.
Proof. unfold st_bind. destruct (m s) as [[a|e] s']; auto. Qed.
Lemma bind_nothing {S} (m n : ST S unit) s : (∀ s', n s' = (Ok tt, s')) → (m ;;; n) s = m s.
Proof. intros Hn. unfold st_bind. by destruct (m s) as [[[]|e] s']. Qed.
Lemma iter_nothing {S A} (f : A → ST S unit) l s : Forall (λ a, f a s = (Ok tt, s)) l → st_iter f l s = (Ok tt, s).
Proof. induction 1 as [|a l Ha Hl IH]; [done|]. cbn. by rewrite (st_bind_run _ _ s tt s). Qed.

Lemma when_key_absent p m k g : contains k p = false → when_key p m (Some k) g = (Ok tt, g).
Proof. intros Hk. unfold when_key, st_bind, st_lift, key_has. by rewrite Hk. Qed.

(** All an upgrade does before it saves: the backend of the message bus is
    changed when the change set says so. *)
Definition backend_only (delta_keys : list (option string)) : ST singleton unit :=
  if decide (Some (CHANGED_PREFIX +:+ MSG_BUS_BACKEND_KEY) ∈ delta_keys) then
    let! v := conf_get DELTA_INDEX (CHANGED_PREFIX +:+ MSG_BUS_BACKEND_KEY) in
    let! new_msg_bus_backend := st_lift (new_part v) in
    conf_set GCONF_INDEX MSG_BUS_BACKEND_KEY (VStr new_msg_bus_backend)
  else
    let! backend := conf_get GCONF_INDEX MSG_BUS_BACKEND_KEY in
    match backend, delta_keys with VStr _, _ | _, [] => st_ret tt | _, _ => st_raise TypeError end.

(** An upgrade ignores what its change set says of the message bus servers:
    the loops look for the name of the backend glued to [cortx>external], where
    the keys have a separator, so whatever keys under [cortx>external] are new,
    changed or deleted, the configuration keeps its own; only the choice of the
    backend is applied. *)
Theorem upgrade_ignores_servers delta_keys g :
  Forall (λ k, ∃ x, k = Some x ∧ dotted x = true) delta_keys →
  (∀ v b, (conf_get DELTA_INDEX (CHANGED_PREFIX +:+ MSG_BUS_BACKEND_KEY) g).1 = Ok v → new_part v = Ok b → service_name b) →
  (∀ b, (conf_get GCONF_INDEX MSG_BUS_BACKEND_KEY g).1 = Ok (VStr b) → service_name b) →
  apply_delta delta_keys g = backend_only delta_keys g.
Proof.
  intros Hks Hnew Hold. unfold apply_delta, backend_only. case_decide.
  - apply bind_ext. intros v g1 Hv. apply bind_ext. intros b g2 Hb. unfold st_lift in Hb. injection Hb as Hb <-.
    apply bind_nothing. intros g3. apply iter_nothing. eapply Forall_impl; [exact Hks|]. intros ? (x & -> & Hx).
    assert (service_name b) as Hs by (eapply Hnew; [by rewrite Hv|done]).
    rewrite (st_bind_run _ _ g3 tt g3); by apply when_key_absent, dotted_absent.
  - apply bind_ext. intros v g1 Hv. rewrite Hv in Hold. cbn in Hold.
    destruct v as [| | | |b| |]; try (by destruct Hks as [|? ? (x & -> & _)]). apply iter_nothing.
    eapply Forall_impl; [exact Hks|]. intros ? (x & -> & Hx). unfold st_bind, st_lift.
    by apply when_key_absent, dotted_absent, Hold.
Qed.

(** ** The exit status *)

(** The status of [utils_setup] says nothing of the command: once the log is
    started it is 0 for root, whether the phase succeeded, failed with an error
    of the setup or with any other exception, and 1 for any other user. *)
Theorem exit_status_exact euid argv cmd h :
  exit_status (main machine_id_file urlparse classes repr topic_already_exists euid argv cmd h) =
    match start_log machine_id_file urlparse classes repr argv h with
    | (Ok _, _) => if decide (euid = 0)%Z then 0%Z else 1%Z
    | (Err _, _) => 1%Z
    end.
Proof.
  unfold main, exit_status. unfold st_bind at 1. destruct (start_log _ _ _ _ _ h) as [[[]|e] h1]; [|done].
  unfold st_bind, run, new_command. destruct (decide (euid = 0)%Z); cbn; [|done].
  by destruct (process _ _ _ _ _ cmd h1) as [[rc|e1] h2].
Qed.

(** Whatever goes wrong in [reset] and [cleanup] is an error of the setup. *)
Lemma setup_errors_only {A} (m : ST (host (K:=K) (C:=C) (W:=W) (E:=E)) A) h e h' :
  setup_errors m h = (Err e, h') → ∃ rc, e = SetupError rc.
Proof. unfold setup_errors, st_except. destruct (m h) as [[a|e0] h0]; [done|]. intros [= <- <-]. eauto. Qed.

End spec.

(** ** A loaded cluster, and a change set for it *)

Definition base_store : Store.backend unit :=
  Store.Backend (λ _, st_raise (KvError ENOSYS)) (λ _, st_raise (KvError ENOSYS)).
Definition index_of (items : list (string * value)) : cache :=
  Cache base_store ">" false (Payload.Payload (VDict items) ">" []) true.
Definition process_of (indexes : gmap string (cache (W:=unit))) : Conf.singleton :=
  Singleton (Some (ConfStore ">" indexes ∅ VNull VNull ∅ tt 0)) (VStr ">") VNull (∅, tt, 0%Z).
Definition no_url : string → string * string * string := λ url, (url, "", "").

Definition cluster : cache :=
  index_of [("node", VDict [("m1", VDict [("name", VStr "data1"); ("hostname", VStr "host-1")]);
                            ("m2", VDict [("hostname", VStr "host-2"); ("name", VStr "data2")])])].
Definition cluster_conf : conf := ConfStore ">" {["cluster" := cluster]} ∅ VNull VNull ∅ tt 0.
Definition names (id : string) : string := if decide (id = "m1") then "data1" else "data2".
Definition hosts (id : string) : string := if decide (id = "m1") then "host-1" else "host-2".

Lemma cluster_doc : doc ">" (cc_data cluster) ∧ clean ">" (cc_data cluster).
Proof. split; [constructor|]; [constructor; [repeat (constructor; try set_solver)|done|by exists ">"%char]|done..]. Qed.

Lemma copy_cluster_map_exact_witness :
  let g := process_of {["cluster" := cluster]} in
  ∃ c' s', _copy_cluster_map (λ _, None) no_url [] "yaml:///etc/cortx/cluster.conf" g = (Ok tt, with_conf g s') ∧
    cs_cache s' !! "cluster" = Some c' ∧ cs_world s' = tt ∧
    (∀ id, id ∈ ["m1"; "m2"] →
       conf_get "cluster" (cluster_key (names id)) (with_conf g s') = (Ok (VStr (hosts id)), with_conf g s')) ∧
    ∀ q, (∀ id, id ∈ ["m1"; "m2"] → diverge (split ">" (cluster_key (names id))) (split ">" q) = true) →
         denotes (cc_data c') q = denotes (cc_data cluster) q.
Proof.
  intros g.
  apply (copy_cluster_map_exact (λ _, None) no_url [] names hosts ["m1"; "m2"] "yaml:///etc/cortx/cluster.conf" g cluster_conf cluster).
  - split; reflexivity.
  - apply cluster_doc.
  - apply cluster_doc.
  - reflexivity.
  - intros id [->|[->|[]%elem_of_nil]%elem_of_cons]%elem_of_cons; by split.
  - by intros id id' [->|[->|[]%elem_of_nil]%elem_of_cons]%elem_of_cons
      [->|[->|[]%elem_of_nil]%elem_of_cons]%elem_of_cons.
Defined.

(** The change set of an upgrade that renames a topic server *)
Definition gconf : cache :=
  index_of [("cortx", VDict [("utils", VDict [("message_bus_backend", VStr "kafka")]);
                             ("external", VDict [("kafka", VDict [("port", VStr "9092")])])])].
Definition delta : cache :=
  index_of [("changed", VDict [("cortx", VDict [("external", VDict [("kafka", VDict [("port", VStr "9092|9093")])])])])].

Lemma upgrade_ignores_servers_witness :
  let g := process_of {["config" := gconf; "gconf_change_set" := delta]} in
  let keys := [Some "changed>cortx>external>kafka>port"] in
  conf_get_keys "gconf_change_set" "" g = (Ok keys, g) ∧
  apply_delta keys g = (Ok tt, g) ∧ apply_delta keys g = backend_only keys g.
Proof.
  intros g keys. split; [reflexivity|]. split; [reflexivity|]. apply (upgrade_ignores_servers keys g).
  - repeat constructor. by eexists.
  - intros v b Hv Hb. vm_compute in Hv. injection Hv as <-. discriminate Hb.
  - intros b Hb. vm_compute in Hb. injection Hb as <-. by exists "k"%char, "afka".
Defined.

End SetupSpec.
