(* ===== verification/Rest.v ===== *)
(** The HTTP interface of the utilities: [utils_server/utils_server.py],
    [utils_server/error.py], [message_bus/message_bus_server.py],
    [iem_framework/iem_server.py] and [audit_log/audit_log_server.py].

    A handler is a function of the request: the variables of its path and of
    its query, and its body, which raises when it is no JSON. What a handler
    raises reaches [aiohttp]. *)
From Stdlib Require Import Ascii.
From S2P Require Import Prelude PyStr PyVal KvStore KvFiles KvCodec ConfStore.
From S2P Require Import HaDecision Release MessageBus MessageBusSpec EventMessage.
Import PyStr PyVal.

Module Rest.

Record request := Request {
  rq_match : list (string * string);       (* match_info *)
  rq_query : list (string * string);       (* rel_url.query *)
  rq_json : res value                      (* await request.json() *)
}.

(** The text of a response; of an error, its code and the name of its class *)
Inductive body := Success | Data (v : value) | Failure (code : Z) (name : string).
Record response := Response { rs_body : body; rs_status : Z }.

(** [RestServerError(name).http_error()]: a pair for two names, and the number
    500 for the others. *)
Definition http_error (e : exn) : (Z * string) + Z :=
  match e with
  | KeyError => inl (418%Z, "KeyError")
  | KafkaException => inl (514%Z, "KafkaException")
  | _ => inr 500%Z
  end.

(** The handlers of the exceptions of a [try], and its [finally]: the response
    is returned in place of what a handler raises; when the error is the number
    500, taking its first item raises, and the names the [finally] reads are
    unbound. [own] is the exception class of the server. *)
Definition reply (own : exn → option (Z * string)) (r : res body) : res response :=
  match r with
  | Ok b => Ok (Response b 200)
  | Err e =>
      match own e with
      | Some (rc, name) => Ok (Response (Failure rc name) rc)
      | None => match http_error e with
                | inl (code, name) => Ok (Response (Failure code name) code)
                | inr _ => Err UnboundLocalError
                end
      end
  end.

Definition replying {S} (own : exn → option (Z * string)) (m : ST S body) : ST S response := λ s,
  let '(r, s') := m s in (reply own r, s').

Definition message_bus_error (e : exn) : option (Z * string) :=
  match e with BusError rc => Some (rc, "MessageBusError") | _ => None end.
Definition event_message_error (e : exn) : option (Z * string) :=
  match e with EventError rc => Some (rc, "EventMessageError") | _ => None end.
(** [AuditLogError], which nothing raises *)
Definition audit_log_error (e : exn) : option (Z * string) := None.

Definition lookup_key (l : list (string * string)) (k : string) : res string :=
  match dget k l with Some v => Ok v | None => Err KeyError end.

(** [str(message)] of bytes, and of [None] *)
Definition hex_digit (n : N) : ascii := ascii_of_N (if (n <? 10)%N then 48 + n else 87 + n).
Definition byte_repr (q : ascii) (c : ascii) : string :=
  if Ascii.eqb c q || Ascii.eqb c "\" then String "\" (String c EmptyString)
  else if Ascii.eqb c "009" then "\t" else if Ascii.eqb c "010" then "\n" else if Ascii.eqb c "013" then "\r"
  else if ((32 <=? code c) && (code c <? 127))%N then String c EmptyString
  else String "\" (String "x" (String (hex_digit (code c / 16)) (String (hex_digit (code c mod 16)) EmptyString))).
Definition single_quote : ascii := "039".
Definition double_quote : ascii := "034".
Fixpoint bytes_body (q : ascii) (s : string) : string :=
  match s with EmptyString => EmptyString | String c s' => byte_repr q c +:+ bytes_body q s' end.
Definition bytes_str (s : string) : string :=
  let q := if no_char single_quote s || negb (no_char double_quote s) then single_quote else double_quote in
  String "b" (String q (bytes_body q s)) +:+ String q EmptyString.
Definition message_str (m : option string) : string := match m with Some s => bytes_str s | None => "None" end.

Section rest.
Context {K C : Type} `{Bus.KafkaApi K C} {F : Files.Format}.

(** What [producer.send(messages)] makes of a document *)
Definition messages_of (v : value) : res (list Bus.message) :=
  l ← Ha.iter_values v; Ok (map (λ m, match m with VStr s => Bus.MStr s | _ => Bus.MOther end) l).
Definition produce (conf : list (string * value)) (messages : value) : ST (Bus.bus C * K) unit :=
  let! l := st_lift (messages_of messages) in Bus.client_send conf l.

(** ** [MessageBusRequestHandler] *)

Definition rest_producer (message_type : string) : list (string * value) :=
  Bus.producer_conf "rest_producer" message_type (VStr "sync").

Definition bus_send (rq : request) : ST (Bus.bus C * K) response :=
  replying message_bus_error
    (let! message_type := st_lift (lookup_key (rq_match rq) "message_type") in
     let! payload := st_lift (rq_json rq) in
     let! messages := st_lift (Ha.vitem payload "messages") in
     let! producer := Bus.new_client "producer" (rest_producer message_type) in
     produce producer messages ;;;
     st_ret Success).

Definition rest_consumer (consumer_group : string) (message_types : list string) : list (string * value) :=
  Bus.consumer_conf "rest_consumer" consumer_group (VBool true) (VList (map VStr message_types)) (VStr "latest").

(** The fuel is that of [receive], which polls once unless the timeout is 0. *)
Definition bus_receive (fuel : nat) (rq : request) (st : Bus.bus C * K) : option (res response * (Bus.bus C * K)) :=
  match (let! message_type := st_lift (lookup_key (rq_match rq) "message_type") in
         let! consumer_group := st_lift (lookup_key (rq_query rq) "consumer_group") in
         Bus.new_client "consumer" (rest_consumer consumer_group (split "&" message_type))) st with
  | (Err e, st') => Some (reply message_bus_error (Err e), st')
  | (Ok consumer, st') =>
      match Bus.client_receive fuel consumer VNull st' with
      | None => None
      | Some (r, st'') => Some (reply message_bus_error (m ← r; Ok (Data (VStr (message_str m)))), st'')
      end
  end.

(** ** [IemRequestHandler] *)

Section iem.
Context {W : Type} (machine_id_file : W → option string) (urlparse : string → string * string * string).
Context (classes : list (string * (string → string → string → ST W (Store.backend W)))).
Notation world := (Iem.world (K:=K) (C:=C) (W:=W)).
Context (cluster_id : value) (message_server_endpoints : list string) (hostname : string).

(** The parameters of [EventMessage.send], in order, with their defaults; a
    keyword that is none of them, or a missing one, raises. *)
Definition send_parameters : list (string * bool) :=
  [("module", true); ("event_id", true); ("severity", true); ("message_blob", true); ("problem_cluster_id", false);
   ("problem_site_id", false); ("problem_rack_id", false); ("problem_node_id", false); ("problem_host", false);
   ("event_time", false)].
Definition kwargs_ok (kwargs : list (string * value)) : bool :=
  forallb (λ k, bool_decide (k ∈ dkeys send_parameters)) (dkeys kwargs) &&
  forallb (λ '(k, required), negb required || bool_decide (k ∈ dkeys kwargs)) send_parameters.

Definition send_kwargs (kwargs : list (string * value)) (now : value) : ST world unit :=
  let kw k := default VNull (dget k kwargs) in
  if kwargs_ok kwargs then
    Iem.send (kw "module") (kw "event_id") (kw "severity") (kw "message_blob")
      (Iem.Problem (kw "problem_cluster_id") (kw "problem_site_id") (kw "problem_rack_id") (kw "problem_node_id")
         (kw "problem_host") (kw "event_time")) hostname now
  else st_raise TypeError.

(** Until [component] is bound the messages of the handlers raise. *)
Definition iem_send (rq : request) (now : value) : ST world response := λ st,
  match (payload ← rq_json rq; component ← Ha.vitem payload "component"; Ok (payload, component)) with
  | Err _ => (Err UnboundLocalError, st)
  | Ok (payload, component) =>
      replying event_message_error
        (let! source := st_lift (Ha.vitem payload "source") in
         Iem.init machine_id_file urlparse classes component source cluster_id message_server_endpoints [] ;;;
         let! kwargs := st_lift (match payload with
                                 | VDict items => Ok (ddel "source" (ddel "component" items))
                                 | _ => Err TypeError
                                 end) in
         send_kwargs kwargs now ;;;
         st_ret Success) st
  end.

(** The query is read once before the [try]; a message about no alert raises,
    and the [finally] returns the response all the same. *)
Definition iem_receive (fuel : nat) (rq : request) (st : world) : option (res response * world) :=
  match lookup_key (rq_query rq) "component" with
  | Err e => Some (Err e, st)
  | Ok component =>
      match Iem.subscribe machine_id_file urlparse classes (VStr component) message_server_endpoints [] st with
      | (Err e, st') => Some (reply event_message_error (Err e), st')
      | (Ok _, st') =>
          match Iem.receive fuel st' with
          | None => None
          | Some (r, st'') => Some (reply event_message_error (alert ← r; Ok (Data (VDict [("alert", alert)]))), st'')
          end
      end
  end.

End iem.

(** ** [AuditLogRequestHandler] *)

(** The producer of the module, and the status of a [requests.post] *)
Definition audit_producer : list (string * value) := Bus.producer_conf "audit_log_send" "audit_messages" (VStr "sync").
Context (post : value → string → res Z).

(** The class attribute [webhook_info], and the bus *)
Definition audit : Type := value * (Bus.bus C * K).

Definition on_audit_bus {A} (m : ST (Bus.bus C * K) A) : ST audit A := λ '(i, s), let '(r, s') := m s in (r, (i, s')).

Definition audit_send (rq : request) : ST audit response :=
  replying audit_log_error
    (let! payload := st_lift (rq_json rq) in
     let! messages := st_lift (Ha.vitem payload "messages") in
     (λ '(webhook_info, s),
        (if truthy webhook_info then
           let! status_code := st_lift (post webhook_info (Files.dumps (VDict [("messages", messages)]))) in
           if decide (status_code = 200)%Z then st_ret tt else on_audit_bus (produce audit_producer messages)
         else on_audit_bus (produce audit_producer messages)) (webhook_info, s)) ;;;
     st_ret Success).

Definition send_webhook_info (rq : request) : ST audit response :=
  replying audit_log_error
    (let! external_server_info := st_lift (rq_json rq) in
     (λ '(_, s), (Ok tt, (external_server_info, s))) ;;;
     st_ret Success).

End rest.

(** ** [MessageServer] *)

Inductive handler := IemSend | IemReceive | BusSend | BusReceive | AuditSend | AuditWebhook.

(** The routes: a method, and a path whose last part may be a variable *)
Definition route (method path : string) : option (handler * list (string * string)) :=
  match method, split "/" path with
  | "POST", [EmptyString; "EventMessage"; "event"] => Some (IemSend, [])
  | "GET", [EmptyString; "EventMessage"; "event"] => Some (IemReceive, [])
  | "POST", [EmptyString; "MessageBus"; "message"; t] =>
      if decide (t = "") then None else Some (BusSend, [("message_type", t)])
  | "GET", [EmptyString; "MessageBus"; "message"; t] =>
      if decide (t = "") then None else Some (BusReceive, [("message_type", t)])
  | "POST", [EmptyString; "AuditLog"; "message"; EmptyString] => Some (AuditSend, [])
  | "POST", [EmptyString; "AuditLog"; "webhook"; EmptyString] => Some (AuditWebhook, [])
  | _, _ => None
  end.

End Rest.

(** * Theorems

    What a client of the HTTP interface may conclude from a response: messages
    that were accepted are in the log of their topic, and an audit message that
    was accepted is in the log or was taken by the webhook. *)
Import PyStr PyVal Bus BusSpec Rest.

Module RestSpec.

(** What the servers rely on of Kafka besides: making clients and asking for
    topics sends nothing, and a new producer has nothing to send. *)
Class ClientLaws {K C : Type} (api : KafkaApi K C) {laws : KafkaLaws api} := {
  admin_log conf k u : k_log (k_admin conf k).2 u = k_log k u;
  producer_log conf k u : k_log (k_producer conf k).2 u = k_log k u;
  topics_log c k u : k_log (k_list_topics c k).2 u = k_log k u;
  configs_log c t k u : k_log (k_describe_configs c t k).2 u = k_log k u;
  producer_new conf k c k' : k_producer conf k = (Ok c, k') → k_pending k' c = [];
  topics_pending c k d : k_pending (k_list_topics c k).2 d = k_pending k d;
  configs_pending c t k d : k_pending (k_describe_configs c t k).2 d = k_pending k d
}.

Section theory.
Context {K C : Type} {api : KafkaApi K C} {laws : KafkaLaws api} {cl : ClientLaws api} {F : Files.Format}.

(** A producer that exists has sent what it was given. *)
Definition settled (id : string) (b : broker C) (k : K) : Prop :=
  ∀ c, bk_producer b !! id = Some c → k_pending k c = [].
Definition ready (id : string) (b : broker C) (k : K) : Prop :=
  ∃ c, bk_producer b !! id = Some c ∧ k_pending k c = [].

Lemma new_producer_ready kafka_conf id conf b k b' k' :
  Bus.new_producer kafka_conf id conf (b, k) = (Ok tt, (b', k')) →
  ready id b' k' ∧ ∀ u, k_log k' u = k_log k u.
Proof.
  unfold Bus.new_producer, st_bind, on_service, st_lift, on_broker.
  destruct (k_producer kafka_conf k) as [[c|e] k1] eqn:Hp; [|done].
  pose proof (producer_new _ _ _ _ Hp) as Hn. pose proof (λ u, producer_log kafka_conf k u) as Hl. rewrite Hp in Hl. cbn in Hl.
  destruct (mbind _ (conf_item conf "message_type")) as [topic|e]; [|done].
  unfold client. destruct (mbind _ (clients "admin" _)) as [admin|]; [|done].
  destruct (k_describe_configs admin topic k1) as [[cfg|e] k2] eqn:Hd; [|done].
  pose proof (configs_pending admin topic k1 c) as Hp2. pose proof (λ u, configs_log admin topic k1 u) as Hl2.
  rewrite Hd in Hp2, Hl2. cbn in Hp2, Hl2.
  destruct (dget "retention.ms" cfg) as [v|]; [|done]. destruct (Release.py_int v) as [z|e]; [|done].
  intros [= <- <-]. split; [|intros u; by rewrite Hl2]. exists c. split; [exact (lookup_insert_eq _ _ _)|by rewrite Hp2].
Qed.

Lemma init_producer_ready id conf b k b' k' :
  dget "client_id" conf = Some (VStr id) → settled id b k →
  init_client "producer" conf (b, k) = (Ok tt, (b', k')) → ready id b' k' ∧ ∀ u, k_log k' u = k_log k u.
Proof.
  intros Hid Hs. unfold init_client. change (clients "producer" b) with (Some (bk_producer b)). cbv iota.
  unfold st_bind at 1, st_lift at 1. unfold conf_item. rewrite Hid. cbn [mbind res_bind Ha.as_str].
  destruct (bk_producer b !! id) as [c|] eqn:Hc.
  - unfold check_topics, st_bind, on_service, st_lift. pose proof (topics_pending c k c) as Hp.
    pose proof (λ u, topics_log c k u) as Hl. destruct (k_list_topics c k) as [[ts|e] k1]; [|done]. cbn in Hp, Hl.
    rewrite decide_True by done. destruct (conf_item conf "message_type"); [|done]. destruct (name_in _ _); [|done].
    intros [= <- <-]. split; [|done]. exists c. split; [done|]. by rewrite Hp, (Hs c).
  - rewrite decide_False by done. rewrite decide_True by done. unfold st_bind, Bus.new_admin, on_service, on_broker at 1, st_bind.
    match goal with |- context [k_admin ?cf k] => pose proof (λ u, admin_log cf k u) as Hl; destruct (k_admin cf k) as [[a|e] k1]; [|done] end.
    cbn in Hl. intros [Hr Hl2]%new_producer_ready. split; [done|]. intros u. by rewrite Hl2.
Qed.

(** The broker the bus uses *)
Definition serving (m : bus C) (b : broker C) : Prop := ∃ t, mb_broker m = Some t ∧ mb_brokers m !! t = Some b.

Lemma with_broker_run {A} e (f : ST (broker C * K) A) m k b r m' k' :
  serving m b → with_broker e f (m, k) = (r, (m', k')) →
  ∃ b', f (b, k) = (r, (b', k')) ∧ serving m' b'.
Proof.
  intros (t & Ht & Hb). unfold with_broker. rewrite Ht. cbn [mbind option_bind]. rewrite Hb. cbn [mbind option_bind].
  destruct (f (b, k)) as [r' [b' k1]]. intros [= -> <- <-]. exists b'. split; [done|]. exists t.
  split; [done|]. cbn. by rewrite lookup_insert_eq.
Qed.

(** The texts of a document of messages that was sent *)
Lemma messages_texts l strs :
  _get_str_message_list (map (λ m, match m with VStr s => MStr s | _ => MOther end) l) = Ok strs → l = map VStr strs.
Proof.
  revert strs. unfold _get_str_message_list. induction l as [|v l IH]; intros strs; cbn; [by intros [= <-]|].
  destruct v as [| | | |s| |]; cbn; try done. destruct (res_map _ _) as [ss|]; [|done]. cbn. intros [= <-].
  cbn. by rewrite (IH ss).
Qed.

Lemma produce_log conf t id messages m k b m' k' :
  dget "message_type" conf = Some (VStr t) → dget "client_id" conf = Some (VStr id) →
  dget "method" conf = Some (VStr "sync") → serving m b → ready id b k →
  produce conf messages (m, k) = (Ok tt, (m', k')) →
  ∃ texts, Ha.iter_values messages = Ok (map VStr texts) ∧
    k_log k' t = k_log k t ++ texts ∧ ∀ u, u ≠ t → k_log k' u = k_log k u.
Proof.
  intros Ht Hid Hm Hu (c & Hc & Hp). unfold produce, st_bind at 1, st_lift at 1, messages_of.
  destruct (Ha.iter_values messages) as [l|e]; [|done]. cbn [mbind res_bind].
  unfold client_send, st_bind, st_lift, client_id, _get_conf. rewrite Ht, Hid, Hm. cbn [mbind res_bind Ha.as_str].
  destruct (_get_str_message_list _) as [strs|e] eqn:Hs; [|done]. apply messages_texts in Hs as ->.
  intros (b' & Hsend & _)%(with_broker_run _ _ _ _ b); [|done].
  destruct (send_log _ _ _ _ _ _ _ _ Hc Hp Hsend) as (_ & _ & Hl & Hl'). by exists strs.
Qed.

(** A response that says success comes from the work that was done. *)
Lemma replying_success {S} own (m : ST S body) s st s' :
  replying own m s = (Ok (Response Success st), s') → m s = (Ok Success, s') ∧ st = 200%Z.
Proof.
  unfold replying. destruct (m s) as [[b|e] s0]; cbn; [by intros [= -> <- ->]|].
  destruct (own e) as [[code name]|]; [done|]. by destruct (http_error e) as [[code name]|].
Qed.

(** C25.  A message that the server says it took is in the log: when a request to
    send is answered with success, the log of the topic of its path has grown by
    the texts of the request, in order, and no other log has changed. *)
Theorem post_stored rq m k st m' k' b :
  serving m b → settled "rest_producer" b k →
  bus_send rq (m, k) = (Ok (Response Success st), (m', k')) →
  st = 200%Z ∧ ∃ t payload messages texts,
    dget "message_type" (rq_match rq) = Some t ∧ rq_json rq = Ok payload ∧
    Ha.vitem payload "messages" = Ok messages ∧ Ha.iter_values messages = Ok (map VStr texts) ∧
    k_log k' t = k_log k t ++ texts ∧ ∀ u, u ≠ t → k_log k' u = k_log k u.
Proof.
  intros Hu Hs [Hrun ->]%replying_success. split; [done|]. revert Hrun. unfold st_bind at 1, st_lift at 1, lookup_key.
  destruct (dget "message_type" (rq_match rq)) as [t|]; [|done]. unfold st_bind at 1, st_lift at 1.
  destruct (rq_json rq) as [payload|e]; [|done]. unfold st_bind at 1, st_lift at 1.
  destruct (Ha.vitem payload "messages") as [messages|e] eqn:Hms; [|done]. unfold st_bind at 1, new_client, st_bind at 1.
  destruct (bus_init_client "producer" (rest_producer t) (m, k)) as [[[]|e] [m1 k1]] eqn:Hi; [|done].
  apply (with_broker_run _ _ _ _ b) in Hi as (b1 & Hi & Hu1); [|done].
  apply (init_producer_ready "rest_producer") in Hi as [Hr Hl1]; [|done|done]. cbn [st_ret]. unfold st_bind.
  destruct (produce (rest_producer t) messages (m1, k1)) as [[[]|e] [m2 k2]] eqn:Hp; [|done]. intros [= <- <-].
  destruct (produce_log (rest_producer t) t "rest_producer" _ _ _ b1 _ _ eq_refl eq_refl eq_refl Hu1 Hr Hp) as (texts & Ht & Hl & Ho).
  exists t, payload, messages, texts. split_and!; try done; [by rewrite Hl, Hl1|]. intros u Hne. by rewrite Ho, Hl1.
Qed.

(** An audit message that the server says it took was taken by the webhook, or
    is in the log. *)
Lemma audit_kept post rq i m k st i' m' k' b :
  serving m b → ready "audit_log_send" b k →
  audit_send post rq (i, (m, k)) = (Ok (Response Success st), (i', (m', k'))) →
  ∃ payload messages, rq_json rq = Ok payload ∧ Ha.vitem payload "messages" = Ok messages ∧
    ((truthy i = true ∧ post i (Files.dumps (VDict [("messages", messages)])) = Ok 200%Z) ∨
     ∃ texts, Ha.iter_values messages = Ok (map VStr texts) ∧
       k_log k' "audit_messages" = k_log k "audit_messages" ++ texts).
Proof.
  intros Hu Hr [Hrun ->]%replying_success. revert Hrun. unfold st_bind at 1, st_lift at 1.
  destruct (rq_json rq) as [payload|e]; [|done]. unfold st_bind at 1, st_lift at 1.
  destruct (Ha.vitem payload "messages") as [messages|e] eqn:Hms; [|done].
  assert (∀ i1 m1 k1, on_audit_bus (produce audit_producer messages) (i, (m, k)) = (Ok tt, (i1, (m1, k1))) →
    ∃ texts, Ha.iter_values messages = Ok (map VStr texts) ∧
       k_log k1 "audit_messages" = k_log k "audit_messages" ++ texts) as Hprod.
  { intros i1 m1 k1. unfold on_audit_bus. destruct (produce audit_producer messages (m, k)) as [r [m2 k2]] eqn:Hp.
    intros [= -> <- <- <-].
    destruct (produce_log audit_producer "audit_messages" "audit_log_send" _ _ _ b _ _ eq_refl eq_refl eq_refl Hu Hr Hp) as (texts & Ht & Hl & _). eauto. }
  unfold st_bind at 1. cbv beta iota. intros Hrun. exists payload, messages. split; [done|]. split; [done|].
  destruct (truthy i) eqn:Hi.
  - unfold st_bind at 1, st_lift at 1 in Hrun. destruct (post i _) as [code|e] eqn:Hpost; [|done]. case_decide as Hc.
    + left. by rewrite Hc.
    + right. destruct (on_audit_bus _ _) as [[[]|e] [i1 [m1 k1]]]; [|done]. injection Hrun as <- <- <-. by eapply Hprod.
  - right. destruct (on_audit_bus _ _) as [[[]|e] [i1 [m1 k1]]]; [|done]. injection Hrun as <- <- <-. by eapply Hprod.
Qed.

(** A broker that cannot take the audit messages leaves the request without the
    answer that is prepared for it: the error is not of the class that is
    caught, and the handler raises. *)
Lemma audit_error_unanswered rc : reply audit_log_error (Err (BusError rc)) = Err UnboundLocalError.
Proof. done. Qed.

End theory.

(** ** A request to a service whose producers start empty *)

Definition fresh (conf : list (string * value)) : ST service string := λ k,
  let id := match dget "client.id" conf with Some (VStr s) => s | _ => "" end in
  (Ok id, Service (sv_log k) (<[id := []]> (sv_pending k)) (sv_config k) (sv_queue k)).

#[local] Instance fresh_kafka : KafkaApi service string := {|
  k_admin := new; k_producer := fresh; k_consumer := new;
  k_subscribe := k_subscribe (KafkaApi := memory_kafka); k_list_topics := k_list_topics (KafkaApi := memory_kafka);
  k_create_topics := k_create_topics (KafkaApi := memory_kafka);
  k_delete_topics := k_delete_topics (KafkaApi := memory_kafka);
  k_create_partitions := k_create_partitions (KafkaApi := memory_kafka);
  k_describe_configs := k_describe_configs (KafkaApi := memory_kafka);
  k_alter_configs := k_alter_configs (KafkaApi := memory_kafka);
  k_produce := k_produce (KafkaApi := memory_kafka); k_flush := k_flush (KafkaApi := memory_kafka);
  k_poll_producer := k_poll_producer (KafkaApi := memory_kafka); k_poll := k_poll (KafkaApi := memory_kafka);
  k_commit := k_commit (KafkaApi := memory_kafka); k_sleep := λ _ k, k
|}.
#[local] Instance fresh_laws : KafkaLaws fresh_kafka := {|
  k_log := topic_log; k_pending := pending; k_config := λ k t p, dget p (topic_config k t);
  produce_pending := produce_pending (api := memory_kafka); flush_delivers := flush_delivers (api := memory_kafka);
  alter_other := alter_other (api := memory_kafka); alter_accepted := alter_accepted (api := memory_kafka);
  sleep_config := λ _ _ _ _, eq_refl
|}.
#[local] Instance fresh_clients : ClientLaws fresh_kafka.
Proof. split; try done. intros conf k c k' [= <- <-]. cbn. unfold pending. cbn. by rewrite lookup_insert_eq. Defined.

Definition bus_up : bus string := BusState {["kafka" := broker0]} (Some "kafka").
Definition topics_up : service := Service {["alerts" := ["m0"]]} ∅ {["alerts" := [("retention.ms", VStr "1000")]]} [].
Definition post_alerts : request :=
  Request [("message_type", "alerts")] [] (Ok (VDict [("messages", VList [VStr "m1"; VStr "m2"])])).

Lemma post_stored_witness :
  ∃ m' k', bus_send post_alerts (bus_up, topics_up) = (Ok (Response Success 200), (m', k')) ∧
    k_log k' "alerts" = ["m0"; "m1"; "m2"].
Proof.
  set (r := bus_send (F := Codec.binary) post_alerts (bus_up, topics_up)).
  assert (r = (Ok (Response Success 200), (r.2.1, r.2.2))) as Hr by (vm_compute; reflexivity).
  exists r.2.1, r.2.2. split; [exact Hr|].
  destruct (post_stored post_alerts bus_up topics_up 200 r.2.1 r.2.2 broker0) as (_ & t & payload & messages & texts & Ht & Hp & Hm & Htx & Hl & _).
  - exists "kafka". split; reflexivity.
  - intros c Hc. vm_compute in Hc. discriminate Hc.
  - exact Hr.
  - injection Ht as <-. injection Hp as <-. vm_compute in Hm. injection Hm as <-. cbn in Htx.
    destruct texts as [|x [|y [|z texts]]]; try discriminate Htx. injection Htx as <- <-. rewrite Hl. reflexivity.
Defined.

End RestSpec.
