(* ===== verification/Clis.v ===== *)
(** The command lines of the activities and of the event messages:
    [activity_tracker/activity_cli.py] and [iem_framework/iem_cli.py].

    [argparse] is not modelled: a command line is the command it parses to, with
    its options. The text a command prints and its exit status are its result. *)
From Stdlib Require Import Ascii.
From S2P Require Import Prelude PyStr PyVal KvPayload KvStore KvFiles.
From S2P Require Import ConfStore HaDecision Activity MessageBus EventMessage.
Import PyStr PyVal.

(** ** [ActivityCli] *)

Module ActivityCli.
Section cli.
Context {W : Type} {F : Files.Format} (repr : value → string).
(** [KvStoreFactory.get_instance(url)] *)
Context (get_instance : string → ST W (Store.backend W)).

Inductive output := Nothing | Text (s : string) | Ids (l : list string).

Definition arg (args : list string) (i : nat) : res string :=
  match args !! i with Some a => Ok a | None => Err IndexError end.

Section commands.
Context (b : Store.backend W).

(** [Activity.create] takes three arguments. *)
Definition create (args : list string) : ST W output :=
  if decide (length args < 2) then st_raise (ActivityError EINVAL) else st_raise TypeError.

(** [a < v] of a text *)
Definition text_less (a : string) (v : value) : res bool :=
  match v with VStr s => Ok (bool_decide (String.compare a s = Lt)) | _ => Err TypeError end.

(** [Activity.update] with a percentage that is a text: [set_progress] compares
    it with 0. *)
Definition update (args : list string) : ST W output :=
  let! activity_id := st_lift (arg args 0) in
  let! pct_complete := st_lift (arg args 1) in
  st_lift (arg args 2) ;;;
  let! activity := Activity.get b activity_id in
  let! data := st_lift (Activity.json_loads (VStr (Activity.json (Activity.ae_payload activity)))) in
  st_lift (Activity.not_complete data) ;;;
  let! old := st_lift (Ha.vget data "pct_progress") in
  let! less := st_lift (text_less pct_complete old) in
  if less : bool then st_raise (ActivityError EINVAL) else st_raise TypeError.

(** There is no [Activity.start]. *)
Definition start (args : list string) : ST W output :=
  let! activity_id := st_lift (arg args 0) in
  Activity.get b activity_id ;;;
  st_raise AttributeError.

Definition show (args : list string) : ST W output :=
  let! activity_id := st_lift (arg args 0) in
  let! activity := Activity.get b activity_id in
  st_ret (Text (Activity.json (Activity.ae_payload activity))).

Definition search (args : list string) : ST W output :=
  let! resource_path := st_lift (arg args 0) in
  let! filters := st_lift (arg args 1) in
  let! activity_list := Activity.search b repr resource_path (split "," filters) in
  st_ret (Ids activity_list).

(** [Activity.finish] takes the return code too. *)
Definition finish (args : list string) : ST W output :=
  let! activity_id := st_lift (arg args 0) in
  Activity.get b activity_id ;;;
  st_raise TypeError.

End commands.

Inductive command := CreateCmd | StartCmd | FinishCmd | UpdateCmd | SearchCmd | ShowCmd.
Definition func (c : command) : Store.backend W → list string → ST W output :=
  match c with
  | CreateCmd => λ _, create
  | StartCmd => start
  | FinishCmd => finish
  | UpdateCmd => update
  | SearchCmd => search
  | ShowCmd => show
  end.

(** What is printed: an empty output is not. *)
Definition printed (o : output) : output :=
  match o with Text s => if decide (s = "") then Nothing else o | Ids [] => Nothing | o => o end.

Definition main (url : string) (c : command) (args : list string) (w : W) : (output * Z) * W :=
  match (let! b := get_instance url in func c b args) w with
  | (Ok out, w') => ((printed out, 0%Z), w')
  | (Err e, w') => ((Nothing, match e with ActivityError rc => rc | _ => EINVAL end), w')
  end.

End cli.
End ActivityCli.

(** ** [IemCli] *)

Module IemCli.

Record args := Args {
  a_source : option string; a_info : option string; a_contents : option string; a_location : option string;
  a_file : option string; a_config : string
}.

(** The dictionary of [_parse_send_args] *)
Record send_args := SendArgs {
  s_component : value; s_module : value; s_event_id : value; s_source_type : value; s_severity : value;
  s_message : value; s_problem : Iem.problem; s_cluster_conf : string
}.

(** [a, b = v.split(':')] *)
Definition pair_of (v : option string) : res (string * string) :=
  match v with
  | None => Err AttributeError
  | Some s => match split ":" s with [a; b] => Ok (a, b) | _ => Err ValueError end
  end.

(** [except ValueError: raise EventMessageError(EINVAL)] *)
Definition value_errors {A} (r : res A) : res A :=
  match r with Err ValueError => Err (EventError EINVAL) | r => r end.

Section iem.
Context {K C : Type} `{Bus.KafkaApi K C} {F : Files.Format}.
Context {W : Type} (machine_id_file : W → option string) (urlparse : string → string * string * string).
Context (classes : list (string * (string → string → string → ST W (Store.backend W)))).
Context (repr : value → string) (hostname : string).
(** The text of a file *)
Context (read_file : string → res string).
Notation world := (Iem.world (K:=K) (C:=C) (W:=W)).

Definition contents_of (a : args) : res (value * value) :=
  match a_contents a with
  | None => Err TypeError
  | Some contents =>
      if contains contents ":" then '(e, m) ← pair_of (Some contents); Ok (VStr e, VStr m)
      else match a_file a with
           | Some file => if decide (file = "") then Ok (VNull, VNull)
                          else t ← read_file file; Ok (VStr contents, VStr t)
           | None => Ok (VNull, VNull)
           end
  end.

Definition location_of (a : args) : res Iem.problem :=
  match a_location a with
  | None | Some EmptyString => Ok (Iem.Problem VNull VNull VNull VNull VNull VNull)
  | Some location =>
      match split ":" location with
      | [cluster_id; site_id; node_id; rack_id; host] =>
          Ok (Iem.Problem (VStr cluster_id) (VStr site_id) (VStr rack_id) (VStr node_id) (VStr host) VNull)
      | _ => Err ValueError
      end
  end.

Definition _parse_send_args (a : args) : res send_args :=
  '(component, module, source_type, severity, event_id, message) ← value_errors (
     '(component, module) ← pair_of (a_source a);
     '(source_type, severity) ← pair_of (a_info a);
     '(event_id, message) ← contents_of a;
     Ok (component, module, source_type, severity, event_id, message));
  p ← location_of a;
  Ok (SendArgs (VStr component) (VStr module) event_id (VStr source_type) (VStr severity) message p (a_config a)).

Definition on_conf {A} (m : ST (Conf.singleton (W:=W)) A) : ST world A := λ '(g, m0, k, c),
  let '(r, g') := m g in (r, (g', m0, k, c)).
Definition conf_get (key : string) : ST world value := on_conf (Conf.conf_call (Conf.get "cluster_conf" key)).

Definition _get_cluster_data (config_path : string) : ST world (value * value) :=
  on_conf (Conf.conf_class_load machine_id_file urlparse classes "cluster_conf" config_path (VBool true) []) ;;;
  let! message_bus_backend := conf_get "cortx>utils>message_bus_backend" in
  let! message_server_endpoints :=
    conf_get ("cortx>external>" +:+ Files.py_str repr message_bus_backend +:+ ">endpoints") in
  let! cluster_id := conf_get "cluster>id" in
  st_ret (message_server_endpoints, cluster_id).

(** The endpoints as the bus takes them: it refuses what is no list of texts,
    as it does the text [:]. *)
Definition endpoints_of (v : value) : list string :=
  match (l ← Ha.iter_values v; res_map Ha.as_str l) with Ok l => l | Err _ => [":"] end.

Definition send (a : args) (now : value) : ST world unit :=
  let! s := st_lift (_parse_send_args a) in
  let! data := _get_cluster_data (s_cluster_conf s) in
  Iem.init machine_id_file urlparse classes (s_component s) (s_source_type s) data.2 (endpoints_of data.1) [] ;;;
  Iem.send (s_module s) (s_event_id s) (s_severity s) (s_message s) (s_problem s) hostname now.

(** The loop of [receive], which ends after the first call without an event: at
    most [turns] calls; the fuel of each is that of the bus. *)
Fixpoint receive_loop (turns fuel : nat) (rec_data : string) (st : world) : option (res string * world) :=
  match turns with
  | 0 => None
  | S turns =>
      match Iem.receive fuel st with
      | None => None
      | Some (Err _, st') => Some (Err (EventError EINVAL), st')
      | Some (Ok event, st') =>
          if truthy event then receive_loop turns fuel (rec_data +:+ Files.dumps event +:+ sep "010") st'
          else Some (Ok (rec_data +:+ sep "010"), st')
      end
  end.

Definition subscribed (a : args) : ST world unit :=
  let! data := _get_cluster_data (a_config a) in
  Iem.subscribe machine_id_file urlparse classes (match a_source a with Some s => VStr s | None => VNull end)
    (endpoints_of data.1) [].

(** The text for the caller, and the text appended to a file *)
Definition receive (turns fuel : nat) (a : args) (st : world) : option (res (string * option (string * string)) * world) :=
  match subscribed a st with
  | (Err e, st') => Some (Err e, st')
  | (Ok _, st') =>
      match receive_loop turns fuel "" st' with
      | None => None
      | Some (Err e, st'') => Some (Err e, st'')
      | Some (Ok rec_data, st'') =>
          Some (Ok match a_file a with
                   | Some file => if decide (file = "") then (rec_data, None) else ("", Some (file, rec_data))
                   | None => (rec_data, None)
                   end, st'')
      end
  end.

(** [main]: any exception is the status [EINVAL]. *)
Definition exit_status {A} (r : res A) : Z := match r with Ok _ => 0 | Err _ => EINVAL end.

End iem.
End IemCli.

(** * Theorems

    What the command lines of the activities and of the event messages do. *)
Import PyStr PyVal.

Module ClisSpec.

(** ** Activities *)

Section activities.
Context {W : Type} {F : Files.Format} (repr : value → string) (b : Store.backend W).

(** Computations that write nothing, when reading the backend does not *)
Definition reads_only {A} (m : ST W A) : Prop := (∀ r w, (Store.b_load b r w).2 = w) → ∀ w, (m w).2 = w.
Definition raises {A} (m : ST W A) : Prop := ∀ w, is_ok (m w).1 = false.

Lemma reads_bind {A B} (m : ST W A) (f : A → ST W B) : reads_only m → (∀ a, reads_only (f a)) → reads_only (st_bind m f).
Proof.
  intros Hm Hf Hl w. specialize (Hm Hl w). unfold st_bind. destruct (m w) as [[a|e] w']; cbn in Hm; subst; [by apply Hf|done].
Qed.
Lemma reads_lift {A} (r : res A) : reads_only (st_lift r).
Proof. done. Qed.
Lemma raises_bind {A B} (m : ST W A) (f : A → ST W B) : (∀ a, raises (f a)) → raises (st_bind m f).
Proof. intros Hf w. unfold st_bind. destruct (m w) as [[a|e] w']; [apply Hf|done]. Qed.

Lemma reads_get id : reads_only (Activity.get b id).
Proof.
  unfold Activity.get. apply reads_bind.
  - intros Hl w. unfold Store.get, st_bind. specialize (Hl true w). destruct (Store.b_load b true w) as [[p|e] w'];
      cbn in Hl; subst; done.
  - intros [|v l]; [done|]. destruct v; try done; apply reads_bind; try done; intros []; done.
Qed.

(** The commands that are to change an activity raise, whatever the store and
    the arguments, and write nothing. *)
Lemma activity_commands_raise c args :
  c ∈ [ActivityCli.CreateCmd; ActivityCli.StartCmd; ActivityCli.UpdateCmd; ActivityCli.FinishCmd] →
  raises (ActivityCli.func repr c b args) ∧ reads_only (ActivityCli.func repr c b args).
Proof.
  rewrite !elem_of_cons, elem_of_nil. intros [->|[->|[->|[->|[]]]]]; cbn [ActivityCli.func];
    unfold ActivityCli.create, ActivityCli.start, ActivityCli.update, ActivityCli.finish; split;
    repeat (case_decide || apply reads_get || (apply raises_bind; intros) || (apply reads_bind; intros) || case_match); done.
Qed.

End activities.

(** ** Event messages *)

Section iem.
Context {K C : Type} `{Bus.KafkaApi K C} {F : Files.Format} {W : Type}.
Notation world := (Iem.world (K:=K) (C:=C) (W:=W)).
Context (read_file : string → res string).

(** The arguments of an event, as a user writes them *)
Record event := Event {
  e_component : string; e_module : string; e_type : string; e_severity : string; e_id : string; e_message : string;
  e_cluster : string; e_site : string; e_rack : string; e_node : string; e_host : string
}.
Definition plain (s : string) : Prop := no_char ":" s = true.
Definition event_ok (e : event) : Prop :=
  Forall plain [e_component e; e_module e; e_type e; e_severity e; e_id e; e_message e;
                e_cluster e; e_site e; e_node e; e_rack e; e_host e].
Definition colon (l : list string) : option string := Some (join ":" l).
Definition written (config : string) (e : event) : IemCli.args :=
  IemCli.Args (colon [e_component e; e_module e]) (colon [e_type e; e_severity e]) (colon [e_id e; e_message e])
    (colon [e_cluster e; e_site e; e_node e; e_rack e; e_host e]) None config.

Lemma pair_read x y : plain x → plain y → IemCli.pair_of (colon [x; y]) = Ok (x, y).
Proof.
  intros Hx Hy. unfold IemCli.pair_of, colon. change (join ":" [x; y]) with (join (sep ":") [x; y]).
  rewrite split_join; [done|done|by repeat constructor].
Qed.

Lemma contains_colon x y : contains (join ":" [x; y]) ":" = true.
Proof.
  cbn [join]. induction x as [|c x IH]; [by destruct y|]. change (contains (String c (x +:+ ":" +:+ y)) ":" = true). cbn [contains].
  rewrite IH. apply orb_true_r.
Qed.

(** An event written on the command line is read back, every part in its place. *)
Lemma send_args_roundtrip config e :
  event_ok e →
  IemCli._parse_send_args read_file (written config e) =
    Ok (IemCli.SendArgs (VStr (e_component e)) (VStr (e_module e)) (VStr (e_id e)) (VStr (e_type e)) (VStr (e_severity e))
          (VStr (e_message e))
          (Iem.Problem (VStr (e_cluster e)) (VStr (e_site e)) (VStr (e_rack e)) (VStr (e_node e)) (VStr (e_host e)) VNull) config).
Proof.
  unfold event_ok. rewrite !Forall_cons. intros (H1 & H2 & H3 & H4 & H5 & H6 & H7 & H8 & H9 & H10 & H11 & _).
  assert (IemCli.contents_of read_file (written config e) = Ok (VStr (e_id e), VStr (e_message e))) as Hc.
  { unfold IemCli.contents_of, written, colon. cbn [IemCli.a_contents]. rewrite contains_colon.
    change (Some (join ":" [e_id e; e_message e])) with (colon [e_id e; e_message e]). by rewrite pair_read. }
  assert (split ":" (join ":" [e_cluster e; e_site e; e_node e; e_rack e; e_host e]) =
            [e_cluster e; e_site e; e_node e; e_rack e; e_host e]) as Hs.
  { change ":" with (sep ":"). apply split_join; [done|by repeat constructor]. }
  assert (IemCli.location_of (written config e) =
    Ok (Iem.Problem (VStr (e_cluster e)) (VStr (e_site e)) (VStr (e_rack e)) (VStr (e_node e)) (VStr (e_host e)) VNull)) as Hl.
  { unfold IemCli.location_of, written, colon. cbn [IemCli.a_location].
    destruct (join ":" [e_cluster e; _; _; _; _]); [done|]. by rewrite Hs. }
  unfold IemCli._parse_send_args. rewrite Hc, Hl. unfold written. cbn [IemCli.a_source IemCli.a_info IemCli.a_config].
  by rewrite !pair_read by done.
Qed.

(** The events received one after the other, until there is none *)
Inductive events (fuel : nat) : list value → world → world → Prop :=
| events_end st st' : Iem.receive fuel st = Some (Ok VNull, st') → events fuel [] st st'
| events_next ev l st st1 st' :
    Iem.receive fuel st = Some (Ok ev, st1) → truthy ev = true → events fuel l st1 st' → events fuel (ev :: l) st st'.

(** The command that receives prints the documents of all the events, one a
    line, and an empty line; a turn for each and one more are enough. *)
Lemma receive_all fuel l st st' turns rec_data :
  events fuel l st st' → length l < turns →
  IemCli.receive_loop turns fuel rec_data st =
    Some (Ok (rec_data +:+ String.concat "" ((λ ev, Files.dumps ev +:+ sep "010") <$> l) +:+ sep "010"), st').
Proof.
  intros He. revert turns rec_data. induction He as [st st' Hr|ev l st st1 st' Hr Ht He IH]; intros [|turns] rec_data Hl; try (cbn in Hl; lia).
  - cbn [IemCli.receive_loop]. by rewrite Hr.
  - cbn [IemCli.receive_loop]. rewrite Hr, Ht, IH by (cbn in Hl; lia). f_equal. f_equal. f_equal. rewrite sapp_assoc. f_equal.
    cbn [fmap list_fmap]. destruct ((λ ev, Files.dumps ev +:+ sep "010") <$> l) as [|s ss] eqn:Hss; cbn [fmap list_fmap] in Hss; rewrite ?Hss.
    + cbn. by rewrite ?sapp_nil_r.
    + cbn [String.concat]. by rewrite !sapp_assoc.
Qed.

End iem.
End ClisSpec.
