(* ===== verification/Packages.v ===== *)
(** [utils/validator/v_pkg.py], [v_salt.py] and the command line of the
    validators ([commands.py], [validate.py]).

    The machine is the class [Nodes] of [Validator].  The two versions [PkgV]
    looks for and the URL of a host are regular expressions; their matches are
    computed by hand, the greedy groups by trying the longest text first. *)
From Stdlib Require Import Ascii.
From S2P Require Import Prelude PyStr PyVal KvFiles ConfStore Validator.
Import PyStr Files Validator.

Module Packages.

(** ** Regular expressions *)

(** The ways to cut a string in two, the longest first part first. *)
Fixpoint splits (s : string) : list (string * string) :=
  match s with
  | EmptyString => [(EmptyString, EmptyString)]
  | String c s' => ((λ ab, (String c ab.1, ab.2)) <$> splits s') ++ [(EmptyString, s)]
  end.

(** [(.{n,})], the character [d], then what [k] matches *)
Definition greedy {A} (n : nat) (d : ascii) (k : string → option A) (s : string) : option (string * A) :=
  head (omap (λ ab,
    if decide (n ≤ String.length ab.1 ∧ no_char nl ab.1 = true) then
      match ab.2 with
      | String c r => if Ascii.eqb c d then (λ x, (ab.1, x)) <$> k r else None
      | EmptyString => None
      end
    else None) (splits s)).

(** A text at the beginning, and what follows it *)
Definition literal (p s : string) : option string :=
  if startswith s p then Some (sdrop (String.length p) s) else None.

(** The longest first part of characters of [p], and the rest *)
Fixpoint span (p : ascii → bool) (s : string) : string * string :=
  match s with
  | EmptyString => (EmptyString, EmptyString)
  | String c s' => if p c then let '(a, b) := span p s' in (String c a, b) else (EmptyString, s)
  end.

(** [re.search]: the first place where there is a match *)
Fixpoint re_search {A} (here : string → option A) (s : string) : option A :=
  match here s with
  | Some x => Some x
  | None => match s with EmptyString => None | String _ s' => re_search here s' end
  end.

(** [\w] on code points below 256 *)
Definition is_word (c : ascii) : bool :=
  let n := nat_of_ascii c in
  is_digit c || ((65 <=? n) && (n <=? 90)) || ((97 <=? n) && (n <=? 122)) || (n =? 95)
  || existsb (Nat.eqb n) [170; 178; 179; 181; 185; 186; 188; 189; 190]
  || ((192 <=? n) && negb (n =? 215) && negb (n =? 247)).

Definition digits (s : string) : option string :=
  let ds := (span is_digit s).1 in if decide (ds = "") then None else Some ds.

(** [(\w+):(.+)@(.+):(\d+)] *)
Definition host_details : string → option (string * string * string * string) :=
  re_search (λ s,
    match span is_word s with
    | (EmptyString, _) => None
    | (user, String ":" r) =>
        '(passwd, (host, port)) ← greedy 1 "@" (greedy 1 ":" digits) r;
        Some (user, passwd, host, port)
    | _ => None
    end).

(** ["%s-([^-][0-9.]+)-" % pkg] *)
Definition version_char (c : ascii) : bool := is_digit c || Ascii.eqb c ".".
Definition rpm_here (pkg s : string) : option string :=
  t ← literal (pkg +:+ "-") s;
  match t with
  | String c t' =>
      if Ascii.eqb c "-" then None else
      match span version_char t' with
      | (EmptyString, _) => None
      | (ds, String "-" _) => Some (String c ds)
      | _ => None
      end
  | EmptyString => None
  end.
Definition rpm_version (pkg : string) : string → option string := re_search (rpm_here pkg).

(** ["%s \((.*)\)" % pkg] *)
Definition pip_here (pkg s : string) : option string :=
  t ← literal (pkg +:+ " (") s; fst <$> greedy 0 ")" (λ _, Some tt) t.
Definition pip_version (pkg : string) : string → option string := re_search (pip_here pkg).

Section packages.
Context {W : Type} {N : Nodes W}.
(** [SSHChannel(host, user, password, port)], and [os.environ.get('USER')] *)
Context (ssh_open : string → string → string → string → W → bool * W) (env_user : W → option string).

(** ** [class PkgV] *)

Record pkgv := PkgV { passwdless_ssh_enabled : bool; session : option string }.
Definition new_pkgv : pkgv := PkgV false None.

Definition on_nodes {A} (m : ST W A) : ST (pkgv * W) A := λ '(p, w), let '(r, w') := m w in (r, (p, w')).
Definition self : ST (pkgv * W) pkgv := λ '(p, w), (Ok p, (p, w)).
Definition become (p : pkgv) : ST (pkgv * W) unit := λ '(_, w), (Ok tt, (p, w)).

Definition __execute_cmd (cmd : string) : ST (pkgv * W) string :=
  let! p := self in
  let! (retcode, result) :=
    match session p with
    | Some host => on_nodes (execute host cmd)
    | None =>
        let! (stdout, stderr, retcode) := on_nodes (run cmd) in
        st_ret (retcode, if decide (retcode = 0%Z) then stdout else stderr)
    end in
  if decide (retcode ≠ 0%Z) then st_raise (VError EINVAL) else st_ret result.

(** The packages asked for: names, or names with versions *)
Inductive pkgs := Names (l : list string) | Versions (d : list (string * string)).
Definition pkg_names (p : pkgs) : list string := match p with Names l => l | Versions d => dkeys d end.

(** The loops over the packages differ in the regular expression only. *)
Definition check_pkg (version : string → string → option string) (result : string) (expected : option string)
    (pkg : string) : res unit :=
  if contains result pkg then
    match expected with
    | None => Ok tt
    | Some expected_version =>
        match version pkg result with
        | None => Err AttributeError
        | Some installed_version =>
            if decide (installed_version ≠ expected_version) then Err (VError EINVAL) else Ok tt
        end
    end
  else Err (VError EINVAL).

Definition expected_of (p : pkgs) (skip_version_check : bool) (pkg : string) : option string :=
  match p with
  | Names _ => None
  | Versions d => if skip_version_check then None else dget pkg d
  end.

Definition validate_pkgs (list_cmd : string) (version : string → string → option string)
    (host : string) (p : pkgs) (skip_version_check : bool) : ST (pkgv * W) unit :=
  let! s := self in
  let! result := __execute_cmd (if passwdless_ssh_enabled s then "ssh " +:+ host +:+ " " +:+ list_cmd else list_cmd) in
  st_iter (λ pkg, st_lift (check_pkg version result (expected_of p skip_version_check pkg) pkg)) (pkg_names p).

Definition validate_rpm_pkgs : string → pkgs → bool → ST (pkgv * W) unit := validate_pkgs "rpm -qa" rpm_version.
Definition validate_pip3_pkgs : string → pkgs → bool → ST (pkgv * W) unit := validate_pkgs "pip3 list" pip_version.

(** The session with the host, and the host without its URL *)
Definition reach (host : string) : ST (pkgv * W) string :=
  let! p := self in
  match host_details host with
  | Some (user, passwd, h, port) =>
      let! opened := on_nodes (λ w, let '(b, w') := ssh_open h user passwd port w in (Ok b, w')) in
      if opened : bool then become (PkgV (passwdless_ssh_enabled p) (Some h)) ;;; st_ret h else st_raise PlainException
  | None =>
      let! fqdn := on_nodes (ask n_fqdn) in
      if decide (host ≠ fqdn) then
        let! user := on_nodes (ask n_user) in
        on_nodes (validate_network "passwordless" [user; host]) ;;;
        become (PkgV true (session p)) ;;; st_ret host
      else st_ret host
  end.

(** Every branch returns or raises before the session is closed. *)
Definition validate_pkg (v_type : string) (args : list string) (host : option string) : ST (pkgv * W) unit :=
  let! fqdn := on_nodes (ask n_fqdn) in
  let host := match host with None => fqdn | Some h => if decide (h = "localhost") then fqdn else h end in
  let! h := reach host in
  if decide (v_type = "rpms") then validate_rpm_pkgs h (Names args) true
  else if decide (v_type = "pip3s") then validate_pip3_pkgs h (Names args) true
  else st_raise (VError EINVAL).

(** ** [class SaltV] *)

Definition validate_salt_minion_connectivity (nodes : list string) : ST W unit :=
  let! user := ask env_user in
  if decide (user ≠ Some "root") then st_raise (VError EACCES) else
  st_iter (λ node, run_clean ECONNREFUSED ("salt -t 5 " +:+ node +:+ " test.ping") ;;; st_ret tt) nodes.
Definition validate_salt (v_type : string) (args : list string) : ST W unit :=
  if decide (length args < 1) then invalid
  else if decide (v_type = "minions") then validate_salt_minion_connectivity args else invalid.

(** ** The command line

    A command line is the name of a command, a type and arguments.  The classes
    of the validators of packages, services and paths are called without a
    host; the one of keys without its list, which is a [TypeError]. *)

Definition fresh {A} (m : ST (pkgv * W) A) : ST W A := λ w, let '(r, (_, w')) := m (new_pkgv, w) in (r, w').

Definition commands : list (string * (string → list string → ST W unit)) :=
  [("network", validate_network); ("consul", validate_consul); ("storage", validate_storage);
   ("salt", validate_salt); ("bmc", validate_bmc); ("elasticsearch", validate_elasticsearch);
   ("controller", validate_controller); ("Pkg", λ t args, fresh (validate_pkg t args None));
   ("Service", λ t args, validate_service_command t args None);
   ("Path", λ t args, validate_path_command t args None);
   ("ConfKeys", λ _ _, st_raise TypeError)].

(** The exit status; [argparse] exits with 2 on an unknown name. *)
Definition main (name v_type : string) (args : list string) : W → Z * W := λ w,
  match dget name commands with
  | None => (2%Z, w)
  | Some process => match process v_type args w with (Ok _, w') => (0%Z, w') | (Err _, w') => (EINVAL, w') end
  end.

End packages.

Example url1 : host_details " ab:p:w@x@h1.com:22x" = Some ("ab", "p:w@x", "h1.com", "22").
Proof. reflexivity. Qed.
Example ver1 : rpm_version "kafka" "a-kafka-x-1
kafka-2.13_2.7.0-1
kafka-2.13-el7.x86_64" = Some "2.13".
Proof. vm_compute. reflexivity. Qed.
Example ver2 : pip_version "es" "es-dsl (1)
es (7.12.0) (x)" = Some "7.12.0) (x".
Proof. vm_compute. reflexivity. Qed.

End Packages.

(** * Theorems

    The versions the package checks find are the matches of their regular
    expression, and a check passes exactly for the packages that are there. *)
Import PyStr Files Validator Packages.

Module PackagesSpec.

(** ** Searching *)

Lemma re_search_exact {A} (here : string → option A) s x :
  re_search here s = Some x ↔
  ∃ a b, s = a +:+ b ∧ here b = Some x ∧
    ∀ a' b', s = a' +:+ b' → String.length a' < String.length a → here b' = None.
Proof.
  split.
  - induction s as [|c s IH]; cbn.
    + destruct (here "") eqn:Hh; [|done]. intros [= ->]. exists "", "". split_and!; try done. intros; cbn in *; lia.
    + destruct (here (String c s)) eqn:Hh.
      * intros [= ->]. exists "", (String c s). split_and!; try done. intros; cbn in *; lia.
      * intros (a & b & -> & Hb & Hmin)%IH. exists (String c a), b. split_and!; try done.
        intros [|c' a'] b' Heq Hl; [cbn in Heq; by subst|].
        rewrite sapp_cons in Heq. injection Heq as -> Heq. eapply Hmin; [exact Heq|]. cbn in Hl. lia.
  - intros (a & b & -> & Hb & Hmin). revert Hmin. induction a as [|c a IH]; intros Hmin.
    + cbn. destruct b; cbn; by rewrite Hb.
    + rewrite sapp_cons. cbn. rewrite (Hmin "" (String c (a +:+ b))) by (rewrite ?sapp_cons; cbn; done || lia).
      apply IH. intros a' b' Heq Hl. apply (Hmin (String c a') b'); [by rewrite sapp_cons, Heq|cbn; lia].
Qed.

Lemma re_search_none {A} (here : string → option A) s :
  re_search here s = None ↔ ∀ a b, s = a +:+ b → here b = None.
Proof.
  destruct (re_search here s) as [x|] eqn:Hs.
  - apply re_search_exact in Hs as (a & b & -> & Hb & _). split; [done|]. intros H. by rewrite (H a b) in Hb.
  - split; [|done]. intros _. induction s as [|c s IH]; intros a b Heq; cbn in Hs.
    + destruct a; cbn in Heq; [subst|done]. by destruct (here "").
    + destruct (here (String c s)) eqn:Hh; [done|]. destruct a as [|c' a]; cbn in Heq; [by subst|].
      injection Heq as -> ->. by eapply IH.
Qed.

Lemma span_exact p s a b :
  span p s = (a, b) ↔ s = a +:+ b ∧ sforall p a = true ∧ match b with String c _ => p c = false | _ => True end.
Proof.
  split.
  - revert a b. induction s as [|c s IH]; intros a b; cbn; [by intros [= <- <-]|].
    destruct (p c) eqn:Hc; [|intros [= <- <-]; done].
    destruct (span p s) as [a' b'] eqn:Hs. intros [= <- <-].
    destruct (IH _ _ eq_refl) as (-> & Ha & Hb). split_and!; [done| |done]. cbn. by rewrite Hc.
  - intros (-> & Ha & Hb). induction a as [|c a IH].
    + cbn. destruct b as [|c b]; [done|]. cbn. by rewrite Hb.
    + cbn in Ha. apply andb_prop in Ha as [Hc Ha]. rewrite sapp_cons. cbn. by rewrite Hc, IH.
Qed.

Lemma literal_spec p s t : literal p s = Some t ↔ s = p +:+ t.
Proof.
  unfold literal. split.
  - destruct (startswith s p) eqn:Hs; [|done]. intros [= <-]. apply startswith_spec in Hs as [u ->]. by rewrite sdrop_app.
  - intros ->. by rewrite startswith_app, sdrop_app.
Qed.

(** A match of ["%s-([^-][0-9.]+)-"] at the beginning of a text *)
Definition rpm_match (pkg v s : string) : Prop :=
  ∃ c ds b, v = String c ds ∧ c ≠ "-"%char ∧ ds ≠ "" ∧ sforall version_char ds = true ∧
            s = pkg +:+ "-" +:+ v +:+ "-" +:+ b.

Lemma rpm_here_exact pkg s v : rpm_here pkg s = Some v ↔ rpm_match pkg v s.
Proof.
  unfold rpm_here, rpm_match. split.
  - destruct (literal (pkg +:+ "-") s) as [t|] eqn:Ht; [|done]. cbn [mbind option_bind].
    apply literal_spec in Ht as ->. destruct t as [|c t]; [done|].
    destruct (Ascii.eqb_spec c "-") as [|Hc]; [done|].
    destruct (span version_char t) as [ds r] eqn:Hs. apply span_exact in Hs as (-> & Hd & Hr).
    destruct ds as [|d ds]; [done|]. destruct r as [|c' r]; [done|].
    destruct c' as [[] [] [] [] [] [] [] []]; try done. intros [= <-].
    exists c, (String d ds), r. split_and!; try done. by rewrite sapp_assoc.
  - intros (c & ds & b & -> & Hc & Hne & Hd & ->).
    replace (pkg +:+ "-" +:+ String c ds +:+ "-" +:+ b) with ((pkg +:+ "-") +:+ String c (ds +:+ "-" +:+ b))
      by (by rewrite sapp_assoc).
    rewrite (proj2 (literal_spec _ _ _) eq_refl). cbn [mbind option_bind]. destruct (Ascii.eqb_spec c "-") as [|_]; [done|].
    assert (Hs : span version_char (ds +:+ "-" +:+ b) = (ds, "-" +:+ b)) by (by apply span_exact).
    rewrite Hs. by destruct ds.
Qed.

(** The version found is the one of the first place where the name, a dash,
    the version and another dash follow each other. *)
Lemma rpm_version_exact pkg s v :
  rpm_version pkg s = Some v ↔
  ∃ a b, s = a +:+ b ∧ rpm_match pkg v b ∧
    ∀ a' b' v', s = a' +:+ b' → rpm_match pkg v' b' → String.length a ≤ String.length a'.
Proof.
  unfold rpm_version. rewrite re_search_exact. split.
  - intros (a & b & -> & Hb%rpm_here_exact & Hmin). exists a, b. split_and!; [done..|].
    intros a' b' v' Heq Hm%rpm_here_exact. destruct (decide (String.length a' < String.length a)) as [Hl|]; [|lia].
    by rewrite (Hmin _ _ Heq Hl) in Hm.
  - intros (a & b & -> & Hb%rpm_here_exact & Hmin). exists a, b. split_and!; [done..|].
    intros a' b' Heq Hl. destruct (rpm_here pkg b') as [v'|] eqn:Hm; [|done].
    apply rpm_here_exact in Hm. specialize (Hmin _ _ _ Heq Hm). lia.
Qed.

Section checks.
Context {W : Type} {N : Nodes W}.

(** What the check of a package and a version needs of the list of packages *)
Definition installed (out : string) (pv : string * string) : Prop :=
  contains out pv.1 = true ∧ rpm_version pv.1 out = Some pv.2.

Lemma check_pkg_ok out pkg v : check_pkg rpm_version out (Some v) pkg = Ok tt ↔ installed out (pkg, v).
Proof.
  unfold check_pkg, installed. cbn [fst snd]. destruct (contains out pkg); [|naive_solver].
  destruct (rpm_version pkg out) as [w|]; [|naive_solver]. case_decide; naive_solver.
Qed.

Lemma st_iter_lift {S A} (f : A → res unit) l (s : S) :
  st_iter (λ x, st_lift (f x)) l s = (Ok tt, s) ↔ ∀ x, x ∈ l → f x = Ok tt.
Proof.
  induction l as [|x l IH]; [split; [set_solver|done]|].
  cbn. unfold st_bind, st_lift at 1. destruct (f x) as [[]|e] eqn:Hx.
  - rewrite IH. split; [intros H y [->|Hy]%elem_of_cons; auto|intros H y Hy; apply H; by right].
  - split; [done|]. intros H. specialize (H x ltac:(left)). congruence.
Qed.

(** On the node itself: the check passes exactly when every package is in the
    list with its version. *)
Lemma rpm_check_exact host d w out w' :
  NoDup (dkeys d) → n_run "rpm -qa" w = ((out, "", 0%Z), w') →
  validate_rpm_pkgs host (Versions d) false (new_pkgv, w) = (Ok tt, (new_pkgv, w')) ↔ Forall (installed out) d.
Proof.
  intros Hnd Hrun. unfold validate_rpm_pkgs, validate_pkgs.
  assert (Hx : __execute_cmd "rpm -qa" (new_pkgv, w) = (Ok out, (new_pkgv, w'))).
  { unfold __execute_cmd, st_bind, self, on_nodes, run. cbn [session new_pkgv]. by rewrite Hrun. }
  rewrite (st_bind_run self _ _ new_pkgv (new_pkgv, w)) by done. cbn [new_pkgv passwdless_ssh_enabled].
  rewrite (st_bind_run _ _ _ _ _ Hx), st_iter_lift, Forall_forall. cbn [pkg_names expected_of]. split.
  - intros H [pkg v] Hin. assert (Hk : pkg ∈ dkeys d) by (apply list_elem_of_fmap; by exists (pkg, v)).
    specialize (H _ Hk). rewrite (dget_elem pkg v d) in H by done. by apply check_pkg_ok.
  - intros H pkg [[k v] [-> Hin]]%list_elem_of_fmap. cbn [fst].
    rewrite (dget_elem k v d) by done. by apply check_pkg_ok, H.
Qed.

(** A session that was opened with a host is never closed. *)
Lemma session_kept ssh_open v_type args user passwd h port host (w w1 : W) :
  host_details host = Some (user, passwd, h, port) → host ≠ "localhost" → ssh_open h user passwd port w = (true, w1) →
  ∃ r w2, validate_pkg ssh_open v_type args (Some host) (new_pkgv, w) = (r, (PkgV false (Some h), w2)).
Proof.
  intros Hd Hl Hs.
  assert (Hr : reach ssh_open host (new_pkgv, w) = (Ok h, (PkgV false (Some h), w1))).
  { unfold reach, st_bind, self. rewrite Hd. unfold st_bind, on_nodes. by rewrite Hs. }
  unfold validate_pkg. rewrite (st_bind_run (on_nodes (ask n_fqdn)) _ _ (n_fqdn w) (new_pkgv, w)) by done.
  cbn [from_option]. rewrite (decide_False (P := host = _)) by done. rewrite (st_bind_run _ _ _ _ _ Hr).
  assert (Hx : ∀ cmd w0, ∃ r w2, __execute_cmd cmd (PkgV false (Some h), w0) = (r, (PkgV false (Some h), w2))).
  { intros cmd w0. unfold __execute_cmd, st_bind, self, on_nodes, execute. cbn [session].
    destruct (n_execute h cmd w0) as [[rc out] w2]. case_decide; eauto. }
  assert (Hi : ∀ (f : string → res unit) l (st : pkgv * W), (st_iter (λ x, st_lift (f x)) l st).2 = st).
  { intros f l st. apply (st_iter_inv (λ s, s = st)); [|done]. intros a s0 _ ->. done. }
  assert (Hv : ∀ c ver, ∃ r w2, validate_pkgs c ver h (Names args) true (PkgV false (Some h), w1) =
                          (r, (PkgV false (Some h), w2))).
  { intros c ver. unfold validate_pkgs, st_bind, self. cbn [passwdless_ssh_enabled].
    destruct (Hx c w1) as (r & w2 & ->). destruct r as [out|]; [|eauto].
    rewrite (surjective_pairing (st_iter _ _ _)), Hi. eauto. }
  case_decide; [apply Hv|]. case_decide; [apply Hv|]. unfold st_raise. eauto.
Qed.

End checks.
End PackagesSpec.
