(* ===== verification/NodeProcess.v ===== *)
(** A process of the configuration store on a machine with a tree of files:
    operations of the machine and of its files as operations of the process,
    and what they keep. *)
From Stdlib Require Import Ascii.
From S2P Require Import Prelude PyStr PyVal KvDir ConfStore.
Import PyStr Dir.

Module NodeProcess.

Section process.
Context {W : Type} (get_tree : W → tree) (set_tree : tree → W → W).
Implicit Types (Q : tree → Prop).

Notation process := (Conf.singleton (W:=W)).

Definition on_machine {A} (m : ST W A) : ST process A := λ g,
  match Conf.g_conf g with
  | Some s =>
      let '(r, w) := m (Conf.cs_world s) in
      (r, Conf.Singleton (Some (Conf.set_env (Conf.cs_stores s) w (Conf.cs_now s) s)) (Conf.g_delim g) (Conf.g_machine_id g) (Conf.g_env g))
  | None =>
      let '(stores, w, now) := Conf.g_env g in
      let '(r, w') := m w in (r, Conf.Singleton None (Conf.g_delim g) (Conf.g_machine_id g) (stores, w', now))
  end.
Definition on_files {A} (m : ST tree A) : ST process A :=
  on_machine (λ w, let '(r, fs) := m (get_tree w) in (r, set_tree fs w)).

Definition world (g : process) : W :=
  match Conf.g_conf g with Some s => Conf.cs_world s | None => (Conf.g_env g).1.2 end.
Definition tree_of (g : process) : tree := get_tree (world g).

(** ** Lemmas *)

Context (law_tree : ∀ fs w, get_tree (set_tree fs w) = fs).

Lemma on_machine_world {A : Type} (m : ST W A) g :
  (on_machine m g).1 = (m (world g)).1 ∧ world (on_machine m g).2 = (m (world g)).2.
Proof.
  unfold on_machine, world. destruct (Conf.g_conf g) as [s|].
  - by destruct (m (Conf.cs_world s)).
  - destruct (Conf.g_env g) as [[stores w] now]. cbn. by destruct (m w).
Qed.

Lemma on_files_tree {A : Type} (m : ST tree A) g :
  (on_files m g).1 = (m (tree_of g)).1 ∧ tree_of (on_files m g).2 = (m (tree_of g)).2.
Proof.
  unfold on_files, tree_of. set (m' := λ w, _). destruct (on_machine_world m' g) as [-> ->].
  unfold m'. destruct (m (get_tree (world g))) as [r fs]. cbn. by rewrite law_tree.
Qed.

Lemma files_run {A : Type} (m : ST tree A) g a fs :
  m (tree_of g) = (Ok a, fs) → ∃ g', on_files m g = (Ok a, g') ∧ tree_of g' = fs.
Proof.
  intros Hm. destruct (on_files_tree m g) as [H1 H2]. rewrite Hm in H1, H2.
  destruct (on_files m g) as [r g']. cbn in *. subst. eauto.
Qed.

Definition keeps {A : Type} (Q : tree → Prop) (m : ST process A) : Prop := ∀ g, Q (tree_of g) → Q (tree_of (m g).2).

Lemma keep_ret {A : Type} Q (a : A) : keeps Q (st_ret a).
Proof. by intros g. Qed.
Lemma keep_raise {A : Type} Q e : keeps Q (st_raise (A:=A) e).
Proof. by intros g. Qed.
Lemma keep_lift {A : Type} Q (r : res A) : keeps Q (st_lift r).
Proof. by intros g. Qed.
Lemma keep_bind {A B : Type} Q (m : ST process A) (f : A → ST process B) :
  keeps Q m → (∀ a, keeps Q (f a)) → keeps Q (st_bind m f).
Proof.
  intros Hm Hf g Hg. unfold st_bind. specialize (Hm g Hg). destruct (m g) as [[a|e] g1]; [by apply Hf|done].
Qed.
Lemma keep_except {A : Type} Q h (m : ST process A) f : keeps Q m → (∀ e, keeps Q (f e)) → keeps Q (st_except h m f).
Proof.
  intros Hm Hf g Hg. unfold st_except. specialize (Hm g Hg). destruct (m g) as [[a|e] g1]; [done|].
  destruct (h e); [by apply Hf|done].
Qed.
Lemma keep_iter {A : Type} Q (f : A → ST process unit) l : (∀ a, keeps Q (f a)) → keeps Q (st_iter f l).
Proof. intros Hf g. apply (st_iter_inv (λ g, Q (tree_of g))). intros a g0 _. apply Hf. Qed.
Lemma keep_machine {A : Type} Q (m : ST W A) :
  (∀ w, Q (get_tree w) → Q (get_tree (m w).2)) → keeps Q (on_machine m).
Proof. intros Hm g Hg. unfold tree_of in *. destruct (on_machine_world m g) as [_ ->]. by apply Hm. Qed.
Lemma keep_files {A : Type} Q (m : ST tree A) : (∀ fs, Q fs → Q (m fs).2) → keeps Q (on_files m).
Proof. intros Hm g Hg. destruct (on_files_tree m g) as [_ ->]. by apply Hm. Qed.

(** Reading the configuration store *)
Lemma conf_get_same index key (g : process) : (Conf.conf_call (Conf.get index key) g).2 = g.
Proof.
  unfold Conf.conf_call. destruct g as [[s|] d m e]; [|done]. cbn.
  unfold Conf.get, Conf.get_val, Conf.with_index. destruct (Conf.cs_cache s !! index); [|done].
  unfold st_bind, st_lift. by destruct (Conf.cache_get _ _ _).
Qed.
Lemma keep_conf_get Q index key : keeps Q (Conf.conf_call (Conf.get (W:=W) index key)).
Proof. intros g. by rewrite conf_get_same. Qed.
Lemma keep_machine_id machine_id_file Q : keeps Q (Conf.conf_class_machine_id machine_id_file).
Proof.
  intros g Hg. unfold Conf.conf_class_machine_id, st_bind, Conf.conf_class_init.
  destruct (Conf.g_conf g) eqn:Hc; [done|]. destruct (Conf.conf_new _ _ _) as [s|] eqn:Hn; [|by unfold tree_of, world in *; rewrite Hc in Hg].
  cbn. unfold tree_of, world in *. rewrite Hc in Hg. cbn. unfold Conf.conf_new in Hn.
  destruct (Conf.g_env g) as [[stores w] now]. cbn in Hg. destruct (default _ _); try done.
  unfold Conf.conf_init in Hn. by case_decide; simplify_eq.
Qed.

(** The documents of the configuration store are the same. *)
Definition same_store (g g' : process) : Prop :=
  Conf.cs_cache <$> Conf.g_conf g' = Conf.cs_cache <$> Conf.g_conf g ∧
  Conf.g_delim g' = Conf.g_delim g ∧ Conf.g_machine_id g' = Conf.g_machine_id g.

Lemma on_machine_store {A : Type} (m : ST W A) g : same_store g (on_machine m g).2.
Proof.
  unfold on_machine, same_store. destruct g as [[s|] d i [[stores w] now]]; cbn; by destruct (m _).
Qed.

End process.
End NodeProcess.
