(* ===== verification/LdapConfig.v ===== *)
(** [setup/openldap/base_configure_ldap.py] and [setupReplication.py]: the
    configuration of an OpenLDAP server, through its database [cn=config] and
    through its files.

    The process is that of [NodeProcess].  The server, the library [ldap] and
    the shell are the class [Slapd]; the parser of LDIF is a parameter.  The
    values of an attribute are the texts its bytes encode.  [glob] is only
    called on a directory whose name has no pattern. *)
From Stdlib Require Import Ascii.
From stdpp Require Import sorting.
From S2P Require Import Prelude PyStr PyVal KvStore KvFiles KvDir ConfStore SchemaDoc NodeProcess.
Import PyStr Files Dir Shutil NodeProcess.

Module LdapConfig.

(** ** The server *)

(** Who a connection is bound as: the last bind counts. *)
Inductive identity := Simple (binddn pwd : string) | External.
Inductive mod_op := MOD_ADD | MOD_DELETE | MOD_REPLACE.
Record modification := Mod { mod_op_of : mod_op; mod_attr : string; mod_values : option (list string) }.
Notation record := (list (string * list string)).

(** [false] and [None] are an [LDAPError]. *)
Class Slapd (W : Type) := {
  sl_bind : identity → W → bool * W;
  sl_add : identity → string → record → W → bool * W;                     (* add_s *)
  sl_modify : identity → string → list modification → W → bool * W;       (* modify_s *)
  sl_search : identity → string → list string → W → option (list (string * record)) * W;   (* of one entry *)
  sl_system : string → W → Z * W;                                         (* os.system *)
  sl_popen : string → W → string * W;                                     (* os.popen(cmd).read() *)
  sl_hostname : W → string                                                (* socket.gethostname() *)
}.

(** The values the code computes for one configuration *)
Record config_values := ConfigValues {
  base_dn : string; bind_base_dn : string; install_dir : value; data_dir : value }.

Definition admin_db : string := "olcDatabase={0}config,cn=config".
Definition mdb : string := "olcDatabase={2}mdb,cn=config".
Definition config_dir : string := "/openldap/slapd.d/cn=config".

(** [s + v]: only a text can be added to a text. *)
Definition as_text (v : value) : res string := match v with VStr s => Ok s | _ => Err TypeError end.

Section config.
Context {W : Type} (cwd : list string) {S : Slapd W} (get_tree : W → tree) (set_tree : tree → W → W).
(** The records of a file *)
Context (ldif : string → res (list (string * record))).

Notation process := (Conf.singleton (W:=W)).
Notation on_files := (NodeProcess.on_files get_tree set_tree).

(** A request that raises [e] when it is refused *)
Definition request (e : exn) (f : W → bool * W) : ST process unit :=
  on_machine (λ w, let '(b, w') := f w in (if b : bool then Ok tt else Err e, w')).
Definition bind (who : identity) : ST process unit := request LDAPError (sl_bind who).
Definition system (cmd : string) : ST process Z := on_machine (λ w, let '(rc, w') := sl_system cmd w in (Ok rc, w')).
Definition popen (cmd : string) : ST process string := on_machine (λ w, let '(s, w') := sl_popen cmd w in (Ok s, w')).
Definition gethostname : ST process string := on_machine (λ w, (Ok (sl_hostname w), w)).
Definition quit {A} : ST process A := st_raise SystemExit.

(** [if os.system(cmd) != 0: quit()] *)
Definition system_or_quit (cmd : string) : ST process unit :=
  let! rc := system cmd in if decide (rc ≠ 0%Z) then quit else st_ret tt.

(** [try: m; except Exception: log] *)
Definition ignore (m : ST process unit) : ST process unit := st_except is_exception m (λ _, st_ret tt).

(** ** [Replication], operations on an open connection *)

Definition addattribute (who : identity) (dn attr_to_add val : string) : ST process unit :=
  request PlainException (sl_modify who dn [Mod MOD_ADD attr_to_add (Some [val])]).
Definition deleteattribute (who : identity) (dn attr_to_delete : string) : ST process unit :=
  ignore (request LDAPError (sl_modify who dn [Mod MOD_DELETE attr_to_delete None])).

(** A value at a time; what is there is read first. *)
Definition deleteattribute_old (who : identity) (dn attr_to_delete : string) : ST process unit :=
  let! ldap_result_id := on_machine (λ w,
    match sl_search who dn [attr_to_delete] w with (Some l, w') => (Ok l, w') | (None, w') => (Err LDAPError, w') end) in
  st_iter (λ '(_, result2), match result2 with
    | [] => st_ret tt
    | _ => match dget attr_to_delete result2 with
           | None => st_raise KeyError
           | Some vals => st_iter (λ val,
               if decide (val = "") then st_ret tt
               else ignore (request LDAPError (sl_modify who dn [Mod MOD_DELETE attr_to_delete (Some [val])]))) vals
           end
    end) ldap_result_id.

(** ** [BaseConfig] *)

Definition add_attribute (binddn dn : string) (r : record) (pwd : string) : ST process unit :=
  bind (Simple binddn pwd) ;;; request PlainException (sl_add (Simple binddn pwd) dn r).
Definition modify_attribute (dn attribute val : string) : ST process unit :=
  bind External ;;; request PlainException (sl_modify External dn [Mod MOD_REPLACE attribute (Some [val])]).

Definition safe_remove (filename : string) : ST process unit := ignore (on_files (os_remove cwd filename)).

(** [glob.glob(dir + '/*' + suffix)] *)
Definition glob (dir suffix : string) (fs : tree) : list string :=
  let d := dirname (dir +:+ "/*") in
  match listdir cwd fs d with
  | Ok names => path_join d <$> filter (λ n, startswith n "." = false ∧ endswith n suffix = true) names
  | Err _ => []
  end.
Definition remove_all (dir suffix : string) : ST process unit :=
  let! files := on_files (λ fs, (Ok (glob dir suffix fs), fs)) in st_iter safe_remove files.

Definition module_files : list string := ["cn=module{0}.ldif"; "cn=module{1}.ldif"; "cn=module{2}.ldif"].

(** The data is removed when [forceclean] is the text ['True']. *)
Definition cleanup (forceclean install_dir data_dir : value) : ST process unit :=
  let! inst := st_lift (as_text install_dir) in
  remove_all (inst +:+ config_dir +:+ "/cn=schema") "ppolicy.ldif" ;;;
  st_iter (λ module_file, safe_remove (inst +:+ config_dir +:+ "/" +:+ module_file)) module_files ;;;
  remove_all (inst +:+ config_dir +:+ "/olcDatabase={2}mdb") "" ;;;
  safe_remove (inst +:+ config_dir +:+ "/olcDatabase={2}mdb.ldif") ;;;
  (if py_eq forceclean (VStr "True") then
     let! data := st_lift (as_text data_dir) in remove_all data ""
   else st_ret tt) ;;;
  bind External ;;;
  deleteattribute External admin_db "olcRootPW".

Definition perform_ldif_operation (filename binddn rootpassword : string) : ST process unit :=
  let! text := on_files (λ fs, (read_path cwd fs filename, fs)) in
  let! all_records := st_lift (ldif text) in
  st_iter (λ '(dn, entry), add_attribute binddn dn entry rootpassword) all_records.

(** *** [perform_base_config], in the order of its statements *)

Definition dq : string := sep (ascii_of_nat 34).

Definition adminuser (cv : config_values) : string := before "dc=" (bind_base_dn cv).

(** The files of the database, and the password of the administrator *)
Definition prepare_files (rootpassword : string) (forceclean : value) (cv : config_values) : ST process string :=
  let! install_path := Conf.conf_call (Conf.get "util_config_file_index" "install_path") in
  let! mdb_dir := st_lift (p ← as_text install_path; Ok (p +:+ "/cortx/utils/conf")) in
  let! data := st_lift (as_text (data_dir cv)) in
  system_or_quit ("chown -R ldap.ldap " +:+ data) ;;;
  cleanup forceclean (install_dir cv) (data_dir cv) ;;;
  let! inst := st_lift (as_text (install_dir cv)) in
  on_files (copyfile cwd (mdb_dir +:+ "/olcDatabase={2}mdb.ldif") (inst +:+ config_dir +:+ "/olcDatabase={2}mdb.ldif")) ;;;
  system_or_quit "chgrp ldap /etc/openldap/certs/password" ;;;
  popen ("slappasswd -s " +:+ rootpassword).

Definition admin_access : string :=
  "{0}to * by dn.base=" +:+ dq +:+ "gidNumber=0+uidNumber=0,cn=peercred,cn=external,cn=auth" +:+ dq +:+
  " write by self write by * read".

Definition start_slapd (inst : string) : string :=
  "/usr/sbin/slapd -F " +:+ inst +:+ "/openldap/slapd.d -u ldap -h 'ldapi:/// ldap:///'".

Definition configure_admin (pwd : string) (cv : config_values) : ST process unit :=
  modify_attribute admin_db "olcRootDN" (adminuser cv +:+ "cn=config") ;;;
  modify_attribute admin_db "olcRootPW" pwd ;;;
  modify_attribute admin_db "olcAccess" admin_access ;;;
  system_or_quit "kill -15 $(pidof slapd)" ;;;
  let! inst := st_lift (as_text (install_dir cv)) in
  system_or_quit (start_slapd inst).

Definition password_access (cv : config_values) : string :=
  "{0}to attrs=userPassword by self write by dn.base=" +:+ dq +:+ bind_base_dn cv +:+ dq +:+
  " write by anonymous auth by * none".
Definition all_access (cv : config_values) : string :=
  "{1}to * by dn.base=" +:+ dq +:+ bind_base_dn cv +:+ dq +:+ " write by self write by * none".

(** The second [olcAccess] replaces the first. *)
Definition configure_mdb (pwd : string) (cv : config_values) : ST process unit :=
  st_except is_exception (modify_attribute mdb "olcSuffix" (base_dn cv))
    (λ _, modify_attribute mdb "olcSuffix" (base_dn cv)) ;;;
  modify_attribute mdb "olcRootDN" (bind_base_dn cv) ;;;
  let! data := st_lift (as_text (data_dir cv)) in
  modify_attribute mdb "olcDbDirectory" data ;;;
  bind External ;;;
  request PlainException (sl_modify External mdb [Mod MOD_ADD "olcDbMaxSize" (Some ["10737418240"])]) ;;;
  modify_attribute mdb "olcRootPW" pwd ;;;
  modify_attribute mdb "olcAccess" (password_access cv) ;;;
  modify_attribute mdb "olcAccess" (all_access cv).

(** [base_dn.split(',')[0].split('=')[1]] *)
Definition base_of (dn : string) : res string :=
  match split "=" (split1 "," dn).1 with _ :: b :: _ => Ok b | _ => Err IndexError end.

Definition root_entry (base : string) : record :=
  [("dc", [base]); ("o", [base]); ("description", ["Root entry for seagate.com."]);
   ("objectClass", ["top"; "dcObject"; "organization"])].
Definition overlay_entry (dn : string) : record :=
  [("objectClass", ["olcOverlayConfig"; "olcPPolicyConfig"]); ("olcOverlay", ["ppolicy"]);
   ("olcPPolicyDefault", ["cn=passwordDefault,ou=Policies," +:+ dn]); ("olcPPolicyHashCleartext", ["FALSE"]);
   ("olcPPolicyUseLockout", ["FALSE"]); ("olcPPolicyForwardUpdates", ["FALSE"])].
Definition policies_entry : record := [("objectClass", ["organizationalUnit"]); ("ou", ["Policies"])].
Definition policy_entry : record :=
  [("objectClass", ["pwdPolicy"; "person"; "top"]); ("cn", ["passwordDefault"]); ("sn", ["passwordDefault"]);
   ("pwdAttribute", ["userPassword"]); ("pwdReset", ["TRUE"]); ("pwdCheckQuality", ["0"]); ("pwdMinAge", ["0"]);
   ("pwdMaxAge", ["0"]); ("pwdMinLength", ["0"]); ("pwdInHistory", ["0"]); ("pwdMaxFailure", ["0"]);
   ("pwdFailureCountInterval", ["0"]); ("pwdLockout", ["FALSE"]); ("pwdLockoutDuration", ["0"]);
   ("pwdAllowUserChange", ["TRUE"]); ("pwdExpireWarning", ["0"]); ("pwdGraceAuthNLimit", ["0"]);
   ("pwdMustChange", ["FALSE"]); ("pwdSafeModify", ["FALSE"])].

Definition add_entries (rootpassword : string) (cv : config_values) : ST process unit :=
  let config_admin := adminuser cv +:+ "cn=config" in
  let! base := st_lift (base_of (base_dn cv)) in
  add_attribute (bind_base_dn cv) (base_dn cv) (root_entry base) rootpassword ;;;
  perform_ldif_operation "/opt/seagate/cortx/utils/conf/iam-constraints.ldif" config_admin rootpassword ;;;
  let! inst := st_lift (as_text (install_dir cv)) in
  perform_ldif_operation (inst +:+ "/openldap/schema/ppolicy.ldif") config_admin rootpassword ;;;
  perform_ldif_operation "/opt/seagate/cortx/utils/conf/ppolicymodule.ldif" config_admin rootpassword ;;;
  add_attribute config_admin ("olcOverlay=ppolicy," +:+ mdb) (overlay_entry (base_dn cv)) rootpassword ;;;
  add_attribute (bind_base_dn cv) ("ou=Policies," +:+ base_dn cv) policies_entry rootpassword ;;;
  add_attribute (bind_base_dn cv) ("cn=passwordDefault,ou=Policies," +:+ base_dn cv) policy_entry rootpassword.

Definition perform_base_config (rootpassword : option string) (forcecleanup : option value) (cv : config_values)
    : ST process unit :=
  match rootpassword with
  | None => quit
  | Some password =>
      let! pwd := prepare_files password (default (VBool false) forcecleanup) cv in
      configure_admin pwd cv ;;;
      configure_mdb pwd cv ;;;
      add_entries password cv
  end.

(** ** [Replication] *)

(** [Lines]: the list of hosts is a local variable, lost when the function
    returns. *)
Definition readinputhostfile (host_file_path : string) : ST process unit :=
  let! _ := on_files (λ fs, (readlines <$> read_path cwd fs host_file_path, fs)) in st_ret tt.

(** The name [hostlist] in the functions of the class: an attribute of the class
    is no variable of theirs, and the module has none of this name. *)
Definition hostlist : ST process (list string) := st_raise NameError.

Definition checkhostvalidity : ST process nat :=
  let! hosts := hostlist in
  st_iter (λ host, system_or_quit ("ping -c 1 " +:+ host)) hosts ;;;
  st_ret (length hosts).

(** One more than the place of the first host with this name *)
Fixpoint server_id_of (name : string) (hosts : list string) (serverid : nat) : nat :=
  match hosts with
  | [] => serverid
  | host :: hosts' => if decide (host = name) then serverid else server_id_of name hosts' (Datatypes.S serverid)
  end.
Definition getserveridfromhostfile : ST process nat :=
  let! hosts := hostlist in let! name := gethostname in st_ret (server_id_of name hosts 1).

Definition syncprov_module : record :=
  [("objectClass", ["olcModuleList"]); ("cn", ["module"]); ("olcModulePath", ["/usr/lib64/openldap"]);
   ("olcModuleLoad", ["syncprov.la"])].
Definition syncprov_overlay : record :=
  [("objectClass", ["olcOverlayConfig"; "olcSyncProvConfig"]); ("olcOverlay", ["syncprov"]); ("olcSpSessionLog", ["100"])].

Definition syncrepl (cv : config_values) (pwd host : string) (ridnum : nat) : string :=
  "rid=00" +:+ dec ridnum +:+ " provider=ldap://" +:+ host +:+ ":389/ bindmethod=simple binddn=" +:+ dq +:+
  bind_base_dn cv +:+ dq +:+ " credentials=" +:+ pwd +:+ " searchbase=" +:+ dq +:+ base_dn cv +:+ dq +:+
  " scope=sub schemachecking=on type=refreshAndPersist retry=" +:+ dq +:+ "30 5 300 3" +:+ dq +:+ " interval=00:00:05:00".

Fixpoint add_syncrepl (cv : config_values) (pwd : string) (ridnum : nat) (hosts : list string) : ST process unit :=
  match hosts with
  | [] => st_ret tt
  | host :: hosts' =>
      addattribute External mdb "olcSyncrepl" (syncrepl cv pwd host (Datatypes.S ridnum)) ;;;
      add_syncrepl cv pwd (Datatypes.S ridnum) hosts'
  end.

Definition setreplication (hostfile pwd : string) (cv : config_values) : ST process unit :=
  readinputhostfile hostfile ;;;
  let! totalhostcount := checkhostvalidity in
  let! server_id := getserveridfromhostfile in
  if decide (totalhostcount < server_id) then gethostname ;;; quit else
  bind (Simple (bind_base_dn cv) pwd) ;;;
  bind External ;;;
  deleteattribute External "cn=config" "olcserverid" ;;;
  addattribute External "cn=config" "olcserverid" (dec server_id) ;;;
  ignore (request LDAPError (sl_add External "cn=module,cn=config" syncprov_module)) ;;;
  request PlainException (sl_add External ("olcOverlay=syncprov," +:+ mdb) syncprov_overlay) ;;;
  deleteattribute External mdb "olcSyncrepl" ;;;
  let! hosts := hostlist in
  add_syncrepl cv pwd 0 hosts ;;;
  deleteattribute External mdb "olcMirrorMode" ;;;
  addattribute External mdb "olcMirrorMode" "TRUE".

End config.
End LdapConfig.

(** * Theorems

    What the base configuration leaves in the database, and what never
    happens. *)
Import LdapConfig.

Module LdapConfigSpec.

(** A value of an ordered attribute, without its index: the server numbers
    the values itself. *)
Fixpoint after_brace (s : string) : option string :=
  match s with
  | EmptyString => None
  | String c s' => if Ascii.eqb c "}" then Some s' else if is_digit c then after_brace s' else None
  end.
Definition unordered (s : string) : string :=
  match s with String "{" s' => default s (after_brace s') | _ => s end.

(** What is relied on of the server: the values an entry has for an attribute.
    A bind changes nothing, nor do the files while it runs; a modification that
    replaces leaves the value, one that adds adds it, neither touches anything
    else, and what is refused changes nothing; only an entry that is not there
    is added. *)
Class SlapdLaws {W} (S : Slapd W) (set_tree : tree → W → W) := {
  entry_values : W → string → string → list string;
  law_bind : ∀ who w dn a, entry_values (sl_bind who w).2 dn a = entry_values w dn a;
  law_files : ∀ fs w dn a, entry_values (set_tree fs w) dn a = entry_values w dn a;
  law_refused : ∀ who dn ms w w' dn' a, sl_modify who dn ms w = (false, w') → entry_values w' dn' a = entry_values w dn' a;
  law_replace : ∀ who dn a v w w', sl_modify who dn [Mod MOD_REPLACE a (Some [v])] w = (true, w') →
    unordered <$> entry_values w' dn a = [unordered v] ∧
    ∀ dn' a', (dn', a') ≠ (dn, a) → entry_values w' dn' a' = entry_values w dn' a';
  law_insert : ∀ who dn a v w w', sl_modify who dn [Mod MOD_ADD a (Some [v])] w = (true, w') →
    entry_values w' dn a = entry_values w dn a ++ [v] ∧
    ∀ dn' a', (dn', a') ≠ (dn, a) → entry_values w' dn' a' = entry_values w dn' a';
  law_add : ∀ who dn r w w', sl_add who dn r w = (true, w') →
    (∀ a, entry_values w dn a = []) ∧ ∀ dn' a, dn' ≠ dn → entry_values w' dn' a = entry_values w dn' a
}.

Section theory.
Context {W : Type} (cwd : list string) {S : Slapd W} (get_tree : W → tree) (set_tree : tree → W → W).
Context (ldif : string → res (list (string * list (string * list string)))).
Context {L : SlapdLaws S set_tree}.

Notation process := (Conf.singleton (W:=W)).
Definition vals (g : process) (dn a : string) : list string := entry_values (world g) dn a.

(** Only the attributes of [l] may differ. *)
Definition only (l : list (string * string)) (g g' : process) : Prop := ∀ dn a, (dn, a) ∉ l → vals g' dn a = vals g dn a.

Lemma only_refl l g : only l g g.
Proof. by intros dn a _. Qed.
Lemma only_trans l g1 g2 g3 : only l g1 g2 → only l g2 g3 → only l g1 g3.
Proof. intros H1 H2 dn a Hn. by rewrite H2, H1. Qed.
Lemma only_mono l l' g g' : l ⊆ l' → only l g g' → only l' g g'.
Proof. intros Hl H dn a Hn. apply H. set_solver. Qed.

(** *** Requests *)

Lemma request_run e f (g g' : process) :
  request e f g = (Ok tt, g') → ∃ w', f (world g) = (true, w') ∧ world g' = w'.
Proof.
  unfold request. intros Hr. pose proof (on_machine_world (λ w, let '(b, w') := f w in (if b : bool then Ok tt else Err e, w')) g) as [H1 H2].
  rewrite Hr in H1, H2. cbn in H1, H2. destruct (f (world g)) as [[] w']; [eauto|done].
Qed.

Lemma request_world e f (g : process) : world (request e f g).2 = (f (world g)).2.
Proof.
  unfold request. pose proof (on_machine_world (λ w, let '(b, w') := f w in (if b : bool then Ok tt else Err e, w')) g) as [_ ->].
  by destruct (f (world g)) as [[] w'].
Qed.

Lemma bind_vals who (g : process) dn a : vals (bind who g).2 dn a = vals g dn a.
Proof. unfold vals, bind. rewrite request_world. apply law_bind. Qed.

Lemma files_vals {A} (m : ST tree A) (g : process) dn a : vals (NodeProcess.on_files get_tree set_tree m g).2 dn a = vals g dn a.
Proof.
  unfold NodeProcess.on_files, vals. pose proof (on_machine_world (λ w, let '(r, fs) := m (get_tree w) in (r, set_tree fs w)) g) as [_ ->].
  destruct (m (get_tree (world g))) as [r fs]. apply (law_files fs).
Qed.

Lemma modify_exact dn a v (g g' : process) :
  modify_attribute dn a v g = (Ok tt, g') → unordered <$> vals g' dn a = [unordered v] ∧ only [(dn, a)] g g'.
Proof.
  unfold modify_attribute. intros (u & g1 & Hb & (w' & Hm & Hw)%request_run)%st_bind_ok.
  pose proof (bind_vals External g) as H1. rewrite Hb in H1. cbn [snd] in H1.
  destruct (law_replace _ _ _ _ _ _ Hm) as [Hv Ho]. unfold vals at 1. rewrite Hw. split; [done|].
  intros dn' a' Hn. unfold vals at 1. rewrite Hw, Ho by (intros [= -> ->]; apply Hn; left). apply H1.
Qed.

(** A refused modification changes nothing. *)
Lemma modify_refused dn a v (g g' : process) e : modify_attribute dn a v g = (Err e, g') → only [] g g'.
Proof.
  unfold modify_attribute, st_bind. pose proof (bind_vals External g) as H1.
  destruct (bind External g) as [[[]|e1] g1]; cbn [snd] in H1; [|intros [= <- <-]; by intros dn' a' _].
  intros Hr dn' a' _. rewrite <- H1. unfold vals. revert Hr. unfold request.
  pose proof (on_machine_world (λ w, let '(b, w') := sl_modify External dn [Mod MOD_REPLACE a (Some [v])] w in
    (if b : bool then Ok tt else Err PlainException, w')) g1) as [H2 H3].
  intros Hr. rewrite Hr in H2, H3. cbn in H2, H3.
  destruct (sl_modify _ _ _ _) as [[] w'] eqn:Hm; [done|]. rewrite H3. by eapply law_refused.
Qed.

Lemma add_exact binddn dn r pwd (g g' : process) :
  add_attribute binddn dn r pwd g = (Ok tt, g') →
  (∀ a, vals g dn a = []) ∧ ∀ dn' a, dn' ≠ dn → vals g' dn' a = vals g dn' a.
Proof.
  unfold add_attribute. intros (u & g1 & Hb & (w' & Hm & Hw)%request_run)%st_bind_ok.
  pose proof (bind_vals (Simple binddn pwd) g) as H1. rewrite Hb in H1. cbn [snd] in H1.
  destruct (law_add _ _ _ _ _ Hm) as [Hv Ho]. split; [intros a; rewrite <- H1; apply Hv|].
  intros dn' a Hn. unfold vals at 1. rewrite Hw, Ho by done. apply H1.
Qed.

(** *** The entry of the database *)

(** An entry that has a value keeps all of them when others are added. *)
Definition kept (dn : string) (m : ST process unit) : Prop :=
  ∀ g g', m g = (Ok tt, g') → (∃ a, vals g dn a ≠ []) → ∀ a, vals g' dn a = vals g dn a.

Lemma kept_add dn binddn dn' r pwd : kept dn (add_attribute binddn dn' r pwd).
Proof.
  intros g g' [He Ho]%add_exact [a Ha]. intros a'. apply Ho. intros ->. by rewrite He in Ha.
Qed.
Lemma kept_seq dn (m1 m2 : ST process unit) : kept dn m1 → kept dn m2 → kept dn (m1 ;;; m2).
Proof.
  intros H1 H2 g g' ([] & g1 & Hm1 & Hm2)%st_bind_ok [a Ha] a'.
  rewrite (H2 g1 g'), (H1 g g1); try done; [by exists a|]. exists a. by rewrite (H1 g g1); [|done|exists a].
Qed.
Lemma kept_lift {A} dn (r : res A) (f : A → ST process unit) : (∀ a, kept dn (f a)) → kept dn (st_bind (st_lift r) f).
Proof. intros Hf g g' (a & g1 & [= Hr <-] & Hm)%st_bind_ok. by eapply Hf. Qed.
Lemma kept_iter {A} dn (f : A → ST process unit) l : (∀ a, kept dn (f a)) → kept dn (st_iter f l).
Proof. intros Hf. induction l as [|a l IH]; [by intros g g' [= <-]|]. apply kept_seq; [apply Hf|apply IH]. Qed.
Lemma kept_ldif dn filename binddn pwd : kept dn (perform_ldif_operation cwd get_tree set_tree ldif filename binddn pwd).
Proof.
  intros g g' (t & g1 & Hf & Hm)%st_bind_ok Ha a.
  pose proof (files_vals (λ fs, (read_path cwd fs filename, fs)) g) as H1. rewrite Hf in H1. cbn [snd] in H1.
  rewrite <- H1. apply (kept_lift dn (ldif t) (st_iter (λ '(dn, entry), add_attribute binddn dn entry pwd))) with (g := g1); [|done|].
  - intros l. apply kept_iter. intros [dn' r]. apply kept_add.
  - destruct Ha as [x Hx]. exists x. by rewrite H1.
Qed.

Lemma kept_entries dn pwd cv : kept dn (add_entries cwd get_tree set_tree ldif pwd cv).
Proof.
  unfold add_entries. apply kept_lift. intros base. apply kept_seq; [apply kept_add|].
  apply kept_seq; [apply kept_ldif|]. apply kept_lift. intros inst.
  repeat (apply kept_seq; [first [apply kept_add|apply kept_ldif]|]). apply kept_add.
Qed.

(** The attributes that the configuration of the database writes *)
Definition written : list (string * string) :=
  (λ a, (mdb, a)) <$> ["olcSuffix"; "olcRootDN"; "olcDbDirectory"; "olcDbMaxSize"; "olcRootPW"; "olcAccess"].

Definition configured (pwd data : string) (cv : config_values) (g : process) : Prop :=
  unordered <$> vals g mdb "olcSuffix" = [unordered (base_dn cv)] ∧
  unordered <$> vals g mdb "olcRootDN" = [unordered (bind_base_dn cv)] ∧
  unordered <$> vals g mdb "olcDbDirectory" = [unordered data] ∧
  "10737418240" ∈ vals g mdb "olcDbMaxSize" ∧
  unordered <$> vals g mdb "olcRootPW" = [unordered pwd] ∧
  unordered <$> vals g mdb "olcAccess" = [unordered (all_access cv)].

Lemma only_keeps dn a l g g' : only l g g' → (dn, a) ∉ l → vals g' dn a = vals g dn a.
Proof. intros H. apply H. Qed.

Lemma mdb_run pwd cv (g g' : process) :
  configure_mdb pwd cv g = (Ok tt, g') → ∃ data, data_dir cv = VStr data ∧ configured pwd data cv g' ∧ only written g g'.
Proof.
  intros ([] & g1 & H1 & H)%st_bind_ok.
  assert (unordered <$> vals g1 mdb "olcSuffix" = [unordered (base_dn cv)] ∧ only [(mdb, "olcSuffix")] g g1) as [V1 O1].
  { unfold st_except in H1. destruct (modify_attribute mdb "olcSuffix" (base_dn cv) g) as [[[]|e] g0] eqn:Hm.
    - injection H1 as <-. by apply modify_exact.
    - destruct (is_exception e); [|done]. apply modify_exact in H1 as [V O]. split; [done|].
      eapply only_trans; [|exact O]. eapply only_mono; [|by eapply modify_refused]. set_solver. }
  apply st_bind_ok in H as ([] & g2 & [V2 O2]%modify_exact & H).
  apply st_bind_ok in H as (data & g2' & [= Hd <-] & H).
  apply st_bind_ok in H as ([] & g3 & [V3 O3]%modify_exact & H).
  apply st_bind_ok in H as ([] & g4 & Hb & H).
  assert (O4 : only [] g3 g4) by (intros dn a _; pose proof (bind_vals External g3 dn a) as Hv; by rewrite Hb in Hv).
  apply st_bind_ok in H as ([] & g5 & (w5 & Hm5 & Hw5)%request_run & H).
  destruct (law_insert _ _ _ _ _ _ Hm5) as [V5 O5']. rewrite <- Hw5 in V5, O5'.
  assert (O5 : only [(mdb, "olcDbMaxSize")] g4 g5) by (intros dn a Hn; apply O5'; intros [= -> ->]; apply Hn; left). clear O5'.
  apply st_bind_ok in H as ([] & g6 & [V6 O6]%modify_exact & H).
  apply st_bind_ok in H as ([] & g7 & [V7 O7]%modify_exact & [V8 O8]%modify_exact).
  exists data. split; [by destruct (data_dir cv); simplify_eq/=|].
  assert (Hne : ∀ a b : string, a ≠ b → (mdb, a) ∉ [(mdb, b)]) by (intros a b Hab; rewrite list_elem_of_singleton; by intros [= ->]).
  assert (Hnil : ∀ x : string * string, x ∉ []) by (intros x; apply not_elem_of_nil).
  split; [split_and!|].
  - rewrite (O8 mdb), (O7 mdb), (O6 mdb), (O5 mdb), (O4 mdb), (O3 mdb), (O2 mdb) by first [by apply Hne|apply Hnil]. done.
  - rewrite (O8 mdb), (O7 mdb), (O6 mdb), (O5 mdb), (O4 mdb), (O3 mdb) by first [by apply Hne|apply Hnil]. done.
  - rewrite (O8 mdb), (O7 mdb), (O6 mdb), (O5 mdb), (O4 mdb) by first [by apply Hne|apply Hnil]. done.
  - rewrite (O8 mdb), (O7 mdb), (O6 mdb) by by apply Hne. unfold vals at 1. rewrite V5. set_solver.
  - rewrite (O8 mdb), (O7 mdb) by by apply Hne. done.
  - done.
  - assert (Hs : ∀ a, (mdb, a) ∈ written → [(mdb, a)] ⊆ written) by (intros a Ha x; by intros ->%list_elem_of_singleton).
    assert (Hm : ∀ a h h', (mdb, a) ∈ written → only [(mdb, a)] h h' → only written h h')
      by (intros a h h' Ha; apply only_mono; by apply Hs).
    eapply only_trans; [by eapply Hm; [|exact O1]; apply (bool_decide_unpack _); vm_compute|].
    eapply only_trans; [by eapply Hm; [|exact O2]; apply (bool_decide_unpack _); vm_compute|].
    eapply only_trans; [by eapply Hm; [|exact O3]; apply (bool_decide_unpack _); vm_compute|].
    eapply only_trans; [by eapply only_mono; [|exact O4]; set_solver|].
    eapply only_trans; [by eapply Hm; [|exact O5]; apply (bool_decide_unpack _); vm_compute|].
    eapply only_trans; [by eapply Hm; [|exact O6]; apply (bool_decide_unpack _); vm_compute|].
    eapply only_trans; [by eapply Hm; [|exact O7]; apply (bool_decide_unpack _); vm_compute|].
    eapply Hm; [|exact O8]; by apply (bool_decide_unpack _); vm_compute.
Qed.

(** The base configuration asks an index that nothing loads. *)
Lemma never_configured password force cv (g : process) s :
  Conf.g_conf g = Some s → Conf.cs_cache s !! "util_config_file_index" = None →
  perform_base_config cwd get_tree set_tree ldif (Some password) force cv g = (Err (ConfError EINVAL), g).
Proof.
  intros Hg Hs. unfold perform_base_config, prepare_files, st_bind, Conf.conf_call.
  rewrite Hg. unfold Conf.get, Conf.get_val, Conf.with_index. rewrite Hs. by destruct g; simplify_eq/=.
Qed.

Lemma popen_run cmd (g g' : process) (r : string) : popen cmd g = (Ok r, g') → r = (sl_popen cmd (world g)).1.
Proof.
  unfold popen. intros Hr.
  pose proof (on_machine_world (λ w, let '(s, w') := sl_popen cmd w in (Ok s, w')) g) as [H1 _].
  rewrite Hr in H1. cbn in H1. destruct (sl_popen cmd (world g)). by injection H1.
Qed.

(** What the command answers for a password, on some state of the machine *)
Definition hash_of (password pwd : string) : Prop := ∃ w, pwd = (sl_popen ("slappasswd -s " +:+ password) w).1.

Lemma prepared_hash password force cv (g g' : process) pwd :
  prepare_files cwd get_tree set_tree password force cv g = (Ok pwd, g') → hash_of password pwd.
Proof.
  intros H. unfold prepare_files in H. repeat (apply st_bind_ok in H as (? & ? & _ & H)).
  apply popen_run in H. by eexists.
Qed.

(** C30.  In a process that has not loaded the index of its configuration, as
    none of this program has, the base configuration raises and touches
    nothing.  Where it returns, the database has the suffix, the administrator,
    the directory and the size it was given, the hash that [slappasswd] answered
    for the password it was given, and of its two rules of access the second
    alone: the rule about passwords is replaced by it. *)
Theorem base_config_exact password force cv (g : process) :
  (∀ s, Conf.g_conf g = Some s → Conf.cs_cache s !! "util_config_file_index" = None →
     perform_base_config cwd get_tree set_tree ldif (Some password) force cv g = (Err (ConfError EINVAL), g)) ∧
  ∀ g', perform_base_config cwd get_tree set_tree ldif (Some password) force cv g = (Ok tt, g') →
  ∃ pwd data, data_dir cv = VStr data ∧ hash_of password pwd ∧ configured pwd data cv g' ∧
    unordered (password_access cv) ∉ unordered <$> vals g' mdb "olcAccess".
Proof.
  split; [intros s; apply never_configured|].
  intros g' (pwd & g1 & Hp%prepared_hash & H)%st_bind_ok. apply st_bind_ok in H as ([] & g2 & _ & H).
  apply st_bind_ok in H as ([] & g3 & Hm & He). apply mdb_run in Hm as (data & Hd & Hc & _).
  exists pwd, data. split; [done|]. split; [done|].
  assert (Hk : ∀ a, vals g' mdb a = vals g3 mdb a).
  { apply (kept_entries mdb password cv g3 g' He). exists "olcSuffix". destruct Hc as [Hs _]. by destruct (vals g3 mdb "olcSuffix"). }
  unfold configured in *. rewrite !Hk. split; [done|].
  destruct Hc as (_ & _ & _ & _ & _ & ->). by intros Hin%list_elem_of_singleton.
Qed.

(** Nothing of the replication is ever set up: the list of the hosts is no
    variable of the functions that use it. *)
Lemma no_replication hostfile pwd cv (g : process) :
  is_ok (setreplication cwd get_tree set_tree hostfile pwd cv g).1 = false ∧
  ∀ dn a, vals (setreplication cwd get_tree set_tree hostfile pwd cv g).2 dn a = vals g dn a.
Proof.
  pose proof (files_vals (λ fs, (readlines <$> read_path cwd fs hostfile, fs)) g) as H1.
  unfold setreplication, readinputhostfile, checkhostvalidity, hostlist, st_bind, st_raise.
  destruct (NodeProcess.on_files _ _ _ g) as [[] g1]; by split.
Qed.

(** [True] is not the text ['True']: which data there is does not matter. *)
Lemma cleanup_ignores_data inst data data' (g : process) :
  cleanup cwd get_tree set_tree (VBool true) inst data g = cleanup cwd get_tree set_tree (VBool true) inst data' g.
Proof. done. Qed.

End theory.

(** ** A server

    Its entries, by name and attribute, and the files of its machine *)

Notation machine := (gmap (string * string) (list string) * tree)%type.

Definition has_entry (dn : string) (m : gmap (string * string) (list string)) : bool :=
  existsb (λ kv, bool_decide (kv.1.1 = dn)) (map_to_list m).
Definition put_all (dn : string) (r : list (string * list string)) (m : gmap (string * string) (list string)) :=
  foldr (λ kv m, <[(dn, kv.1) := kv.2]> m) m r.
Definition apply_mod (dn : string) (m : gmap (string * string) (list string)) (x : modification) :=
  let k := (dn, mod_attr x) in
  match mod_op_of x, mod_values x with
  | MOD_REPLACE, Some vs => <[k := vs]> m
  | MOD_ADD, Some vs => <[k := default [] (m !! k) ++ vs]> m
  | MOD_DELETE, Some vs => <[k := filter (λ v, v ∉ vs) (default [] (m !! k))]> m
  | _, None => base.delete k m
  end.

#[local] Instance server : Slapd machine := {
  sl_bind _ w := (true, w);
  sl_add _ dn r '(m, fs) := if has_entry dn m then (false, (m, fs)) else (true, (put_all dn r m, fs));
  sl_modify _ dn ms '(m, fs) := (true, (foldl (apply_mod dn) m ms, fs));
  sl_search _ _ _ w := (Some [], w);
  sl_system _ w := (0%Z, w);
  sl_popen cmd w := ("{SSHA}" +:+ cmd, w);
  sl_hostname _ := "h1"
}.
Definition put_tree (fs : tree) (w : machine) : machine := (w.1, fs).

Lemma put_all_other dn r m dn' a : dn' ≠ dn → put_all dn r m !! (dn', a) = m !! (dn', a).
Proof. intros Hn. induction r as [|kv r IH]; [done|]. simpl. rewrite lookup_insert_ne; [done|]. by intros [= -> _]. Qed.
Lemma has_entry_none dn m a : has_entry dn m = false → m !! (dn, a) = None.
Proof.
  intros H. destruct (m !! (dn, a)) as [vs|] eqn:Hm; [|done]. exfalso.
  assert (has_entry dn m = true); [|congruence]. apply existsb_exists. exists ((dn, a), vs).
  split; [by apply list_elem_of_In, elem_of_map_to_list|]. by apply bool_decide_eq_true_2.
Qed.

#[local] Instance server_laws : SlapdLaws server put_tree.
Proof.
  unshelve econstructor; [exact (λ w dn a, default [] (w.1 !! (dn, a)))|done|done|..].
  - by intros who dn ms [m fs] w' dn' a.
  - intros who dn a v [m fs] w' [= <-]. cbn. rewrite lookup_insert_eq. split; [done|].
    intros dn' a' Hn. by rewrite lookup_insert_ne by congruence.
  - intros who dn a v [m fs] w' [= <-]. cbn. rewrite lookup_insert_eq. split; [done|].
    intros dn' a' Hn. by rewrite lookup_insert_ne by congruence.
  - intros who dn r [m fs] w'. cbn. destruct (has_entry dn m) eqn:He; [done|]. intros [= <-]. split.
    + intros a. by rewrite has_entry_none.
    + intros dn' a Hn. cbn. by rewrite put_all_other.
Defined.

Definition conf_place : list string := ["opt"; "seagate"; "cortx"; "utils"; "conf"].
Definition config_place : list string := ["etc"; "openldap"; "slapd.d"; "cn=config"].
Definition files : tree := list_to_map (((λ p, (p, FDir)) <$>
    ([["opt"]; ["opt"; "seagate"]; ["opt"; "seagate"; "cortx"]; ["opt"; "seagate"; "cortx"; "utils"]; conf_place; ["data"];
      ["etc"]; ["etc"; "openldap"]; ["etc"; "openldap"; "slapd.d"]; config_place; config_place ++ ["olcDatabase={2}mdb"];
      ["etc"; "openldap"; "schema"]])) ++
  [(conf_place ++ ["olcDatabase={2}mdb.ldif"], FFile "db"); (conf_place ++ ["iam-constraints.ldif"], FFile "cn=iam");
   (conf_place ++ ["ppolicymodule.ldif"], FFile "cn=module"); (["etc"; "openldap"; "schema"; "ppolicy.ldif"], FFile "cn=ppolicy");
   (["data"; "data.mdb"], FFile "old"); (config_place ++ ["olcDatabase={2}mdb"; "overlay.ldif"], FFile "old")]).

Definition admin_config : config_values :=
  ConfigValues "dc=seagate,dc=com" "cn=admin,dc=seagate,dc=com" (VStr "/etc") (VStr "/data").
Definition records (text : string) : res (list (string * list (string * list string))) := Ok [(text, [("cn", ["x"])])].

Definition loaded : Conf.singleton (W:=machine) :=
  Conf.Singleton (Some (Conf.ConfStore ">"
    {["util_config_file_index" := Conf.Cache (KvStore.Store.Backend (λ _, st_raise (KvError ENOSYS)) (λ _, st_raise (KvError ENOSYS)))
        ">" false (KvPayload.Payload.Payload (VDict [("install_path", VStr "/opt/seagate")]) ">" []) true]}
    ∅ (VStr "m1") (VStr "m1") ∅ (∅, files) 0%Z)) (VStr ">") (VStr "m1") (∅, (∅, files), 0%Z).

Definition base_run := perform_base_config [] snd put_tree records (Some "secret") (Some (VStr "True")) admin_config loaded.

Lemma base_config_exact_witness :
  base_run.1 = Ok tt ∧ vals put_tree base_run.2 mdb "olcSuffix" = ["dc=seagate,dc=com"] ∧
  tree_of snd base_run.2 !! ["data"; "data.mdb"] = None ∧
  ∃ pwd data, data_dir admin_config = VStr data ∧ hash_of "secret" pwd ∧ configured put_tree pwd data admin_config base_run.2 ∧
    unordered (password_access admin_config) ∉ unordered <$> vals put_tree base_run.2 mdb "olcAccess".
Proof.
  assert (Hr : base_run.1 = Ok tt) by (vm_compute; reflexivity).
  split; [exact Hr|]. split; [vm_compute; reflexivity|]. split; [vm_compute; reflexivity|].
  apply (base_config_exact [] snd put_tree records "secret" (Some (VStr "True")) admin_config loaded).
  change (base_run = (Ok tt, base_run.2)). rewrite <- Hr. by destruct base_run.
Defined.

(** A command that fails ends the process by [SystemExit]. *)
Lemma base_config_quits :
  (perform_base_config (S := {| sl_system cmd w := (1%Z, w); sl_bind := sl_bind; sl_add := sl_add; sl_modify := sl_modify;
      sl_search := sl_search; sl_popen := sl_popen; sl_hostname := sl_hostname |})
     [] snd put_tree records (Some "secret") (Some (VStr "True")) admin_config loaded).1 = Err SystemExit.
Proof. vm_compute. reflexivity. Qed.

End LdapConfigSpec.
