(* ===== verification/EsSetup.v ===== *)
(** [utils/service/service_handler.py] and [utils/setup/elasticsearch]: the
    services of systemd, and the set-up of an Elasticsearch server.

    The machine has a tree of files ([KvDir]), runs commands and answers on its
    packages ([Nodes]), and controls services over D-Bus ([Systemd]). *)
From Stdlib Require Import Ascii.
From S2P Require Import Prelude PyStr PyVal KvPayload KvStore KvFiles KvDir KvDirSpec.
From S2P Require Import ConfStore HaDecision Validator SchemaDoc Packages NodeProcess.
Import PyStr Files Dir Shutil NodeProcess.

(** ** Services *)

Module Service.

Record service_state := ServiceState {
  _pid : string; _state : string; _substate : string; _command_line_path : list string }.

(** The manager of systemd: [false] and [None] are a [DBusException]. *)
Class Systemd (W : Type) := {
  sd_bus : W → bool * W;                            (* the interface of the manager *)
  sd_call : string → string → W → bool * W;         (* a method, on a service *)
  sd_reload : W → bool * W;
  sd_state : string → W → option service_state * W;
  sd_file_state : string → W → option string * W
}.

Section service.
Context {W : Type} {SD : Systemd W}.

Definition checked (e : exn) (f : W → bool * W) : ST W unit := λ w,
  let '(b, w') := f w in (if b : bool then Ok tt else Err e, w').

(** [ServiceHandler.get(handler_type)()]: after [DbusServiceHandler] the loop
    comes to [ServiceHandler] itself, which has no name. *)
Definition get_handler (handler_type : string) : ST W unit :=
  if decide (handler_type = "dbus") then checked DBusException sd_bus else st_raise AttributeError.

(** [Service(service_name, handler_type)]: the object is its name. *)
Definition new_service (service_name : string) (handler_type : option string) : ST W string :=
  get_handler (default "dbus" handler_type) ;;; st_ret service_name.

Definition unit_call (method service_name : string) : ST W unit := checked (SystemdError EINVAL) (sd_call method service_name).
Definition start : string → ST W unit := unit_call "StartUnit".
Definition stop : string → ST W unit := unit_call "StopUnit".
Definition restart : string → ST W unit := unit_call "RestartUnit".
Definition reload : ST W unit := checked (SystemdError EINVAL) sd_reload.
Definition enable (service_name : string) : ST W unit := unit_call "EnableUnitFiles" service_name ;;; reload.
Definition disable (service_name : string) : ST W unit := unit_call "DisableUnitFiles" service_name ;;; reload.
Definition get_state (service_name : string) : ST W service_state := λ w,
  match sd_state service_name w with (Some s, w') => (Ok s, w') | (None, w') => (Err DBusException, w') end.
Definition is_enabled (service_name : string) : ST W bool := λ w,
  match sd_file_state service_name w with
  | (Some status, w') => (Ok (bool_decide (status = "enabled")), w')
  | (None, w') => (Err (SystemdError EINVAL), w')
  end.

End service.
End Service.

(** ** The set-up of Elasticsearch *)

Module EsSetup.
Import Service.

Definition elasticsearch_cluster_name : string := "elasticsearch_cluster".
Definition http_port : string := "9200".
Definition elasticsearch_config_path : string := "/etc/elasticsearch/elasticsearch.yml".
Definition log_path : string := "/var/log/elasticsearch".
Definition elasticsearch_file_path : string := "/opt/seagate/cortx/utils/conf/elasticsearch".
Definition backup_path : string := elasticsearch_file_path +:+ "/elasticsearch.yml.bkp".
Definition opendistro_security_plugin : string := "/usr/share/elasticsearch/plugins/opendistro_security".
Definition rsyslog_conf : string := "/etc/rsyslog.conf".
Definition index : string := "Elasticsearch".

(** *** Texts *)

Definition start_line : string := "######## Start OpenDistro".
Definition end_line : string := "######## End OpenDistro".

(** The lines that are written back: [flag] is down inside the section. *)
Fixpoint kept (flag : bool) (lines : list string) : list string :=
  match lines with
  | [] => []
  | line :: lines' =>
      let flag := if startswith line start_line then false else flag in
      let flag := if startswith line end_line then true else flag in
      if flag && negb (startswith line end_line) then line :: kept flag lines' else kept flag lines'
  end.

Definition insert_line : string := "module(load=" +:+ sep (ascii_of_nat 34) +:+ "omelasticsearch" +:+ sep (ascii_of_nat 34) +:+ ")".

(** [line.strip('\n')] *)
Fixpoint lstrip_nl (s : string) : string :=
  match s with String c s' => if Ascii.eqb c nl then lstrip_nl s' else s | EmptyString => s end.
Fixpoint rstrip_nl (s : string) : string :=
  match s with
  | EmptyString => EmptyString
  | String c s' => match rstrip_nl s' with
                   | EmptyString => if Ascii.eqb c nl then EmptyString else sep c
                   | r => String c r
                   end
  end.
Definition strip_nl (s : string) : string := lstrip_nl (rstrip_nl s).

(** The new text of [rsyslog.conf] *)
Definition rsyslog_line (line : string) : string :=
  if decide (line = sep nl) then "" else
  sep nl +:+ line +:+ (if decide (strip_nl line = "#### MODULES ####") then sep nl +:+ insert_line +:+ sep nl else "").
Definition rsyslog_text (lines : list string) : string := String.concat "" (rsyslog_line <$> lines).

Section setup.
Context {W : Type} (cwd : list string).
Context (machine_id_file : W → option string) (urlparse : string → string * string * string).
Context (classes : list (string * (string → string → string → ST W (Store.backend W)))).
(** [str(v)] of a value that is not a text, an integer, a boolean or [None] *)
Context (repr : value → string).
Context {N : Validator.Nodes W} {SD : Systemd W} (ssh_open : string → string → string → string → W → bool * W).
Context (get_tree : W → tree) (set_tree : tree → W → W).

Notation process := (Conf.singleton (W:=W)).

Notation on_files := (NodeProcess.on_files get_tree set_tree).
Definition exists_path (path : string) : ST process bool := on_files (λ fs, (Ok (os_exists cwd fs path), fs)).
Definition conf_get (key : string) : ST process value := Conf.conf_call (Conf.get index key).

(** *** Files *)

Definition read_file_contents (filename : string) : ST process (list string) :=
  on_files (λ fs,
    (if os_exists cwd fs filename then readlines <$> read_path cwd fs filename else Err (OSError ENOENT), fs)).

Definition write_file (filename s : string) : ST process unit := on_files (write_path cwd filename (VStr s)).
(** [open(filename, 'a+')] *)
Definition append_file (filename s : string) : ST process unit :=
  on_files (λ fs, write_path cwd filename (VStr (match read_bytes cwd fs filename with Ok t => t | Err _ => "" end +:+ s)) fs).
Definition copy_file (src dst : string) : ST process unit := on_files (copyfile cwd src dst).

(** [shutil.rmtree(path, ignore_errors=True)] *)
Definition delete_path (path : string) : ST process unit :=
  on_files (λ fs,
    if os_exists cwd fs path then
      if os_isfile cwd fs path then os_remove cwd path fs
      else if os_isdir cwd fs path then (Ok tt, (rmtree cwd path fs).2)
      else (Ok tt, fs)
    else (Ok tt, fs)).

(** The command has no shell: its redirection is two more names of files. *)
Definition truncate_log_files (path : string) : ST process unit :=
  let! there := exists_path path in
  if there : bool then
    let! found := on_files (λ fs, (Ok (os_walk cwd fs path), fs)) in
    st_iter (λ '(root, files), st_iter (λ file,
      on_machine (Validator.run ("truncate -s 0 > " +:+ path_join root file)) ;;; st_ret tt) files) found
  else st_ret tt.

(** *** [class Elasticsearch] *)

Definition init_setup (conf_url : string) : ST process unit :=
  Conf.conf_class_load machine_id_file urlparse classes index conf_url (VBool true) [].

(** Each check is one of a new [PkgV]. *)
Definition pkg_check (m : ST (Packages.pkgv * W) unit) : ST process unit := on_machine (Packages.fresh m).

Definition validate (phase : string) : ST process Z :=
  if decide (phase = "post_install") then
    let! fqdn := on_machine (Validator.ask Validator.n_fqdn) in
    pkg_check (Packages.validate_pip3_pkgs fqdn (Packages.Versions [("elasticsearch", "7.12.0"); ("elasticsearch-dsl", "7.3.0")]) false) ;;;
    pkg_check (Packages.validate_rpm_pkgs fqdn (Packages.Versions [("opendistroforelasticsearch", "1.12.0")]) false) ;;;
    pkg_check (Packages.validate_pkg ssh_open "rpms" ["java-1.8.0-openjdk-headless"] None) ;;;
    st_ret 0%Z
  else if decide (phase = "config") then
    let! there := exists_path opendistro_security_plugin in
    if there : bool then st_raise PlainException else st_ret 0%Z
  else st_ret 0%Z.

Definition post_install : ST process Z :=
  delete_path opendistro_security_plugin ;;;
  let! file_contents := read_file_contents elasticsearch_config_path in
  write_file elasticsearch_config_path (String.concat "" (kept true file_contents)) ;;;
  st_ret 0%Z.

Definition str (v : value) : string := py_str repr v.

(** [storage_set[0]["server_nodes"]] *)
Definition first_nodes (storage_set : value) : res value :=
  let subscript_nodes v := match v with
                           | VDict d => match dget "server_nodes" d with Some x => Ok x | None => Err KeyError end
                           | _ => Err TypeError
                           end in
  match storage_set with
  | VList (x :: _) => subscript_nodes x
  | VList [] => Err IndexError
  | VDict _ => Err KeyError
  | VStr (String _ _) => Err TypeError
  | VStr EmptyString => Err IndexError
  | _ => Err TypeError
  end.

Fixpoint node_names (ids : list value) : ST process (list value) :=
  match ids with
  | [] => st_ret []
  | machine_id :: ids' =>
      let! name := conf_get ("server_node>" +:+ str machine_id +:+ ">name") in
      let! names := node_names ids' in
      st_ret (name :: names)
  end.

Definition get_config_entries : ST process (list string) :=
  let! machine_id := Conf.conf_class_machine_id machine_id_file in
  let! node_name := conf_get ("server_node>" +:+ str machine_id +:+ ">name") in
  let! cluster_id := conf_get ("server_node>" +:+ str machine_id +:+ ">cluster_id") in
  if is_null cluster_id then st_raise (SetupError EINVAL) else
  let! storage_set := conf_get ("cluster>" +:+ str cluster_id +:+ ">storage_set") in
  let! server_nodes_id := (if truthy storage_set then st_lift (first_nodes storage_set) else st_ret (VList [])) in
  let! srvnodes := (if truthy server_nodes_id then
                      let! ids := st_lift (Ha.py_iter server_nodes_id) in node_names ids
                    else st_ret []) in
  st_ret ["cluster.name: " +:+ elasticsearch_cluster_name;
          "node.name: " +:+ str node_name;
          "network.bind_host: " +:+ str (VList [VStr "localhost"; node_name]);
          "network.publish_host: " +:+ str (VList [node_name]);
          "discovery.seed_hosts: " +:+ str (VList srvnodes);
          "cluster.initial_master_nodes: " +:+ str (VList srvnodes);
          "http.port: " +:+ http_port].

Definition load_omelasticsearch : ST process unit :=
  let! file_contents := read_file_contents rsyslog_conf in
  if existsb (λ i, contains i insert_line) file_contents then st_ret tt
  else write_file rsyslog_conf (rsyslog_text file_contents).

Definition service_failed (e : exn) : bool := match e with SystemdError _ => true | _ => false end.

(** The configuration is restored from its copy when there is one. *)
Definition config : ST process Z :=
  let! there := exists_path backup_path in
  (if there : bool then copy_file backup_path elasticsearch_config_path
   else copy_file elasticsearch_config_path backup_path) ;;;
  let! config_to_add := get_config_entries in
  read_file_contents elasticsearch_config_path ;;;
  append_file elasticsearch_config_path (String.concat "" ((λ line, sep nl +:+ line) <$> config_to_add)) ;;;
  load_omelasticsearch ;;;
  st_except service_failed
    (on_machine (let! s := new_service "rsyslog.service" None in restart s)) (λ _, st_ret tt) ;;;
  st_ret 0%Z.

Definition reset : ST process Z :=
  let! service_obj := on_machine (new_service "elasticsearch.service" None) in
  let! service_state := on_machine (get_state service_obj) in
  (if decide (_state service_state = "active") then on_machine (stop service_obj) else st_ret tt) ;;;
  truncate_log_files log_path ;;;
  st_ret 0%Z.

Definition cleanup (pre_factory : bool) : ST process Z :=
  let! there := exists_path backup_path in
  (if there : bool then
     copy_file backup_path elasticsearch_config_path ;;; delete_path backup_path
   else st_ret tt) ;;;
  st_ret 0%Z.

(** [prepare], [init], [pre_upgrade] and [post_upgrade] *)
Definition no_action : ST process Z := st_ret 0%Z.

(** *** The command [elasticsearch_setup]; [test] is not modelled. *)

Definition run_command (name : string) (pre_factory : bool) : option (ST process Z) :=
  if decide (name = "post_install") then Some (validate name ;;; post_install)
  else if decide (name = "config") then Some (validate name ;;; config)
  else if decide (name = "reset") then Some reset
  else if decide (name = "cleanup") then Some (cleanup pre_factory)
  else if decide (name ∈ ["prepare"; "init"; "pre_upgrade"; "post_upgrade"]) then Some no_action
  else None.

(** The exit status: [argparse] exits with 2 on an unknown name. *)
Definition main (name url : string) (pre_factory : bool) : process → Z * process := λ g,
  match run_command name pre_factory with
  | None => (2%Z, g)
  | Some m =>
      match (init_setup url ;;; m) g with
      | (Ok rc, g') => (if decide (rc ≠ 0%Z) then EINVAL else 0%Z, g')
      | (Err (SetupError rc), g') => (rc, g')
      | (Err _, g') => (EINVAL, g')
      end
  end.

End setup.
End EsSetup.

(** * Theorems

    The set-up of Elasticsearch can be undone: whatever is configured and
    reset, and whether it fails, a clean-up gives the server back the
    configuration it had. *)
Import PyStr Files Dir DirSpec Shutil Service NodeProcess EsSetup.

Module EsSpec.

(** ** Texts *)

Definition marks (line : string) : bool := startswith line start_line || startswith line end_line.

Lemma kept_plain flag a l : Forall (λ x, marks x = false) a → kept flag (a ++ l) = (if flag then a else []) ++ kept flag l.
Proof.
  induction 1 as [|x a Hx Ha IH]; [by destruct flag|]. unfold marks in Hx. apply orb_false_iff in Hx as [H1 H2].
  cbn [app kept]. rewrite H1, H2. cbn [negb]. rewrite andb_true_r. destruct flag; [by rewrite IH|done].
Qed.

(** A section is taken out with its two marks. *)
Lemma kept_section a s b e l :
  Forall (λ x, marks x = false) a → startswith s start_line = true →
  Forall (λ x, marks x = false) b → startswith e end_line = true →
  kept true (a ++ s :: b ++ e :: l) = a ++ kept true l.
Proof.
  intros Ha Hs Hb He. rewrite kept_plain by done. f_equal.
  assert (Hse : startswith s end_line = false).
  { apply startswith_spec in Hs as [t ->]. reflexivity. }
  cbn [kept]. rewrite Hs, Hse. cbn [andb]. rewrite (kept_plain false) by done. cbn [app kept].
  assert (Hes : startswith e start_line = false).
  { apply startswith_spec in He as [t ->]. reflexivity. }
  by rewrite Hes, He.
Qed.

Lemma kept_clean flag l : Forall (λ x, marks x = false) (kept flag l).
Proof.
  revert flag. induction l as [|x l IH]; intros flag; [constructor|]. cbn [kept]. unfold marks.
  destruct (startswith x end_line) eqn:He; cbn [negb]; rewrite ?andb_false_r; [apply IH|]. rewrite andb_true_r.
  destruct (startswith x start_line) eqn:Hs; [apply IH|]. destruct flag; [|apply IH].
  constructor; [by rewrite Hs, He|apply IH].
Qed.

(** ** The tree of files *)

Definition conf_place : list string := ["etc"; "elasticsearch"; "elasticsearch.yml"].
Definition backup_place : list string := ["opt"; "seagate"; "cortx"; "utils"; "conf"; "elasticsearch"; "elasticsearch.yml.bkp"].
Definition plugin_place : list string := ["usr"; "share"; "elasticsearch"; "plugins"; "opendistro_security"].
Definition rsyslog_place : list string := ["etc"; "rsyslog.conf"].
Definition dirs : list (list string) :=
  [["etc"]; ["etc"; "elasticsearch"]; ["opt"]; ["opt"; "seagate"]; ["opt"; "seagate"; "cortx"];
   ["opt"; "seagate"; "cortx"; "utils"]; ["opt"; "seagate"; "cortx"; "utils"; "conf"];
   ["opt"; "seagate"; "cortx"; "utils"; "conf"; "elasticsearch"]].

Definition ready (fs : tree) : Prop := Forall (λ p, fs !! p = Some FDir) dirs.

Lemma walk_valid fs comps cur :
  Forall valid comps → (∀ n, n < length comps → node_at fs (cur ++ take n comps) = Some FDir) →
  walk_path fs cur comps = Ok (cur ++ comps).
Proof.
  intros Hv. revert cur. induction Hv as [|c comps Hc Hv IH]; intros cur Hd; [by rewrite app_nil_r|].
  cbn [walk_path]. rewrite step_valid by done.
  pose proof (Hd 0 ltac:(cbn; lia)) as H0. cbn in H0. rewrite app_nil_r in H0. rewrite H0. cbn [mbind res_bind].
  rewrite IH; [by rewrite <- app_assoc|]. intros n Hn. rewrite <- app_assoc. apply (Hd (S n)). cbn. lia.
Qed.

Lemma resolve_place fs cwd path p :
  path = "/" +:+ join "/" p → p ≠ [] → Forall valid p → (∀ n, n < length p → node_at fs (take n p) = Some FDir) →
  resolve fs cwd path = Ok p.
Proof.
  intros -> Hp Hv Hd. unfold resolve. rewrite decide_False by done.
  unfold Dir.start. rewrite startswith_app.
  change (split "/" ("/" +:+ join "/" p)) with ("" :: split "/" (join (sep "/") p)).
  rewrite split_join; [|done|eapply Forall_impl; [exact Hv|]; intros c Hc; apply Hc].
  cbn [walk_path]. change (step_path fs [] "") with (@Ok (list string) []). cbn [mbind res_bind].
  by apply walk_valid.
Qed.

Ltac solve_place :=
  match goal with H : ready _ |- _ => unfold ready, dirs in H; rewrite !Forall_cons in H; deex end;
  apply resolve_place; [reflexivity|done|repeat (apply Forall_cons_2; [by repeat split|]); by apply Forall_nil_2|];
  intros n Hn;
  do 8 (destruct n as [|n];
    [first [done | by (unfold node_at; rewrite decide_False by done) | by (cbn in Hn; lia)]|]); cbn in Hn; lia.

Lemma resolve_conf fs cwd : ready fs → resolve fs cwd elasticsearch_config_path = Ok conf_place.
Proof. intros H. solve_place. Qed.
Lemma resolve_backup fs cwd : ready fs → resolve fs cwd backup_path = Ok backup_place.
Proof. intros H. solve_place. Qed.
Lemma resolve_rsyslog fs cwd : ready fs → resolve fs cwd rsyslog_conf = Ok rsyslog_place.
Proof. intros H. solve_place. Qed.

(** A walk that does not fail comes to the place that its names spell. *)
Lemma walk_place fs comps cur p : Forall valid comps → walk_path fs cur comps = Ok p → p = cur ++ comps.
Proof.
  intros Hv. revert cur. induction Hv as [|c comps Hc Hv IH]; intros cur; cbn [walk_path]; [intros [= <-]; by rewrite app_nil_r|].
  rewrite step_valid by done. destruct (node_at fs cur) as [[]|]; cbn [mbind res_bind]; [|done|done].
  intros ->%IH. by rewrite <- app_assoc.
Qed.

(** The copy holds the text [s]. *)
Record configured (s : string) (fs : tree) : Prop := Configured {
  co_ready : ready fs;
  co_conf : ∃ t, fs !! conf_place = Some (FFile t);
  co_backup : fs !! backup_place = Some (FFile s)
}.

(** The configuration has the text [s], and there is no copy. *)
Record pristine (s : string) (fs : tree) : Prop := Pristine {
  pr_ready : ready fs;
  pr_conf : fs !! conf_place = Some (FFile s);
  pr_backup : fs !! backup_place = None
}.

Definition holds (s : string) (fs : tree) : Prop := configured s fs ∨ pristine s fs.

(** Nothing happens to the configuration, to its copy and to their directories. *)
Definition preserves (fs fs' : tree) : Prop := ∀ p, p ∈ conf_place :: backup_place :: dirs → fs' !! p = fs !! p.
Definition stable (Q : tree → Prop) : Prop := ∀ fs fs', preserves fs fs' → Q fs → Q fs'.

Lemma ready_preserved fs fs' : (∀ p, p ∈ dirs → fs' !! p = fs !! p) → ready fs → ready fs'.
Proof. unfold ready. rewrite !Forall_forall. intros Hp Hr p Hin. rewrite (Hp p Hin). by apply Hr. Qed.

Lemma ready_write fs q n : bool_decide (q ∈ dirs) = false → ready fs → ready (<[q := n]> fs).
Proof.
  intros Hq%bool_decide_eq_false. apply ready_preserved. intros p Hp. apply lookup_insert_ne. by intros <-.
Qed.

Lemma stable_configured s : stable (configured s).
Proof.
  intros fs fs' Hp [Hr Hc Hb]. constructor.
  - eapply ready_preserved; [|done]. intros p Hin. apply Hp. by do 2 right.
  - rewrite (Hp conf_place) by left. done.
  - rewrite (Hp backup_place) by (right; left). done.
Qed.
Lemma stable_pristine s : stable (pristine s).
Proof.
  intros fs fs' Hp [Hr Hc Hb]. constructor.
  - eapply ready_preserved; [|done]. intros p Hin. apply Hp. by do 2 right.
  - rewrite (Hp conf_place) by left. done.
  - rewrite (Hp backup_place) by (right; left). done.
Qed.
Lemma stable_holds s : stable (holds s).
Proof. intros fs fs' Hp [Hc|Hc]; [left; by eapply stable_configured|right; by eapply stable_pristine]. Qed.

Lemma write_place cwd path p s fs :
  resolve fs cwd path = Ok p → p ≠ [] → fs !! p ≠ Some FDir → write_path cwd path (VStr s) fs = (Ok tt, <[p := FFile s]> fs).
Proof.
  intros Hr Hp Hd. unfold write_path. rewrite Hr. unfold node_at. rewrite decide_False by done.
  destruct (fs !! p) as [[]|]; [done|done..].
Qed.
Lemma copy_place cwd src dst p q s fs :
  resolve fs cwd src = Ok p → p ≠ [] → fs !! p = Some (FFile s) →
  resolve fs cwd dst = Ok q → q ≠ [] → fs !! q ≠ Some FDir → copyfile cwd src dst fs = (Ok tt, <[q := FFile s]> fs).
Proof.
  intros Hp Hpn Hs Hq Hqn Hd. unfold copyfile, st_bind, read_bytes. rewrite Hp. cbn [mbind res_bind].
  unfold node_at. rewrite decide_False by done. rewrite Hs. by apply write_place.
Qed.
Lemma exists_place cwd path p fs : resolve fs cwd path = Ok p → p ≠ [] → os_exists cwd fs path = bool_decide (is_Some (fs !! p)).
Proof. intros Hp Hn. unfold os_exists, stat. rewrite Hp. unfold node_at. by rewrite decide_False. Qed.

(** ** The process *)

Section process.
Context {W : Type} (cwd : list string).
Context (machine_id_file : W → option string) (urlparse : string → string * string * string).
Context (classes : list (string * (string → string → string → ST W (Store.backend W)))).
Context (repr : value → string).
Context {N : Validator.Nodes W} {SD : Systemd W} (ssh_open : string → string → string → string → W → bool * W).
Context (get_tree : W → tree) (set_tree : tree → W → W).

(** The files are a part of the machine; commands and services leave the
    configuration of Elasticsearch, its copy and their directories alone. *)
Record node_laws : Prop := NodeLaws {
  law_tree fs w : get_tree (set_tree fs w) = fs;
  law_run cmd w : preserves (get_tree w) (get_tree (Validator.n_run cmd w).2);
  law_bus w : preserves (get_tree w) (get_tree (sd_bus w).2);
  law_call method service w : preserves (get_tree w) (get_tree (sd_call method service w).2);
  law_state service w : preserves (get_tree w) (get_tree (sd_state service w).2)
}.
Context (L : node_laws).
Implicit Types (Q : tree → Prop).

Notation process := (Conf.singleton (W:=W)).
Notation on_files := (NodeProcess.on_files get_tree set_tree).
Notation tree_of := (NodeProcess.tree_of get_tree).
Notation keeps := (NodeProcess.keeps get_tree).
Notation files_run := (NodeProcess.files_run get_tree set_tree (law_tree L)).
Notation keep_files := (NodeProcess.keep_files get_tree set_tree (law_tree L)).

Lemma exists_run path p g :
  resolve (tree_of g) cwd path = Ok p → p ≠ [] →
  ∃ g', exists_path cwd get_tree set_tree path g = (Ok (bool_decide (is_Some (tree_of g !! p))), g') ∧ tree_of g' = tree_of g.
Proof.
  intros Hp Hn. unfold exists_path. apply files_run. by rewrite (exists_place _ _ p).
Qed.

(** *** What keeps a property of the files *)

Lemma keeps_stable {A : Type} Q (m : ST W A) :
  stable Q → (∀ w, preserves (get_tree w) (get_tree (m w).2)) → keeps Q (on_machine m).
Proof. intros Hs Hm. apply keep_machine. intros w. by apply Hs. Qed.

Lemma preserves_refl fs : preserves fs fs.
Proof. by intros p. Qed.
Lemma preserves_trans fs1 fs2 fs3 : preserves fs1 fs2 → preserves fs2 fs3 → preserves fs1 fs3.
Proof. intros H1 H2 p Hp. by rewrite H2, H1. Qed.

Notation config := (config cwd machine_id_file repr get_tree set_tree).
Notation cleanup := (cleanup cwd get_tree set_tree).
Notation reset := (reset cwd get_tree set_tree).
Notation entries := (get_config_entries machine_id_file repr).

Lemma keep_names Q ids : keeps Q (node_names (W:=W) repr ids).
Proof.
  induction ids as [|x ids IH]; [apply keep_ret|]. cbn [node_names].
  apply keep_bind; [apply keep_conf_get|intros name]. apply keep_bind; [done|intros; apply keep_ret].
Qed.

Ltac keep :=
  repeat first
    [ apply keep_machine_id | apply keep_names | apply keep_conf_get | apply keep_ret | apply keep_raise
    | apply keep_lift | apply keep_bind; [|intros ?] | case_match ].

Lemma keeps_entries Q : keeps Q entries.
Proof. unfold get_config_entries. keep. Qed.

Lemma keeps_read Q path : keeps Q (read_file_contents cwd get_tree set_tree path).
Proof. by apply keep_files. Qed.

Lemma preserves_write fs q n : bool_decide (q ∈ conf_place :: backup_place :: dirs) = false → preserves fs (<[q := n]> fs).
Proof. intros Hq%bool_decide_eq_false p Hp. apply lookup_insert_ne. by intros <-. Qed.

(** The copy holds [s], the configuration [t]. *)
Definition settled (s t : string) (fs : tree) : Prop := configured s fs ∧ fs !! conf_place = Some (FFile t).

Lemma stable_settled s t : stable (settled s t).
Proof.
  intros fs fs' Hp [Hc Ht]. split; [by eapply stable_configured|]. by rewrite (Hp conf_place) by left.
Qed.

Lemma keeps_rsyslog Q : stable Q → (∀ fs, Q fs → ready fs) → keeps Q (load_omelasticsearch cwd get_tree set_tree).
Proof.
  intros Hs Hr. unfold load_omelasticsearch. apply keep_bind; [apply keeps_read|intros lines].
  case_match; [apply keep_ret|]. apply keep_files. intros fs Hq. unfold write_path.
  rewrite resolve_rsyslog by auto. cbn. destruct (node_at fs rsyslog_place) as [[]|]; [done|..];
    (eapply Hs; [by apply preserves_write|done]).
Qed.

Lemma keeps_service {A : Type} Q (m : string → ST W A) name :
  stable Q → (∀ s w, preserves (get_tree w) (get_tree (m s w).2)) →
  keeps Q (on_machine (let! s := new_service name None in m s)).
Proof.
  intros Hs Hm. apply keeps_stable; [done|]. intros w. unfold new_service, get_handler, checked, st_bind.
  cbn [default from_option]. rewrite decide_True by done. pose proof (law_bus L w) as Hb.
  destruct (sd_bus w) as [[] w1]; cbn in *; [by eapply preserves_trans|done].
Qed.

Lemma keeps_restart Q : stable Q →
  keeps Q (st_except service_failed (on_machine (let! s := new_service "rsyslog.service" None in restart s)) (λ _, st_ret tt)).
Proof.
  intros Hs. apply keep_except; [|intros; apply keep_ret]. apply keeps_service; [done|].
  intros s w. unfold restart, unit_call, checked. pose proof (law_call L "RestartUnit" s w).
  by destruct (sd_call _ s w).
Qed.

(** *** [config] *)

Lemma holds_ready s fs : holds s fs → ready fs.
Proof. by intros [[? ? ?]|[? ? ?]]. Qed.

Lemma configured_restored s fs : configured s fs → settled s s (<[conf_place := FFile s]> fs).
Proof.
  intros [Hr Hc Hb]. split; [|by rewrite lookup_insert_eq]. constructor; [by apply ready_write| |].
  - rewrite lookup_insert_eq. eauto.
  - by rewrite lookup_insert_ne.
Qed.

(** The first step: afterwards both files have the first text. *)
Definition back_up : ST process unit :=
  let! there := exists_path cwd get_tree set_tree backup_path in
  if there : bool then copy_file cwd get_tree set_tree backup_path elasticsearch_config_path
  else copy_file cwd get_tree set_tree elasticsearch_config_path backup_path.

Lemma back_up_run s g : holds s (tree_of g) → ∃ g1, back_up g = (Ok tt, g1) ∧ settled s s (tree_of g1).
Proof.
  intros Hh. pose proof (holds_ready _ _ Hh) as Hr. unfold back_up.
  destruct (exists_run backup_path backup_place g) as (g1 & Hex & Ht); [by apply resolve_backup|done|].
  rewrite (st_bind_run _ _ _ _ _ Hex). rewrite <- Ht in Hh, Hr.
  destruct Hh as [Hc|[_ Hc Hb]].
  - pose proof Hc as [_ [t Hconf] Hb]. rewrite <- Ht, Hb. cbn [bool_decide decide is_Some_dec].
    destruct (files_run (copyfile cwd backup_path elasticsearch_config_path) g1 tt (<[conf_place := FFile s]> (tree_of g1)))
      as (g2 & Hrun & Hg2).
    { eapply copy_place; [by apply resolve_backup|done|done|by apply resolve_conf|done|by rewrite Hconf]. }
    exists g2. split; [exact Hrun|]. rewrite Hg2. by apply configured_restored.
  - rewrite <- Ht, Hb. cbn [bool_decide decide is_Some_dec].
    destruct (files_run (copyfile cwd elasticsearch_config_path backup_path) g1 tt (<[backup_place := FFile s]> (tree_of g1)))
      as (g2 & Hrun & Hg2).
    { eapply copy_place; [by apply resolve_conf|done|done|by apply resolve_backup|done|by rewrite Hb]. }
    exists g2. split; [exact Hrun|]. rewrite Hg2.
    assert (Hcp : <[backup_place := FFile s]> (tree_of g1) !! conf_place = Some (FFile s)) by (by rewrite lookup_insert_ne).
    split; [|done]. constructor; [by apply ready_write|eauto|by rewrite lookup_insert_eq].
Qed.

Lemma append_run s t u g :
  settled s t (tree_of g) →
  ∃ g', append_file cwd get_tree set_tree elasticsearch_config_path u g = (Ok tt, g') ∧ settled s (t +:+ u) (tree_of g').
Proof.
  intros [[Hr Hc Hb] Ht]. unfold append_file.
  destruct (files_run (λ fs, write_path cwd elasticsearch_config_path
      (VStr (match read_bytes cwd fs elasticsearch_config_path with Ok t => t | Err _ => "" end +:+ u)) fs)
      g tt (<[conf_place := FFile (t +:+ u)]> (tree_of g))) as (g' & Hrun & Hg').
  { assert (Hrb : read_bytes cwd (tree_of g) elasticsearch_config_path = Ok t).
    { unfold read_bytes. rewrite resolve_conf by done. cbn [mbind res_bind]. unfold node_at.
      rewrite decide_False by done. by rewrite Ht. }
    rewrite Hrb. eapply write_place; [by apply resolve_conf|done|by rewrite Ht]. }
  exists g'. split; [exact Hrun|]. rewrite Hg'. split; [|by rewrite lookup_insert_eq].
  constructor; [by apply ready_write|rewrite lookup_insert_eq; eauto|by rewrite lookup_insert_ne].
Qed.

Lemma back_up_store g : same_store g (back_up g).2.
Proof.
  unfold back_up, st_bind.
  assert (Hs : same_store g (exists_path cwd get_tree set_tree backup_path g).2) by apply on_machine_store.
  destruct (exists_path _ _ _ _ g) as [r g1]. destruct r as [there|e]; [|done]. cbn in Hs.
  assert (Ht : ∀ g2 : process, same_store g1 g2 → same_store g g2).
  { intros g2 (Ha & Hb & Hc). destruct Hs as (Ha' & Hb' & Hc'). unfold same_store. by rewrite Ha, Hb, Hc. }
  destruct there; apply Ht, on_machine_store.
Qed.

Lemma keeps_append s u : keeps (configured s) (append_file cwd get_tree set_tree elasticsearch_config_path u).
Proof.
  intros g Hc. pose proof Hc as [_ [t Ht] _]. destruct (append_run s t u g) as (g' & -> & [Hc' _]); [done|exact Hc'].
Qed.

Lemma config_configured s g : holds s (tree_of g) → configured s (tree_of (config g).2).
Proof.
  intros Hh. destruct (back_up_run s g Hh) as (g1 & Hb & [Hc _]). 
  assert (Heq : config g = (back_up ;;; (
    let! config_to_add := entries in
    read_file_contents cwd get_tree set_tree elasticsearch_config_path ;;;
    append_file cwd get_tree set_tree elasticsearch_config_path (String.concat "" ((λ line, sep nl +:+ line) <$> config_to_add)) ;;;
    load_omelasticsearch cwd get_tree set_tree ;;;
    st_except service_failed (on_machine (let! s := new_service "rsyslog.service" None in restart s)) (λ _, st_ret tt) ;;;
    st_ret 0%Z)) g).
  { unfold EsSetup.config, back_up, st_bind. by destruct (exists_path _ _ _ _ g) as [[]]. }
  rewrite Heq, (st_bind_run _ _ _ _ _ Hb). clear Heq. revert Hc.
  match goal with |- _ → configured _ (tree_of (?m _).2) => enough (keeps (configured s) m) as Hk by apply Hk end.
  apply keep_bind; [apply keeps_entries|intros l]. apply keep_bind; [apply keeps_read|intros _].
  apply keep_bind; [apply keeps_append|intros _].
  apply keep_bind; [apply keeps_rsyslog; [apply stable_configured|apply co_ready]|intros _].
  apply keep_bind; [apply keeps_restart, stable_configured|intros _]. apply keep_ret.
Qed.

(** What [config] does: when it returns, the configuration is the first
    text and the entries of this run, however often it has run before, and the
    first text is kept in the copy. *)
Theorem config_exact s g rc g' :
  holds s (tree_of g) → config g = (Ok rc, g') →
  rc = 0%Z ∧ ∃ g1 l, same_store g g1 ∧ (entries g1).1 = Ok l ∧
    tree_of g' !! conf_place = Some (FFile (s +:+ String.concat "" ((λ line, sep nl +:+ line) <$> l))) ∧
    tree_of g' !! backup_place = Some (FFile s).
Proof.
  intros Hh Hrun. destruct (back_up_run s g Hh) as (g1 & Hb & Hset).
  pose proof (back_up_store g) as Hst. rewrite Hb in Hst.
  unfold EsSetup.config in Hrun. fold back_up in Hrun.
  apply st_bind_ok in Hrun as (there & g0 & Hex & Hrun). apply st_bind_ok in Hrun as ([] & g1' & Hcp & Hrun).
  assert (g1' = g1) as ->. { unfold back_up in Hb. rewrite (st_bind_run _ _ _ _ _ Hex), Hcp in Hb. congruence. }
  apply st_bind_ok in Hrun as (l & g2 & Hent & Hrun). apply st_bind_ok in Hrun as (lines & g3 & Hread & Hrun).
  apply st_bind_ok in Hrun as ([] & g4 & Happ & Hrun). apply st_bind_ok in Hrun as ([] & g5 & Hrs & Hrun).
  apply st_bind_ok in Hrun as ([] & g6 & Hre & Hrun). injection Hrun as <- <-.
  pose proof (keeps_entries (settled s s) g1 Hset) as H2. rewrite Hent in H2.
  pose proof (keeps_read (settled s s) elasticsearch_config_path g2 H2) as H3. rewrite Hread in H3.
  destruct (append_run s s (String.concat "" ((λ line, sep nl +:+ line) <$> l)) g3 H3) as (g4' & Happ' & H4).
  rewrite Happ in Happ'. injection Happ' as <-.
  pose proof (keeps_rsyslog _ (stable_settled s _) (λ fs Hfs, co_ready _ _ (proj1 Hfs)) g4 H4) as H5. rewrite Hrs in H5.
  pose proof (keeps_restart _ (stable_settled s _) g5 H5) as H6. rewrite Hre in H6.
  split; [done|]. exists g1, l. rewrite Hent. destruct H6 as [[_ _ Hbk] Hcf]. done.
Qed.

(** *** [cleanup] *)

Lemma cleanup_run s b g : holds s (tree_of g) → ∃ g', cleanup b g = (Ok 0%Z, g') ∧ pristine s (tree_of g').
Proof.
  intros Hh. pose proof (holds_ready _ _ Hh) as Hr. unfold EsSetup.cleanup.
  destruct (exists_run backup_path backup_place g) as (g1 & Hex & Ht); [by apply resolve_backup|done|].
  rewrite (st_bind_run _ _ _ _ _ Hex). rewrite <- Ht in Hh, Hr. rewrite <- Ht.
  destruct Hh as [Hc|Hp].
  2: { pose proof Hp as [_ _ ->]. cbn [bool_decide decide is_Some_dec]. exists g1. by split. }
  pose proof Hc as [_ [t Hconf] Hb]. rewrite Hb. cbn [bool_decide decide is_Some_dec].
  destruct (files_run (copyfile cwd backup_path elasticsearch_config_path) g1 tt (<[conf_place := FFile s]> (tree_of g1)))
    as (g2 & Hrun & Hg2).
  { eapply copy_place; [by apply resolve_backup|done|done|by apply resolve_conf|done|by rewrite Hconf]. }
  assert (Hset : settled s s (tree_of g2)) by (rewrite Hg2; by apply configured_restored).
  destruct Hset as [[Hr2 _ Hb2] Hc2].
  destruct (files_run (λ fs,
      if os_exists cwd fs backup_path then
        if os_isfile cwd fs backup_path then os_remove cwd backup_path fs
        else if os_isdir cwd fs backup_path then (Ok tt, (rmtree cwd backup_path fs).2) else (Ok tt, fs)
      else (Ok tt, fs)) g2 tt (base.delete backup_place (tree_of g2))) as (g3 & Hdel & Hg3).
  { rewrite (exists_place cwd backup_path backup_place) by (done || by apply resolve_backup).
    unfold os_isfile, stat, os_remove. rewrite resolve_backup by done. unfold node_at.
    rewrite decide_False by done. by rewrite Hb2. }
  exists g3. split; [by rewrite (st_bind_run _ _ _ _ _ (eq_trans (st_bind_run _ _ _ _ _ Hrun) Hdel))|].
  rewrite Hg3. constructor.
  - revert Hr2. apply ready_preserved. intros p Hp. apply lookup_delete_ne. intros <-.
    by apply (bool_decide_eq_true_2 _) in Hp; vm_compute in Hp.
  - by rewrite lookup_delete_ne.
  - by rewrite lookup_delete_eq.
Qed.

(** *** [reset] *)

Lemma keeps_reset Q : stable Q → keeps Q reset.
Proof.
  intros Hs. unfold EsSetup.reset.
  assert (Hm : ∀ (A : Type) (m : ST W A), (∀ w, preserves (get_tree w) (get_tree (m w).2)) → keeps Q (on_machine m))
    by (intros; by apply keeps_stable).
  apply keep_bind.
  { pose proof (keeps_service Q st_ret "elasticsearch.service" Hs (λ s w, preserves_refl (get_tree w))) as Hk.
    intros g Hg. specialize (Hk g Hg). unfold st_bind in Hk.
    revert Hk. unfold tree_of. destruct (on_machine_world (new_service "elasticsearch.service" None) g) as [_ ->].
    match goal with |- context [on_machine ?m g] => destruct (on_machine_world m g) as [_ ->] end.
    by destruct (new_service _ _ _) as [[]]. }
  intros service. apply keep_bind.
  { apply Hm. intros w. unfold get_state. pose proof (law_state L service w). by destruct (sd_state service w) as [[]]. }
  intros st. apply keep_bind.
  { case_match; [|apply keep_ret]. apply Hm. intros w. unfold stop, unit_call, checked.
    pose proof (law_call L "StopUnit" service w). by destruct (sd_call _ service w). }
  intros _. apply keep_bind; [|intros; apply keep_ret]. unfold truncate_log_files.
  apply keep_bind; [by apply keep_files|intros there]. destruct there; [|apply keep_ret].
  apply keep_bind; [by apply keep_files|intros found]. apply keep_iter. intros [root files].
  apply keep_iter. intros file. apply keep_bind; [|intros; apply keep_ret]. apply Hm.
  intros w. unfold Validator.run. pose proof (law_run L ("truncate -s 0 > " +:+ path_join root file) w).
  by destruct (Validator.n_run _ w).
Qed.

(** *** [post_install] *)

Notation post_install := (post_install cwd get_tree set_tree).

Lemma delete_plugin_preserves fs :
  preserves fs ((if os_exists cwd fs opendistro_security_plugin then
      if os_isfile cwd fs opendistro_security_plugin then os_remove cwd opendistro_security_plugin fs
      else if os_isdir cwd fs opendistro_security_plugin then (Ok tt, (rmtree cwd opendistro_security_plugin fs).2)
      else (Ok tt, fs)
    else (Ok tt, fs)) : res unit * tree).2.
Proof.
  unfold os_exists, os_isfile, os_isdir, stat, os_remove, rmtree.
  destruct (resolve fs cwd opendistro_security_plugin) as [p|e] eqn:Hp; [|apply preserves_refl].
  assert (p = plugin_place) as ->.
  { revert Hp. unfold resolve. rewrite decide_False by done.
    change (Dir.start cwd opendistro_security_plugin) with (@nil string).
    change (split "/" opendistro_security_plugin) with ("" :: plugin_place). cbn [walk_path].
    change (step_path fs [] "") with (@Ok (list string) []). cbn [mbind res_bind].
    apply walk_place. repeat (apply Forall_cons_2; [by repeat split|]). by apply Forall_nil_2. }
  destruct (node_at fs plugin_place) as [[|u]|]; cbn; [intros q Hq| |apply preserves_refl].
  2: { intros q Hq. apply lookup_delete_ne. intros <-. by apply (bool_decide_eq_true_2 _) in Hq; vm_compute in Hq. }
  - assert (Hu : ¬ under plugin_place q).
    { revert q Hq. apply Forall_forall. by repeat constructor. }
    destruct (fs !! q) eqn:He; [by apply map_lookup_filter_Some|].
    apply map_lookup_filter_None. by left.
Qed.

Lemma delete_plugin_run Q g :
  stable Q → ready (tree_of g) → Q (tree_of g) →
  ∃ g', delete_path cwd get_tree set_tree opendistro_security_plugin g = (Ok tt, g') ∧ Q (tree_of g').
Proof.
  intros Hs _ Hq. unfold delete_path.
  match goal with |- context [on_files ?f] => set (m := f) end.
  destruct (m (tree_of g)) as [[[]|e] fs'] eqn:Hm.
  - destruct (files_run m g tt fs' Hm) as (g' & Hr & Ht). exists g'. split; [exact Hr|]. rewrite Ht.
    eapply Hs; [|exact Hq]. pose proof (delete_plugin_preserves (tree_of g)) as Hp. 
    change (preserves (tree_of g) (m (tree_of g)).2) in Hp. by rewrite Hm in Hp.
  - exfalso. revert Hm. unfold m, os_exists, os_isfile, os_isdir, stat, os_remove.
    destruct (resolve _ _ _) as [p|]; [|done]. by destruct (node_at _ p) as [[|]|].
Qed.

(** The text that [post_install] makes of a configuration *)
Definition without_section (s : string) : string :=
  String.concat "" (kept true (readlines (universal_newlines s))).

Lemma post_install_run s g :
  holds s (tree_of g) →
  ∃ g', post_install g = (Ok 0%Z, g') ∧
    (configured s (tree_of g) → configured s (tree_of g')) ∧
    (pristine s (tree_of g) → pristine (without_section s) (tree_of g')).
Proof.
  intros Hh.
  set (Q fs := holds s fs ∧ (configured s (tree_of g) → configured s fs) ∧ (pristine s (tree_of g) → pristine s fs)).
  assert (HQ : stable Q).
  { intros fs fs' Hp (H1 & H2 & H3). split; [by eapply stable_holds|]. split; intros H.
    - eapply stable_configured; [done|]. by apply H2.
    - eapply stable_pristine; [done|]. by apply H3. }
  destruct (delete_plugin_run Q g) as (g1 & Hdel & Hh1 & Hc1 & Hp1); [done|by eapply holds_ready|done|].
  unfold EsSetup.post_install. rewrite (st_bind_run _ _ _ _ _ Hdel).
  assert (Hr1 : ready (tree_of g1)) by (by eapply holds_ready).
  assert (∃ t, tree_of g1 !! conf_place = Some (FFile t)) as [t Ht].
  { destruct Hh1 as [[_ Ht _]|[_ Ht _]]; [done|by eexists]. }
  destruct (files_run (λ fs, (if os_exists cwd fs elasticsearch_config_path
      then readlines <$> read_path cwd fs elasticsearch_config_path else Err (OSError ENOENT), fs)) g1
      (readlines (universal_newlines t)) (tree_of g1)) as (g2 & Hread & Ht2).
  { rewrite (exists_place _ _ conf_place) by (done || by apply resolve_conf). rewrite Ht. cbn.
    unfold read_path. rewrite resolve_conf by done. unfold node_at. rewrite decide_False by done. by rewrite Ht. }
  rewrite (st_bind_run _ _ _ _ _ Hread). rewrite <- Ht2 in Hr1, Ht, Hc1, Hp1.
  destruct (files_run (write_path cwd elasticsearch_config_path (VStr (without_section t))) g2 tt
      (<[conf_place := FFile (without_section t)]> (tree_of g2))) as (g3 & Hw & Ht3).
  { eapply write_place; [by apply resolve_conf|done|by rewrite Ht]. }
  unfold write_file. fold (without_section t). rewrite (st_bind_run _ _ _ _ _ Hw). exists g3. split; [done|]. rewrite Ht3. split.
  - intros [_ _ Hb]%Hc1. constructor; [by apply ready_write|rewrite lookup_insert_eq; eauto|by rewrite lookup_insert_ne].
  - intros [_ Hc Hb]%Hp1. assert (t = s) as -> by congruence.
    constructor; [by apply ready_write|by rewrite lookup_insert_eq|by rewrite lookup_insert_ne].
Qed.

(** *** The phases in any order *)

Inductive phase := PPostInstall | PConfig | PReset | PCleanup (pre_factory : bool) | POther.

Definition run_phase (p : phase) : ST process Z :=
  match p with
  | PPostInstall => post_install
  | PConfig => config
  | PReset => reset
  | PCleanup b => cleanup b
  | POther => no_action
  end.

(** A phase after another, whether or not the one before failed *)
Definition run_phases (ps : list phase) (g : process) : process := foldl (λ g p, (run_phase p g).2) g ps.

(** The text to give back after the phases [ps], from the text [s] and whether
    there is a copy of it: an installation without a copy takes the section out
    of it; one with a copy does not count. *)
Fixpoint first_text (copy : bool) (s : string) (ps : list phase) : string :=
  match ps with
  | [] => s
  | PPostInstall :: ps => first_text copy (if copy then s else without_section s) ps
  | PConfig :: ps => first_text true s ps
  | PCleanup _ :: ps => first_text false s ps
  | _ :: ps => first_text copy s ps
  end.

Definition at_text (copy : bool) (s : string) (fs : tree) : Prop := if copy then configured s fs else pristine s fs.
Lemma stable_at_text copy s : stable (at_text copy s).
Proof. destruct copy; [apply stable_configured|apply stable_pristine]. Qed.
Lemma at_text_holds copy s fs : at_text copy s fs → holds s fs.
Proof. destruct copy; [by left|by right]. Qed.

Lemma phases_text copy s ps g :
  at_text copy s (tree_of g) → ∃ copy', at_text copy' (first_text copy s ps) (tree_of (run_phases ps g)).
Proof.
  revert copy s g. induction ps as [|p ps IH]; intros copy s g Hh; [by exists copy|].
  pose proof (at_text_holds _ _ _ Hh) as Hd. destruct p as [| | |b|]; cbn [run_phases foldl run_phase first_text]; apply IH.
  - destruct (post_install_run s g Hd) as (g' & -> & Hc & Hp). destruct copy; [by apply Hc|by apply Hp].
  - by apply config_configured.
  - by apply (keeps_reset _ (stable_at_text copy s)).
  - destruct (cleanup_run s b g Hd) as (g' & -> & Hp). exact Hp.
  - done.
Qed.

(** C21. A clean-up gives the server back its configuration: whatever phases
    ran before it, any number of times and whether or not they failed, it
    returns, there is no copy left, and the configuration is byte for byte the
    text from which the first of them started; the installations that found no
    copy have taken the section of the security plugin out of it. *)
Theorem cleanup_restores s ps b g :
  pristine s (tree_of g) →
  ∃ g', cleanup b (run_phases ps g) = (Ok 0%Z, g') ∧
    tree_of g' !! conf_place = Some (FFile (first_text false s ps)) ∧ tree_of g' !! backup_place = None.
Proof.
  intros Hp. destruct (phases_text false s ps g Hp) as [copy Hc%at_text_holds].
  destruct (cleanup_run (first_text false s ps) b (run_phases ps g) Hc) as (g' & Hrun & [_ Ht Hb]). by exists g'.
Qed.

(** Without an installation among them, it is the first text itself. *)
Lemma first_text_same copy s ps : PPostInstall ∉ ps → first_text copy s ps = s.
Proof.
  revert copy. induction ps as [|[] ps IH]; intros copy Hn; rewrite ?not_elem_of_cons in Hn; cbn; [done|naive_solver|..];
    by apply IH; destruct Hn.
Qed.

End process.

(** ** A server

    Its machine is its files; the name of a node is [m1]. *)

#[local] Instance node_commands : Validator.Nodes tree := {
  n_run _ fs := (("", "", 0%Z), fs);
  n_resolve _ _ := None;
  n_user _ := "root";
  n_fqdn _ := "m1";
  n_ssh _ _ _ fs := (false, fs);
  n_execute _ _ fs := ((1%Z, ""), fs);
  n_disconnect _ fs := fs;
  n_http _ _ := Validator.ConnectionError
}.
#[local] Instance node_services : Systemd tree := {
  sd_bus fs := (true, fs);
  sd_call method _ fs := (bool_decide (method ≠ "RestartUnit"), fs);
  sd_reload fs := (true, fs);
  sd_state _ fs := (Some (ServiceState "1" "active" "running" []), fs);
  sd_file_state _ fs := (Some "enabled", fs)
}.

Lemma server_laws : node_laws (W:=tree) id (λ fs _, fs).
Proof. constructor; [done|intros; by intros p Hp..]. Qed.

Definition eol : string := sep nl.
Definition yml : string := "path.data: /var/lib/elasticsearch" +:+ eol.

(** The package brings a section of the plugin. *)
Definition packaged : string := yml +:+ start_line +:+ eol +:+ "opendistro_security.ssl: true" +:+ eol +:+ end_line +:+ eol.

Definition server : tree := list_to_map (((λ p, (p, FDir)) <$> dirs) ++
  [(["var"], FDir); (["var"; "log"], FDir); (["var"; "log"; "elasticsearch"], FDir);
   (["var"; "log"; "elasticsearch"; "es.log"], FFile "log");
   (conf_place, FFile packaged); (rsyslog_place, FFile ("#### MODULES ####" +:+ eol +:+ eol +:+ "x" +:+ eol))]).

Lemma server_pristine : pristine packaged server.
Proof.
  constructor; [|vm_compute; reflexivity|vm_compute; reflexivity].
  unfold ready, dirs. repeat (apply Forall_cons_2; [vm_compute; reflexivity|]). apply Forall_nil_2.
Qed.

Definition names : value := VDict
  [("server_node", VDict [("m1", VDict [("name", VStr "srv-1"); ("cluster_id", VStr "c1")])]);
   ("cluster", VDict [("c1", VDict [("storage_set", VList [VDict [("server_nodes", VList [VStr "m1"])]])])])].

(** [str] of a list of one or two texts without quotes *)
Definition quoted (v : value) : string :=
  match v with
  | VList l => "[" +:+ join ", " ((λ x, match x with VStr s => "'" +:+ s +:+ "'" | _ => "" end) <$> l) +:+ "]"
  | _ => ""
  end.

Definition served : Conf.singleton (W:=tree) :=
  Conf.Singleton
    (Some (Conf.ConfStore ">"
       {[index := Conf.Cache (Store.Backend (λ _, st_raise (KvError ENOSYS)) (λ _, st_raise (KvError ENOSYS)))
                    ">" false (Payload.Payload names ">" []) true]}
       ∅ (VStr "m1") (VStr "m1") ∅ server 0%Z))
    (VStr ">") (VStr "m1") (∅, server, 0%Z).

Definition on_server (p : phase) := run_phase (W:=tree) [] (λ _, Some "m1") quoted id (λ fs _, fs) p.

Definition appended : list string :=
  ["cluster.name: elasticsearch_cluster"; "node.name: srv-1"; "network.bind_host: ['localhost', 'srv-1']";
   "network.publish_host: ['srv-1']"; "discovery.seed_hosts: ['srv-1']"; "cluster.initial_master_nodes: ['srv-1']";
   "http.port: 9200"].

Lemma on_server_config g :
  (on_server PConfig g).1 = Ok 0%Z →
  config [] (λ _, Some "m1") quoted id (λ fs _, fs) g = (Ok 0%Z, (on_server PConfig g).2).
Proof.
  unfold on_server, run_phase. destruct (config _ _ _ _ _ _) as [r g']. cbn [fst snd]. by intros ->.
Qed.

Lemma config_exact_witness :
  let g := (on_server PConfig served).2 in
  (on_server PConfig g).1 = Ok 0%Z ∧
  tree_of id (on_server PConfig g).2 !! conf_place = Some (FFile (packaged +:+ String.concat "" ((λ line, eol +:+ line) <$> appended))) ∧
  0%Z = 0%Z ∧ ∃ g1 l, same_store g g1 ∧ (get_config_entries (λ _, Some "m1") quoted g1).1 = Ok l ∧
    tree_of id (on_server PConfig g).2 !! conf_place = Some (FFile (packaged +:+ String.concat "" ((λ line, sep nl +:+ line) <$> l))) ∧
    tree_of id (on_server PConfig g).2 !! backup_place = Some (FFile packaged).
Proof.
  intros g. assert (Hr : (on_server PConfig g).1 = Ok 0%Z) by (vm_compute; reflexivity).
  split; [exact Hr|]. split; [vm_compute; reflexivity|].
  apply (config_exact (W:=tree) [] (λ _, Some "m1") quoted id (λ fs _, fs) server_laws packaged g 0%Z).
  - left. apply (config_configured (W:=tree) [] (λ _, Some "m1") quoted id (λ fs _, fs) server_laws).
    right. apply server_pristine.
  - exact (on_server_config g Hr).
Defined.

(** The section goes; an installation on a machine with a copy does not count. *)
Lemma cleanup_restores_witness :
  ∃ g', on_server (PCleanup true)
      (run_phases [] (λ _, Some "m1") quoted id (λ fs _, fs) [PPostInstall; PConfig; PReset; PPostInstall; PConfig] served) =
      (Ok 0%Z, g') ∧
    tree_of id g' !! conf_place = Some (FFile yml) ∧ tree_of id g' !! backup_place = None.
Proof.
  apply (cleanup_restores (W:=tree) [] (λ _, Some "m1") quoted id (λ fs _, fs) server_laws
           packaged
           [PPostInstall; PConfig; PReset; PPostInstall; PConfig]).
  apply server_pristine.
Defined.

End EsSpec.
