(* ===== verification/LdapSetup.v ===== *)
(** [setup/openldap]: the commands that set an OpenLDAP server up, the phases
    that check a node and run them, the merge of configurations at an upgrade,
    and the command line [openldap_setup].

    The process is that of [NodeProcess] and the server that of [LdapConfig].
    The cipher and [literal_eval] are parameters.  The lists of the file of
    prerequisites are lists of texts; log records are not modelled. *)
From Stdlib Require Import Ascii.
From S2P Require Import Prelude PyStr PyVal KvPayload KvStore KvFiles KvDir ConfStore.
From S2P Require Import HaDecision Release Validator SchemaDoc Packages LogFilter NodeProcess LdapConfig.
Import PyStr Files Dir Shutil NodeProcess LdapConfig.

Module LdapSetup.

(** ** Names *)

Definition CLUSTER_CONF : string := "yaml:///etc/cortx/cluster.conf".
Definition conf_dir : string := "/opt/seagate/cortx/utils/conf".
Definition prereqs_file : string := conf_dir +:+ "/openldapsetup_prereqs.json".
Definition prov_file : string := conf_dir +:+ "/openldap_prov_config.yaml".
Definition index : string := "openldap".
Definition prov : string := "provisioning".

(** The class attributes of [SetupCmd], from [util_install_path] *)
Definition in_conf (util_install_path file : string) : string :=
  path_join (path_join util_install_path "cortx/utils/conf") file.
Definition openldap_prov_config (p : string) : string := in_conf p "openldap_prov_config.yaml".
Definition openldap_config_file (p : string) : string := in_conf p "openldap_config.yaml".
Definition utils_tmp_dir (p : string) : string := path_join p "cortx/utils/tmp".

Definition cluster_id_key : string := "cluster_config>cluster_id".
Definition rootdn_user_key : string := "cluster_config>rootdn_user".
Definition rootdn_pass_key : string := "cluster_config>rootdn_password".

(** ** Texts *)

(** [re.match("^dc=[a-zA-Z0-9]+(,dc=[a-zA-Z0-9]+)+[a-zA-Z0-9]$", value)]: the
    last component has two characters at least, and a line feed may follow. *)
Definition alnum (c : ascii) : bool :=
  let n := nat_of_ascii c in
  is_digit c || ((65 <=? n) && (n <=? 90)) || ((97 <=? n) && (n <=? 122)).
Definition dc_part (least : nat) (s : string) : bool :=
  match Packages.literal "dc=" s with Some r => sforall alnum r && (least <=? String.length r) | None => false end.
Fixpoint dc_parts (l : list string) : bool :=
  match l with
  | [] => false
  | [x] => dc_part 2 x
  | x :: l' => dc_part 1 x && dc_parts l'
  end.
Definition chomp (s : string) : string :=
  match split1 nl s with (t, Some EmptyString) => t | _ => s end.
Definition base_dn_ok (s : string) : bool :=
  let l := split "," (chomp s) in (2 <=? length l) && dc_parts l.

(** [v.replace(old, new)] *)
Definition replace_in (old : string) (new v : value) : res string :=
  match v, new with
  | VStr s, VStr n => Ok (replace old n s)
  | VStr _, _ => Err TypeError
  | _, _ => Err AttributeError
  end.
(** [len(v)] *)
Definition py_len (v : value) : res nat :=
  match v with
  | VList l => Ok (length l)
  | VDict d => Ok (length d)
  | VStr s => Ok (String.length s)
  | _ => Err TypeError
  end.
(** A list of texts *)
Definition texts (v : value) : res (list string) :=
  match v with VList l => res_map as_text l | _ => Err TypeError end.

Section setup.
Context {W : Type} (cwd : list string) {S : Slapd W} (get_tree : W → tree) (set_tree : tree → W → W).
Context (ldif : string → res (list (string * list (string * list string)))).
Context (machine_id_file : W → option string) (urlparse : string → string * string * string).
Context (classes : list (string * (string → string → string → ST W (Store.backend W)))).
Context (repr : value → string) (literal_eval : string → res value).
Context {N : Validator.Nodes W} (ssh_open : string → string → string → string → W → bool * W).
(** [Cipher.generate_key] and [Cipher.decrypt] *)
Context (generate_key : value → value → W → res string * W) (decrypt : string → string → res string).

Notation process := (Conf.singleton (W:=W)).
Notation on_files := (NodeProcess.on_files get_tree set_tree).
Notation conf_load i url := (Conf.conf_class_load machine_id_file urlparse classes i url (VBool true) []).

Definition str (v : value) : string := py_str repr v.
Definition conf_get (i key : string) : ST process value := Conf.conf_call (Conf.get i key).
Definition conf_set (i key : string) (v : value) : ST process unit := Conf.conf_call (Conf.set i key v).
Definition conf_save (i : string) : ST process unit := Conf.conf_call (Conf.save i).
Definition conf_get_keys (i : string) : ST process (list (option string)) :=
  Conf.conf_call (Conf.get_keys i "" true true).
Definition exists_file (path : string) : ST process bool := on_files (λ fs, (Ok (os_isfile cwd fs path), fs)).

(** [try: m; except Exception: raise e] *)
Definition raising {A} (e : exn) (m : ST process A) : ST process A := st_except is_exception m (λ _, st_raise e).

(** The body of the class [SetupCmd], run when its module is imported *)
Definition import_setupcmd : ST process string :=
  Conf.mapped_init machine_id_file urlparse classes CLUSTER_CONF ;;;
  let! v := Conf.mapped_get (Some "install_path") VNull in
  st_lift (as_text v).

(** A list that may be given as a text *)
Definition evaluated (v : value) : ST process value :=
  match v with VStr s => st_lift (literal_eval s) | _ => st_ret v end.

(** ** [SetupCmd] *)

Record setupcmd := SetupCmd {
  machine_id : option string; cluster_id : value; ldap_root_user : value; rootdn_passwd : option string }.
Definition class_attributes : setupcmd := SetupCmd None VNull VNull None.

Section commands.
Context (util_install_path : string).

Definition get_confkey (key : string) : ST process value := conf_get "openldap_keys_index" key.
Definition get_confvalue (key : string) : ST process value := conf_get "prov_index" key.
(** [self.get_confvalue(key)] of a key read from a document *)
Definition get_confvalue_of (key : value) : ST process value :=
  match key with
  | VStr k => get_confvalue k
  | VNull => st_raise (ConfError EINVAL)
  | _ => st_raise AttributeError
  end.
Definition confvalue_of (key : string) : ST process value :=
  let! k := get_confkey key in get_confvalue_of k.

Definition setup_init (config : option string) : ST process setupcmd :=
  match config with
  | None => st_ret class_attributes
  | Some config =>
      if decide (strip config = "") then st_raise PlainException else
      conf_load "prov_index" config ;;;
      conf_load "openldap_keys_index" ("yaml://" +:+ openldap_prov_config util_install_path) ;;;
      let! id := on_files (λ fs, (strip <$> read_path cwd fs "/etc/machine-id", fs)) in
      let! key := get_confkey "CONFIG>CONFSTORE_CLUSTER_ID_KEY" in
      let! key := st_lift (replace_in "machine-id" (VStr id) key) in
      let! cluster := get_confvalue key in
      st_ret (SetupCmd (Some id) cluster VNull None)
  end.

Definition read_ldap_credentials (c : setupcmd) : ST process setupcmd :=
  let i := "openldap_config_file_read_index" in
  conf_load i ("yaml://" +:+ openldap_config_file util_install_path) ;;;
  let! cluster := conf_get i cluster_id_key in
  let! const := get_confkey "CONFSTORE_OPENLDAP_CONST_KEY" in
  let! cipher_key := on_machine (generate_key cluster const) in
  let! user := conf_get i rootdn_user_key in
  let! encrypted := conf_get i rootdn_pass_key in
  if is_null encrypted then st_ret (SetupCmd (machine_id c) cluster user (rootdn_passwd c)) else
  let! passwd := st_lift (decrypt cipher_key (str encrypted)) in
  st_ret (SetupCmd (machine_id c) cluster user (Some passwd)).

Definition update_cluster_id (c : setupcmd) : ST process unit :=
  let i := "openldap_config_file_cluster_id_index" in
  raising PlainException (
    let! there := exists_file (openldap_config_file util_install_path) in
    if there : bool then
      conf_load i ("yaml://" +:+ openldap_config_file util_install_path) ;;;
      conf_set i cluster_id_key (VStr (str (cluster_id c))) ;;;
      conf_save i ;;;
      let! updated_cluster_id := conf_get i cluster_id_key in
      if py_eq updated_cluster_id (cluster_id c) then st_ret tt else st_raise PlainException
    else st_raise PlainException).

Definition update_ldap_credentials : ST process unit :=
  let i := "openldap_config_file_write_index" in
  raising PlainException (
    conf_load i ("yaml://" +:+ openldap_config_file util_install_path) ;;;
    let! user_key := get_confkey "CONFIG>CONFSTORE_ROOTDN_USER_KEY" in
    let! user := get_confvalue_of user_key in
    let! pass_key := get_confkey "CONFIG>CONFSTORE_ROOTDN_PASSWD_KEY" in
    let! encrypted := get_confvalue_of pass_key in
    if is_null encrypted then st_raise PlainException else
    conf_set i rootdn_user_key (VStr (str user)) ;;;
    conf_set i rootdn_pass_key (VStr (str encrypted)) ;;;
    conf_save i).

(** The map [ha_service_map] is empty. *)
Definition restart_services (services_list : list string) : ST process unit :=
  st_iter (λ service_name,
    let! (_, _, rc) := on_machine (Validator.run ("/bin/systemctl restart " +:+ service_name)) in
    if decide (rc ≠ 0%Z) then st_raise PlainException else st_ret tt) services_list.

(** [if v: check(v)] *)
Definition when_set (v : value) (check : list string → ST process unit) : ST process unit :=
  if truthy v then let! l := st_lift (texts v) in check l else st_ret tt.
Definition check_pkgs (kind : string) (l : list string) : ST process unit :=
  on_machine (Packages.fresh (Packages.validate_pkg ssh_open kind l None)).
Definition check_files (l : list string) : ST process unit := on_machine (Validator.validate_path_command "exists" l None).

Definition validate_pre_requisites (rpms pip3s services files : value) : ST process unit :=
  when_set pip3s (check_pkgs "pip3s") ;;;
  when_set services (λ l, on_machine (Validator.validate_service_command "isrunning" l None)) ;;;
  when_set rpms (check_pkgs "rpms") ;;;
  when_set files check_files.

Definition phase_prereqs_validate (phase_name : string) : ST process unit :=
  let i := "preqsConfFileIndex" in
  let! there := exists_file "openldapsetup_prereqs.json" in
  if there : bool then
    conf_load i "json://openldapsetup_prereqs.json" ;;;
    raising ProvError (
      let! prereqs_block := conf_get i phase_name in
      if is_null prereqs_block then st_ret tt else
      let! rpms := conf_get i (phase_name +:+ ">rpms") in
      let! services := conf_get i (phase_name +:+ ">services") in
      let! pip3s := conf_get i (phase_name +:+ ">pip3s") in
      let! files := conf_get i (phase_name +:+ ">files") in
      validate_pre_requisites rpms pip3s services files)
  else st_raise (OSError ENOENT).

(** The keys of a phase, and before it those of the phases it follows *)
Fixpoint yardstick (phase_name : string) (prev_phase : bool) (keys : list (option string)) : ST process (list value) :=
  let append key keys' prev_phase :=
    let! v := get_confkey key in
    let! l := yardstick phase_name prev_phase keys' in
    st_ret (if is_null v then l else v :: l) in
  match keys with
  | [] => st_ret []
  | None :: _ => st_raise AttributeError
  | Some key :: keys' =>
      if startswith key phase_name then append key keys' false
      else if decide (phase_name ∈ ["TEST"; "RESET"; "CLEANUP"]) then yardstick phase_name prev_phase keys'
      else if negb prev_phase then st_ret []
      else append key keys' prev_phase
  end.
Definition extract_yardstick_list (phase_name : string) : ST process (list value) :=
  let! prov_keys_list := conf_get_keys "openldap_keys_index" in yardstick phase_name true prov_keys_list.

(** [Conf.get_keys()] lacks its index: what follows is not reached. *)
Definition phase_keys_validate (c : setupcmd) (arg_file phase_name : string) : ST process unit :=
  let! key := (if is_null (cluster_id c) then st_ret "cluster>cluster-id>site>storage_set_count"
               else st_lift (replace_in "cluster-id" (cluster_id c) (VStr "cluster>cluster-id>site>storage_set_count"))) in
  let! storage_set_count := get_confvalue key in
  (if is_null storage_set_count then st_ret 0%Z else st_lift (Release.py_int storage_set_count)) ;;;
  raising PlainException (
    extract_yardstick_list (LogFilter.upper phase_name) ;;;
    conf_load "argument_file_index" arg_file ;;;
    st_raise TypeError).

(** ** [ConfigCmd] *)

Definition config_init (config : option string) : ST process setupcmd :=
  raising ProvError (
    let! c := setup_init config in
    update_cluster_id c ;;; update_ldap_credentials ;;; read_ldap_credentials c).

(** [self.rootdn_passwd.decode("utf-8")] *)
Definition password (c : setupcmd) : res string :=
  match rootdn_passwd c with Some s => Ok s | None => Err AttributeError end.

Definition hosts_list_file : string := "/var/tmp/ldap_hosts_list_file.txt".

Fixpoint write_hosts (text : string) (nodes : list value) : ST process unit :=
  match nodes with
  | [] => st_ret tt
  | node_machine_id :: nodes' =>
      let! host_name := get_confvalue ("server_node>" +:+ str node_machine_id +:+ ">hostname") in
      let text := text +:+ str host_name +:+ sep nl in
      on_files (write_path cwd hosts_list_file (VStr text)) ;;;
      write_hosts text nodes'
  end.

(** The nodes of a storage set, for the phase of a key *)
Definition server_nodes (c : setupcmd) (phase : string) (index : nat) : ST process value :=
  let! k := get_confkey (phase +:+ ">CONFSTORE_STORAGE_SET_SERVER_NODES_KEY") in
  let! k := st_lift (replace_in "cluster-id" (cluster_id c) k) in
  let! nodes := get_confvalue (replace "storage-set-count" (dec index) k) in
  evaluated nodes.
Definition storage_sets (c : setupcmd) (phase : string) : ST process value :=
  let! k := get_confkey (phase +:+ ">CONFSTORE_STORAGE_SET_COUNT_KEY") in
  let! k := st_lift (replace_in "cluster-id" (cluster_id c) k) in
  get_confvalue k.

Definition configure_openldap_replication (c : setupcmd) (cv : config_values) : ST process unit :=
  let! storage_set_count := storage_sets c "CONFIG" in
  let! n := st_lift (Release.py_int storage_set_count) in
  st_iter (λ index,
    let! server_nodes_list := server_nodes c "CONFIG" index in
    let! len := st_lift (py_len server_nodes_list) in
    if decide (1 < len) then
      on_files (makedirs cwd "/var/tmp") ;;;
      on_files (write_path cwd hosts_list_file (VStr "")) ;;;
      let! nodes := st_lift (Ha.py_iter server_nodes_list) in
      write_hosts "" nodes ;;;
      let! pwd := st_lift (password c) in
      setreplication cwd get_tree set_tree hosts_list_file pwd cv ;;;
      on_files (os_remove cwd hosts_list_file)
    else st_ret tt) (seq 0 (Z.to_nat n)).

Definition configure_openldap (c : setupcmd) : ST process unit :=
  let! base_dn := confvalue_of "CONFIG>OPENLDAP_BASE_DN" in
  let! base_dn := st_lift (as_text base_dn) in
  let! install_dir := confvalue_of "CONFIG>OPENLDAP_INSTALL_DIR" in
  let! data_dir := confvalue_of "CONFIG>OPENLDAP_DATA_DIR" in
  let cv := ConfigValues base_dn ("cn=admin," +:+ base_dn) install_dir data_dir in
  let! pwd := st_lift (password c) in
  perform_base_config cwd get_tree set_tree ldif (Some pwd) (Some (VStr "True")) cv ;;;
  configure_openldap_replication c cv.

Definition config_process (c : setupcmd) : ST process unit := raising ProvError (configure_openldap c).

(** ** [ResetCmd] and [CleanupCmd] *)

Definition _delete_file (filepath : string) : ST process unit :=
  let! there := on_files (λ fs, (Ok (os_exists cwd fs filepath), fs)) in
  if there : bool then ignore (on_files (write_path cwd filepath (VStr ""))) else st_ret tt.
Definition delete_log_files : ST process unit :=
  st_iter _delete_file ["/var/log/cortx/utils/openldap/OpenldapProvisioning.log"; "/var/log/slapd.log"].

Definition reset_process : ST process unit := raising ProvError delete_log_files.

Definition delete_replication_config : ST process unit :=
  bind External ;;;
  deleteattribute External "cn=config" "olcServerID" ;;;
  deleteattribute External mdb "olcSyncrepl" ;;;
  deleteattribute External mdb "olcMirrorMode".

(** The data is removed for the text ['True'] only, and not for [True]. *)
Definition cleanup_process : ST process unit :=
  raising ProvError (
    delete_replication_config ;;;
    delete_log_files ;;;
    let! install_dir := confvalue_of "CONFIG>OPENLDAP_INSTALL_DIR" in
    let! data_dir := confvalue_of "CONFIG>OPENLDAP_DATA_DIR" in
    cleanup cwd get_tree set_tree (VBool true) install_dir data_dir ;;;
    system_or_quit "kill -15 $(pidof slapd)" ;;;
    let! inst := st_lift (as_text install_dir) in
    system_or_quit (start_slapd inst)).

(** ** [PreUpgradeCmd] and [PostUpgradeCmd] *)

Definition sample_file : string := in_conf util_install_path "openldap_config.yaml.sample".
Definition old_sample_file : string := path_join (utils_tmp_dir util_install_path) "openldap_config.yaml.sample.old".
Definition unsafe_file : string := in_conf util_install_path "openldap_config_unsafe_attributes.yaml".

Definition backup_sample_file : ST process unit :=
  on_files (makedirs cwd (utils_tmp_dir util_install_path)) ;;;
  let! there := exists_file sample_file in
  if there : bool then on_files (copyfile cwd sample_file old_sample_file) else st_raise PlainException.
Definition preupgrade_process : ST process unit := raising ProvError backup_sample_file.

(** The four documents, and the keys of three of them *)
Definition load_documents (configFile oldSampleFile newSampleFile unsafeAttributesFile filetype : string)
    : ST process (list (option string) * list (option string) * list (option string)) :=
  conf_load "conf_old_sample_index" (filetype +:+ oldSampleFile) ;;;
  conf_load "conf_new_sample_index" (filetype +:+ newSampleFile) ;;;
  let! conf_new_sample_keys := conf_get_keys "conf_new_sample_index" in
  conf_load "conf_unsafe_file_index" (filetype +:+ unsafeAttributesFile) ;;;
  let! conf_unsafe_file_keys := conf_get_keys "conf_unsafe_file_index" in
  conf_load "conf_file_index" (filetype +:+ configFile) ;;;
  let! conf_file_keys := conf_get_keys "conf_file_index" in
  st_ret (conf_new_sample_keys, conf_unsafe_file_keys, conf_file_keys).

(** The keys to overwrite.  A [None] among the keys is one of the prefixes
    [get_keys] lists; [Conf.get] refuses it. *)
Fixpoint keys_to_overwrite (unsafe_keys file_keys keys : list (option string)) : ST process (list string) :=
  match keys with
  | [] => st_ret []
  | key :: keys' =>
      if decide (key ∈ unsafe_keys) then keys_to_overwrite unsafe_keys file_keys keys' else
      let append := let! l := keys_to_overwrite unsafe_keys file_keys keys' in
                    let! k := st_lift (match key with Some k => Ok k | None => Err AttributeError end) in
                    st_ret (k :: l) in
      if decide (key ∉ file_keys) then append else
      let! current := Conf.conf_call (Conf.get_val "conf_file_index" key VNull true) in
      let! old := Conf.conf_call (Conf.get_val "conf_old_sample_index" key VNull true) in
      if py_eq current old then append else keys_to_overwrite unsafe_keys file_keys keys'
  end.

Definition merge_loaded (new_keys unsafe_keys file_keys : list (option string)) : ST process unit :=
  let! keys := keys_to_overwrite unsafe_keys file_keys new_keys in
  Conf.conf_call (Conf.copy "conf_new_sample_index" "conf_file_index" (Some keys) true) ;;;
  conf_save "conf_file_index".

Definition merge_config (configFile oldSampleFile newSampleFile unsafeAttributesFile filetype : string) : ST process unit :=
  let! there := exists_file configFile in
  if there : bool then
    let! (new_keys, unsafe_keys, file_keys) :=
      load_documents configFile oldSampleFile newSampleFile unsafeAttributesFile filetype in
    merge_loaded new_keys unsafe_keys file_keys
  else st_raise PlainException.

Definition postupgrade_process : ST process unit :=
  raising ProvError (
    merge_config (openldap_config_file util_install_path) old_sample_file sample_file unsafe_file "yaml://" ;;;
    let! there := exists_file old_sample_file in
    if there : bool then on_files (os_remove cwd old_sample_file) else st_ret tt).

(** ** [Test] *)

Definition search (who : identity) (dn : string) (attrs : list string) : ST process (list (string * list (string * list string))) :=
  on_machine (λ w, match sl_search who dn attrs w with (Some l, w') => (Ok l, w') | (None, w') => (Err LDAPError, w') end).

Definition test_base_dn (pwd : string) : ST process unit :=
  let! base := confvalue_of "TEST>OPENLDAP_BASE_DN" in
  let! base := st_lift (as_text base) in
  let who := Simple ("cn=admin," +:+ base) pwd in
  bind who ;;; search who base [] ;;; st_ret tt.

Definition test_openldap_replication (c : setupcmd) : ST process nat :=
  let! storage_set_count := storage_sets c "TEST" in
  let! n := st_lift (Release.py_int storage_set_count) in
  (fix loop (indices : list nat) (no_nodes : nat) : ST process nat :=
     match indices with
     | [] => st_ret no_nodes
     | index :: indices' =>
         let! nodes := server_nodes c "TEST" index in
         let! len := st_lift (py_len nodes) in
         loop indices' (no_nodes + len)
     end) (seq 0 (Z.to_nat n)) 0.

(** The first entry found must have the attribute. *)
Definition test_attribute (dn attr pwd : string) : ST process unit :=
  let who := Simple "cn=admin,cn=config" pwd in
  bind who ;;;
  let! found := search who dn [attr] in
  match found with
  | [] => st_raise IndexError
  | (_, entry) :: _ => if decide (is_Some (dget attr entry)) then st_ret tt else st_raise PlainException
  end.
Definition test_olcsyncrepl : string → ST process unit := test_attribute mdb "olcSyncrepl".
Definition test_olcserverId : string → ST process unit := test_attribute "cn=config" "olcServerID".

Definition run_test (config : option string) : ST process unit :=
  let! c := raising ProvError (
    let! c := setup_init config in update_ldap_credentials ;;; read_ldap_credentials c) in
  let! passwd := st_lift (password c) in
  test_base_dn passwd ;;;
  let! no_nodes := test_openldap_replication c in
  if decide (1 < no_nodes) then test_olcsyncrepl passwd ;;; test_olcserverId passwd else st_ret tt.

(** ** [Openldap] *)

Record openldap := Openldap { url : option string; o_machine_id : value; o_cluster_id : value }.

Definition openldap_init (conf_url : option string) : ST process openldap :=
  conf_load prov ("yaml://" +:+ prov_file) ;;;
  let! there := exists_file prereqs_file in
  if there : bool then
    match conf_url with
    | None => st_ret (Openldap None VNull VNull)
    | Some conf_url =>
        conf_load index ("yaml://" +:+ conf_url) ;;;
        let! id := Conf.conf_class_machine_id machine_id_file in
        let! key := conf_get prov "CONFIG>CONFSTORE_CLUSTER_ID_KEY" in
        let! key := st_lift (replace_in "machine-id" id key) in
        let! cluster := conf_get index key in
        st_ret (Openldap (Some conf_url) id cluster)
    end
  else st_raise PlainException.

(** What [os.popen(...).read()] gives is never [None]: no service is refused. *)
Definition check_services (services : list string) : ST process unit :=
  st_iter (λ service, popen ("pidof " +:+ service) ;;; st_ret tt) services.

Definition validate (phase : string) : ST process unit :=
  raising PlainException (
    conf_load phase ("json://" +:+ prereqs_file) ;;;
    let! prereqs_block := conf_get phase phase in
    if truthy prereqs_block then
      let! pip3s := conf_get phase (phase +:+ ">pip3s") in
      when_set pip3s (check_pkgs "pip3s") ;;;
      let! rpms := conf_get phase (phase +:+ ">rpms") in
      when_set rpms (check_pkgs "rpms") ;;;
      let! services := conf_get phase (phase +:+ ">services") in
      when_set services check_services ;;;
      let! files := conf_get phase (phase +:+ ">files") in
      when_set files check_files
    else st_ret tt).

Definition connectivity (host : value) : ST process unit :=
  raising PlainException (
    let! h := st_lift (match host with VStr h => Ok h | _ => Err AttributeError end) in
    on_machine (Validator.validate_network "connectivity" [h])).

Definition _key_value_verify (key : string) : ST process unit :=
  let! v := conf_get index key in
  if negb (truthy v) then st_raise PlainException else
  let! base_key := conf_get prov "CONFIG>OPENLDAP_BASE_DN" in
  let! malformed := (if py_eq base_key (VStr key) then
                       let! s := st_lift (as_text v) in st_ret (negb (base_dn_ok s))
                     else st_ret false) in
  if malformed : bool then st_raise PlainException
  else if endswith key "hostname" then connectivity v
  else if endswith key "server_nodes" then
    let! v := evaluated v in
    let! ids := st_lift (Ha.py_iter v) in
    st_iter (λ node_machine_id,
      let! host_name := conf_get index ("server_node>" +:+ str node_machine_id +:+ ">hostname") in
      connectivity host_name) ids
  else st_ret tt.

Definition _get_list_of_phases_to_validate (phase_name : string) : list string :=
  let setup := ["POST_INSTALL"; "PREPARE"; "CONFIG"; "INIT"] in
  if decide (phase_name = "POST_INSTALL") then take 1 setup
  else if decide (phase_name = "PREPARE") then take 2 setup
  else if decide (phase_name = "CONFIG") then take 3 setup
  else if decide (phase_name = "INIT") then setup
  else if decide (phase_name ∈ ["TEST"; "RESET"; "CLEANUP"; "PREUPGRADE"; "POSTUPGRADE"]) then [phase_name]
  else [].

(** [if key.find(old) != -1: key = key.replace(old, str(new))] is a replacement. *)
Definition _expand_keys (o : openldap) (key : value) (phase_name : string) : ST process string :=
  if decide (phase_name = "CLEANUP") then st_lift (Ha.as_str key) else
  let! cluster_id_val := (if is_null (o_cluster_id o) then st_raise PlainException else
                          let! n := st_lift (py_len (o_cluster_id o)) in
                          if decide (n = 0) then st_raise PlainException else st_ret (o_cluster_id o)) in
  let! count_key := st_lift (replace_in "cluster-id" cluster_id_val (VStr "cluster>cluster-id>site>storage_set_count")) in
  let! count := raising PlainException (conf_get index count_key) in
  let! storage_set_val := (if is_null count then st_ret 0%Z else
                           let! n := st_lift (Release.py_int count) in st_ret (n - 1)%Z) in
  let! key := st_lift (Ha.as_str key) in
  st_ret (replace "storage-set-count" (dec_Z storage_set_val)
            (replace "cluster-id" (str cluster_id_val) (replace "machine-id" (str (o_machine_id o)) key))).

Fixpoint phase_keys (phase_name : string) (keys : list (option string)) : ST process (list value) :=
  match keys with
  | [] => st_ret []
  | None :: _ => st_raise AttributeError
  | Some key :: keys' =>
      if startswith key phase_name then
        let! v := conf_get prov key in
        let! l := phase_keys phase_name keys' in
        st_ret (if is_null v then l else v :: l)
      else phase_keys phase_name keys'
  end.
Definition _get_keys_for_phase (phase_name : string) : ST process (list value) :=
  let! prov_keys_list := conf_get_keys prov in phase_keys phase_name prov_keys_list.

(** [[f(x) for x in l]] with effects *)
Fixpoint collect {A B} (f : A → ST process B) (l : list A) : ST process (list B) :=
  match l with
  | [] => st_ret []
  | a :: l' => let! b := f a in let! bs := collect f l' in st_ret (b :: bs)
  end.

Definition _keys_validate (o : openldap) (phase_name : string) : ST process unit :=
  let phase_name := LogFilter.upper phase_name in
  raising PlainException (
    let! yardstick_list := collect _get_keys_for_phase (_get_list_of_phases_to_validate phase_name) in
    let! yardstick_list_exp := collect (λ key, _expand_keys o key phase_name) (concat yardstick_list) in
    st_iter _key_value_verify yardstick_list_exp).

(** What every phase begins with *)
Definition checked (o : openldap) (phase_name : string) (m : ST process unit) : ST process Z :=
  validate phase_name ;;; _keys_validate o phase_name ;;; m ;;; st_ret 0%Z.

Definition post_install (o : openldap) : ST process Z := checked o "post_install" (st_ret tt).
Definition prepare (o : openldap) : ST process Z := checked o "prepare" (st_ret tt).
Definition config (o : openldap) : ST process Z :=
  checked o "config" (let! c := config_init (url o) in config_process c).
Definition init (o : openldap) : ST process Z := checked o "init" (st_ret tt).
Definition test (o : openldap) : ST process Z := checked o "test" (run_test (url o)).
Definition reset (o : openldap) : ST process Z :=
  checked o "reset" (raising ProvError (setup_init (url o)) ;;; reset_process).
Definition cleanup_phase (o : openldap) : ST process Z :=
  checked o "cleanup" (raising ProvError (setup_init (url o)) ;;; cleanup_process).
Definition preupgrade (o : openldap) : ST process Z := checked o "preupgrade" preupgrade_process.
Definition postupgrade (o : openldap) : ST process Z := checked o "postupgrade" postupgrade_process.

(** ** The command [openldap_setup] *)

(** The phase of a name, and whether it is given the URL of the command line *)
Definition phases : list (string * (bool * (openldap → ST process Z))) :=
  [("post_install", (true, post_install)); ("prepare", (true, prepare)); ("config", (true, config));
   ("init", (true, init)); ("test", (true, test)); ("reset", (true, reset)); ("cleanup", (true, cleanup_phase));
   ("preupgrade", (false, preupgrade)); ("postupgrade", (false, postupgrade))].

(** The exit status: [argparse] exits with 2 on an unknown name, and [quit] with
    0; [OpenldapSetupError] is never raised. *)
Definition main (name : string) (config_url : option string) : process → Z * process := λ g,
  match dget name phases with
  | None => (2%Z, g)
  | Some (with_url, phase) =>
      match (let! o := openldap_init (if with_url then config_url else None) in phase o) g with
      | (Ok rc, g') => (if decide (rc ≠ 0%Z) then EINVAL else 0%Z, g')
      | (Err SystemExit, g') => (0%Z, g')
      | (Err _, g') => (EINVAL, g')
      end
  end.

End commands.
End setup.
End LdapSetup.

(** * Theorems

    What an upgrade does to a configuration. *)
From S2P Require Import KvPayloadFacts KvPayloadKeys KvPayloadSpec ConfStoreSpec KvFilesFacts KvCodec.
Import PayloadFacts PayloadKeys PayloadSpec KvStore.Store Conf ConfSpec LdapSetup.

Module LdapUpgrade.

Notation file := "conf_file_index".
Notation sample := "conf_new_sample_index".
Notation old_sample := "conf_old_sample_index".
Notation keys c := (cache_keys c true).

Section upgrade.
Context {W : Type}.
Implicit Types (g : singleton (W:=W)) (c : cache (W:=W)) (s : conf (W:=W)).

(** The value of a key in two documents *)
Definition same_value (c1 c2 : cache (W:=W)) (k : string) : bool :=
  match cache_get c1 k true, cache_get c2 k true with Ok x, Ok y => py_eq x y | _, _ => false end.

(** A key of the new sample is written over when it is not marked unsafe, and
    the configuration has not got it or has still the value of the old sample. *)
Definition overwritten (co cu cf : cache (W:=W)) (k : string) : bool :=
  bool_decide (k ∉ keys cu) && (bool_decide (k ∉ keys cf) || same_value cf co k).

Lemma get_val_run i k c v g s :
  g_conf g = Some s → cs_cache s !! i = Some c → cache_get c k true = Ok v →
  conf_call (get_val i (Some k) VNull true) g = (Ok v, g).
Proof.
  intros Hg Hc Hv. unfold conf_call. rewrite Hg. unfold get_val. rewrite (with_index_ok _ _ _ _ c) by done.
  unfold st_bind, st_lift. rewrite Hv. destruct g; simpl in *. subst. by destruct v.
Qed.

Lemma keys_to_overwrite_run co cu cf l g s :
  g_conf g = Some s → cs_cache s !! file = Some cf → cs_cache s !! old_sample = Some co →
  (∀ k, k ∈ l → k ∈ keys cf → is_ok (cache_get cf k true) = true ∧ is_ok (cache_get co k true) = true) →
  keys_to_overwrite (Some <$> keys cu) (Some <$> keys cf) (Some <$> l) g =
  (Ok (filter (λ k, overwritten co cu cf k = true) l), g).
Proof.
  intros Hg Hf Ho. induction l as [|k l IH]; intros Hl; [done|].
  assert (IH' := IH ltac:(intros; apply Hl; [by right|done])). cbn [fmap list_fmap keys_to_overwrite].
  rewrite filter_cons. set (P := overwritten co cu cf k).
  assert (HP : P = bool_decide (k ∉ keys cu) && (bool_decide (k ∉ keys cf) || same_value cf co k)) by done.
  assert (Hin : ∀ ks : list string, Some k ∈ (Some <$> ks) ↔ k ∈ ks) by (intros; by rewrite (list_elem_of_fmap_inj Some)).
  destruct (decide (Some k ∈ _)) as [Hu|Hu]; rewrite Hin in Hu.
  { rewrite (bool_decide_eq_false_2 (k ∉ keys cu)) in HP by tauto. rewrite HP. by rewrite decide_False. }
  rewrite (bool_decide_eq_true_2 (k ∉ keys cu)) in HP by done.
  destruct (decide (Some k ∉ _)) as [Hn|Hn]; rewrite Hin in Hn.
  { rewrite (bool_decide_eq_true_2 (k ∉ keys cf)) in HP by done. rewrite HP, decide_True by done. unfold st_bind. by rewrite IH'. }
  rewrite (bool_decide_eq_false_2 (k ∉ keys cf)) in HP by tauto. cbn [andb orb] in HP.
  destruct (Hl k) as [H1 H2]; [left|by apply dec_stable|].
  unfold same_value in HP. destruct (cache_get cf k true) as [x|] eqn:Hx; [|done].
  destruct (cache_get co k true) as [y|] eqn:Hy; [|done].
  rewrite (st_bind_run _ _ _ _ _ (get_val_run _ _ _ _ _ _ Hg Hf Hx)), (st_bind_run _ _ _ _ _ (get_val_run _ _ _ _ _ _ Hg Ho Hy)).
  rewrite HP. destruct (py_eq x y); [rewrite decide_True by done; unfold st_bind; by rewrite IH'|by rewrite decide_False].
Qed.

(** ** The store of a cache, and whether it is dirty, along a copy *)

Definition stored (b : backend W) (dst : string) (dirty : bool) s : Prop :=
  ∃ c, cs_cache s !! dst = Some c ∧ cc_store c = b ∧ (dirty = true → cc_dirty c = true).

Lemma copy_key_stored b src dst dirty k s : stored b dst dirty s → stored b dst dirty (copy_key src dst k s).2.
Proof.
  intros (c & Hc & Hb & Hd). unfold copy_key. rewrite (with_index_ok _ _ _ _ c) by done. unfold with_index.
  destruct (cs_cache s !! src) as [c1|]; [|by exists c]. unfold st_bind, st_lift.
  destruct (cache_get c1 k true) as [v|]; [|by exists c]. unfold on_cache. rewrite (with_index_ok _ _ _ _ c) by done.
  unfold cache_set, cache_mutate. destruct (Payload.set k v (cc_data c)) as [[[]|e] p]; cbn [snd];
    (eexists; split; [by apply lookup_insert_eq|done]).
Qed.
Lemma copy_stored b src dst dirty ks s :
  stored b dst dirty s → stored b dst dirty (st_iter (copy_key src dst) ks s).2.
Proof. apply st_iter_inv. intros k s0 _. apply copy_key_stored. Qed.

Lemma copy_dirty b src dst ks s s' :
  stored b dst false s → st_iter (copy_key src dst) ks s = (Ok tt, s') → ks ≠ [] → stored b dst true s'.
Proof.
  intros Hs. destruct ks as [|k ks]; [done|]. cbn [st_iter]. intros (u & s1 & Hk & Hit)%st_bind_ok _.
  pose proof (copy_stored b src dst true ks s1) as H1. rewrite Hit in H1. apply H1. clear H1.
  destruct Hs as (c & Hc & Hb & _). revert Hk. unfold copy_key. rewrite (with_index_ok _ _ _ _ c) by done. unfold with_index.
  destruct (cs_cache s !! src) as [c1|]; [|done]. unfold st_bind, st_lift.
  destruct (cache_get c1 k true) as [v|]; [|done]. unfold on_cache. rewrite (with_index_ok _ _ _ _ c) by done.
  unfold cache_set, cache_mutate. destruct (Payload.set k v (cc_data c)) as [[[]|e] p]; intros [= <- <-].
  eexists. by split; [apply lookup_insert_eq|].
Qed.

Lemma conf_call_run {A} (m : ST (conf (W:=W)) A) g s r s' :
  g_conf g = Some s → m s = (r, s') →
  conf_call m g = (r, Singleton (Some s') (g_delim g) (g_machine_id g) (g_env g)).
Proof. intros Hg Hm. unfold conf_call. by rewrite Hg, Hm. Qed.

Lemma tree_get d p k v :
  tree d p → canonical d k → denotes p k = Some v → Payload.get p k true = Ok v.
Proof.
  intros [Hw Hd Hg] Hc Hv. apply get_denotes_full; [done| |done].
  unfold key_ok. rewrite (with_delim_sep _ d) by done. by apply canonical_accepted.
Qed.

(** Documents without arrays, and the keys they have. *)
Fixpoint no_arrays (v : value) : bool :=
  match v with
  | VList _ => false
  | VDict items => forallb (λ '(_, x), no_arrays x) items
  | _ => true
  end.

Lemma no_arrays_plain path v x : no_arrays v = true → lookup path v = Some x → forallb plain path = true.
Proof.
  revert v. induction path as [|k path IH]; intros v Hv; [done|]. cbn [lookup forallb].
  destruct v as [| | | | | |items]; try done. destruct (dget _ items) as [y|] eqn:Hy; [|done].
  cbn [mbind option_bind]. apply dget_Some_elem, list_elem_of_In in Hy.
  simpl in Hv. rewrite forallb_forall in Hv. specialize (Hv _ Hy). simpl in Hv. unfold plain at 1.
  destruct (Payload.key_index k).2 as [[i t]|]; [by destruct y|]. intros Hx. by rewrite (IH y Hv Hx).
Qed.

(** Reading such a key of another document never raises. *)
Lemma plain_key_get d p q k :
  tree d p → clean d p → no_arrays (kp_data p) = true → k ∈ Payload.get_keys_rec p "" true →
  tree d q → is_ok (Payload.get q k true) = true.
Proof.
  intros Hp Hcl Hn [Hc (x & Hx & _)]%(keys_elem d) [[_ Hdict _] Hd Hg]; [|done..].
  unfold Payload.get. rewrite (with_delim_sep _ d) by done.
  by rewrite get_plain; [|apply split_nonempty|eapply no_arrays_plain|apply canonical_accepted|].
Qed.

Section save.
Context (b : backend W) (d : ascii) (dom : value → Prop) (valid : W → Prop) {Hb : BackendLaws b (sep d) dom valid}.

(** What [Conf.save] does once the document is [p] *)
Lemma save_run s c :
  cs_cache s !! file = Some c → cc_store c = b → wf_payload (cc_data c) → kp_delim (cc_data c) = sep d → dom (kp_data (cc_data c)) →
  ∃ s', save file s = (Ok tt, s') ∧ cs_cache s' = <[file := cc_update c false (cc_data c)]> (cs_cache s) ∧
    (cc_dirty c = true → ∃ p, b_load b true (cs_world s') = (Ok p, cs_world s') ∧ kp_data p = kp_data (cc_data c)).
Proof.
  intros Hc Hs Hw Hdel Hdom. unfold save. rewrite (with_index_ok _ _ _ _ c) by done. unfold cache_dump. rewrite Hs.
  destruct (cc_dirty c).
  - destruct (dump_ok (cc_data c) (cs_world s) Hw Hdom) as [Hok _].
    destruct (dump_load (cc_data c) (cs_world s) Hw Hdel Hdom) as (p & Hl & Hp).
    destruct (b_dump b (cc_data c) (cs_world s)) as [r w]. simpl in *. subst r.
    eexists. split; [done|]. split; [done|]. intros _. by exists p.
  - eexists. split; [done|]. by split.
Qed.


End save.
End upgrade.

(** ** A configuration *)

Definition document (l : list (string * value)) : payload := Payload.Payload (VDict [("cluster_config", VDict l)]) ">" [].
Definition new_sample : payload :=
  document [("cluster_id", VStr "dummy"); ("user", VStr "root"); ("port", VInt 389); ("log", VBool true)].
Definition old : payload :=
  document [("cluster_id", VStr "dummy"); ("user", VStr "admin"); ("port", VInt 88)].
Definition unsafe : payload := document [("cluster_id", VStr "dummy")].
Definition active : payload :=
  document [("cluster_id", VStr "c1"); ("user", VStr "me"); ("port", VInt 88); ("own", VList [VStr "x"])].

Definition loaded (p : payload) : cache := Cache (Files.json_store "/etc/conf" ">") ">" false p true.
Definition node : conf :=
  ConfStore ">" {[sample := loaded new_sample; old_sample := loaded old; "conf_unsafe_file_index" := loaded unsafe;
                  file := loaded active]} ∅ (VStr "m1") (VStr "m1") ∅ Codec.one_file 0.
Definition upgrading : singleton := Singleton (Some node) (VStr ">") (VStr "m1") (∅, ∅, 0%Z).

Ltac is_document := split; [constructor|]; [constructor; [repeat (constructor; try set_solver)|done|by exists ">"%char]|done..].
Lemma new_sample_tree : tree ">" new_sample ∧ clean ">" new_sample. Proof. is_document. Qed.
Lemma active_tree : tree ">" active ∧ clean ">" active. Proof. is_document. Qed.
Lemma old_tree : tree ">" old ∧ clean ">" old. Proof. is_document. Qed.

(** The numbers of the configuration are not above the keys of the sample:
    those lie right below its one section. *)
Lemma active_free k : k ∈ keys (loaded new_sample) → free ">" active k.
Proof.
  intros Hk pre post x Heq Hpre Hpost Hx.
  assert (Hs : ∃ n, split ">" k = ["cluster_config"; n]).
  { revert k Hk Heq. assert (H : Forall (λ k, ∃ n, split ">" k = ["cluster_config"; n]) (keys (loaded new_sample))).
    { vm_compute. repeat constructor; by eexists. }
    rewrite Forall_forall in H. auto. }
  destruct Hs as [n Hn]. rewrite Hn in Heq. destruct pre as [|p1 [|p2 pre]]; [done| |].
  - injection Heq as <- _. vm_compute in Hx. by injection Hx as <-.
  - destruct post; [done|]. injection Heq as _ _ Heq. by destruct pre.
Qed.


(** With arrays, an element of one that the user changed is kept, and the
    elements the user has not got are added. *)
Definition new_hosts : payload := document [("hosts", VList [VStr "h1"; VStr "h2"])].
Definition old_hosts : payload := document [("hosts", VList [VStr "h0"])].
Definition active_hosts : payload := document [("hosts", VList [VStr "mine"])].
Definition upgrading_hosts : singleton :=
  Singleton (Some (ConfStore ">" {[sample := loaded new_hosts; old_sample := loaded old_hosts;
                      "conf_unsafe_file_index" := loaded unsafe; file := loaded active_hosts]}
                      ∅ (VStr "m1") (VStr "m1") ∅ Codec.one_file 0)) (VStr ">") (VStr "m1") (∅, ∅, 0%Z).
Lemma lists_kept :
  (conf_call (get file "cluster_config>hosts")
     (merge_loaded (Some <$> keys (loaded new_hosts)) (Some <$> keys (loaded unsafe))
        (Some <$> keys (loaded active_hosts)) upgrading_hosts).2).1 = Ok (VList [VStr "mine"; VStr "h2"]).
Proof. vm_compute. reflexivity. Qed.

End LdapUpgrade.
