(* ===== verification/ConsulSetup.v ===== *)
(** [utils/setup/consul]: the set-up of a Consul agent on a node.

    The process is that of [NodeProcess], with the commands of [Nodes] and the
    services of [Systemd].  The texts that [re.sub] puts in have no backslash;
    the time between attempts is not modelled. *)
From Stdlib Require Import Ascii.
From S2P Require Import Prelude PyStr PyVal KvPayload KvStore KvFiles KvDir ConfStore.
From S2P Require Import HaDecision Validator SchemaDoc Packages NodeProcess EsSetup.
Import PyStr Files Dir Shutil NodeProcess.

Module ConsulSetup.

Definition index : string := "consul".
Definition unit_path : string := "/usr/lib/systemd/system/consul.service".
Definition template_path : string := "/opt/seagate/cortx/utils/conf/consul.hcl.tmpl".
Definition default_path : string := "/opt/seagate/cortx/utils/conf/consul.hcf.default".

(** ** The unit of the service *)

(** [re.sub(k + ".*", k + v, s)]; [dropping] is what remains of a matched line. *)
Fixpoint re_sub (dropping : bool) (k v s : string) : string :=
  match s with
  | EmptyString => EmptyString
  | String c s' =>
      if dropping then if Ascii.eqb c nl then String c (re_sub false k v s') else re_sub true k v s'
      else if startswith s k then k +:+ v +:+ re_sub true k v s'
      else String c (re_sub false k v s')
  end.

Definition rewrite_unit (settings : list (string * string)) (content : string) : string :=
  foldl (λ t kv, re_sub false kv.1 kv.2 t) content settings.

Definition configured_unit (config_path : string) : list (string * string) :=
  [("config-dir=", config_path); ("ConditionFileNotEmpty=", config_path +:+ "/consul.hcl");
   ("User=", "root"); ("Group=", "root")].
Definition default_unit : list (string * string) :=
  [("config-dir=", "/etc/consul.d"); ("ConditionFileNotEmpty=", "/etc/consul.d/consul.hcl");
   ("User=", "consul"); ("Group=", "consul")].

Section setup.
Context {W : Type} (cwd : list string).
Context (machine_id_file : W → option string) (urlparse : string → string * string * string).
Context (classes : list (string * (string → string → string → ST W (Store.backend W)))).
Context (repr : value → string) (json_dumps : value → string).
Context {N : Validator.Nodes W} {SD : Service.Systemd W} (ssh_open : string → string → string → string → W → bool * W).
Context (get_tree : W → tree) (set_tree : tree → W → W).

Notation process := (Conf.singleton (W:=W)).
Notation on_files := (NodeProcess.on_files get_tree set_tree).

Definition str (v : value) : string := py_str repr v.

(** [Conf.get(index, key, default_val)] *)
Definition conf_get (key : string) (default_val : value) : ST process value :=
  Conf.conf_call (Conf.get_val index (Some key) default_val true).
Definition machine_id : ST process value := Conf.conf_class_machine_id machine_id_file.
Definition as_text (v : value) : res string := match v with VStr s => Ok s | _ => Err TypeError end.

Definition init_setup (conf_url : string) : ST process unit :=
  Conf.conf_class_load machine_id_file urlparse classes index conf_url (VBool true) [].

(** A command that must succeed *)
Definition run_checked (cmd : string) : ST process unit :=
  let! (_, _, rc) := on_machine (Validator.run cmd) in
  if decide (rc ≠ 0%Z) then st_raise (SetupError rc) else st_ret tt.

(** [for i in range(attempts): try: m; break], the last exception raised again *)
Fixpoint retry (attempts : nat) (handled : exn → bool) (m : ST process unit) : ST process unit :=
  match attempts with
  | 0 => st_ret tt
  | 1 => m
  | S n => st_except handled m (λ _, retry n handled m)
  end.

Definition edit_unit (settings : list (string * string)) : ST process unit :=
  let! content := on_files (λ fs, (read_path cwd fs unit_path, fs)) in
  on_files (write_path cwd unit_path (VStr (rewrite_unit settings content))).

(** ** [validate] *)

Definition require_keys (keys : list string) : ST process unit :=
  st_iter (λ key,
    let! value := conf_get key VNull in
    if truthy value then st_ret tt else st_raise (ConfError EINVAL)) keys.
Definition path_keys : list string := ["cortx>software>consul>config_path"; "cortx>software>consul>data_path"].

(** [Conf.get(self.index, "server_node").keys()] *)
Definition node_ids : ST process (list string) :=
  let! nodes := conf_get "server_node" VNull in
  match nodes with VDict d => st_ret (dkeys d) | _ => st_raise AttributeError end.

Fixpoint fqdns_of (ids : list string) : ST process (list value) :=
  match ids with
  | [] => st_ret []
  | machine_id :: ids' =>
      let! fqdn := conf_get ("server_node>" +:+ machine_id +:+ ">network>data>private_fqdn") VNull in
      let! fqdns := fqdns_of ids' in
      st_ret (fqdn :: fqdns)
  end.

(** [NetworkV().validate("connectivity", fqdns)]: a name that is not a text has
    no [count]. *)
Definition connectivity (fqdns : list value) : ST W unit :=
  if decide (length fqdns < 1) then Validator.invalid else
  st_iter (λ fqdn, match fqdn with
                   | VStr host => Validator.validate_host_connectivity [host]
                   | _ => st_raise AttributeError
                   end) fqdns.

Definition is_verror (e : exn) : bool := match e with VError _ => true | _ => false end.
Definition is_service_error (e : exn) : bool := match e with SystemdError _ => true | _ => false end.

Definition validate (stage : string) : ST process unit :=
  if decide (stage = "post_install") then
    on_machine (Packages.fresh (Packages.validate_pkg ssh_open "rpms" ["consul"] None))
  else if decide (stage = "config") then
    let! id1 := machine_id in
    let! id2 := machine_id in
    require_keys (("server_node>" +:+ str id1 +:+ ">network>data>private_interfaces") ::
                  ("server_node>" +:+ str id2 +:+ ">network>data>private_fqdn") :: path_keys) ;;;
    let! ids := node_ids in
    let! fqdns := fqdns_of ids in
    retry 3 is_verror (on_machine (connectivity fqdns))
  else if decide (stage = "cleanup") then require_keys path_keys
  else st_ret tt.

(** ** The phases *)

Definition init : ST process unit :=
  retry 3 (λ e, is_verror e || is_service_error e)
    (on_machine (let! s := Service.new_service "consul.service" None in Service.start s) ;;;
     on_machine (Validator.validate_service_command "isrunning" ["consul"] None)).

(** The loop over the nodes: how many servers there are, the names of the
    others, and whether this node is one *)
Fixpoint servers (ids : list string) : ST process (nat * list value * bool) :=
  match ids with
  | [] => st_ret (0, [], false)
  | id :: ids' =>
      let! roles := conf_get ("server_node>" +:+ id +:+ ">roles") (VList []) in
      let! is_server := st_lift (Ha.py_in (VStr "consul_server") roles) in
      if is_server : bool then
        let! this := machine_id in
        if py_eq this (VStr id) then
          let! (n, fqdns, _) := servers ids' in st_ret (S n, fqdns, true)
        else
          let! fqdn := conf_get ("server_node>" +:+ id +:+ ">network>data>private_fqdn") VNull in
          let! (n, fqdns, here) := servers ids' in st_ret (S n, fqdn :: fqdns, here)
      else servers ids'
  end.

Definition hcl_text (content bind_addr data_path : string) (is_server_node : bool) (bootstrap_expect : nat)
    (server_node_fqdns : list value) : string :=
  replace "RETRY_JOIN" (json_dumps (VList server_node_fqdns))
    (replace "BOOTSTRAP_EXPECT" (dec bootstrap_expect)
      (replace "SERVER" (if is_server_node then "true" else "false")
        (replace "DATA_DIR" data_path (replace "BIND_ADDR" bind_addr content)))).

(** The file is emptied before the template is read. *)
Definition write_hcl (config_path data_path : string) (bind_addr : value) (found : nat * list value * bool) : ST process unit :=
  let '(bootstrap_expect, server_node_fqdns, is_server_node) := found in
  let hcl := config_path +:+ "/consul.hcl" in
  on_files (write_path cwd hcl (VStr "")) ;;;
  let! content := on_files (λ fs, (read_path cwd fs template_path, fs)) in
  let! addr := st_lift (as_text bind_addr) in
  on_files (write_path cwd hcl
    (VStr (hcl_text content addr data_path is_server_node bootstrap_expect server_node_fqdns))).

Definition config : ST process unit :=
  let! config_path := conf_get "cortx>software>consul>config_path" (VStr "/etc/consul.d") in
  let! data_path := conf_get "cortx>software>consul>data_path" (VStr "/opt/consul") in
  let! config_path := st_lift (as_text config_path) in
  on_files (makedirs cwd config_path) ;;;
  let! data_path := st_lift (as_text data_path) in
  on_files (makedirs cwd data_path) ;;;
  edit_unit (configured_unit config_path) ;;;
  run_checked "systemd-analyze verify consul.service" ;;;
  run_checked "systemctl daemon-reload" ;;;
  let! this := machine_id in
  let! bind_addr := conf_get ("server_node>" +:+ str this +:+ ">network>data>private_interfaces[0]") VNull in
  let! ids := node_ids in
  let! found := servers ids in
  write_hcl config_path data_path bind_addr found ;;;
  run_checked ("consul validate " +:+ config_path +:+ "/consul.hcl") ;;;
  run_checked ("chown -R root:root " +:+ config_path +:+ " " +:+ data_path).

Definition reset : ST process unit := run_checked "consul kv delete --recurse".

(** [shutil.rmtree(path, ignore_errors=True)] *)
Definition remove_tree (path : value) : ST process unit :=
  match path with
  | VStr p => on_files (λ fs, (Ok tt, (rmtree cwd p fs).2))
  | _ => st_ret tt
  end.

Definition cleanup (pre_factory : bool) : ST process unit :=
  st_except is_service_error
    (on_machine (let! s := Service.new_service "consul.service" None in Service.stop s)) (λ _, st_ret tt) ;;;
  edit_unit default_unit ;;;
  run_checked "systemctl daemon-reload" ;;;
  let! config_path := conf_get "cortx>software>consul>config_path" (VStr "/etc/consul.d") in
  remove_tree config_path ;;;
  on_files (makedirs cwd "/etc/consul.d") ;;;
  on_files (copyfile cwd default_path "/etc/consul.d/consul.hcl") ;;;
  run_checked "chown -R consul:consul /etc/consul.d" ;;;
  let! data_path := conf_get "cortx>software>consul>data_path" (VStr "/opt/consul/") in
  remove_tree data_path.

(** [post_install], [prepare], [preupgrade] and [postupgrade] *)
Definition no_action : ST process unit := st_ret tt.

(** ** The command [consul_setup]; [test] is not modelled. *)

Definition run_command (name : string) (pre_factory : bool) : option (ST process unit) :=
  if decide (name ∈ ["preupgrade"; "postupgrade"]) then Some no_action
  else (λ m, validate name ;;; m) <$>
    (if decide (name ∈ ["post_install"; "prepare"]) then Some no_action
     else if decide (name = "config") then Some config
     else if decide (name = "init") then Some init
     else if decide (name = "reset") then Some reset
     else if decide (name = "cleanup") then Some (cleanup pre_factory)
     else None).

Definition main (name url : string) (pre_factory : bool) : process → Z * process := λ g,
  match run_command name pre_factory with
  | None => (2%Z, g)
  | Some m =>
      match (init_setup url ;;; m) g with
      | (Ok _, g') => (0%Z, g')
      | (Err (SetupError rc), g') => (rc, g')
      | (Err _, g') => (EINVAL, g')
      end
  end.

End setup.
End ConsulSetup.

(** * Theorems

    What the set-up of Consul does to the unit of the service can be undone by
    its clean-up, and an agent joins exactly the other servers. *)
Import PyStr Files ConsulSetup.

Module ConsulSetupSpec.

(** ** Texts after a key *)

(** The first occurrence of the key in a line takes what follows it along. *)
Fixpoint sub_line (k v line : string) : string :=
  match line with
  | EmptyString => EmptyString
  | String c line' => if startswith line k then k +:+ v else String c (sub_line k v line')
  end.

(** A key ends with the only equals sign it has. *)
Definition key (k : string) : Prop := ∃ x, k = x +:+ "=" ∧ x ≠ "" ∧ no_char "=" x = true ∧ no_char nl x = true.

Lemma key_ne k : key k → k ≠ "".
Proof. intros (x & -> & _). by destruct x. Qed.
Lemma key_line k : key k → no_char nl k = true.
Proof. intros (x & -> & _ & _ & Hx). by rewrite no_char_app, Hx. Qed.

Lemma startswith_empty s : startswith s "" = true.
Proof. by destruct s. Qed.

Lemma startswith_sep d a t p : no_char d p = true → startswith (a +:+ String d t) p = startswith a p.
Proof.
  revert p. induction a as [|c a IH]; intros [|x p]; try done.
  - intros [Hx _]%no_char_cons. cbn. by apply Ascii.eqb_neq in Hx as ->.
  - intros [_ Hp]%no_char_cons. rewrite sapp_cons. cbn. by rewrite IH.
Qed.

Lemma drop_line k v L t : no_char nl L = true → re_sub true k v (L +:+ String nl t) = String nl (re_sub false k v t).
Proof.
  induction L as [|c L IH]; [done|]. intros [Hc HL]%no_char_cons. rewrite sapp_cons. cbn [re_sub].
  apply Ascii.eqb_neq in Hc as ->. by apply IH.
Qed.
Lemma drop_last k v L : no_char nl L = true → re_sub true k v L = "".
Proof.
  induction L as [|c L IH]; [done|]. intros [Hc HL]%no_char_cons. cbn [re_sub].
  apply Ascii.eqb_neq in Hc as ->. by apply IH.
Qed.

Lemma re_sub_line k v L t :
  key k → no_char nl L = true → re_sub false k v (L +:+ String nl t) = sub_line k v L +:+ String nl (re_sub false k v t).
Proof.
  intros Hk. induction L as [|c L IH].
  { intros _. change ("" +:+ String nl t) with (String nl t). cbn [re_sub sub_line].
    destruct (startswith (String nl t) k) eqn:Hs; [|done]. exfalso.
    pose proof (startswith_sep nl "" t k (key_line k Hk)) as He. change ("" +:+ String nl t) with (String nl t) in He.
    rewrite Hs in He. pose proof (key_ne k Hk). by destruct k. }
  intros [Hc HL]%no_char_cons. rewrite sapp_cons. cbn [re_sub sub_line].
  rewrite <- sapp_cons, (startswith_sep nl (String c L) t k (key_line k Hk)).
  destruct (startswith (String c L) k); [|by rewrite IH]. rewrite drop_line by done. by rewrite sapp_assoc.
Qed.
Lemma re_sub_last k v L : no_char nl L = true → re_sub false k v L = sub_line k v L.
Proof.
  induction L as [|c L IH]; [done|]. intros [Hc HL]%no_char_cons. cbn [re_sub sub_line].
  destruct (startswith (String c L) k); [by rewrite drop_last, sapp_nil_r|by rewrite IH].
Qed.

Lemma re_sub_lines k v ls :
  key k → Forall (λ l, no_char nl l = true) ls →
  re_sub false k v (join (sep nl) ls) = join (sep nl) (sub_line k v <$> ls).
Proof.
  intros Hk. induction 1 as [|l ls Hl Hls IH]; [done|]. destruct ls as [|l' ls]; [by apply re_sub_last|].
  change (join (sep nl) (l :: l' :: ls)) with (l +:+ String nl (join (sep nl) (l' :: ls))).
  rewrite re_sub_line, IH by done. done.
Qed.

Lemma sub_line_no_nl k v L : no_char nl k = true → no_char nl v = true → no_char nl L = true → no_char nl (sub_line k v L) = true.
Proof.
  intros Hk Hv. induction L as [|c L IH]; [done|]. intros [Hc HL]%no_char_cons. cbn [sub_line].
  destruct (startswith _ _); [by rewrite no_char_app|]. apply no_char_cons. auto.
Qed.

(** ** Lines with one key *)

Lemma sub_absent k v L : contains L k = false → sub_line k v L = L.
Proof.
  induction L as [|c L IH]; [done|]. cbn [contains sub_line]. intros [-> H]%orb_false_iff. by rewrite IH.
Qed.

(** Where the key is does not depend on what is put after it. *)
Lemma sub_present k L : contains L k = true → k ≠ "" → ∃ b r, L = b +:+ k +:+ r ∧ ∀ v, sub_line k v L = b +:+ k +:+ v.
Proof.
  intros Hc Hk. induction L as [|c L IH]; [by destruct k|]. cbn [contains] in Hc.
  destruct (startswith (String c L) k) eqn:Hs.
  - pose proof Hs as [r Hr]%startswith_spec. exists "", r. split; [done|]. intros v. cbn [sub_line]. by rewrite Hs.
  - destruct (IH Hc) as (b & r & -> & Hv). exists (String c b), r. split; [done|].
    intros v. cbn [sub_line]. by rewrite Hs, Hv.
Qed.

Lemma startswith_same k x y q : String.length q ≤ String.length k → startswith (k +:+ x) q = startswith (k +:+ y) q.
Proof.
  revert q. induction k as [|c k IH]; intros [|a q] Hl; cbn in Hl; [by destruct x, y|lia|done|].
  rewrite !sapp_cons. cbn. by rewrite (IH q) by lia.
Qed.
Lemma startswith_sub k v L q : String.length q ≤ String.length k → startswith (sub_line k v L) q = startswith L q.
Proof.
  revert q. induction L as [|c L IH]; intros q Hl; [done|]. cbn [sub_line].
  destruct (startswith (String c L) k) eqn:Hs.
  - apply startswith_spec in Hs as [r ->]. by apply startswith_same.
  - destruct q as [|a q]; [done|]. cbn. cbn in Hl. by rewrite IH by lia.
Qed.

Lemma sub_again k d v L : k ≠ "" → sub_line k d (sub_line k v L) = sub_line k d L.
Proof.
  intros Hk. induction L as [|c L IH]; [done|]. cbn [sub_line]. destruct (startswith (String c L) k) eqn:Hs.
  - destruct (k +:+ v) as [|x s] eqn:Hkv; [by destruct k|].
    cbn [sub_line]. rewrite <- Hkv, startswith_app. done.
  - cbn [sub_line]. rewrite IH. destruct k as [|a k]; [done|]. cbn in Hs |- *.
    rewrite startswith_sub by (cbn; lia). by rewrite Hs.
Qed.

Lemma contains_sep k a v : key k → contains (a +:+ "=" +:+ v) k = contains (a +:+ "=") k || contains v k.
Proof.
  intros (x & -> & Hne & Hx & _). induction a as [|c a IH].
  - change ("" +:+ "=" +:+ v) with (String "=" v). change ("" +:+ "=") with (String "=" "").
    assert (Hs : ∀ t, startswith (String "=" t) (x +:+ "=") = false).
    { intros t. destruct x as [|y x]; [done|]. apply no_char_cons in Hx as [Hy _]. rewrite sapp_cons. cbn.
      by apply Ascii.eqb_neq in Hy as ->. }
    cbn [contains]. rewrite !Hs. by destruct x.
  - rewrite !(sapp_cons c a). cbn [contains]. rewrite IH, orb_assoc. f_equal. f_equal.
    rewrite <- !(sapp_cons c a). change ("=" +:+ v) with (String "=" v). clear IH Hne. revert x Hx.
    generalize (String c a) as s. intros s. induction s as [|b s IHs]; intros [|y x] Hx.
    + by destruct v.
    + apply no_char_cons in Hx as [Hy _]. cbn. by apply Ascii.eqb_neq in Hy as ->.
    + rewrite !(sapp_cons b s). cbn. by rewrite !startswith_empty.
    + rewrite !(sapp_cons b s), !(sapp_cons y x). cbn. apply no_char_cons in Hx as [_ Hx]. by rewrite IHs.
Qed.

(** Another key does not come with the new text. *)
Lemma sub_other k k' v L :
  key k → key k' → contains L k' = false → contains v k' = false → contains (sub_line k v L) k' = false.
Proof.
  intros Hk Hk' HL Hv. destruct (contains L k) eqn:Hc; [|by rewrite sub_absent].
  destruct (sub_present k L Hc (key_ne k Hk)) as (b & r & -> & ->). destruct Hk as (x & -> & _).
  assert (Hs : ∀ t, b +:+ (x +:+ "=") +:+ t = (b +:+ x) +:+ "=" +:+ t) by (intros; by rewrite !sapp_assoc).
  rewrite Hs in *. rewrite contains_sep in * by done. apply orb_false_iff in HL as [-> _]. by rewrite Hv.
Qed.

(** ** The unit *)

Definition apply_line (settings : list (string * string)) (line : string) : string :=
  foldl (λ l kv, sub_line kv.1 kv.2 l) line settings.

(** Settings of distinct keys, whose values are on one line and have no key *)
Record fine (settings : list (string * string)) : Prop := Fine {
  fi_keys : NoDup settings.*1;
  fi_key : Forall (λ kv, key kv.1) settings;
  fi_value : Forall (λ kv, no_char "=" kv.2 = true ∧ no_char nl kv.2 = true) settings
}.

Lemma fine_tail kv settings : fine (kv :: settings) → fine settings.
Proof. intros [Hn Hk Hv]. apply NoDup_cons in Hn as [_ ?]. inversion Hk. inversion Hv. by constructor. Qed.

Lemma no_key_value v k : key k → no_char "=" v = true → contains v k = false.
Proof.
  intros (x & -> & Hne & Hx & _). assert (Hs : ∀ s, no_char "=" s = true → startswith s (x +:+ "=") = false).
  { clear v Hne Hx. induction x as [|y x IH]; intros [|c s] Hs; try done.
    - apply no_char_cons in Hs as [Hc _]. change (startswith (String c s) ("" +:+ "=")) with (Ascii.eqb "=" c && startswith s "").
      by destruct (Ascii.eqb_spec "=" c) as [<-|].
    - apply no_char_cons in Hs as [_ Hs]. rewrite sapp_cons. cbn. by rewrite IH, andb_false_r. }
  induction v as [|c v IH]; intros Hv; [by destruct x|]. cbn [contains]. rewrite Hs by done.
  apply no_char_cons in Hv as [_ Hv]. by apply IH.
Qed.

Lemma rewrite_unit_lines settings ls :
  fine settings → ls ≠ [] → Forall (λ l, no_char nl l = true) ls →
  rewrite_unit settings (join (sep nl) ls) = join (sep nl) (apply_line settings <$> ls) ∧
  Forall (λ l, no_char nl l = true) (apply_line settings <$> ls).
Proof.
  revert ls. induction settings as [|[k v] settings IH]; intros ls Hf Hne Hls.
  { change (apply_line [] <$> ls) with ((λ l : string, l) <$> ls). by rewrite list_fmap_id. }
  pose proof (fine_tail _ _ Hf) as Hf'. destruct Hf as [_ Hk Hv].
  apply Forall_cons in Hk as [Hk _]. apply Forall_cons in Hv as [[_ Hv] _]. cbn [fst snd] in *.
  unfold rewrite_unit. cbn [foldl fst snd]. rewrite re_sub_lines by done.
  fold (rewrite_unit settings (join (sep nl) (sub_line k v <$> ls))).
  assert (Hls' : Forall (λ l, no_char nl l = true) (sub_line k v <$> ls)).
  { apply Forall_fmap. eapply Forall_impl; [exact Hls|]. intros l Hl. by apply sub_line_no_nl; [apply key_line| |]. }
  destruct (IH (sub_line k v <$> ls) Hf') as [-> Hl]; [by destruct ls|done|].
  rewrite <- list_fmap_compose in *. done.
Qed.

Lemma apply_absent settings line :
  Forall (λ kv, contains line kv.1 = false) settings → apply_line settings line = line.
Proof.
  induction 1 as [|[k v] settings Hk Hs IH]; [done|]. unfold apply_line. cbn [foldl fst snd] in *.
  by rewrite sub_absent.
Qed.

(** On a line with one key, only its setting counts. *)
Lemma apply_present settings line k v :
  fine settings → (k, v) ∈ settings → Forall (λ kv, kv.1 ≠ k → contains line kv.1 = false) settings →
  apply_line settings line = sub_line k v line.
Proof.
  induction settings as [|[k0 v0] settings IH]; intros Hf Hin Hone; [by apply not_elem_of_nil in Hin|].
  pose proof (fine_tail _ _ Hf) as Hf'. destruct Hf as [Hn Hk Hv]. apply NoDup_cons in Hn as [Hn _].
  apply Forall_cons in Hk as [Hk0 Hk]. apply Forall_cons in Hv as [[Hv0 _] _].
  apply Forall_cons in Hone as [H0 Hone]. unfold apply_line. cbn [foldl fst snd] in *.
  destruct (decide (k0 = k)) as [->|Hne].
  - assert (v0 = v) as ->.
    { apply elem_of_cons in Hin as [[= ->]|Hin]; [done|]. exfalso. apply Hn, list_elem_of_fmap. by exists (k, v). }
    apply apply_absent. rewrite Forall_forall in *. intros [k' v'] Hin'. cbn [fst].
    assert (Hd : k' ≠ k) by (intros ->; apply Hn, list_elem_of_fmap; by exists (k, v')).
    apply sub_other; [done|by apply (Hk (k', v'))|by apply (Hone (k', v'))|].
    apply no_key_value; [by apply (Hk (k', v'))|done].
  - rewrite sub_absent by auto. apply IH; [done| |done].
    by apply elem_of_cons in Hin as [[= ]|Hin].
Qed.

Definition keys : list string := default_unit.*1.
Definition one_key (line : string) : Prop :=
  ∀ k k', k ∈ keys → k' ∈ keys → contains line k = true → contains line k' = true → k = k'.

Lemma key_keys : Forall key keys.
Proof. repeat constructor; [exists "config-dir"|exists "ConditionFileNotEmpty"|exists "User"|exists "Group"]; done. Qed.

Lemma fine_unit settings :
  settings.*1 = keys → Forall (λ kv, no_char "=" kv.2 = true ∧ no_char nl kv.2 = true) settings → fine settings.
Proof.
  intros Hk Hv. constructor; [rewrite Hk; apply (bool_decide_unpack _); vm_compute; exact I| |done].
  pose proof key_keys as Hkk. rewrite <- Hk in Hkk. exact (proj1 (Forall_fmap _ _ _) Hkk).
Qed.

Lemma unit_line settings1 settings2 line :
  fine settings1 → fine settings2 → settings1.*1 = keys → settings2.*1 = keys → one_key line →
  apply_line settings2 (apply_line settings1 line) = apply_line settings2 line.
Proof.
  intros Hf1 Hf2 Hk1 Hk2 Hone.
  destruct (decide (Exists (λ k, contains line k = true) keys)) as [Hex|Hno].
  - apply Exists_exists in Hex as (k & Hk & Hc).
    assert (Hin : ∀ st, st.*1 = keys → ∃ v : string, (k, v) ∈ st).
    { intros st Hst. rewrite <- Hst in Hk. apply list_elem_of_fmap in Hk as ([k' v] & -> & Hin). by exists v. }
    destruct (Hin _ Hk1) as [v1 H1]. destruct (Hin _ Hk2) as [v2 H2].
    assert (Habs : ∀ k', k' ∈ keys → k' ≠ k → contains line k' = false).
    { intros k' Hk' Hne. destruct (contains line k') eqn:Hc'; [|done]. by destruct (Hne (Hone k' k Hk' Hk Hc' Hc)). }
    assert (Hall : ∀ st : list (string * string), st.*1 = keys → ∀ kv, kv ∈ st → kv.1 ∈ keys).
    { intros st <- kv Hkv. apply list_elem_of_fmap. by exists kv. }
    rewrite (apply_present settings1 line k v1 Hf1 H1), (apply_present settings2 line k v2 Hf2 H2).
    + rewrite (apply_present settings2 _ k v2 Hf2 H2); [apply sub_again|].
      * pose proof key_keys as Hkk. rewrite Forall_forall in Hkk. by apply key_ne, Hkk.
      * apply Forall_forall. intros kv Hkv Hne. pose proof key_keys as Hkk. rewrite Forall_forall in Hkk.
        pose proof (Hall settings2 Hk2 kv Hkv) as Hkv'.
        apply sub_other; [by apply Hkk|by apply Hkk|by apply Habs|].
        apply no_key_value; [by apply Hkk|]. destruct Hf1 as [_ _ Hv]. rewrite Forall_forall in Hv. by apply (Hv _ H1).
    + apply Forall_forall. intros kv Hkv Hne. by apply Habs; [apply (Hall settings2 Hk2 kv)|].
    + apply Forall_forall. intros kv Hkv Hne. by apply Habs; [apply (Hall settings1 Hk1 kv)|].
  - assert (Hn : ∀ st : list (string * string), st.*1 = keys → Forall (λ kv, contains line kv.1 = false) st).
    { intros st Hst. assert (Hall : Forall (λ k, contains line k = false) keys).
      { apply Forall_forall. intros k Hk. destruct (contains line k) eqn:Hc; [|done].
        destruct Hno. apply Exists_exists. eauto. }
      rewrite <- Hst in Hall. exact (proj1 (Forall_fmap _ _ _) Hall). }
    by rewrite (apply_absent settings1) by auto.
Qed.

(** The clean-up of the unit of Consul undoes its configuration: whatever
    the directory was, the text is the one the clean-up makes of the unit as it
    was installed, when no line of it has two settings. *)
Theorem unit_restored config_path content :
  no_char "=" config_path = true → no_char nl config_path = true → Forall one_key (split nl content) →
  rewrite_unit default_unit (rewrite_unit (configured_unit config_path) content) = rewrite_unit default_unit content.
Proof.
  intros He Hn Hone.
  assert (Hf1 : fine (configured_unit config_path)).
  { apply fine_unit; [done|]. repeat constructor; cbn [snd]; rewrite ?no_char_app, ?He, ?Hn; done. }
  assert (Hf2 : fine default_unit) by (apply fine_unit; [done|by repeat constructor]).
  rewrite <- (join_split nl content). pose proof (split_pieces nl content) as Hp.
  pose proof (split_nonempty nl content) as Hne. revert Hone Hp Hne. generalize (split nl content) as ls.
  intros ls Hone Hp Hne. destruct (rewrite_unit_lines _ ls Hf1 Hne Hp) as [-> Hp1].
  destruct (rewrite_unit_lines _ ls Hf2 Hne Hp) as [-> _].
  destruct (rewrite_unit_lines _ (apply_line (configured_unit config_path) <$> ls) Hf2) as [-> _];
    [by destruct ls|done|]. f_equal. rewrite <- list_fmap_compose. apply list_fmap_ext.
  intros i line Hi. rewrite Forall_forall in Hone. apply unit_line; try done.
  by apply Hone, (list_elem_of_lookup_2 _ i).
Qed.

Definition installed : string := join (sep nl)
  ["[Unit]"; "ConditionFileNotEmpty=/etc/consul.d/consul.hcl"; ""; "[Service]"; "User=consul"; "Group=consul";
   "ExecStart=/usr/bin/consul agent -config-dir=/etc/consul.d"; "KillMode=process"; ""].

Lemma unit_restored_witness :
  rewrite_unit (configured_unit "/cortx/consul") installed ≠ installed ∧
  rewrite_unit default_unit installed = installed ∧
  rewrite_unit default_unit (rewrite_unit (configured_unit "/cortx/consul") installed) = rewrite_unit default_unit installed.
Proof.
  split; [vm_compute; discriminate|]. split; [vm_compute; reflexivity|].
  apply unit_restored; [reflexivity|reflexivity|].
  assert (H : Forall (λ line, Forall (λ k, Forall (λ k', contains line k = true → contains line k' = true → k = k') keys) keys)
                (split nl installed)) by (apply (bool_decide_unpack _); vm_compute; exact I).
  eapply Forall_impl; [exact H|]. intros line Hl k k' Hk Hk'. rewrite Forall_forall in Hl. specialize (Hl k Hk).
  rewrite Forall_forall in Hl. exact (Hl k' Hk').
Defined.

(** ** The servers of the cluster *)

Section servers.
Context {W : Type} (machine_id_file : W → option string) (g : Conf.singleton (W:=W)).
Context (me : string) (roles : string → list value) (fqdn : string → value).
Context (Hme : machine_id machine_id_file g = (Ok (VStr me), g)).

Definition is_server (id : string) : Prop := existsb (py_eq (VStr "consul_server")) (roles id) = true.
Definition described (id : string) : Prop :=
  conf_get ("server_node>" +:+ id +:+ ">roles") (VList []) g = (Ok (VList (roles id)), g) ∧
  conf_get ("server_node>" +:+ id +:+ ">network>data>private_fqdn") VNull g = (Ok (fqdn id), g).

(** The servers are counted, the names of the others than this node are
    collected in order, and the node knows whether it is one. *)
Lemma servers_exact ids :
  Forall described ids →
  servers machine_id_file ids g =
    (Ok (length (filter is_server ids), fqdn <$> filter (λ id, id ≠ me) (filter is_server ids),
         bool_decide (me ∈ filter is_server ids)), g).
Proof.
  induction 1 as [|id ids [Hr Hf] Hids IH]; [done|]. cbn [servers].
  rewrite (st_bind_run _ _ _ _ _ Hr). rewrite (st_bind_run _ _ _ (existsb (py_eq (VStr "consul_server")) (roles id)) g) by done.
  rewrite (filter_cons is_server). destruct (decide (is_server id)) as [Hs|Hs]; unfold is_server in Hs;
    [rewrite Hs|by rewrite (not_true_is_false _ Hs)].
  rewrite (st_bind_run _ _ _ _ _ Hme). cbn [py_eq].
  rewrite filter_cons. destruct (bool_decide_reflect (me = id)) as [->|Hne].
  - rewrite (st_bind_run _ _ _ _ _ IH), decide_False by (intros Hx; by apply Hx).
    rewrite (bool_decide_eq_true_2 (id ∈ id :: _)) by left. done.
  - rewrite (st_bind_run _ _ _ _ _ Hf), (st_bind_run _ _ _ _ _ IH), decide_True by (intros ->; by apply Hne).
    unfold st_ret. do 4 f_equal. apply bool_decide_ext. rewrite elem_of_cons. naive_solver.
Qed.

End servers.
End ConsulSetupSpec.
