(* ===== verification/CliFramework.v ===== *)
(** [utils/cli_framework]: commands described by documents ([parser.py],
    [command_factory.py]), the display of their responses ([command.py]), and
    the questions of the terminal ([terminal.py]).

    A parser of [argparse] is the tree of what was added to it; its parsing of
    a command line, the tables of PrettyTable, the modules of the process and
    the directory of the documents are parameters. *)
From Stdlib Require Import Ascii.
From S2P Require Import Prelude PyStr PyVal KvFiles HaDecision.
Import PyStr Files.

Module Cli.

Definition dict : Type := list (string * value).

(** ** Documents *)

Definition as_dict (v : value) : res dict := match v with VDict d => Ok d | _ => Err AttributeError end.
(** [d[k]] *)
Definition item {A} (k : string) (d : list (string * A)) : res A :=
  match dget k d with Some x => Ok x | None => Err KeyError end.
(** [d.get(k, dflt)] *)
Definition get (k : string) (dflt : value) (d : dict) : value := default dflt (dget k d).
(** The text of a value that the code uses as one *)
Definition text (v : value) : res string := match v with VStr s => Ok s | _ => Err TypeError end.

(** ** Parsers of [argparse] *)

(** A keyword argument of [add_argument] *)
Inductive arg := Val (v : value) | Builtin (name : string) | Function (module name : string) | SUPPRESS.

Record defaults := Defaults {
  d_action : value;
  d_comm : dict;
  d_output : value;
  d_need_confirmation : value;
  d_sub_command_name : value
}.

Inductive parser := Parser {
  p_name : value;
  p_help : value;
  p_arguments : list (value * list (string * arg));
  p_defaults : option defaults;
  p_subparsers : list parser
}.

Section cli.
(** [import_module(name)], with [getattr] on the module; [getattr(builtins, name)];
    and what [add_argument] says about an argument after others *)
Context (import_module : string → res (string → res unit)) (builtin : string → res unit).
Context (add_argument : list (value * list (string * arg)) → value → list (string * arg) → res unit).

(** ** [class CommandParser] *)

Section parse.
Context (permissions : value).

Definition _check_permissions (sub_command : dict) : res bool :=
  let permission_tag := get "permissions_tag" (VBool false) sub_command in
  if truthy permission_tag then
    match permissions, permission_tag with
    | VDict perms, VStr tag => Ok (truthy (get tag (VBool false) perms))
    | VDict _, (VList _ | VDict _) => Err TypeError
    | VDict _, _ => Ok false
    | _, _ => Err AttributeError
    end
  else Ok false.

(** [each_args.get("dest", None) or each_args.get("flag")] *)
Definition dest_or_flag (each_args : list (string * arg)) : value :=
  let value_of k := match dget k each_args with Some (Val v) => v | _ => VNull end in
  if truthy (value_of "dest") then value_of "dest" else value_of "flag".

(** The name is a key of [self._communication_obj[part]].  One that is not a
    text is left out: it belongs to an argument that is refused afterwards. *)
Definition put_in (part : string) (name : value) : ST dict unit := λ comm,
  match dget part comm, name with
  | Some (VDict d), VStr k => (Ok tt, dset part (VDict (dset k (VStr "") d)) comm)
  | Some (VDict d), (VList _ | VDict _) => (Err TypeError, comm)
  | Some (VDict d), _ => (Ok tt, comm)
  | _, _ => (Err KeyError, comm)
  end.

Definition arg_truthy (k : string) (each_args : list (string * arg)) : bool :=
  match dget k each_args with Some (Val v) => truthy v | Some _ => true | None => false end.

Definition _handle_comm (each_args : list (string * arg)) : ST dict (list (string * arg)) :=
  let part name (a : list (string * arg)) : ST dict (list (string * arg)) :=
    if arg_truthy name a then
      let a' := ddel name a in put_in name (dest_or_flag a') ;;; st_ret a'
    else st_ret a in
  let! a := part "params" each_args in part "json" a.

(** The type of an argument, by its name or by a function of a module *)
Definition resolve_type (a : list (string * arg)) : res (list (string * arg)) :=
  if arg_truthy "type" a then
    if arg_truthy "type_method" a then
      match dget "type_method" a with
      | Some (Val type_method) =>
          let a1 := ddel "type_method" a in
          if arg_truthy "type_target" a1 then
            match dget "type_target" a1, type_method with
            | Some (Val (VStr target)), VStr name =>
                has ← import_module target;
                _ ← has name;
                Ok (dset "type" (Function target name) (ddel "type_target" a1))
            | _, _ => Err AttributeError
            end
          else Ok a1
      | _ => Ok a
      end
    else match dget "type" a with
         | Some (Val (VStr name)) => _ ← builtin name; Ok (dset "type" (Builtin name) a)
         | _ => Err TypeError
         end
  else Ok a.

Definition hide_help (a : list (string * arg)) : list (string * arg) :=
  if arg_truthy "suppress_help" a then dset "help" SUPPRESS (ddel "suppress_help" a) else a.

(** One argument: its flag and the keyword arguments of [add_argument] *)
Definition read_argument (each_args : value) : ST dict (value * list (string * arg)) :=
  let! d := st_lift (as_dict each_args) in
  let! a := st_lift (resolve_type ((λ kv, (kv.1, Val kv.2)) <$> d)) in
  let! a := _handle_comm (hide_help a) in
  match dget "flag" a with
  | Some (Val flag) => st_ret (flag, ddel "flag" a)
  | Some _ => st_raise TypeError
  | None => st_raise KeyError
  end.

Fixpoint add_arguments (done : list (value * list (string * arg))) (args : list value)
    : ST dict (list (value * list (string * arg))) :=
  match args with
  | [] => st_ret done
  | each_args :: args' =>
      let! (flag, kwargs) := read_argument each_args in
      let! _ := st_lift (add_argument done flag kwargs) in
      add_arguments (done ++ [(flag, kwargs)]) args'
  end.

(** The communication object is one for all commands: it keeps what earlier
    commands put there. *)
Definition start_comm (comm : value) : ST dict unit := λ c,
  match comm with
  | VDict d => (Ok tt, dset "json" (VDict []) (dset "params" (VDict []) (dupdate c d)))
  | _ => (Err TypeError, c)
  end.

(** The arguments of a command, and its defaults *)
Definition add_leaf (sub_command : dict) (args : value) (name : value) : ST dict (list (value * list (string * arg)) * defaults) :=
  let! comm := st_lift (item "comm" sub_command) in
  start_comm comm ;;;
  let! l := st_lift (Ha.py_iter args) in
  let! arguments := add_arguments [] l in
  let! communication_obj := st_get in
  st_ret (arguments, Defaults name communication_obj (get "output" (VDict []) sub_command)
                       (get "need_confirmation" (VBool false) sub_command) (get "name" VNull sub_command)).

(** [_add_args]: the parser that was added, if the command is permitted.  The
    loops over the items of the command and over its commands are written in
    place, for the recursion to be structural. *)
Fixpoint _add_args (sub_command : value) (name : value) {struct sub_command} : ST dict (option parser) :=
  match sub_command with
  | VDict items =>
      let! allowed := st_lift (_check_permissions items) in
      if allowed : bool then
        let! n := st_lift (item "name" items) in
        let! help := st_lift (item "description" items) in
        match dget "args" items with
        | Some args =>
            let! (arguments, dflts) := add_leaf items args name in
            st_ret (Some (Parser n help arguments (Some dflts) []))
        | None =>
            (fix find (its : list (string * value)) : ST dict (option parser) :=
               match its with
               | [] => st_ret (Some (Parser n help [] None []))
               | (k, x) :: its' =>
                   if decide ("sub_commands" = k) then
                     let! subs := match x with
                                  | VList cs =>
                                      (fix loop (cs : list value) : ST dict (list parser) :=
                                         match cs with
                                         | [] => st_ret []
                                         | c :: cs' =>
                                             let! p := _add_args c name in
                                             let! ps := loop cs' in
                                             st_ret (match p with Some p => p :: ps | None => ps end)
                                         end) cs
                                  | VDict [] | VStr EmptyString => st_ret []
                                  | VDict _ | VStr _ => st_raise AttributeError
                                  | _ => st_raise TypeError
                                  end in
                     st_ret (Some (Parser n help [] None subs))
                   else find its'
               end) items
        end
      else st_ret None
  | _ => st_raise AttributeError
  end.

(** [for each_data in data["sub_commands"]] *)
Fixpoint add_all (cs : list value) (name : value) : ST dict (list parser) :=
  match cs with
  | [] => st_ret []
  | c :: cs' =>
      let! p := _add_args c name in
      let! ps := add_all cs' name in
      st_ret (match p with Some p => p :: ps | None => ps end)
  end.

(** [_handle_main_parse]: the parsers that were added; the document of a
    command is a dictionary. *)
Definition _handle_main_parse (command : value) : ST dict (list parser) :=
  match command with
  | VDict items =>
      match dget "sub_commands" items with
      | Some subs =>
          let! name := st_lift (item "name" items) in
          let! help := st_lift (item "description" items) in
          let! cs := st_lift (Ha.py_iter subs) in
          let! ps := add_all cs name in
          st_ret [Parser name help [] None ps]
      | None =>
          match dget "args" items with
          | Some _ =>
              let! name := st_lift (item "name" items) in
              let! p := _add_args command name in
              st_ret (match p with Some p => [p] | None => [] end)
          | None => st_ret []
          end
      end
  | _ => st_raise TypeError
  end.

End parse.

(** ** [CommandFactory.get_command]

    [load] reads the document of a command; the second argument are the names
    of the files of the directory.  The commands that can be given, and the
    parser of the one that is. *)

Definition command_names (commands_files excluded_cmds : list string) (permissions : dict) : list string :=
  let commands := filter (λ c, c ∉ excluded_cmds) (before ".json" <$> commands_files) in
  if decide (permissions = []) then commands else filter (λ c, c ∈ dkeys permissions) commands.

Definition command_parsers (load : string → res value) (commands_files excluded_cmds : list string)
    (permissions : dict) (argv0 : string) : res (list parser) :=
  if decide (argv0 ∈ command_names commands_files excluded_cmds permissions) then
    cmd_from_file ← load argv0;
    (_handle_main_parse (get argv0 (VDict []) permissions) cmd_from_file []).1
  else Ok [].

End cli.

(** ** [class Output]

    A response has a return code and an output; [pretty] is the text of a table
    by its field names and its rows, [pretty_columns] by its columns. *)

Section output.
Context (pretty : list value → list (list value) → res string) (pretty_columns : list (value * list value) → res string).
Context (dict2xml : value → res string) (json_dumps : value → res string) (repr : value → string).

Definition str (v : value) : string := py_str repr v.

Definition error (rc : Z) (message : value) (stacktrace : value) : res string :=
  if truthy stacktrace then
    d ← as_dict stacktrace;
    Ok ("error(" +:+ dec_Z rc +:+ "): Error:- " +:+ str (get "message" VNull d))
  else Ok ("error(" +:+ dec_Z rc +:+ "): " +:+ str message +:+ sep nl).

Definition headers_of (table : dict) : res dict := h ← item "headers" table; as_dict h.

Definition row (headers : dict) (each_row : value) : res (list value) :=
  d ← as_dict each_row; Ok ((λ x, get x VNull d) <$> dkeys headers).

(** [data[k]] *)
Definition subscript (k : string) (data : value) : res value :=
  match data with VDict d => item k d | _ => Err TypeError end.

Definition create_by_row (table : dict) (data : value) : res string :=
  headers ← headers_of table;
  rows ← (if truthy (get "filters" (VBool false) table) then
            k ← text (get "filters" VNull table);
            x ← subscript k data;
            l ← Ha.py_iter x;
            res_map (row headers) l
          else r ← row headers data; Ok [r]);
  pretty headers.*2 rows.

(** The column of a key: the list of the response is itself extended. *)
Fixpoint pad_columns (table : dict) (max_length_list : nat) (headers : dict) (data : dict) : res (list (value * list value) * dict) :=
  match headers with
  | [] => Ok ([], data)
  | (key, header) :: headers' =>
      x ← item key data;
      match x with
      | VList l =>
          let new_data := l ++ replicate (max_length_list - length l) (get "padding_element" (VStr " ") table) in
          '(columns, data') ← pad_columns table max_length_list headers' (dset key (VList new_data) data);
          Ok ((header, new_data) :: columns, data')
      | _ => Err AttributeError
      end
  end.

Definition longest (headers data : dict) : res nat :=
  ns ← res_map (λ key, x ← item key data; py_len x) (dkeys headers);
  match ns with [] => Err ValueError | _ => Ok (foldr max 0 ns) end.

Definition create_by_column (table : dict) (data : value) : res (string * value) :=
  headers ← headers_of table;
  match headers, data with
  | [], _ => Err ValueError
  | _, VDict d =>
      max_length_list ← longest headers d;
      '(columns, d') ← pad_columns table max_length_list headers d;
      t ← pretty_columns columns;
      Ok (t, VDict d')
  | _, _ => Err TypeError
  end.

Definition dump_table (data : value) (kwargs : dict) : res string :=
  match dget "table" kwargs with
  | None => Err TypeError
  | Some table =>
      t ← as_dict table;
      if truthy (get "create_by_column" (VBool false) t) then fst <$> create_by_column t data else create_by_row t data
  end.

Definition dump_as (output_type : string) (data : value) (kwargs : dict) : res string :=
  if decide (output_type = "success") then Ok (str (get "success" data kwargs))
  else if decide (output_type = "table") then dump_table data kwargs
  else if decide (output_type = "xml") then dict2xml data
  else if decide (output_type = "json") then json_dumps data
  else Err AttributeError.

(** What is written: to the standard output, or to the standard error *)
Inductive written := Out (s : string) | Error (s : string) | Nothing.

Definition dump (rc : Z) (output : value) (output_type : value) (kwargs : dict) : res written :=
  if bool_decide (rc ∈ [200; 201; 0]%Z) then
    if truthy output_type then
      t ← text output_type;
      s ← dump_as t output kwargs;
      Ok (Out (s +:+ sep nl))
    else Ok Nothing
  else
    s ← match output with
        | VStr _ => error rc output VNull
        | _ => error rc (get "error" VNull kwargs) output
        end;
    Ok (Error (s +:+ sep nl)).

(** [Command.process_response]: the keywords of the output are arguments of
    [dump], whose own names they must not have. *)
Definition process_response (options : dict) (rc : Z) (output : value) : res written :=
  kwargs ← (o ← item "output" options; match o with VDict d => Ok d | _ => Err TypeError end);
  if existsb (λ k, bool_decide (k ∈ dkeys kwargs)) ["self"; "out"; "err"; "output_type"] then Err TypeError
  else dump rc output (get "format" (VStr "success") options) kwargs.

End output.

(** ** [class Terminal]: the answers are what is typed, line by line. *)

Inductive answer := Yes | No | EndOfInput.

Definition positive : list string := ["y"; "yes"; ""].
Definition negative : list string := ["n"; "no"].

Fixpoint get_quest_answer (inputs : list string) : answer :=
  match inputs with
  | [] => EndOfInput
  | i :: inputs' =>
      if decide (lower i ∈ positive) then Yes
      else if decide (lower i ∈ negative) then No
      else get_quest_answer inputs'
  end.

(** [getpass] gives the next line. *)
Definition getpass : ST (list string) string := λ l,
  match l with x :: l' => (Ok x, l') | [] => (Err PlainException, l) end.

Definition get_current_password (value : string) : ST (list string) string :=
  let! v := (if decide (value = "") then getpass else st_ret value) in
  if decide (v = "") then st_raise (CliError EINVAL) else st_ret v.

Definition get_password (value : string) (confirm_pass_flag : bool) : ST (list string) string :=
  let! v := (if decide (value = "") then getpass else st_ret value) in
  if decide (v = "") then st_raise (CliError EINVAL) else
  if confirm_pass_flag then
    let! confirm_password := getpass in
    if decide (confirm_password = "") then st_raise (CliError EINVAL)
    else if decide (confirm_password = v) then st_ret v else st_raise (CliError EINVAL)
  else st_ret v.

(** ** [class CliClient]: the class, or the module, whose method is called, and
    whether the class is made an object first *)

Record call_target := CallTarget { t_module : value; t_class : value; t_object : bool; t_method : value }.

Definition call (comm : dict) : call_target :=
  let cls := get "class" VNull comm in
  CallTarget (get "target" VNull comm) (if truthy cls then cls else VNull)
    (truthy cls && negb (truthy (get "is_static" (VBool false) comm))) (get "method" VNull comm).

End Cli.

(** * Theorems

    What the framework of commands promises: a command is offered only to those
    with all its permissions, a command calls what its own document says, and
    the tables of responses are rectangular. *)
Import PyStr Files Cli.

Module CliFrameworkSpec.

Lemma st_bind_ext {S A B} (m : ST S A) (f g : A → ST S B) s :
  (∀ a s', f a s' = g a s') → st_bind m f s = st_bind m g s.
Proof. intros H. unfold st_bind. destruct (m s) as [[a|e] s']; [apply H|done]. Qed.

(** ** Permissions *)

Section permissions.
Context (import_module : string → res (string → res unit)) (builtin : string → res unit).
Context (add_argument : list (value * list (string * arg)) → value → list (string * arg) → res unit).
Context (permissions : value).

Notation add_args := (_add_args import_module builtin add_argument permissions).
Notation add_all := (add_all import_module builtin add_argument permissions).
Notation add_leaf := (add_leaf import_module builtin add_argument).
Notation main_parse := (_handle_main_parse import_module builtin add_argument permissions).

(** A command is permitted when it has a tag and the table of permissions gives
    that very tag a true value. *)
Definition permitted (items : dict) : Prop :=
  ∃ tag perms x, dget "permissions_tag" items = Some (VStr tag) ∧ tag ≠ "" ∧
    permissions = VDict perms ∧ dget tag perms = Some x ∧ truthy x = true.

Lemma check_permitted items b : _check_permissions permissions items = Ok b → b = true ↔ permitted items.
Proof.
  unfold _check_permissions, permitted, get. destruct (dget "permissions_tag" items) as [t|]; cbn [default from_option].
  2: { intros [= <-]. split; [done|naive_solver]. }
  change (id t) with t. destruct (truthy t) eqn:Ht.
  - destruct permissions as [| | | | | |perms], t as [| | | |tag| |]; try done;
      try (intros [= <-]; split; [done|naive_solver]).
    intros [= <-]. unfold default. destruct (dget tag perms) as [x|] eqn:Hx; split; [|naive_solver|done|naive_solver].
    intros Htr. exists tag, perms, x. split_and!; try done. by intros ->.
  - intros [= <-]. split; [done|]. intros (tag & perms & x & [= ->] & Hne & _). by destruct tag.
Qed.

(** A command without a tag is refused, whatever the permissions are. *)
Lemma untagged_refused items : dget "permissions_tag" items = None → _check_permissions permissions items = Ok false.
Proof. intros Ht. unfold _check_permissions, get. by rewrite Ht. Qed.

(** A command of the document, by the names of the commands above it and its
    own, all of which are permitted *)
Inductive at_path : value → list value → Prop :=
| at_here items n :
    permitted items → dget "name" items = Some n → at_path (VDict items) [n]
| at_below items n cs c p :
    permitted items → dget "name" items = Some n → dget "args" items = None →
    dget "sub_commands" items = Some (VList cs) → c ∈ cs → at_path c p → at_path (VDict items) (n :: p).

Inductive has_path : parser → list value → Prop :=
| has_here p : has_path p [p_name p]
| has_below p q l : q ∈ p_subparsers p → has_path q l → has_path p (p_name p :: l).

(** The parsers of [for each_data in data["sub_commands"]] *)
Definition sub_parsers (subs : value) (name : value) : ST dict (list parser) :=
  match subs with
  | VList cs => add_all cs name
  | VDict [] | VStr EmptyString => st_ret []
  | VDict _ | VStr _ => st_raise AttributeError
  | _ => st_raise TypeError
  end.

Lemma add_args_dict items name c :
  add_args (VDict items) name c =
  (let! allowed := st_lift (_check_permissions permissions items) in
   if allowed : bool then
     let! n := st_lift (item "name" items) in
     let! help := st_lift (item "description" items) in
     match dget "args" items with
     | Some args => let! (arguments, dflts) := add_leaf items args name in
                    st_ret (Some (Parser n help arguments (Some dflts) []))
     | None => let! subs := match dget "sub_commands" items with Some x => sub_parsers x name | None => st_ret [] end in
               st_ret (Some (Parser n help [] None subs))
     end
   else st_ret None) c.
Proof.
  cbn [_add_args]. apply st_bind_ext. intros [] c1; [|done].
  apply st_bind_ext. intros n c2. apply st_bind_ext. intros help c3.
  destruct (dget "args" items); [done|].
  induction items as [|[k x] items IH]; [done|]. cbn [dget].
  destruct (decide ("sub_commands" = k)); [|exact IH]. clear IH. unfold sub_parsers.
  assert (Hloop : ∀ cs c,
    (fix loop (cs : list value) : ST dict (list parser) :=
       match cs with
       | [] => st_ret []
       | c :: cs' => let! p := add_args c name in let! ps := loop cs' in
                     st_ret (match p with Some p => p :: ps | None => ps end)
       end) cs c = add_all cs name c).
  { intros cs. induction cs as [|c' cs IH]; intros s; [done|]. cbn [Cli.add_all]. unfold st_bind.
    destruct (add_args c' name s) as [[p|] s']; [|done]. by rewrite IH. }
  destruct x as [| | | |[]|cs|[|kv d]]; try done. unfold st_bind. by rewrite Hloop.
Qed.

(** The claim about one command *)
Definition offers (v : value) : Prop := ∀ name c r c',
  add_args v name c = (Ok r, c') → ∀ path, (∃ p, r = Some p ∧ has_path p path) ↔ at_path v path.

Lemma add_all_offers cs : Forall offers cs → ∀ name c ps c',
  add_all cs name c = (Ok ps, c') → ∀ path, (∃ p, p ∈ ps ∧ has_path p path) ↔ (∃ x, x ∈ cs ∧ at_path x path).
Proof.
  induction 1 as [|x cs Hx Hcs IH]; intros name c ps c' Hrun path.
  { injection Hrun as <- _. split; intros (y & Hy & _); by apply not_elem_of_nil in Hy. }
  cbn [Cli.add_all] in Hrun. apply st_bind_ok in Hrun as (r & c1 & Hr & Hrun).
  apply st_bind_ok in Hrun as (ps' & c2 & Hps & Hrun). injection Hrun as <- _.
  specialize (Hx _ _ _ _ Hr path). specialize (IH _ _ _ _ Hps path). split.
  - intros (p & Hp & Hpath). destruct r as [p0|]; [apply elem_of_cons in Hp as [->|Hp]|].
    + exists x. split; [left|]. apply Hx. eauto.
    + destruct (proj1 IH) as (y & Hy & ?); [eauto|]. exists y. split; [by right|done].
    + destruct (proj1 IH) as (y & Hy & ?); [eauto|]. exists y. split; [by right|done].
  - intros (y & [->|Hy]%elem_of_cons & Hpath).
    + apply Hx in Hpath as (p & -> & Hpath). exists p. split; [left|done].
    + destruct (proj2 IH) as (p & Hp & ?); [eauto|]. exists p. split; [destruct r; [by right|done]|done].
Qed.

Lemma item_ok {A} k (d : list (string * A)) x : item k d = Ok x ↔ dget k d = Some x.
Proof. unfold item. destruct (dget k d); naive_solver. Qed.

Lemma has_path_leaf n help a d path : has_path (Parser n help a d []) path ↔ path = [n].
Proof.
  split; [|intros ->; apply (has_here (Parser n help a d []))].
  intros H. inversion H as [p|p q l Hq]; subst; [done|]. by apply not_elem_of_nil in Hq.
Qed.

Lemma at_path_refused items path : _check_permissions permissions items = Ok false → ¬ at_path (VDict items) path.
Proof. intros Hf%check_permitted H. inversion H as [? ? Hp|? ? ? ? ? Hp]; subst; by apply Hf in Hp. Qed.

Lemma add_args_offers v : offers v.
Proof.
  enough (H : offers v ∧ match v with VList cs => Forall offers cs | _ => True end) by apply H.
  induction v as [| | | | |l IH|items IH] using value_nested_ind; try (split; [by intros ? ? ? ?|done]).
  { split; [by intros ? ? ? ?|]. eapply Forall_impl; [exact IH|]. by intros x [Hx _]. }
  split; [|done]. intros name c r c' Hrun path. rewrite add_args_dict in Hrun.
  apply st_bind_ok in Hrun as (allowed & c1 & Hal & Hrun). injection Hal as Hal <-.
  pose proof (check_permitted _ _ Hal) as Hper.
  destruct allowed; [apply proj1 in Hper; specialize (Hper eq_refl)|injection Hrun as <- <-; split; [by intros (? & ? & _)|by intros ?%at_path_refused]].
  apply st_bind_ok in Hrun as (n & c2 & Hn & Hrun). injection Hn as Hn%item_ok <-.
  apply st_bind_ok in Hrun as (help & c3 & Hh & Hrun). injection Hh as Hh <-.
  destruct (dget "args" items) as [args|] eqn:Ha.
  - apply st_bind_ok in Hrun as ([arguments dflts] & c4 & _ & Hrun). injection Hrun as <- _. split.
    + intros (p & [= <-] & ->%has_path_leaf). by apply at_here.
    + intros H. inversion H as [? n' Hp Hn'|? n' ? ? ? Hp Hn' Ha']; subst; [|congruence].
      assert (n' = n) as -> by congruence. eexists. split; [done|]. by apply has_path_leaf.
  - apply st_bind_ok in Hrun as (subs & c4 & Hsubs & Hrun). injection Hrun as <- _.
    assert (Hbelow : ∀ l, (∃ q, q ∈ subs ∧ has_path q l) ↔
        ∃ cs x, dget "sub_commands" items = Some (VList cs) ∧ x ∈ cs ∧ at_path x l).
    { intros l. destruct (dget "sub_commands" items) as [x|] eqn:Hx.
      - pose proof IH as IHx. rewrite Forall_forall in IHx. apply dget_Some_elem in Hx as Hin.
        destruct (IHx _ Hin) as [_ Hcs]. cbn [snd] in Hcs. unfold sub_parsers in Hsubs.
        destruct x as [| | | |[]|cs|[|]]; try done; try (injection Hsubs as <- _;
          split; [intros (q & Hq & _); by apply not_elem_of_nil in Hq|intros (cs & y & [=] & _)]).
        rewrite (add_all_offers cs Hcs _ _ _ _ Hsubs l). naive_solver.
      - injection Hsubs as <- _. split; [intros (q & Hq & _); by apply not_elem_of_nil in Hq|by intros (? & ? & ? & _)]. }
    split.
    + intros (p & [= <-] & H). inversion H as [?|? q l Hq Hpath]; subst; cbn [p_name p_subparsers] in *.
      * by apply at_here.
      * destruct (proj1 (Hbelow l)) as (cs & x & Hcs & Hx & Hp); [eauto|]. by eapply at_below.
    + intros H. eexists. split; [done|].
      inversion H as [? n' Hp Hn'|? n' cs x l Hp Hn' Ha' Hcs Hx Hpath]; subst;
        assert (n' = n) as -> by congruence.
      * apply (has_here (Parser n help [] None subs)).
      * destruct (proj2 (Hbelow l)) as (q & Hq & Hql); [eauto|].
        by apply (has_below (Parser n help [] None subs) q l).
Qed.

(** C23. The parser of a command has exactly the commands of its document
    whose tag, and the tags of all the commands above them below the first, are
    permissions that are granted; the name of the first level is not asked for
    a permission here. *)
Theorem commands_permitted items cs c ps c' :
  dget "sub_commands" items = Some (VList cs) → main_parse (VDict items) c = (Ok ps, c') →
  ∃ p, ps = [p] ∧ dget "name" items = Some (p_name p) ∧
    ∀ path, has_path p (p_name p :: path) ↔ path = [] ∨ ∃ x, x ∈ cs ∧ at_path x path.
Proof.
  intros Hcs Hrun. cbn [_handle_main_parse] in Hrun. rewrite Hcs in Hrun.
  apply st_bind_ok in Hrun as (n & c1 & Hn & Hrun). injection Hn as Hn%item_ok <-.
  apply st_bind_ok in Hrun as (help & c2 & Hh & Hrun). injection Hh as _ <-.
  apply st_bind_ok in Hrun as (l & c3 & Hl & Hrun). injection Hl as <- <-.
  apply st_bind_ok in Hrun as (subs & c4 & Hsubs & Hrun). injection Hrun as <- _.
  exists (Parser n help [] None subs). split; [done|]. split; [done|]. intros path. cbn [p_name].
  rewrite <- (add_all_offers cs (proj2 (Forall_forall _ _) (λ x _, add_args_offers x)) _ _ _ _ Hsubs path). split.
  - intros H. inversion H as [?|? q l Hq Hpath]; subst; cbn [p_subparsers] in *; [by left|right; eauto].
  - intros [->|(q & Hq & Hpath)]; [apply (has_here (Parser n help [] None subs))|].
    by apply (has_below (Parser n help [] None subs) q path).
Qed.

End permissions.
(** ** What a command calls *)

Section communication.
Context (import_module : string → res (string → res unit)) (builtin : string → res unit).
Context (add_argument : list (value * list (string * arg)) → value → list (string * arg) → res unit).

(** Nothing but the parts for arguments changes. *)
Definition same_call (c c' : dict) : Prop := ∀ k, k ∉ ["params"; "json"] → dget k c' = dget k c.

Lemma same_bind {A B} (m : ST dict A) (f : A → ST dict B) :
  (∀ c, same_call c (m c).2) → (∀ a c, same_call c (f a c).2) → ∀ c, same_call c (st_bind m f c).2.
Proof.
  intros Hm Hf c k Hk. unfold st_bind. specialize (Hm c). destruct (m c) as [[a|e] c1]; [|by apply Hm].
  rewrite (Hf a c1 k Hk). by apply Hm.
Qed.

Lemma same_put part name c : part ∈ ["params"; "json"] → same_call c (put_in part name c).2.
Proof.
  intros Hp k Hk. unfold put_in. destruct (dget part c) as [[]|], name; try done.
  cbn [snd]. apply dget_dset_ne. by intros ->.
Qed.

Lemma same_arguments args : ∀ done c, same_call c (add_arguments import_module builtin add_argument done args c).2.
Proof.
  induction args as [|a args IH]; intros done_; [by intros c k|]. cbn [add_arguments]. apply same_bind.
  - unfold read_argument. apply same_bind; [by intros c k|intros d]. apply same_bind; [by intros c k|intros a'].
    assert (Hpart : ∀ part (a : list (string * arg)) c, part ∈ ["params"; "json"] →
      same_call c ((if arg_truthy part a then
                      let a' := ddel part a in put_in part (dest_or_flag a') ;;; st_ret a' else st_ret a) c).2).
    { intros part b c Hp. destruct (arg_truthy part b); [|by intros k].
      revert c. apply same_bind; [intros c; by apply same_put|by intros ? c k]. }
    apply same_bind.
    + unfold _handle_comm. apply same_bind; [intros c; apply Hpart; set_solver|intros b c; apply Hpart; set_solver].
    + intros b c. destruct (dget "flag" b) as [[]|]; by intros k.
  - intros [flag kwargs]. apply same_bind; [by intros c k|intros _]. apply IH.
Qed.

(** The module, the class and the method a command calls are those its document
    names; what it does not say is taken from the commands before it. *)
Lemma communication_exact sub_command args name c arguments dflts c' d :
  dget "comm" sub_command = Some (VDict d) → NoDup (dkeys d) →
  add_leaf import_module builtin add_argument sub_command args name c = (Ok (arguments, dflts), c') →
  d_action dflts = name ∧
  ∀ k, k ∉ ["params"; "json"] →
    dget k (d_comm dflts) = match dget k d with Some x => Some x | None => dget k c end.
Proof.
  intros Hd Hnd Hrun. unfold add_leaf in Hrun.
  apply st_bind_ok in Hrun as (comm & c1 & Hc & Hrun). unfold st_lift, item in Hc. rewrite Hd in Hc.
  injection Hc as <- <-. apply st_bind_ok in Hrun as ([] & c2 & Hs & Hrun). injection Hs as <-.
  apply st_bind_ok in Hrun as (l & c3 & Hl & Hrun). injection Hl as _ <-.
  apply st_bind_ok in Hrun as (as_ & c4 & Has & Hrun). injection Hrun as _ <- <-. split; [done|].
  intros k Hk. cbn [d_comm]. pose proof (same_arguments l [] (dset "json" (VDict []) (dset "params" (VDict []) (dupdate c d)))) as Hsame.
  rewrite Has in Hsame. cbn [snd] in Hsame. rewrite (Hsame k Hk).
  rewrite !dget_dset_ne by (by intros <-; apply Hk; set_solver).
  destruct (dget k d) as [x|] eqn:Hx; [by apply dget_dupdate_in|].
  apply dget_dupdate_notin. by apply dget_None.
Qed.

End communication.

(** ** Tables *)

Lemma pad_columns_length table n headers : ∀ data cols data',
  pad_columns table n headers data = Ok (cols, data') →
  (∀ key l, key ∈ dkeys headers → dget key data = Some (VList l) → length l ≤ n) → NoDup (dkeys headers) →
  cols.*1 = headers.*2 ∧ Forall (λ c, length c.2 = n) cols.
Proof.
  induction headers as [|[key header] headers IH]; intros data cols data' Hrun Hmax Hnd.
  { by injection Hrun as <- <-. }
  apply NoDup_cons in Hnd as [Hk Hnd]. cbn [pad_columns] in Hrun.
  unfold item in Hrun. destruct (dget key data) as [x|] eqn:Hx; [|done]. cbn [mbind res_bind] in Hrun.
  destruct x as [| | | | |l|]; try done.
  destruct (pad_columns _ _ headers _) as [[cols1 data1]|] eqn:Hrest; [|done].
  injection Hrun as <- <-. apply IH in Hrest as [Hh Hlen]; [|..|done].
  - split; [cbn; by rewrite Hh|]. constructor; [|done]. cbn. rewrite length_app, length_replicate.
    assert (length l ≤ n) by (apply (Hmax key); [left|done]). lia.
  - intros key' l' Hin Hl'. rewrite dget_dset_ne in Hl' by (by intros <-). apply (Hmax key'); [by right|done].
Qed.

Lemma max_bound ns n : n ∈ ns → n ≤ foldr max 0 ns.
Proof. induction ns as [|m ns IH]; [by intros ?%not_elem_of_nil|]. intros [->|Hn]%elem_of_cons; cbn; [lia|specialize (IH Hn); lia]. Qed.

(** The columns given to the table are as long as each other: the longest of
    the response, the others filled up. *)
Lemma columns_rectangular table headers data n cols data' :
  NoDup (dkeys headers) → longest headers data = Ok n → pad_columns table n headers data = Ok (cols, data') →
  cols.*1 = headers.*2 ∧ Forall (λ c, length c.2 = n) cols.
Proof.
  intros Hnd Hn Hrun. eapply pad_columns_length; [exact Hrun| |done]. intros key l Hk Hl.
  unfold longest in Hn. destruct (res_map _ (dkeys headers)) as [ns|] eqn:Hns; [|done].
  apply res_map_ok in Hns. apply list_elem_of_lookup in Hk as [i Hk].
  destruct (Forall2_lookup_l _ _ _ _ _ Hns Hk) as (m & Hin%list_elem_of_lookup_2 & Hm).
  unfold item in Hm. rewrite Hl in Hm. injection Hm as <-. cbn [mbind res_bind] in Hn.
  destruct ns as [|m ns]; [by apply not_elem_of_nil in Hin|]. injection Hn as <-. exact (max_bound _ _ Hin).
Qed.

(** ** Questions *)

Definition unclear (x : string) : Prop := (lower x ∉ positive) ∧ (lower x ∉ negative).

(** The answer is the first line that is one, and only the end of the input
    leaves the question open. *)
Lemma quest_answer_exact inputs :
  match get_quest_answer inputs with
  | Yes => ∃ before i after, inputs = before ++ i :: after ∧ lower i ∈ positive ∧
      Forall unclear before
  | No => ∃ before i after, inputs = before ++ i :: after ∧ lower i ∈ negative ∧
      Forall unclear before
  | EndOfInput => Forall unclear inputs
  end.
Proof.
  induction inputs as [|i inputs IH]; [apply Forall_nil_2|]. cbn [get_quest_answer].
  destruct (decide (lower i ∈ positive)); [by exists [], i, inputs|].
  destruct (decide (lower i ∈ negative)); [by exists [], i, inputs|].
  destruct (get_quest_answer inputs).
  - destruct IH as (b & x & a & -> & Hx & Hb). exists (i :: b), x, a. split_and!; [done|done|by constructor].
  - destruct IH as (b & x & a & -> & Hx & Hb). exists (i :: b), x, a. split_and!; [done|done|by constructor].
  - by constructor.
Qed.

(** ** A document *)

Definition users : dict :=
  [("name", VStr "users"); ("description", VStr "Users");
   ("sub_commands", VList
     [VDict [("name", VStr "show"); ("description", VStr "d"); ("permissions_tag", VStr "list");
             ("args", VList [VDict [("flag", VStr "-o"); ("type", VStr "int"); ("dest", VStr "offset"); ("params", VBool true)]]);
             ("comm", VDict [("target", VStr "csm"); ("method", VStr "get")])];
      VDict [("name", VStr "reset"); ("description", VStr "d"); ("permissions_tag", VStr "reset"); ("args", VList [])];
      VDict [("name", VStr "roles"); ("description", VStr "d"); ("permissions_tag", VStr "list");
             ("sub_commands", VList
               [VDict [("name", VStr "add"); ("description", VStr "d"); ("permissions_tag", VStr "reset")];
                VDict [("name", VStr "drop"); ("description", VStr "d"); ("permissions_tag", VStr "list")]])]])].

Definition may_list : value := VDict [("list", VBool true); ("reset", VBool false)].

Definition parsed : res (list parser) * dict :=
  _handle_main_parse (λ _, Err PlainException) (λ _, Ok tt) (λ _ _ _, Ok tt) may_list (VDict users) [].

Lemma commands_permitted_witness :
  parsed.1 = Ok
    [Parser (VStr "users") (VStr "Users") [] None
      [Parser (VStr "show") (VStr "d") [(VStr "-o", [("type", Builtin "int"); ("dest", Val (VStr "offset"))])]
         (Some (Defaults (VStr "users")
           [("target", VStr "csm"); ("method", VStr "get"); ("params", VDict [("offset", VStr "")]); ("json", VDict [])]
           (VDict []) (VBool false) (VStr "show"))) [];
       Parser (VStr "roles") (VStr "d") [] None [Parser (VStr "drop") (VStr "d") [] None []]]] ∧
  ∃ p ps, parsed.1 = Ok ps ∧ ps = [p] ∧ dget "name" users = Some (p_name p) ∧
    ∀ path, has_path p (p_name p :: path) ↔
      path = [] ∨ ∃ x, x ∈ match dget "sub_commands" users with Some (VList cs) => cs | _ => [] end ∧ at_path may_list x path.
Proof.
  split; [vm_compute; reflexivity|].
  destruct parsed as [[ps|e] c'] eqn:Hp; [|vm_compute in Hp; discriminate Hp].
  destruct (commands_permitted (λ _, Err PlainException) (λ _, Ok tt) (λ _ _ _, Ok tt) may_list users _ [] ps c' eq_refl Hp)
    as (p & Hps & Hn & Hpath).
  exists p, ps. split; [reflexivity|]. split; [exact Hps|]. split; [exact Hn|exact Hpath].
Defined.

End CliFrameworkSpec.
