(* ===== verification/HealthEvent.v ===== *)
(** [utils/event_framework]: [Event], a payload with a header and a body, and
    [HealthEvent], the events of resources.

    [Event.set_payload] takes keys and values of a payload of its own; an
    event given its own payload is not modelled. *)
From Stdlib Require Import Ascii.
From S2P Require Import Prelude PyStr PyVal KvPayload KvPayloadFacts.
From S2P Require Import KvPayloadKeys KvPayloadSpec KvStoreFacts ConfStoreSpec.
Import PyStr.

Module Health.

(** [class EventAttr] *)
Definition VERSION : string := "version".
Definition TIMESTAMP : string := "timestamp".
Definition EVENT_ID : string := "event_id".

Definition event_version : string := "1.0".

(** ** [class Event(KvPayload)]

    [now] is [str(time.time())], [hex] is [uuid.uuid4().hex]. *)

Definition event_id (now hex : string) : string := List.hd "" (split "." now) +:+ hex.

Definition set_payload_attr (key : string) (val : value) : ST Payload.payload unit :=
  Payload.set ("payload>" +:+ key) val.

Definition set_payload (payload : Payload.payload) : ST Payload.payload unit :=
  st_iter (λ key, let! v := st_lift (Payload.get payload key true) in set_payload_attr key v)
    (Payload.get_keys_rec payload "" true).

Definition set_header (now hex : string) : ST Payload.payload unit :=
  Payload.set ("header>" +:+ VERSION) (VStr event_version) ;;;
  Payload.set ("header>" +:+ TIMESTAMP) (VStr now) ;;;
  Payload.set ("header>" +:+ EVENT_ID) (VStr (event_id now hex)).

(** The object a constructor leaves, when it does not raise *)
Definition constructed {A} (r : res unit * A) : res A :=
  match r with (Ok _, a) => Ok a | (Err e, _) => Err e end.

Definition Event (now hex : string) (payload : Payload.payload) : res Payload.payload :=
  p ← Payload.init VNull ">" true;
  constructed ((set_header now hex ;;; set_payload payload) p).

(** ** [class HealthEvent(Event)] *)

Definition SPECIFIC_INFO : string := "specific_info".

Definition _health_attrs : list string :=
  ["source"; "cluster_id"; "site_id"; "rack_id"; "storageset_id"; "node_id";
   "resource_type"; "resource_id"; "resource_status"].

(** The payload of a new event: [kwargs] are pairs of names and values. *)
Definition health_payload (kwargs : list (string * value)) : ST Payload.payload unit :=
  st_iter (λ key, Payload.set key (VStr "")) _health_attrs ;;;
  st_iter (λ '(key, val), Payload.set key val) kwargs ;;;
  Payload.set SPECIFIC_INFO (VDict []).

Definition HealthEvent (now hex : string) (kwargs : list (string * value)) : res Payload.payload :=
  p ← Payload.init VNull ">" true;
  payload ← constructed (health_payload kwargs p);
  Event now hex payload.

Definition set (key : string) (val : value) : ST Payload.payload unit := set_payload_attr key val.

Definition set_specific_attr (key : string) (val : value) : ST Payload.payload unit :=
  set_payload_attr ("specific_info>" +:+ key) val.

Definition set_specific_info (spec_info : value) : ST Payload.payload unit :=
  let! specific_info := st_lift (Payload.init spec_info ">" true) in
  st_iter (λ key,
      let! v := st_lift (Payload.get specific_info key true) in
      set_payload_attr ("specific_info>" +:+ key) v)
    (Payload.get_keys_rec specific_info "" true).

(** A call of a method that changes an event *)
Inductive call :=
| CSet (key : string) (val : value)
| CAttr (key : string) (val : value)
| CInfo (spec_info : value)
| CPayload (payload : Payload.payload).

Definition run (c : call) : ST Payload.payload unit :=
  match c with
  | CSet k v => set k v
  | CAttr k v => set_specific_attr k v
  | CInfo d => set_specific_info d
  | CPayload q => set_payload q
  end.

(** A caller that goes on after an exception *)
Definition run_all (cs : list call) (e : Payload.payload) : Payload.payload :=
  foldl (λ e c, (run c e).2) e cs.

End Health.

(** * Theorems

    Events: the header never changes, what a new event holds, and that the
    information specific to a resource is read back from the event. *)
Import PyStr Payload PayloadFacts PayloadKeys PayloadSpec StoreFacts ConfSpec.

Module HealthSpec.
Import Health.

(** ** The header *)

Definition header_path (k : string) : list string := ["header"; k].

(** What an event holds besides its body *)
Record headed (now hex : string) (e : payload) : Prop := Headed {
  hd_delim : kp_delim e = ">";
  hd_dict : is_dict (kp_data e) = true;
  hd_version : lookup (header_path VERSION) (kp_data e) = Some (VStr event_version);
  hd_timestamp : lookup (header_path TIMESTAMP) (kp_data e) = Some (VStr now);
  hd_event_id : lookup (header_path EVENT_ID) (kp_data e) = Some (VStr (event_id now hex))
}.

Lemma body_path k : split ">" ("payload>" +:+ k) = "payload" :: split ">" k.
Proof. exact (split_app ">" "payload" k eq_refl). Qed.

(** A store in the body changes nothing outside it. *)
Lemma body_frame n k v e q :
  no_char "[" n = true → n ≠ "payload" → kp_delim e = ">" →
  lookup (n :: q) (kp_data (set_payload_attr k v e).2) = lookup (n :: q) (kp_data e).
Proof.
  intros Hn Hne Hd. unfold set_payload_attr. destruct (set_data e ("payload>" +:+ k) v ">" Hd) as (-> & _).
  rewrite body_path. apply lookup_set_diverge. cbn [diverge].
  rewrite (key_index_name n) by done. rewrite decide_False; [done|]. exact (λ H, Hne (eq_sym H)).
Qed.

Lemma headed_attr now hex k v e : headed now hex e → headed now hex (set_payload_attr k v e).2.
Proof.
  intros [Hd Hdict Hv Ht Hi].
  assert (Hf : ∀ x, lookup (header_path x) (kp_data (set_payload_attr k v e).2) = lookup (header_path x) (kp_data e))
    by (intros; by apply body_frame).
  constructor; rewrite ?Hf; try done; unfold set_payload_attr;
    destruct (set_data e ("payload>" +:+ k) v ">" Hd) as (Hdata & Hdel & _); [congruence|].
  rewrite Hdata. destruct (kp_data e); try done. apply set_keeps_dict.
Qed.

#[export] Hint Resolve headed_attr : cortx.

Lemma headed_copy now hex q (f : string → string) ks e :
  headed now hex e →
  headed now hex (st_iter (λ key, let! v := st_lift (Payload.get q key true) in set_payload_attr (f key) v) ks e).2.
Proof.
  apply st_iter_inv. intros key e0 _ He. unfold st_bind, st_lift.
  destruct (Payload.get q key true); [by apply headed_attr|done].
Qed.

Lemma headed_run now hex c e : headed now hex e → headed now hex (run c e).2.
Proof.
  intros He. destruct c as [k v|k v|d|q]; cbn [run]; [by apply headed_attr..| |].
  - unfold set_specific_info, st_bind at 1, st_lift at 1.
    destruct (Payload.init d ">" true) as [p|]; [|done]. by apply (headed_copy _ _ _ (λ k, "specific_info>" +:+ k)).
  - by apply (headed_copy _ _ _ (λ k, k)).
Qed.

Lemma headed_new now hex q e : Event now hex q = Ok e → headed now hex e.
Proof.
  unfold Event. change (Payload.init VNull ">" true) with (Ok (Payload.Payload (VDict []) ">" [])).
  cbn [mbind res_bind]. set (p := Payload.Payload _ _ _).
  assert (Hh : ∃ p1, set_header now hex p = (Ok tt, p1) ∧ headed now hex p1)
    by (eexists; split; [reflexivity|by constructor]).
  destruct Hh as (p1 & Hp & Hh). rewrite (st_bind_run _ _ _ _ _ Hp).
  pose proof (headed_copy now hex q (λ k, k) (Payload.get_keys_rec q "" true) p1 Hh) as Hc.
  unfold constructed, set_payload. destruct (st_iter _ _ p1) as [[[]|] e']; [|done]. by intros [= <-].
Qed.

Lemma headed_get now hex e : headed now hex e →
  Payload.get e ("header>" +:+ VERSION) true = Ok (VStr event_version) ∧
  Payload.get e ("header>" +:+ TIMESTAMP) true = Ok (VStr now) ∧
  Payload.get e ("header>" +:+ EVENT_ID) true = Ok (VStr (event_id now hex)).
Proof.
  intros [Hd Hdict Hv Ht Hi].
  assert (Hg : ∀ k v, accepted k = true → no_char ">" k = true →
      lookup (header_path k) (kp_data e) = Some v → Payload.get e ("header>" +:+ k) true = Ok v).
  { intros k v Hk Hn Hl. unfold Payload.get. rewrite (with_delim_sep e ">") by done.
    change ("header>" +:+ k) with ("header" +:+ String ">" k). rewrite split_app, (split_no_char ">" k) by done.
    apply get_found; [done| |done]. cbn [forallb]. by rewrite Hk. }
  split_and!; by apply Hg.
Qed.

(** C26. The header of an event is fixed when it is created: whatever is set
    later, by any of the methods and also when they raise, its version, its
    time and its identifier are read as they were. *)
Theorem header_kept now hex kwargs e cs :
  HealthEvent now hex kwargs = Ok e →
  let e' := run_all cs e in
  Payload.get e' ("header>" +:+ VERSION) true = Ok (VStr event_version) ∧
  Payload.get e' ("header>" +:+ TIMESTAMP) true = Ok (VStr now) ∧
  Payload.get e' ("header>" +:+ EVENT_ID) true = Ok (VStr (event_id now hex)).
Proof.
  intros He. apply headed_get. assert (Hh : headed now hex e).
  { revert He. unfold HealthEvent, mbind, res_bind. destruct (Payload.init _ _ _) as [p|]; [|done].
    destruct (constructed _); [|done]. apply headed_new. }
  clear He. revert e Hh. induction cs as [|c cs IH]; intros e Hh; [done|]. by apply IH, headed_run.
Qed.

(** ** A new event *)

(** The items of a flat dictionary that [get_keys] lists *)
Definition listed : list (string * value) → list (string * value) := filter (λ kv, is_str_or_int kv.2 = true).

Definition flat (kv : string * value) : Prop :=
  clean_name ">" kv.1 = true ∧ (is_container kv.2 = false ∨ kv.2 = VDict []).

Lemma keys_flat items :
  NoDup (dkeys items) → Forall flat items → _get_keys ">" true [] (VDict items) None = dkeys (listed items).
Proof.
  cbn [_get_keys]. intros Hnd Hf. unfold listed.
  enough (Hg : ∀ ks, (∀ k, k ∈ dkeys items → k ∉ ks) →
    foldl (λ keys '(key, val),
      let newkey := under ">" None key in
      if is_container val then _get_keys ">" true keys val (Some newkey)
      else if is_str_or_int val then append_new keys newkey else keys) ks items
    = ks ++ dkeys (filter (λ kv, is_str_or_int kv.2 = true) items)) by (apply Hg; set_solver).
  induction Hf as [|[k v] items [_ Hv] Hf IH]; intros ks Hks; [by rewrite app_nil_r|].
  apply NoDup_cons in Hnd as [Hk Hnd]. cbn [foldl fst snd] in *. rewrite filter_cons. cbn [snd].
  assert (Hn : k ∉ ks) by (apply Hks; left).
  assert (Hrest : ∀ k', k' ∈ dkeys items → k' ∉ ks) by (intros; apply Hks; by right).
  destruct Hv as [-> | ->]; [|by apply IH].
  case_decide as Hs; [|destruct (is_str_or_int v); [done|by apply IH]].
  rewrite Hs. unfold append_new. rewrite decide_False by done. rewrite IH; [|done|].
  - by rewrite <- app_assoc.
  - intros k' Hk' [?|Hx]%elem_of_app; [by apply (Hrest k')|]. apply list_elem_of_singleton in Hx as ->. done.
Qed.

Lemma clean_simple n : clean_name ">" n = true → simple n = true.
Proof. intros (_ & Ho & Hd)%clean_name_parts. by apply andb_true_intro. Qed.

Lemma get_flat items ks k v :
  clean_name ">" k = true → dget k items = Some v →
  Payload.get (Payload (VDict items) ">" ks) k true = Ok v.
Proof.
  intros (Hb & Ho & Hd)%clean_name_parts Hv. unfold Payload.get, with_delim. cbn [kp_delim kp_data].
  rewrite (split_no_char ">" k) by done. cbn [_get]. rewrite (key_index_name k) by done. by rewrite Hb, Hv.
Qed.

(** The data of an event, by its header and its body: a body without items is
    not there. *)
Definition event_data (now hex : string) (body : list (string * value)) : value :=
  VDict (("header", VDict [(VERSION, VStr event_version); (TIMESTAMP, VStr now); (EVENT_ID, VStr (event_id now hex))])
         :: match body with [] => [] | _ => [("payload", VDict body)] end).

Lemma set_pair n k v items b :
  no_char "[" n = true → no_char "[" k = true → default (VDict []) (dget n items) = VDict b →
  _set [n; k] v (VDict items) = (Ok tt, VDict (dset n (VDict (dset k v b)) items)).
Proof.
  assert (Htouch : ∀ m (c : value) its, dset m c (touch m its) = dset m c its)
    by (intros; unfold touch; destruct (dget m its); [done|apply dset_dset]).
  intros Hn Hk Hb. cbn [_set]. rewrite (key_index_name n), (key_index_name k) by done.
  cbn [bad_index fst snd slot]. rewrite dget_touch, Hb.
  cbn [default from_option id descend is_str_or_list]. by rewrite !Htouch.
Qed.

Lemma set_body now hex body ks k v :
  clean_name ">" k = true →
  ∃ ks', set_payload_attr k v (Payload (event_data now hex body) ">" ks) =
    (Ok tt, Payload (event_data now hex (dset k v body)) ">" ks').
Proof.
  intros (_ & Ho & Hd)%clean_name_parts. unfold set_payload_attr, Payload.set, with_delim. cbn [kp_delim kp_data].
  rewrite body_path, (split_no_char ">" k) by done. unfold event_data.
  assert (Hne : ∃ x l, dset k v body = x :: l) by (destruct body as [|[k' v'] body]; cbn; [|case_decide]; eauto).
  destruct Hne as (x & l & Hl). rewrite Hl.
  destruct body as [|b body]; [rewrite (set_pair _ _ _ _ []) by done|rewrite (set_pair _ _ _ _ (b :: body)) by done];
    rewrite Hl; by eexists.
Qed.

(** Copying a flat payload into the body *)
Lemma copy_flat now hex its qks l : ∀ body ks,
  NoDup (dkeys its) → Forall flat its → (∀ kv, kv ∈ l → kv ∈ its) →
  ∃ ks', st_iter (λ key, let! v := st_lift (Payload.get (Payload (VDict its) ">" qks) key true) in
                         set_payload_attr key v) (dkeys l) (Payload (event_data now hex body) ">" ks) =
    (Ok tt, Payload (event_data now hex (dupdate body l)) ">" ks').
Proof.
  induction l as [|[k v] l IH]; intros body ks Hnd Hf Hl; [by eexists|].
  assert (Hkv : (k, v) ∈ its) by (apply Hl; left).
  pose proof Hf as Hk. rewrite Forall_forall in Hk. destruct (Hk _ Hkv) as [Hc _]. cbn [fst] in Hc.
  unfold dkeys. cbn [fmap list_fmap fst st_iter]. unfold st_bind at 1 2, st_lift.
  rewrite (get_flat its qks k v) by (done || by apply dget_elem).
  destruct (set_body now hex body ks k v Hc) as [ks1 ->].
  apply (IH (dset k v body) ks1 Hnd Hf). intros kv Hin. apply Hl. by right.
Qed.

Definition attrs : list (string * value) := (λ k, (k, VStr "")) <$> _health_attrs.

(** The items of the payload of a new event *)
Definition health_items (kwargs : list (string * value)) : list (string * value) :=
  dset SPECIFIC_INFO (VDict []) (dupdate attrs kwargs).

Lemma health_payload_run kwargs :
  Forall (λ kv, clean_name ">" kv.1 = true) kwargs →
  ∃ ks, health_payload kwargs (Payload (VDict []) ">" []) = (Ok tt, Payload (VDict (health_items kwargs)) ">" ks).
Proof.
  intros Hk. unfold health_payload.
  assert (Ha : ∃ ks, st_iter (λ key, Payload.set key (VStr "")) _health_attrs (Payload (VDict []) ">" []) =
    (Ok tt, Payload (VDict attrs) ">" ks)) by (eexists; vm_compute; reflexivity).
  destruct Ha as [ks Ha]. rewrite (st_bind_run _ _ _ _ _ Ha).
  assert (Hs : Forall (λ kv, simple kv.1 = true) kwargs)
    by (eapply Forall_impl; [exact Hk|intros; by apply clean_simple]).
  rewrite (st_bind_run _ _ _ _ _ (set_all_simple kwargs attrs ks Hs)).
  rewrite set_simple by done. by eexists.
Qed.

Lemma flat_health kwargs :
  Forall (λ kv, clean_name ">" kv.1 = true ∧ is_container kv.2 = false) kwargs →
  Forall flat (health_items kwargs) ∧ NoDup (dkeys (health_items kwargs)).
Proof.
  intros Hk. split.
  - assert (Hset : ∀ k v l, flat (k, v) → Forall flat l → Forall flat (dset k v l)).
    { intros k v l Hkv Hl. induction Hl as [|[k' v'] l Hh Hl IH]; cbn; [by constructor|].
      case_decide; [subst; by constructor|by constructor]. }
    apply Hset; [split; [done|by right]|].
    assert (Ha : Forall flat attrs)
      by (unfold attrs; apply Forall_fmap; repeat (constructor; [split; [done|by left]|]); constructor).
    revert Ha. unfold dupdate. generalize attrs as l.
    induction Hk as [|[k v] kwargs [Hc Hv] Hk IH]; intros l Hl; [done|].
    apply IH, Hset; [split; [done|by left]|done].
  - apply NoDup_dset, NoDup_dupdate. apply (bool_decide_unpack _). vm_compute. exact I.
Qed.

(** What a new event holds: the header, and in the body the attributes of
    health events, empty unless they are given, with everything else given,
    in the order of the calls; only texts, integers and booleans get there,
    and the empty [specific_info] does not. *)
Theorem health_event_exact now hex kwargs :
  Forall (λ kv, clean_name ">" kv.1 = true ∧ is_container kv.2 = false) kwargs →
  ∃ e, HealthEvent now hex kwargs = Ok e ∧
    kp_data e = event_data now hex (listed (dset SPECIFIC_INFO (VDict []) (dupdate attrs kwargs))).
Proof.
  intros Hk. destruct (flat_health kwargs Hk) as [Hf Hnd]. unfold HealthEvent.
  change (Payload.init VNull ">" true) with (Ok (Payload (VDict []) ">" [])). cbn [mbind res_bind].
  destruct (health_payload_run kwargs) as [qks ->]; [eapply Forall_impl; [exact Hk|by intros ? []]|].
  cbn [constructed]. unfold Event. change (Payload.init VNull ">" true) with (Ok (Payload (VDict []) ">" [])).
  cbn [mbind res_bind].
  assert (Hh : ∃ ks, set_header now hex (Payload (VDict []) ">" []) = (Ok tt, Payload (event_data now hex []) ">" ks))
    by (eexists; reflexivity).
  destruct Hh as [ks Hh]. rewrite (st_bind_run _ _ _ _ _ Hh). unfold set_payload, get_keys_rec.
  rewrite decide_True by done. cbn [kp_data kp_delim]. rewrite (keys_flat _ Hnd Hf).
  destruct (copy_flat now hex (health_items kwargs) qks (listed (health_items kwargs)) [] ks Hnd Hf) as [ks' ->].
  { intros kv [_ Hin]%list_elem_of_filter. done. }
  eexists. split; [reflexivity|]. cbn [kp_data]. f_equal. apply (dupdate_fresh []).
  unfold dkeys, listed. eapply sublist_NoDup; [exact Hnd|]. apply fmap_sublist, sublist_filter.
Qed.

(** ** The information specific to a resource *)

Definition info_key (k : string) : string := "payload>" +:+ "specific_info>" +:+ k.

Lemma info_path k : split ">" (info_key k) = "payload" :: "specific_info" :: split ">" k.
Proof. unfold info_key. rewrite body_path. by rewrite <- (split_app ">" "specific_info" k eq_refl). Qed.

Lemma info_canonical k : canonical ">" k → canonical ">" (info_key k).
Proof.
  intros (cs & [Hne Hcs] & ->). exists (CName "payload" :: CName "specific_info" :: cs).
  split; [split; [done|by repeat constructor]|]. by destruct cs.
Qed.

Lemma info_indep k1 k2 : indep (split ">" k1) (split ">" k2) = true →
  indep (split ">" (info_key k1)) (split ">" (info_key k2)) = true.
Proof. intros Hi. by rewrite !info_path. Qed.

Lemma info_loop q ks : ∀ e,
  doc ">" q → clean ">" q → doc ">" e → NoDup ks → (∀ k, k ∈ ks → k ∈ get_keys_rec q "" true) →
  ∃ e', st_iter (λ key, let! v := st_lift (Payload.get q key true) in
                        set_payload_attr ("specific_info>" +:+ key) v) ks e = (Ok tt, e') ∧ doc ">" e' ∧
    (∀ k, k ∈ ks → denotes e' (info_key k) = denotes q k) ∧
    (∀ r x, Forall (λ k, indep (split ">" (info_key k)) (split ">" r) = true) ks →
       denotes e r = Some x → denotes e' r = Some x).
Proof.
  induction ks as [|k ks IH]; intros e Hq Hcl He Hnd Hks.
  { exists e. split; [done|]. split; [done|]. split; [intros k Hk; by apply not_elem_of_nil in Hk|done]. }
  apply NoDup_cons in Hnd as [Hnk Hnd].
  destruct (keys_get_str ">" q k Hq Hcl) as (v & Hg & Hden); [apply Hks; left|].
  assert (Hc : canonical ">" k) by (apply (keys_elem ">" q k (doc_tree _ _ Hq) Hcl), Hks; left).
  destruct (doc_set ">" e (info_key k) v He (info_canonical k Hc)) as (e1 & Hset & He1 & Hk & _ & Hind).
  destruct (IH e1 Hq Hcl He1 Hnd) as (e' & Hrun & He' & Hread & Hframe); [intros; apply Hks; by right|].
  exists e'. split.
  { cbn [st_iter]. unfold st_bind at 1 2, st_lift. rewrite Hg. unfold set_payload_attr.
    change ("payload>" +:+ "specific_info>" +:+ k) with (info_key k). by rewrite Hset. }
  split; [done|]. split.
  - intros k' [->|Hk']%elem_of_cons; [|by apply Hread]. rewrite Hden. apply Hframe; [|done].
    apply Forall_forall. intros k' Hk'. apply info_indep, (keys_indep ">" q); try (done || by apply doc_tree).
    + apply Hks. by right. + apply Hks. left. + by intros ->.
  - intros r x [Hr Hrs]%Forall_cons Hx. apply Hframe; [done|]. by apply Hind.
Qed.

(** The information of a resource, a document of texts, is read back from
    the event key by key. *)
Theorem specific_info_read e d :
  doc ">" e → wf (VDict d) → string_data (VDict d) = true → clean_data ">" (VDict d) = true →
  ∃ e', set_specific_info (VDict d) e = (Ok tt, e') ∧
    ∀ k, k ∈ _get_keys ">" true [] (VDict d) None →
      ∃ s, lookup (split ">" k) (VDict d) = Some (VStr s) ∧
           Payload.get e' ("payload>specific_info>" +:+ k) true = Ok (VStr s).
Proof.
  intros He Hwf Hs Hcl. unfold set_specific_info, st_lift, st_bind at 1.
  change (Payload.init (VDict d) ">" true)
    with (Ok (Payload (VDict d) ">" (Some <$> _get_keys ">" true [] (VDict d) None))).
  set (q := Payload _ _ _). assert (Hq : doc ">" q) by (constructor; [constructor; [done..|by exists ">"%char]|done..]).
  destruct (info_loop q (get_keys_rec q "" true) e Hq Hcl He (keys_NoDup q)) as (e' & Hrun & He' & Hread & _); [done|].
  exists e'. split; [exact Hrun|]. intros k Hk.
  assert (Hkq : k ∈ get_keys_rec q "" true) by (unfold get_keys_rec; by rewrite decide_True).
  destruct (keys_get_str ">" q k Hq Hcl Hkq) as (s & _ & Hden). exists s.
  pose proof (denotes_path ">" q k (doc_tree _ _ Hq)) as Hp. rewrite Hden in Hp. split; [done|].
  apply get_denotes_full; [apply He'| |].
  - change ("payload>specific_info>" +:+ k) with (info_key k). unfold key_ok. rewrite (with_delim_sep _ ">") by apply He'.
    rewrite info_path. cbn [forallb]. change (accepted "payload") with true. change (accepted "specific_info") with true.
    cbn [andb]. apply (canonical_accepted ">" k eq_refl). by apply (keys_elem ">" q k (doc_tree _ _ Hq) Hcl).
  - change ("payload>specific_info>" +:+ k) with (info_key k). by rewrite Hread.
Qed.

(** ** Witnesses *)

Definition given : list (string * value) :=
  [("source", VStr "s1"); ("site_id", VInt 1); ("load", VFloat 3 (-1)); ("rack_id", VNull)].

Definition made : payload :=
  Payload (event_data "1635.25" "ab12" (listed (dset SPECIFIC_INFO (VDict []) (dupdate attrs [("source", VStr "s1")]))))
    ">" [].

Lemma header_kept_witness :
  match HealthEvent "1635.25" "ab12" given with
  | Ok e => Payload.get (run_all [CSet "source" (VStr "s2"); CAttr "source>x" VNull; CInfo (VDict [("a", VInt 1)]);
                                  CSet "[0]" VNull; CPayload made] e)
              "header>event_id" true = Ok (VStr "1635ab12")
  | Err _ => False
  end.
Proof.
  destruct (HealthEvent "1635.25" "ab12" given) as [e|] eqn:He; [|vm_compute in He; discriminate].
  apply (header_kept "1635.25" "ab12" given e); exact He.
Defined.

Lemma health_event_exact_witness :
  ∃ e, HealthEvent "1635.25" "ab12" given = Ok e ∧
    kp_data e = event_data "1635.25" "ab12"
      [("source", VStr "s1"); ("cluster_id", VStr ""); ("site_id", VInt 1); ("storageset_id", VStr "");
       ("node_id", VStr ""); ("resource_type", VStr ""); ("resource_id", VStr ""); ("resource_status", VStr "")].
Proof.
  apply (health_event_exact "1635.25" "ab12" given). unfold given. repeat constructor.
Defined.

Lemma made_doc : doc ">" made.
Proof.
  constructor; [constructor; [|done|by exists ">"%char]|done..]. vm_compute.
  repeat first [apply wf_str | apply wf_dict | apply Forall_cons_2 | apply Forall_nil_2
               | apply (bool_decide_unpack _); vm_compute; exact I].
Qed.

Definition info : list (string * value) :=
  [("fan", VDict [("state", VStr "ok"); ("rpm", VList [VStr "900"; VStr "910"])]); ("slot", VStr "3")].

Lemma specific_info_read_witness :
  ∃ e', set_specific_info (VDict info) made = (Ok tt, e') ∧
    ∀ k, k ∈ ["fan>state"; "fan>rpm[0]"; "fan>rpm[1]"; "slot"] →
      ∃ s, lookup (split ">" k) (VDict info) = Some (VStr s) ∧
           Payload.get e' ("payload>specific_info>" +:+ k) true = Ok (VStr s).
Proof.
  apply (specific_info_read made info); [exact made_doc| |reflexivity..].
  repeat first [apply wf_str | apply wf_list | apply wf_dict | apply Forall_cons_2 | apply Forall_nil_2
               | apply (bool_decide_unpack _); vm_compute; exact I].
Defined.

End HealthSpec.
