(* ===== verification/Support.v ===== *)
(** Command lines around the support bundle and the set-up of Kafka:
    [support/cortx_support_bundle.py], [support/utils_support_bundle.py],
    [utils/manifest/manifest_support_bundle.py] and
    [utils/setup/kafka/kafka_setup.py].

    The process and its machine are those of [Bundle].  [argparse] has parsed
    the arguments; the bytes of an archive are a parameter; log records and
    what is printed on the error stream are not modelled. *)
From Stdlib Require Import Ascii.
From stdpp Require Import countable.
From S2P Require Import Prelude PyStr PyVal KvPayload KvPayloadFacts KvStore KvStoreFacts KvFiles KvDir ConfStore SchemaDoc LogFilter.
From S2P Require Import Bundle Discovery Kafka.
Import PyStr Dir Conf Bundle.

(** ** What the command lines share *)

Module CommandLine.

Definition CLUSTER_CONF_LOG_KEY : string := "cortx>common>storage>log".

(** [value.lower() in ('true')] looks for a substring. *)
Definition str2bool (value : string) : option bool :=
  if contains "true" (lower value) then Some true
  else if contains "false" (lower value) then Some false
  else None.

Section process.
Context {W : Type} (machine_id_file : W → option string) (urlparse : string → string * string * string).
Context (classes : list (string * (string → string → string → ST W (Store.backend W)))).

(** The log of a command: its directory must be a text. *)
Definition start_log (cluster_conf : string) : ST (Conf.singleton (W:=W)) unit :=
  mapped_conf machine_id_file urlparse classes cluster_conf ;;;
  let! log_dir := cluster_get CLUSTER_CONF_LOG_KEY VNull in
  match log_dir with
  | VStr _ =>
      conf_class_machine_id machine_id_file ;;;
      cluster_get "utils>log_level" (VStr "INFO") ;;; st_ret tt
  | _ => st_raise TypeError
  end.

End process.
End CommandLine.

(** ** [CortxSupportBundle] *)

Module BundleCli.

Definition SB_PATH : string := "/var/cortx/support_bundle".

(** Arguments of [generate]; an option with [nargs='+'] is a list. *)
Record args := Args {
  a_message : list string; a_bundle_id : list string; a_location : string; a_duration : value;
  a_size_limit : string; a_all : bool; a_binlogs : bool; a_coredumps : bool; a_stacktrace : bool;
  a_modules : option string; a_cluster_conf_path : list string
}.

Definition first (l : list string) : res string := match l with x :: _ => Ok x | [] => Err IndexError end.

(** The class of characters [[@!#$%^&*()<>?/\|}{~:]], where the backslash
    escapes the bar. *)
Definition special : string := "@!#$%^&*()<>?/|}{~:".
Definition special_free (s : string) : bool := negb (existsb (λ c, negb (no_char c special)) (String.list_ascii_of_string s)).

Definition upper_char (c : ascii) : ascii :=
  if ((97 <=? code c) && (code c <=? 122))%N then ascii_of_N (code c - 32) else c.
Definition upper (s : string) : string := smap upper_char s.

(** The checks before anything is done, and what they leave: the identifier,
    the path and the limit. *)
Definition checked (a : args) : res (string * string * string) :=
  message ← first (a_message a);
  if decide (message = "") then Err (BundleError EINVAL) else
  bundle_id ← first (a_bundle_id a);
  let bundle_id := strip bundle_id in
  if decide (bundle_id = "") then Err (BundleError EINVAL) else
  if negb (special_free bundle_id) then Err (BundleError EINVAL) else
  let size_limit := upper (a_size_limit a) in
  if negb (existsb (contains size_limit) ["KB"; "MB"; "GB"]) then Err (BundleError EINVAL) else
  _ ← first (a_cluster_conf_path a);
  if negb (contains (a_location a) "file://") then Err (BundleError EINVAL) else
  Ok (bundle_id, path_of_url (a_location a), size_limit).

(** [--all true] asks for all three. *)
Definition keywords_of (a : args) (config_url size_limit : string) : Bundle.keywords :=
  Bundle.Keywords (Some config_url) (Some (a_duration a)) (Some size_limit)
    (Some (VBool (a_all a || a_binlogs a))) (Some (VBool (a_all a || a_coredumps a)))
    (Some (VBool (a_all a || a_stacktrace a))) (a_modules a).

Section node.
Context {W : Type} {HW : Host W} {L : Schema.Libraries} (cwd : list string).
Context (machine_id_file : W → option string) (urlparse : string → string * string * string).
Context (classes : list (string * (string → string → string → ST W (Store.backend W)))).
Context (py_float : string → option float) (str_float : float → string).
Context (repr : value → string) (repr_comment : value → string) (str_exn : exn → string).

Notation process := (Conf.singleton (W:=W)).
Notation bundle_generate := (Bundle.generate cwd machine_id_file urlparse classes py_float str_float repr repr_comment str_exn).

(** [bundle_obj.bundle_id] of what is not a bundle raises. *)
Definition generate (a : args) : ST process value :=
  let! (bundle_id, path, size_limit) := st_lift (checked a) in
  let! config_url := st_lift (first (a_cluster_conf_path a)) in
  let! message := st_lift (first (a_message a)) in
  on_files (makedirs cwd SB_PATH) ;;;
  let! bundle_obj := bundle_generate (VStr message) path bundle_id (keywords_of a config_url size_limit) in
  match bundle_obj with
  | Generated b => st_ret (VStr (response_msg b))
  | _ => st_raise AttributeError
  end.

Definition get_status (bundle_id : list string) : ST process value :=
  Bundle.get_status machine_id_file urlparse classes repr str_exn (head bundle_id).

Inductive command := Generate (a : args) | GetStatus (bundle_id cluster_conf_path : list string).
Definition cluster_conf_path (c : command) : list string :=
  match c with Generate a => a_cluster_conf_path a | GetStatus _ p => p end.
Definition func (c : command) : ST process value :=
  match c with Generate a => generate a | GetStatus b _ => get_status b end.

(** [len(out) > 0] *)
Definition printed (out : value) : res (option value) :=
  match out with
  | VNull => Ok None
  | VStr s => Ok (if decide (s = "") then None else Some out)
  | VList [] | VDict [] => Ok None
  | VList _ | VDict _ => Ok (Some out)
  | _ => Err TypeError
  end.

(** [main]: what is printed and the exit status *)
Definition body (c : command) : ST process (option value) :=
  let! cluster_conf := st_lift (first (cluster_conf_path c)) in
  CommandLine.start_log machine_id_file urlparse classes cluster_conf ;;;
  let! out := func c in
  st_lift (printed out).
Definition main (c : command) (g : process) : (option value * Z) * process :=
  match body c g with
  | (Ok out, g') => ((out, 0%Z), g')
  | (Err _, g') => ((None, EINVAL), g')
  end.

End node.
End BundleCli.

(** ** [UtilsSupportBundle] *)

Module UtilsBundle.

Definition _default_path : string := "/tmp/cortx/support_bundle/".
Definition _tar_name : string := "py-utils".
Definition _tmp_src : string := "/tmp/cortx/py-utils/".

Section bundle.
Context {W : Type} {HW : Host W} (cwd : list string).
Context (machine_id_file : W → option string) (urlparse : string → string * string * string).
Context (classes : list (string * (string → string → string → ST W (Store.backend W)))).
Context (repr : value → string).
(** The bytes of the archive of a place, under a name *)
Context (tar : Schema.tree → string → string → string).

Notation process := (Conf.singleton (W:=W)).
Notation text := (Files.py_str repr).

Definition __clear_tmp_files : ST process unit := on_files (Shutil.rmtree cwd _tmp_src).

(** [tarfile.open(tar_file_name, 'w:gz')], then [tar.add(source, arcname)]: the
    new file is there when its contents are taken. *)
Definition write_tar (tar_file_name source arcname : string) : ST Schema.tree unit :=
  write_path cwd tar_file_name (VStr "") ;;;
  λ fs, (if os_exists cwd fs source then write_path cwd tar_file_name (VStr (tar fs source arcname))
         else st_raise (OSError ENOENT)) fs.

(** [if not os.path.exists(path): os.makedirs(path)] *)
Definition make_missing (path : string) : ST Schema.tree unit := λ fs,
  (if os_exists cwd fs path then st_ret tt else Shutil.makedirs_new cwd path) fs.

(** The base name of [_tmp_src] is empty. *)
Definition tar_file_of (bundle_id target_path : option string) : string * string :=
  let target_path := path_join (default _default_path target_path) "utils" in
  let tar_name := match bundle_id with Some id => if decide (id = "") then _tar_name else id | None => _tar_name end in
  (target_path, path_join target_path (tar_name +:+ ".tar.gz")).
Definition __generate_tar (bundle_id target_path : option string) : ST process unit :=
  let '(target_path, tar_file_name) := tar_file_of bundle_id target_path in
  on_files (make_missing target_path ;;; write_tar tar_file_name _tmp_src "").

Definition clear_or_make : ST process unit :=
  on_files (λ fs, (if os_exists cwd fs _tmp_src then Shutil.rmtree cwd _tmp_src else Shutil.makedirs_new cwd _tmp_src) fs).

(** The name that [copytree] ignores is one that no file has. *)
Definition collect (src : string) : ST Schema.tree unit := Shutil.copytree cwd src (path_join _tmp_src "logs") "".

Definition generate (bundle_id target_path : option string) (cluster_conf_url : string) : ST process unit :=
  mapped_conf machine_id_file urlparse classes cluster_conf_url ;;;
  let! log_base := cluster_get CommandLine.CLUSTER_CONF_LOG_KEY VNull in
  let! machine_id := conf_class_machine_id machine_id_file in
  clear_or_make ;;;
  let! log_base := st_lift (match log_base with VStr s => Ok s | _ => Err TypeError end) in
  on_files (collect (path_join log_base ("utils/" +:+ text machine_id))) ;;;
  __generate_tar bundle_id target_path ;;;
  __clear_tmp_files.

(** No call reaches [__copy_file]. *)
Definition __copy_file (source : string) (destination : option string) : ST process unit :=
  on_files (make_missing (Shutil.dirname _tmp_src)) ;;;
  let destination := default (path_join _tmp_src (last_name source)) destination in
  λ g,
  match on_files (Shutil.copyfile cwd source destination) g with
  | (Err (OSError e), g') => (Err (if decide (e = ENOENT) then UtilsError ENOENT else OSError e), g')
  | r => r
  end.

(** The parsed arguments; the options after the first three are parsed and not
    used. *)
Record args := Args {
  a_bundle_id : option string; a_path : option string; a_cluster_conf : string;
  a_services : list string; a_duration : string; a_size_limit : string;
  a_binlogs : bool; a_coredumps : bool; a_stacktrace : bool; a_modules : option string
}.
Definition main (a : args) : ST process unit := generate (a_bundle_id a) (a_path a) (a_cluster_conf a).

End bundle.
End UtilsBundle.

(** ** [ManifestSupportBundle] *)

Module ManifestBundle.

Definition _tmp_dir : string := "/tmp/cortx".
Definition _tar_name : string := "manifest".
Definition _default_path : string := _tmp_dir +:+ "/support_bundle/".
Definition _tmp_src : string := _tmp_dir +:+ "/" +:+ _tar_name +:+ "/".
Definition _conf_file : string := "json:///etc/cortx/cluster.conf".

(** [cluster_conf['network']['data']['private_fqdn'].split('.')[0]], or NA
    when that raises *)
Definition __get_private_hostname (cluster_conf : value) : string :=
  match (network ← subscript cluster_conf (VStr "network");
         data ← subscript network (VStr "data");
         subscript data (VStr "private_fqdn")) with
  | Ok (VStr private_fqdn) => (split1 "." private_fqdn).1
  | _ => "NA"
  end.

Section names.
Context (repr : value → string).
Notation text := (Files.py_str repr).

(** Names from the section of the node in the configuration *)
Definition names_of (cluster_conf : value) (bundle_id bundle_time : string) : res (string * string) :=
  cluster_id ← subscript cluster_conf (VStr "cluster_id");
  enclosure_id ← match cluster_conf with
                 | VDict d => match dget "storage" d with
                              | Some storage => subscript storage (VStr "enclosure_id")
                              | None => Ok (VStr "NA")
                              end
                 | _ => Err TypeError
                 end;
  let hostname := __get_private_hostname cluster_conf in
  let start := "manifest_" +:+ bundle_time +:+ "_SN-" +:+ text cluster_id +:+ "_Server-" +:+ hostname in
  let tar_name := if truthy enclosure_id then start +:+ "_plus_Encl-" +:+ text enclosure_id +:+ "_" +:+ bundle_id
                  else start +:+ "_" +:+ bundle_id in
  let file_name := replace "plus_" "" (replace ("_" +:+ bundle_id) "" (replace "manifest_" "MS_" tar_name)) +:+ ".json" in
  Ok (tar_name, file_name).
End names.

(** The threads of the process, on the world of [Discovery]: one is started,
    and what runs while the caller sleeps, for some tenths of a second; the
    clock, in seconds and as the texts that [strftime] makes of it. *)
Class Threads (W : Type) := {
  t_start : (Discovery.world (W:=W) → Discovery.world (W:=W)) → Discovery.world (W:=W) → Discovery.world (W:=W);
  t_sleep : Z → Discovery.world (W:=W) → Discovery.world (W:=W);
  t_seconds : W → Z;
  t_stamp : W → string;       (* '%Y%m%d%H%M%S%f' *)
  t_gmtime : W → string;      (* '%Y%m%dT%H%M%SZ' *)
  t_local : W → string        (* '%Y-%m-%d %H:%M:%S' *)
}.

Section bundle.
Context {W : Type} {HW : Host W} {TW : Threads W} (cwd : list string).
Context (machine_id_file : W → option string) (urlparse : string → string * string * string).
Context (classes : list (string * (string → string → string → ST W (Store.backend W)))).
Context (repr : value → string).
Context (tar : Schema.tree → string → string → string).
(** What the requests of [Discovery] use *)
Context (req_register common_config : Store.backend W) (open_store : string → ST W (Store.backend W)).
Context (providers : list (string * (string → string → res value))).
Context (err_text : exn → string) (strftime : Z → string).

Notation text := (Files.py_str repr).
Notation world := (Discovery.world (W:=W)).

(** The process, and the store of the resource map *)
Definition state : Type := Conf.singleton (W:=W) * option (Store.backend W).
Definition on_process {A} (m : ST (Conf.singleton (W:=W)) A) : ST state A := λ '(g, kv),
  let '(r, g') := m g in (r, (g', kv)).
Definition on_world {A} (m : ST world A) : ST state A := λ '(g, kv),
  match on_machine (λ w, let '(r, (w', kv')) := m (w, kv) in (Ok (r, kv'), w')) g with
  | (Ok (r, kv'), g') => (r, (g', kv'))
  | (Err e, g') => (Err e, (g', kv))
  end.
Definition clock {A} (f : W → A) : ST state A := on_world (λ '(w, kv), (Ok (f w), (w, kv))).
Definition on_tree {A} (m : ST Schema.tree A) : ST state A := on_process (on_files m).

(** *** [Discovery] as its client sees it *)

(** [generate_node_manifest(store_url=...)]: the thread is started, and the
    caller sleeps for half a second. *)
Definition generate_node_manifest (store_url : string) : ST state string :=
  let! request_id := clock t_stamp in
  let! now := clock t_seconds in
  on_world (λ st,
    (Ok tt, t_sleep 500 (t_start (λ st,
      (Discovery.generate_node_manifest req_register common_config open_store providers err_text strftime
         now request_id "" store_url st).2) st))) ;;;
  st_ret request_id.

Definition get_gen_node_manifest_status (request_id : string) : ST state value :=
  let! now := clock t_seconds in
  on_world (Discovery.__get_request_status__ req_register common_config strftime now request_id).

(** *** The operations *)

Definition __clear_tmp_files : ST state unit := on_tree (Shutil.rmtree cwd _tmp_src).

Definition __generate_file_names (bundle_id bundle_time : string) : ST state (string * string) :=
  on_process (conf_class_load machine_id_file urlparse classes "cluster" _conf_file (VBool true) [("skip_reload", VBool true)]) ;;;
  let! cluster_conf := on_process (conf_call (Conf.get "cluster" "server_node")) in
  st_lift (names_of repr cluster_conf bundle_id bundle_time).

Definition __update_request_info (bundle_id manifest_id tar_file : string) : ST state unit :=
  let! now := clock t_local in
  on_world (Discovery.on_store (Store.set req_register ["sb_" +:+ bundle_id]
    [VDict [("manifest_id", VStr manifest_id); ("tar_file", VStr tar_file); ("time", VStr now)]])).

(** [status.startswith(('Success', 'Failed'))] *)
Definition ended (status : value) : res bool :=
  match status with
  | VStr s => Ok (startswith s "Success" || startswith s "Failed")
  | _ => Err AttributeError
  end.
(** The wait, for at most [turns] turns; false: it has not ended. *)
Fixpoint wait (turns : nat) (manifest_id : string) : ST state bool :=
  let! status := get_gen_node_manifest_status manifest_id in
  let! e := st_lift (ended status) in
  if e : bool then st_ret true else
  match turns with
  | O => st_ret false
  | S turns' => on_world (λ st, (Ok tt, t_sleep 500 st)) ;;; wait turns' manifest_id
  end.

(** The path of the archive as it is recorded *)
Definition recorded_tar (target_path tar_name : string) : string := path_join target_path (tar_name +:+ ".tar.gz").
Definition __collect_manifest_data (turns : nat) (bundle_id : string) (target_path : option string) (bundle_time : string)
    : ST state bool :=
  on_tree (UtilsBundle.make_missing cwd (Shutil.dirname _tmp_src)) ;;;
  let! (tar_name, file_name) := __generate_file_names bundle_id bundle_time in
  let file_path := _tmp_src +:+ file_name in
  let! target_path := st_lift (match target_path with Some p => Ok p | None => Err TypeError end) in
  let! manifest_id := generate_node_manifest ("json://" +:+ file_path) in
  __update_request_info bundle_id manifest_id (recorded_tar target_path tar_name) ;;;
  wait turns manifest_id.

(** The path of the archive as it is written, under [manifest] *)
Definition written_tar (target_path : option string) (tar_name : string) : string :=
  path_join (path_join (default _default_path target_path) "manifest") (tar_name +:+ ".tar.gz").
(** [os.path.basename('/' + tar_name)] *)
Definition __generate_tar (bundle_id : string) (target_path : option string) (bundle_time : string) : ST state unit :=
  let! (tar_name, _) := __generate_file_names bundle_id bundle_time in
  on_tree (UtilsBundle.make_missing cwd (path_join (default _default_path target_path) "manifest") ;;;
           UtilsBundle.write_tar cwd tar (written_tar target_path tar_name) _tmp_src (last_name ("/" +:+ tar_name))).

(** False: the manifest is still awaited after [turns] turns. *)
Definition generate (turns : nat) (bundle_id : string) (target_path : option string) : ST state bool :=
  on_tree (λ fs, (if os_exists cwd fs _tmp_src then Shutil.rmtree cwd _tmp_src else st_ret tt) fs) ;;;
  let! bundle_time := clock t_gmtime in
  let! done := __collect_manifest_data turns bundle_id target_path bundle_time in
  if done : bool then
    __generate_tar bundle_id target_path bundle_time ;;;
    __clear_tmp_files ;;; st_ret true
  else st_ret false.

(** [None] while the manifest is in progress *)
Definition get_status (bundle_id : string) : ST state (option string) :=
  let! manifest_id := on_world (Discovery.get_one req_register ("sb_" +:+ bundle_id +:+ ">manifest_id")) in
  let! manifest_status := get_gen_node_manifest_status (if truthy manifest_id then text manifest_id else "") in
  match manifest_status with
  | VStr s => let status := (split1 " " s).1 in st_ret (if decide (status = "In-progress") then None else Some status)
  | _ => st_raise AttributeError
  end.

(** [main]: other actions do nothing, and the status is not printed. *)
Definition main (turns : nat) (action bundle_id : string) (path : string) : ST state bool :=
  if decide (action = "create") then generate turns bundle_id (Some path)
  else if decide (action = "status") then get_status bundle_id ;;; st_ret true
  else st_ret true.

End bundle.
End ManifestBundle.

(** ** [kafka_setup] *)

Module KafkaCli.

(** The classes of [Cmd], each with its [name]; [prepare] and [test] of
    [Kafka] do nothing. *)
Inductive command := PostInstall | Prepare | Config | Init | Test | Reset | Cleanup.
Definition commands : list (string * command) :=
  [("post_install", PostInstall); ("prepare", Prepare); ("config", Config); ("init", Init); ("test", Test);
   ("reset", Reset); ("cleanup", Cleanup)].

(** [for server in kafka_servers], for a list of texts *)
Definition servers_of (v : value) : res (list string) :=
  match v with
  | VList l => res_map (λ v, match v with VStr s => Ok s | _ => Err TypeError end) l
  | VStr s => Ok ((λ c, sep c) <$> String.list_ascii_of_string s)
  | _ => Err TypeError
  end.

Section kafka.
Context {W : Type} {H : Kafka.Machine W}.
Notation machine := (Kafka.world (W:=W)).
Context (machine_id_file : machine → option string) (urlparse : string → string * string * string).
Context (classes : list (string * (string → string → string → ST machine (Store.backend machine)))).

Notation process := (Conf.singleton (W:=machine)).

Definition run_command (c : command) (kafka_servers : value) : ST machine unit :=
  match c with
  | PostInstall => Kafka.post_install
  | Prepare | Test => st_ret tt
  | Config => let! servers := st_lift (servers_of kafka_servers) in Kafka.config servers
  | Init => let! servers := st_lift (servers_of kafka_servers) in Kafka.init servers
  | Reset => Kafka.reset
  | Cleanup => Kafka.cleanup
  end.

(** The methods return 0 or raise. *)
Definition body (c : command) (url cluster_conf : string) : ST process unit :=
  conf_class_load machine_id_file urlparse classes "kafka_config" url (VBool true) [] ;;;
  let! kafka_servers := conf_call (Conf.get "kafka_config" "cortx>software>kafka>servers") in
  CommandLine.start_log machine_id_file urlparse classes cluster_conf ;;;
  on_machine (run_command c kafka_servers).

(** [e.rc()] of a [KafkaSetupError] calls an integer: the handler raises. *)
Definition exit_status (r : res unit) : Z :=
  match r with Ok _ => 0 | Err (SetupError _) => 1 | Err _ => EINVAL end.
Definition main (c : command) (url cluster_conf : string) (g : process) : Z * process :=
  let '(r, g') := body c url cluster_conf g in (exit_status r, g').

End kafka.
End KafkaCli.

(** * Theorems *)

Module SupportSpec.

(** ** Arguments *)

(** Any piece of the words is accepted, the empty text among them. *)
Lemma str2bool_pieces :
  CommandLine.str2bool "" = Some true ∧ CommandLine.str2bool "e" = Some true ∧ CommandLine.str2bool "f" = Some false ∧
  CommandLine.str2bool "TRUE" = Some true ∧ CommandLine.str2bool "no" = None ∧ CommandLine.str2bool "falsely" = None.
Proof. by vm_compute. Qed.

Lemma special_free_no c s : no_char c BundleCli.special = false → BundleCli.special_free s = true → no_char c s = true.
Proof.
  unfold BundleCli.special_free. rewrite negb_true_iff. intros Hc Hs. unfold no_char.
  induction s as [|x s IH]; [done|]. cbn [String.list_ascii_of_string existsb] in Hs. apply orb_false_iff in Hs as [Hx Hs].
  cbn [sforall]. rewrite IH by done. rewrite andb_true_r, negb_true_iff. apply negb_false_iff in Hx.
  apply Ascii.eqb_neq. intros ->. congruence.
Qed.

(** An identifier that [generate] accepts has no slash: the bundle's directory
    is an entry of the one asked for.  It has no delimiter either, so that its
    status can be addressed, unless it has a bracket, which is not refused. *)
Lemma accepted_id a bundle_id path size_limit :
  BundleCli.checked a = Ok (bundle_id, path, size_limit) →
  bundle_id ≠ "" ∧ no_char "/" bundle_id = true ∧ no_char ">" bundle_id = true ∧ no_char ":" bundle_id = true.
Proof.
  unfold BundleCli.checked. destruct (BundleCli.first (BundleCli.a_message a)) as [m|]; cbn; [|done].
  case_decide; [done|]. destruct (BundleCli.first (BundleCli.a_bundle_id a)) as [b|]; cbn; [|done].
  case_decide as Hb; [done|]. destruct (BundleCli.special_free (strip b)) eqn:Hs; cbn; [|done].
  destruct (negb _); [done|]. destruct (BundleCli.first (BundleCli.a_cluster_conf_path a)); cbn; [|done].
  destruct (negb _); [done|]. intros [= <- _ _]. split; [done|]. split_and!; by apply special_free_no.
Qed.

(** The path recorded for the archive of a manifest is not where it is
    written. *)
Lemma string_length_app s t : String.length (s +:+ t) = String.length s + String.length t.
Proof. induction s as [|c s IH]; [done|]. cbn. by rewrite IH. Qed.
Lemma tar_misplaced target_path tar_name :
  startswith tar_name "/" = false →
  ManifestBundle.written_tar (Some target_path) tar_name ≠ ManifestBundle.recorded_tar target_path tar_name.
Proof.
  intros Hn. unfold ManifestBundle.written_tar, ManifestBundle.recorded_tar, path_join. cbn [default from_option].
  assert (startswith (tar_name +:+ ".tar.gz") "/" = false) as ->.
  { destruct tar_name as [|c t]; [done|]. change (Ascii.eqb "/" c && startswith t "" = false) in Hn.
    change (Ascii.eqb "/" c && startswith (t +:+ ".tar.gz") "" = false).
    destruct (Ascii.eqb "/" c); [by destruct t|done]. }
  replace (startswith "manifest" "/") with false by done. intros H. apply (f_equal String.length) in H. revert H.
  repeat case_decide; subst; repeat match goal with |- context [endswith ?a ?b] => destruct (endswith a b) | H : context [endswith ?a ?b] |- _ => destruct (endswith a b) end;
    repeat match goal with H : _ +:+ _ = "" |- _ => apply (f_equal String.length) in H end;
    repeat (rewrite ?string_length_app in *; cbn in *); first [congruence|contradiction|lia].
Qed.

(** ** The machine under the process *)

Section machine.
Context {W : Type}.
Notation process := (Conf.singleton (W:=W)).

Definition world_of (g : process) : W :=
  match g_conf g with Some s => cs_world s | None => (g_env g).1.2 end.
Definition put_world (w : W) (g : process) : process := (on_machine (λ _, (Ok tt, w)) g).2.

Lemma world_put w g : world_of (put_world w g) = w.
Proof. unfold world_of, put_world, on_machine. destruct (g_conf g); [done|]. by destruct (g_env g) as [[? ?] ?]. Qed.
Lemma on_machine_run {A} (m : ST W A) g : on_machine m g = let '(r, w) := m (world_of g) in (r, put_world w g).
Proof.
  unfold world_of, put_world, on_machine. destruct (g_conf g) as [s|]; [by destruct (m (cs_world s))|].
  destruct (g_env g) as [[stores w] now]. cbn. by destruct (m w).
Qed.
Lemma on_tree_run {HW : Host W} {A} (m : ST Schema.tree A) g :
  on_files m g = let '(r, fs) := m (h_tree (world_of g)) in (r, put_world (h_set_tree fs (world_of g)) g).
Proof. unfold on_files. rewrite on_machine_run. by destruct (m (h_tree (world_of g))). Qed.

End machine.

(** ** The wait for a manifest *)

Section wait.
Import StoreFacts.
Import ManifestBundle.
Context {W : Type} {TW : Threads W}.
Context (reg common : Store.backend W) (strftime : Z → string).
Context (dom : value → Prop) (valid : W → Prop) {BL : Store.BackendLaws reg ">" dom valid}.
Context (dom_update : ∀ items s t, dom (VDict items) →
  dom (VDict (dupdate items [("status", VStr s); ("time", VStr t)]))).

Notation world := (Discovery.world (W:=W)).
Notation process := (Conf.singleton (W:=W)).

Lemma on_world_run {A} (m : ST world A) g kv :
  on_world m (g, kv) = let '(r, (w, kv')) := m (world_of g, kv) in (r, (put_world w g, kv')).
Proof. unfold on_world. rewrite on_machine_run. by destruct (m (world_of g, kv)) as [r [w kv']]. Qed.

Definition finished (s : string) : bool := startswith s "Success" || startswith s "Failed".

(** The register has the request, which has finished or was made at [since] or
    before, and the configuration the time of expiry. *)
Definition known (id : string) (e since : Z) (st : world) : Prop :=
  ∃ items s t start,
    DiscoverySpec.entry reg dom valid id st.1 items ∧
    dget "status" items = Some (VStr s) ∧ s ≠ "" ∧
    dget "time" items = Some (VStr t) ∧ LogFilter.strptime " " t = Some start ∧
    (finished s = true ∨ (start / LogFilter.second ≤ since)%Z) ∧
    Discovery.get_one common "discovery>resource_map>expiry_sec" st = (Ok (VInt e), st).

Notation status := (get_gen_node_manifest_status reg common strftime).

(** What one question answers, and what it leaves *)
Lemma status_run id e since g kv :
  fair id = true → known id e since (world_of g, kv) →
  ∃ s g', status id (g, kv) = (Ok (VStr s), (g', kv)) ∧
    ((since + e < t_seconds (world_of g))%Z → finished s = true) ∧
    (finished s = false → world_of g' = world_of g).
Proof.
  intros Hid (items & s & t & start & Hent & Hs & Hne & Ht & Hp & Hold & He).
  pose proof (DiscoverySpec.processing_status_exact reg common strftime dom valid dom_update
    (t_seconds (world_of g)) id (world_of g) kv items s t start e Hid Hent Hs Hne Ht Hp He) as Hst.
  unfold get_gen_node_manifest_status. erewrite st_bind_run; [|unfold clock; rewrite on_world_run; reflexivity].
  rewrite on_world_run, world_put. unfold Discovery.__get_request_status__.
  rewrite decide_False by (by intros ->).
  destruct (e <? t_seconds (world_of g) - start / LogFilter.second)%Z eqn:Hexp.
  - destruct Hst as (w' & Hst & _). rewrite Hst. eexists _, _. by split.
  - rewrite Hst. exists s, (put_world (world_of g) (put_world (world_of g) g)). split; [done|].
    split; [|intros _; apply world_put]. intros Hlate. apply Z.ltb_ge in Hexp. destruct Hold as [|Hold]; [done|lia].
Qed.

(** The world after [n] turns of the sleeping process *)
Definition slept (n : nat) (st : world) : world := Nat.iter n (t_sleep 500) st.

Lemma wait_from id e since (st0 : world) start turns m g kv :
  fair id = true →
  (∀ n, known id e since (slept n st0)) →
  (∀ n, start + Z.of_nat n / 2 ≤ t_seconds (slept n st0).1)%Z →
  (since + e < start + Z.of_nat (m + turns) / 2)%Z →
  (world_of g, kv) = slept m st0 →
  ∃ st, wait reg common strftime turns id (g, kv) = (Ok true, st).
Proof.
  intros Hid Hk Hclock. revert m g kv. induction turns as [|turns IH]; intros m g kv Hlate Hw;
    pose proof (Hk m) as Hkm; rewrite <- Hw in Hkm; destruct (status_run id e since g kv Hid Hkm) as (s & g' & Hs & Hend & Hsame);
    specialize (Hclock m) as Hm; rewrite <- Hw in Hm; cbn [fst] in Hm; cbn [wait];
    (erewrite st_bind_run; [|exact Hs]); (erewrite st_bind_run; [|reflexivity]); cbn [ended];
    fold (finished s); destruct (finished s) eqn:Hf; try (by eexists).
  - rewrite Nat.add_0_r in Hlate. by specialize (Hend ltac:(lia)).
  - unfold st_bind. rewrite on_world_run, (Hsame eq_refl), Hw.
    destruct (t_sleep 500 (slept m st0)) as [w kv'] eqn:Hsl. apply (IH (S m)).
    + by replace (S m + turns) with (m + S turns) by lia.
    + rewrite world_put. symmetry. exact Hsl.
Qed.

(** Whether or not the thread that makes the manifest ever ends, the wait for
    it does: a request that stays in progress is declared expired once the
    time of expiry has passed. *)
Theorem wait_ends id e since turns g kv :
  fair id = true →
  (∀ n, known id e since (slept n (world_of g, kv))) →
  (∀ n, t_seconds (world_of g) + Z.of_nat n / 2 ≤ t_seconds (slept n (world_of g, kv)).1)%Z →
  (since + e < t_seconds (world_of g) + Z.of_nat turns / 2)%Z →
  ∃ st, wait reg common strftime turns id (g, kv) = (Ok true, st).
Proof. intros Hid Hk Hc Hl. by apply (wait_from id e since (world_of g, kv) (t_seconds (world_of g)) turns 0 g kv). Qed.

End wait.

(** ** A thread that hangs *)

(** The register, and the clock in thousandths of a second *)
#[local] Instance hung : ManifestBundle.Threads (value * value) := {
  t_start _ st := st;
  t_sleep ms := λ '((register, now), kv), ((register, match now with VInt t => VInt (t + ms) | _ => now end), kv);
  t_seconds w := match w.2 with VInt t => (t / 1000)%Z | _ => 0%Z end;
  t_stamp _ := "r1"; t_gmtime _ := ""; t_local _ := ""
}.

Definition unfinished : list (string * value) :=
  [("rpath", VStr "node"); ("status", Discovery.INPROGRESS); ("url", VStr "json:///tmp/map"); ("time", VStr "1970-01-01 00:00:01")].
Definition register : value := VDict [("r1", VDict unfinished)].
Definition waiting : Conf.singleton (W:=value * value) :=
  Singleton None (VStr ">") VNull (∅, (register, VInt 1000), 0%Z).

Lemma slept_hung n t :
  slept n ((register, VInt t), None) = ((register, VInt (t + Z.of_nat n * 500)), None).
Proof.
  induction n as [|n IH]; [by rewrite Z.mul_0_l, Z.add_0_r|].
  change (slept (S n) ?st) with (ManifestBundle.t_sleep 500 (slept n st)). rewrite IH.
  cbn [ManifestBundle.t_sleep hung]. do 3 f_equal. lia.
Qed.

Lemma unfinished_entry now :
  DiscoverySpec.entry DiscoverySpec.doc1 (λ _, True) DiscoverySpec.doc1_ok "r1" (register, now) unfinished.
Proof.
  assert (Hw : wf (VDict unfinished)).
  { apply wf_dict; [apply (bool_decide_unpack _); vm_compute; reflexivity|].
    repeat first [apply Forall_cons_2|apply Forall_nil_2]; apply wf_str. }
  split_and!; [|by eexists|reflexivity|by split].
  split; [|done]. apply wf_dict; [apply (bool_decide_unpack _); vm_compute; reflexivity|].
  by apply Forall_cons_2; [|apply Forall_nil_2].
Qed.

(** The request of second 1 expires after a minute. *)
Lemma wait_ends_witness :
  ∃ st, ManifestBundle.wait DiscoverySpec.doc1 DiscoverySpec.conf_store DiscoverySpec.clock 122 "r1" (waiting, None) = (Ok true, st).
Proof.
  apply (wait_ends DiscoverySpec.doc1 DiscoverySpec.conf_store DiscoverySpec.clock (λ _, True) DiscoverySpec.doc1_ok
    (λ _ _ _ _, I) "r1" 60 1 122 waiting None).
  - reflexivity.
  - intros n. change (world_of waiting) with (register, VInt 1000). rewrite slept_hung.
    exists unfinished, "In-progress", "1970-01-01 00:00:01", LogFilter.second.
    split; [apply unfinished_entry|]. do 3 (split; [done|]). split; [vm_compute; reflexivity|]. split; [right; vm_compute; discriminate|].
    reflexivity.
  - intros n. change (world_of waiting) with (register, VInt 1000). rewrite slept_hung. cbn [fst snd ManifestBundle.t_seconds hung].
    replace (1000 + Z.of_nat n * 500)%Z with (Z.of_nat n * 500 + 1 * 1000)%Z by lia. rewrite Z.div_add by lia.
    replace (Z.of_nat n / 2)%Z with (Z.of_nat n * 500 / 1000)%Z; [change (1000 / 1000)%Z with 1%Z; lia|].
    change 1000%Z with (2 * 500)%Z. by rewrite Z.div_mul_cancel_r.
  - vm_compute. reflexivity.
Defined.

(** ** The support bundle of the utilities *)

Section cleaned.
Context {W : Type} {HW : Host W} (cwd : list string).
Context (tree_set : ∀ fs (w : W), h_tree (h_set_tree fs w) = fs).

Lemma step_ok fs cur c q : step_path fs cur c = Ok q →
  q = if decide (c = "" ∨ c = ".") then cur else if decide (c = "..") then removelast cur else cur ++ [c].
Proof. unfold step_path. destruct (node_at fs cur) as [[]|]; [|done..]. repeat case_decide; by intros [= <-]. Qed.
Lemma resolve_tmp fs p : resolve fs cwd UtilsBundle._tmp_src = Ok p → p = ["tmp"; "cortx"; "py-utils"].
Proof.
  unfold resolve. rewrite decide_False by done.
  change (start cwd UtilsBundle._tmp_src) with (@nil string).
  change (split "/" UtilsBundle._tmp_src) with [""; "tmp"; "cortx"; "py-utils"; ""]. cbn [walk_path].
  repeat match goal with
  | |- context [step_path fs ?cur ?c] =>
      destruct (step_path fs cur c) as [?|] eqn:Hst; [apply step_ok in Hst; cbn in Hst; subst; cbn [mbind res_bind]|done]
  end. by intros [= <-].
Qed.

(** What is collected on the way is not left behind. *)
Lemma generate_cleans machine_id_file urlparse classes repr tar bundle_id target_path url (g g' : Conf.singleton (W:=W)) :
  UtilsBundle.generate cwd machine_id_file urlparse classes repr tar bundle_id target_path url g = (Ok tt, g') →
  ∀ k, h_tree (world_of g') !! (["tmp"; "cortx"; "py-utils"] ++ k) = None.
Proof.
  intros Hrun k. unfold UtilsBundle.generate in Hrun.
  repeat (apply st_bind_ok in Hrun as (? & ? & _ & Hrun)).
  unfold UtilsBundle.__clear_tmp_files in Hrun. rewrite on_tree_run in Hrun. unfold Shutil.rmtree in Hrun.
  destruct (resolve _ cwd UtilsBundle._tmp_src) as [p|] eqn:Hp; [|done]. apply resolve_tmp in Hp as ->.
  destruct (node_at _ _) as [[]|]; [|done..]. injection Hrun as <-. rewrite world_put, tree_set.
  apply map_lookup_filter_None. right. intros n _. cbn [fst]. by intros [].
Qed.
End cleaned.

End SupportSpec.
