(* ===== verification/Platform.v ===== *)
(** What the components take from the platform: [log.py], [process.py],
    [ssh.py], [http/client.py], [security/key_manager.py],
    [security/cipher.py], [appliance_info/appliance.py] and
    [cleanup/es_data_cleanup.py]; and [CortxConf] of [common/common.py].

    The processes, the connections and the cryptography behind them are
    parameters; files are those of [KvDir]. *)
From Stdlib Require Import Ascii.
From stdpp Require Import countable.
From S2P Require Import Prelude PyStr PyVal KvStore KvFiles KvDir ConfStore SchemaDoc.
Import PyStr Dir.

(** ** [log.py] *)

Module Log.

(** Handlers; a file is rotated at [max_bytes], which is not modelled. *)
Inductive handler :=
| SysLogHandler (server port : string)
| RotatingFileHandler (log_file : string) (max_bytes backup_count : Z)
| StreamHandler (level : Z).

#[global] Instance handler_eq_dec : EqDecision handler.
Proof. solve_decision. Defined.

Record logger := Logger { lg_level : Z; lg_handlers : list handler }.

(** The registry of [logging], [Log.logger], [Log.audit_logger] ([None]: the
    attribute does not exist), the files, and what the handlers wrote, the
    latest last. *)
Record state := State {
  registry : gmap string logger;
  log_logger : option string;
  audit_logger : option string;
  fs : Schema.tree;
  written : list (handler * string)
}.
Definition set_registry (f : gmap string logger → gmap string logger) (s : state) : state :=
  State (f (registry s)) (log_logger s) (audit_logger s) (fs s) (written s).
Definition on_fs {A} (c : ST Schema.tree A) : ST state A := λ s,
  let '(r, t) := c (fs s) in (r, State (registry s) (log_logger s) (audit_logger s) t (written s)).

(** [getattr(Log, level)] of a level *)
Definition levels : list (string * Z) :=
  [("CRITICAL", 50); ("ERROR", 40); ("WARN", 30); ("WARNING", 30); ("INFO", 20); ("DEBUG", 10); ("NOTSET", 0)]%Z.
Definition level_of (name : string) : res Z :=
  match dget name levels with Some l => Ok l | None => Err AttributeError end.

Record options := Options {
  level : string; backup_count : Z; file_size_in_mb : Z; syslog : option (string * string);
  console_output : bool; console_output_level : string
}.
Definition defaults : options := Options "INFO" 10 10 None false "WARN".

Section log.
Context (cwd : list string).
(** Whether the root logger has handlers; the names of services have no dots. *)
Context (root_handlers : bool).

(** Opening a file to append to it *)
Definition touch (path : string) : ST Schema.tree unit := λ t,
  match resolve t cwd path with
  | Err e => (Err e, t)
  | Ok p =>
      match node_at t p with
      | Some FDir => (Err (OSError EISDIR), t)
      | Some (FFile _) => (Ok tt, t)
      | None => (Ok tt, <[p := FFile ""]> t)
      end
  end.

Definition add_handler (h : handler) (l : logger) : logger := Logger (lg_level l) (lg_handlers l ++ [h]).
Definition has_handlers (l : logger) : bool := negb (bool_decide (lg_handlers l = [])) || root_handlers.

(** The file is opened whether or not its handler is kept. *)
Definition with_target (o : options) (log_path file_name : string) (max_bytes : Z) (l : logger) : ST state logger :=
  match syslog o with
  | Some (server, port) => st_ret (add_handler (SysLogHandler server port) l)
  | None =>
      if decide (log_path = "") then st_ret l else
      let log_file := path_join log_path (file_name +:+ ".log") in
      on_fs (touch log_file) ;;;
      st_ret (if has_handlers l then l else add_handler (RotatingFileHandler log_file max_bytes (backup_count o)) l)
  end.
Definition with_console (o : options) (l : logger) : res logger :=
  if console_output o then lv ← level_of (console_output_level o); Ok (add_handler (StreamHandler lv) l) else Ok l.

(** The logger is the one of the registry: what was added stays when a later
    step raises. *)
Definition keep_logger (name : string) (l : logger) : ST state unit := λ s, (Ok tt, set_registry <[name := l]> s).
Definition _get_logger (o : options) (file_name : string) (audit : bool) (log_level : Z) (log_path : string) (max_bytes : Z)
    : ST state string :=
  let logger_name := if audit then file_name +:+ "_audit" else file_name in
  let! handlers := (λ s, (Ok (match registry s !! logger_name with Some l => lg_handlers l | None => [] end), s)) in
  let l := Logger log_level handlers in
  keep_logger logger_name l ;;;
  let! l := with_target o log_path file_name max_bytes l in
  keep_logger logger_name l ;;;
  let! l := st_lift (with_console o l) in
  keep_logger logger_name l ;;;
  st_ret logger_name.

(** [os.makedirs(log_path)] unless it is there; that it is there by now is no
    error. *)
Definition make_log_path (log_path : string) : ST state unit := λ s,
  if negb (bool_decide (log_path = "")) && negb (os_exists cwd (fs s) log_path) then
    match on_fs (Shutil.makedirs_new cwd log_path) s with
    | (Err e, s') => (if decide (e = OSError Shutil.EEXIST) then Ok tt else Err e, s')
    | r => r
    end
  else (Ok tt, s).

Definition init (service_name log_path : string) (o : options) : ST state unit :=
  make_log_path log_path ;;;
  let max_bytes := (file_size_in_mb o * 1024 * 1024)%Z in
  let! log_level := st_lift (level_of (level o)) in
  let! audit := _get_logger o service_name true log_level log_path max_bytes in
  (λ s, (Ok tt, State (registry s) (log_logger s) (Some audit) (fs s) (written s))) ;;;
  let! system := _get_logger o service_name false log_level log_path max_bytes in
  λ s, (Ok tt, State (registry s) (Some system) (audit_logger s) (fs s) (written s)).

(** *** Messages

    They are given without arguments, so that their text is not a format. *)

Definition takes (lv : Z) (h : handler) : bool :=
  match h with StreamHandler min => (min <=? lv)%Z | _ => true end.
Definition emit (name : string) (lv : Z) (text : string) : ST state unit := λ s,
  match registry s !! name with
  | None => (Ok tt, s)
  | Some l =>
      let hs := if (lg_level l <=? lv)%Z then filter (λ h, takes lv h = true) (lg_handlers l) else [] in
      (Ok tt, State (registry s) (log_logger s) (audit_logger s) (fs s) (written s ++ ((λ h, (h, text)) <$> hs)))
  end.

Definition message (caller msg : string) : string := "[" +:+ caller +:+ "] " +:+ msg.
Definition log_at (lv : Z) (caller msg : string) : ST state unit := λ s,
  match log_logger s with None => (Ok tt, s) | Some name => emit name lv (message caller msg) s end.
Definition debug : string → string → ST state unit := log_at 10.
Definition info : string → string → ST state unit := log_at 20.
Definition warn : string → string → ST state unit := log_at 30.
Definition error : string → string → ST state unit := log_at 40.

(** The text of the exception is not in its message, which ends in a letter. *)
Definition exception (caller class : string) : ST state unit := log_at 40 caller ("[" +:+ class +:+ "] e").

(** The test of [critical] is the wrong way round. *)
Definition critical (caller msg : string) : ST state unit := λ s,
  match log_logger s with Some _ => (Ok tt, s) | None => (Err AttributeError, s) end.

Definition audit (caller msg : string) : ST state unit := λ s,
  match audit_logger s with None => (Err AttributeError, s) | Some name => emit name 20 (message caller msg) s end.
Definition support_bundle : string → string → ST state unit := audit.

(** What is printed, and the message *)
Definition console (caller msg : string) : ST state string :=
  debug caller msg ;;; st_ret (message caller msg).

(** *** [trace_method] *)

Section trace.
Context {A : Type} (repr : A → string) (lv : Z) (exclude_args : list string) (truncate_at : nat).

Definition _fmt_value (v : A) : string :=
  let str_value := repr v in
  if (String.length str_value <? truncate_at)%nat then str_value else String.substring 0 truncate_at str_value +:+ "...".

Definition start_message (qualname : string) (args : list A) (kwargs : list (string * A)) : string :=
  let pos_args := _fmt_value <$> args in
  let kw_args := (λ kv, kv.1 +:+ "=" +:+ _fmt_value kv.2) <$> filter (λ kv, kv.1 ∉ exclude_args) kwargs in
  "[" +:+ qualname +:+ "] Invoked with (" +:+ join "," (pos_args ++ kw_args) +:+ ")".
Definition end_message (qualname : string) (response : A) : string :=
  "[" +:+ qualname +:+ "] Returned " +:+ _fmt_value response.

(** [Log.logger.log(level, message)], with no test of the logger *)
Definition log_raw (text : string) : ST state unit := λ s,
  match log_logger s with None => (Err AttributeError, s) | Some name => emit name lv text s end.
Definition wrapper (qualname : string) (func : list A → list (string * A) → ST state A)
    (args : list A) (kwargs : list (string * A)) : ST state A :=
  log_raw (start_message qualname args kwargs) ;;;
  let! resp := func args kwargs in
  log_raw (end_message qualname resp) ;;;
  st_ret resp.
End trace.

End log.
End Log.

(** ** [process.py] *)

Module Process.

(** How [subprocess.run] ends: a process, or one of the exceptions the class
    tells apart, with their texts. *)
Inductive outcome :=
| Completed (stdout stderr : option string) (returncode : Z)
| Timeout (text : string)
| CalledProcess (text : string) (returncode : Z)
| Failed (text : string).

Definition ETIMEDOUT : Z := 110.

(** The attributes of a [SimpleProcess]: those that [run] is given stay. *)
Record settings := Settings { p_cmd : string; realtime_output : bool; pipe_stdout : bool; args : list (string * value) }.
Definition new_process (cmd : string) : settings := Settings cmd false true [].
Definition with_args (realtime : option bool) (args' : list (string * value)) (s : settings) : settings :=
  let realtime := default (realtime_output s) realtime in
  Settings (p_cmd s) realtime (pipe_stdout s && negb realtime) (dupdate (args s) args').

Section process.
Context {W : Type}.
(** [subprocess.run] of the words of a command, the standard output piped or
    not, with other arguments; [shlex.split], [None] when it raises; and the
    texts of the exceptions. *)
Context (subprocess_run : list string → bool → list (string * value) → W → outcome * W).
Context (shlex_split : string → option (list string)) (split_error : string → string).

Definition result : Type := option string * option string * Z.
Definition result_of (o : outcome) : result :=
  match o with
  | Completed out err rc => (out, err, rc)
  | Timeout text => (Some "", Some text, ETIMEDOUT)
  | CalledProcess text rc => (Some "", Some text, rc)
  | Failed text => (Some "", Some ("SubProcess Error: " +:+ text), -1)
  end%Z.

(** [SimpleProcess.run]: whatever happens there is a result.  A command that
    cannot be split leaves the standard output piped for the next run. *)
Definition run (realtime : option bool) (args' : list (string * value)) : settings * W → result * (settings * W) := λ '(s, w),
  match shlex_split (p_cmd s) with
  | None =>
      (result_of (Failed (split_error (p_cmd s))),
       (Settings (p_cmd s) (default (realtime_output s) realtime) (pipe_stdout s) (dupdate (args s) args'), w))
  | Some cmd =>
      let s := with_args realtime args' s in
      let '(o, w') := subprocess_run cmd (pipe_stdout s) (args s) w in (result_of o, (s, w'))
  end.

(** *** [PipedProcess] *)

(** [Popen] of the commands, each reading the output of the one before, the
    first without a pipe for its errors. *)
Context (popen : list (list string) → W → res (string * option string * Z) * W).

(** [cmd.split(' | ')] *)
Fixpoint split_pipes (skip : nat) (acc s : string) : list string :=
  match s with
  | EmptyString => [acc]
  | String c s' =>
      match skip with
      | S n => split_pipes n acc s'
      | O => if startswith s " | " then acc :: split_pipes 2 "" s' else split_pipes 0 (acc +:+ sep c) s'
      end
  end.

(** The result with the exit code of the last command.  The errors of a
    single command are not piped, so that [None] is stripped. *)
Definition piped_run (cmd : string) (text_of : exn → string) : W → (string * string * Z) * W := λ w,
  let failed e := ("", "SubProcess Error: " +:+ text_of e, -1)%Z in
  match mapM shlex_split (split_pipes 0 "" cmd) with
  | None => (failed ValueError, w)
  | Some cmds =>
      match popen cmds w with
      | (Err e, w') => (failed e, w')
      | (Ok (out, Some err, rc), w') => ((strip out, strip err, rc), w')
      | (Ok (out, None, rc), w') => (failed AttributeError, w')
      end
  end.

End process.
End Process.

(** ** [ssh.py] *)

Module Ssh.

(** What [paramiko] offers: connecting, opening a channel for files, running a
    command, moving a file. *)
Inductive failure := Authentication | SSHException | SocketTimeout | Other.
Class Paramiko (W : Type) := {
  ssh_connect : string → Z → string → option string → W → option failure * W;
  ssh_open_sftp : W → option failure * W;
  ssh_exec : string → W → res (string * string * Z) * W;      (* output, errors, exit status *)
  ssh_move : string → string → bool → W → bool * W;           (* true: to the remote host *)
  ssh_close : W → W;
  ssh_close_sftp : W → bool * W
}.

Section ssh.
Context {W : Type} {P : Paramiko W}.

(** [client] is there or not; [__sftp] too. *)
Record channel := Channel {
  host : string; user : string; pwd : option string; port : Z; sftp_enabled : bool; client : bool; sftp : bool
}.
Definition state : Type := channel * W.
Definition set_client (c s : bool) (ch : channel) : channel :=
  Channel (host ch) (user ch) (pwd ch) (port ch) (sftp_enabled ch) c s.

(** Every failure is raised as [Exception], the client being set by then. *)
Definition connect : ST state unit := λ '(ch, w),
  match ssh_connect (host ch) (port ch) (user ch) (pwd ch) w with
  | (Some _, w') => (Err PlainException, (set_client true (sftp ch) ch, w'))
  | (None, w') =>
      if sftp_enabled ch then
        match ssh_open_sftp w' with
        | (Some _, w'') => (Err PlainException, (set_client true (sftp ch) ch, w''))
        | (None, w'') => (Ok tt, (set_client true true ch, w''))
        end
      else (Ok tt, (set_client true (sftp ch) ch, w'))
  end.

(** The method object [self.is_connection_alive] is true: [execute] never
    connects, and [None] has no [exec_command]. *)
Definition execute (command : string) : ST state (Z * string) := λ '(ch, w),
  if client ch then
    let '(r, w') := ssh_exec command w in
    (match r with
     | Ok (output, error, rc) => Ok (rc, if (rc =? 0)%Z then output else error)
     | Err e => Err e
     end, (ch, w'))
  else (Err AttributeError, (ch, w)).

Definition move_file (from to : string) (put : bool) : ST state unit := λ '(ch, w),
  if negb (sftp_enabled ch) || negb (sftp ch) then (Err PlainException, (ch, w)) else
  let '(ok, w') := ssh_move from to put w in ((if ok : bool then Ok tt else Err PlainException), (ch, w')).
Definition recv_file (remote_file local_file : string) : ST state unit := move_file remote_file local_file false.
Definition send_file (local_file remote_file : string) : ST state unit := move_file local_file remote_file true.

(** The other methods of a [Channel] *)
Definition not_implemented : ST state unit := st_raise PlainException.

(** A channel for files that cannot be closed leaves the client open. *)
Definition disconnect : ST state unit := λ '(ch, w),
  if negb (client ch) then (Ok tt, (ch, w)) else
  let '(closed, w1) := if sftp_enabled ch then (if sftp ch then ssh_close_sftp w else (false, w)) else (true, w) in
  let w2 := if closed : bool then ssh_close w1 else w1 in
  (Ok tt, (set_client false (sftp ch) ch, w2)).

End ssh.
End Ssh.

(** ** [http/client.py] *)

Module Http.

Section client.
Context {W : Type}.
(** [urlencode], and the request itself: [None] when it fails *)
Context (urlencode : list (string * value) → string).
Context (send : string → string → list (string * string) → list (string * value) → W → option (Z * string) * W).

Definition base_url (host : string) (port : Z) (tls_enabled : bool) : string :=
  (if tls_enabled then "https" else "http") +:+ "://" +:+ host +:+ ":" +:+ Files.dec_Z port.

(** Parameters without a path: the test is of [None]. *)
Definition final_url (url : string) (path : option string) (query_params : option (list (string * value))) : res string :=
  let url := match path with
             | Some p => url +:+ (if startswith p "/" then "" else "/") +:+ p
             | None => url
             end in
  match query_params, path with
  | None, _ => Ok url
  | Some q, Some p => Ok (url +:+ (if contains p "?" then "&" else "?") +:+ urlencode q)
  | Some _, None => Err TypeError
  end.

Definition request (url verb : string) (path : option string) (headers : list (string * string))
    (query_params : option (list (string * value))) (request_params : list (string * value)) : ST W (Z * string) := λ w,
  match final_url url path query_params with
  | Err e => (Err e, w)
  | Ok u => match send verb u headers request_params w with
            | (Some r, w') => (Ok r, w')
            | (None, w') => (Err ServiceError, w')
            end
  end.

End client.
End Http.

(** ** [security/key_manager.py] *)

Module KeyStore.

(** Directories and files with their permissions, and the mask of the process;
    paths as lists of names. *)
Inductive node := Dir (mode : Z) | File (mode : Z).
Record world := World { umask : Z; nodes : gmap (list string) node }.

Definition mode_of (n : node) : Z := match n with Dir m | File m => m end.
Definition set_umask (mask : Z) : ST world Z := λ w, (Ok (umask w), World mask (nodes w)).

(** [path.mkdir(parents=True, exist_ok=True)]: what is missing is made with the
    permissions that the mask leaves. *)
Fixpoint mkdir (cur rest : list string) : ST world unit := λ w,
  match rest with
  | [] => (Ok tt, w)
  | name :: rest' =>
      let place := cur ++ [name] in
      match nodes w !! place with
      | Some (Dir _) => mkdir place rest' w
      | Some (File _) => (Err (OSError (if decide (rest' = []) then Shutil.EEXIST else ENOTDIR)), w)
      | None => mkdir place rest' (World (umask w) (<[place := Dir (Z.ldiff 511 (umask w))]> (nodes w)))
      end
  end.

Definition stat (path : list string) : ST world Z := λ w,
  (match nodes w !! path with Some n => Ok (mode_of n) | None => Err (OSError ENOENT) end, w).

(** [__enter__] returns with the mask of before, which [__exit__] sets again. *)
Definition enter (store_path : list string) : ST world Z :=
  let! old_umask := set_umask 63 in          (* 0o077 *)
  mkdir [] store_path ;;;
  let! mode := stat store_path in
  if negb (Z.land mode 63 =? 0)%Z then set_umask old_umask ;;; st_raise PlainException
  else set_umask 127 ;;; st_ret old_umask.   (* 0o177 *)
Definition exit (old_umask : Z) : ST world unit := set_umask old_umask ;;; st_ret tt.

(** [with KeyMaterialStore(store_path) as store: body] *)
Definition with_store {A} (store_path : list string) (body : ST world A) : ST world A := λ w,
  match enter store_path w with
  | (Err e, w1) => (Err e, w1)
  | (Ok old_umask, w1) =>
      let '(r, w2) := body w1 in
      let '(_, w3) := exit old_umask w2 in (r, w3)
  end.

(** What [open(path, 'w')] makes of a missing file *)
Definition create (path : list string) : ST world unit := λ w,
  match nodes w !! path with
  | Some (Dir _) => (Err (OSError EISDIR), w)
  | Some (File _) => (Ok tt, w)
  | None => (Ok tt, World (umask w) (<[path := File (Z.ldiff 438 (umask w))]> (nodes w)))
  end.

(** [resolve_path]: the path must be there. *)
Definition resolve_path (store_path relative_path : list string) (lax : bool) : ST world (list string) :=
  let path := store_path ++ relative_path in
  let! mode := stat path in
  if negb lax && negb (Z.land mode 127 =? 0)%Z then st_raise PlainException else st_ret path.

End KeyStore.

(** ** [security/cipher.py] *)

Module Cipher.

Definition cortxsec_cmd : string := "/opt/seagate/cortx/extension/cortxsec".

Section cipher.
Context {W : Type}.
(** [Fernet], where [None] is a token that is not valid; the derivation of a
    key of 32 bytes from a salt and a password, in base 64; and the command
    that gives a key, with its output and whether it succeeded. *)
Context (fernet_encrypt : string → string → W → string * W) (fernet_decrypt : string → string → option string).
Context (kdf : string → string → string) (exists_path : W → string → bool) (check_output : list string → W → (string * bool) * W).

Definition encrypt (key data : string) : ST W string := λ w, let '(token, w') := fernet_encrypt key data w in (Ok token, w').
(** [CipherInvalidToken] *)
Definition decrypt (key data : string) : res string :=
  match fernet_decrypt key data with Some s => Ok s | None => Err CertificateError end.

Definition gen_key (str1 str2 : string) (strs : list string) : string := kdf str1 (str2 +:+ String.concat "" strs).

(** The words of a command, [split()] *)
Fixpoint words (acc s : string) : list string :=
  match s with
  | EmptyString => if decide (acc = "") then [] else [acc]
  | String c s' =>
      if is_space c then (if decide (acc = "") then words "" s' else acc :: words "" s') else words (acc +:+ sep c) s'
  end.
Definition generate_key (str1 str2 : string) (strs : list string) : ST W string := λ w,
  if exists_path w cortxsec_cmd then
    let getkey_cmd := cortxsec_cmd +:+ " " +:+ join " " (["getkey"; str1; str2] ++ strs) in
    let '((out, ok), w') := check_output (words "" getkey_cmd) w in
    ((if ok : bool then Ok out else Err PlainException), w')
  else (Ok (gen_key str1 str2 strs), w).

End cipher.
End Cipher.

(** ** [appliance_info/appliance.py] *)

Module Appliance.

(** [_getval], along the parts of the key *)
Fixpoint getval (parts : list string) (data : value) : res value :=
  match parts with
  | [] => Ok data
  | k :: parts' =>
      match data with
      | VDict d => match dget k d with None => Ok VNull | Some v => getval parts' v end
      | _ => Err AttributeError
      end
  end.
(** [_setval]: what is in the way and not a dictionary is replaced by one. *)
Fixpoint setval (parts : list string) (val : value) (d : list (string * value)) : list (string * value) :=
  match parts with
  | [] => d
  | [k] => dset k val d
  | k :: parts' =>
      let below := match dget k d with Some (VDict d') => d' | _ => [] end in
      dset k (VDict (setval parts' val below)) d
  end.

Section appliance.
Context {L : Schema.Libraries} (cwd : list string) (path : string) (k : Schema.kind).

(** [_data]; the document is of the kind of its path. *)
Definition init : value := VNull.
Definition load : ST (value * Schema.tree) unit := λ '(data, fs),
  match Schema.common_load cwd k path fs with Ok v => (Ok tt, (v, fs)) | Err e => (Err e, (data, fs)) end.

(** An exception is logged, and there is no value. *)
Definition get (key : option string) (data : value) : value :=
  match key with
  | None => data
  | Some key => if decide (key = "") then data else
                match getval (split "." key) data with Ok v => v | Err _ => VNull end
  end.
Definition _set (key : string) (val data : value) : value :=
  match data with VDict d => VDict (setval (split "." key) val d) | _ => data end.
Definition _save (data : value) : ST Schema.tree unit := Schema.common_dump cwd k path data.

End appliance.
End Appliance.

(** ** [cleanup/es_data_cleanup.py] *)

Module EsCleanup.

Section cleanup.
Context {W : Type}.
(** [requests.post(url, data)] and [requests.delete(url)], the status and the
    text, or an exception; and [res.get("total", 0)] of the text *)
Context (post : string → string → W → res (Z * string) * W) (http_delete : string → W → res (Z * string) * W).
Context (dumps : value → string) (total : string → res string).

Definition query (days field : string) : value :=
  VDict [("query", VDict [("range", VDict [(field, VDict [("lt", VStr ("now-" +:+ days +:+ "d"))])])])].

(** What is logged of an index: a failure, or how many records went *)
Inductive entry := Error (index : string) | Deleted (total index : string).

(** [response] is the local of the function: after a failed request it is the
    one of the index before. *)
Fixpoint remove_loop (host data : string) (indexes : list string) (response : option (Z * string)) : ST W (list entry) :=
  match indexes with
  | [] => st_ret []
  | index :: indexes' =>
      let! (response, failed) := (λ w,
        match post ("http://" +:+ host +:+ "/" +:+ index +:+ "/_delete_by_query") data w with
        | (Ok r, w') => (Ok (Some r, []), w')
        | (Err _, w') => (Ok (response, [Error index]), w')
        end) in
      match response with
      | None => st_raise UnboundLocalError
      | Some (status, text) =>
          let! deleted := (if (status =? 200)%Z then let! t := st_lift (total text) in st_ret [Deleted t index] else st_ret []) in
          let! rest := remove_loop host data indexes' response in
          st_ret (failed ++ deleted ++ rest)
      end
  end.
Definition remove_old_data_from_indexes (days host : string) (indexes : list string) (field : string) : ST W (list entry) :=
  remove_loop host (dumps (query days field)) indexes None.

Definition remove_by_index (host index : string) : ST W Z := λ w,
  match http_delete ("http://" +:+ host +:+ "/" +:+ index) w with
  | (Ok (status, _), w') => (Ok status, w')
  | (Err e, w') => (Err e, w')
  end.

(** The files, and those that the logger [util_log] writes to: every cleaner
    adds its own.  [errno] is not imported, so that a directory that cannot be
    made raises [NameError]. *)
Definition get_logger (cwd : list string) (filename path : string) : ST (Schema.tree * list string) unit := λ '(fs, handlers),
  let '(made, fs1) := if os_exists cwd fs path then (Ok tt, fs) else Shutil.makedirs_new cwd path fs in
  match made with
  | Err (OSError _) => (Err NameError, (fs1, handlers))
  | Err e => (Err e, (fs1, handlers))
  | Ok _ =>
      let log_file := path_join path (filename +:+ ".log") in
      let '(opened, fs2) := Log.touch cwd log_file fs1 in
      match opened with
      | Ok _ => (Ok tt, (fs2, handlers ++ [log_file]))
      | Err e => (Err e, (fs2, handlers))
      end
  end.
End cleanup.
End EsCleanup.

(** ** [CortxConf] *)

Module CortxConf.

(** The attributes that [init] sets from its keywords *)
Record settings := Settings { _index : string; _cluster_index : string; _cluster_conf : option string }.
Definition initial : settings := Settings "config_file" "cluster" None.

Section conf.
Context {W : Type} (machine_id_file : W → option string) (urlparse : string → string * string * string).
Context (classes : list (string * (string → string → string → ST W (Store.backend W)))).
Context (repr : value → string).

Notation process := (Conf.singleton (W:=W)).
Definition conf_load (index url : string) : ST process unit :=
  Conf.conf_class_load machine_id_file urlparse classes index url (VBool true) [("fail_reload", VBool false)].
Definition conf_get (index key : string) (default_val : value) : ST process value :=
  Conf.conf_call (Conf.get_val index (Some key) default_val true).

Definition get_storage_path (c : settings) (key : string) (none_allowed : bool) : ST process value :=
  let! path := conf_get (_cluster_index c) ("cortx>common>storage>" +:+ key) VNull in
  if negb none_allowed && negb (truthy path) then st_raise (ConfError EINVAL) else st_ret path.

Definition _load_config (c : settings) : ST process unit :=
  let! local_storage_path := get_storage_path c "local" false in
  match local_storage_path with
  | VStr path => conf_load (_index c) ("json://" +:+ path_join path "utils/conf/cortx.conf")
  | _ => st_raise TypeError
  end.
(** A path that was never given has no type of store, as the empty one. *)
Definition _load_cluster_conf (c : settings) : ST process unit :=
  conf_load (_cluster_index c) (default "" (_cluster_conf c)).
Definition init (cluster_conf : option string) (c : settings) : settings * ST process unit :=
  let c := Settings (_index c) (_cluster_index c) (match cluster_conf with Some p => Some p | None => _cluster_conf c end) in
  (c, _load_cluster_conf c ;;; _load_config c).

Definition get (c : settings) (key : string) (default_val : value) : ST process value := conf_get (_index c) key default_val.
Definition set (c : settings) (key : string) (v : value) : ST process unit := Conf.conf_call (Conf.set (_index c) key v).
Definition save (c : settings) : ST process unit := Conf.conf_call (Conf.save (_index c)).

(** Empty texts are as good as none. *)
Definition given (s : option string) : option string := match s with Some "" => None | _ => s end.
Definition get_log_path (c : settings) (component base_dir : option string) : ST process string :=
  let! log_dir := match given base_dir with Some d => st_ret (VStr d) | None => conf_get (_index c) "log_dir" VNull end in
  let! machine_id := Conf.conf_class_machine_id machine_id_file in
  match log_dir with
  | VStr d => st_ret (path_join d ("utils/" +:+ Files.py_str repr machine_id +:+ from_option (λ n, "/" +:+ n) "" (given component)))
  | _ => st_raise TypeError
  end.

Definition get_cluster_conf_path (c : settings) : res string :=
  match _cluster_conf c with Some p => Ok p | None => Err (ConfError ENOENT) end.
End conf.
End CortxConf.

(** * Theorems *)

Module PlatformSpec.

(** ** Logs *)

(** Two lists of keyword arguments that differ in the values of excluded
    ones only *)
Definition same_but {A} (exclude : list string) (k1 k2 : list (string * A)) : Prop :=
  Forall2 (λ a b, a.1 = b.1 ∧ (a.1 ∉ exclude → a.2 = b.2)) k1 k2.

(** The trace of a call does not depend on what its excluded keyword
    arguments are. *)
Lemma trace_hides {A} (repr : A → string) exclude truncate_at qualname args k1 k2 :
  same_but exclude k1 k2 →
  Log.start_message repr exclude truncate_at qualname args k1 = Log.start_message repr exclude truncate_at qualname args k2.
Proof.
  intros Hk. unfold Log.start_message. do 6 f_equal.
  induction Hk as [|[n1 v1] [n2 v2] k1 k2 [Hn Hv] _ IH]; [done|]. cbn in Hn, Hv. subst n2.
  rewrite !filter_cons. cbn [fst]. case_decide as Hin; [|done]. rewrite !fmap_cons, IH. cbn [fst snd]. by rewrite (Hv Hin).
Qed.

(** A critical message is never written. *)
Lemma critical_lost caller msg s : (Log.critical caller msg s).2 = s ∧ is_ok (Log.critical caller msg s).1 = bool_decide (is_Some (Log.log_logger s)).
Proof. unfold Log.critical. by destruct (Log.log_logger s). Qed.

Definition is_file (h : Log.handler) : bool := match h with Log.RotatingFileHandler _ _ _ => true | _ => false end.
Definition files_of (l : Log.logger) : nat := length (filter (λ h, is_file h = true) (Log.lg_handlers l)).
(** No logger writes a message to its file twice. *)
Definition once (s : Log.state) : Prop := map_Forall (λ _ l, files_of l ≤ 1) (Log.registry s).

Lemma once_keep name l s : files_of l ≤ 1 → once s → once (Log.keep_logger name l s).2.
Proof. intros Hl Hs. by apply map_Forall_insert_2. Qed.
Lemma once_registry s s' : Log.registry s' = Log.registry s → once s → once s'.
Proof. unfold once. by intros ->. Qed.
Lemma files_add h l : is_file h = false → files_of (Log.add_handler h l) = files_of l.
Proof. intros Hh. unfold files_of, Log.add_handler. cbn. by rewrite filter_app, filter_cons_False, filter_nil, app_nil_r by congruence. Qed.

Lemma target_once cwd root o path name max l s r s' :
  files_of l ≤ 1 → Log.with_target cwd root o path name max l s = (r, s') →
  Log.registry s' = Log.registry s ∧ ∀ l', r = Ok l' → files_of l' ≤ 1.
Proof.
  intros Hl. unfold Log.with_target. destruct (Log.syslog o) as [[server port]|].
  { intros [= <- <-]. split; [done|]. intros l' [= <-]. by rewrite files_add. }
  case_decide; [by intros [= <- <-]; split; [|intros l' [= <-]]|]. unfold st_bind, Log.on_fs.
  destruct (Log.touch cwd _ (Log.fs s)) as [[[]|e] t]; intros [= <- <-]; [|done]. split; [done|]. intros l' [= <-].
  destruct (Log.has_handlers root l) eqn:Hh; [done|]. unfold Log.has_handlers in Hh. apply orb_false_iff in Hh as [Hh _].
  apply negb_false_iff, bool_decide_eq_true in Hh. unfold files_of, Log.add_handler. by rewrite Hh.
Qed.

Lemma get_logger_once cwd root o name audit lv path max s :
  once s → once (Log._get_logger cwd root o name audit lv path max s).2.
Proof.
  intros Hs. unfold Log._get_logger. set (ln := if audit then _ else _). unfold st_bind at 1.
  set (l0 := Log.Logger lv _).
  assert (Hl0 : files_of l0 ≤ 1).
  { unfold l0. destruct (Log.registry s !! ln) as [l|] eqn:Hl; [exact (Hs ln l Hl)|]. by apply le_S. }
  unfold st_bind at 1. cbn [Log.keep_logger]. unfold st_bind at 1.
  pose proof (once_keep ln l0 s Hl0 Hs) as Hs1. cbn in Hs1. set (s1 := Log.set_registry _ s) in *.
  destruct (Log.with_target cwd root o path name max l0 s1) as [r s2] eqn:Ht.
  destruct (target_once _ _ _ _ _ _ _ _ _ _ Hl0 Ht) as [Hreg Hl1]. pose proof (once_registry _ _ Hreg Hs1) as Hs2.
  destruct r as [l1|e]; [|done]. specialize (Hl1 l1 eq_refl). unfold st_bind at 1. cbn [Log.keep_logger].
  pose proof (once_keep ln l1 s2 Hl1 Hs2) as Hs3. cbn in Hs3. set (s3 := Log.set_registry _ s2) in *.
  unfold st_bind at 1, st_lift, Log.with_console.
  destruct (Log.console_output o); cbn; [destruct (Log.level_of _); cbn; [|done]|]; apply map_Forall_insert_2; done || by rewrite files_add.
Qed.

(** However often services start their logs, also when a start raises, a
    message is written to the file of its logger once at most. *)
Theorem init_once cwd root service path o s : once s → once (Log.init cwd root service path o s).2.
Proof.
  intros Hs. unfold Log.init. unfold st_bind at 1.
  assert (Hp : Log.registry (Log.make_log_path cwd path s).2 = Log.registry s).
  { unfold Log.make_log_path, Log.on_fs. destruct (_ && _); [|done]. by destruct (Shutil.makedirs_new cwd path (Log.fs s)) as [[[]|e] t]. }
  pose proof (once_registry _ _ Hp Hs) as Hs1. destruct (Log.make_log_path cwd path s) as [[[]|e] s1]; [|done].
  unfold st_bind at 1, st_lift. destruct (Log.level_of (Log.level o)) as [lv|]; [|done]. unfold st_bind at 1.
  pose proof (get_logger_once cwd root o service true lv path (Log.file_size_in_mb o * 1024 * 1024) s1 Hs1) as Hs2.
  destruct (Log._get_logger _ _ _ _ true _ _ _ s1) as [[audit|e] s2]; [|done]. unfold st_bind at 1, st_bind at 1.
  set (s3 := Log.State _ _ _ _ _).
  pose proof (get_logger_once cwd root o service false lv path (Log.file_size_in_mb o * 1024 * 1024) s3 Hs2) as Hs4.
  by destruct (Log._get_logger _ _ _ _ false _ _ _ s3) as [[system|e] s4].
Qed.

(** The console gets a message once for every start. *)
Definition quiet : Log.options := Log.Options "INFO" 10 10 None true "WARN".
Definition started (n : nat) : Log.state :=
  Nat.iter n (λ s, (Log.init [] false "svc" "/var/log" quiet s).2)
    (Log.State ∅ None None {[["var"] := FDir; ["var"; "log"] := FDir]} []).
Lemma console_repeated :
  (λ h, h.1) <$> Log.written (Log.error "f" "disk full" (started 3)).2 =
  [Log.RotatingFileHandler "/var/log/svc.log" 10485760 10; Log.StreamHandler 30; Log.StreamHandler 30; Log.StreamHandler 30].
Proof. vm_compute. reflexivity. Qed.

(** ** Commands *)

(** A pipe of one command always fails: its errors are not piped. *)
Lemma one_command_fails {W} shlex_split popen cmd text_of (w : W) :
  Process.split_pipes 0 "" cmd = [cmd] →
  (∀ c w, match (popen [c] w).1 with Ok (_, Some _, _) => False | _ => True end) →
  (Process.piped_run shlex_split popen cmd text_of w).1.2 = (-1)%Z.
Proof.
  intros Hone Hpopen. unfold Process.piped_run. rewrite Hone. cbn [mapM].
  destruct (shlex_split cmd) as [c|]; [|done]. cbn. specialize (Hpopen c w).
  destruct (popen [c] w) as [[[[out [err|]] rc]|e] w']; done.
Qed.

(** A channel that was disconnected runs no command, and does not connect
    again. *)
Lemma no_reconnection {W} {P : Ssh.Paramiko W} command (st : Ssh.state) :
  let st' := (Ssh.disconnect st).2 in Ssh.execute command st' = (Err AttributeError, st').
Proof.
  destruct st as [ch w]. unfold Ssh.disconnect. destruct (Ssh.client ch) eqn:Hc; cbn.
  - destruct (if Ssh.sftp_enabled ch then _ else _) as [closed w1]. done.
  - unfold Ssh.execute. by rewrite Hc.
Qed.

(** ** Keys *)

(** The words of the password are not kept apart. *)
Lemma gen_key_collides kdf salt : Cipher.gen_key kdf salt "a" ["bc"] = Cipher.gen_key kdf salt "ab" ["c"].
Proof. done. Qed.

Lemma mkdir_umask path : ∀ cur (w : KeyStore.world), KeyStore.umask (KeyStore.mkdir cur path w).2 = KeyStore.umask w.
Proof.
  induction path as [|n path IH]; intros cur w; cbn [KeyStore.mkdir]; [done|].
  destruct (KeyStore.nodes w !! _) as [[]|]; [apply IH|done|]. by rewrite IH.
Qed.

(** Within the store what is made is for its owner only. *)
Lemma created_private path w w' :
  KeyStore.umask w = 127%Z → KeyStore.nodes w !! path = None → KeyStore.create path w = (Ok tt, w') →
  KeyStore.nodes w' !! path = Some (KeyStore.File 384).
Proof. intros Hu Hn. unfold KeyStore.create. rewrite Hn, Hu. intros [= <-]. cbn. by rewrite lookup_insert_eq. Qed.

(** A store that is entered is private, and its body runs with a mask that
    leaves files to their owner. *)
Lemma enter_private path w old w1 :
  KeyStore.enter path w = (Ok old, w1) →
  old = KeyStore.umask w ∧ KeyStore.umask w1 = 127%Z ∧
  ∃ n, KeyStore.nodes w1 !! path = Some n ∧ Z.land (KeyStore.mode_of n) 63 = 0%Z.
Proof.
  unfold KeyStore.enter. intros H. apply st_bind_ok in H as (u & s1 & [= <- <-] & H).
  apply st_bind_ok in H as ([] & s2 & Hmk & H). apply st_bind_ok in H as (mode & s3 & Hst & H).
  unfold KeyStore.stat in Hst. destruct (KeyStore.nodes s2 !! path) as [n|] eqn:Hn; [|done]. injection Hst as <- <-.
  destruct (Z.land (KeyStore.mode_of n) 63 =? 0)%Z eqn:Hm; cbn in H; [|done].
  injection H as <- <-. split; [done|]. split; [done|]. exists n. cbn. split; [done|by apply Z.eqb_eq].
Qed.

(** The mask of the process is the one it had before, however the body ends,
    except when the directory cannot be made: then it stays. *)
Lemma umask_restored {A} path (body : ST KeyStore.world A) w r w' :
  KeyStore.with_store path body w = (r, w') →
  KeyStore.umask w' = KeyStore.umask w ∨ (KeyStore.umask w' = 63%Z ∧ ∃ e, r = Err (OSError e)).
Proof.
  unfold KeyStore.with_store. destruct (KeyStore.enter path w) as [[old|e] w1] eqn:He.
  - apply enter_private in He as (-> & _). destruct (body w1) as [r2 w2]. cbn. intros [= <- <-]. by left.
  - intros [= <- <-]. revert He. unfold KeyStore.enter. unfold st_bind at 1. cbn [KeyStore.set_umask].
    unfold st_bind at 1. pose proof (mkdir_umask path [] (KeyStore.World 63 (KeyStore.nodes w))) as Hu.
    assert (Herr : ∀ rest cur w0 e0, (KeyStore.mkdir cur rest w0).1 = Err e0 → ∃ n, e0 = OSError n).
    { induction rest as [|n rest IH]; intros cur w0 e0; cbn [KeyStore.mkdir]; [done|].
      destruct (KeyStore.nodes w0 !! _) as [[]|]; [apply IH|intros [= <-]; by eexists|apply IH]. }
    specialize (Herr path [] (KeyStore.World 63 (KeyStore.nodes w))).
    destruct (KeyStore.mkdir [] path _) as [[[]|e1] w2]; cbn in Hu, Herr.
    + unfold st_bind at 1, KeyStore.stat. destruct (KeyStore.nodes w2 !! path) as [n|].
      * destruct (negb _); [|done]. cbn. intros [= <- <-]. by left.
      * intros [= <- <-]. right. split; [done|by eexists].
    + intros [= <- <-]. right. split; [done|]. destruct (Herr _ eq_refl) as [n ->]. by eexists.
Qed.

(** ** Appliance *)

Lemma getval_setval parts v d : parts ≠ [] → Appliance.getval parts (VDict (Appliance.setval parts v d)) = Ok v.
Proof.
  revert d. induction parts as [|k parts IH]; intros d Hne; [done|].
  destruct parts as [|k' parts]; cbn [Appliance.setval Appliance.getval]; rewrite dget_dset_eq; [done|]. by apply IH.
Qed.

(** What was set under a key, dotted or not, is what is read under it. *)
Lemma appliance_set_get key v d :
  key ≠ "" → Appliance.get (Some key) (Appliance._set key v (VDict d)) = v.
Proof.
  intros Hk. unfold Appliance.get, Appliance._set. rewrite decide_False by done.
  rewrite getval_setval; [done|]. destruct key as [|c key]; [done|]. cbn. case_match; [done|]. by case_match.
Qed.

(** ** Old data *)

(** When the request for the first index fails there is no response to look
    at. *)
Lemma first_failure_raises {W} post total host data index indexes e (w : W) :
  (∀ u w, (post u data w).1 = Err e) →
  (EsCleanup.remove_loop post total host data (index :: indexes) None w).1 = Err UnboundLocalError.
Proof.
  intros Hp. cbn [EsCleanup.remove_loop]. unfold st_bind at 1.
  specialize (Hp ("http://" +:+ host +:+ "/" +:+ index +:+ "/_delete_by_query") w).
  destruct (post _ data w) as [r w']. cbn in Hp. by subst r.
Qed.

End PlatformSpec.
